(* ===== verification/_CoqProject ===== *)
-Q . S2P
Prelude.v
GoStrings.v
Net.v
Values.v
GoConv.v
CircuitBreaker.v
Retry.v
DataSource.v
Mock.v
SqlCore.v
SqlAdapter.v
Whitelist.v
StarRocks.v
ClickHouse.v
MutationSql.v
Sanitizer.v
FuncMap.v
Pagination.v
TemplateParams.v
TemplateLoader.v
Json.v
JsonRaw.v
Scalar.v
RateLimit.v
DistributedLimit.v
FallbackLimit.v
Manager.v
Auth.v
Http.v
Health.v
Middleware.v
Server.v
GraphqlDepth.v
Batch.v
Dataloader.v
Effects.v
Tracing.v
Metrics.v
Mutation.v
Prometheus.v
Resolver.v
PrometheusResolver.v
PrometheusFacts.v
ClickHouseConn.v
Adapters.v
ReadPath.v
Lru.v
MemoryCache.v
Utf8.v
Normalize.v
CacheLayer.v
RedisCache.v
TemplateCache.v
TemplateEngine.v
TemplateResolver.v
Enums.v
GraphqlInput.v
GraphqlOutput.v
GraphqlContexts.v
GraphqlTyped.v
GraphqlMutations.v
Config.v
ConfigLoad.v
Observability.v
Startup.v
Lifecycle.v
JwtAuth.v
HotReload.v
Sanitize.v
GraphqlIntrospection.v
GraphqlSchema.v
GraphqlFailures.v
Sources.v
Playground.v
Parallel.v
ClientIp.v
