(* ===== verification/Prelude.v ===== *)
(** * A verification development for mountainKing

    mountainKing is a GraphQL server in Go over several data sources.  A request passes a
    chain of HTTP middlewares (request id, body limit, concurrency, CORS, CSRF,
    authentication, failure limiter, rate limit, compression), the depth limit of the GraphQL
    handler, the generated executor, which makes the arguments of each field and puts the
    answers together, and a resolver.  A query resolver turns the arguments into a
    [QueryRequest] and hands it to the data source manager, which calls an adapter (StarRocks,
    ClickHouse, Prometheus or the mock); a mutation resolver validates, checks, sends one
    statement and audits it; a template resolver renders a SQL text from a file, sanitizes and
    wraps it, and sends it past the cache.  The configuration decides which of these parts
    exist, and some of it is reloaded while the server runs.

    ** How to read it

    Every file models the Go files its first comment names.  A Go struct is a record, a method
    a function from the state (and what the outside world answers) to the result and the new
    state, [any] is the type [GoVal], [(T, error)] is [result T], a pointer that can be nil is
    an [option] whose dereference ([deref]) panics, a panic of the mutation pipeline is the
    error [Panic], which no operation handles; a map whose iteration order
    matters is an association list in that order and any other map a [gmap].  Integers are [Z];
    [int] and [int64] wrap where the code can overflow ([wrap64]), floats are IEEE binary64
    data.  Instants and durations are nanoseconds, and the clock is an argument.  A method that
    holds its mutex from beginning to end is one step; code that does not is a step relation
    ([FallbackLimit], [Dataloader], [Parallel], [MemoryCache] on concurrent [Set]s).  What
    belongs to other packages (databases, Redis, the HTTP server, regexp, text/template, bcrypt,
    JWT, Viper, OpenTelemetry, gqlgen's runtime and parser, fsnotify, hash functions) is a
    parameter: an argument of the operations that use it or a class, with the documented
    behaviour the theorems rely on as the laws of a second class, for which an instance shows
    that they can hold.  Strings are byte strings.

    ** The files

    - Foundations: [Prelude] (integers, association lists, slices), [GoStrings] (package
      strings and decimal text), [Net] (addresses of package net), [Values] (dynamic values,
      errors of internal/errors, the error monad), [GoConv] (conversions, durations), [Utf8],
      [Json] and [JsonRaw] (encoding/json), [Effects] (the writer and error monad, audit
      entries), [Http] (requests, responses).
    - Data sources: [DataSource] (interface.go), [CircuitBreaker], [Retry] (pkg/retry),
      [Manager] (registry.go, manager.go, reconnect.go), [SqlCore] (both SQL
      builders, generic in a [Dialect]), [Whitelist], [SqlAdapter] (what the SQL adapters
      share), [StarRocks], [ClickHouse], [ClickHouseConn] (its connection and DSN), [Mock],
      [Prometheus] and [PrometheusFacts], [Adapters] (the four kinds behind the manager's
      interface, the registry of main.go), [Sources] (their names, types and factories, the
      data source for tests).
    - Writes: [MutationSql] (validators and statements), [Mutation] (the pipeline).
    - Reads: [Resolver] and [PrometheusResolver] (query.go), [ReadPath] (resolver, manager,
      adapter and builder composed), [Scalar] (GraphQL scalars), [Dataloader], [Parallel]
      (executeParallel).
    - Templates: [Sanitizer], [FuncMap], [Pagination], [TemplateParams], [TemplateLoader],
      [TemplateCache] (keys), [TemplateEngine], [TemplateResolver].
    - The generated executor (internal/graphql/generated): [Enums], [GraphqlInput] (arguments),
      [GraphqlOutput] (fields, objects and lists), [GraphqlContexts] (field contexts),
      [GraphqlIntrospection]; [GraphqlSchema] holds the embedded schema texts and the
      specification of the executor that they are, read off by a reader of the schema language;
      [GraphqlTyped], [GraphqlMutations] and [GraphqlFailures] hold theorems on the executor.
    - Caching: [Lru] (the library as an interface), [MemoryCache], [CacheLayer], [RedisCache],
      [Normalize] (normal form of a query and its keys).
    - HTTP: [RateLimit], [DistributedLimit], [FallbackLimit], [Auth], [Middleware], [Server]
      (chain and routes), [Health], [GraphqlDepth], [Batch], [Playground]; [JwtAuth] and
      [ClientIp] hold theorems on [Auth].
    - Process: [Config] (records, defaults, validation), [ConfigLoad] (files, environment,
      decoding), [Startup] (main.go), [Lifecycle] (probe, banner, shutdown), [HotReload] (both
      watch loops), [Tracing], [Metrics], [Observability] (logger, audit log, traced Redis),
      [Sanitize] (masking of logged statements).

    The interfaces between them are classes.  Between components: [Dialect] with
    [DialectLaws] (SqlCore), [DataSourceOps] with [StructuredErrors] (Manager, implemented by
    Adapters), [Cache] with [CacheLaws] (CacheLayer, implemented by the memory cache and by
    RedisCache), [RateLimiter].  To libraries, with the laws the theorems use: [LRU],
    [RedisClient], [TokenBucket], [Viper], [Registry] (Prometheus client), [JwtParser],
    [GqlgenInput], [Gqlgen] and [Introspection] (gqlgen), [SelectionDepth], [GoRegexp] and
    [RegexpReplace], [Gob]; and without laws [TextTemplate], [JsonText], [FloatText], [GoQuote],
    [TimeText], [LuaNum], [Mux], [UnicodeTables].

    ** What is shown

    - Injection safety: the text of a read or write statement does not depend on the values it
      carries ([Build_text_ignores_values], [mutation_text_ignores_values]); a statement has
      safe bytes only and one placeholder per parameter ([Build_statement_safe],
      [mutation_statements_well_formed]); the builder accepts exactly the requests its whitelist
      admits ([Build_accepts_iff]); through resolver, manager and adapter nothing else can
      influence an answer ([read_path_confined]); no write without a filter
      ([no_unfiltered_write]).  The template sanitizer is the reference lexer
      ([sanitizeSQL_refines_lexer]), what the template functions print is scanned as one closed
      piece ([quoted_value_confined]), and every statement of the template engine passes the
      sanitizer ([template_statements_safe]).
    - Access: what a request met on its way through the chain ([chain_gate]), what a mutation
      was checked for before its statement ([mutation_gate]), also from the document on
      ([document_gate]), which authenticator a process has ([authentication_started]), that an
      identity comes from a signed token ([jwt_identity_signed]), whose address a request is
      counted under behind proxies that join or add header lines
      ([client_ip_behind_proxies]), that introspection is as
      configured ([introspection_gated]), and that guessing credentials is not limited
      ([failed_logins_unlimited]).
    - The executor: arguments arrive as they were sent and are checked ([arguments_arrive],
      [arguments_checked]) and nothing undeclared is read ([only_declared_read]); what is
      written for an answer has the type the schema declares, but for floats and JSON values
      that have no text ([query_answer_typed]); the function of every object type answers
      exactly the fields the schema texts declare, at their types ([executor_follows_schema],
      [contexts_follow_schema]); mutations run in order ([mutations_in_order]); one failed root
      field loses the answers of all others ([one_failure_loses_all]).
    - State: the manager's tables agree ([manager_invariant]); the caches refine a table of the
      last values ([cache_refines_spec]) and are transparent over any backend that keeps the
      laws ([cache_layer_transparent]); clearing by prefix in Redis leaves no key that was there all the
      time, and none at all when nobody else writes ([redis_prefix_cleared]); the token bucket bounds what it lets through
      ([keyed_rate_bound]); a reload keeps the templates that fail ([reload_isolates]); where
      each setting comes from and how it is decoded ([setting_sources]), and which configurations
      are accepted ([accepted_config_iff]).
    - Concurrency: when the recovery of the fallback limiter is lost for good
      ([recovery_race_sticks]), concurrent [Set]s leak memory accounting
      ([concurrent_sets_leak]), the loader answers every request exactly once
      ([loader_exactly_once]), parallel queries do not influence each other
      ([parallel_isolated]), a shutdown stops everything once ([shutdown_complete]).
    - Round trips and typing: [safeString_roundtrip], [query_string_roundtrip],
      [dsn_credentials], [any_value_iff], [validated_params_typed], [compression_transparent],
      [normal_form_canonical].
    - Records of what happened: one audit line for each mutation that does not panic, and which
      do ([mutation_audit_trail]); the page of the development mode
      cannot be left by its texts ([playground_tabs_confined]).
    - What does not do what it means to do is stated as a theorem about the code as it is
      ([prometheus_data_lost], [cursors_ignored], [queries_run_once], [cache_keys_collide],
      [one_failure_loses_all] and others); each of them is a finding of the project's manifest.

    Each theorem that is a property of the manifest and has a hypothesis has a witness, a
    closed lemma of the same name with the suffix [_witness], that applies it to concrete data.

    ** Bounds and fuel

    Recursion is structural except where a comment says otherwise.  The scan loop of RedisCache takes any
    fuel: its theorem says what each pass does and when the fuel is what stops it, for DEL and
    SCAN among the commands of other clients; the cache backend runs it on its own with
    [scan_fuel], which under the law [ScanEnds] (an iteration of a server to which nobody else
    writes ends) it never spends; the depth of a selection set recurses on fuel and is shown to agree with its
    depth exactly when the fragments are not cyclic ([depth_limit_decides]); introspection
    takes fuel, and more than the selections are deep changes nothing ([enough_fuel]); the
    reader of the schema texts takes the length of the text and the number of its tokens, of
    which every step uses at least one; the recursive type
    mapper of ClickHouse carries the bound of the code, as does the AnyValue scalar; JSON
    decoders take the length of the text, which every call shortens; an IPv6 address has at
    most 8 groups; [Retry.Do] takes [MaxRetries] + 1 rounds, as the code does; a run of
    [executeParallel] takes two steps of every goroutine, whatever the scheduler does.

    ** What is not modelled, and why

    - internal/context/keys.go, the names of context values: the values are fields of the
      modelled requests.  tools.go has no code.
    - The libraries: gqlparser's reading and validating of documents, gqlgen's runtime,
      golang-jwt, html/template and text/template, Viper's file formats, zap,
      OpenTelemetry, the Prometheus client, go-redis, the SQL drivers.  [Server.PlaygroundHandler]
      only calls gqlgen's page.
    - The (un)marshallers the generator makes for types and their list or null wrappings that no
      field of the schema uses, and the interface tables that connect the generated functions.
    - The texts of log lines that carry no decision.
    - Opening sockets, signals, reading files and YAML, the Redis, MySQL and ClickHouse wire
      protocols: the outcomes of these calls are arguments. *)
From Stdlib Require Export ZArith Lia ZifyBool Ascii String.
From stdpp Require Export base option list strings gmap pretty sorting numbers list_numbers.

(** Go integers, byte strings and the error monad the components share live in
    [Prelude], [GoStrings] and [Values]. *)

Open Scope string_scope.
Open Scope list_scope.
Open Scope Z_scope.
#[global] Arguments String.append !_ _ : simpl nomatch.

(** ** Machine integers *)

(** Go's [int] and [int64] are 64-bit two's complement on the supported
    targets; arithmetic wraps around. *)
Definition min_int64 : Z := - 2 ^ 63.
Definition max_int64 : Z := 2 ^ 63 - 1.
Definition in_int64 (z : Z) : Prop := min_int64 <= z <= max_int64.
Definition wrap64 (z : Z) : Z := (z + 2 ^ 63) mod 2 ^ 64 - 2 ^ 63.
(** [time.Since] / [Time.Sub] saturate at the limits of [time.Duration]. *)
Definition clamp64 (z : Z) : Z := Z.max min_int64 (Z.min max_int64 z).

(** Instants are absolute nanoseconds, durations are [int64] nanoseconds. *)
Definition time_sub (t u : Z) : Z := clamp64 (t - u).
Definition second : Z := 1000000000.
Definition millisecond : Z := 1000000.

(** ** List helpers *)

(** [strings.Join] on a slice of already rendered parts, for any separator. *)
Fixpoint join (sep : string) (parts : list string) : string :=
  match parts with
  | [] => EmptyString
  | [p] => p
  | p :: rest => p +:+ sep +:+ join sep rest
  end.

(** First index-carrying [for i, x := range l] fold used by the loops that
    report the index of an element. *)
Fixpoint indexed_from {A} (i : Z) (l : list A) : list (Z * A) :=
  match l with
  | [] => []
  | x :: l' => (i, x) :: indexed_from (i + 1) l'
  end.
Definition indexed {A} (l : list A) : list (Z * A) := indexed_from 0 l.

(** Slice expressions [l[i:]] and [l[:i]]; [None] is the panic of an index out of range. *)
Definition slice_from {A} (i : Z) (l : list A) : option (list A) :=
  if (0 <=? i) && (i <=? Z.of_nat (length l)) then Some (drop (Z.to_nat i) l) else None.
Definition slice_to {A} (i : Z) (l : list A) : option (list A) :=
  if (0 <=? i) && (i <=? Z.of_nat (length l)) then Some (take (Z.to_nat i) l) else None.
Lemma slice_from_ok {A} i (l : list A) : 0 <= i <= Z.of_nat (length l) -> slice_from i l = Some (drop (Z.to_nat i) l).
Proof. intros H. unfold slice_from. by rewrite (proj2 (andb_true_iff _ _)) by lia. Qed.
Lemma slice_to_ok {A} i (l : list A) : 0 <= i <= Z.of_nat (length l) -> slice_to i l = Some (take (Z.to_nat i) l).
Proof. intros H. unfold slice_to. by rewrite (proj2 (andb_true_iff _ _)) by lia. Qed.

(** Association lists stand for Go maps whose iteration order is observable:
    the order of the list is the order this run's [range] visits the keys. *)
Fixpoint assoc {A} (k : string) (m : list (string * A)) : option A :=
  match m with
  | [] => None
  | (k', v) :: m' => if decide (k' = k) then Some v else assoc k m'
  end.

(** [m[k] = v]. *)
Fixpoint assoc_set {A} (k : string) (v : A) (m : list (string * A)) : list (string * A) :=
  match m with
  | [] => [(k, v)]
  | (k', v') :: m' => if decide (k' = k) then (k, v) :: m' else (k', v') :: assoc_set k v m'
  end.

Fixpoint slen (s : string) : Z :=
  match s with
  | EmptyString => 0
  | String _ s' => 1 + slen s'
  end.

Fixpoint str_forallb (p : ascii -> bool) (s : string) : bool :=
  match s with
  | EmptyString => true
  | String c s' => p c && str_forallb p s'
  end.

(** Number of occurrences of a byte. *)
Fixpoint count_byte (b : ascii) (s : string) : nat :=
  match s with
  | EmptyString => O
  | String c s' => ((if Ascii.eqb c b then 1 else 0) + count_byte b s')%nat
  end.

(** ** Tactics *)

(** Open conjunctions and existentials of the context. *)
Ltac deex :=
  repeat match goal with
  | H : exists x, _ |- _ => let y := fresh x in destruct H as [y H]
  | H : _ /\ _ |- _ => destruct H
  end.

(** Case analysis on every [match] of the goal or of a hypothesis, closing the
    branches that contradict the context. *)
Ltac crush_match :=
  repeat (case_match; simplify_eq/=; try done).

(** A closed question that can be decided. *)
Ltac decided := apply (bool_decide_unpack _); vm_compute; exact I.

Create HintDb mk.

(** ** Lemmas on machine integers *)

Lemma wrap64_id z : in_int64 z -> wrap64 z = z.
Proof.
  unfold in_int64, wrap64, min_int64, max_int64. intros H.
  rewrite Z.mod_small by lia. lia.
Qed.

Lemma wrap64_range z : in_int64 (wrap64 z).
Proof.
  unfold in_int64, wrap64, min_int64, max_int64.
  pose proof (Z.mod_pos_bound (z + 2 ^ 63) (2 ^ 64) ltac:(lia)). lia.
Qed.

Lemma clamp64_id z : in_int64 z -> clamp64 z = z.
Proof. unfold in_int64, clamp64. lia. Qed.

Lemma clamp64_range z : in_int64 (clamp64 z).
Proof. unfold in_int64, clamp64, min_int64, max_int64. lia. Qed.

(** Comparing a saturated difference with an in-range bound is comparing the
    exact difference. *)
Lemma clamp64_ge z b : in_int64 b -> b <= clamp64 z <-> b <= z \/ b = min_int64.
Proof. unfold in_int64, clamp64, min_int64, max_int64. lia. Qed.

#[export] Hint Resolve wrap64_range clamp64_range : mk.

(** ** Lemmas on strings and lists *)

Lemma slen_nonneg s : 0 <= slen s.
Proof. induction s; simpl; lia. Qed.

Lemma slen_length s : slen s = Z.of_nat (String.length s).
Proof. induction s; simpl; lia. Qed.

Lemma str_app_assoc (a b c : string) : (a +:+ b) +:+ c = a +:+ (b +:+ c).
Proof. induction a as [|x a IH]; simpl; [done|]. by rewrite IH. Qed.

Lemma str_app_nil_r (a : string) : a +:+ EmptyString = a.
Proof. induction a as [|x a IH]; simpl; [done|]. by rewrite IH. Qed.

Lemma str_length_app a b : String.length (a +:+ b) = (String.length a + String.length b)%nat.
Proof. induction a as [|c a IH]; simpl; [done|]. by rewrite IH. Qed.

Lemma slen_app a b : slen (a +:+ b) = slen a + slen b.
Proof. induction a as [|x a IH]; simpl; [done|]. rewrite IH. lia. Qed.

Lemma str_forallb_app p a b :
  str_forallb p (a +:+ b) = str_forallb p a && str_forallb p b.
Proof. induction a as [|x a IH]; simpl; [done|]. by rewrite IH, andb_assoc. Qed.

Lemma str_forallb_impl (p q : ascii -> bool) s :
  (forall c, p c = true -> q c = true) ->
  str_forallb p s = true -> str_forallb q s = true.
Proof.
  intros Hpq. induction s as [|c s IH]; simpl; [done|].
  intros [Hc Hs]%andb_true_iff. rewrite (Hpq _ Hc). by apply IH.
Qed.

Lemma count_byte_app b s t :
  count_byte b (s +:+ t) = (count_byte b s + count_byte b t)%nat.
Proof. induction s as [|c s IH]; simpl; [done|]. rewrite IH. lia. Qed.

(** A byte that the predicate rejects does not occur in an accepted string. *)
Lemma count_byte_forallb p b s :
  str_forallb p s = true -> p b = false -> count_byte b s = O.
Proof.
  intros Hs Hb. induction s as [|c s IH]; simpl in *; [done|].
  apply andb_true_iff in Hs as [Hc Hs].
  destruct (Ascii.eqb_spec c b); subst; [congruence|]. by rewrite IH.
Qed.

Lemma join_cons sep p q l : join sep (p :: q :: l) = p +:+ sep +:+ join sep (q :: l).
Proof. done. Qed.

Lemma count_byte_join b sep l :
  count_byte b sep = O ->
  count_byte b (join sep l) = sum_list_with (count_byte b) l.
Proof.
  intros Hsep. induction l as [|p [|q l] IH]; [done|simpl; lia|].
  rewrite join_cons, !count_byte_app, Hsep, IH. simpl. lia.
Qed.

Lemma assoc_elem {A} k (v : A) m : assoc k m = Some v -> (k, v) ∈ m.
Proof.
  induction m as [|[k' v'] m IH]; simpl; [done|].
  case_decide as Hd; intros Hm; simplify_eq; [by left|right; auto].
Qed.

Lemma assoc_None {A} k (m : list (string * A)) : assoc k m = None <-> k ∉ m.*1.
Proof.
  induction m as [|[k' v'] m IH]; simpl; [split; [intros _; inversion 1|done]|].
  rewrite not_elem_of_cons. case_decide; [subst; split; [done|by intros []]|].
  rewrite IH. split; [by split; [apply not_eq_sym|]|by intros []].
Qed.

Lemma assoc_is_Some {A} k (l : list (string * A)) : is_Some (assoc k l) <-> k ∈ l.*1.
Proof. rewrite <- not_eq_None_Some, assoc_None. split; [apply dec_stable|by intros H []]. Qed.

Lemma assoc_NoDup {A} k (v : A) m : NoDup m.*1 -> (k, v) ∈ m -> assoc k m = Some v.
Proof.
  induction m as [|[k' v'] m IH]; simpl; [inversion 2|].
  rewrite NoDup_cons. intros [Hk Hm] [[=-> ->]|Hin]%elem_of_cons.
  - by rewrite decide_True.
  - case_decide; subst; [|by apply IH].
    destruct Hk. apply list_elem_of_fmap. by exists (k, v).
Qed.

Lemma assoc_set_lookup {A} k (v : A) m k' :
  assoc k' (assoc_set k v m) = if decide (k' = k) then Some v else assoc k' m.
Proof.
  induction m as [|[k0 v0] m IH]; simpl; repeat case_decide; simplify_eq/=; try done;
    repeat case_decide; simplify_eq/=; try done.
Qed.

Lemma length_indexed_from {A} i (l : list A) : length (indexed_from i l) = length l.
Proof. revert i. induction l; simpl; intros; [done|]. f_equal. auto. Qed.

Lemma indexed_from_elem {X} (x : X) l : x ∈ l -> forall i, exists j, (j, x) ∈ indexed_from i l.
Proof.
  induction l as [|y l IH]; intros Hin i; [by apply elem_of_nil in Hin|].
  apply elem_of_cons in Hin as [->|Hin]; simpl; [exists i; by left|].
  destruct (IH Hin (i + 1)) as [j Hj]. exists j. by right.
Qed.

Lemma str_forallb_join p sep l :
  str_forallb p sep = true -> Forall (fun s => str_forallb p s = true) l ->
  str_forallb p (join sep l) = true.
Proof.
  intros Hsep. induction 1 as [|a l Ha Hl IH]; [done|].
  destruct l as [|b l]; [done|]. rewrite join_cons, !str_forallb_app. by rewrite Ha, Hsep, IH.
Qed.
