(* ===== verification/GoStrings.v ===== *)
(** * The Go standard library's string routines used by the code

    Go strings are byte sequences; a [string] is a list of 8-bit [ascii].
    [strings.HasPrefix], [Split], [TrimSpace], [ReplaceAll], [strconv.ParseInt],
    [fmt.Sscanf] with [%d] and the case mappings are modelled here on bytes.  Only the
    Unicode tables behind [ToUpper]/[ToLower] on non-ASCII input stay abstract
    ([UnicodeTables]). *)
From S2P Require Import Prelude.

Definition byte_of (n : N) : ascii := ascii_of_N n.
Definition code (c : ascii) : N := N_of_ascii c.
Definition NUL : ascii := byte_of 0.
Definition LF : ascii := byte_of 10.
Definition DQUOTE : ascii := byte_of 34.
Definition SQUOTE : ascii := byte_of 39.
Definition BSLASH : ascii := byte_of 92.
Definition BACKTICK : ascii := byte_of 96.
Definition str1 (c : ascii) : string := String c EmptyString.
(** A literal of the code with a backquote for each double quote. *)
Fixpoint quoted (s : string) : string :=
  match s with
  | EmptyString => EmptyString
  | String c s' => String (if Ascii.eqb c BACKTICK then DQUOTE else c) (quoted s')
  end.

Definition between (lo hi : N) (c : ascii) : bool :=
  ((lo <=? code c) && (code c <=? hi))%N.
Definition is_lower (c : ascii) : bool := between 97 122 c.
Definition is_upper (c : ascii) : bool := between 65 90 c.
Definition is_digit (c : ascii) : bool := between 48 57 c.
Definition is_ascii_byte (c : ascii) : bool := (code c <? 128)%N.
(** [[a-zA-Z0-9_]] and [[a-zA-Z_]] of the identifier regular expressions. *)
Definition ident_start (c : ascii) : bool :=
  is_lower c || is_upper c || Ascii.eqb c "_"%char.
Definition ident_char (c : ascii) : bool := ident_start c || is_digit c.

Fixpoint has_prefix (p s : string) : bool :=
  match p, s with
  | EmptyString, _ => true
  | String _ _, EmptyString => false
  | String a p', String b s' => Ascii.eqb a b && has_prefix p' s'
  end.
Fixpoint str_drop (n : nat) (s : string) : string :=
  match n, s with
  | O, _ => s
  | S n', String _ s' => str_drop n' s'
  | S _, EmptyString => EmptyString
  end.
Fixpoint str_take (n : nat) (s : string) : string :=
  match n, s with
  | S n', String c s' => String c (str_take n' s')
  | _, _ => EmptyString
  end.
Fixpoint str_rev_app (s acc : string) : string :=
  match s with
  | EmptyString => acc
  | String c s' => str_rev_app s' (String c acc)
  end.
Definition str_rev (s : string) : string := str_rev_app s EmptyString.
Definition has_suffix (p s : string) : bool := has_prefix (str_rev p) (str_rev s).
(** [s[:len(s)-len(suffix)]]. *)
Definition cut_suffix (p s : string) : string :=
  str_take (String.length s - String.length p) s.
Fixpoint contains (sub s : string) : bool :=
  has_prefix sub s ||
  match s with EmptyString => false | String _ s' => contains sub s' end.
Fixpoint index_byte (c : ascii) (s : string) : option nat :=
  match s with
  | EmptyString => None
  | String a s' => if Ascii.eqb a c then Some O else S <$> index_byte c s'
  end.
Fixpoint last_index_byte (c : ascii) (s : string) : option nat :=
  match s with
  | EmptyString => None
  | String a s' =>
      match last_index_byte c s' with
      | Some i => Some (S i)
      | None => if Ascii.eqb a c then Some O else None
      end
  end.
(** [strings.Split(s, sep)] for a one-byte separator: always at least one part. *)
Fixpoint split_byte (c : ascii) (s : string) : list string :=
  match s with
  | EmptyString => [EmptyString]
  | String a s' =>
      if Ascii.eqb a c then EmptyString :: split_byte c s'
      else match split_byte c s' with
           | p :: rest => String a p :: rest
           | [] => [String a EmptyString]
           end
  end.
(** [strings.ReplaceAll(s, old, new)] for a one-byte [old]. *)
Fixpoint replace_byte (old : ascii) (new : string) (s : string) : string :=
  match s with
  | EmptyString => EmptyString
  | String a s' =>
      if Ascii.eqb a old then new +:+ replace_byte old new s'
      else String a (replace_byte old new s')
  end.

(** [strings.TrimSpace] removes the Unicode White_Space runes, whose UTF-8
    encodings are the patterns below; [sp_head] matches one at the front of a
    string, [sp_last] one at the front of a reversed string. *)
Definition ascii_space (n : N) : bool := ((9 <=? n) && (n <=? 13) || (n =? 32))%N.
Definition e280_tail (n : N) : bool :=
  ((128 <=? n) && (n <=? 138) || (n =? 168) || (n =? 169) || (n =? 175))%N.
Definition sp3 (a b c : N) : bool :=
  ((a =? 225) && (b =? 154) && (c =? 128) || (a =? 226) && (b =? 128) && e280_tail c
   || (a =? 226) && (b =? 129) && (c =? 159) || (a =? 227) && (b =? 128) && (c =? 128))%N.
Definition sp2 (a b : N) : bool := ((a =? 194) && ((b =? 133) || (b =? 160)))%N.
Definition sp_head (s : string) : option string :=
  match s with
  | String a s1 =>
      if ascii_space (code a) then Some s1 else
      match s1 with
      | String b s2 =>
          if sp2 (code a) (code b) then Some s2 else
          match s2 with
          | String c s3 => if sp3 (code a) (code b) (code c) then Some s3 else None
          | EmptyString => None
          end
      | EmptyString => None
      end
  | EmptyString => None
  end.
Definition sp_last (s : string) : option string :=
  match s with
  | String c s1 =>
      if ascii_space (code c) then Some s1 else
      match s1 with
      | String b s2 =>
          if sp2 (code b) (code c) then Some s2 else
          match s2 with
          | String a s3 => if sp3 (code a) (code b) (code c) then Some s3 else None
          | EmptyString => None
          end
      | EmptyString => None
      end
  | EmptyString => None
  end.
Fixpoint strip (f : string -> option string) (fuel : nat) (s : string) : string :=
  match fuel with
  | O => s
  | S fuel' => match f s with Some s' => strip f fuel' s' | None => s end
  end.
Definition trim_left (s : string) : string := strip sp_head (String.length s) s.
Definition trim_right (s : string) : string :=
  str_rev (strip sp_last (String.length s) (str_rev s)).
Definition trim_space (s : string) : string := trim_right (trim_left s).

(** Case mapping: byte-wise on ASCII strings, the Unicode tables otherwise. *)
Class UnicodeTables := {
  uni_to_upper : string -> string;
  uni_to_lower : string -> string;
}.
Definition upper_byte (c : ascii) : ascii := if is_lower c then byte_of (code c - 32) else c.
Definition lower_byte (c : ascii) : ascii := if is_upper c then byte_of (code c + 32) else c.
Fixpoint str_map (f : ascii -> ascii) (s : string) : string :=
  match s with EmptyString => EmptyString | String c s' => String (f c) (str_map f s') end.
Definition to_upper `{UnicodeTables} (s : string) : string :=
  if str_forallb is_ascii_byte s then str_map upper_byte s else uni_to_upper s.
Definition to_lower `{UnicodeTables} (s : string) : string :=
  if str_forallb is_ascii_byte s then str_map lower_byte s else uni_to_lower s.

(** [strings.EqualFold(s, t)] for a [t] made of ASCII capitals: the simple folds of
    S and K also contain U+017F and U+212A. *)
Fixpoint equal_fold (t s : string) : bool :=
  match t, s with
  | EmptyString, EmptyString => true
  | String u t', String c s' =>
      if Ascii.eqb (upper_byte c) u then equal_fold t' s'
      else if Ascii.eqb u "S"%char && (code c =? 197)%N then
        match s' with
        | String d s'' => (code d =? 191)%N && equal_fold t' s''
        | EmptyString => false
        end
      else if Ascii.eqb u "K"%char && (code c =? 226)%N then
        match s' with
        | String d (String e s'') => ((code d =? 132) && (code e =? 170))%N && equal_fold t' s''
        | _ => false
        end
      else false
  | _, _ => false
  end.

(** [strconv.Itoa] / [FormatInt(_, 10)] / [%d]. *)
Definition itoa (z : Z) : string := pretty z.
Definition digit_val (c : ascii) : Z := Z.of_N (code c) - 48.
Fixpoint digits_val (acc : Z) (s : string) : Z :=
  match s with
  | EmptyString => acc
  | String c s' => digits_val (10 * acc + digit_val c) s'
  end.
Definition check_int64 (z : Z) : option Z :=
  if (min_int64 <=? z) && (z <=? max_int64) then Some z else None.
(** [strconv.ParseInt(s, 10, 64)]: [None] is any error. *)
Definition parse_digits (s : string) : option Z :=
  match s with
  | EmptyString => None
  | _ => if str_forallb is_digit s then Some (digits_val 0 s) else None
  end.
Definition parse_int (s : string) : option Z :=
  match s with
  | String c s' =>
      if Ascii.eqb c "-"%char then d ← parse_digits s'; check_int64 (- d)
      else if Ascii.eqb c "+"%char then d ← parse_digits s'; check_int64 d
      else d ← parse_digits s; check_int64 d
  | EmptyString => None
  end.
(** Longest prefix of digits. *)
Fixpoint take_digits (s : string) : string :=
  match s with
  | String c s' => if is_digit c then String c (take_digits s') else EmptyString
  | EmptyString => EmptyString
  end.
(** The blanks [fmt.Sscanf] skips; a newline is an error. *)
Fixpoint scan_skip (fuel : nat) (s : string) : option string :=
  match fuel with
  | O => Some s
  | S fuel' =>
      match s with
      | String c _ => if Ascii.eqb c LF then None else
          match sp_head s with Some s' => scan_skip fuel' s' | None => Some s end
      | EmptyString => Some s
      end
  end.
(** [fmt.Sscanf(s, "%d", &n)]: text after the number is ignored. *)
Definition sscanf_d (s : string) : option Z :=
  s' ← scan_skip (String.length s) s;
  match s' with
  | String c r =>
      if Ascii.eqb c "-"%char then d ← parse_digits (take_digits r); check_int64 (- d)
      else if Ascii.eqb c "+"%char then d ← parse_digits (take_digits r); check_int64 d
      else d ← parse_digits (take_digits s'); check_int64 d
  | EmptyString => None
  end.

(** [%016x] of a [uint64]. *)
Definition hex_digit (n : N) : ascii := if (n <? 10)%N then byte_of (48 + n) else byte_of (87 + n).
Fixpoint hex_pad (k : nat) (n : N) (acc : string) : string :=
  match k with
  | O => acc
  | S k' => hex_pad k' (n / 16)%N (String (hex_digit (n mod 16)) acc)
  end.
Definition hex16 (n : N) : string := hex_pad 16 n EmptyString.

(** ** Lemmas *)

Lemma code_inj a b : code a = code b -> a = b.
Proof. unfold code. intros H. rewrite <- (ascii_N_embedding a), <- (ascii_N_embedding b). congruence. Qed.

Lemma code_byte n : (n < 256)%N -> code (byte_of n) = n.
Proof. intros H. unfold code, byte_of. by apply N_ascii_embedding. Qed.

Lemma has_prefix_app p s : has_prefix p (p +:+ s) = true.
Proof. induction p as [|c p IH]; simpl; [done|]. by rewrite Ascii.eqb_refl. Qed.

Lemma has_prefix_spec p s : has_prefix p s = true <-> exists r, s = p +:+ r.
Proof.
  split; [|by intros [r ->]; apply has_prefix_app].
  revert s. induction p as [|a p IH]; intros s; simpl; [by exists s|].
  destruct s as [|b s]; [done|]. intros [Hab Hp]%andb_true_iff.
  apply Ascii.eqb_eq in Hab as ->. destruct (IH _ Hp) as [r ->]. by exists r.
Qed.

Lemma split_byte_nonempty c s : split_byte c s <> [].
Proof. destruct s; simpl; [done|]. case_match; [done|]. by case_match. Qed.

Lemma ident_char_not_special c :
  ident_char c = true ->
  c <> BACKTICK /\ c <> SQUOTE /\ c <> DQUOTE /\ c <> BSLASH /\ c <> "?"%char
  /\ c <> ";"%char /\ c <> " "%char /\ c <> "-"%char /\ c <> "/"%char.
Proof. intros H. repeat split; intros ->; vm_compute in H; discriminate. Qed.

(** ** Decimal text *)

Lemma digits_val_app a s t : digits_val a (s +:+ t) = digits_val (digits_val a s) t.
Proof. revert a. induction s as [|c s IH]; intros a; simpl; [done|]. by rewrite IH. Qed.

Lemma pretty_N_char_digit x : (x < 10)%N ->
  is_digit (pretty_N_char x) = true /\ digit_val (pretty_N_char x) = Z.of_N x.
Proof.
  intros H. assert (x = 0 \/ x = 1 \/ x = 2 \/ x = 3 \/ x = 4 \/ x = 5 \/ x = 6 \/ x = 7
    \/ x = 8 \/ x = 9)%N as Hx by lia.
  by repeat destruct Hx as [-> | Hx]; [..|rewrite Hx].
Qed.

(** [pretty] on [N] prints a non-empty run of digits whose value is the number. *)
Lemma pretty_N_go_digits x s : exists ds,
  pretty_N_go x s = ds +:+ s /\ str_forallb is_digit ds = true
  /\ digits_val 0 ds = Z.of_N x /\ ((0 < x)%N -> ds <> EmptyString).
Proof.
  revert s. induction (N.lt_wf_0 x) as [x _ IH]; intros s.
  destruct (decide (x = 0%N)) as [->|Hx].
  - exists EmptyString. rewrite pretty_N_go_0. repeat split. lia.
  - rewrite pretty_N_go_step by lia.
    destruct (IH (x / 10)%N ltac:(apply N.div_lt; lia)
      (String (pretty_N_char (x mod 10)) s)) as (ds & -> & Hd & Hv & _).
    pose proof (N.mod_lt x 10 ltac:(lia)) as Hm.
    destruct (pretty_N_char_digit _ Hm) as [Hc Hcv].
    exists (ds +:+ str1 (pretty_N_char (x mod 10))).
    rewrite str_app_assoc, str_forallb_app, digits_val_app, Hd, Hv. simpl. rewrite Hc, Hcv.
    split; [done|]. split; [done|]. split; [|by destruct ds].
    pose proof (N.div_mod x 10 ltac:(lia)). lia.
Qed.

Lemma pretty_N_digits (x : N) :
  str_forallb is_digit (pretty x) = true /\ digits_val 0 (pretty x) = Z.of_N x
  /\ pretty x <> EmptyString.
Proof.
  unfold pretty, pretty_N. case_decide as Hx; [by subst|].
  destruct (pretty_N_go_digits x EmptyString) as (ds & -> & Hd & Hv & Hn).
  rewrite str_app_nil_r. repeat split; [done|done|]. apply Hn. lia.
Qed.

Definition signed_digits (z : Z) : string :=
  match z with Z0 => "0" | Zpos p => pretty (Npos p) | Zneg p => "-" +:+ pretty (Npos p) end.
Lemma itoa_eq z : itoa z = signed_digits z.
Proof. by destruct z. Qed.

Definition itoa_byte (c : ascii) : bool := is_digit c || Ascii.eqb c "-"%char.
Lemma itoa_bytes z : str_forallb itoa_byte (itoa z) = true.
Proof.
  assert (Himp : forall c, is_digit c = true -> itoa_byte c = true)
    by (intros c H; unfold itoa_byte; by rewrite H).
  rewrite itoa_eq. destruct z as [|p|p]; simpl; [done|..];
    destruct (pretty_N_digits (Npos p)) as (H & _); by eapply str_forallb_impl in H.
Qed.
Lemma itoa_nonneg_digits z : 0 <= z ->
  str_forallb is_digit (itoa z) = true /\ digits_val 0 (itoa z) = z /\ itoa z <> EmptyString.
Proof.
  rewrite itoa_eq. destruct z as [|p|p]; simpl; [done| |lia]. intros _.
  destruct (pretty_N_digits (Npos p)) as (? & Hv & ?). by rewrite Hv.
Qed.
Lemma itoa_nonempty z : itoa z <> EmptyString.
Proof. rewrite itoa_eq. destruct z; simpl; [done| |done]. apply (pretty_N_digits _). Qed.

Lemma check_int64_in z : in_int64 z -> check_int64 z = Some z.
Proof. unfold check_int64, in_int64. intros [??]. by case_match; [|lia]. Qed.

Lemma check_int64_Some z n : check_int64 z = Some n -> n = z /\ in_int64 n.
Proof. unfold check_int64, in_int64. case_match; [|done]. intros [= <-]. lia. Qed.
Lemma parse_int_range s n : parse_int s = Some n -> in_int64 n.
Proof.
  unfold parse_int. destruct s as [|c s]; [done|].
  repeat case_match; intros (d & _ & [-> ?]%check_int64_Some)%bind_Some; done.
Qed.

Lemma parse_digits_pretty x : parse_digits (pretty x) = Some (Z.of_N x).
Proof.
  destruct (pretty_N_digits x) as (Hd & Hv & Hn). unfold parse_digits.
  destruct (pretty x) as [|c s] eqn:E; [done|]. by rewrite Hd, Hv.
Qed.

Lemma digit_not_sign c : is_digit c = true -> c <> "-"%char /\ c <> "+"%char /\ c <> LF.
Proof. intros H. repeat split; intros ->; vm_compute in H; discriminate. Qed.

Lemma digits_head s : str_forallb is_digit s = true -> s <> EmptyString ->
  exists c r, s = String c r /\ is_digit c = true.
Proof. destruct s as [|c r]; [done|]. simpl. intros [H _]%andb_true_iff _. eauto. Qed.

(** Printing an [int64] and parsing it back. *)
Lemma parse_int_itoa z : in_int64 z -> parse_int (itoa z) = Some z.
Proof.
  intros Hz. rewrite itoa_eq. destruct z as [|p|p]; [done|..]; simpl signed_digits.
  - pose proof (parse_digits_pretty (Npos p)) as Hp.
    destruct (pretty_N_digits (Npos p)) as (Hd & _ & Hn).
    destruct (digits_head _ Hd Hn) as (c & r & E & Hc). rewrite E in Hp |- *.
    destruct (digit_not_sign c Hc) as (H1 & H2 & _). unfold parse_int.
    rewrite (proj2 (Ascii.eqb_neq _ _) H1), (proj2 (Ascii.eqb_neq _ _) H2), Hp. simpl.
    by apply check_int64_in.
  - unfold parse_int. simpl. rewrite parse_digits_pretty. simpl. by apply check_int64_in.
Qed.

Lemma take_digits_all s t :
  str_forallb is_digit s = true ->
  match t with EmptyString => true | String c _ => negb (is_digit c) end = true ->
  take_digits (s +:+ t) = s.
Proof.
  intros Hs Ht. induction s as [|c s IH]; simpl in *.
  - destruct t as [|c t]; [done|]. simpl. by destruct (is_digit c).
  - apply andb_true_iff in Hs as [Hc Hs]. rewrite Hc. by rewrite IH.
Qed.

Lemma scan_skip_digit fuel c r : is_digit c = true ->
  scan_skip fuel (String c r) = Some (String c r).
Proof.
  intros Hc. destruct fuel; [done|]. cbn [scan_skip].
  destruct (digit_not_sign c Hc) as (_ & _ & H3). rewrite (proj2 (Ascii.eqb_neq _ _) H3).
  assert (sp_head (String c r) = None) as ->; [|done].
  unfold is_digit, between in Hc. unfold sp_head, ascii_space, sp2, sp3.
  repeat case_match; try done; lia.
Qed.

(** [Sscanf("%d")] reads back what [Itoa] printed, whatever non-digit follows. *)
Lemma sscanf_itoa z t :
  0 <= z <= max_int64 ->
  match t with EmptyString => true | String c _ => negb (is_digit c) end = true ->
  sscanf_d (itoa z +:+ t) = Some z.
Proof.
  intros Hz Ht. destruct (itoa_nonneg_digits z) as (Hd & Hv & Hn); [lia|].
  destruct (digits_head _ Hd Hn) as (c & r & E & Hc). unfold sscanf_d.
  rewrite E. cbn [String.append]. rewrite scan_skip_digit by done. simpl mbind.
  destruct (digit_not_sign c Hc) as (H1 & H2 & _).
  rewrite (proj2 (Ascii.eqb_neq _ _) H1), (proj2 (Ascii.eqb_neq _ _) H2).
  rewrite E in Hd, Hv. simpl in Hd. apply andb_true_iff in Hd as [Hc' Hd].
  rewrite Hc, take_digits_all by done. unfold parse_digits. simpl str_forallb.
  rewrite Hc, Hd, Hv. simpl. apply check_int64_in. unfold in_int64, min_int64 in *. lia.
Qed.

(** *** Cutting *)

Lemma str_take_app a b : str_take (String.length a) (a +:+ b) = a.
Proof. induction a as [|c a IH]; simpl; [by destruct b|]. by rewrite IH. Qed.
Lemma str_drop_app a b : str_drop (String.length a) (a +:+ b) = b.
Proof. induction a as [|c a IH]; simpl; [done|]. exact IH. Qed.
Lemma str_drop_after p c q : str_drop (S (String.length p)) (p +:+ String c q) = q.
Proof. induction p as [|a p IH]; [done|exact IH]. Qed.
Lemma length_str_drop n s : (String.length (str_drop n s) <= String.length s)%nat.
Proof. revert s. induction n as [|n IH]; intros [|c s]; simpl; [lia..|]. specialize (IH s). lia. Qed.
Lemma last_index_byte_app c p q : str_forallb (fun a => negb (Ascii.eqb a c)) q = true ->
  last_index_byte c (p +:+ String c q) = Some (String.length p).
Proof.
  intros Hq. induction p as [|a p IH]; simpl; [|by rewrite IH].
  enough (last_index_byte c q = None) as -> by (by rewrite Ascii.eqb_refl).
  induction q as [|b q IH]; [done|]. simpl in *. apply andb_true_iff in Hq as [Hb%negb_true_iff Hq].
  by rewrite (IH Hq), Hb.
Qed.
Lemma index_byte_app c p q : str_forallb (fun a => negb (Ascii.eqb a c)) p = true ->
  index_byte c (p +:+ String c q) = Some (String.length p).
Proof.
  induction p as [|a p IH]; intros H; simpl in *; [by rewrite Ascii.eqb_refl|].
  apply andb_true_iff in H as [Ha H]. apply negb_true_iff in Ha. by rewrite Ha, IH.
Qed.

(** *** Trimming *)

Lemma str_rev_app_spec s acc : str_rev_app s acc = str_rev s +:+ acc.
Proof.
  revert acc. induction s as [|c s IH]; intros acc; [done|].
  change (str_rev (String c s)) with (str_rev_app s (String c EmptyString)). simpl.
  by rewrite (IH (String c acc)), (IH (String c EmptyString)), str_app_assoc.
Qed.
Lemma str_rev_cons c s : str_rev (String c s) = str_rev s +:+ str1 c.
Proof. exact (str_rev_app_spec s (str1 c)). Qed.
Lemma str_rev_cat a b : str_rev (a +:+ b) = str_rev b +:+ str_rev a.
Proof.
  induction a as [|c a IH]; [simpl; by rewrite str_app_nil_r|].
  cbn [String.append]. by rewrite !str_rev_cons, IH, str_app_assoc.
Qed.
Lemma str_rev_involutive s : str_rev (str_rev s) = s.
Proof.
  induction s as [|c s IH]; [done|]. by rewrite str_rev_cons, str_rev_cat, IH.
Qed.
Lemma str_forallb_rev p s : str_forallb p (str_rev s) = str_forallb p s.
Proof.
  induction s as [|c s IH]; [done|].
  rewrite str_rev_cons, str_forallb_app, IH. simpl. by rewrite andb_true_r, andb_comm.
Qed.
Lemma str_rev_length s : String.length (str_rev s) = String.length s.
Proof.
  induction s as [|c s IH]; [done|].
  rewrite str_rev_cons, str_length_app, IH. simpl. lia.
Qed.
(** A visible ASCII byte is no part of a white space rune. *)
Definition visible (c : ascii) : bool := ((33 <=? code c) && (code c <? 127))%N.
Lemma visible_not_space c s : visible c = true -> sp_head (String c s) = None /\ sp_last (String c s) = None.
Proof.
  unfold visible. intros H. unfold sp_head, sp_last, ascii_space, sp2, sp3, e280_tail.
  repeat case_match; try done; split; (done || lia).
Qed.
Lemma trim_space_visible s : str_forallb visible s = true -> trim_space s = s.
Proof.
  intros H. assert (Hl : trim_left s = s).
  { unfold trim_left. destruct s as [|c s]; [done|]. simpl in H |- *. apply andb_true_iff in H as [Hc _].
    destruct (visible_not_space c s Hc) as [E _]. simpl in E. by rewrite E. }
  unfold trim_space, trim_right. rewrite Hl. rewrite <- str_forallb_rev in H. rewrite <- str_rev_length.
  rewrite <- (str_rev_involutive s) at 3. f_equal. destruct (str_rev s) as [|c r]; [done|].
  simpl in H |- *. apply andb_true_iff in H as [Hc _]. destruct (visible_not_space c r Hc) as [_ E]. simpl in E. by rewrite E.
Qed.
Lemma has_suffix_cat p a b : String.length p = String.length b -> has_suffix p (a +:+ b) = has_suffix p b.
Proof.
  intros Hl. unfold has_suffix. rewrite str_rev_cat. rewrite <- (str_rev_length p), <- (str_rev_length b) in Hl.
  generalize dependent (str_rev p). generalize (str_rev b) as y. induction y as [|d y IH]; intros [|c x] Hl; simpl in *; try done.
  f_equal. apply IH. lia.
Qed.
Lemma cut_suffix_cat p a b : String.length p = String.length b -> cut_suffix p (a +:+ b) = a.
Proof.
  intros Hl. unfold cut_suffix. rewrite str_length_app, Hl. replace (_ - _)%nat with (String.length a) by lia. apply str_take_app.
Qed.
Lemma parse_int_only_digits s c : count_byte c s <> O -> is_digit c = false -> c <> "-"%char -> c <> "+"%char -> parse_int s = None.
Proof.
  intros Hc Hd H1 H2.
  assert (Hp : forall t, count_byte c t <> O -> parse_digits t = None).
  { intros t Ht. unfold parse_digits. destruct t as [|d t]; [done|]. destruct (str_forallb is_digit (String d t)) eqn:E; [|done].
    by rewrite (count_byte_forallb _ _ _ E Hd) in Ht. }
  unfold parse_int. destruct s as [|d s]; [done|]. rewrite (Hp (String d s) Hc). simpl in Hc.
  destruct (Ascii.eqb_spec d "-") as [ -> |_]; [|destruct (Ascii.eqb_spec d "+") as [ -> |_]; [|done]].
  - rewrite (proj2 (Ascii.eqb_neq _ _)) in Hc by congruence. by rewrite (Hp s Hc).
  - rewrite (proj2 (Ascii.eqb_neq _ _)) in Hc by congruence. by rewrite (Hp s Hc).
Qed.
