(* ===== verification/Net.v ===== *)
(** * Addresses: what the code uses of the packages net and net/netip

    [ParseAddr], [ParseIP], [ParseCIDR], [IPNet.Contains], [SplitHostPort] and [JoinHostPort] on
    byte strings, with the errors as [None]. *)
From S2P Require Import Prelude GoStrings.

Definition is_char (k : string) (c : ascii) : bool := String.eqb (str1 c) k.
Definition hex_value (c : ascii) : option Z :=
  if is_digit c then Some (digit_val c)
  else if between 97 102 c then Some (Z.of_N (code c) - 87)
  else if between 65 70 c then Some (Z.of_N (code c) - 55)
  else None.

(** [parseIPv4Fields]: an octet has no leading zero and is at most 255, and there are four. *)
Fixpoint parseIPv4Fields (s : string) (val digLen : Z) (fields : list Z) : option (list Z) :=
  match s with
  | EmptyString => if Z.of_nat (length fields) <? 3 then None else Some (fields ++ [val])
  | String c s' =>
      if is_digit c then
        if (digLen =? 1) && (val =? 0) then None
        else
          let val := val * 10 + digit_val c in
          if 255 <? val then None else parseIPv4Fields s' val (digLen + 1) fields
      else if is_char "." c then
        if (digLen =? 0) || String.eqb s' EmptyString then None
        else if Z.of_nat (length fields) =? 3 then None
        else parseIPv4Fields s' 0 0 (fields ++ [val])
      else None
  end.

(** The hexadecimal digits in front of a text: how many, their value, the rest. *)
Fixpoint hex_group (s : string) (off acc : Z) : option (Z * Z * string) :=
  match s with
  | EmptyString => Some (off, acc, s)
  | String c s' =>
      match hex_value c with
      | None => Some (off, acc, s)
      | Some d => if (3 <? off) || (65535 <? acc * 16 + d) then None else hex_group s' (off + 1) (acc * 16 + d)
      end
  end.
(** The loop of [parseIPv6]: at most [n] more groups after the bytes [ip]; the answer is the bytes,
    the position of the ellipsis and the text that is left. *)
Fixpoint ipv6_groups (n : nat) (ip : list Z) (ellipsis : option nat) (s : string) : option (list Z * option nat * string) :=
  match n with
  | O => Some (ip, ellipsis, s)
  | S n' =>
      '(off, acc, rest) ← hex_group s 0 0;
      if off =? 0 then None
      else match rest with
      | EmptyString => Some (ip ++ [Z.shiftr acc 8; Z.land acc 255], ellipsis, EmptyString)
      | String c r =>
          if is_char "." c then
            if match ellipsis with None => negb (length ip =? 12)%nat | Some _ => false end then None
            else if (12 <? length ip)%nat then None
            else f ← parseIPv4Fields s 0 0 []; Some (ip ++ f, ellipsis, EmptyString)
          else if negb (is_char ":" c) then None
          else
            let ip := ip ++ [Z.shiftr acc 8; Z.land acc 255] in
            match r with
            | EmptyString => None
            | String c' r' =>
                if is_char ":" c' then
                  match ellipsis with
                  | Some _ => None
                  | None => if String.eqb r' EmptyString then Some (ip, Some (length ip), r')
                            else ipv6_groups n' ip (Some (length ip)) r'
                  end
                else ipv6_groups n' ip ellipsis r
            end
      end
  end.

(** [netip.Addr]: the bytes of an IPv4 address, or of an IPv6 address with its zone. *)
Inductive Addr := Addr4 (b : list Z) | Addr6 (b : list Z) (zone : string).
Definition zeros (n : nat) : list Z := repeat 0 n.
Definition expand (ip : list Z) (ellipsis : option nat) : option (list Z) :=
  match ellipsis with
  | None => if (length ip <? 16)%nat then None else Some ip
  | Some e => if (length ip <? 16)%nat then Some (take e ip ++ zeros (16 - length ip) ++ drop e ip) else None
  end.
Definition parseIPv6 (s : string) : option Addr :=
  '(s, zone) ← match index_byte "%"%char s with
               | None => Some (s, EmptyString)
               | Some i => if String.eqb (str_drop (S i) s) EmptyString then None else Some (str_take i s, str_drop (S i) s)
               end;
  let leading := has_prefix "::" s in
  if leading && String.eqb (str_drop 2 s) EmptyString then Some (Addr6 (zeros 16) zone)
  else
    '(ip, ellipsis, rest) ← (if leading then ipv6_groups 8 [] (Some O) (str_drop 2 s) else ipv6_groups 8 [] None s);
    if String.eqb rest EmptyString then b ← expand ip ellipsis; Some (Addr6 b zone) else None.
(** [netip.ParseAddr]: the first byte that is a dot, a colon or a percent sign decides. *)
Fixpoint ParseAddr_from (s t : string) : option Addr :=
  match t with
  | EmptyString => None
  | String c t' =>
      if is_char "." c then Addr4 <$> parseIPv4Fields s 0 0 []
      else if is_char ":" c then parseIPv6 s
      else if is_char "%" c then None
      else ParseAddr_from s t'
  end.
Definition ParseAddr (s : string) : option Addr := ParseAddr_from s s.

(** Addresses of package net: 16 bytes, an IPv4 address with the prefix of a mapped one. *)
Definition v4InV6Prefix : list Z := zeros 10 ++ [255; 255].
Definition As16 (a : Addr) : list Z := match a with Addr4 b => v4InV6Prefix ++ b | Addr6 b _ => b end.
Definition Zone (a : Addr) : string := match a with Addr4 _ => EmptyString | Addr6 _ z => z end.
Definition BitLen (a : Addr) : Z := match a with Addr4 _ => 32 | Addr6 _ _ => 128 end.
Definition To4 (ip : list Z) : option (list Z) :=
  if (length ip =? 4)%nat then Some ip
  else if (length ip =? 16)%nat && bool_decide (take 12 ip = v4InV6Prefix) then Some (drop 12 ip) else None.
Definition ParseIP (s : string) : option (list Z) :=
  a ← ParseAddr s; if String.eqb (Zone a) EmptyString then Some (As16 a) else None.

(** [IPNet], and [CIDRMask n] of [len] bytes. *)
Record IPNet := { IP : list Z; Mask : list Z }.
Fixpoint CIDRMask (n : Z) (len : nat) : list Z :=
  match len with
  | O => []
  | S len' => if 8 <=? n then 255 :: CIDRMask (n - 8) len' else 255 - Z.shiftr 255 n :: CIDRMask 0 len'
  end.
Definition mask_ip (ip m : list Z) : list Z :=
  let ip := if (length m =? 4)%nat then default ip (To4 ip) else ip in
  if (length ip =? length m)%nat then zip_with Z.land ip m else [].
(** [dtoi] on a whole text. *)
Fixpoint dtoi (s : string) (n : Z) : option Z :=
  match s with
  | EmptyString => Some n
  | String c s' =>
      if is_digit c then let n := n * 10 + digit_val c in if 16777215 <=? n then None else dtoi s' n else None
  end.
Definition ParseCIDR (s : string) : option IPNet :=
  i ← index_byte "/"%char s;
  a ← ParseAddr (str_take i s);
  let mask := str_drop (S i) s in
  n ← (if String.eqb mask EmptyString then None else dtoi mask 0);
  if negb (String.eqb (Zone a) EmptyString) || (BitLen a <? n) then None
  else let m := CIDRMask n (Z.to_nat (BitLen a / 8)) in Some {| IP := mask_ip (As16 a) m; Mask := m |}.
Definition networkNumberAndMask (n : IPNet) : option (list Z * list Z) :=
  ip ← match To4 (IP n) with Some ip => Some ip | None => if (length (IP n) =? 16)%nat then Some (IP n) else None end;
  if (length (Mask n) =? 4)%nat then if (length ip =? 4)%nat then Some (ip, Mask n) else None
  else if (length (Mask n) =? 16)%nat then Some (ip, if (length ip =? 4)%nat then drop 12 (Mask n) else Mask n)
  else None.
Definition Contains (n : IPNet) (ip : list Z) : bool :=
  match networkNumberAndMask n with
  | None => false
  | Some (nn, m) =>
      let x := default ip (To4 ip) in
      (length x =? length nn)%nat && bool_decide (zip_with Z.land nn m = zip_with Z.land x m)
  end.

(** [SplitHostPort], of which the code uses the host only. *)
Definition SplitHost (hostport : string) : option string :=
  i ← last_index_byte ":"%char hostport;
  let has c s := bool_decide (index_byte c s <> None) in
  match hostport with
  | String "["%char t =>
      e ← index_byte "]"%char t;
      if (S (S e) =? i)%nat && negb (has "["%char t) && negb (has "]"%char (str_drop (S e) t)) then Some (str_take e t) else None
  | _ =>
      if has ":"%char (str_take i hostport) || has "["%char hostport || has "]"%char hostport then None
      else Some (str_take i hostport)
  end.
(** [JoinHostPort], with which net/http writes [RemoteAddr]. *)
Definition JoinHostPort (host port : string) : string :=
  if bool_decide (index_byte ":"%char host <> None) then "[" +:+ host +:+ "]:" +:+ port else host +:+ ":" +:+ port.

Example parse_examples :
  (ParseIP "10.1.2.3", ParseIP "010.1.2.3", ParseIP "1.2.3", ParseIP "::ffff:10.1.2.3", ParseIP "fe80::1%eth0", ParseIP "1:2:3:4:5:6:7::", ParseIP "::", ParseIP "1::2::3")
  = (Some (v4InV6Prefix ++ [10;1;2;3]), None, None, Some (v4InV6Prefix ++ [10;1;2;3]), None, Some [0;1;0;2;0;3;0;4;0;5;0;6;0;7;0;0], Some (zeros 16), None).
Proof. vm_compute. reflexivity. Qed.
Example cidr_examples : map (fun s => (n ← ParseCIDR s.1; ip ← ParseIP s.2; Some (Contains n ip)))
    [("10.0.0.0/8", "10.200.0.1"); ("10.0.0.0/8", "::ffff:10.0.0.1"); ("10.0.0.0/8", "11.0.0.1"); ("2001:db8::/33", "2001:db8:7fff::1");
     ("2001:db8::/33", "2001:db8:8000::1"); ("::ffff:192.168.4.0/118", "192.168.7.9"); ("::ffff:192.168.4.0/118", "192.168.8.0"); ("10.0.0.0/33", "10.0.0.1"); ("10.0.0.0", "10.0.0.0")]
  = [Some true; Some true; Some false; Some true; Some false; Some true; Some false; None; None].
Proof. vm_compute. reflexivity. Qed.
Example split_examples : map SplitHost ["redis.local:6379"; "1.2.3.4:80"; "[::1]:80"; "::1"; "1.2.3.4"; "[::1]"; "a[b:1"]
  = [Some "redis.local"; Some "1.2.3.4"; Some "::1"; None; None; None; None].
Proof. vm_compute. reflexivity. Qed.

(** The characters of a text that can be an address. *)
Definition addr_char (c : ascii) : bool := visible c && negb (Ascii.eqb c ","%char).
Definition bracket_free (s : string) : bool := str_forallb (fun c => negb (is_char "[" c || is_char "]" c)) s.

(** ** Lemmas: the texts that are addresses *)

Lemma is_char_spec a c : is_char (str1 a) c = Ascii.eqb c a.
Proof. unfold is_char. simpl. destruct (Ascii.eqb c a); done. Qed.
Lemma digit_addr c : is_digit c = true -> addr_char c = true.
Proof.
  unfold is_digit, between, addr_char, visible. intros H. apply andb_true_iff. split; [lia|].
  destruct (Ascii.eqb_spec c ","%char) as [->|]; done.
Qed.
Lemma hex_addr c d : hex_value c = Some d -> addr_char c = true.
Proof.
  unfold hex_value, is_digit, between, addr_char, visible. intros H.
  destruct (Ascii.eqb_spec c ","%char) as [->|]; [done|]. repeat case_match; try done; lia.
Qed.
Lemma ipv4_chars s : forall v n fs b, parseIPv4Fields s v n fs = Some b -> str_forallb addr_char s = true.
Proof.
  induction s as [|c s IH]; intros v n fs b H; [done|]. simpl in H |- *. destruct (is_digit c) eqn:Hd.
  - rewrite digit_addr by done. destruct (_ && _); [done|]. destruct (255 <? _); [done|]. by eapply IH.
  - change "." with (str1 "."%char) in H. rewrite is_char_spec in H. destruct (Ascii.eqb_spec c "."%char) as [->|]; [|done].
    destruct (_ || _); [done|]. destruct (_ =? 3); [done|]. by eapply IH.
Qed.
Lemma hex_group_app s : forall off acc o a r, hex_group s off acc = Some (o, a, r) ->
  exists p, s = p +:+ r /\ str_forallb addr_char p = true.
Proof.
  induction s as [|c s IH]; intros off acc o a r H; simpl in H; [injection H as <- <- <-; by exists EmptyString|].
  destruct (hex_value c) as [d|] eqn:Hc; [|injection H as <- <- <-; by exists EmptyString].
  destruct (_ || _); [done|]. apply IH in H as (p & -> & Hp). exists (String c p). split; [done|]. simpl.
  by rewrite (hex_addr c d).
Qed.
Lemma groups_chars n : forall ip e s ip' e' r, ipv6_groups n ip e s = Some (ip', e', r) ->
  str_forallb addr_char r = true -> str_forallb addr_char s = true.
Proof.
  induction n as [|n IH]; intros ip e s ip' e' r H Hr; [by injection H as <- <- <-|]. cbn [ipv6_groups] in H.
  destruct (hex_group s 0 0) as [[[off acc] rest]|] eqn:Hg; [|done]. cbn [mbind option_bind] in H.
  destruct (off =? 0); [done|]. apply hex_group_app in Hg as (p & -> & Hp). destruct rest as [|c t]; [by rewrite str_app_nil_r|].
  rewrite str_forallb_app, Hp. cbn [str_forallb andb].
  change "." with (str1 "."%char) in H. change ":" with (str1 ":"%char) in H. rewrite !is_char_spec in H.
  destruct (Ascii.eqb_spec c "."%char) as [->|].
  { destruct (match e with None => _ | _ => _ end); [done|]. destruct (12 <? _)%nat; [done|].
    destruct (parseIPv4Fields (p +:+ String "." t) 0 0 []) as [f|] eqn:Hf; [|done].
    apply ipv4_chars in Hf. rewrite str_forallb_app in Hf. by apply andb_true_iff in Hf as [_ Hf]. }
  destruct (Ascii.eqb_spec c ":"%char) as [->|]; [|done]. cbn [negb] in H. change (addr_char ":") with true. cbn [andb].
  destruct t as [|c t]; [done|]. rewrite is_char_spec in H. destruct (Ascii.eqb_spec c ":"%char) as [->|]; [|by eapply IH].
  destruct e; [done|]. destruct (String.eqb_spec t EmptyString) as [->|]; [done|]. by apply IH in H.
Qed.
Lemma parseIPv6_chars s a : parseIPv6 s = Some a -> Zone a = EmptyString -> str_forallb addr_char s = true.
Proof.
  unfold parseIPv6. intros H Hz. destruct (index_byte "%" s) as [i|].
  - destruct (String.eqb_spec (str_drop (S i) s) EmptyString) as [|Hne]; [done|]. cbn [mbind option_bind] in H.
    exfalso. apply Hne. rewrite <- Hz. destruct (has_prefix "::" _ && _); [by injection H as <-|].
    destruct (if has_prefix _ _ then _ else _) as [[[ip e] r]|]; [|done]. simpl in H.
    destruct (String.eqb r EmptyString); [|done]. destruct (expand ip e); [|done]. by injection H as <-.
  - cbn [mbind option_bind] in H. destruct (has_prefix "::" s) eqn:Hp; cbn [andb] in H.
    + apply has_prefix_spec in Hp as (t & Hp). subst s. change (str_drop 2 ("::" +:+ t)) with t in H.
      destruct (String.eqb t EmptyString) eqn:Et; [by apply String.eqb_eq in Et; subst t|].
      destruct (ipv6_groups 8 [] (Some O) t) as [[[ip e] r]|] eqn:Hg; [|done]. simpl in H.
      destruct (String.eqb_spec r EmptyString) as [->|]; [|done]. rewrite str_forallb_app. by rewrite (groups_chars _ _ _ _ _ _ _ Hg).
    + destruct (ipv6_groups 8 [] None s) as [[[ip e] r]|] eqn:Hg; [|done]. simpl in H.
      destruct (String.eqb_spec r EmptyString) as [->|]; [|done]. by eapply groups_chars.
Qed.
Lemma ParseAddr_chars s t a : ParseAddr_from s t = Some a -> Zone a = EmptyString -> t <> EmptyString /\ str_forallb addr_char s = true.
Proof.
  induction t as [|c t IH]; [done|]. simpl. intros H Hz. split; [done|]. destruct (is_char "." c).
  { destruct (parseIPv4Fields s 0 0 []) as [f|] eqn:Hf; [|done]. by apply ipv4_chars in Hf. }
  destruct (is_char ":" c); [by eapply parseIPv6_chars|]. destruct (is_char "%" c); [done|]. by apply IH.
Qed.
Lemma ParseIP_chars s ip : ParseIP s = Some ip -> s <> EmptyString /\ str_forallb addr_char s = true.
Proof.
  unfold ParseIP. intros H. destruct (ParseAddr s) as [a|] eqn:Ha; [|done]. simpl in H.
  destruct (String.eqb_spec (Zone a) EmptyString) as [Hz|]; [|done]. by apply ParseAddr_chars in Ha.
Qed.

(** ** Lemmas: hosts and ports *)

Lemma colon_free_index s : str_forallb (fun c => negb (Ascii.eqb c ":"%char)) s = true <-> index_byte ":"%char s = None.
Proof.
  induction s as [|c s IH]; simpl; [done|]. destruct (Ascii.eqb c ":"%char); simpl; [done|]. rewrite IH.
  by destruct (index_byte ":"%char s).
Qed.
Lemma absent c s : str_forallb (fun a => negb (Ascii.eqb a c)) s = true -> bool_decide (index_byte c s <> None) = false.
Proof.
  intros H. apply bool_decide_eq_false. intros Hn. apply Hn. clear Hn. induction s as [|a s IH]; [done|]. simpl in *.
  destruct (Ascii.eqb a c); [done|]. by rewrite IH.
Qed.
Lemma digits_without c s : str_forallb is_digit s = true -> is_digit c = false -> str_forallb (fun a => negb (Ascii.eqb a c)) s = true.
Proof. intros H Hc. eapply str_forallb_impl; [|exact H]. intros a Ha. destruct (Ascii.eqb_spec a c) as [->|]; [congruence|done]. Qed.
Lemma bracket_free_without s : bracket_free s = true ->
  str_forallb (fun a => negb (Ascii.eqb a "["%char)) s = true /\ str_forallb (fun a => negb (Ascii.eqb a "]"%char)) s = true.
Proof.
  intros H. split; (eapply str_forallb_impl; [|exact H]); intros c Hcc;
    change (negb (is_char (str1 "["%char) c || is_char (str1 "]"%char) c) = true) in Hcc; rewrite !is_char_spec in Hcc;
    by destruct (Ascii.eqb c "["%char), (Ascii.eqb c "]"%char).
Qed.

Lemma split_join_host host port : bracket_free host = true -> str_forallb is_digit port = true ->
  SplitHost (JoinHostPort host port) = Some host.
Proof.
  intros [Hl Hr]%bracket_free_without Hp. unfold JoinHostPort.
  assert (Hpc : forall c, is_digit c = false -> str_forallb (fun a => negb (Ascii.eqb a c)) port = true) by (intros; by apply digits_without).
  case_bool_decide as Hc.
  - unfold SplitHost. change ("[" +:+ host +:+ "]:" +:+ port) with (String "["%char (host +:+ String "]"%char (":" +:+ port))).
    pose proof (last_index_byte_app ":"%char ("[" +:+ host +:+ "]") port (Hpc ":"%char eq_refl)) as E.
    rewrite !str_app_assoc in E. change (last_index_byte ":" (String "["%char (host +:+ String "]"%char (":" +:+ port))) = Some (String.length ("[" +:+ host +:+ "]"))) in E.
    rewrite E. cbn [mbind option_bind].
    rewrite index_byte_app by done. cbn [mbind option_bind]. simpl String.length. rewrite str_length_app. simpl String.length.
    rewrite str_drop_after, str_take_app.
    rewrite (absent "["), (absent "]"); [|simpl; by apply Hpc|rewrite str_forallb_app, Hl; simpl; by apply Hpc].
    replace (S (S (String.length host)) =? S (String.length host + 1))%nat with true by (symmetry; apply Nat.eqb_eq; lia). done.
  - apply colon_free_index in Hc as Hn. change (host +:+ ":" +:+ port) with (host +:+ String ":"%char port). unfold SplitHost.
    rewrite last_index_byte_app by (by apply Hpc). cbn [mbind option_bind]. rewrite str_take_app.
    rewrite (absent ":") by done. rewrite (absent "["), (absent "]");
      [|rewrite str_forallb_app, Hr; simpl; by apply Hpc|rewrite str_forallb_app, Hl; simpl; by apply Hpc].
    destruct host as [|c host]; [done|]. simpl in Hl. destruct c as [[] [] [] [] [] [] [] []]; done.
Qed.

