(* ===== verification/Values.v ===== *)
(** * Dynamic values, errors and the error monad

    [GoVal] is the Go [any]; a value carries its dynamic type in its constructor, so
    that type switches and assertions are [match]es.  [error] is the Go [error]
    interface: the structured [APIError] of internal/errors/types.go or an error built by
    [fmt.Errorf]/[errors.New].  A message is kept as the unrendered [Sprintf] call
    (format and operands): no behaviour of the code depends on the rendered text of an
    error except where it says so.  [result] is a Go [(T, error)] pair. *)
From Stdlib Require Export SpecFloat.
From S2P Require Import Prelude GoStrings.

(** ** Values *)

(** The dynamic types the code tells apart.  A [float64]/[float32] is an IEEE 754 datum
    ([spec_float]); [VMap] lists the entries in this run's iteration order. *)
Inductive GoVal :=
  | VNil
  | VBool (b : bool)
  | VInt (z : Z)
  | VInt64 (z : Z)
  | VFloat64 (f : spec_float)
  | VFloat32 (f : spec_float)
  | VString (s : string)
  | VJSONNumber (s : string)
  | VDuration (d : Z)
  | VBytes (s : string)
  | VStrings (l : list string)
  | VSlice (l : list GoVal)
  | VMap (m : list (string * GoVal))
  | VMapSS (m : list (string * string))
  | VFloatPtr (p : option spec_float)
  | VFloatPtrs (l : list (option spec_float))
  | VFloats (l : list spec_float)
  | VOther (typ : string).

(** What [fmt] prints for a float or for a value without a simple textual form. *)
Class GoFmt := {
  fmt_float64 : spec_float -> string;
  fmt_float32 : spec_float -> string;
  fmt_opaque : GoVal -> string;
}.

(** String order of Go: byte-wise lexicographic. *)
Definition str_le (a b : string) : Prop := String.compare a b <> Gt.
#[export] Instance str_le_dec a b : Decision (str_le a b).
Proof. unfold str_le. destruct (String.compare a b); [left|left|right]; congruence. Defined.
(** [sort.Strings]. *)
Definition sort_strings (l : list string) : list string := merge_sort str_le l.

Definition key_le {A} (a b : string * A) : Prop := str_le a.1 b.1.
#[export] Instance key_le_dec {A} (a b : string * A) : Decision (key_le a b) := str_le_dec a.1 b.1.

(** [fmt.Sprint] / [%v] of one operand; maps print with sorted keys. *)
Fixpoint sprint `{GoFmt} (v : GoVal) : string :=
  match v with
  | VNil => "<nil>"
  | VBool b => if b then "true" else "false"
  | VInt z | VInt64 z => itoa z
  | VFloat64 f => fmt_float64 f
  | VFloat32 f => fmt_float32 f
  | VString s | VJSONNumber s => s
  | VStrings l => "[" +:+ join " " l +:+ "]"
  | VSlice l => "[" +:+ join " " (map sprint l) +:+ "]"
  | VMap m =>
      "map[" +:+ join " "
        (map (fun kv => kv.1 +:+ ":" +:+ kv.2)
           (merge_sort key_le (map (fun kv => (kv.1, sprint kv.2)) m))) +:+ "]"
  | VMapSS m =>
      "map[" +:+ join " "
        (map (fun kv => kv.1 +:+ ":" +:+ kv.2) (merge_sort key_le m)) +:+ "]"
  | _ => fmt_opaque v
  end.

(** ** Errors *)

(** Operands of a formatted message. *)
Inductive arg :=
  | AStr (s : string)
  | AInt (z : Z)
  | AVal (v : GoVal)
  | AStrs (l : list string)
  | AErr (e : error)
with format :=
  | Sprintf (fmt : string) (args : list arg)
(** internal/errors/types.go [APIError]; [fmt.Errorf] with [%w] is [Wrap], other
    [fmt.Errorf]/[errors.New] values are [Errorf]; [context.Canceled] and
    [context.DeadlineExceeded]; the I/O, syscall and [net] errors of the drivers;
    [gqlerror.Error] with the code of its extensions.  A panic is no error value: it travels as
    [Panic] past the code that handles errors. *)
with error :=
  | APIError (Code : string) (Message : format) (StatusCode : Z)
  | Errorf (msg : format)
  | Wrap (msg : format) (inner : error)
  | ContextErr (deadline : bool)
  | ErrEOF
  | ErrUnexpectedEOF
  | Errno (n : Z)
  | NetError (timeout : bool) (inner : option error)
  | GqlError (code : string) (msg : format)
  | Panic (what : string).

Definition err_code (e : error) : option string :=
  match e with APIError c _ _ | GqlError c _ => Some c | _ => None end.
Definition err_status (e : error) : option Z :=
  match e with APIError _ _ s => Some s | _ => None end.

Definition is_panic (e : error) : bool := match e with Panic _ => true | _ => false end.
Definition nil_dereference : error := Panic "runtime error: invalid memory address or nil pointer dereference".
(** An error of internal/errors, as opposed to a bare driver error. *)
Definition is_api_error (e : error) : bool :=
  match e with APIError _ _ _ => true | _ => false end.

(** internal/errors/errors.go: the error codes. *)
Definition ErrAuthTokenExpired : string := "AUTH_TOKEN_EXPIRED".
Definition ErrAuthTokenInvalid : string := "AUTH_TOKEN_INVALID".
Definition ErrAuthInsufficientPermission : string := "AUTH_INSUFFICIENT_PERMISSION".
Definition ErrAuthMissing : string := "AUTH_MISSING".
Definition ErrAuthKeyExpired : string := "AUTH_KEY_EXPIRED".
Definition ErrAuthBruteForceBlocked : string := "AUTH_BRUTE_FORCE_BLOCKED".
Definition ErrValidationSyntaxError : string := "VALIDATION_SYNTAX_ERROR".
Definition ErrValidationComplexityExceeded : string := "VALIDATION_COMPLEXITY_EXCEEDED".
Definition ErrValidationDepthExceeded : string := "VALIDATION_DEPTH_EXCEEDED".
Definition ErrValidationPayloadTooLarge : string := "VALIDATION_PAYLOAD_TOO_LARGE".
Definition ErrValidationBatchLimitExceeded : string := "VALIDATION_BATCH_LIMIT_EXCEEDED".
Definition ErrValidationInvalidTable : string := "VALIDATION_INVALID_TABLE".
Definition ErrValidationInvalidField : string := "VALIDATION_INVALID_FIELD".
Definition ErrValidationPromQLInjection : string := "VALIDATION_PROMQL_INJECTION".
Definition ErrValidationTemplateNotFound : string := "VALIDATION_TEMPLATE_NOT_FOUND".
Definition ErrValidationUnsafeSQL : string := "VALIDATION_UNSAFE_SQL".
Definition ErrValidationMissingParameter : string := "VALIDATION_MISSING_PARAMETER".
Definition ErrValidationInvalidParameterType : string := "VALIDATION_INVALID_PARAMETER_TYPE".
Definition ErrValidationInvalidParameterValue : string := "VALIDATION_INVALID_PARAMETER_VALUE".
Definition ErrDatasourceTimeout : string := "DATASOURCE_TIMEOUT".
Definition ErrDatasourceUnavailable : string := "DATASOURCE_UNAVAILABLE".
Definition ErrDatasourceCircuitOpen : string := "DATASOURCE_CIRCUIT_OPEN".
Definition ErrDatasourcePoolExhausted : string := "DATASOURCE_POOL_EXHAUSTED".
Definition ErrDatasourceQueryError : string := "DATASOURCE_QUERY_ERROR".
Definition ErrDatasourceMaxDataPoints : string := "DATASOURCE_MAX_DATA_POINTS".
Definition ErrDatasourceTemplateQueryError : string := "DATASOURCE_TEMPLATE_QUERY_ERROR".
Definition ErrRateLimitExceeded : string := "RATELIMIT_EXCEEDED".
Definition ErrInternalUnexpected : string := "INTERNAL_UNEXPECTED".
Definition ErrInternalTemplateRenderError : string := "INTERNAL_TEMPLATE_RENDER_ERROR".
Definition ErrServiceUnavailable : string := "SERVICE_UNAVAILABLE".
Definition ErrMutationFeatureDisabled : string := "MUTATION_FEATURE_DISABLED".
Definition ErrMutationOperationNotSupported : string := "MUTATION_OPERATION_NOT_SUPPORTED".
Definition ErrMutationLimitExceeded : string := "MUTATION_LIMIT_EXCEEDED".
Definition ErrMutationRateLimitExceeded : string := "MUTATION_RATELIMIT_EXCEEDED".

(** internal/errors/types.go [Classification]. *)
Definition Classification (code : string) : string :=
  match index_byte "_"%char code with
  | Some idx => str_take idx code
  | None => code
  end.
(** internal/errors/types.go: the constructors and the status each one gives. *)
Definition NewAPIError (code : string) (message : format) (statusCode : Z) : error :=
  APIError code message statusCode.
Definition AuthError (code : string) (message : format) : error :=
  let statusCode := if String.eqb code ErrAuthInsufficientPermission then 403 else 401 in
  NewAPIError code message statusCode.
Definition ValidationError (code : string) (message : format) : error :=
  NewAPIError code message 400.
Definition DatasourceError (code : string) (message : format) : error :=
  NewAPIError code message 200.
Definition RateLimitError (message : format) : error :=
  NewAPIError ErrRateLimitExceeded message 429.
Definition InternalError (message : format) : error :=
  NewAPIError ErrInternalUnexpected message 500.

(** ** The error monad *)

Inductive result (A : Type) :=
  | Ok (a : A)
  | Err (e : error).
Arguments Ok {A} a.
Arguments Err {A} e.

#[export] Instance result_ret : MRet result := fun _ a => Ok a.
#[export] Instance result_bind : MBind result := fun _ _ f m =>
  match m with Ok a => f a | Err e => Err e end.
#[export] Instance result_fmap : FMap result := fun _ _ f m =>
  match m with Ok a => Ok (f a) | Err e => Err e end.

(** [if cond { return err }]. *)
Definition guard_err (bad : bool) (e : error) : result unit :=
  if bad then Err e else Ok tt.

(** A read through a pointer that may be nil. *)
Definition deref {A} (p : option A) : result A := match p with Some a => Ok a | None => Err nil_dereference end.

(** A [for _, x := range l] loop that stops at the first error. *)
Fixpoint mapR {A B} (f : A -> result B) (l : list A) : result (list B) :=
  match l with
  | [] => Ok []
  | x :: l' => y ← f x; ys ← mapR f l'; Ok (y :: ys)
  end.
Definition forR {A} (f : A -> result unit) (l : list A) : result unit :=
  _ ← mapR f l; Ok tt.

(** ** Lemmas *)

Lemma Ok_inj {A} (a b : A) : Ok a = Ok b -> a = b.
Proof. by intros [= ->]. Qed.
Lemma deref_Ok {A} (p : option A) a : deref p = Ok a -> p = Some a.
Proof. destruct p; [by intros [= ->]|done]. Qed.

Lemma bind_Ok {A B} (m : result A) (f : A -> result B) b :
  (m ≫= f) = Ok b <-> exists a, m = Ok a /\ f a = Ok b.
Proof. destruct m; unfold mbind, result_bind; split; intros; deex; simplify_eq/=; eauto; by destruct_or?; deex; simplify_eq. Qed.

Lemma bind_Err {A B} (m : result A) (f : A -> result B) e :
  (m ≫= f) = Err e <-> m = Err e \/ exists a, m = Ok a /\ f a = Err e.
Proof. destruct m; unfold mbind, result_bind; split; intros; deex; simplify_eq/=; eauto; by destruct_or?; deex; simplify_eq. Qed.

Lemma guard_err_Ok b e : guard_err b e = Ok tt <-> b = false.
Proof. destruct b; simpl; naive_solver. Qed.

Lemma mapR_Ok {A B} (f : A -> result B) l l' :
  mapR f l = Ok l' <-> Forall2 (fun a b => f a = Ok b) l l'.
Proof.
  revert l'. induction l as [|a l IH]; intros l'; simpl.
  - split; [intros [= <-]; constructor|by inversion 1].
  - rewrite bind_Ok. split.
    + intros (b & Hb & (bs & Hbs & [= <-])%bind_Ok). constructor; [done|by apply IH].
    + inversion 1 as [|? b ? bs]; subst. exists b. split; [done|].
      apply bind_Ok. exists bs. split; [by apply IH|done].
Qed.

Lemma mapR_Err {A B} (f : A -> result B) l e :
  mapR f l = Err e <->
  exists l1 a l2 bs, l = l1 ++ a :: l2 /\ mapR f l1 = Ok bs /\ f a = Err e.
Proof.
  induction l as [|a l IH]; simpl.
  - split; [done|]. intros (l1 & ? & ? & ? & Hl & _). by destruct l1.
  - rewrite bind_Err. split.
    + intros [He|(b & Hb & [He|(? & ? & ?)]%bind_Err)]; [|..|done].
      * by exists [], a, l, [].
      * apply IH in He as (l1 & a' & l2 & bs & -> & Hbs & He).
        exists (a :: l1), a', l2, (b :: bs). split; [done|]. split; [|done].
        simpl. by rewrite Hb, Hbs.
    + intros (l1 & a' & l2 & bs & Hl & Hbs & He). destruct l1 as [|a1 l1]; simplify_eq/=.
      * by left.
      * apply bind_Ok in Hbs as (b & Hb & (bs' & Hbs' & _)%bind_Ok).
        right. exists b. split; [done|]. apply bind_Err. left. apply IH.
        by exists l1, a', l2, bs'.
Qed.

Lemma mapR_length {A B} (f : A -> result B) l l' : mapR f l = Ok l' -> length l' = length l.
Proof. intros H%mapR_Ok. symmetry. by eapply Forall2_length. Qed.

Lemma forR_Ok {A} (f : A -> result unit) l :
  forR f l = Ok tt <-> Forall (fun a => f a = Ok tt) l.
Proof.
  unfold forR. rewrite bind_Ok. split.
  - intros (l' & H%mapR_Ok & _). induction H as [|? []]; constructor; auto.
  - intros H. exists (map (fun _ => tt) l). split; [|done]. apply mapR_Ok.
    induction H; simpl; constructor; auto.
Qed.

Lemma forR_Err {A} (f : A -> result unit) l e : forR f l = Err e -> exists a, a ∈ l /\ f a = Err e.
Proof.
  unfold forR. intros [(l1 & a & l2 & _ & -> & _ & H)%mapR_Err|(_ & _ & H)]%bind_Err; [|done].
  exists a. split; [|done]. set_solver.
Qed.

Lemma mapR_ext {A B} (f g : A -> result B) l :
  (forall a, a ∈ l -> f a = g a) -> mapR f l = mapR g l.
Proof.
  induction l as [|a l IH]; intros H; simpl; [done|].
  rewrite (H a) by by left. rewrite IH; [done|]. intros; apply H. by right.
Qed.

Lemma mapR_total {A B} (f : A -> result B) l :
  (exists l', mapR f l = Ok l') <-> Forall (fun a => exists b, f a = Ok b) l.
Proof.
  split.
  - intros [l' H%mapR_Ok]. induction H; constructor; eauto.
  - induction 1 as [|a l [b Hb] _ [l' IH]]; [by exists []|].
    exists (b :: l'). simpl. by rewrite Hb, IH.
Qed.

(** Post-processing the elements commutes with the loop. *)
Lemma mapR_fmap {A B C} (f : A -> result B) (g : B -> C) l :
  mapR (fun a => g <$> f a) l = map g <$> mapR f l.
Proof.
  induction l as [|a l IH]; simpl; [done|]. rewrite IH.
  destruct (f a); [|done]. simpl. by destruct (mapR f l).
Qed.

Lemma mapR_compose {A B C} (f : B -> result C) (g : A -> B) l :
  mapR f (map g l) = mapR (fun a => f (g a)) l.
Proof. induction l as [|a l IH]; simpl; [done|]. by rewrite IH. Qed.

Lemma result_fmap_Ok {A B} (g : A -> B) (r : result A) b :
  g <$> r = Ok b <-> exists a, r = Ok a /\ g a = b.
Proof. destruct r; simpl; naive_solver. Qed.

(** A loop that checks each element and renders it. *)
Lemma mapR_guarded {A B} (chk : A -> result unit) (g : A -> B) (P : A -> Prop) l ys :
  (forall a, chk a = Ok tt <-> P a) ->
  mapR (fun a => _ ← chk a; Ok (g a)) l = Ok ys <-> Forall P l /\ ys = map g l.
Proof.
  intros Hchk.
  assert (Hone : forall a b, (_ ← chk a; Ok (g a)) = Ok b <-> P a /\ b = g a).
  { intros a b. rewrite bind_Ok, <- Hchk. split; [intros ([] & H & [= <-]); done|].
    intros [H ->]. by exists tt. }
  rewrite mapR_Ok. split.
  - intros H. split; induction H as [|? ? ? ? []%Hone]; simpl; try constructor; auto; congruence.
  - intros [H ->]. induction H; simpl; constructor; auto. by apply Hone.
Qed.

Lemma mapR_perm {A B} (f : A -> result B) l l' ys :
  l ≡ₚ l' -> mapR f l = Ok ys -> exists ys', mapR f l' = Ok ys' /\ ys ≡ₚ ys'.
Proof.
  intros Hp. revert ys. induction Hp as [|x l l' Hp IH|x y l|l1 l2 l3 Hp1 IH1 Hp2 IH2]; intros ys H.
  - eauto.
  - simpl in H. apply bind_Ok in H as (b & Hb & (bs & Hbs & [= <-])%bind_Ok).
    destruct (IH _ Hbs) as (bs' & Hbs' & Hp'). exists (b :: bs'). simpl. rewrite Hb, Hbs'.
    split; [done|by constructor].
  - simpl in H. apply bind_Ok in H as (b & Hb & (bs & H & [= <-])%bind_Ok).
    apply bind_Ok in H as (c & Hc & (cs & Hcs & [= <-])%bind_Ok).
    exists (c :: b :: cs). simpl. rewrite Hb, Hc. simpl. rewrite Hcs. split; [done|constructor].
  - destruct (IH1 _ H) as (ys1 & H1 & Hp1'). destruct (IH2 _ H1) as (ys2 & H2 & Hp2').
    exists ys2. split; [done|by etrans].
Qed.

(** A computation whose failures are all [APIError]s. *)
Lemma mapR_api {A B} (f : A -> result B) l e :
  (forall a e, f a = Err e -> is_api_error e = true) ->
  mapR f l = Err e -> is_api_error e = true.
Proof. intros Hf (? & a & ? & ? & _ & _ & H)%mapR_Err. eauto. Qed.

Lemma guard_err_Err b e e' : guard_err b e = Err e' <-> b = true /\ e' = e.
Proof. destruct b; simpl; naive_solver. Qed.

(** Resolve a successful [result] hypothesis into the successes of its parts. *)
(** Computations that do not panic. *)
Definition calm {A} (m : result A) : Prop := forall what, m <> Err (Panic what).
Lemma calm_Ok {A} (a : A) : calm (Ok a).
Proof. done. Qed.
Lemma calm_Err {A} e : is_panic e = false -> calm (A := A) (Err e).
Proof. by intros H what [= ->]. Qed.
Lemma calm_bind {A B} (m : result A) (f : A -> result B) : calm m -> (forall a, m = Ok a -> calm (f a)) -> calm (m ≫= f).
Proof. intros Hm Hf what. destruct m as [a|e]; [exact (Hf a eq_refl what)|]. intros [= ->]. by destruct (Hm what). Qed.
Lemma calm_guard b e : is_panic e = false -> calm (guard_err b e).
Proof. intros H. destruct b; [by apply calm_Err|apply calm_Ok]. Qed.
Lemma calm_deref {A} (a : A) : calm (deref (Some a)).
Proof. done. Qed.
Lemma calm_mapR {A B} (f : A -> result B) l : (forall x, calm (f x)) -> calm (mapR f l).
Proof.
  intros H. induction l as [|x l IH]; [apply calm_Ok|]. apply calm_bind; [done|intros y _].
  apply calm_bind; [done|intros; apply calm_Ok].
Qed.
Lemma calm_forR {A} (f : A -> result unit) l : (forall x, calm (f x)) -> calm (forR f l).
Proof. intros H. apply calm_bind; [by apply calm_mapR|intros; apply calm_Ok]. Qed.
Create HintDb calm.
#[export] Hint Resolve calm_Ok calm_Err calm_bind calm_guard calm_deref calm_mapR calm_forR : calm.

Ltac result_inv :=
  repeat match goal with
  | H : _ ≫= _ = Ok _ |- _ => apply bind_Ok in H; destruct H as (? & ? & ?)
  | H : guard_err _ _ = Ok _ |- _ => apply guard_err_Ok in H
  | H : Ok _ = Ok _ |- _ => injection H as H; try subst
  | H : Err _ = Ok _ |- _ => discriminate H
  | H : Ok _ = Err _ |- _ => discriminate H
  | x : unit |- _ => destruct x
  end.

#[export] Instance str_le_total : Total str_le.
Proof.
  intros a b. unfold str_le. pose proof (String.compare_antisym a b) as Hab.
  destruct (String.compare a b), (String.compare b a); simpl in Hab; simplify_eq; auto.
Qed.
#[export] Instance str_le_trans : Transitive str_le.
Proof.
  unfold str_le. intros a. induction a as [|x a IH]; intros [|y b] [|z c]; simpl; try done.
  unfold Ascii.compare. intros H1 H2.
  destruct (N.compare_spec (N_of_ascii x) (N_of_ascii y)) as [Hxy|Hxy|Hxy]; [|..|done];
    destruct (N.compare_spec (N_of_ascii y) (N_of_ascii z)) as [Hyz|Hyz|Hyz]; try done.
  - rewrite Hxy, Hyz, N.compare_refl. by eapply IH.
  - by rewrite (proj2 (N.compare_lt_iff _ _)) by lia.
  - by rewrite (proj2 (N.compare_lt_iff _ _)) by lia.
  - by rewrite (proj2 (N.compare_lt_iff _ _)) by lia.
Qed.
#[export] Instance str_le_antisym : AntiSymm (=) str_le.
Proof.
  intros a b. unfold str_le. pose proof (String.compare_antisym a b) as H.
  destruct (String.compare a b) eqn:E; [by intros; apply String.compare_eq_iff|..|done].
  intros _ Hb. destruct (String.compare b a); simpl in *; congruence.
Qed.

(** The result of [sort.Strings] does not depend on the order of its input. *)
Lemma sort_strings_perm l l' : l ≡ₚ l' -> sort_strings l = sort_strings l'.
Proof.
  intros H. unfold sort_strings.
  eapply (StronglySorted_unique str_le); [by apply (StronglySorted_merge_sort _)..|].
  by rewrite !merge_sort_Permutation.
Qed.
