(* ===== verification/GoConv.v ===== *)
(** * Conversions of the Go language and of packages [strconv], [time] and [math]

    [float64] values are IEEE 754 binary64 data ([spec_float] at precision 53, exponent
    limit 1024).  A conversion from floating point to [int64] outside the range of the
    integer is implementation-defined in Go; the value amd64 gives is used. *)
From S2P Require Import Prelude GoStrings Values.

(** ** Floats *)

Definition prec64 : Z := 53.
Definition emax64 : Z := 1024.
Definition float_of_int (z : Z) : spec_float := binary_normalize prec64 emax64 z 0 false.
Definition float_mul (a b : spec_float) : spec_float := SFmul prec64 emax64 a b.
Definition float_div (a b : spec_float) : spec_float := SFdiv prec64 emax64 a b.
(** Truncation towards zero; [None] for an infinity or a NaN. *)
Definition float_trunc (f : spec_float) : option Z :=
  match f with
  | S754_zero _ => Some 0
  | S754_finite s m e =>
      let v := if 0 <=? e then Zpos m * 2 ^ e else Zpos m / 2 ^ (- e) in
      Some (if s then - v else v)
  | _ => None
  end.
(** [int64(f)]. *)
Definition int_of_float (f : spec_float) : Z :=
  match float_trunc f with
  | Some z => if (min_int64 <=? z) && (z <=? max_int64) then z else min_int64
  | None => min_int64
  end.
(** [math.Pow(2, float64(n))] for [n >= 0], which is exact below [2^1024]. *)
Definition pow2 (n : Z) : spec_float :=
  if n <? emax64 then binary_normalize prec64 emax64 1 n false else S754_infinity false.

(** ** [time.ParseDuration] *)

Definition microsecond : Z := 1000.
Definition minute : Z := 60 * second.
Definition hour : Z := 60 * minute.
Definition MICRO : string := String (byte_of 194) (String (byte_of 181) "s").
Definition MU : string := String (byte_of 206) (String (byte_of 188) "s").
Definition unit_of (u : string) : option Z :=
  if String.eqb u "ns" then Some 1
  else if String.eqb u "us" || String.eqb u MICRO || String.eqb u MU then Some microsecond
  else if String.eqb u "ms" then Some millisecond
  else if String.eqb u "s" then Some second
  else if String.eqb u "m" then Some minute
  else if String.eqb u "h" then Some hour
  else None.

(** [leadingInt]: [None] on overflow. *)
Fixpoint leading_int (x : Z) (s : string) : option (Z * string) :=
  match s with
  | String c s' =>
      if is_digit c then
        if 2 ^ 63 / 10 <? x then None
        else let x' := x * 10 + digit_val c in
             if 2 ^ 63 <? x' then None else leading_int x' s'
      else Some (x, s)
  | EmptyString => Some (x, s)
  end.
(** [leadingFraction]: the digits kept, their scale and the rest; digits that would
    overflow are skipped. *)
Fixpoint leading_fraction (x : Z) (scale : spec_float) (overflow : bool) (s : string)
    : Z * spec_float * string :=
  match s with
  | String c s' =>
      if is_digit c then
        if overflow then leading_fraction x scale true s'
        else if (2 ^ 63 - 1) / 10 <? x then leading_fraction x scale true s'
        else let y := x * 10 + digit_val c in
             if 2 ^ 63 <? y then leading_fraction x scale true s'
             else leading_fraction y (float_mul scale (float_of_int 10)) false s'
      else (x, scale, s)
  | EmptyString => (x, scale, s)
  end.
(** The unit: everything up to the next digit or dot. *)
Fixpoint take_unit (s : string) : string * string :=
  match s with
  | String c s' =>
      if is_digit c || Ascii.eqb c "."%char then (EmptyString, s)
      else let '(u, r) := take_unit s' in (String c u, r)
  | EmptyString => (EmptyString, EmptyString)
  end.
(** The sum of the [number unit] groups, as the [uint64] the code accumulates. *)
Fixpoint duration_groups (fuel : nat) (d : Z) (s : string) : option Z :=
  match s, fuel with
  | EmptyString, _ => Some d
  | _, O => None
  | String c _, S fuel' =>
      if negb (is_digit c || Ascii.eqb c "."%char) then None else
      '(v, s1) ← leading_int 0 s;
      let pre := negb (Nat.eqb (String.length s1) (String.length s)) in
      let '(f, scale, s2, post) :=
        match s1 with
        | String "."%char r =>
            let '(f, scale, r') := leading_fraction 0 (float_of_int 1) false r in
            (f, scale, r', negb (Nat.eqb (String.length r') (String.length r)))
        | _ => (0, float_of_int 1, s1, false)
        end in
      if negb pre && negb post then None else
      let '(u, s3) := take_unit s2 in
      if String.eqb u EmptyString then None else
      unit ← unit_of u;
      if 2 ^ 63 / unit <? v then None else
      let v1 := v * unit in
      let v2 := if 0 <? f
                then v1 + int_of_float (float_mul (float_of_int f) (float_div (float_of_int unit) scale))
                else v1 in
      if 2 ^ 63 <? v2 then None else
      let d' := d + v2 in
      if 2 ^ 63 <? d' then None else duration_groups fuel' d' s3
  end.
Definition parse_duration (s : string) : option Z :=
  let '(neg, r) :=
    match s with
    | String "-"%char r => (true, r)
    | String "+"%char r => (false, r)
    | _ => (false, s)
    end in
  if String.eqb r "0" then Some 0
  else if String.eqb r EmptyString then None
  else d ← duration_groups (String.length r) 0 r;
       if neg then Some (- d) else if 2 ^ 63 - 1 <? d then None else Some d.

(** ** [strconv.ParseBool] *)

Definition parse_bool (s : string) : option bool :=
  if bool_decide (s ∈ ["1"; "t"; "T"; "TRUE"; "true"; "True"]) then Some true
  else if bool_decide (s ∈ ["0"; "f"; "F"; "FALSE"; "false"; "False"]) then Some false
  else None.

(** ** Checks against known values *)

Example parse_duration_1 : parse_duration "1h30m" = Some (5400 * second).
Proof. vm_compute. reflexivity. Qed.
Example parse_duration_2 : parse_duration "-1.5s" = Some (-1500 * millisecond).
Proof. vm_compute. reflexivity. Qed.
Example parse_duration_3 : parse_duration ".5ms" = Some (500 * microsecond).
Proof. vm_compute. reflexivity. Qed.
Example parse_duration_4 : parse_duration "5" = None /\ parse_duration "s" = None
  /\ parse_duration "1x" = None /\ parse_duration "." = None /\ parse_duration "9999999h" = None.
Proof. vm_compute. auto. Qed.
Example int_of_float_1 : int_of_float (float_mul (float_of_int (5 * second)) (pow2 31)) = min_int64.
Proof. vm_compute. reflexivity. Qed.

(** ** Lemmas *)

Lemma int_of_float_range f : in_int64 (int_of_float f).
Proof.
  unfold int_of_float, in_int64. destruct (float_trunc f); [case_match|];
    unfold min_int64, max_int64 in *; lia.
Qed.

(** ** The conversion of an [int64] to [float64] is finite *)

Lemma iter_pos_inv {A} (P : A -> Prop) (f : A -> A) n x :
  (forall a, P a -> P (f a)) -> P x -> P (iter_pos f n x).
Proof. intros Hf. revert x. induction n; simpl; auto. Qed.

Lemma shr_1_le r b : 0 <= shr_m r <= b -> 0 <= shr_m (shr_1 r) <= b.
Proof. destruct r as [m r s]. destruct m as [|[p|p|]|[p|p|]]; simpl; lia. Qed.

Lemma digits2_pos_le p k : Zpos p < 2 ^ k -> Zpos (digits2_pos p) <= k.
Proof.
  revert k. induction p as [p IH|p IH|]; intros k Hk; cbn [digits2_pos];
    (destruct (Z.le_gt_cases k 0) as [Hz|Hz];
     [destruct (decide (k = 0)) as [->|]; [|rewrite Z.pow_neg_r in Hk by lia]; lia|]);
    try (specialize (IH (k - 1)); replace k with (Z.succ (k - 1)) in Hk by lia; rewrite Z.pow_succ_r in Hk by lia);
    lia.
Qed.

Lemma shr_fexp_le m e l k E :
  0 <= m < 2 ^ k -> e <= E -> 0 <= k -> emin prec64 emax64 <= E ->
  0 <= shr_m (shr_fexp prec64 emax64 m e l).1 <= m /\ (shr_fexp prec64 emax64 m e l).2 <= E + k.
Proof.
  intros Hm He Hk HE. unfold shr_fexp, shr.
  assert (Hd : Zdigits2 m <= k).
  { destruct m; simpl; [lia|apply digits2_pos_le; lia|lia]. }
  assert (Hr : 0 <= shr_m (shr_record_of_loc m l) <= m) by (destruct l as [|[]]; simpl; lia).
  destruct (fexp prec64 emax64 (Zdigits2 m + e) - e) as [|n|n] eqn:En; cbn; [split; [done|lia]| |split; [done|lia]].
  split; [|unfold fexp in En; unfold prec64 at 1 in En; lia].
  apply (iter_pos_inv (fun r => 0 <= shr_m r <= m)); [|done]. intros a. apply shr_1_le.
Qed.

Lemma iter_xO p d : Zpos (Pos.iter xO p d) = Zpos p * 2 ^ Zpos d.
Proof.
  induction d as [|d IH] using Pos.peano_ind; [simpl; lia|].
  rewrite Pos.iter_succ, Pos2Z.inj_xO, IH, Pos2Z.inj_succ, Z.pow_succ_r by lia. lia.
Qed.

(** Rounding moves the exponent up by no more than the digits it drops. *)
Lemma round_aux_finite sx m e : Zpos m < 2 ^ 116 -> e <= 0 ->
  exists m', binary_round_aux prec64 emax64 sx (Zpos m) e loc_Exact = S754_zero sx
          \/ exists e', binary_round_aux prec64 emax64 sx (Zpos m) e loc_Exact = S754_finite sx m' e'.
Proof.
  intros Hm He. unfold binary_round_aux.
  destruct (shr_fexp_le (Zpos m) e loc_Exact 116 0) as [H1 H2]; [lia|done|lia|done|].
  destruct (shr_fexp _ _ (Zpos m) e loc_Exact) as [r e1]. cbn [fst snd] in *.
  set (m1 := round_nearest_even _ _).
  assert (Hm1 : 0 <= m1 < 2 ^ 117).
  { unfold m1, round_nearest_even. change (2 ^ 117) with (2 * 2 ^ 116). repeat case_match; lia. }
  destruct (shr_fexp_le m1 e1 loc_Exact 117 116) as [H3 H4]; [lia|lia|lia|done|].
  destruct (shr_fexp _ _ m1 e1 loc_Exact) as [r2 e2]. cbn [fst snd] in *.
  destruct (shr_m r2) as [|p|p]; [by exists 1%positive; left| |lia].
  exists p. right. exists e2. by rewrite (proj2 (Z.leb_le e2 (emax64 - prec64))) by (unfold emax64, prec64; lia).
Qed.

Lemma float_of_int_finite z : in_int64 z ->
  match float_of_int z with S754_zero _ | S754_finite _ _ _ => True | _ => False end.
Proof.
  intros Hz.
  assert (Hr : forall sx p, Zpos p <= 2 ^ 63 ->
            match binary_round prec64 emax64 sx p 0 with S754_zero _ | S754_finite _ _ _ => True | _ => False end).
  { intros sx p Hp. unfold binary_round.
    assert (Hd : Zpos (digits2_pos p) <= 64) by (apply digits2_pos_le; lia).
    destruct (shl_align p 0 _) as [mz ez] eqn:Es.
    assert (Zpos mz < 2 ^ 116 /\ ez <= 0) as [Hm He].
    { unfold shl_align, fexp in Es. destruct (_ - 0) as [|d|d] eqn:Ed; injection Es as <- <-; [lia..|].
      split; [|lia]. change (emin prec64 emax64) with (-1074) in Ed. unfold prec64 in Ed.
      rewrite iter_xO. assert (2 ^ Zpos d <= 2 ^ 52) by (apply Z.pow_le_mono_r; lia).
      change (2 ^ 116) with (2 ^ 64 * 2 ^ 52). nia. }
    by destruct (round_aux_finite sx mz ez Hm He) as (m' & [-> | (e' & ->)]). }
  unfold float_of_int, binary_normalize, in_int64, min_int64, max_int64 in *.
  destruct z; [done|apply Hr; lia..].
Qed.
