(* ===== verification/CircuitBreaker.v ===== *)
(** * internal/datasource/circuit_breaker.go

    The three-state breaker that guards writes to a data source.  Every method holds the
    mutex for its whole body, so a method is one atomic step on the [CircuitBreaker]
    record; the instants [time.Now] returns are arguments.  The counters stay below the
    configured thresholds ([CBInv]), so they are plain integers. *)
From S2P Require Import Prelude.

Inductive CircuitState := CircuitClosed | CircuitOpen | CircuitHalfOpen.
#[export] Instance CircuitState_eq_dec : EqDecision CircuitState.
Proof. solve_decision. Defined.

Definition CircuitState_String (s : CircuitState) : string :=
  match s with
  | CircuitClosed => "CLOSED"
  | CircuitOpen => "OPEN"
  | CircuitHalfOpen => "HALF_OPEN"
  end.

Record CircuitBreakerConfig := {
  FailureThreshold : Z;
  OpenDuration : Z;
  HalfOpenMaxRequests : Z;
  SuccessThreshold : Z;
}.

Record CircuitBreaker := {
  state : CircuitState;
  failureCount : Z;
  successCount : Z;
  lastFailureAt : Z;
  openedAt : Z;
  halfOpenRequests : Z;
  config : CircuitBreakerConfig;
}.

(** [time.Time{}]: some instant long before any [now] of a run. *)
Definition zero_time : Z := - 62135596800 * second.

Definition or_default (v d : Z) : Z := if v <=? 0 then d else v.

Definition NewCircuitBreaker (cfg : CircuitBreakerConfig) : CircuitBreaker :=
  {| state := CircuitClosed;
     failureCount := 0; successCount := 0;
     lastFailureAt := zero_time; openedAt := zero_time; halfOpenRequests := 0;
     config :=
       {| FailureThreshold := or_default (FailureThreshold cfg) 5;
          OpenDuration := or_default (OpenDuration cfg) (30 * second);
          HalfOpenMaxRequests := or_default (HalfOpenMaxRequests cfg) 1;
          SuccessThreshold := or_default (SuccessThreshold cfg) 2 |} |}.

(** The HALF_OPEN branch of [AllowRequest]. *)
Definition allow_probe (cb : CircuitBreaker) : CircuitBreaker * bool :=
  if halfOpenRequests cb <? HalfOpenMaxRequests (config cb) then
    ({| state := state cb; failureCount := failureCount cb; successCount := successCount cb;
        lastFailureAt := lastFailureAt cb; openedAt := openedAt cb;
        halfOpenRequests := halfOpenRequests cb + 1; config := config cb |}, true)
  else (cb, false).

(** OPEN to HALF_OPEN once the open period has elapsed. *)
Definition to_half_open (cb : CircuitBreaker) : CircuitBreaker :=
  {| state := CircuitHalfOpen; failureCount := failureCount cb; successCount := 0;
     lastFailureAt := lastFailureAt cb; openedAt := openedAt cb;
     halfOpenRequests := 0; config := config cb |}.

Definition AllowRequest (now : Z) (cb : CircuitBreaker) : CircuitBreaker * bool :=
  match state cb with
  | CircuitClosed => (cb, true)
  | CircuitOpen =>
      if OpenDuration (config cb) <=? time_sub now (openedAt cb) then
        allow_probe (to_half_open cb)
      else (cb, false)
  | CircuitHalfOpen => allow_probe cb
  end.

Definition RecordSuccess (cb : CircuitBreaker) : CircuitBreaker :=
  match state cb with
  | CircuitClosed =>
      {| state := CircuitClosed; failureCount := 0; successCount := successCount cb;
         lastFailureAt := lastFailureAt cb; openedAt := openedAt cb;
         halfOpenRequests := halfOpenRequests cb; config := config cb |}
  | CircuitHalfOpen =>
      let sc := successCount cb + 1 in
      if SuccessThreshold (config cb) <=? sc then
        {| state := CircuitClosed; failureCount := 0; successCount := 0;
           lastFailureAt := lastFailureAt cb; openedAt := openedAt cb;
           halfOpenRequests := 0; config := config cb |}
      else
        {| state := CircuitHalfOpen; failureCount := failureCount cb; successCount := sc;
           lastFailureAt := lastFailureAt cb; openedAt := openedAt cb;
           halfOpenRequests := halfOpenRequests cb; config := config cb |}
  | CircuitOpen => cb
  end.

(** [now1] and [now2] are the two readings of the clock in the CLOSED branch; the
    HALF_OPEN branch reads it once. *)
Definition RecordFailure (now1 now2 : Z) (cb : CircuitBreaker) : CircuitBreaker :=
  match state cb with
  | CircuitClosed =>
      let fc := failureCount cb + 1 in
      let tripped := FailureThreshold (config cb) <=? fc in
      {| state := if tripped then CircuitOpen else CircuitClosed;
         failureCount := fc; successCount := successCount cb;
         lastFailureAt := now1; openedAt := if tripped then now2 else openedAt cb;
         halfOpenRequests := halfOpenRequests cb; config := config cb |}
  | CircuitHalfOpen =>
      {| state := CircuitOpen; failureCount := 0; successCount := 0;
         lastFailureAt := lastFailureAt cb; openedAt := now1;
         halfOpenRequests := 0; config := config cb |}
  | CircuitOpen => cb
  end.

Definition State (cb : CircuitBreaker) : CircuitState := state cb.

(** ** Runs

    A client asks [AllowRequest] and, for each granted request, reports its outcome
    once.  [n] counts the granted requests whose outcome is still to come. *)
Inductive cb_event := EvAllow (now : Z) (granted : bool) | EvSuccess | EvFailure (t1 t2 : Z).

Inductive cb_step : CircuitBreaker * nat -> cb_event -> CircuitBreaker * nat -> Prop :=
  | step_allow now cb cb' b n :
      AllowRequest now cb = (cb', b) ->
      cb_step (cb, n) (EvAllow now b) (cb', if b then S n else n)
  | step_success cb n : cb_step (cb, S n) EvSuccess (RecordSuccess cb, n)
  | step_failure t1 t2 cb n :
      cb_step (cb, S n) (EvFailure t1 t2) (RecordFailure t1 t2 cb, n).

Inductive cb_run : CircuitBreaker * nat -> list cb_event -> CircuitBreaker * nat -> Prop :=
  | run_nil s : cb_run s [] s
  | run_cons s e s' es s'' : cb_step s e s' -> cb_run s' es s'' -> cb_run s (e :: es) s''.

Definition is_failure (e : cb_event) : bool :=
  match e with EvFailure _ _ => true | _ => false end.
Definition is_grant (e : cb_event) : bool :=
  match e with EvAllow _ b => b | _ => false end.
Fixpoint grants (es : list cb_event) : Z :=
  match es with
  | [] => 0
  | e :: es' => (if is_grant e then 1 else 0) + grants es'
  end.

(** The default configuration ([SuccessThreshold] 2, one probe) just after the
    transition to HALF_OPEN. *)
Definition default_cfg : CircuitBreakerConfig :=
  {| FailureThreshold := 0; OpenDuration := 0; HalfOpenMaxRequests := 0; SuccessThreshold := 0 |}.
Fixpoint fail_times (ts : list Z) (cb : CircuitBreaker) : CircuitBreaker :=
  match ts with [] => cb | t :: ts' => fail_times ts' (RecordFailure t t cb) end.
Definition tripped_default : CircuitBreaker :=
  fail_times [1; 2; 3; 4; 5] (NewCircuitBreaker default_cfg).
Definition wedged_default : CircuitBreaker :=
  RecordSuccess (AllowRequest (40 * second) tripped_default).1.

(** What every breaker built by [NewCircuitBreaker] satisfies. *)
Record CBInv (cb : CircuitBreaker) : Prop := {
  inv_threshold : 0 < FailureThreshold (config cb);
  inv_open : 0 < OpenDuration (config cb);
  inv_max : 0 < HalfOpenMaxRequests (config cb);
  inv_success : 0 < SuccessThreshold (config cb);
  inv_probes : 0 <= halfOpenRequests cb <= HalfOpenMaxRequests (config cb);
  inv_failures : 0 <= failureCount cb <= FailureThreshold (config cb);
  inv_closed : state cb = CircuitClosed -> failureCount cb < FailureThreshold (config cb);
  inv_successes : 0 <= successCount cb < SuccessThreshold (config cb);
}.

(** ** Lemmas *)

Lemma or_default_pos v d : 0 < d -> 0 < or_default v d.
Proof. unfold or_default. case_match; lia. Qed.

Lemma NewCircuitBreaker_inv cfg : CBInv (NewCircuitBreaker cfg).
Proof.
  pose proof (or_default_pos (FailureThreshold cfg) 5 ltac:(lia)).
  pose proof (or_default_pos (OpenDuration cfg) (30 * second) ltac:(unfold second; lia)).
  pose proof (or_default_pos (HalfOpenMaxRequests cfg) 1 ltac:(lia)).
  pose proof (or_default_pos (SuccessThreshold cfg) 2 ltac:(lia)).
  split; simpl; lia.
Qed.

Ltac cb_solve :=
  repeat (case_match; simplify_eq/=); 
  repeat match goal with H : ?a = ?a -> _ |- _ => specialize (H eq_refl) end;
  split; simpl in *; intros; simplify_eq/=; try lia; try congruence; try auto.

Lemma AllowRequest_inv now cb : CBInv cb -> CBInv (AllowRequest now cb).1.
Proof.
  intros []. unfold AllowRequest, allow_probe, to_half_open; simpl.
  cb_solve.
Qed.
Lemma RecordSuccess_inv cb : CBInv cb -> CBInv (RecordSuccess cb).
Proof. intros []. unfold RecordSuccess. cb_solve. Qed.
Lemma RecordFailure_inv t1 t2 cb : CBInv cb -> CBInv (RecordFailure t1 t2 cb).
Proof.
  intros []. unfold RecordFailure; cbv zeta.
  cb_solve.
Qed.
#[export] Hint Resolve NewCircuitBreaker_inv AllowRequest_inv RecordSuccess_inv
  RecordFailure_inv : mk.

Lemma cb_step_inv s e s' : cb_step s e s' -> CBInv s.1 -> CBInv s'.1.
Proof.
  destruct 1 as [now cb cb' b n Ha| |]; simpl; auto with mk.
  intros H. apply (AllowRequest_inv now) in H. by rewrite Ha in H.
Qed.

Lemma cb_step_config s e s' : cb_step s e s' -> config s'.1 = config s.1.
Proof.
  destruct 1 as [now cb cb' b n Ha| |]; simpl.
  - revert Ha. unfold AllowRequest, allow_probe. intros. repeat case_match; by simplify_eq/=.
  - unfold RecordSuccess. by repeat case_match.
  - unfold RecordFailure. by repeat case_match.
Qed.

Lemma cb_run_inv s es s' : cb_run s es s' -> CBInv s.1 -> CBInv s'.1.
Proof. induction 1; eauto using cb_step_inv. Qed.

Lemma cb_run_config s es s' : cb_run s es s' -> config s'.1 = config s.1.
Proof. induction 1 as [|?????? Hr IH]; [done|]. rewrite IH. eauto using cb_step_config. Qed.

Lemma cb_run_app s es s' es' s'' : cb_run s es s' -> cb_run s' es' s'' -> cb_run s (es ++ es') s''.
Proof. induction 1; simpl; eauto using cb_run. Qed.

(** In HALF_OPEN, while no failure is reported, the successes already counted and the
    probes still out never exceed the probes admitted since the transition. *)
Definition half_open_ledger (s : CircuitBreaker * nat) : Prop :=
  state s.1 = CircuitHalfOpen
  /\ successCount s.1 + Z.of_nat s.2 <= halfOpenRequests s.1 <= HalfOpenMaxRequests (config s.1)
  /\ 0 <= successCount s.1.

Lemma half_open_ledger_step s e s' :
  cb_step s e s' -> is_failure e = false -> half_open_ledger s ->
  half_open_ledger s'
  \/ (state s'.1 = CircuitClosed /\ SuccessThreshold (config s.1) <= HalfOpenMaxRequests (config s.1)).
Proof.
  intros [now cb cb' b n Ha|cb n|] Hf (Hs & Hl & Hp); simplify_eq/=.
  - left. unfold AllowRequest, allow_probe in Ha. rewrite Hs in Ha.
    unfold half_open_ledger. repeat case_match; simplify_eq/=; (split; [done|lia]).
  - unfold RecordSuccess. rewrite Hs. unfold half_open_ledger.
    case_match; simpl; [right; split; [done|lia]|left; split; [done|lia]].
Qed.

Lemma half_open_ledger_run s es s' :
  cb_run s es s' -> forallb (fun e => negb (is_failure e)) es = true ->
  half_open_ledger s -> HalfOpenMaxRequests (config s.1) < SuccessThreshold (config s.1) ->
  half_open_ledger s'.
Proof.
  induction 1 as [|s e s' es s'' Hst Hr IH]; simpl; [done|].
  intros [Hf%negb_true_iff Hfs]%andb_true_iff Hl Hlt.
  destruct (half_open_ledger_step _ _ _ Hst Hf Hl) as [Hl'|[_ ?]]; [|lia].
  apply IH; [done..|]. by rewrite (cb_step_config _ _ _ Hst).
Qed.

(** One more probe is granted while there is room. *)
Lemma probe_granted (now : Z) cb :
  state cb = CircuitHalfOpen -> halfOpenRequests cb < HalfOpenMaxRequests (config cb) ->
  exists cb', AllowRequest now cb = (cb', true) /\ state cb' = CircuitHalfOpen
    /\ successCount cb' = successCount cb /\ config cb' = config cb
    /\ halfOpenRequests cb' = halfOpenRequests cb + 1.
Proof.
  intros Hs Hm. unfold AllowRequest, allow_probe. rewrite Hs.
  case_match; [|lia]. eexists. repeat split; done.
Qed.

(** Granting [k] probes in a row. *)
Lemma grant_probes (now : Z) (k : nat) cb n :
  state cb = CircuitHalfOpen ->
  halfOpenRequests cb + Z.of_nat k <= HalfOpenMaxRequests (config cb) ->
  exists es cb', cb_run (cb, n) es (cb', (k + n)%nat) /\ state cb' = CircuitHalfOpen
    /\ forallb (fun e => negb (is_failure e)) es = true
    /\ successCount cb' = successCount cb /\ config cb' = config cb.
Proof.
  revert cb n. induction k as [|k IH]; intros cb n Hs Hm.
  - exists [], cb. repeat split; [constructor|done].
  - destruct (probe_granted now cb Hs) as (cb1 & Ha & Hs1 & Hc1 & Hg1 & Hh1); [lia|].
    destruct (IH cb1 (S n) Hs1) as (es & cb' & Hr & Hs' & Hf & Hc & Hg); [rewrite Hg1; lia|].
    exists (EvAllow now true :: es), cb'. repeat split; [|done|done|congruence|congruence].
    econstructor; [by apply (step_allow now cb cb1 true n)|].
    by replace (S k + n)%nat with (k + S n)%nat by lia.
Qed.

Lemma report_successes k cb n :
  state cb = CircuitHalfOpen ->
  successCount cb + Z.of_nat (S k) = SuccessThreshold (config cb) ->
  exists es cb', cb_run (cb, (S k + n)%nat) es (cb', n) /\ state cb' = CircuitClosed
    /\ forallb (fun e => negb (is_failure e)) es = true.
Proof.
  revert cb. induction k as [|k IH]; intros cb Hs Hk.
  - exists [EvSuccess], (RecordSuccess cb). split; [|split; [|done]].
    + econstructor; [constructor|constructor].
    + unfold RecordSuccess. rewrite Hs. case_match; [done|lia].
  - assert (Hst : state (RecordSuccess cb) = CircuitHalfOpen
       /\ successCount (RecordSuccess cb) = successCount cb + 1
       /\ config (RecordSuccess cb) = config cb).
    { unfold RecordSuccess. rewrite Hs. case_match; [lia|done]. }
    destruct Hst as (Hs' & Hc & Hg).
    destruct (IH (RecordSuccess cb)) as (es & cb' & Hr & Hcl & Hf); [done| |].
    { rewrite Hc, Hg. lia. }
    exists (EvSuccess :: es), cb'. split; [|done].
    econstructor; [apply step_success|exact Hr].
Qed.

Lemma fail_times_open ts cb : state cb = CircuitOpen -> fail_times ts cb = cb.
Proof.
  revert cb. induction ts as [|t ts IH]; intros cb Hc; simpl; [done|].
  rewrite IH; unfold RecordFailure; by rewrite Hc.
Qed.
Lemma fail_times_closed ts cb :
  state cb = CircuitClosed -> 0 < FailureThreshold (config cb) ->
  failureCount cb < FailureThreshold (config cb) ->
  state (fail_times ts cb) =
    if FailureThreshold (config cb) <=? failureCount cb + Z.of_nat (length ts)
    then CircuitOpen else CircuitClosed.
Proof.
  revert cb. induction ts as [|t ts IH]; intros cb Hs Hp Hlt; simpl.
  - rewrite Hs. by case_match; [lia|].
  - unfold RecordFailure. rewrite Hs. cbv zeta.
    destruct (FailureThreshold (config cb) <=? failureCount cb + 1) eqn:Ht.
    + rewrite fail_times_open by done. simpl. by case_match; [|lia].
    + rewrite IH by (simpl; done || lia). simpl. repeat case_match; [done|lia|lia|done].
Qed.

Lemma fail_times_app ts ts' cb : fail_times (ts ++ ts') cb = fail_times ts' (fail_times ts cb).
Proof. revert cb. induction ts; simpl; auto. Qed.
Lemma fail_times_config ts cb : config (fail_times ts cb) = config cb.
Proof.
  revert cb. induction ts as [|t ts IH]; intros cb; simpl; [done|]. rewrite IH.
  unfold RecordFailure. by repeat case_match.
Qed.
(** Below the threshold the failures are counted one by one. *)
Lemma fail_times_count ts cb :
  state cb = CircuitClosed -> failureCount cb + Z.of_nat (length ts) < FailureThreshold (config cb) ->
  state (fail_times ts cb) = CircuitClosed
  /\ failureCount (fail_times ts cb) = failureCount cb + Z.of_nat (length ts).
Proof.
  revert cb. induction ts as [|t ts IH]; intros cb Hs Hlt; simpl in *; [split; [done|lia]|].
  assert (Hst : state (RecordFailure t t cb) = CircuitClosed
    /\ failureCount (RecordFailure t t cb) = failureCount cb + 1
    /\ config (RecordFailure t t cb) = config cb).
  { unfold RecordFailure. rewrite Hs. simpl. split; [case_match; [lia|done]|done]. }
  destruct Hst as (H1 & H2 & H3). destruct (IH _ H1); rewrite ?H2, ?H3 in *; [lia|].
  split; [done|lia].
Qed.
(** The failure that reaches the threshold opens the breaker at its own instant. *)
Lemma fail_times_trip ts t cb :
  state cb = CircuitClosed ->
  failureCount cb + Z.of_nat (S (length ts)) = FailureThreshold (config cb) ->
  state (fail_times (ts ++ [t]) cb) = CircuitOpen
  /\ openedAt (fail_times (ts ++ [t]) cb) = t
  /\ config (fail_times (ts ++ [t]) cb) = config cb.
Proof.
  intros Hs Hn. rewrite fail_times_config, fail_times_app. simpl.
  destruct (fail_times_count ts cb Hs) as [Hc Hf]; [lia|].
  unfold RecordFailure. rewrite Hc, Hf, fail_times_config. simpl. by case_match; [|lia].
Qed.

(** ** Theorems *)

(** reachability invariant.  From [NewCircuitBreaker cfg], whatever the configuration,
    after any run of requests and outcomes the breaker's counters are within bounds: at
    most [HalfOpenMaxRequests] probes are counted, the CLOSED state is always strictly below
    the failure threshold, and the thresholds themselves stay positive. *)
Theorem circuit_breaker_invariant cfg n es cb' n' :
  cb_run (NewCircuitBreaker cfg, n) es (cb', n') -> CBInv cb'.
Proof. intros H. apply (cb_run_inv _ _ _ H). apply NewCircuitBreaker_inv. Qed.

(** while OPEN and before [OpenDuration] has elapsed, every request is refused and
    the breaker is unchanged; from that instant on the next request moves it to HALF_OPEN
    and is admitted as the first probe. *)
Theorem open_fails_fast now cb :
  CBInv cb -> state cb = CircuitOpen -> in_int64 (now - openedAt cb) ->
  (now - openedAt cb < OpenDuration (config cb) -> AllowRequest now cb = (cb, false))
  /\ (OpenDuration (config cb) <= now - openedAt cb ->
      (AllowRequest now cb).2 = true /\ state (AllowRequest now cb).1 = CircuitHalfOpen
      /\ halfOpenRequests (AllowRequest now cb).1 = 1 /\ successCount (AllowRequest now cb).1 = 0).
Proof.
  intros Hi Hs Ht. unfold AllowRequest, time_sub. rewrite Hs, clamp64_id by done.
  split; intros Hd; case_match; try lia; [done|].
  pose proof (inv_max _ Hi). unfold allow_probe, to_half_open; simpl.
  by case_match; [|lia].
Qed.

(** recovery, exactly characterised.  Take a breaker that is HALF_OPEN with no
    request outstanding, just after the transition.  Without any reported failure it can
    be closed again if and only if [SuccessThreshold <= HalfOpenMaxRequests]: admitted
    probes are never given back, so with a larger success threshold the breaker stays
    HALF_OPEN whatever the client does. *)
Theorem half_open_recovers_iff cb :
  CBInv cb -> state cb = CircuitHalfOpen -> halfOpenRequests cb = 0 -> successCount cb = 0 ->
  (exists es cb' n', cb_run (cb, O) es (cb', n')
     /\ forallb (fun e => negb (is_failure e)) es = true /\ state cb' = CircuitClosed)
  <-> SuccessThreshold (config cb) <= HalfOpenMaxRequests (config cb).
Proof.
  intros Hi Hs Hh Hc. pose proof (inv_success _ Hi). pose proof (inv_max _ Hi). split.
  - intros (es & cb' & n' & Hr & Hf & Hcl).
    destruct (Z.le_gt_cases (SuccessThreshold (config cb)) (HalfOpenMaxRequests (config cb)));
      [done|].
    destruct (half_open_ledger_run _ _ _ Hr Hf) as [Hs' _]; [|simpl; lia|simpl in *; congruence].
    split; simpl; [done|lia].
  - intros Hle. set (k := Z.to_nat (SuccessThreshold (config cb))).
    destruct (grant_probes 0 k cb O Hs) as (es & cb1 & Hr & Hs1 & Hf & Hc1 & Hg); [lia|].
    destruct k as [|k'] eqn:Hk; [lia|].
    destruct (report_successes k' cb1 O Hs1) as (es' & cb' & Hr' & Hcl & Hf').
    { rewrite Hc1, Hg. lia. }
    exists (es ++ es'), cb', O. split; [by eapply cb_run_app|]. split; [|done].
    rewrite forallb_app. by rewrite Hf, Hf'.
Qed.

(** from a new breaker, exactly the [FailureThreshold]-th consecutive failure trips it. *)
Theorem trips_at_threshold cfg ts :
  state (fail_times ts (NewCircuitBreaker cfg)) =
    if or_default (FailureThreshold cfg) 5 <=? Z.of_nat (length ts)
    then CircuitOpen else CircuitClosed.
Proof.
  pose proof (or_default_pos (FailureThreshold cfg) 5 ltac:(lia)).
  by rewrite fail_times_closed by (done || (simpl; lia)).
Qed.

(** a HALF_OPEN breaker that has spent its probes and has no request outstanding is
    stuck: every later request, at any instant, is refused and nothing changes.  With the
    defaults of [NewCircuitBreaker] one tripping, the open period and one successful
    probe lead there, so the data source never receives another write. *)
Theorem half_open_wedges cb es s' :
  state cb = CircuitHalfOpen -> HalfOpenMaxRequests (config cb) <= halfOpenRequests cb ->
  cb_run (cb, O) es s' -> s' = (cb, O) /\ grants es = 0.
Proof.
  intros Hs Hm Hr. remember (cb, O) as s eqn:E. revert E.
  induction Hr as [s|s e s1 es s2 Hst Hr IH]; intros ->; [done|].
  assert (s1 = (cb, O) /\ is_grant e = false) as [-> Hg].
  { inversion Hst as [now cb0 cb' b n Ha| |]; subst.
    unfold AllowRequest, allow_probe in Ha. rewrite Hs in Ha.
    case_match; [lia|]. by simplify_eq. }
  destruct (IH eq_refl) as [-> Hgr]. simpl. by rewrite Hg, Hgr.
Qed.

(** ** Witnesses *)

Lemma circuit_breaker_invariant_witness : CBInv (RecordFailure 1 1 (NewCircuitBreaker default_cfg)).
Proof.
  apply (circuit_breaker_invariant default_cfg 1 [EvFailure 1 1] _ O).
  econstructor; constructor.
Defined.

Lemma open_fails_fast_witness : AllowRequest 6 tripped_default = (tripped_default, false).
Proof.
  apply (open_fails_fast 6 tripped_default); [|reflexivity|vm_compute; split; discriminate|vm_compute; reflexivity].
  split; vm_compute; try split; try discriminate; reflexivity.
Defined.

Lemma half_open_recovers_iff_witness :
  ~ exists es cb' n', cb_run ((to_half_open tripped_default), O) es (cb', n')
     /\ forallb (fun e => negb (is_failure e)) es = true /\ state cb' = CircuitClosed.
Proof.
  intros H.
  apply (half_open_recovers_iff (to_half_open tripped_default)) in H;
    [exact (H eq_refl)| |reflexivity..].
  split; vm_compute; try split; try discriminate; reflexivity.
Defined.

Lemma half_open_wedges_witness :
  state wedged_default = CircuitHalfOpen /\ grants [EvAllow (100 * second) false] = 0.
Proof.
  split; [reflexivity|].
  apply (half_open_wedges wedged_default _ (wedged_default, O));
    [reflexivity|vm_compute; discriminate|].
  repeat econstructor.
Defined.
