(* ===== verification/Retry.v ===== *)
(** * pkg/retry: error classification and exponential backoff

    [Do] is the retry loop with its waits; the calls it makes and the cancellation of its
    context are arguments. *)
From S2P Require Import Prelude GoStrings Values.

(** The chain [errors.Is] and [errors.As] walk. *)
Fixpoint error_chain (e : error) : list error :=
  e :: match e with
       | Wrap _ inner => error_chain inner
       | NetError _ (Some inner) => error_chain inner
       | _ => []
       end.

Definition ECONNRESET : Z := 104.
Definition ECONNREFUSED : Z := 111.
Definition EAGAIN : Z := 11.
Definition ETIMEDOUT : Z := 110.

Definition is_eof (e : error) : bool :=
  match e with ErrEOF | ErrUnexpectedEOF => true | _ => false end.
(** The first [syscall.Errno] of the chain. *)
Fixpoint as_errno (ch : list error) : option Z :=
  match ch with
  | [] => None
  | Errno n :: _ => Some n
  | _ :: ch' => as_errno ch'
  end.
(** The first error of the chain with a [Timeout] method, and what it answers:
    [net] errors, [syscall.Errno] and [context.DeadlineExceeded] have one. *)
Fixpoint as_net_timeout (ch : list error) : option bool :=
  match ch with
  | [] => None
  | NetError t _ :: _ => Some t
  | Errno n :: _ => Some ((n =? EAGAIN) || (n =? ETIMEDOUT))
  | ContextErr true :: _ => Some true
  | _ :: ch' => as_net_timeout ch'
  end.

(** pkg/retry/classifier.go.  [None] is a nil error. *)
Definition IsTransient (err : option error) : bool :=
  match err with
  | None => false
  | Some e =>
      let ch := error_chain e in
      if existsb is_eof ch then true else
      if match as_errno ch with
         | Some errno => (errno =? ECONNREFUSED) || (errno =? ECONNRESET)
         | None => false
         end then true else
      match as_net_timeout ch with
      | Some t => t
      | None => false
      end
  end.

Definition IsBusiness (err : option error) : bool :=
  match err with
  | None => false
  | Some e => negb (IsTransient (Some e))
  end.

Arguments IsTransient : simpl never.

(** pkg/retry/retry.go [Config]. *)
Record Config := { MaxRetries : Z; RetryInterval : Z }.

(** [cfg.RetryInterval * (1 << uint(attempt))] on [time.Duration]. *)
Definition backoff (interval attempt : Z) : Z :=
  wrap64 (interval * wrap64 (Z.shiftl 1 attempt)).

Definition demo_fn (k : Z) : result Z := if k <? 2 then Err (Errno ECONNRESET) else Ok 7.
Definition demo_cfg : Config := {| MaxRetries := 3; RetryInterval := 100 * millisecond |}.

Section Do.
Context {A : Type}.
(** [fn k] is what the k-th call returns; [cancel k] is the context's error when the
    [select] before retry k+1 takes the [ctx.Done] branch. *)
Variable fn : Z -> result A.
Variable cancel : Z -> option error.
Variable cfg : Config.

(** The outcome together with the waits that were started and the number of calls.
    [fuel] bounds the attempts left; [Do] gives the loop [MaxRetries + 1]. *)
Fixpoint do_loop (fuel : nat) (attempt : Z) : result A * list Z * Z :=
  match fuel with
  | O => (Err (Errorf (Sprintf "retry loop exited unexpectedly" [])), [], 0)
  | S fuel' =>
      if attempt <=? MaxRetries cfg then
        match fn attempt with
        | Ok r => (Ok r, [], 1)
        | Err err =>
            if IsBusiness (Some err) then (Err err, [], 1)
            else if attempt =? MaxRetries cfg then
              (Err (Wrap (Sprintf "max retries (%d) exhausted: %w"
                            [AInt (MaxRetries cfg); AErr err]) err), [], 1)
            else
              let w := backoff (RetryInterval cfg) attempt in
              match cancel attempt with
              | Some ctxErr => (Err ctxErr, [w], 1)
              | None =>
                  let '(r, ws, n) := do_loop fuel' (attempt + 1) in (r, w :: ws, n + 1)
              end
        end
      else (Err (Errorf (Sprintf "retry loop exited unexpectedly" [])), [], 0)
  end.

Definition Do : result A * list Z * Z := do_loop (Z.to_nat (MaxRetries cfg + 1)) 0.

(** A call that [Do] retries: a transient failure whose wait is not interrupted. *)
Definition retried (k : Z) : Prop :=
  exists e, fn k = Err e /\ IsTransient (Some e) = true /\ cancel k = None.

(** How the loop can end at attempt [k]: the outcome and the waits begun at [k]. *)
Inductive finishes (k : Z) : result A -> list Z -> Prop :=
  | fin_ok r : fn k = Ok r -> finishes k (Ok r) []
  | fin_business e : fn k = Err e -> IsTransient (Some e) = false -> finishes k (Err e) []
  | fin_exhausted e :
      k = MaxRetries cfg -> fn k = Err e -> IsTransient (Some e) = true ->
      finishes k
        (Err (Wrap (Sprintf "max retries (%d) exhausted: %w"
                      [AInt (MaxRetries cfg); AErr e]) e)) []
  | fin_cancelled e c :
      k < MaxRetries cfg -> fn k = Err e -> IsTransient (Some e) = true ->
      cancel k = Some c -> finishes k (Err c) [backoff (RetryInterval cfg) k].

(** The waits of the first [m] attempts. *)
Definition waits (m : Z) : list Z := map (backoff (RetryInterval cfg)) (seqZ 0 m).

Lemma do_loop_retry fuel k :
  k < MaxRetries cfg -> retried k ->
  do_loop (S fuel) k =
    let '(r, ws, n) := do_loop fuel (k + 1) in (r, backoff (RetryInterval cfg) k :: ws, n + 1).
Proof.
  intros Hk (e & He & Ht & Hc). cbn [do_loop]. unfold IsBusiness.
  rewrite (proj2 (Z.leb_le k (MaxRetries cfg))), He, Ht, Hc by lia. simpl.
  by rewrite (proj2 (Z.eqb_neq k (MaxRetries cfg))) by lia.
Qed.

Lemma do_loop_finishes fuel k r extra :
  k <= MaxRetries cfg -> finishes k r extra -> do_loop (S fuel) k = (r, extra, 1).
Proof.
  intros Hk Hf. cbn [do_loop]. unfold IsBusiness.
  rewrite (proj2 (Z.leb_le k (MaxRetries cfg))) by lia.
  destruct Hf as [r Hr|e He Ht|e Hm He Ht|e c Hm He Ht Hc].
  - by rewrite Hr.
  - by rewrite He, Ht.
  - rewrite He, Ht, Hm. simpl. by rewrite Z.eqb_refl.
  - rewrite He, Ht, Hc. simpl. by rewrite (proj2 (Z.eqb_neq k (MaxRetries cfg))) by lia.
Qed.

(** An attempt is retried or ends the loop. *)
Lemma attempt_cases k :
  k <= MaxRetries cfg ->
  (k < MaxRetries cfg /\ retried k) \/ exists r extra, finishes k r extra.
Proof.
  intros Hk. destruct (fn k) as [r|e] eqn:Hf; [right; eauto using finishes|].
  destruct (IsTransient (Some e)) eqn:Ht; [|right; eauto using finishes].
  destruct (decide (k = MaxRetries cfg)); [right; eauto using finishes|].
  assert (k < MaxRetries cfg) by lia.
  destruct (cancel k) eqn:Hc; [right; eauto using finishes|]. left. split; [done|by exists e].
Qed.

Lemma do_loop_spec fuel k :
  k <= MaxRetries cfg -> Z.of_nat fuel = MaxRetries cfg + 1 - k ->
  exists m r extra, k <= m <= MaxRetries cfg
    /\ (forall j, k <= j < m -> retried j) /\ finishes m r extra
    /\ do_loop fuel k =
         (r, map (backoff (RetryInterval cfg)) (seqZ k (m - k)) ++ extra, m - k + 1).
Proof.
  revert k. induction fuel as [|fuel IH]; intros k Hk Hfuel; [lia|].
  destruct (attempt_cases k Hk) as [[Hlt Hr]|(r & extra & Hf)].
  - destruct (IH (k + 1)) as (m & r & extra & Hm & Hall & Hf & Hd); [lia|lia|].
    exists m, r, extra. split; [lia|]. split; [|split; [done|]].
    { intros j Hj. destruct (decide (j = k)) as [->|]; [done|apply Hall; lia]. }
    rewrite do_loop_retry, Hd by done. rewrite (seqZ_cons k (m - k)) by lia.
    replace (Z.pred (m - k)) with (m - (k + 1)) by lia. simpl. f_equal. lia.
  - exists k, r, extra. split; [lia|]. split; [lia|]. split; [done|].
    by rewrite (do_loop_finishes _ _ r extra), Z.sub_diag by done.
Qed.

(** C39: the behaviour of [Do] on every path, and its termination.  With a non-negative
    [MaxRetries] there is an attempt [m <= MaxRetries] such that every attempt before it
    failed with a transient error and was waited for, and [m] ends the loop: by [fn]'s
    value, by a business error returned at once, by the wrapped last error when the
    attempts are exhausted, or by the context's error when the wait is interrupted.  [fn] is
    called [m + 1] times and the waits are [backoff 0, ..., backoff (m-1)] and the
    interrupted one; the loop never falls through to "exited unexpectedly". *)
Theorem Do_spec :
  0 <= MaxRetries cfg ->
  exists m r extra, 0 <= m <= MaxRetries cfg
    /\ (forall j, 0 <= j < m -> retried j) /\ finishes m r extra
    /\ Do = (r, waits m ++ extra, m + 1).
Proof.
  intros Hm. destruct (do_loop_spec (Z.to_nat (MaxRetries cfg + 1)) 0)
    as (m & r & extra & ? & ? & ? & Hd); [lia|lia|].
  exists m, r, extra. rewrite Z.sub_0_r in Hd. auto.
Qed.

End Do.

(** the wait before retry [k+1] is [interval * 2^k] as long as that fits a
    [time.Duration]. *)
Theorem backoff_doubles interval k :
  0 <= interval -> 0 <= k < 63 -> interval * 2 ^ k <= max_int64 ->
  backoff interval k = interval * 2 ^ k.
Proof.
  intros Hi Hk Hm. unfold backoff. rewrite Z.shiftl_mul_pow2, Z.mul_1_l by lia.
  assert (2 ^ k <= 2 ^ 62) by (apply Z.pow_le_mono_r; lia).
  assert (0 < 2 ^ k) by (apply Z.pow_pos_nonneg; lia).
  rewrite (wrap64_id (2 ^ k)) by (unfold in_int64, min_int64, max_int64; lia).
  apply wrap64_id. unfold in_int64, min_int64 in *. nia.
Qed.

(** ** Witnesses *)

Lemma Do_spec_witness :
  Do demo_fn (fun _ => None) demo_cfg = (Ok 7, [100 * millisecond; 200 * millisecond], 3)
  /\ exists m r extra, 0 <= m <= 3
    /\ (forall j, 0 <= j < m -> retried demo_fn (fun _ => None) j)
    /\ finishes demo_fn (fun _ => None) demo_cfg m r extra
    /\ Do demo_fn (fun _ => None) demo_cfg = (r, waits demo_cfg m ++ extra, m + 1).
Proof.
  split; [reflexivity|].
  apply (Do_spec demo_fn (fun _ => None) demo_cfg). vm_compute. discriminate.
Defined.

Lemma backoff_doubles_witness : backoff second 4 = 16 * second.
Proof. apply (backoff_doubles second 4); vm_compute; intuition discriminate. Defined.
