(* ===== verification/DataSource.v ===== *)
(** * internal/datasource/interface.go

    The request and result types every adapter exchanges with the resolvers, and the
    configuration an adapter is built from.  Option maps are association lists in this
    run's iteration order. *)
From S2P Require Import Prelude GoStrings Values.

(** [FilterOperator] is an [int]; [FilterOpOther] is a value outside the constants. *)
Inductive FilterOperator :=
  | FilterOpEQ | FilterOpNEQ | FilterOpGT | FilterOpGTE | FilterOpLT | FilterOpLTE
  | FilterOpLIKE | FilterOpIN | FilterOpNOT_IN | FilterOpIS_NULL | FilterOpIS_NOT_NULL
  | FilterOpOther (n : Z).
#[export] Instance FilterOperator_eq_dec : EqDecision FilterOperator.
Proof. solve_decision. Defined.

Inductive SortDirection := SortASC | SortDESC | SortOther (n : Z).

Record FilterCondition := { Field : string; Operator : FilterOperator; Value : GoVal }.
Record OrderByClause := { OrderField : string; Direction : SortDirection }.
Record PaginationParams := {
  First : option Z;
  After : option string;
  Offset : option Z;
  Limit : option Z;
}.
Record QueryRequest := {
  Fields : list string;
  Filters : list FilterCondition;
  OrderBy : list OrderByClause;
  Pagination : option PaginationParams;
  NeedCount : bool;
  ReqOptions : option (list (string * GoVal));
}.
Record QueryResult := {
  Data : list (list (string * GoVal));
  TotalCount : option Z;
  Warnings : list string;
}.
Record DataSourceConfig := {
  DsName : string;
  DsType : string;
  Enabled : bool;
  Connection : list (string * GoVal);
  DsOptions : list (string * GoVal);
}.
