(* ===== verification/Mock.v ===== *)
(** * internal/adapter/mock: the data source of the development mode

    adapter.go, data.go and factory.go.  Rows are what the tables hold, and an unknown table
    answers nothing. *)
From S2P Require Import Prelude GoStrings Values GoConv DataSource.

Definition table_rows : Type := list (list (string * GoVal)).
Record Adapter := { name : string; tables : gmap string table_rows }.
Definition NewAdapter (name : string) (tables : gmap string table_rows) : Adapter := {| name := name; tables := tables |}.

Definition table_name (query : QueryRequest) : string :=
  match ReqOptions query with
  | Some opts => match assoc "table" opts with Some (VString s) => s | _ => EmptyString end
  | None => EmptyString
  end.
Definition apply_offset (offset : Z) (data : table_rows) : option table_rows :=
  let offset := if offset <? 0 then 0 else offset in
  if Z.of_nat (length data) <=? offset then Some [] else slice_from offset data.
(** A nil slice is the empty one: both answer no rows. *)
Definition apply_limit (limit : Z) (data : table_rows) : option table_rows :=
  let limit := if limit <? 0 then 0 else limit in
  if limit <? Z.of_nat (length data) then slice_to limit data else Some data.
Definition paginate (p : PaginationParams) (data : table_rows) : option table_rows :=
  data ← match Offset p with Some o => apply_offset o data | None => Some data end;
  match Limit p with Some l => apply_limit l data | None => Some data end.
Definition Execute (a : Adapter) (query : QueryRequest) : option QueryResult :=
  match tables a !! table_name query with
  | None => Some {| Data := []; TotalCount := None; Warnings := [] |}
  | Some data =>
      rows ← match Pagination query with Some p => paginate p data | None => Some data end;
      Some {| Data := rows; TotalCount := if NeedCount query then Some (Z.of_nat (length data)) else None;
              Warnings := [] |}
  end.

(** data.go: the sample tables.  A decimal literal is the nearest binary64 number, which the
    division of two exact ones rounds to. *)
Definition decimal (n d : Z) : GoVal := VFloat64 (float_div (float_of_int n) (float_of_int d)).
Definition defaultTables : gmap string table_rows :=
  {["demo_users" := [
       [("id", VInt 1); ("name", VString "Alice Chen"); ("email", VString "alice@example.com"); ("role", VString "admin"); ("created_at", VString "2024-01-10 09:00:00")];
       [("id", VInt 2); ("name", VString "Bob Zhang"); ("email", VString "bob@example.com"); ("role", VString "developer"); ("created_at", VString "2024-01-12 14:30:00")];
       [("id", VInt 3); ("name", VString "Carol Wang"); ("email", VString "carol@example.com"); ("role", VString "analyst"); ("created_at", VString "2024-02-01 11:15:00")];
       [("id", VInt 4); ("name", VString "David Li"); ("email", VString "david@example.com"); ("role", VString "developer"); ("created_at", VString "2024-02-15 08:45:00")];
       [("id", VInt 5); ("name", VString "Eva Liu"); ("email", VString "eva@example.com"); ("role", VString "viewer"); ("created_at", VString "2024-03-01 16:20:00")]];
    "demo_orders" := [
       [("id", VInt 1001); ("user_id", VInt 1); ("amount", decimal 29999 100); ("status", VString "completed"); ("created_at", VString "2024-03-01 10:00:00")];
       [("id", VInt 1002); ("user_id", VInt 2); ("amount", decimal 14950 100); ("status", VString "completed"); ("created_at", VString "2024-03-02 11:30:00")];
       [("id", VInt 1003); ("user_id", VInt 1); ("amount", decimal 8900 100); ("status", VString "shipped"); ("created_at", VString "2024-03-03 09:15:00")];
       [("id", VInt 1004); ("user_id", VInt 3); ("amount", decimal 45000 100); ("status", VString "pending"); ("created_at", VString "2024-03-04 14:00:00")];
       [("id", VInt 1005); ("user_id", VInt 4); ("amount", decimal 3299 100); ("status", VString "completed"); ("created_at", VString "2024-03-05 16:45:00")];
       [("id", VInt 1006); ("user_id", VInt 2); ("amount", decimal 19900 100); ("status", VString "cancelled"); ("created_at", VString "2024-03-06 08:30:00")];
       [("id", VInt 1007); ("user_id", VInt 5); ("amount", decimal 7550 100); ("status", VString "shipped"); ("created_at", VString "2024-03-07 12:00:00")];
       [("id", VInt 1008); ("user_id", VInt 3); ("amount", decimal 52000 100); ("status", VString "completed"); ("created_at", VString "2024-03-08 10:20:00")];
       [("id", VInt 1009); ("user_id", VInt 1); ("amount", decimal 1599 100); ("status", VString "pending"); ("created_at", VString "2024-03-09 17:10:00")];
       [("id", VInt 1010); ("user_id", VInt 4); ("amount", decimal 68000 100); ("status", VString "completed"); ("created_at", VString "2024-03-10 09:00:00")]];
    "demo_metrics" := [
       [("timestamp", VString "2024-03-10 00:00:00"); ("cpu_usage", decimal 235 10); ("memory_usage", decimal 452 10); ("request_count", VInt 120)];
       [("timestamp", VString "2024-03-10 01:00:00"); ("cpu_usage", decimal 182 10); ("memory_usage", decimal 448 10); ("request_count", VInt 85)];
       [("timestamp", VString "2024-03-10 02:00:00"); ("cpu_usage", decimal 121 10); ("memory_usage", decimal 435 10); ("request_count", VInt 42)];
       [("timestamp", VString "2024-03-10 03:00:00"); ("cpu_usage", decimal 108 10); ("memory_usage", decimal 431 10); ("request_count", VInt 28)];
       [("timestamp", VString "2024-03-10 04:00:00"); ("cpu_usage", decimal 115 10); ("memory_usage", decimal 433 10); ("request_count", VInt 35)];
       [("timestamp", VString "2024-03-10 05:00:00"); ("cpu_usage", decimal 153 10); ("memory_usage", decimal 440 10); ("request_count", VInt 67)];
       [("timestamp", VString "2024-03-10 06:00:00"); ("cpu_usage", decimal 287 10); ("memory_usage", decimal 465 10); ("request_count", VInt 198)];
       [("timestamp", VString "2024-03-10 07:00:00"); ("cpu_usage", decimal 452 10); ("memory_usage", decimal 523 10); ("request_count", VInt 456)];
       [("timestamp", VString "2024-03-10 08:00:00"); ("cpu_usage", decimal 628 10); ("memory_usage", decimal 581 10); ("request_count", VInt 723)];
       [("timestamp", VString "2024-03-10 09:00:00"); ("cpu_usage", decimal 784 10); ("memory_usage", decimal 647 10); ("request_count", VInt 891)];
       [("timestamp", VString "2024-03-10 10:00:00"); ("cpu_usage", decimal 821 10); ("memory_usage", decimal 673 10); ("request_count", VInt 1024)];
       [("timestamp", VString "2024-03-10 11:00:00"); ("cpu_usage", decimal 796 10); ("memory_usage", decimal 668 10); ("request_count", VInt 978)];
       [("timestamp", VString "2024-03-10 12:00:00"); ("cpu_usage", decimal 713 10); ("memory_usage", decimal 624 10); ("request_count", VInt 856)];
       [("timestamp", VString "2024-03-10 13:00:00"); ("cpu_usage", decimal 689 10); ("memory_usage", decimal 610 10); ("request_count", VInt 812)];
       [("timestamp", VString "2024-03-10 14:00:00"); ("cpu_usage", decimal 752 10); ("memory_usage", decimal 635 10); ("request_count", VInt 934)];
       [("timestamp", VString "2024-03-10 15:00:00"); ("cpu_usage", decimal 738 10); ("memory_usage", decimal 629 10); ("request_count", VInt 901)];
       [("timestamp", VString "2024-03-10 16:00:00"); ("cpu_usage", decimal 654 10); ("memory_usage", decimal 592 10); ("request_count", VInt 756)];
       [("timestamp", VString "2024-03-10 17:00:00"); ("cpu_usage", decimal 521 10); ("memory_usage", decimal 546 10); ("request_count", VInt 589)];
       [("timestamp", VString "2024-03-10 18:00:00"); ("cpu_usage", decimal 387 10); ("memory_usage", decimal 498 10); ("request_count", VInt 342)];
       [("timestamp", VString "2024-03-10 19:00:00"); ("cpu_usage", decimal 293 10); ("memory_usage", decimal 471 10); ("request_count", VInt 215)]]]}.

(** factory.go; the configuration is not read. *)
Definition Factory (name : string) (_ : DataSourceConfig) : Adapter := {| name := name; tables := defaultTables |}.

Example sample_sizes : (fun t => length <$> defaultTables !! t) <$> ["demo_users"; "demo_orders"; "demo_metrics"; "users"]
  = [Some 5%nat; Some 10%nat; Some 20%nat; None].
Proof. vm_compute. reflexivity. Qed.

(** ** Theorems *)

Definition clamp0 (o : option Z) : nat := Z.to_nat (default 0 o).
(** The rows of one page: offset and limit, negative ones read as 0. *)
Definition page (p : option PaginationParams) (data : table_rows) : table_rows :=
  match p with
  | None => data
  | Some p =>
      let data := drop (clamp0 (Offset p)) data in
      match Limit p with Some l => take (Z.to_nat l) data | None => data end
  end.
Lemma apply_offset_spec o data : apply_offset o data = Some (drop (Z.to_nat o) data).
Proof.
  unfold apply_offset. destruct (Z.ltb_spec o 0) as [Ho|Ho].
  - replace (Z.to_nat o) with O by lia. destruct (Z.leb_spec (Z.of_nat (length data)) 0); [destruct data; [done|simpl in *; lia]|].
    by rewrite slice_from_ok by lia.
  - destruct (Z.leb_spec (Z.of_nat (length data)) o); [by rewrite skipn_all2 by lia|].
    by rewrite slice_from_ok by lia.
Qed.
Lemma apply_limit_spec l data : apply_limit l data = Some (take (Z.to_nat l) data).
Proof.
  unfold apply_limit. destruct (Z.ltb_spec l 0) as [Hl|Hl].
  - replace (Z.to_nat l) with O by lia. destruct (Z.ltb_spec 0 (Z.of_nat (length data))); [|destruct data; [done|simpl in *; lia]].
    by rewrite slice_to_ok by lia.
  - destruct (Z.ltb_spec l (Z.of_nat (length data))); [by rewrite slice_to_ok by lia|].
    by rewrite firstn_all2 by lia.
Qed.

Lemma paginate_page p data : paginate p data = Some (page (Some p) data).
Proof.
  unfold paginate, page, clamp0. destruct (Offset p) as [o|]; [rewrite apply_offset_spec|]; cbn [mbind option_bind default id];
    (destruct (Limit p) as [l|]; [apply apply_limit_spec|done]).
Qed.
(** It never panics. *)
Lemma Execute_total a q : is_Some (Execute a q).
Proof.
  unfold Execute. destruct (tables a !! table_name q) as [data|]; [|done].
  destruct (Pagination q) as [p|]; [rewrite paginate_page|]; done.
Qed.

(** the mock source answers one page of its table.  It never panics, whatever the offset and
    the limit are, counts the whole table, and looks at nothing else of the query: filters,
    ordering, the field list and [first] have no effect. *)
Theorem mock_answers_page a q : exists r,
  Execute a q = Some r
  /\ Data r = page (Pagination q) (default [] (tables a !! table_name q))
  /\ (NeedCount q = true -> forall rows, tables a !! table_name q = Some rows -> TotalCount r = Some (Z.of_nat (length rows))).
Proof.
  unfold Execute. destruct (tables a !! table_name q) as [data|]; cbn [default id].
  - destruct (Pagination q) as [p|]; [rewrite paginate_page|]; (eexists; split; [done|]; split; [done|]; by intros -> rows [= ->]).
  - eexists. split; [done|]. split; [|done]. destruct (Pagination q) as [p|]; [|done]. unfold page. destruct (Limit p); by rewrite drop_nil, ?take_nil.
Qed.
