(* ===== verification/SqlCore.v ===== *)
(** * The SQL query builders of internal/adapter/starrocks and internal/adapter/clickhouse

    The two packages hold the same builder text with three differences, which the class
    [Dialect] names: the identifier expression, the bound on the length of an IN list and
    what is done to LIMIT and OFFSET before they are printed.  The operations below are the
    methods of [SQLQueryBuilder] and their helpers; [StarRocks] and [ClickHouse] instantiate
    them.  [DialectLaws] is all a client theorem needs of a dialect. *)
From S2P Require Import Prelude GoStrings Values DataSource.

Class Dialect := {
  identifierRe : string -> bool;
  inLimit : option Z;
  clampLimit : Z -> Z;
  clampOffset : Z -> Z;
}.

(** A dialect's identifiers are made of letters, digits and underscores. *)
Class DialectLaws (D : Dialect) := {
  identifierRe_safe s : identifierRe s = true -> str_forallb ident_char s = true;
}.

(** [map[string]map[string]bool]. *)
Abbreviation Whitelist := (gmap string (gmap string bool)).
(** [allowedCols[f]]. *)
Definition col_allowed (cols : gmap string bool) (f : string) : bool :=
  default false (cols !! f).

Definition quoteIdentifier (name : string) : string := "`" +:+ name +:+ "`".

Definition decodeCursor (cursor : string) : Z :=
  match sscanf_d cursor with
  | Some offset => if offset <? 0 then -1 else offset
  | None => -1
  end.

Section Builder.
Context {D : Dialect}.

Definition ValidateIdentifier (name : string) : result unit :=
  if String.eqb name EmptyString then
    Err (ValidationError ErrValidationInvalidField (Sprintf "identifier must not be empty" []))
  else if identifierRe name then Ok tt
  else Err (ValidationError ErrValidationInvalidField
              (Sprintf "identifier %q contains invalid characters" [AStr name])).

Definition validateTable (allowedTables : Whitelist) (table : string) : result unit :=
  _ ← ValidateIdentifier table;
  match allowedTables !! table with
  | Some _ => Ok tt
  | None => Err (ValidationError ErrValidationInvalidTable
                   (Sprintf "table %q is not in the allowed whitelist" [AStr table]))
  end.

(** The check every referenced column goes through; [what] is the message's format. *)
Definition check_col (allowedCols : gmap string bool) (what : string) (f : string) : result unit :=
  _ ← ValidateIdentifier f;
  guard_err (negb (col_allowed allowedCols f))
    (ValidationError ErrValidationInvalidField (Sprintf what [AStr f])).

Definition buildSelectClause (fields : list string) (allowedCols : gmap string bool)
    : result string :=
  match fields with
  | [] => Ok "*"
  | _ =>
      parts ← mapR (fun f =>
        _ ← check_col allowedCols "field %q is not in the allowed columns" f;
        Ok (quoteIdentifier f)) fields;
      Ok (join ", " parts)
  end.

Definition buildINClause (col : string) (value : GoVal) (negate : bool)
    : result (string * list GoVal) :=
  match value with
  | VSlice values =>
      _ ← guard_err (Z.of_nat (length values) =? 0)
            (ValidationError ErrValidationInvalidField
               (Sprintf "IN/NOT IN operator requires at least one value" []));
      _ ← guard_err (match inLimit with
                     | Some m => m <? Z.of_nat (length values)
                     | None => false
                     end)
            (ValidationError ErrValidationInvalidField
               (Sprintf "IN/NOT IN operator supports at most %d values, got %d"
                  [AInt (default 0 inLimit); AInt (Z.of_nat (length values))]));
      let op := if negate then "NOT IN" else "IN" in
      Ok (col +:+ " " +:+ op +:+ " (" +:+ join ", " (map (fun _ => "?") values) +:+ ")", values)
  | _ => Err (ValidationError ErrValidationInvalidField
                (Sprintf "IN/NOT IN operator requires a slice value" []))
  end.

(** One iteration of the loop of [buildWhereClause]: the clause and its parameters. *)
Definition where_one (allowedCols : gmap string bool) (f : FilterCondition)
    : result (string * list GoVal) :=
  _ ← check_col allowedCols "filter field %q is not in the allowed columns" (Field f);
  let col := quoteIdentifier (Field f) in
  match Operator f with
  | FilterOpEQ => Ok (col +:+ " = ?", [Value f])
  | FilterOpNEQ => Ok (col +:+ " != ?", [Value f])
  | FilterOpGT => Ok (col +:+ " > ?", [Value f])
  | FilterOpGTE => Ok (col +:+ " >= ?", [Value f])
  | FilterOpLT => Ok (col +:+ " < ?", [Value f])
  | FilterOpLTE => Ok (col +:+ " <= ?", [Value f])
  | FilterOpLIKE => Ok (col +:+ " LIKE ?", [Value f])
  | FilterOpIN => buildINClause col (Value f) false
  | FilterOpNOT_IN => buildINClause col (Value f) true
  | FilterOpIS_NULL => Ok (col +:+ " IS NULL", [])
  | FilterOpIS_NOT_NULL => Ok (col +:+ " IS NOT NULL", [])
  | FilterOpOther n => Err (ValidationError ErrValidationInvalidField
                              (Sprintf "unsupported filter operator %d" [AInt n]))
  end.

Definition buildWhereClause (filters : list FilterCondition) (allowedCols : gmap string bool)
    : result (string * list GoVal) :=
  match filters with
  | [] => Ok (EmptyString, [])
  | _ =>
      cps ← mapR (where_one allowedCols) filters;
      Ok (join " AND " cps.*1, concat cps.*2)
  end.

Definition buildOrderByClause (orderBy : list OrderByClause) (allowedCols : gmap string bool)
    : result string :=
  match orderBy with
  | [] => Ok EmptyString
  | _ =>
      parts ← mapR (fun o =>
        _ ← check_col allowedCols "order by field %q is not in the allowed columns" (OrderField o);
        let dir := match Direction o with SortDESC => "DESC" | _ => "ASC" end in
        Ok (quoteIdentifier (OrderField o) +:+ " " +:+ dir)) orderBy;
      Ok (join ", " parts)
  end.

(** The two selections [buildLimitClause] starts with. *)
Definition effective_limit (p : PaginationParams) : option Z :=
  match First p with Some n => Some n | None => Limit p end.
Definition effective_offset (p : PaginationParams) : option Z :=
  match After p with
  | Some c => let decoded := decodeCursor c in if 0 <=? decoded then Some decoded else None
  | None => Offset p
  end.

Definition buildLimitClause (p : option PaginationParams) : string :=
  match p with
  | None => EmptyString
  | Some p =>
      join " "
        (match effective_limit p with
         | Some v => ["LIMIT " +:+ itoa (clampLimit v)] | None => [] end
         ++ match effective_offset p with
            | Some v => ["OFFSET " +:+ itoa (clampOffset v)] | None => [] end)
  end.

(** [if clause != "" { sb.WriteString(prefix); sb.WriteString(clause) }]. *)
Definition opt_clause (prefix clause : string) : string :=
  if String.eqb clause EmptyString then EmptyString else prefix +:+ clause.

Definition Build (allowedTables : Whitelist) (req : QueryRequest) (table : string)
    : result (string * list GoVal) :=
  _ ← validateTable allowedTables table;
  let allowedCols := default ∅ (allowedTables !! table) in
  selectClause ← buildSelectClause (Fields req) allowedCols;
  wp ← buildWhereClause (Filters req) allowedCols;
  orderByClause ← buildOrderByClause (OrderBy req) allowedCols;
  let limitClause := buildLimitClause (Pagination req) in
  Ok ("SELECT " +:+ selectClause +:+ " FROM " +:+ quoteIdentifier table
        +:+ opt_clause " WHERE " wp.1
        +:+ opt_clause " ORDER BY " orderByClause
        +:+ opt_clause " " limitClause, wp.2).

Definition BuildCount (allowedTables : Whitelist) (req : QueryRequest) (table : string)
    : result (string * list GoVal) :=
  _ ← validateTable allowedTables table;
  let allowedCols := default ∅ (allowedTables !! table) in
  wp ← buildWhereClause (Filters req) allowedCols;
  Ok ("SELECT COUNT(*) FROM " +:+ quoteIdentifier table +:+ opt_clause " WHERE " wp.1, wp.2).

(** ** Vocabulary of the theorems *)

(** A request with every filter value forgotten; of an IN list the length is kept. *)
Definition erase_value (op : FilterOperator) (v : GoVal) : GoVal :=
  match op, v with
  | (FilterOpIN | FilterOpNOT_IN), VSlice l => VSlice (map (fun _ => VNil) l)
  | _, _ => VNil
  end.
Definition erase_filter (f : FilterCondition) : FilterCondition :=
  {| Field := Field f; Operator := Operator f; Value := erase_value (Operator f) (Value f) |}.
Definition erase (r : QueryRequest) : QueryRequest :=
  {| Fields := Fields r; Filters := map erase_filter (Filters r); OrderBy := OrderBy r;
     Pagination := Pagination r; NeedCount := NeedCount r; ReqOptions := ReqOptions r |}.

(** The values a filter hands to the driver. *)
Definition filter_params (f : FilterCondition) : list GoVal :=
  match Operator f, Value f with
  | (FilterOpIN | FilterOpNOT_IN), VSlice l => l
  | (FilterOpIN | FilterOpNOT_IN), _ => []
  | (FilterOpIS_NULL | FilterOpIS_NOT_NULL | FilterOpOther _), _ => []
  | _, v => [v]
  end.

Definition ident_ok (cols : gmap string bool) (f : string) : Prop :=
  f <> EmptyString /\ identifierRe f = true /\ col_allowed cols f = true.
Definition in_len_ok (n : nat) : Prop :=
  (0 < n)%nat /\ match inLimit with Some m => Z.of_nat n <= m | None => True end.
Definition filter_ok (cols : gmap string bool) (f : FilterCondition) : Prop :=
  ident_ok cols (Field f) /\
  match Operator f with
  | FilterOpIN | FilterOpNOT_IN => exists l, Value f = VSlice l /\ in_len_ok (length l)
  | FilterOpOther _ => False
  | _ => True
  end.
(** What [Build] accepts. *)
Definition admissible (wl : Whitelist) (r : QueryRequest) (table : string) : Prop :=
  table <> EmptyString /\ identifierRe table = true /\
  exists cols, wl !! table = Some cols /\
    Forall (ident_ok cols) (Fields r) /\ Forall (filter_ok cols) (Filters r) /\
    Forall (fun o => ident_ok cols (OrderField o)) (OrderBy r).

(** One ORDER BY item. *)
Definition order_text (o : OrderByClause) : string :=
  quoteIdentifier (OrderField o) +:+ " " +:+
  match Direction o with SortDESC => "DESC" | _ => "ASC" end.

(** The bytes a generated statement is made of. *)
Definition sql_byte (c : ascii) : bool :=
  ident_char c || Ascii.eqb c BACKTICK || Ascii.eqb c " "%char || Ascii.eqb c ","%char
  || Ascii.eqb c "("%char || Ascii.eqb c ")"%char || Ascii.eqb c "?"%char
  || Ascii.eqb c "="%char || Ascii.eqb c "!"%char || Ascii.eqb c "<"%char
  || Ascii.eqb c ">"%char || Ascii.eqb c "*"%char || Ascii.eqb c "-"%char.

(** ** Lemmas *)

Lemma ValidateIdentifier_Ok s :
  ValidateIdentifier s = Ok tt <-> s <> EmptyString /\ identifierRe s = true.
Proof.
  unfold ValidateIdentifier. destruct (String.eqb_spec s EmptyString); [naive_solver|].
  destruct (identifierRe s); naive_solver.
Qed.

Lemma check_col_Ok cols w s : check_col cols w s = Ok tt <-> ident_ok cols s.
Proof.
  unfold check_col, ident_ok. rewrite bind_Ok. split.
  - intros ([] & Hv%ValidateIdentifier_Ok & Hg%guard_err_Ok).
    apply negb_false_iff in Hg. naive_solver.
  - intros (Hs & Hi & Hc). exists tt. split; [by apply ValidateIdentifier_Ok|].
    by rewrite Hc.
Qed.

Lemma validateTable_Ok wl t :
  validateTable wl t = Ok tt <->
  t <> EmptyString /\ identifierRe t = true /\ exists cols, wl !! t = Some cols.
Proof.
  unfold validateTable. rewrite bind_Ok. split.
  - intros ([] & Hv%ValidateIdentifier_Ok & Hm). destruct (wl !! t); naive_solver.
  - intros (H1 & H2 & cols & Hc). exists tt. split; [by apply ValidateIdentifier_Ok|].
    by rewrite Hc.
Qed.

(** ** What the builders accept *)

Lemma in_clause_Ok col v n cp :
  buildINClause col v n = Ok cp <->
  exists l, v = VSlice l /\ in_len_ok (length l) /\
    cp = (col +:+ " " +:+ (if n then "NOT IN" else "IN") +:+ " ("
            +:+ join ", " (map (fun _ => "?") l) +:+ ")", l).
Proof.
  unfold buildINClause, in_len_ok. destruct v; try (split; [done|by intros (? & ? & _)]).
  rewrite bind_Ok. setoid_rewrite bind_Ok. split.
  - intros ([] & H1%guard_err_Ok & [] & H2%guard_err_Ok & [= <-]).
    exists l. split; [done|]. split; [|done]. destruct inLimit; lia.
  - intros (l' & [= <-] & [H1 H2] & ->). exists tt. rewrite guard_err_Ok.
    split; [lia|]. exists tt. rewrite guard_err_Ok. split; [|done]. destruct inLimit; lia.
Qed.

Lemma where_one_params cols f cp :
  where_one cols f = Ok cp -> filter_ok cols f /\ cp.2 = filter_params f.
Proof.
  unfold where_one, filter_ok, filter_params.
  intros ([] & Hc%check_col_Ok & Hm)%bind_Ok.
  destruct (Operator f); simplify_eq/=; try by split; [split|].
  all: apply in_clause_Ok in Hm as (l & -> & Hl & ->); split; eauto.
Qed.

Lemma where_one_total cols f : (exists cp, where_one cols f = Ok cp) <-> filter_ok cols f.
Proof.
  split; [intros [cp H]; by eapply where_one_params|].
  intros [Hc Hop]. unfold where_one. rewrite (proj2 (check_col_Ok _ _ _) Hc). simpl.
  destruct (Operator f); eauto; try done.
  all: destruct Hop as (l & -> & Hl); eexists; apply in_clause_Ok; eauto.
Qed.

Lemma buildWhereClause_Ok fs cols cp :
  buildWhereClause fs cols = Ok cp <->
  exists cps, mapR (where_one cols) fs = Ok cps /\ cp = (join " AND " cps.*1, concat cps.*2).
Proof.
  destruct fs as [|f fs]; simpl.
  - split; [intros [= <-]; by exists []|]. by intros (cps & [= <-] & ->).
  - rewrite bind_Ok. naive_solver.
Qed.

Lemma buildSelectClause_Ok fs cols s :
  buildSelectClause fs cols = Ok s <->
  Forall (ident_ok cols) fs /\ s = match fs with [] => "*" | _ => join ", " (map quoteIdentifier fs) end.
Proof.
  unfold buildSelectClause. destruct fs as [|f fs]; [naive_solver|].
  rewrite bind_Ok. setoid_rewrite (mapR_guarded _ _ (ident_ok cols)); [|by apply check_col_Ok].
  naive_solver.
Qed.

Lemma buildOrderByClause_Ok os cols s :
  buildOrderByClause os cols = Ok s <->
  Forall (fun o => ident_ok cols (OrderField o)) os /\ s = join ", " (map order_text os).
Proof.
  unfold buildOrderByClause. destruct os as [|o os]; [naive_solver|]. cbv zeta.
  rewrite bind_Ok. fold (order_text).
  setoid_rewrite (mapR_guarded _ order_text (fun o => ident_ok cols (OrderField o)));
    [|intros; by apply check_col_Ok].
  naive_solver.
Qed.

(** The result of a successful [Build], part by part. *)
Lemma Build_Ok wl r t x :
  Build wl r t = Ok x <->
  validateTable wl t = Ok tt /\ exists cols sel wp ord, wl !! t = Some cols
    /\ buildSelectClause (Fields r) cols = Ok sel /\ buildWhereClause (Filters r) cols = Ok wp
    /\ buildOrderByClause (OrderBy r) cols = Ok ord
    /\ x = ("SELECT " +:+ sel +:+ " FROM " +:+ quoteIdentifier t
              +:+ opt_clause " WHERE " wp.1 +:+ opt_clause " ORDER BY " ord
              +:+ opt_clause " " (buildLimitClause (Pagination r)), wp.2).
Proof.
  unfold Build. split.
  - intros ([] & Ht & (sel & Hs & (wp & Hw & (ord & Ho & [= <-])%bind_Ok)%bind_Ok)%bind_Ok)%bind_Ok.
    split; [done|].
    apply validateTable_Ok in Ht as (_ & _ & cols & Hc). rewrite Hc in *. by exists cols, sel, wp, ord.
  - intros (Ht & cols & sel & wp & ord & Hc & Hs & Hw & Ho & ->). rewrite Ht, Hc. simpl.
    by rewrite Hs, Hw, Ho.
Qed.

Lemma Build_admissible wl r t : (exists x, Build wl r t = Ok x) <-> admissible wl r t.
Proof.
  setoid_rewrite Build_Ok. unfold admissible. split.
  - intros (x & (H1 & H2 & _)%validateTable_Ok & cols & sel & wp & ord & Hc & [Hs _]%buildSelectClause_Ok
      & (cps & Hw & _)%buildWhereClause_Ok & [Ho _]%buildOrderByClause_Ok & _).
    split; [done|]. split; [done|]. exists cols. split; [done|]. split; [done|]. split; [|done].
    eapply Forall_impl; [apply (mapR_total (where_one cols)); eauto|].
    intros a. apply where_one_total.
  - intros (H1 & H2 & cols & Hc & Hs & Hw & Ho).
    destruct (proj2 (mapR_total (where_one cols) (Filters r))) as [cps Hcps].
    { eapply Forall_impl; [exact Hw|]. intros a. apply where_one_total. }
    eexists. split; [by apply validateTable_Ok; eauto|]. exists cols. do 3 eexists. split; [done|].
    split; [by apply buildSelectClause_Ok|]. split; [apply buildWhereClause_Ok; eauto|].
    split; [by apply buildOrderByClause_Ok|]. reflexivity.
Qed.

(** C3: [Build] accepts exactly the admissible requests: the table is a whitelisted
    identifier, every selected, filtered and sorted column is an identifier whitelisted for
    that table, every filter operator is known and every IN list is a slice of acceptable
    length.  Nothing else is rejected and nothing else is let through. *)
Theorem Build_accepts_iff wl r t : (exists x, Build wl r t = Ok x) <-> admissible wl r t.
Proof. apply Build_admissible. Qed.

(** ** The text does not depend on the values *)

Lemma in_clause_erase col op v n : op = FilterOpIN \/ op = FilterOpNOT_IN ->
  fst <$> buildINClause col v n = fst <$> buildINClause col (erase_value op v) n.
Proof.
  intros Hop. unfold erase_value, buildINClause.
  destruct Hop as [-> | ->]; destruct v; try done; rewrite length_map, map_map;
    by destruct (guard_err (Z.of_nat (length l) =? 0) _); simpl; [destruct (guard_err _ _)|].
Qed.

Lemma where_one_erase cols f :
  fst <$> where_one cols f = fst <$> where_one cols (erase_filter f).
Proof.
  unfold where_one. simpl. destruct (check_col _ _ _); [|done]. simpl.
  destruct (Operator f) eqn:Hop; try done; apply in_clause_erase; auto.
Qed.

Lemma buildWhereClause_erase fs cols :
  fst <$> buildWhereClause fs cols = fst <$> buildWhereClause (map erase_filter fs) cols.
Proof.
  assert (Hm : map fst <$> mapR (where_one cols) fs
             = map fst <$> mapR (where_one cols) (map erase_filter fs)).
  { rewrite <- !mapR_fmap, mapR_compose. apply mapR_ext. intros; apply where_one_erase. }
  destruct fs as [|f fs]; [done|].
  change (map erase_filter (f :: fs)) with (erase_filter f :: map erase_filter fs) in Hm |- *.
  unfold buildWhereClause.
  destruct (mapR (where_one cols) (f :: fs)), (mapR (where_one cols) (erase_filter f :: _));
    try discriminate Hm; [|by injection Hm as ->]. injection Hm as Hm.
  simpl. f_equal. f_equal. done.
Qed.

(** C1: injection safety of reads.  The SQL text (and, on failure, the error) is a
    function of the request with its filter values erased: no value supplied by the client,
    however crafted, changes a byte of the statement; of an IN list only the length shows. *)
Theorem Build_text_ignores_values wl r t :
  fst <$> Build wl r t = fst <$> Build wl (erase r) t.
Proof.
  unfold Build. destruct (validateTable wl t); [|done]. simpl.
  destruct (buildSelectClause _ _); [|done]. simpl.
  pose proof (buildWhereClause_erase (Filters r) (default ∅ (wl !! t))) as Hw.
  destruct (buildWhereClause (Filters r) _) as [[w ps]|e],
    (buildWhereClause (map erase_filter (Filters r)) _) as [[w' ps']|e'];
    try discriminate Hw; simpl in Hw; injection Hw as <-; [|done]. simpl.
  by destruct (buildOrderByClause _ _).
Qed.
End Builder.

Section Failures.
Context {D : Dialect}.

Lemma ValidateIdentifier_api s e : ValidateIdentifier s = Err e -> is_api_error e = true.
Proof. unfold ValidateIdentifier. by repeat case_match; intros; simplify_eq. Qed.
Lemma check_col_api cols w s e : check_col cols w s = Err e -> is_api_error e = true.
Proof.
  intros [?%ValidateIdentifier_api|(? & _ & [_ ->]%guard_err_Err)]%bind_Err; done.
Qed.
Lemma validateTable_api wl t e : validateTable wl t = Err e -> is_api_error e = true.
Proof.
  intros [?%ValidateIdentifier_api|(? & _ & H)]%bind_Err; [done|]. by case_match; simplify_eq.
Qed.
Lemma checked_col_api {A B} cols w (g : A -> string) (h : A -> result B) l e :
  (forall a, exists b, h a = Ok b) ->
  mapR (fun a => _ ← check_col cols w (g a); h a) l = Err e -> is_api_error e = true.
Proof.
  intros Hh. apply mapR_api. intros a e0 [?|(? & _ & H)]%bind_Err; [by eapply check_col_api|].
  destruct (Hh a) as [b Hb]. by rewrite Hb in H.
Qed.
Lemma where_api fs cols e : buildWhereClause fs cols = Err e -> is_api_error e = true.
Proof.
  unfold buildWhereClause. destruct fs; [done|]. intros [Hm|(? & _ & ?)]%bind_Err; [|done].
  revert Hm. apply mapR_api. intros a e0 [?|(? & _ & Hw)]%bind_Err; [by eapply check_col_api|].
  destruct (Operator a); simplify_eq/=; try done.
  all: unfold buildINClause in Hw; destruct (Value a); simplify_eq/=; try done.
  all: apply bind_Err in Hw as [[_ ->]%guard_err_Err|(? & _ & Hw)]; [done|];
    apply bind_Err in Hw as [[_ ->]%guard_err_Err|(? & _ & ?)]; done.
Qed.

(** Whatever the builder refuses, it refuses with a structured error. *)
Lemma Build_api wl r t e : Build wl r t = Err e -> is_api_error e = true.
Proof.
  intros [?%validateTable_api|(? & _ & H)]%bind_Err; [done|].
  apply bind_Err in H as [H|(? & _ & H)].
  { unfold buildSelectClause in H. case_match; [done|].
    apply bind_Err in H as [H|(? & _ & ?)]; [|done].
    eapply checked_col_api; [|exact H]. eauto. }
  apply bind_Err in H as [?%where_api|(? & _ & H)]; [done|].
  apply bind_Err in H as [H|(? & _ & ?)]; [|done].
  unfold buildOrderByClause in H. case_match; [done|].
  apply bind_Err in H as [H|(? & _ & ?)]; [|done].
  eapply checked_col_api; [|exact H]. eauto.
Qed.
Lemma BuildCount_api wl r t e : BuildCount wl r t = Err e -> is_api_error e = true.
Proof.
  intros [?%validateTable_api|(? & _ & H)]%bind_Err; [done|].
  by apply bind_Err in H as [?%where_api|(? & _ & ?)].
Qed.
End Failures.

Section Safety.
Context {D : Dialect} {L : DialectLaws D}.

Lemma ident_char_sql c : ident_char c = true -> sql_byte c = true.
Proof. unfold sql_byte. by intros ->. Qed.

Lemma quote_bytes s : identifierRe s = true ->
  str_forallb sql_byte (quoteIdentifier s) = true /\ count_byte "?"%char (quoteIdentifier s) = O.
Proof.
  intros H%identifierRe_safe. unfold quoteIdentifier. simpl.
  rewrite str_forallb_app, count_byte_app. simpl.
  rewrite (str_forallb_impl ident_char sql_byte) by (done || apply ident_char_sql).
  by rewrite (count_byte_forallb ident_char).
Qed.

Lemma opt_clause_bytes p c :
  str_forallb sql_byte p = true -> str_forallb sql_byte c = true ->
  str_forallb sql_byte (opt_clause p c) = true.
Proof. unfold opt_clause. case_match; [done|]. rewrite str_forallb_app. by intros -> ->. Qed.
Lemma opt_clause_count p c : count_byte "?"%char p = O ->
  count_byte "?"%char (opt_clause p c) = count_byte "?"%char c.
Proof.
  unfold opt_clause. destruct (String.eqb_spec c EmptyString) as [->|]; [done|].
  rewrite count_byte_app. by intros ->.
Qed.

Lemma holes_bytes {A} (l : list A) :
  str_forallb sql_byte (join ", " (map (fun _ => "?") l)) = true
  /\ count_byte "?"%char (join ", " (map (fun _ => "?") l)) = length l.
Proof.
  split.
  - apply str_forallb_join; [done|]. induction l; simpl; constructor; done.
  - rewrite count_byte_join by done. induction l as [|x l IH]; simpl in *; [done|]. by rewrite IH.
Qed.

(** A well-formed fragment with its parameters: safe bytes, a hole per parameter. *)
Definition fragment (cp : string * list GoVal) : Prop :=
  str_forallb sql_byte cp.1 = true /\ count_byte "?"%char cp.1 = length cp.2.

Lemma fragment_app s t ps qs :
  fragment (s, ps) -> fragment (t, qs) -> fragment (s +:+ t, ps ++ qs).
Proof.
  unfold fragment; simpl. rewrite str_forallb_app, count_byte_app, length_app.
  intros [-> ->] [-> ->]. done.
Qed.

Lemma quote_fragment cols s : ident_ok cols s -> fragment (quoteIdentifier s, []).
Proof. intros (_ & H & _). by apply quote_bytes. Qed.

Lemma where_one_fragment cols f cp : where_one cols f = Ok cp -> fragment cp.
Proof.
  intros ([] & Hc%check_col_Ok & Hm)%bind_Ok.
  pose proof (quote_fragment _ _ Hc) as Hq.
  assert (Hs : forall t ps, fragment (t, ps) -> fragment (quoteIdentifier (Field f) +:+ t, ps)).
  { intros t ps. by apply (fragment_app _ _ [] ps). }
  destruct (Operator f); simplify_eq/=; try (by apply Hs).
  all: apply in_clause_Ok in Hm as (l & _ & _ & ->); apply Hs.
  all: destruct (holes_bytes l) as [Hb Hn].
  all: split; simpl; rewrite ?str_forallb_app, ?count_byte_app, ?Hb, ?Hn; simpl; done || lia.
Qed.

Lemma join_fragment sep (cps : list (string * list GoVal)) :
  fragment (sep, []) -> Forall fragment cps -> fragment (join sep cps.*1, concat cps.*2).
Proof.
  intros Hsep. induction 1 as [|[c ps] l Hc Hl IH]; [done|].
  destruct l as [|[c' ps'] l]; [simpl; by rewrite app_nil_r|].
  change (fragment (c +:+ (sep +:+ join sep ((c', ps') :: l).*1),
                    ps ++ ([] ++ concat ((c', ps') :: l).*2))).
  by repeat apply fragment_app.
Qed.

Lemma buildWhereClause_fragment fs cols cp :
  buildWhereClause fs cols = Ok cp ->
  fragment cp /\ cp.2 = concat (map filter_params fs).
Proof.
  intros (cps & H%mapR_Ok & ->)%buildWhereClause_Ok. split.
  - apply join_fragment; [done|]. induction H; constructor; auto. by eapply where_one_fragment.
  - simpl. f_equal. induction H as [|?? ?? [_ Hp]%where_one_params]; simpl; [done|]. by f_equal.
Qed.

Lemma itoa_fragment z : fragment (itoa z, []).
Proof.
  assert (Hi : forall c, itoa_byte c = true -> sql_byte c = true).
  { unfold itoa_byte, sql_byte, ident_char. intros c H.
    destruct (is_digit c); [by rewrite orb_true_r|]. simpl in H. rewrite H. by rewrite !orb_true_r. }
  split; simpl; [eapply str_forallb_impl; [exact Hi|apply itoa_bytes]|].
  by eapply count_byte_forallb; [apply itoa_bytes|].
Qed.

Lemma buildLimitClause_fragment p : fragment (buildLimitClause p, []).
Proof.
  assert (Hp : forall kw v, fragment (kw, []) -> fragment (kw +:+ itoa v, [])).
  { intros kw v Hk. apply (fragment_app _ _ [] []); [done|]. apply itoa_fragment. }
  destruct p as [p|]; [|done]. unfold buildLimitClause.
  destruct (effective_limit p), (effective_offset p); simpl; try done.
  - change (fragment ("LIMIT " +:+ itoa (clampLimit z) +:+ " " +:+ "OFFSET " +:+ itoa (clampOffset z0), [])).
    rewrite <- str_app_assoc. apply (fragment_app _ _ [] []); [by apply Hp|].
    apply (fragment_app " " _ [] []); [done|]. by apply Hp.
  - by apply (Hp "LIMIT ").
  - by apply (Hp "OFFSET ").
Qed.

Lemma join_fragment_text sep (l : list string) :
  fragment (sep, []) -> Forall (fun s => fragment (s, [])) l -> fragment (join sep l, []).
Proof.
  intros Hsep. induction 1 as [|c l Hc Hl IH]; [done|].
  destruct l as [|c' l]; [done|]. rewrite join_cons.
  apply (fragment_app c _ [] []); [done|]. by apply (fragment_app sep _ [] []).
Qed.

Lemma select_fragment fs cols s : buildSelectClause fs cols = Ok s -> fragment (s, []).
Proof.
  intros [H ->]%buildSelectClause_Ok. destruct fs as [|f fs]; [done|].
  apply join_fragment_text; [done|]. apply Forall_map.
  eapply Forall_impl; [exact H|]. intros a. apply quote_fragment.
Qed.

Lemma order_fragment os cols s : buildOrderByClause os cols = Ok s -> fragment (s, []).
Proof.
  intros [H ->]%buildOrderByClause_Ok.
  apply join_fragment_text; [done|]. apply Forall_map.
  eapply Forall_impl; [exact H|]. intros o Ho. unfold order_text.
  apply (fragment_app (quoteIdentifier _) _ [] []); [exact (quote_fragment _ _ Ho)|]. by destruct (Direction o).
Qed.

Lemma opt_fragment p c ps : fragment (p, []) -> fragment (c, ps) -> fragment (opt_clause p c, ps).
Proof.
  intros [Hp Hn] [Hc Hm]. simpl in *. split; simpl.
  - by apply opt_clause_bytes.
  - by rewrite opt_clause_count.
Qed.

Lemma Build_fragment wl r t cp :
  Build wl r t = Ok cp -> fragment cp /\ cp.2 = concat (map filter_params (Filters r)).
Proof.
  intros ((H1 & H2 & _)%validateTable_Ok & cols & sel & [w ws] & ord & _ & Hs & Hw & Ho & ->)%Build_Ok.
  destruct (buildWhereClause_fragment _ _ _ Hw) as [Hwf Hws]. simpl in Hws. subst ws.
  apply select_fragment in Hs. apply order_fragment in Ho. simpl in Hwf. split; [|done].
  simpl snd. simpl fst. set (ps := concat _) in *.
  apply (fragment_app "SELECT " _ [] ps); [done|]. apply (fragment_app sel _ [] ps); [done|].
  apply (fragment_app " FROM " _ [] ps); [done|].
  apply (fragment_app _ _ [] ps); [by apply quote_bytes|].
  rewrite <- (app_nil_r ps). apply fragment_app; [by apply opt_fragment|].
  apply (fragment_app _ _ [] []); apply opt_fragment; try done. apply buildLimitClause_fragment.
Qed.

Lemma BuildCount_fragment wl r t cp : BuildCount wl r t = Ok cp -> fragment cp.
Proof.
  intros ([] & (H1 & H2 & _)%validateTable_Ok & ([w ws] & Hw & [= <-])%bind_Ok)%bind_Ok.
  apply buildWhereClause_fragment in Hw as [Hw _]. simpl in *.
  apply (fragment_app "SELECT COUNT(*) FROM " _ [] ws); [done|].
  apply (fragment_app _ _ [] ws); [by apply quote_bytes|]. by apply opt_fragment.
Qed.

(** the statement [Build] returns is made of safe bytes only (letters, digits, [_],
    backticks and the fixed punctuation: never a string quote, a semicolon, a backslash, a
    comment opener [/] or [#]); it has exactly one [?] per parameter; and the parameters are
    the filters' values in order. *)
Theorem Build_statement_safe wl r t sql ps :
  Build wl r t = Ok (sql, ps) ->
  str_forallb sql_byte sql = true
  /\ count_byte "?"%char sql = length ps
  /\ ps = concat (map filter_params (Filters r)).
Proof. by intros [[Hb Hn] Hp]%Build_fragment. Qed.
End Safety.

(** the count query of a page counts the same rows: whenever [Build] succeeds so does
    [BuildCount], with the same parameters, and both statements have the same
    [FROM ... WHERE ...] text; only the column list and the ORDER BY / LIMIT tail differ. *)
Theorem BuildCount_agrees `{D : Dialect} wl r t sql ps :
  Build wl r t = Ok (sql, ps) ->
  exists cols from_where tail,
    sql = "SELECT " +:+ cols +:+ from_where +:+ tail
    /\ BuildCount wl r t = Ok ("SELECT COUNT(*)" +:+ from_where, ps).
Proof.
  intros (Ht & cols & sel & [w ws] & ord & Hc & _ & Hw & _ & [= -> ->])%Build_Ok.
  exists sel, (" FROM " +:+ quoteIdentifier t +:+ opt_clause " WHERE " w),
    (opt_clause " ORDER BY " ord +:+ opt_clause " " (buildLimitClause (Pagination r))).
  split.
  - unfold quoteIdentifier. simpl. by rewrite !str_app_assoc.
  - unfold BuildCount. rewrite Ht, Hc. simpl. rewrite Hw. reflexivity.
Qed.

(** the paging clause.  [first] wins over [limit]; an [after] cursor wins over
    [offset] and hides it even when it does not decode; each number present is printed
    once, after the dialect's clamping, LIMIT before OFFSET. *)
Theorem buildLimitClause_spec `{D : Dialect} p :
  buildLimitClause (Some p) =
    let lim := fmap (fun v => "LIMIT " +:+ itoa (clampLimit v))
                 (match First p with Some n => Some n | None => Limit p end) in
    let off := fmap (fun v => "OFFSET " +:+ itoa (clampOffset v))
                 (match After p with
                  | Some c => if decide (0 <= decodeCursor c) then Some (decodeCursor c) else None
                  | None => Offset p
                  end) in
    match lim, off with
    | Some a, Some b => a +:+ " " +:+ b
    | Some a, None => a
    | None, Some b => b
    | None, None => EmptyString
    end.
Proof.
  unfold buildLimitClause, effective_limit, effective_offset. cbv zeta.
  assert (Hd : forall z, (if 0 <=? z then Some z else None)
                       = (if decide (0 <= z) then Some z else None)).
  { intros z. case_decide; case_match; done || lia. }
  destruct (First p), (Limit p), (After p), (Offset p); simpl;
    rewrite ?Hd; try case_decide; reflexivity.
Qed.
