(* ===== verification/SqlAdapter.v ===== *)
(** * What the two SQL adapters share: option access, table extraction, row scanning

    internal/adapter/starrocks/adapter.go and internal/adapter/clickhouse/adapter.go hold
    the same helper functions; the database behind [*sql.DB] is an argument of the
    operations: what a query answers is a [Rows] value, and the statements that reach it
    are returned next to the result. *)
From S2P Require Import Prelude GoStrings Values GoConv DataSource.

(** A statement as it is handed to the driver. *)
Definition stmt : Type := string * list GoVal.

(** What [QueryContext] gives: the columns, the scanned rows or the error of [Scan], and
    what [rows.Err] says once the rows are exhausted. *)
Record Rows := {
  rs_columns : result (list string);
  rs_rows : list (result (list GoVal));
  rs_err : option error;
}.

Definition getIntOption (options : list (string * GoVal)) (key : string) (defaultVal : Z) : Z :=
  match assoc key options with
  | Some (VInt val) => val
  | Some (VFloat64 val) => int_of_float val
  | Some (VString val) => default defaultVal (parse_int val)
  | _ => defaultVal
  end.

Definition getDurationOption (options : list (string * GoVal)) (key : string) (defaultVal : Z) : Z :=
  match assoc key options with
  | Some (VString val) => default defaultVal (parse_duration val)
  | Some (VDuration val) => val
  | Some (VFloat64 val) => wrap64 (int_of_float val * second)
  | Some (VInt val) => wrap64 (val * second)
  | _ => defaultVal
  end.

Definition getBoolOption (options : list (string * GoVal)) (key : string) (defaultVal : bool) : bool :=
  match assoc key options with
  | Some (VBool val) => val
  | Some (VString val) => default defaultVal (parse_bool val)
  | _ => defaultVal
  end.

Definition getStringOption (options : list (string * GoVal)) (key : string) (defaultVal : string)
    : string :=
  match assoc key options with
  | Some (VString s) => if String.eqb s EmptyString then defaultVal else s
  | _ => defaultVal
  end.

(** [s, _ := m[key].(string)]. *)
Definition string_or_empty (m : list (string * GoVal)) (key : string) : string :=
  match assoc key m with Some (VString s) => s | _ => EmptyString end.

Definition extractTable (options : option (list (string * GoVal))) : result string :=
  match options with
  | None => Err (ValidationError ErrValidationInvalidTable
                   (Sprintf "request options must include a table name" []))
  | Some o =>
      match assoc "table" o with
      | Some (VString table) =>
          if String.eqb table EmptyString
          then Err (ValidationError ErrValidationInvalidTable
                      (Sprintf "request options must include a non-empty table name" []))
          else Ok table
      | _ => Err (ValidationError ErrValidationInvalidTable
                    (Sprintf "request options must include a non-empty table name" []))
      end
  end.

(** One row as a map: a later column of the same name overwrites an earlier one. *)
Definition row_map (conv : GoVal -> GoVal) (columns : list string) (values : list GoVal)
    : list (string * GoVal) :=
  foldl (fun row cv => assoc_set cv.1 (conv cv.2) row) [] (zip columns values).

Definition scanRows (conv : GoVal -> GoVal) (rows : Rows)
    : result (list (list (string * GoVal))) :=
  columns ← match rs_columns rows with
            | Ok c => Ok c
            | Err err => Err (Wrap (Sprintf "get columns: %w" [AErr err]) err)
            end;
  data ← mapR (fun r => match r with
                        | Ok values => Ok (row_map conv columns values)
                        | Err err => Err (Wrap (Sprintf "scan row: %w" [AErr err]) err)
                        end) (rs_rows rows);
  match rs_err rows with
  | None => Ok data
  | Some err => Err (Wrap (Sprintf "rows iteration: %w" [AErr err]) err)
  end.

(** [rs.DatasourceError(code, fmt.Sprintf(msg, err))] around a failed driver call. *)
Definition or_ds_error {A} (code msg : string) (r : result A) : result A :=
  match r with
  | Ok a => Ok a
  | Err err => Err (DatasourceError code (Sprintf msg [AErr err]))
  end.

(** ** Lemmas *)

Lemma extractTable_api o e : extractTable o = Err e -> is_api_error e = true.
Proof. unfold extractTable. intros H. by repeat case_match; simplify_eq/=. Qed.

Lemma extractTable_Ok o t :
  extractTable o = Ok t <->
  t <> EmptyString /\ exists m, o = Some m /\ assoc "table" m = Some (VString t).
Proof.
  unfold extractTable. destruct o as [m|]; [|naive_solver].
  destruct (assoc "table" m) as [[]|] eqn:E; try naive_solver.
  destruct (String.eqb_spec s EmptyString); naive_solver.
Qed.

Lemma or_ds_error_api {A} c m (r : result A) e :
  or_ds_error c m r = Err e -> is_api_error e = true.
Proof. destruct r; simpl; [done|]. by intros [= <-]. Qed.

Lemma zip_keys {A B} (k : list A) (l : list B) x : x ∈ (zip k l).*1 -> x ∈ k.
Proof. intros ([a b] & -> & ?%elem_of_zip_l)%list_elem_of_fmap. done. Qed.

Lemma NoDup_zip_keys {A B} (k : list A) (l : list B) : NoDup k -> NoDup (zip k l).*1.
Proof.
  revert l. induction k as [|a k IH]; intros [|b l]; simpl; intros Hnd; try constructor;
    apply NoDup_cons in Hnd as [Ha Hk]; [|by apply IH].
  by intros H%zip_keys.
Qed.

(** A row scanned under distinct column names gives every column its value. *)
Lemma row_map_lookup conv columns values c v :
  NoDup columns -> (c, v) ∈ zip columns values ->
  assoc c (row_map conv columns values) = Some (conv v).
Proof.
  unfold row_map. intros Hnd.
  assert (Hg : forall l acc, NoDup l.*1 ->
    assoc c (foldl (fun row cv => assoc_set cv.1 (conv cv.2) row) acc l)
    = match assoc c l with Some v => Some (conv v) | None => assoc c acc end).
  { induction l as [|[k w] l IH]; intros acc Hl; simpl; [done|].
    apply NoDup_cons in Hl as [Hk Hl]. rewrite IH, assoc_set_lookup by done. simpl in *.
    destruct (decide (k = c)) as [->|]; [|by rewrite decide_False].
    rewrite decide_True by done. apply assoc_None in Hk. by rewrite Hk. }
  intros Hin. rewrite Hg by by apply NoDup_zip_keys.
  by rewrite (assoc_NoDup c v) by (by apply NoDup_zip_keys || done).
Qed.
