(* ===== verification/Whitelist.v ===== *)
(** * Table whitelists: whitelist.go of both SQL adapters, writable_tables.go

    The whitelists come from the adapter's option map.  [ParseAllowedTables] is the read
    whitelist of either dialect, [ParseWritableTables] the write whitelist of StarRocks,
    [ValidateWritableSubset] relates the two.  A loop over a Go map is a loop over the
    association list that holds this run's order. *)
From S2P Require Import Prelude GoStrings Values DataSource SqlCore.

Section Parse.
Context {D : Dialect}.

Definition invalid_table (msg : format) : error := ValidationError ErrValidationInvalidTable msg.
Definition invalid_field (msg : format) : error := ValidationError ErrValidationInvalidField msg.

(** [raw, ok := cfg.Options[key]; tables, ok := raw.(map[string]any); len(tables) == 0]. *)
Definition option_tables (key : string) (cfg : DataSourceConfig)
    : result (list (string * GoVal)) :=
  match assoc key (DsOptions cfg) with
  | None => Err (invalid_table (Sprintf (key +:+ " is missing from data source options") []))
  | Some (VMap []) => Err (invalid_table (Sprintf (key +:+ " must not be empty") []))
  | Some (VMap tables) => Ok tables
  | Some _ => Err (invalid_table (Sprintf (key +:+ " must be a map of table definitions") []))
  end.

(** One column of the list, [what] being "table" or "writable table". *)
Definition parse_column (what tableName : string) (c : GoVal) : result string :=
  match c with
  | VString colName =>
      match ValidateIdentifier colName with
      | Ok _ => Ok colName
      | Err err => Err (invalid_field (Sprintf (what +:+ " %q has invalid column name %q: %v")
                                         [AStr tableName; AStr colName; AErr err]))
      end
  | _ => Err (invalid_field (Sprintf (what +:+ " %q column name must be a string") [AStr tableName]))
  end.

(** [cols[c] = true] for every name of the list. *)
Definition name_set (names : list string) : gmap string bool :=
  foldl (fun m c => <[c := true]> m) ∅ names.

(** The part of the loop body both parsers share: the table's name, its definition map and
    its columns. *)
Definition parse_table (what tableName : string) (tableDef : GoVal)
    : result (list (string * GoVal) * gmap string bool) :=
  _ ← match ValidateIdentifier tableName with
      | Ok _ => Ok tt
      | Err err => Err (invalid_table (Sprintf ("invalid " +:+ what +:+ " name %q: %v")
                                         [AStr tableName; AErr err]))
      end;
  tableMap ← match tableDef with
      | VMap m => Ok m
      | _ => Err (invalid_table
               (Sprintf (what +:+ " %q definition must be a map with a columns key") [AStr tableName]))
      end;
  colsRaw ← match assoc "columns" tableMap with
      | Some v => Ok v
      | None => Err (invalid_field (Sprintf (what +:+ " %q is missing the columns key") [AStr tableName]))
      end;
  colSlice ← match colsRaw with
      | VSlice l => Ok l
      | _ => Err (invalid_field (Sprintf (what +:+ " %q columns must be a list") [AStr tableName]))
      end;
  _ ← guard_err (Z.of_nat (length colSlice) =? 0)
        (invalid_field (Sprintf (what +:+ " %q must have at least one column") [AStr tableName]));
  names ← mapR (parse_column what tableName) colSlice;
  Ok (tableMap, name_set names).

(** [result[tableName] = ...] over the loop. *)
Definition table_map {A} (entries : list (string * A)) : gmap string A :=
  foldl (fun m e => <[e.1 := e.2]> m) ∅ entries.

Definition ParseAllowedTables (cfg : DataSourceConfig) : result Whitelist :=
  tables ← option_tables "allowed_tables" cfg;
  entries ← mapR (fun td =>
    mc ← parse_table "table" td.1 td.2;
    Ok (td.1, mc.2)) tables;
  Ok (table_map entries).

(** writable_tables.go. *)
Record WritableTableConfig := {
  Columns : gmap string bool;
  AllowedOperations : gmap string bool;
}.
Definition defaultAllowedOperations : list string := ["insert"; "update"; "delete"].

Definition parse_operation (tableName : string) (op : GoVal) : result string :=
  match op with
  | VString opStr =>
      if negb (String.eqb opStr "insert") && negb (String.eqb opStr "update")
         && negb (String.eqb opStr "delete") then
        Err (invalid_table
          (Sprintf "writable table %q has invalid operation %q: must be one of [insert, update, delete]"
             [AStr tableName; AStr opStr]))
      else Ok opStr
  | _ => Err (invalid_table
           (Sprintf "writable table %q allowed_operations entry must be a string" [AStr tableName]))
  end.

Definition parse_operations (tableName : string) (tableMap : list (string * GoVal))
    : result (gmap string bool) :=
  match assoc "allowed_operations" tableMap with
  | Some (VSlice opsSlice) =>
      _ ← guard_err (Z.of_nat (length opsSlice) =? 0)
            (invalid_table
              (Sprintf "writable table %q allowed_operations must not be empty" [AStr tableName]));
      ops ← mapR (parse_operation tableName) opsSlice;
      Ok (name_set ops)
  | Some _ => Err (invalid_table
        (Sprintf "writable table %q allowed_operations must be a list" [AStr tableName]))
  | None => Ok (name_set defaultAllowedOperations)
  end.

Definition ParseWritableTables (cfg : DataSourceConfig)
    : result (gmap string WritableTableConfig) :=
  tables ← option_tables "writable_tables" cfg;
  entries ← mapR (fun td =>
    mc ← parse_table "writable table" td.1 td.2;
    ops ← parse_operations td.1 mc.1;
    Ok (td.1, {| Columns := mc.2; AllowedOperations := ops |})) tables;
  Ok (table_map entries).
End Parse.

(** The loops of [ValidateWritableSubset]; [worder] and [corder] list the keys in the order
    this run visits them. *)
Definition check_writable_column (tableName : string) (allowedCols : gmap string bool)
    (colName : string) : result unit :=
  guard_err (negb (col_allowed allowedCols colName))
    (ValidationError ErrValidationInvalidField
      (Sprintf "writable column %q in table %q is not present in allowed_tables"
         [AStr colName; AStr tableName])).
Definition check_writable_table (corder : gmap string bool -> list string)
    (writable : gmap string WritableTableConfig) (allowed : Whitelist) (tableName : string)
    : result unit :=
  match allowed !! tableName, writable !! tableName with
  | None, _ => Err (ValidationError ErrValidationInvalidTable
                      (Sprintf "writable table %q is not present in allowed_tables" [AStr tableName]))
  | Some allowedCols, Some tableConfig =>
      forR (check_writable_column tableName allowedCols) (corder (Columns tableConfig))
  | Some _, None => Ok tt
  end.
Definition ValidateWritableSubset (worder : list string) (corder : gmap string bool -> list string)
    (writable : gmap string WritableTableConfig) (allowed : Whitelist) : result unit :=
  forR (check_writable_table corder writable allowed) worder.

(** ** Vocabulary of the theorems *)

(** A set of names held as [map[string]bool] with every value true. *)
Definition true_set (P : string -> Prop) (m : gmap string bool) : Prop :=
  m <> ∅ /\ forall c b, m !! c = Some b -> b = true /\ P c.

(** An order a [range] over a map may take. *)
Definition visits {A} (order : list string) (m : gmap string A) : Prop :=
  NoDup order /\ forall k, k ∈ order <-> is_Some (m !! k).

(** The whitelist read from a list of table definitions, in whatever order. *)
Definition with_tables (tables : list (string * GoVal)) : DataSourceConfig :=
  {| DsName := EmptyString; DsType := EmptyString; Enabled := true; Connection := [];
     DsOptions := [("allowed_tables", VMap tables)] |}.

(** ** Lemmas *)

Lemma name_set_lookup names c b :
  name_set names !! c = Some b <-> b = true /\ c ∈ names.
Proof.
  unfold name_set.
  assert (Hg : forall (m : gmap string bool),
    foldl (fun m c => <[c := true]> m) m names !! c = Some b
    <-> (b = true /\ c ∈ names) \/ (c ∉ names /\ m !! c = Some b)).
  { induction names as [|n names IH]; intros m; simpl.
    - split; [right; split; [by apply not_elem_of_nil|done]|].
      intros [[_ []%elem_of_nil]|[_ ?]]; done.
    - rewrite IH, elem_of_cons. destruct (decide (n = c)) as [->|Hne].
      + rewrite lookup_insert_eq. destruct (decide (c ∈ names)); naive_solver.
      + rewrite lookup_insert_ne by done. naive_solver. }
  rewrite Hg, lookup_empty. naive_solver.
Qed.

Lemma name_set_nonempty names : names <> [] -> name_set names <> ∅.
Proof.
  destruct names as [|n names]; [done|]. intros _ H.
  assert (Hn : name_set (n :: names) !! n = Some true)
    by (apply name_set_lookup; split; [done|by left]).
  by rewrite H in Hn.
Qed.

Lemma table_map_lookup {A} (es : list (string * A)) t v :
  table_map es !! t = Some v -> (t, v) ∈ es.
Proof.
  unfold table_map.
  assert (Hg : forall (m : gmap string A), foldl (fun m e => <[e.1 := e.2]> m) m es !! t = Some v ->
    (t, v) ∈ es \/ m !! t = Some v).
  { induction es as [|[k w] es IH]; intros m; simpl; [auto|].
    intros [H|H]%IH; [left; by right|].
    destruct (decide (k = t)) as [->|Hne].
    - rewrite lookup_insert_eq in H. simplify_eq. left. by left.
    - rewrite lookup_insert_ne in H by done. auto. }
  intros [H|H]%Hg; [done|]. by rewrite lookup_empty in H.
Qed.

Lemma table_map_is_Some {A} (es : list (string * A)) t :
  t ∈ es.*1 -> is_Some (table_map es !! t).
Proof.
  unfold table_map. intros Ht. generalize (or_introl (B := is_Some ((∅ : gmap string A) !! t)) Ht).
  generalize (∅ : gmap string A). clear Ht.
  induction es as [|[k v] es IH]; intros m; simpl; [by intros [?%elem_of_nil|?]|].
  intros H. apply IH. destruct (decide (k = t)) as [->|Hne].
  - right. by rewrite lookup_insert_eq.
  - rewrite lookup_insert_ne by done.
    destruct H as [[?|?]%elem_of_cons|?]; auto. congruence.
Qed.

Lemma table_map_list_to_map {A} (es : list (string * A)) :
  NoDup es.*1 -> table_map es = list_to_map es.
Proof.
  intros Hnd. unfold table_map.
  assert (Hg : forall (m : gmap string A), foldl (fun m e => <[e.1 := e.2]> m) m es = list_to_map es ∪ m).
  { induction es as [|[k v] es IH]; intros m; simpl; [by rewrite (left_id_L ∅ (∪))|].
    apply NoDup_cons in Hnd as [Hk Hnd]. rewrite IH by done.
    rewrite <- insert_union_r by (by apply not_elem_of_list_to_map_1).
    by rewrite insert_union_l. }
  rewrite Hg. by rewrite (right_id_L ∅ (∪)).
Qed.

Section ParseLemmas.
Context {D : Dialect}.

Lemma parse_table_Ok what t def m cols :
  parse_table what t def = Ok (m, cols) ->
  t <> EmptyString /\ identifierRe t = true
  /\ true_set (fun c => identifierRe c = true) cols.
Proof.
  unfold parse_table. intros H. result_inv.
  destruct (ValidateIdentifier t) as [[]|] eqn:Ht; [|done].
  apply ValidateIdentifier_Ok in Ht as [Hne Hid]. split; [done|]. split; [done|]. split.
  - apply name_set_nonempty. match goal with H : mapR _ _ = Ok _ |- _ =>
      apply mapR_length in H as Hl end. intros ->.
    match goal with x : list GoVal |- _ => destruct x; simpl in *; done end.
  - intros c b [-> Hc]%name_set_lookup. split; [done|].
    match goal with H : mapR _ _ = Ok _ |- _ => apply mapR_Ok in H; rename H into Hm end.
    eapply (Forall2_Forall_r _ (fun n => identifierRe n = true)) in Hm.
    + by apply (proj1 (Forall_forall _ _) Hm c).
    + apply Forall_true. intros v n Hv. unfold parse_column in Hv.
      destruct v; try done. destruct (ValidateIdentifier s) as [[]|] eqn:Hs; simplify_eq.
      by apply ValidateIdentifier_Ok in Hs as [_ ?].
Qed.
End ParseLemmas.

(** ** Theorems *)

Section ParseTheorems.
Context {D : Dialect}.

(** a parsed read whitelist is well formed: it is not empty, every table name is an
    identifier of the dialect, every table has at least one column, every column name is an
    identifier and every entry of the column map is [true]. *)
Theorem allowed_tables_wf cfg wl :
  ParseAllowedTables cfg = Ok wl ->
  wl <> ∅ /\ forall t cols, wl !! t = Some cols ->
    t <> EmptyString /\ identifierRe t = true /\ true_set (fun c => identifierRe c = true) cols.
Proof.
  unfold ParseAllowedTables. intros (tables & Ht & (es & Hes & [= <-])%bind_Ok)%bind_Ok. split.
  - destruct tables as [|[t d] tables].
    { unfold option_tables in Ht. by repeat case_match. }
    apply mapR_Ok in Hes. inversion Hes as [|? [t' c'] ? es' Hone]; subst.
    intros Hemp. destruct (table_map_is_Some ((t', c') :: es') t') as [? Hin]; [by left|].
    by rewrite Hemp, lookup_empty in Hin.
  - intros t cols Hl%table_map_lookup. apply mapR_Ok in Hes.
    apply list_elem_of_lookup in Hl as [i Hi].
    destruct (Forall2_lookup_r _ _ _ _ _ Hes Hi) as ([t0 d0] & _ & Hone). simpl in Hone.
    apply bind_Ok in Hone as ([m c] & Hp & [= <- <-]). by eapply parse_table_Ok.
Qed.

(** Go's random map order does not show: two orders of the same table definitions
    (keys are unique, being those of one map) give the same whitelist. *)
Theorem allowed_tables_order_independent tables tables' wl :
  NoDup tables.*1 -> tables ≡ₚ tables' ->
  ParseAllowedTables (with_tables tables) = Ok wl ->
  ParseAllowedTables (with_tables tables') = Ok wl.
Proof.
  intros Hnd Hp (tables0 & Ht & (es & Hes & [= <-])%bind_Ok)%bind_Ok.
  destruct tables as [|td tables]; [done|]. injection Ht as <-.
  assert (Hkeys : forall l ys, mapR (fun td : string * GoVal =>
      mc ← parse_table "table" td.1 td.2; Ok (td.1, mc.2)) l = Ok ys -> ys.*1 = l.*1).
  { intros l ys H%mapR_Ok. induction H as [|? ? ? ? (? & _ & [= <-])%bind_Ok]; simpl; by f_equal. }
  destruct (mapR_perm _ _ _ _ Hp Hes) as (es' & Hes' & Hp').
  unfold ParseAllowedTables.
  assert (option_tables "allowed_tables" (with_tables tables') = Ok tables') as ->.
  { destruct tables'; [by apply Permutation_nil_r in Hp|done]. }
  simpl. rewrite Hes'. simpl. f_equal.
  assert (NoDup es.*1) by by rewrite (Hkeys _ _ Hes).
  assert (NoDup es'.*1) by by rewrite <- Hp'.
  rewrite !table_map_list_to_map by done. by apply list_to_map_proper.
Qed.

(** a parsed write whitelist is well formed: its tables and columns are identifiers,
    no table is without columns, and every table allows at least one operation, all of
    them among insert, update and delete. *)
Theorem writable_tables_wf cfg wt :
  ParseWritableTables cfg = Ok wt ->
  forall t c, wt !! t = Some c ->
    t <> EmptyString /\ identifierRe t = true
    /\ true_set (fun n => identifierRe n = true) (Columns c)
    /\ true_set (fun o => o ∈ defaultAllowedOperations) (AllowedOperations c).
Proof.
  intros (tables & Ht & (es & Hes & [= <-])%bind_Ok)%bind_Ok t c Hl%table_map_lookup.
  apply mapR_Ok in Hes. apply list_elem_of_lookup in Hl as [i Hi].
  destruct (Forall2_lookup_r _ _ _ _ _ Hes Hi) as ([t0 d0] & _ & Hone). simpl in Hone.
  apply bind_Ok in Hone as ([m cols] & Hp & (ops & Ho & [= <- <-])%bind_Ok).
  destruct (parse_table_Ok _ _ _ _ _ Hp) as (H1 & H2 & H3). do 3 (split; [done|]).
  simpl in *. unfold parse_operations in Ho. destruct (assoc _ m) as [v|].
  - destruct v; try done.
    apply bind_Ok in Ho as ([] & Hg%guard_err_Ok & (names & Hn & [= <-])%bind_Ok). split.
    + apply name_set_nonempty. apply mapR_length in Hn. intros ->. destruct l; simpl in *; done.
    + intros o b [-> Ho]%name_set_lookup. split; [done|]. apply mapR_Ok in Hn.
      eapply (Forall2_Forall_r _ (fun n => n ∈ defaultAllowedOperations)) in Hn.
      * by apply (proj1 (Forall_forall _ _) Hn o).
      * apply Forall_true. intros v n Hv. unfold parse_operation in Hv. destruct v; try done.
        destruct (String.eqb_spec s "insert"), (String.eqb_spec s "update"),
          (String.eqb_spec s "delete"); simplify_eq/=; unfold defaultAllowedOperations; set_solver.
  - injection Ho as <-. split; [by apply name_set_nonempty|].
    intros o b [-> Ho]%name_set_lookup. done.
Qed.
End ParseTheorems.

Lemma subset_iff worder corder writable allowed :
  visits worder writable -> (forall m, visits (corder m) m) ->
  ValidateWritableSubset worder corder writable allowed = Ok tt <->
  forall t c, writable !! t = Some c -> exists cols, allowed !! t = Some cols /\
    forall col, is_Some (Columns c !! col) -> col_allowed cols col = true.
Proof.
  intros [_ Hw] Hc. unfold ValidateWritableSubset. rewrite forR_Ok, Forall_forall.
  assert (Hone : forall t, t ∈ worder ->
    check_writable_table corder writable allowed t = Ok tt <->
    forall c, writable !! t = Some c -> exists cols, allowed !! t = Some cols /\
      forall col, is_Some (Columns c !! col) -> col_allowed cols col = true).
  { intros t Ht. apply Hw in Ht as [c Hwt]. unfold check_writable_table. rewrite Hwt.
    destruct (allowed !! t) as [cols|]; [|split; [done|intros H; by destruct (H c eq_refl) as (? & ? & _)]].
    rewrite forR_Ok, Forall_forall. destruct (Hc (Columns c)) as [_ Hcs]. split.
    - intros H ? [= <-]. exists cols. split; [done|]. intros col Hcol%Hcs.
      specialize (H _ Hcol). apply guard_err_Ok in H. by apply negb_false_iff.
    - intros H col Hcol%Hcs. destruct (H c eq_refl) as (? & [= <-] & H').
      apply guard_err_Ok, negb_false_iff. auto. }
  split.
  - intros H t c Ht. apply (proj1 (Hone t ltac:(apply Hw; eauto)) (H t ltac:(apply Hw; eauto)) c Ht).
  - intros H t Ht. apply Hone; [done|]. intros c Hc'. by apply H.
Qed.

(** a configuration that passes the start-up check has nothing writable that is not
    readable, whatever orders the two loops visit the maps in; and a configuration with
    that property passes. *)
Theorem writable_subset_iff worder corder writable allowed :
  visits worder writable -> (forall m, visits (corder m) m) ->
  ValidateWritableSubset worder corder writable allowed = Ok tt <->
  forall t c, writable !! t = Some c -> exists cols, allowed !! t = Some cols /\
    forall col, is_Some (Columns c !! col) -> col_allowed cols col = true.
Proof. apply subset_iff. Qed.
