(* ===== verification/StarRocks.v ===== *)
(** * internal/adapter/starrocks: dialect, type mapper and adapter

    The StarRocks instance of the SQL builder of [SqlCore] and the read and write paths of
    the adapter.  The database is an argument: [queryDB], [countDB] and [execDB] are what
    [QueryContext], [QueryRowContext(...).Scan] and [ExecContext] answer to a statement.
    Each operation returns the statements it sent besides its result. *)
From S2P Require Import Prelude GoStrings Values GoConv DataSource SqlCore SqlAdapter Whitelist.
From S2P Require CircuitBreaker.

(** [^[a-zA-Z0-9_]+$]; no bound on IN lists; LIMIT and OFFSET printed as they come. *)
#[export] Instance starrocks_dialect : Dialect := {
  identifierRe s := negb (String.eqb s EmptyString) && str_forallb ident_char s;
  inLimit := None;
  clampLimit v := v;
  clampOffset v := v;
}.
#[export] Instance starrocks_laws : DialectLaws starrocks_dialect.
Proof. split. by intros s [_ ?]%andb_true_iff. Qed.

(** ** Type mapper *)

Inductive GraphQLType :=
  GraphQLInt | GraphQLFloat | GraphQLString | GraphQLBoolean | GraphQLDateTime | GraphQLJSON.
#[export] Instance GraphQLType_eq_dec : EqDecision GraphQLType.
Proof. solve_decision. Defined.

(** [strings.TrimSpace(normalized[:idx])] when there is an opening parenthesis. *)
Definition strip_params (normalized : string) : string :=
  match index_byte "("%char normalized with
  | Some idx => trim_space (str_take idx normalized)
  | None => normalized
  end.

Definition MapType `{UnicodeTables} (sqlType : string) : GraphQLType :=
  let normalized := strip_params (to_upper (trim_space sqlType)) in
  if bool_decide (normalized ∈ ["INT"; "BIGINT"; "TINYINT"; "SMALLINT"; "INTEGER"; "LARGEINT"])
  then GraphQLInt
  else if bool_decide (normalized ∈ ["FLOAT"; "DOUBLE"]) then GraphQLFloat
  else if bool_decide (normalized ∈ ["VARCHAR"; "STRING"; "CHAR"; "TEXT"]) then GraphQLString
  else if bool_decide (normalized ∈ ["BOOLEAN"; "BOOL"]) then GraphQLBoolean
  else if bool_decide (normalized ∈ ["DECIMAL"; "NUMERIC"]) then GraphQLString
  else if bool_decide (normalized ∈ ["DATETIME"; "DATE"; "TIMESTAMP"]) then GraphQLDateTime
  else if bool_decide (normalized ∈ ["JSON"]) then GraphQLJSON
  else GraphQLString.

(** ** Adapter *)

Record Adapter := {
  name : string;
  config : DataSourceConfig;
  db : bool;
  allowedTables : Whitelist;
  available : bool;
  circuitBreaker : option CircuitBreaker.CircuitBreaker;
}.

Definition NewAdapter (name : string) (config : DataSourceConfig) : result Adapter :=
  match ParseAllowedTables config with
  | Ok wl => Ok {| name := name; config := config; db := false; allowedTables := wl;
                   available := false; circuitBreaker := None |}
  | Err err => Err (Wrap (Sprintf "starrocks adapter %q: %w" [AStr name; AErr err]) err)
  end.

Definition set_conn (d v : bool) (a : Adapter) : Adapter :=
  {| name := name a; config := config a; db := d; allowedTables := allowedTables a;
     available := v; circuitBreaker := circuitBreaker a |}.
Definition SetCircuitBreaker (cb : option CircuitBreaker.CircuitBreaker) (a : Adapter) : Adapter :=
  {| name := name a; config := config a; db := db a; allowedTables := allowedTables a;
     available := available a; circuitBreaker := cb |}.

Definition not_connected (a : Adapter) : error :=
  DatasourceError ErrDatasourceUnavailable
    (Sprintf "starrocks adapter %q is not connected" [AStr (name a)]).

(** [val.([]byte)] becomes a string. *)
Definition convert_bytes (v : GoVal) : GoVal :=
  match v with VBytes b => VString b | _ => v end.

Section Database.
Variable queryDB : stmt -> result Rows.
Variable countDB : stmt -> result Z.
(** [ExecContext], then [RowsAffected] of its result. *)
Variable execDB : stmt -> result (result Z).

Definition Execute (a : Adapter) (req : QueryRequest) : result QueryResult * list stmt :=
  if negb (db a) then (Err (not_connected a), []) else
  match (table ← extractTable (ReqOptions req);
         q ← Build (allowedTables a) req table; Ok (table, q)) with
  | Err e => (Err e, [])
  | Ok (table, q) =>
      match (rows ← or_ds_error ErrDatasourceQueryError "starrocks query failed: %v" (queryDB q);
             or_ds_error ErrDatasourceQueryError "starrocks scan failed: %v"
               (scanRows convert_bytes rows)) with
      | Err e => (Err e, [q])
      | Ok data =>
          if NeedCount req then
            match BuildCount (allowedTables a) req table with
            | Err e => (Err e, [q])
            | Ok cq =>
                match or_ds_error ErrDatasourceQueryError "starrocks count query failed: %v"
                        (countDB cq) with
                | Err e => (Err e, [q; cq])
                | Ok n => (Ok {| Data := data; TotalCount := Some n; Warnings := [] |}, [q; cq])
                end
            end
          else (Ok {| Data := data; TotalCount := None; Warnings := [] |}, [q])
      end
  end.

Definition ExecuteRaw (a : Adapter) (q : stmt) : result QueryResult * list stmt :=
  if negb (db a) then (Err (not_connected a), []) else
  (rows ← or_ds_error ErrDatasourceTemplateQueryError "template query failed: %v" (queryDB q);
   data ← or_ds_error ErrDatasourceTemplateQueryError "template query scan failed: %v"
            (scanRows convert_bytes rows);
   Ok {| Data := data; TotalCount := None; Warnings := [] |}, [q]).

(** [now], [t1], [t2] are the clock readings of [AllowRequest] and [RecordFailure]. *)
Definition ExecuteWrite (now t1 t2 : Z) (a : Adapter) (q : stmt)
    : result Z * Adapter * list stmt :=
  if negb (db a) then (Err (not_connected a), a, []) else
  let '(cb, allowed) :=
    match circuitBreaker a with
    | Some cb => let '(cb', ok) := CircuitBreaker.AllowRequest now cb in (Some cb', ok)
    | None => (None, true)
    end in
  let a1 := SetCircuitBreaker cb a in
  if negb allowed then
    (Err (DatasourceError ErrDatasourceCircuitOpen
            (Sprintf "starrocks adapter %q circuit breaker is open" [AStr (name a)])), a1, [])
  else
    match execDB q with
    | Err err =>
        (Err (DatasourceError ErrDatasourceQueryError (Sprintf "starrocks write failed: %v" [AErr err])),
         SetCircuitBreaker (CircuitBreaker.RecordFailure t1 t2 <$> cb) a1, [q])
    | Ok res =>
        (or_ds_error ErrDatasourceQueryError "starrocks affected rows retrieval failed: %v" res,
         SetCircuitBreaker (CircuitBreaker.RecordSuccess <$> cb) a1, [q])
    end.
End Database.

(** [open] and [ping] are the outcomes of [sql.Open] on the built DSN and of
    [PingContext]; a connected adapter does neither. *)
Definition Connect (dsn : result string) (open_ : result unit) (ping : result unit) (a : Adapter)
    : result unit * Adapter :=
  if db a then (Ok tt, a) else
  match dsn, open_, ping with
  | Err err, _, _ =>
      (Err (Wrap (Sprintf "starrocks adapter %q: build DSN: %w" [AStr (name a); AErr err]) err), a)
  | _, Err err, _ =>
      (Err (Wrap (Sprintf "starrocks adapter %q: open connection: %w" [AStr (name a); AErr err]) err), a)
  | _, _, Err err =>
      (Err (Wrap (Sprintf "starrocks adapter %q: ping failed: %w" [AStr (name a); AErr err]) err), a)
  | Ok _, Ok _, Ok _ => (Ok tt, set_conn true true a)
  end.

Definition IsAvailable (a : Adapter) : bool := available a.

Definition HealthCheck (ping : result unit) (a : Adapter) : result unit * Adapter :=
  if negb (db a) then (Err (not_connected a), a) else
  match ping with
  | Err err =>
      (Err (Wrap (Sprintf "starrocks adapter %q: health check failed: %w" [AStr (name a); AErr err]) err),
       set_conn true false a)
  | Ok _ => (Ok tt, set_conn true true a)
  end.

Definition Close (close : result unit) (a : Adapter) : result unit * Adapter :=
  if db a then
    (match close with
     | Err err => Err (Wrap (Sprintf "starrocks adapter %q: close failed: %w" [AStr (name a); AErr err]) err)
     | Ok _ => Ok tt
     end, set_conn false false a)
  else (Ok tt, set_conn false false a).

(** The connection parameters [buildDSN] puts in its result, or its error. *)
Record DSN := { username : string; password : string; host : string; port : Z;
                database : string; timeout : Z }.
Definition buildDSN (a : Adapter) : result DSN :=
  let conn := Connection (config a) in
  let host := string_or_empty conn "host" in
  if String.eqb host EmptyString then Err (Errorf (Sprintf "missing connection.host" [])) else
  port ← match assoc "port" conn with
         | Some (VInt v) => Ok v
         | Some (VFloat64 v) => Ok (int_of_float v)
         | Some (VString v) =>
             match parse_int v with
             | Some p => Ok p
             | None => Err (Errorf (Sprintf "invalid connection.port: %w" [AStr v]))
             end
         | _ => Ok 9030
         end;
  Ok {| username := string_or_empty conn "username"; password := string_or_empty conn "password";
        host := host; port := port; database := string_or_empty conn "database";
        timeout := getDurationOption (DsOptions (config a)) "connection_timeout" (5 * second) |}.

(** Writes that all fail, at the instants [ts]. *)
Fixpoint failing_writes (err : error) (q : stmt) (ts : list Z) (a : Adapter) : Adapter :=
  match ts with
  | [] => a
  | t :: ts' => failing_writes err q ts' (ExecuteWrite (fun _ => Err err) t t t a q).1.2
  end.

(** ** Demonstration data for the witnesses *)

Definition demo_wl : Whitelist := {[ "orders" := {[ "id" := true; "amount" := true ]} ]}.
Definition demo_filter (v : GoVal) : FilterCondition :=
  {| Field := "amount"; Operator := FilterOpGT; Value := v |}.
Definition demo_req (v : GoVal) : QueryRequest :=
  {| Fields := ["id"]; Filters := [demo_filter v]; OrderBy := [{| OrderField := "id"; Direction := SortDESC |}];
     Pagination := Some {| First := Some 10; After := None; Offset := Some 5; Limit := None |};
     NeedCount := true; ReqOptions := Some [("table", VString "orders")] |}.
Definition demo_adapter : Adapter :=
  {| name := "sr"; config := with_tables []; db := true; allowedTables := demo_wl; available := true;
     circuitBreaker := None |}.
Definition demo_sql : string :=
  "SELECT `id` FROM `orders` WHERE `amount` > ? ORDER BY `id` DESC LIMIT 10 OFFSET 5".

Definition demo_rows : Rows :=
  {| rs_columns := Ok ["id"]; rs_rows := [Ok [VBytes "a7"]]; rs_err := None |}.
Definition demo_cfg : CircuitBreaker.CircuitBreakerConfig :=
  {| CircuitBreaker.FailureThreshold := 2; CircuitBreaker.OpenDuration := second;
     CircuitBreaker.HalfOpenMaxRequests := 1; CircuitBreaker.SuccessThreshold := 1 |}.
Definition demo_tables : list (string * GoVal) :=
  [("orders", VMap [("columns", VSlice [VString "id"; VString "amount"])]);
   ("users", VMap [("columns", VSlice [VString "id"])])].
Definition demo_writable : DataSourceConfig :=
  {| DsName := EmptyString; DsType := EmptyString; Enabled := true; Connection := [];
     DsOptions := [("writable_tables", VMap
       [("orders", VMap [("columns", VSlice [VString "amount"]);
                         ("allowed_operations", VSlice [VString "insert"])])])] |}.
Definition demo_wt : gmap string WritableTableConfig :=
  {[ "orders" := {| Columns := {[ "amount" := true ]}; AllowedOperations := {[ "insert" := true ]} |} ]}.

Example Build_demo v : Build demo_wl (demo_req v) "orders" = Ok (demo_sql, [v]).
Proof. reflexivity. Qed.
Example MapType_demo `{UnicodeTables} :
  map MapType [" varchar(255)"; "decimal(10, 2)"; "BigInt"; "ARRAY<INT>"]
  = [GraphQLString; GraphQLString; GraphQLInt; GraphQLString].
Proof. vm_compute. reflexivity. Qed.

(** ** Lemmas *)

(** Every failure of the read path is a structured error: driver errors are wrapped in a
    [DatasourceError] that does not expose them to [errors.Is]/[errors.As]. *)
Lemma Execute_errors_api queryDB countDB a req e log :
  Execute queryDB countDB a req = (Err e, log) -> is_api_error e = true.
Proof.
  unfold Execute. destruct (db a); simpl; [|by intros [= <- _]].
  destruct (extractTable _) as [t|e1] eqn:Ht; simpl.
  2: { intros [= <- _]. by eapply extractTable_api. }
  destruct (Build _ _ _) as [q|e1] eqn:Hb; simpl.
  2: { intros [= <- _]. by eapply Build_api. }
  destruct (or_ds_error _ _ (queryDB q)) as [rows|e1] eqn:Hq; simpl.
  2: { intros [= <- _]. by eapply or_ds_error_api. }
  destruct (or_ds_error _ _ (scanRows _ _)) as [data|e1] eqn:Hs; simpl.
  2: { intros [= <- _]. by eapply or_ds_error_api. }
  destruct (NeedCount req); [|done].
  destruct (BuildCount _ _ _) as [cq|e1] eqn:Hc; simpl.
  2: { intros [= <- _]. by eapply BuildCount_api. }
  destruct (or_ds_error _ _ (countDB cq)) as [n|e1] eqn:Hn; [done|].
  intros [= <- _]. by eapply or_ds_error_api.
Qed.

(** While the breaker is closed and stays below its threshold, failing writes feed it one
    failure each. *)
Lemma failing_writes_breaker err q ts a cb :
  db a = true -> circuitBreaker a = Some cb -> CircuitBreaker.state cb = CircuitBreaker.CircuitClosed ->
  0 < CircuitBreaker.FailureThreshold (CircuitBreaker.config cb) ->
  CircuitBreaker.failureCount cb + Z.of_nat (length ts)
    <= CircuitBreaker.FailureThreshold (CircuitBreaker.config cb) ->
  failing_writes err q ts a = SetCircuitBreaker (Some (CircuitBreaker.fail_times ts cb)) a.
Proof.
  revert a cb. induction ts as [|t ts IH]; intros a cb Hd Hcb Hs Hp Hlt.
  - destruct a; simpl in *; by subst.
  - simpl. unfold ExecuteWrite. rewrite Hd, Hcb. unfold CircuitBreaker.AllowRequest.
    rewrite Hs. simpl. destruct ts as [|t' ts].
    { simpl. done. }
    rewrite (IH _ (CircuitBreaker.RecordFailure t t cb)); [done|done|done|..];
      unfold CircuitBreaker.RecordFailure; rewrite Hs; cbv zeta; simpl length in *;
      simpl; try lia. case_match; [lia|done].
Qed.

(** ** Theorems *)

(** everything the read path sends is a statement the builder made: at most a page query
    and a count query, each of safe bytes with one [?] per parameter; nothing is sent when
    the adapter is not connected or the request is rejected. *)
Theorem Execute_statements_safe queryDB countDB a req r log :
  Execute queryDB countDB a req = (r, log) ->
  (length log <= 2)%nat
  /\ Forall (fun q => str_forallb sql_byte q.1 = true
                      /\ count_byte "?"%char q.1 = length q.2) log
  /\ (log <> [] -> db a = true /\ exists t, extractTable (ReqOptions req) = Ok t
                      /\ admissible (allowedTables a) req t).
Proof.
  unfold Execute. destruct (db a); simpl; [|intros [= _ <-]; by repeat constructor].
  destruct (extractTable _) as [t|e1] eqn:Ht; simpl; [|intros [= _ <-]; by repeat constructor].
  destruct (Build _ _ _) as [q|e1] eqn:Hb; simpl; [|intros [= _ <-]; by repeat constructor].
  assert (Hadm : admissible (allowedTables a) req t) by (apply Build_admissible; eauto).
  pose proof (proj1 (Build_fragment _ _ _ _ Hb)) as Hq.
  assert (Hone : Forall fragment [q]) by by apply Forall_singleton.
  intros H. assert ((length log <= 2)%nat /\ Forall fragment log); [|split; [tauto|split; [tauto|eauto]]].
  revert H. destruct (_ ≫= _); [|intros [= _ <-]; split; [simpl; lia|done]].
  destruct (NeedCount req); [|intros [= _ <-]; split; [simpl; lia|done]].
  destruct (BuildCount _ _ _) as [cq|e1] eqn:Hc; [|intros [= _ <-]; split; [simpl; lia|done]].
  apply BuildCount_fragment in Hc.
  assert (Htwo : Forall fragment [q; cq]) by by apply Forall_cons, conj; [|apply Forall_singleton].
  destruct (or_ds_error _ _ (countDB cq)); intros [= _ <-]; (split; [simpl; lia|done]).
Qed.

(** writes and the breaker together.  From a connected adapter with a fresh breaker, the
    threshold-th failing write opens the circuit: until the open period has elapsed the next
    write is answered DATASOURCE_CIRCUIT_OPEN and sends nothing to the database, whatever the
    database would have answered. *)
Theorem write_failures_open_circuit cfg a err q ts t now t1 t2 execDB q' :
  db a = true -> circuitBreaker a = Some (CircuitBreaker.NewCircuitBreaker cfg) ->
  Z.of_nat (S (length ts)) = CircuitBreaker.or_default (CircuitBreaker.FailureThreshold cfg) 5 ->
  0 <= now - t < CircuitBreaker.or_default (CircuitBreaker.OpenDuration cfg) (30 * second) ->
  in_int64 (now - t) ->
  let a' := failing_writes err q (ts ++ [t]) a in
  exists msg, ExecuteWrite execDB now t1 t2 a' q'
    = (Err (DatasourceError ErrDatasourceCircuitOpen msg), a', []).
Proof.
  intros Hd Hcb Hn Hnow Hr a'. subst a'.
  set (cb := CircuitBreaker.NewCircuitBreaker cfg) in *.
  rewrite (failing_writes_breaker _ _ _ _ cb); try done; rewrite ?length_app; simpl length; simpl; try lia.
  unfold ExecuteWrite. simpl. rewrite Hd. simpl.
  assert (Hst : CircuitBreaker.state (CircuitBreaker.fail_times (ts ++ [t]) cb) = CircuitBreaker.CircuitOpen
    /\ CircuitBreaker.openedAt (CircuitBreaker.fail_times (ts ++ [t]) cb) = t
    /\ CircuitBreaker.config (CircuitBreaker.fail_times (ts ++ [t]) cb) = CircuitBreaker.config cb).
  { apply CircuitBreaker.fail_times_trip; simpl; try done; lia. }
  destruct Hst as (Hs & Ho & Hc). unfold CircuitBreaker.AllowRequest. rewrite Hs, Ho, Hc.
  unfold time_sub. rewrite clamp64_id by done.
  simpl. rewrite (proj2 (Z.leb_gt _ _)) by lia. eexists. reflexivity.
Qed.

(** ** Witnesses *)

Lemma Build_statement_safe_witness :
  count_byte "?"%char demo_sql = length [VString "1 OR 1=1"]
  /\ [VString "1 OR 1=1"] = concat (map filter_params (Filters (demo_req (VString "1 OR 1=1")))).
Proof. apply (Build_statement_safe demo_wl (demo_req (VString "1 OR 1=1")) "orders" demo_sql). reflexivity. Defined.

Lemma BuildCount_agrees_witness : exists cols from_where tail,
  demo_sql = "SELECT " +:+ cols +:+ from_where +:+ tail
  /\ BuildCount demo_wl (demo_req (VInt 3)) "orders" = Ok ("SELECT COUNT(*)" +:+ from_where, [VInt 3]).
Proof. apply (BuildCount_agrees demo_wl (demo_req (VInt 3)) "orders"). reflexivity. Defined.

Lemma Execute_statements_safe_witness :
  let log := (Execute (fun _ => Ok demo_rows) (fun _ => Ok 1) demo_adapter (demo_req (VInt 3))).2 in
  log = [(demo_sql, [VInt 3]); ("SELECT COUNT(*) FROM `orders` WHERE `amount` > ?", [VInt 3])]
  /\ (length log <= 2)%nat.
Proof.
  split; [reflexivity|].
  exact (proj1 (Execute_statements_safe (fun _ => Ok demo_rows) (fun _ => Ok 1) demo_adapter
    (demo_req (VInt 3)) _ _ eq_refl)).
Defined.

Lemma write_failures_open_circuit_witness : exists msg,
  ExecuteWrite (fun _ => Ok (Ok 1)) 100 100 100
    (failing_writes ErrEOF (demo_sql, []) [10; 20]
       (SetCircuitBreaker (Some (CircuitBreaker.NewCircuitBreaker demo_cfg)) demo_adapter))
    ("DELETE", [])
  = (Err (DatasourceError ErrDatasourceCircuitOpen msg),
     failing_writes ErrEOF (demo_sql, []) [10; 20]
       (SetCircuitBreaker (Some (CircuitBreaker.NewCircuitBreaker demo_cfg)) demo_adapter), []).
Proof.
  apply (write_failures_open_circuit demo_cfg
    (SetCircuitBreaker (Some (CircuitBreaker.NewCircuitBreaker demo_cfg)) demo_adapter)
    ErrEOF (demo_sql, []) [10] 20 100 100 100);
    [reflexivity|reflexivity|reflexivity|vm_compute; intuition discriminate|vm_compute; intuition discriminate].
Defined.

Lemma allowed_tables_wf_witness :
  match ParseAllowedTables (with_tables demo_tables) with Ok wl => wl <> ∅ | Err _ => False end.
Proof.
  destruct (ParseAllowedTables (with_tables demo_tables)) as [wl|e] eqn:E.
  - exact (proj1 (allowed_tables_wf (with_tables demo_tables) wl E)).
  - apply (f_equal (fun r => match r with Ok _ => true | Err _ => false end)) in E.
    vm_compute in E. discriminate E.
Defined.
Lemma allowed_tables_order_independent_witness :
  match ParseAllowedTables (with_tables demo_tables) with
  | Ok wl => ParseAllowedTables (with_tables (reverse demo_tables)) = Ok wl
  | Err _ => False
  end.
Proof.
  destruct (ParseAllowedTables (with_tables demo_tables)) as [wl|e] eqn:E.
  - apply (allowed_tables_order_independent demo_tables (reverse demo_tables)); [|symmetry; apply reverse_Permutation|exact E].
    by apply (bool_decide_unpack (NoDup demo_tables.*1)).
  - apply (f_equal (fun r => match r with Ok _ => true | Err _ => false end)) in E.
    vm_compute in E. discriminate E.
Defined.
Lemma writable_tables_wf_witness :
  ParseWritableTables demo_writable = Ok demo_wt
  /\ true_set (fun o => o ∈ defaultAllowedOperations) {[ "insert" := true ]}.
Proof.
  split; [vm_compute; reflexivity|].
  assert (H : ParseWritableTables demo_writable = Ok demo_wt) by (vm_compute; reflexivity).
  refine (proj2 (proj2 (proj2 (writable_tables_wf demo_writable demo_wt H "orders"
    {| Columns := {[ "amount" := true ]}; AllowedOperations := {[ "insert" := true ]} |} _)))).
  vm_compute. reflexivity.
Defined.
Lemma visits_map_to_list {A} (m : gmap string A) : visits (map_to_list m).*1 m.
Proof.
  split; [apply NoDup_fst_map_to_list|]. intros k. rewrite list_elem_of_fmap. split.
  - intros ([? v] & -> & Hv%elem_of_map_to_list). by exists v.
  - intros [v Hv]. exists (k, v). split; [done|]. by apply elem_of_map_to_list.
Qed.
Lemma visits_demo_wt : visits ["orders"] demo_wt.
Proof.
  split; [by apply (bool_decide_unpack (NoDup ["orders"]))|]. intros k.
  unfold demo_wt. rewrite list_elem_of_singleton. split.
  - intros ->. eexists. apply lookup_singleton_eq.
  - intros [x Hx]. by apply lookup_singleton_Some in Hx as [<- _].
Qed.
Lemma writable_subset_iff_witness :
  ValidateWritableSubset ["orders"] (fun m => (map_to_list m).*1) demo_wt demo_wl = Ok tt
  /\ forall t c, demo_wt !! t = Some c -> exists cols, demo_wl !! t = Some cols /\
    forall col, is_Some (Columns c !! col) -> col_allowed cols col = true.
Proof.
  split; [vm_compute; reflexivity|].
  apply (writable_subset_iff ["orders"] (fun m => (map_to_list m).*1) demo_wt demo_wl).
  - apply visits_demo_wt.
  - intros m. apply visits_map_to_list.
  - vm_compute. reflexivity.
Defined.
