(* ===== verification/ClickHouse.v ===== *)
(** * internal/adapter/clickhouse: dialect, type mapper and adapter

    The ClickHouse instance of the SQL builder, the recursive type mapper with its cache,
    and the adapter, whose reads and health checks also feed the circuit breaker.  A
    context is the deadline or cancellation the caller has already met ([ctx_before]) and
    the one it meets during the driver call ([ctx_after]). *)
From S2P Require Import Prelude GoStrings Values GoConv DataSource SqlCore SqlAdapter Whitelist.
From S2P Require CircuitBreaker.
From S2P Require Import StarRocks.

(** [^[a-zA-Z_][a-zA-Z0-9_]*$]; at most 10000 IN values; LIMIT in 0..100000 and a
    non-negative OFFSET. *)
Definition maxINValues : Z := 10000.
Definition maxQueryLimit : Z := 100000.
Definition clamp_limit (v : Z) : Z :=
  let v := if v <? 0 then 0 else v in if maxQueryLimit <? v then maxQueryLimit else v.
Definition clamp_offset (v : Z) : Z := if v <? 0 then 0 else v.
Definition ident_re (s : string) : bool :=
  match s with String c r => ident_start c && str_forallb ident_char r | EmptyString => false end.
#[export] Instance clickhouse_dialect : Dialect := {
  identifierRe := ident_re;
  inLimit := Some maxINValues;
  clampLimit := clamp_limit;
  clampOffset := clamp_offset;
}.
#[export] Instance clickhouse_laws : DialectLaws clickhouse_dialect.
Proof.
  split. intros [|c r]; [done|]. intros [Hc Hr]%andb_true_iff.
  cbn [str_forallb]. unfold ident_char at 1. by rewrite Hc, Hr.
Qed.

(** query_builder.go and whitelist.go of this package: the text of the StarRocks ones with
    the parameters above. *)
Module QueryBuilder.
Definition ValidateIdentifier := SqlCore.ValidateIdentifier (D := clickhouse_dialect).
Definition validateTable := SqlCore.validateTable (D := clickhouse_dialect).
Definition buildSelectClause := SqlCore.buildSelectClause (D := clickhouse_dialect).
Definition buildINClause := SqlCore.buildINClause (D := clickhouse_dialect).
Definition buildWhereClause := SqlCore.buildWhereClause (D := clickhouse_dialect).
Definition buildOrderByClause := SqlCore.buildOrderByClause (D := clickhouse_dialect).
Definition buildLimitClause := SqlCore.buildLimitClause (D := clickhouse_dialect).
Definition Build := SqlCore.Build (D := clickhouse_dialect).
Definition BuildCount := SqlCore.BuildCount (D := clickhouse_dialect).
Definition ParseAllowedTables := Whitelist.ParseAllowedTables (D := clickhouse_dialect).
End QueryBuilder.

Module TypeMapper.
Section TypeMapper.
Context `{UnicodeTables}.

Definition maxTypeRecursionDepth : nat := 10.

(** The content between the first opening and the last closing parenthesis. *)
Definition extractInner (s : string) : string :=
  match index_byte "("%char s with
  | None => s
  | Some start =>
      match last_index_byte ")"%char s with
      | Some end_ =>
          if (end_ <=? start)%nat then s
          else trim_space (str_take (end_ - S start) (str_drop (S start) s))
      | None => s
      end
  end.

(** The index of the last comma outside nested parentheses. *)
Fixpoint last_comma (i : nat) (depth : Z) (acc : option nat) (s : string) : option nat :=
  match s with
  | EmptyString => acc
  | String ch s' =>
      if Ascii.eqb ch "("%char then last_comma (S i) (depth + 1) acc s'
      else if Ascii.eqb ch ")"%char then last_comma (S i) (depth - 1) acc s'
      else if Ascii.eqb ch ","%char then
        last_comma (S i) depth (if depth =? 0 then Some i else acc) s'
      else last_comma (S i) depth acc s'
  end.
Definition extractLastTypeArg (s : string) : string :=
  let inner := extractInner s in
  if String.eqb inner s then s
  else match last_comma 0 0 None inner with
       | None => inner
       | Some lastComma => trim_space (str_drop (S lastComma) inner)
       end.
Definition stripParams (normalized : string) : string := strip_params normalized.

Definition base_type (base : string) : GraphQLType :=
  if bool_decide (base ∈ ["INT8"; "INT16"; "INT32"; "UINT8"; "UINT16"; "UINT32"]) then GraphQLInt
  else if bool_decide (base ∈ ["INT64"; "UINT64"; "INT128"; "INT256"; "UINT128"; "UINT256"]) then GraphQLString
  else if bool_decide (base ∈ ["FLOAT32"; "FLOAT64"; "BFLOAT16"]) then GraphQLFloat
  else if bool_decide (base ∈ ["STRING"; "FIXEDSTRING"]) then GraphQLString
  else if bool_decide (base ∈ ["BOOL"; "BOOLEAN"]) then GraphQLBoolean
  else if bool_decide (base ∈ ["DECIMAL"; "DECIMAL32"; "DECIMAL64"; "DECIMAL128"; "DECIMAL256"]) then GraphQLString
  else if bool_decide (base ∈ ["DATE"; "DATE32"; "DATETIME"; "DATETIME64"]) then GraphQLDateTime
  else if bool_decide (base ∈ ["TIME"; "TIME64"]) then GraphQLString
  else if bool_decide (base ∈ ["UUID"; "IPV4"; "IPV6"]) then GraphQLString
  else if bool_decide (base ∈ ["ENUM8"; "ENUM16"]) then GraphQLString
  else if bool_decide (base ∈ ["ARRAY"; "TUPLE"; "MAP"; "NESTED"; "JSON"; "VARIANT"; "DYNAMIC"]) then GraphQLJSON
  else if bool_decide (base ∈ ["POINT"; "RING"; "POLYGON"; "MULTIPOLYGON"]) then GraphQLJSON
  else if bool_decide (base ∈ ["AGGREGATEFUNCTION"]) then GraphQLString
  else GraphQLString.

(** [budget] is [maxTypeRecursionDepth + 1 - depth]: at depth 11 the mapper gives up. *)
Fixpoint mapTypeRecursive (budget : nat) (sqlType : string) : GraphQLType :=
  match budget with
  | O => GraphQLString
  | S budget' =>
      let normalized := to_upper (trim_space sqlType) in
      if has_prefix "LOWCARDINALITY(" normalized && has_suffix ")" normalized then
        mapTypeRecursive budget' (extractInner sqlType)
      else if has_prefix "NULLABLE(" normalized && has_suffix ")" normalized then
        mapTypeRecursive budget' (extractInner sqlType)
      else if has_prefix "SIMPLEAGGREGATEFUNCTION(" normalized && has_suffix ")" normalized then
        mapTypeRecursive budget' (extractLastTypeArg sqlType)
      else base_type (stripParams normalized)
  end.
Definition resolve (sqlType : string) : GraphQLType :=
  mapTypeRecursive (S maxTypeRecursionDepth) sqlType.

(** [MapType] with its [sync.Map]. *)
Definition MapType (cache : gmap string GraphQLType) (sqlType : string)
    : GraphQLType * gmap string GraphQLType :=
  match cache !! sqlType with
  | Some t => (t, cache)
  | None => let result := resolve sqlType in (result, <[sqlType := result]> cache)
  end.

(** A run of lookups by any number of callers. *)
Fixpoint map_types (cache : gmap string GraphQLType) (l : list string)
    : list GraphQLType * gmap string GraphQLType :=
  match l with
  | [] => ([], cache)
  | s :: l' =>
      let '(t, c1) := MapType cache s in
      let '(ts, c2) := map_types c1 l' in (t :: ts, c2)
  end.

Definition cache_ok (cache : gmap string GraphQLType) : Prop :=
  forall s t, cache !! s = Some t -> t = resolve s.
End TypeMapper.
End TypeMapper.

Module Adapter.
(** The same record as the StarRocks adapter's. *)
Definition not_connected (a : Adapter) : error :=
  DatasourceError ErrDatasourceUnavailable
    (Sprintf "clickhouse adapter %q is not connected" [AStr (name a)]).

Definition contextError (a : Adapter) (err : error) : error :=
  match err with
  | ContextErr true => DatasourceError ErrDatasourceTimeout
      (Sprintf "clickhouse adapter %q: query timed out" [AStr (name a)])
  | _ => DatasourceError ErrDatasourceUnavailable
      (Sprintf "clickhouse adapter %q: request cancelled" [AStr (name a)])
  end.

(** The deadline [withQueryTimeout] adds: none when the caller has one or when the
    configured timeout is not positive. *)
Definition withQueryTimeout (a : Adapter) (hasDeadline : bool) : option Z :=
  if hasDeadline then None
  else let readTimeout := getDurationOption (DsOptions (StarRocks.config a)) "read_timeout" (30 * second) in
       if readTimeout <=? 0 then None else Some readTimeout.

(** [convertValue] on the values that are not pointers, times or [Stringer]s; the others
    are what [special] makes of them ([None]: not one of those). *)
Definition convertValue (special : GoVal -> option GoVal) (val : GoVal) : GoVal :=
  match val with
  | VNil => VNil
  | VBytes v => VString v
  | VFloatPtr None => VNil
  | VFloatPtr (Some f) => VFloat64 f
  | _ => default val (special val)
  end.

Definition breaker (now : Z) (a : Adapter) : option CircuitBreaker.CircuitBreaker * bool :=
  match circuitBreaker a with
  | Some cb => let '(cb', ok) := CircuitBreaker.AllowRequest now cb in (Some cb', ok)
  | None => (None, true)
  end.
Definition circuit_open (a : Adapter) : error :=
  DatasourceError ErrDatasourceCircuitOpen
    (Sprintf "clickhouse adapter %q circuit breaker is open" [AStr (name a)]).

Section Database.
Variable special : GoVal -> option GoVal.
Variable queryDB : stmt -> result Rows.
Variable countDB : stmt -> result Z.
Variable execDB : stmt -> result (result Z).
(** [ctx.Err()] before the call and after a failed driver call; the clock. *)
Variable ctx_before ctx_after : option error.
Variable now t1 t2 : Z.

(** The error of a failed driver call: the context's when it has ended. *)
Definition driver_error (a : Adapter) (code msg : string) (err : error) : error :=
  match ctx_after with
  | Some ctxErr => contextError a ctxErr
  | None => DatasourceError code (Sprintf msg [AErr err])
  end.

Definition Execute (a : Adapter) (req : QueryRequest) : result QueryResult * Adapter * list stmt :=
  if negb (db a) then (Err (not_connected a), a, []) else
  match ctx_before with Some err => (Err (contextError a err), a, []) | None =>
  let '(cb, allowed) := breaker now a in
  let a1 := SetCircuitBreaker cb a in
  if negb allowed then (Err (circuit_open a), a1, []) else
  match (table ← extractTable (ReqOptions req);
         q ← Build (D := clickhouse_dialect) (allowedTables a) req table; Ok (table, q)) with
  | Err e => (Err e, a1, [])
  | Ok (table, q) =>
      match queryDB q with
      | Err err =>
          (Err (driver_error a ErrDatasourceQueryError "clickhouse query failed: %v" err),
           SetCircuitBreaker (CircuitBreaker.RecordFailure t1 t2 <$> cb) a1, [q])
      | Ok rows =>
          match scanRows (convertValue special) rows with
          | Err err => (Err (DatasourceError ErrDatasourceQueryError
                               (Sprintf "clickhouse scan failed: %v" [AErr err])), a1, [q])
          | Ok data =>
              let a2 := SetCircuitBreaker (CircuitBreaker.RecordSuccess <$> cb) a1 in
              if NeedCount req then
                match BuildCount (D := clickhouse_dialect) (allowedTables a) req table with
                | Err e => (Err e, a2, [q])
                | Ok cq =>
                    match countDB cq with
                    | Err err =>
                        (Err (driver_error a ErrDatasourceQueryError
                                "clickhouse count query failed: %v" err), a2, [q; cq])
                    | Ok n => (Ok {| Data := data; TotalCount := Some n; Warnings := [] |}, a2, [q; cq])
                    end
                end
              else (Ok {| Data := data; TotalCount := None; Warnings := [] |}, a2, [q])
          end
      end
  end end.

Definition ExecuteRaw (a : Adapter) (q : stmt) : result QueryResult * list stmt :=
  if negb (db a) then (Err (not_connected a), []) else
  match ctx_before with Some err => (Err (contextError a err), []) | None =>
  match queryDB q with
  | Err err => (Err (driver_error a ErrDatasourceTemplateQueryError "template query failed: %v" err), [q])
  | Ok rows =>
      (data ← or_ds_error ErrDatasourceTemplateQueryError "template query scan failed: %v"
                (scanRows (convertValue special) rows);
       Ok {| Data := data; TotalCount := None; Warnings := [] |}, [q])
  end end.

Definition ExecuteWrite (a : Adapter) (q : stmt) : result Z * Adapter * list stmt :=
  if negb (db a) then (Err (not_connected a), a, []) else
  match ctx_before with Some err => (Err (contextError a err), a, []) | None =>
  let '(cb, allowed) := breaker now a in
  let a1 := SetCircuitBreaker cb a in
  if negb allowed then (Err (circuit_open a), a1, []) else
  match execDB q with
  | Err err =>
      (Err (driver_error a ErrDatasourceQueryError "clickhouse write failed: %v" err),
       SetCircuitBreaker (CircuitBreaker.RecordFailure t1 t2 <$> cb) a1, [q])
  | Ok res =>
      (or_ds_error ErrDatasourceQueryError "clickhouse affected rows retrieval failed: %v" res,
       SetCircuitBreaker (CircuitBreaker.RecordSuccess <$> cb) a1, [q])
  end end.

Definition HealthCheck (ping : result unit) (a : Adapter) : result unit * Adapter :=
  if negb (db a) then (Err (not_connected a), a) else
  match ping with
  | Err err =>
      (Err (Wrap (Sprintf "clickhouse adapter %q: health check failed: %w" [AStr (name a); AErr err]) err),
       SetCircuitBreaker (CircuitBreaker.RecordFailure t1 t2 <$> circuitBreaker a) (set_conn true false a))
  | Ok _ => (Ok tt, SetCircuitBreaker (CircuitBreaker.RecordSuccess <$> circuitBreaker a)
                      (set_conn true true a))
  end.
End Database.

(** The parameters [Connect] gives the pool. *)
Record Pool := { maxOpenConns : Z; maxIdleConns : Z; connMaxLifetime : Z; connMaxIdleTime : Z }.
Definition pool_params (options : list (string * GoVal)) : Pool :=
  let poolSize := getIntOption options "pool_size" 10 in
  let poolSize := if poolSize <? 1 then 1 else poolSize in
  let idle := getIntOption options "max_idle_conns" 5 in
  let idle := if idle <? 0 then 0 else idle in
  let idle := if poolSize <? idle then poolSize else idle in
  let life := getDurationOption options "conn_max_lifetime" (3600 * second) in
  let life := if life <? 0 then 0 else life in
  let idleTime := getDurationOption options "conn_max_idle_time" (600 * second) in
  let idleTime := if idleTime <? 0 then 0 else idleTime in
  {| maxOpenConns := poolSize; maxIdleConns := idle; connMaxLifetime := life;
     connMaxIdleTime := idleTime |}.

(** The port and the TLS flag [buildDSN] settles on. *)
Definition dsn_port (conn options : list (string * GoVal)) : Z * bool :=
  let '(port, portExplicit) :=
    match assoc "port" conn with
    | Some (VInt v) => (v, true)
    | Some (VFloat64 v) => (int_of_float v, true)
    | Some (VString v) => (default 9000 (parse_int v), true)
    | Some _ => (9000, true)
    | None => (9000, false)
    end in
  let '(port, portExplicit) :=
    if (port <? 1) || (65535 <? port) then (9000, false) else (port, portExplicit) in
  let secure := getBoolOption options "secure" false in
  (if secure && (negb portExplicit || (port =? 9000)) then 9440 else port, secure).
End Adapter.

(** ** Lemmas *)

Module Facts.
Import TypeMapper Adapter.

Definition demo_half_open : CircuitBreaker.CircuitBreaker :=
  CircuitBreaker.to_half_open CircuitBreaker.tripped_default.
Definition demo_ch : StarRocks.Adapter := SetCircuitBreaker (Some demo_half_open) demo_adapter.
Definition bad_req : QueryRequest :=
  {| Fields := ["secret"]; Filters := []; OrderBy := []; Pagination := None; NeedCount := false;
     ReqOptions := Some [("table", VString "orders")] |}.

Lemma MapType_cache `{UnicodeTables} c s :
  cache_ok c -> (MapType c s).1 = resolve s /\ cache_ok (MapType c s).2.
Proof.
  intros Hc. unfold MapType. destruct (c !! s) as [t|] eqn:E; simpl.
  - split; [by apply Hc|done].
  - split; [done|]. intros s' t'. destruct (decide (s = s')) as [->|].
    + rewrite lookup_insert_eq. congruence.
    + rewrite lookup_insert_ne by done. apply Hc.
Qed.

(** the cache is transparent: a run of lookups from an empty cache, with any
    repetitions, answers every type as the uncached resolution does. *)
Theorem map_types_resolve `{UnicodeTables} l : (map_types ∅ l).1 = map resolve l.
Proof.
  assert (Hg : forall c, cache_ok c -> (map_types c l).1 = map resolve l).
  { induction l as [|s l IH]; intros c Hc; [done|]. simpl.
    destruct (MapType_cache c s Hc) as [Ht Hok]. destruct (MapType c s) as [t c1].
    specialize (IH c1 Hok). destruct (map_types c1 l) as [ts c2]. simpl in *. congruence. }
  apply Hg. by intros s t.
Qed.

(** the ClickHouse pagination clause bounds what a client can ask for: whatever
    numbers the request carries, the LIMIT printed is between 0 and 100000 and the OFFSET
    is not negative; a request within the bounds is printed as it is. *)
Theorem clickhouse_limit_bounds v :
  0 <= clampLimit (Dialect := clickhouse_dialect) v <= 100000
  /\ 0 <= clampOffset (Dialect := clickhouse_dialect) v
  /\ (0 <= v <= 100000 -> clampLimit (Dialect := clickhouse_dialect) v = v)
  /\ (0 <= v -> clampOffset (Dialect := clickhouse_dialect) v = v).
Proof.
  simpl. unfold clamp_limit, clamp_offset, maxQueryLimit. cbv zeta.
  repeat split; repeat case_match; lia.
Qed.

Lemma pool_params_range options :
  1 <= maxOpenConns (pool_params options)
  /\ 0 <= maxIdleConns (pool_params options) <= maxOpenConns (pool_params options)
  /\ 0 <= connMaxLifetime (pool_params options) /\ 0 <= connMaxIdleTime (pool_params options).
Proof.
  unfold pool_params. simpl. generalize (getIntOption options "pool_size" 10) as n,
    (getIntOption options "max_idle_conns" 5) as i.
  generalize (getDurationOption options "conn_max_lifetime" (3600 * second)) as l,
    (getDurationOption options "conn_max_idle_time" (600 * second)) as d. intros.
  split; [case_match; lia|]. split; [repeat case_match; lia|]. split; case_match; lia.
Qed.
Lemma dsn_port_range conn options :
  let '(port, secure) := dsn_port conn options in
  1 <= port <= 65535 /\ (secure = true -> port <> 9000).
Proof.
  unfold dsn_port.
  destruct (match assoc "port" conn with
            | Some (VInt v) => (v, true) | Some (VFloat64 v) => (int_of_float v, true)
            | Some (VString v) => (default 9000 (parse_int v), true)
            | Some _ => (9000, true) | None => (9000, false) end) as [port ex].
  destruct ((port <? 1) || (65535 <? port)) eqn:E;
    destruct (getBoolOption options "secure" false), ex; simpl; try (split; [lia|done]);
    try (destruct (port =? 9000) eqn:E9; split; lia); split; lia.
Qed.

(** pool and endpoint parameters stay in range whatever the configuration says: at
    least one open connection, no more idle connections than open ones, no negative
    lifetime, a port that is one, and never the plain port 9000 with TLS. *)
Theorem connect_params_in_range conn options :
  let p := pool_params options in
  let '(port, secure) := dsn_port conn options in
  1 <= maxOpenConns p /\ 0 <= maxIdleConns p <= maxOpenConns p
  /\ 0 <= connMaxLifetime p /\ 0 <= connMaxIdleTime p
  /\ 1 <= port <= 65535 /\ (secure = true -> port <> 9000).
Proof.
  pose proof (pool_params_range options) as Hp. pose proof (dsn_port_range conn options) as Hd.
  cbv zeta. destruct (dsn_port conn options). tauto.
Qed.

(** a request the builder rejects costs a probe.  In HALF_OPEN the breaker is consulted
    before the request is validated, and a rejected request reports no outcome: when the
    last probe goes to an inadmissible request, no statement is sent and every later read,
    at any instant, is refused with DATASOURCE_CIRCUIT_OPEN until a health check reports. *)
Theorem rejected_request_spends_probe special q c ctx now t1 t2 a cb req t r a' log now' req' :
  db a = true -> circuitBreaker a = Some cb ->
  CircuitBreaker.state cb = CircuitBreaker.CircuitHalfOpen ->
  CircuitBreaker.halfOpenRequests cb + 1 = CircuitBreaker.HalfOpenMaxRequests (CircuitBreaker.config cb) ->
  extractTable (ReqOptions req) = Ok t -> ~ admissible (D := clickhouse_dialect) (allowedTables a) req t ->
  Execute special q c None ctx now t1 t2 a req = (r, a', log) ->
  log = [] /\ (exists e, r = Err e)
  /\ Execute special q c None ctx now' t1 t2 a' req' = (Err (circuit_open a), a', []).
Proof.
  intros Hd Hcb Hs Hp Ht Hadm. unfold Execute. rewrite Hd. unfold breaker. rewrite Hcb. simpl.
  destruct (CircuitBreaker.probe_granted now cb Hs) as (cb' & Ha & Hs' & _ & Hg & Hh); [lia|].
  rewrite Ha. simpl. rewrite Ht. simpl.
  destruct (Build (allowedTables a) req t) as [x|e] eqn:Hb.
  { destruct Hadm. apply Build_admissible. eauto. }
  simpl. intros [= <- <- <-]. split; [done|]. split; [eauto|]. simpl.
  rewrite Hd. simpl. unfold CircuitBreaker.AllowRequest. rewrite Hs'.
  unfold CircuitBreaker.allow_probe. rewrite Hg, (proj2 (Z.ltb_ge _ _)) by lia. done.
Qed.

(** Every failure of a read is a structured error. *)
Lemma ch_Execute_errors_api special q c cb ca now t1 t2 a req e a' log :
  Execute special q c cb ca now t1 t2 a req = (Err e, a', log) -> is_api_error e = true.
Proof.
  assert (Hctx : forall er, is_api_error (contextError a er) = true) by (intros er; unfold contextError; by repeat case_match).
  unfold Execute. destruct (db a); simpl; [|by intros [= <- _ _]].
  destruct cb; [intros [= <- _ _]; apply Hctx|].
  destruct (breaker now a) as [b []]; simpl; [|by intros [= <- _ _]].
  destruct (extractTable _) as [t|e1] eqn:Ht; simpl.
  2: { intros [= <- _ _]. by eapply extractTable_api. }
  destruct (Build _ _ _) as [x|e1] eqn:Hb; simpl.
  2: { intros [= <- _ _]. by eapply Build_api. }
  assert (Hdrv : forall code msg er, is_api_error (driver_error ca a code msg er) = true).
  { intros. unfold driver_error. destruct ca; [apply Hctx|done]. }
  destruct (q x); [|intros [= <- _ _]; apply Hdrv].
  destruct (scanRows _ _); [|by intros [= <- _ _]].
  destruct (NeedCount req); [|done].
  destruct (BuildCount _ _ _) as [y|e1] eqn:Hc; simpl.
  2: { intros [= <- _ _]. by eapply BuildCount_api. }
  destruct (c y); [done|]. intros [= <- _ _]. apply Hdrv.
Qed.

(** ** Witnesses *)

Lemma rejected_request_spends_probe_witness :
  let a' := (Execute (fun _ => None) (fun _ => Err ErrEOF) (fun _ => Err ErrEOF) None None 1 1 1
               demo_ch bad_req).1.2 in
  Execute (fun _ => None) (fun _ => Err ErrEOF) (fun _ => Err ErrEOF) None None (1000 * second) 1 1
    a' (demo_req VNil)
  = (Err (circuit_open demo_ch), a', []).
Proof.
  intros a'.
  refine (proj2 (proj2 (rejected_request_spends_probe (fun _ => None) (fun _ => Err ErrEOF)
    (fun _ => Err ErrEOF) None 1 1 1 demo_ch demo_half_open bad_req "orders" _ a' []
    (1000 * second) (demo_req VNil) eq_refl eq_refl eq_refl eq_refl eq_refl _ eq_refl))).
  intros [x Hx]%Build_admissible. discriminate Hx.
Defined.

Example resolve_demo `{UnicodeTables} :
  map resolve ["LowCardinality(Nullable(String))"; " nullable( DateTime64(3, 'UTC') )";
               "SimpleAggregateFunction(anyLast, Array(UInt8))"; "Decimal(10,2)"; "Nullable(UInt64)"]
  = [GraphQLString; GraphQLDateTime; GraphQLJSON; GraphQLString; GraphQLString].
Proof. vm_compute. reflexivity. Qed.
End Facts.
