(* ===== verification/MutationSql.v ===== *)
(** * internal/adapter/starrocks: the write path's validation and SQL

    mutation_validator.go, writable_table_validator.go and mutation_sql_builder.go.  The
    builder never fails: its callers validate first, and the theorems take the validator's
    acceptance as their hypothesis. *)
From S2P Require Import Prelude GoStrings Values DataSource SqlCore Whitelist StarRocks.

(** ** mutation_validator.go *)

Definition maxIdentifierLength : Z := 128.
(** [^[a-zA-Z_][a-zA-Z0-9_]*$]. *)
Definition mutationIdentifierRe (s : string) : bool :=
  match s with String c r => ident_start c && str_forallb ident_char r | EmptyString => false end.

Definition ValidateMutationIdentifier (name : string) : result unit :=
  if String.eqb name EmptyString then
    Err (ValidationError ErrValidationInvalidField (Sprintf "identifier must not be empty" []))
  else if maxIdentifierLength <? slen name then
    Err (ValidationError ErrValidationInvalidField
      (Sprintf "identifier length %d exceeds maximum allowed %d" [AInt (slen name); AInt maxIdentifierLength]))
  else if mutationIdentifierRe name then Ok tt
  else Err (ValidationError ErrValidationInvalidField
    (Sprintf "identifier %q does not match required pattern [a-zA-Z_][a-zA-Z0-9_]*" [AStr name])).

Record MutationValidator := { maxBatchSize : Z; maxSQLLength : Z }.

(** [ValidateMutationIdentifier] under another code and message. *)
Definition check_ident (code msg name : string) : result unit :=
  match ValidateMutationIdentifier name with
  | Ok _ => Ok tt
  | Err err => Err (ValidationError code (Sprintf msg [AErr err]))
  end.
Definition len {A} (l : list A) : Z := Z.of_nat (length l).
Definition bad_field (msg : string) (args : list arg) : error :=
  ValidationError ErrValidationInvalidField (Sprintf msg args).

Definition ValidateInsertInput (table : string) (columns : list string) (values : list GoVal)
    : result unit :=
  _ ← check_ident ErrValidationInvalidTable "invalid table name: %s" table;
  _ ← guard_err (len values =? 0) (bad_field "insert values must not be empty" []);
  _ ← guard_err (negb (len columns =? len values))
        (bad_field "columns count (%d) must equal values count (%d)"
           [AInt (len columns); AInt (len values)]);
  forR (check_ident ErrValidationInvalidField "invalid column name: %s") columns.

Definition ValidateUpdateInput (table : string) (setCols : list string) (filters : list FilterCondition)
    : result unit :=
  _ ← check_ident ErrValidationInvalidTable "invalid table name: %s" table;
  _ ← guard_err (len setCols =? 0) (bad_field "update SET columns must not be empty" []);
  _ ← guard_err (len filters =? 0)
        (bad_field "update filters must not be empty; unfiltered updates are not permitted" []);
  _ ← forR (check_ident ErrValidationInvalidField "invalid SET column name: %s") setCols;
  forR (fun f => check_ident ErrValidationInvalidField "invalid filter field name: %s" (Field f)) filters.

Definition ValidateDeleteInput (table : string) (filters : list FilterCondition) : result unit :=
  _ ← check_ident ErrValidationInvalidTable "invalid table name: %s" table;
  _ ← guard_err (len filters =? 0)
        (bad_field "delete filters must not be empty; unfiltered deletes are not permitted" []);
  forR (fun f => check_ident ErrValidationInvalidField "invalid filter field name: %s" (Field f)) filters.

Definition ValidateBatchInsertInput (p : option MutationValidator) (table : string) (columns : list string)
    (rows : list (list GoVal)) : result unit :=
  _ ← check_ident ErrValidationInvalidTable "invalid table name: %s" table;
  v ← deref p;
  _ ← guard_err (maxBatchSize v <? len rows)
        (ValidationError ErrValidationBatchLimitExceeded
           (Sprintf "batch size %d exceeds maximum allowed %d" [AInt (len rows); AInt (maxBatchSize v)]));
  _ ← guard_err (len columns =? 0) (bad_field "batch insert columns must not be empty" []);
  _ ← forR (check_ident ErrValidationInvalidField "invalid column name: %s") columns;
  forR (fun ir : Z * list GoVal =>
    guard_err (negb (len ir.2 =? len columns))
      (bad_field "row %d has %d values, expected %d (column count)"
         [AInt ir.1; AInt (len ir.2); AInt (len columns)])) (indexed rows).

Definition ValidateSQLLength (p : option MutationValidator) (sql : string) : result unit :=
  v ← deref p;
  guard_err (maxSQLLength v <? slen sql)
    (ValidationError ErrValidationPayloadTooLarge
       (Sprintf "SQL statement length %d exceeds maximum allowed %d" [AInt (slen sql); AInt (maxSQLLength v)])).

(** ** writable_table_validator.go

    Both validators are pointers, nil when the server started with mutations disabled; a
    method on a nil one runs up to its first read of a field. *)

Record WritableTableValidator := {
  writableTables : gmap string WritableTableConfig;
  vAllowedTables : Whitelist;
}.
Definition not_writable (table : string) : error :=
  ValidationError ErrValidationInvalidTable
    (Sprintf "table %q is not in the writable tables whitelist" [AStr table]).

Definition ValidateTable (p : option WritableTableValidator) (table : string) : result unit :=
  v ← deref p;
  match writableTables v !! table with Some _ => Ok tt | None => Err (not_writable table) end.
Definition ValidateOperation (p : option WritableTableValidator) (table operation : string) : result unit :=
  v ← deref p;
  match writableTables v !! table with
  | None => Err (not_writable table)
  | Some cfg =>
      guard_err (negb (col_allowed (AllowedOperations cfg) operation))
        (NewAPIError ErrMutationOperationNotSupported
           (Sprintf "operation %q is not allowed on table %q" [AStr operation; AStr table]) 400)
  end.
Definition ValidateWriteColumns (p : option WritableTableValidator) (table : string) (columns : list string)
    : result unit :=
  v ← deref p;
  match writableTables v !! table with
  | None => Err (not_writable table)
  | Some cfg =>
      forR (fun col => guard_err (negb (col_allowed (Columns cfg) col))
        (bad_field "column %q is not in the writable whitelist for table %q" [AStr col; AStr table]))
        columns
  end.
Definition ValidateFilterColumns (p : option WritableTableValidator) (table : string) (fields : list string)
    : result unit :=
  v ← deref p;
  match vAllowedTables v !! table with
  | None => Err (ValidationError ErrValidationInvalidTable
                   (Sprintf "table %q is not in the allowed tables whitelist" [AStr table]))
  | Some allowedCols =>
      forR (fun field => guard_err (negb (col_allowed allowedCols field))
        (bad_field "filter field %q is not in the allowed columns for table %q" [AStr field; AStr table]))
        fields
  end.

(** ** mutation_sql_builder.go *)

Record MutationSQL := { SQL : string; Params : list GoVal }.

(** The [", "]-separated loops. *)
Definition column_list (columns : list string) : string := join ", " (map quoteIdentifier columns).
Definition holes {A} (l : list A) : string := join ", " (map (fun _ => "?") l).

Definition BuildInsert (table : string) (columns : list string) (values : list GoVal) : MutationSQL :=
  {| SQL := "INSERT INTO " +:+ quoteIdentifier table +:+ " (" +:+ column_list columns
              +:+ ") VALUES (" +:+ holes values +:+ ")";
     Params := values |}.

(** One iteration of [buildMutationWhereClause]; an unknown operator adds nothing. *)
Definition mutation_in (col op : string) (v : GoVal) : string * list GoVal :=
  match v with
  | VSlice (x :: l) => (col +:+ " " +:+ op +:+ " (" +:+ holes (x :: l) +:+ ")", x :: l)
  | _ => (col +:+ " " +:+ op +:+ " (?)", [v])
  end.
Definition mutation_where_one (f : FilterCondition) : list (string * list GoVal) :=
  let col := quoteIdentifier (Field f) in
  match Operator f with
  | FilterOpEQ => [(col +:+ " = ?", [Value f])]
  | FilterOpNEQ => [(col +:+ " != ?", [Value f])]
  | FilterOpGT => [(col +:+ " > ?", [Value f])]
  | FilterOpGTE => [(col +:+ " >= ?", [Value f])]
  | FilterOpLT => [(col +:+ " < ?", [Value f])]
  | FilterOpLTE => [(col +:+ " <= ?", [Value f])]
  | FilterOpLIKE => [(col +:+ " LIKE ?", [Value f])]
  | FilterOpIN => [mutation_in col "IN" (Value f)]
  | FilterOpNOT_IN => [mutation_in col "NOT IN" (Value f)]
  | FilterOpIS_NULL => [(col +:+ " IS NULL", [])]
  | FilterOpIS_NOT_NULL => [(col +:+ " IS NOT NULL", [])]
  | FilterOpOther _ => []
  end.
Definition buildMutationWhereClause (filters : list FilterCondition) : string * list GoVal :=
  let cps := concat (map mutation_where_one filters) in
  (join " AND " cps.*1, concat cps.*2).

Definition BuildUpdate (table : string) (setCols : list string) (setVals : list GoVal)
    (filters : list FilterCondition) : MutationSQL :=
  let '(whereClause, whereParams) := buildMutationWhereClause filters in
  {| SQL := "UPDATE " +:+ quoteIdentifier table +:+ " SET "
              +:+ join ", " (map (fun c => quoteIdentifier c +:+ " = ?") setCols)
              +:+ " WHERE " +:+ whereClause;
     Params := setVals ++ whereParams |}.
Definition BuildDelete (table : string) (filters : list FilterCondition) : MutationSQL :=
  let '(whereClause, params) := buildMutationWhereClause filters in
  {| SQL := "DELETE FROM " +:+ quoteIdentifier table +:+ " WHERE " +:+ whereClause; Params := params |}.
Definition BuildBatchInsert (table : string) (columns : list string) (rows : list (list GoVal))
    : MutationSQL :=
  let rowTemplate := "(" +:+ holes columns +:+ ")" in
  {| SQL := "INSERT INTO " +:+ quoteIdentifier table +:+ " (" +:+ column_list columns +:+ ") VALUES "
              +:+ join ", " (map (fun _ => rowTemplate) rows);
     Params := concat rows |}.

(** ** Vocabulary of the theorems *)

Definition mut_ident (s : string) : Prop :=
  mutationIdentifierRe s = true /\ slen s <= maxIdentifierLength.
(** A statement of safe bytes with a [?] per parameter. *)
Definition well_formed (m : MutationSQL) : Prop := fragment (SQL m, Params m).
(** A filter the GraphQL layer can produce: a known operator. *)
Definition known_op (f : FilterCondition) : bool :=
  match Operator f with FilterOpOther _ => false | _ => true end.

(** ** Lemmas *)

Lemma ValidateMutationIdentifier_Ok s : ValidateMutationIdentifier s = Ok tt <-> mut_ident s.
Proof.
  unfold ValidateMutationIdentifier, mut_ident.
  destruct (String.eqb_spec s EmptyString) as [->|]; [split; [done|by intros []]|].
  destruct (maxIdentifierLength <? slen s) eqn:E; [split; [done|lia]|].
  destruct (mutationIdentifierRe s); [|naive_solver]. split; [intros _; split; [done|lia]|done].
Qed.

Lemma check_ident_Ok c m s : check_ident c m s = Ok tt <-> mut_ident s.
Proof.
  unfold check_ident. rewrite <- ValidateMutationIdentifier_Ok.
  destruct (ValidateMutationIdentifier s) as [[]|]; naive_solver.
Qed.

(** A mutation identifier is an identifier of the read side too. *)
Lemma mut_ident_sr s : mut_ident s -> identifierRe s = true.
Proof.
  intros [H _]. destruct s as [|c r]; [done|]. apply andb_true_iff in H as [Hc Hr].
  simpl. unfold ident_char at 1. by rewrite Hc, Hr.
Qed.

Lemma forR_ident code msg l :
  forR (check_ident code msg) l = Ok tt <-> Forall mut_ident l.
Proof. rewrite forR_Ok. by setoid_rewrite check_ident_Ok. Qed.

Lemma ident_fragment s : mut_ident s -> fragment (quoteIdentifier s, []).
Proof. intros H%mut_ident_sr. by apply quote_bytes. Qed.

Lemma column_list_fragment cols : Forall mut_ident cols -> fragment (column_list cols, []).
Proof.
  intros H. apply join_fragment_text; [done|]. apply Forall_map.
  eapply Forall_impl; [exact H|]. intros c. apply ident_fragment.
Qed.

Lemma mutation_where_fragment f : mut_ident (Field f) -> Forall fragment (mutation_where_one f).
Proof.
  intros Hi. pose proof (ident_fragment _ Hi) as Hq.
  assert (Hs : forall t ps, fragment (t, ps) -> fragment (quoteIdentifier (Field f) +:+ t, ps)).
  { intros t ps. by apply (fragment_app _ _ [] ps). }
  assert (Hin : forall op v, fragment (op, []) -> fragment (mutation_in (quoteIdentifier (Field f)) op v)).
  { intros op v Hop.
    assert (Hh : forall h ps, fragment (h, ps) -> fragment
       (quoteIdentifier (Field f) +:+ " " +:+ op +:+ " (" +:+ h +:+ ")", ps)).
    { intros h ps Hh. apply Hs. apply (fragment_app " " _ [] ps); [done|].
      apply (fragment_app op _ [] ps); [done|]. apply (fragment_app " (" _ [] ps); [done|].
      rewrite <- (app_nil_r ps). by apply fragment_app. }
    unfold mutation_in. destruct v; try by apply (Hh "?" [_]).
    destruct l; [by apply (Hh "?" [_])|]. apply Hh. apply holes_bytes. }
  unfold mutation_where_one. destruct (Operator f); try (apply Forall_singleton; by apply Hs).
  - by apply Forall_singleton, Hin.
  - by apply Forall_singleton, Hin.
  - constructor.
Qed.

Lemma where_fragment fs :
  Forall (fun f => mut_ident (Field f)) fs -> fragment (buildMutationWhereClause fs).
Proof.
  intros H. apply join_fragment; [done|]. induction H; simpl; [constructor|].
  apply Forall_app. split; [by apply mutation_where_fragment|done].
Qed.

Lemma mutation_clause_nonempty f cp : cp ∈ mutation_where_one f -> cp.1 <> EmptyString.
Proof.
  unfold mutation_where_one, mutation_in. intros H. destruct (Operator f);
    repeat case_match; apply list_elem_of_singleton in H || (by apply elem_of_nil in H); by subst.
Qed.

Lemma where_nonempty fs :
  fs <> [] -> forallb known_op fs = true -> (buildMutationWhereClause fs).1 <> EmptyString.
Proof.
  destruct fs as [|f fs]; [done|]. simpl. intros _ [Hf _]%andb_true_iff.
  assert (exists cp, mutation_where_one f = [cp]) as [cp Hcp].
  { unfold known_op in Hf. unfold mutation_where_one. destruct (Operator f); eauto. done. }
  pose proof (mutation_clause_nonempty f cp) as Hne. rewrite Hcp in *. simpl.
  specialize (Hne ltac:(by left)). destruct cp as [c ps]. simpl in *.
  destruct (concat (map mutation_where_one fs)); simpl; [done|]. by destruct c.
Qed.

Lemma values_fragment {A} (l : list A) (ps : list GoVal) open_ close :
  length l = length ps -> fragment (open_, []) -> fragment (close, []) ->
  fragment (open_ +:+ holes l +:+ close, ps).
Proof.
  intros Hl Ho Hc. apply (fragment_app open_ _ [] ps); [done|]. rewrite <- (app_nil_r ps).
  apply fragment_app; [|done]. destruct (holes_bytes l) as [Hb Hn].
  split; simpl; [done|]. by rewrite <- Hl.
Qed.

Lemma insert_head_fragment t cols tail ps :
  mut_ident t -> Forall mut_ident cols -> fragment (tail, ps) ->
  fragment ("INSERT INTO " +:+ quoteIdentifier t +:+ " (" +:+ column_list cols +:+ tail, ps).
Proof.
  intros Ht Hc Htl. apply (fragment_app "INSERT INTO " _ [] ps); [done|].
  apply (fragment_app _ _ [] ps); [by apply ident_fragment|].
  apply (fragment_app " (" _ [] ps); [done|].
  apply (fragment_app _ _ [] ps); [by apply column_list_fragment|done].
Qed.

Lemma insert_fragment t cols vals :
  ValidateInsertInput t cols vals = Ok tt -> well_formed (BuildInsert t cols vals).
Proof.
  unfold ValidateInsertInput. intros H. result_inv.
  match goal with H : check_ident _ _ _ = _ |- _ => apply check_ident_Ok in H end.
  match goal with H : forR _ _ = _ |- _ => apply forR_ident in H end.
  apply insert_head_fragment; [done|done|].
  by apply (values_fragment vals vals ") VALUES (" ")").
Qed.

Lemma set_fragment cols (vals : list GoVal) :
  Forall mut_ident cols -> length cols = length vals ->
  fragment (join ", " (map (fun c => quoteIdentifier c +:+ " = ?") cols), vals).
Proof.
  intros Hc Hl.
  pose proof (join_fragment ", " (zip_with (fun c v => (quoteIdentifier c +:+ " = ?", [v])) cols vals)) as Hj.
  assert (Hz : forall vals, length cols = length vals ->
    (zip_with (fun c (v : GoVal) => (quoteIdentifier c +:+ " = ?", [v])) cols vals).*1
      = map (fun c => quoteIdentifier c +:+ " = ?") cols
    /\ concat (zip_with (fun c (v : GoVal) => (quoteIdentifier c +:+ " = ?", [v])) cols vals).*2 = vals).
  { clear. induction cols as [|c cols IH]; intros [|v vals]; simpl; try done.
    intros [= Hl]. destruct (IH _ Hl) as [H1 H2]. split; by f_equal. }
  destruct (Hz _ Hl) as [Hz1 Hz2]. rewrite Hz1, Hz2 in Hj. apply Hj; [done|]. clear -Hc.
  revert vals. induction Hc as [|c cols Hc Hcs IH]; intros [|v vals]; simpl; constructor; auto.
  apply (fragment_app _ _ [] [v]); [by apply ident_fragment|done].
Qed.

Lemma update_fragment t cols vals fs :
  ValidateUpdateInput t cols fs = Ok tt -> length cols = length vals ->
  well_formed (BuildUpdate t cols vals fs).
Proof.
  unfold ValidateUpdateInput. intros H Hl. result_inv.
  match goal with H : check_ident _ _ t = _ |- _ => apply check_ident_Ok in H; rename H into Ht end.
  match goal with H : forR _ cols = _ |- _ => apply forR_ident in H; rename H into Hc end.
  match goal with H : forR _ fs = _ |- _ => rewrite forR_Ok in H; rename H into Hf end.
  setoid_rewrite check_ident_Ok in Hf. unfold well_formed, BuildUpdate.
  pose proof (where_fragment _ Hf) as Hw. destruct (buildMutationWhereClause fs) as [w ps]. simpl.
  change (fragment ("UPDATE " +:+ quoteIdentifier t +:+ " SET "
     +:+ join ", " (map (fun c => quoteIdentifier c +:+ " = ?") cols) +:+ " WHERE " +:+ w, vals ++ ps)).
  apply (fragment_app "UPDATE " _ [] (vals ++ ps)); [done|].
  apply (fragment_app _ _ [] (vals ++ ps)); [by apply ident_fragment|].
  apply (fragment_app " SET " _ [] (vals ++ ps)); [done|].
  apply fragment_app; [by apply set_fragment|]. by apply (fragment_app " WHERE " _ [] ps).
Qed.

Lemma delete_fragment t fs :
  ValidateDeleteInput t fs = Ok tt -> well_formed (BuildDelete t fs).
Proof.
  unfold ValidateDeleteInput. intros H. result_inv.
  match goal with H : check_ident _ _ t = _ |- _ => apply check_ident_Ok in H; rename H into Ht end.
  match goal with H : forR _ fs = _ |- _ => rewrite forR_Ok in H; rename H into Hf end.
  setoid_rewrite check_ident_Ok in Hf. unfold well_formed, BuildDelete.
  pose proof (where_fragment _ Hf) as Hw. destruct (buildMutationWhereClause fs) as [w ps]. simpl.
  change (fragment ("DELETE FROM " +:+ quoteIdentifier t +:+ " WHERE " +:+ w, ps)).
  apply (fragment_app "DELETE FROM " _ [] ps); [done|].
  apply (fragment_app _ _ [] ps); [by apply ident_fragment|]. by apply (fragment_app " WHERE " _ [] ps).
Qed.

Lemma indexed_width {A} (w : Z) (rows : list (list A)) i :
  Forall (fun ir : Z * list A => len ir.2 = w) (indexed_from i rows) -> Forall (fun r => len r = w) rows.
Proof. revert i. induction rows; intros i; simpl; inversion 1; subst; constructor; eauto. Qed.

Lemma batch_widths p t cols rows :
  ValidateBatchInsertInput p t cols rows = Ok tt ->
  mut_ident t /\ Forall mut_ident cols /\ cols <> []
  /\ (exists v, p = Some v /\ len rows <= maxBatchSize v)
  /\ Forall (fun r => len r = len cols) rows.
Proof.
  unfold ValidateBatchInsertInput. intros H. result_inv.
  match goal with H : check_ident _ _ t = _ |- _ => apply check_ident_Ok in H end.
  match goal with H : forR _ cols = _ |- _ => apply forR_ident in H end.
  match goal with H : forR _ (indexed rows) = _ |- _ => rewrite forR_Ok in H; rename H into Hr end.
  match goal with H : deref p = _ |- _ => apply deref_Ok in H as -> end.
  split; [done|]. split; [done|]. split; [by intros ->|]. split; [eexists; split; [done|lia]|].
  apply (indexed_width _ _ 0). eapply Forall_impl; [exact Hr|].
  intros ir Hir%guard_err_Ok. lia.
Qed.

Lemma batch_fragment v t cols rows :
  ValidateBatchInsertInput v t cols rows = Ok tt -> well_formed (BuildBatchInsert t cols rows).
Proof.
  intros (Ht & Hc & Hne & _ & Hw)%batch_widths. apply insert_head_fragment; [done|done|].
  apply (fragment_app ") VALUES " _ [] (concat rows)); [done|].
  pose proof (join_fragment ", " (map (fun r => ("(" +:+ holes cols +:+ ")", r)) rows)) as Hj.
  rewrite <- !list_fmap_compose in Hj.
  assert (Hid : concat (snd ∘ (fun r : list GoVal => ("(" +:+ holes cols +:+ ")", r)) <$> rows) = concat rows)
    by (f_equal; apply list_fmap_id).
  rewrite Hid in Hj. apply Hj; [done|]. apply Forall_map. eapply Forall_impl; [exact Hw|].
  intros r Hr. apply values_fragment; unfold len in Hr; [lia|done|done].
Qed.

(** ** Theorems *)

(** on validated input each of the four builders makes a well-formed statement: safe
    bytes only and exactly one [?] per parameter.  (The resolver makes as many SET values
    as SET columns, which the update validator does not look at.) *)
Theorem mutation_statements_well_formed v t cols vals fs rows :
  (ValidateInsertInput t cols vals = Ok tt -> well_formed (BuildInsert t cols vals))
  /\ (ValidateUpdateInput t cols fs = Ok tt -> length cols = length vals ->
      well_formed (BuildUpdate t cols vals fs))
  /\ (ValidateDeleteInput t fs = Ok tt -> well_formed (BuildDelete t fs))
  /\ (ValidateBatchInsertInput v t cols rows = Ok tt -> well_formed (BuildBatchInsert t cols rows)).
Proof.
  split; [apply insert_fragment|]. split; [apply update_fragment|].
  split; [apply delete_fragment|apply batch_fragment].
Qed.

(** C17: no unfiltered UPDATE or DELETE: a validated update or delete whose filters use the
    operators of the schema has a non-empty condition after its [WHERE]. *)
Theorem no_unfiltered_write t cols vals fs :
  forallb known_op fs = true ->
  (ValidateUpdateInput t cols fs = Ok tt -> exists w, w <> EmptyString /\
     SQL (BuildUpdate t cols vals fs) = "UPDATE " +:+ quoteIdentifier t +:+ " SET "
       +:+ join ", " (map (fun c => quoteIdentifier c +:+ " = ?") cols) +:+ " WHERE " +:+ w)
  /\ (ValidateDeleteInput t fs = Ok tt -> exists w, w <> EmptyString /\
     SQL (BuildDelete t fs) = "DELETE FROM " +:+ quoteIdentifier t +:+ " WHERE " +:+ w).
Proof.
  intros Hk. assert (Hne : len fs =? 0 = false -> (buildMutationWhereClause fs).1 <> EmptyString).
  { intros Hl. apply where_nonempty; [|done]. by intros ->. }
  unfold ValidateUpdateInput, ValidateDeleteInput, BuildUpdate, BuildDelete.
  destruct (buildMutationWhereClause fs) as [w ps]. simpl in *.
  split; intros H; result_inv; exists w; (split; [auto|done]).
Qed.

(** injection safety of writes: the text of a write depends on the table, the columns,
    the fields and operators of its filters and the number of values, never on a value. *)
Theorem mutation_text_ignores_values t cols vals vals' fs rows rows' :
  length vals = length vals' -> length rows = length rows' ->
  SQL (BuildInsert t cols vals) = SQL (BuildInsert t cols vals')
  /\ SQL (BuildUpdate t cols vals fs) = SQL (BuildUpdate t cols vals' (map erase_filter fs))
  /\ SQL (BuildDelete t fs) = SQL (BuildDelete t (map erase_filter fs))
  /\ SQL (BuildBatchInsert t cols rows) = SQL (BuildBatchInsert t cols rows').
Proof.
  intros Hv Hr.
  assert (Hc : forall A B C (c : C) (l : list A) (l' : list B), length l = length l' ->
    map (fun _ => c) l = map (fun _ => c) l').
  { intros A B C c l. induction l as [|x l IH]; intros [|y l']; simpl; try done.
    intros [= H]. f_equal. by apply IH. }
  assert (Hw : (buildMutationWhereClause fs).1 = (buildMutationWhereClause (map erase_filter fs)).1).
  { unfold buildMutationWhereClause. simpl. f_equal. induction fs as [|f fs IH]; [done|].
    simpl. rewrite !fmap_app. f_equal; [|done]. unfold mutation_where_one, mutation_in. simpl.
    destruct (Operator f); try done; destruct (Value f) as [| | | | | | | | | | |[|x l]| | | | | |]; try done;
      simpl; unfold holes; by rewrite (Hc _ _ _ _ (x :: l) (VNil :: map (fun _ => VNil) l))
        by (simpl; by rewrite length_map). }
  unfold BuildUpdate, BuildDelete. simpl in *.
  repeat split; simpl; unfold holes; rewrite ?Hw; try done.
  - by rewrite (Hc _ _ _ _ vals vals').
  - by rewrite (Hc _ _ _ _ rows rows').
Qed.

(** a batch of one row is a single insert: same text, same parameters. *)
Theorem batch_of_one_is_insert t cols row :
  length cols = length row -> BuildBatchInsert t cols [row] = BuildInsert t cols row.
Proof.
  intros Hl. unfold BuildBatchInsert, BuildInsert. simpl. rewrite app_nil_r. f_equal.
  assert (Hh : holes cols = holes row).
  { unfold holes. f_equal. revert row Hl. induction cols as [|c cols IH]; intros [|r row]; simpl; try done.
    intros [= H]. f_equal. by apply IH. }
  by rewrite Hh.
Qed.

(** writes stay within reads: after the start-up check every column the write
    validator accepts for a table is one the filter validator accepts for it. *)
Theorem write_columns_readable worder corder v t cols :
  visits worder (writableTables v) -> (forall m, visits (corder m) m) ->
  ValidateWritableSubset worder corder (writableTables v) (vAllowedTables v) = Ok tt ->
  ValidateWriteColumns (Some v) t cols = Ok tt -> ValidateFilterColumns (Some v) t cols = Ok tt.
Proof.
  intros Hw Hc Hs. pose proof (proj1 (subset_iff _ _ _ _ Hw Hc) Hs) as Hsub.
  unfold ValidateWriteColumns, ValidateFilterColumns, mbind, result_bind. cbn [deref].
  destruct (writableTables v !! t) as [c|] eqn:Ht; [|done].
  destruct (Hsub t c Ht) as (acols & -> & Hcol). rewrite !forR_Ok, !Forall_forall.
  intros H x Hx. specialize (H x Hx). apply guard_err_Ok, negb_false_iff in H.
  apply guard_err_Ok, negb_false_iff, Hcol. unfold col_allowed in H.
  destruct (Columns c !! x); [eauto|done].
Qed.

(** ** Witnesses *)

Lemma mutation_statements_well_formed_witness :
  SQL (BuildUpdate "orders" ["amount"] [VInt 3] [demo_filter (VInt 2)])
    = "UPDATE `orders` SET `amount` = ? WHERE `amount` > ?"
  /\ well_formed (BuildUpdate "orders" ["amount"] [VInt 3] [demo_filter (VInt 2)])
  /\ well_formed (BuildDelete "orders" [demo_filter (VInt 2)]).
Proof.
  split; [reflexivity|].
  pose proof (mutation_statements_well_formed (Some {| maxBatchSize := 10; maxSQLLength := 100 |}) "orders" ["amount"]
    [VInt 3] [demo_filter (VInt 2)] [[VInt 3]]) as (_ & Hu & Hd & _).
  split; [by apply Hu|by apply Hd].
Defined.
Lemma no_unfiltered_write_witness : exists w, w <> EmptyString /\
  SQL (BuildDelete "orders" [demo_filter (VInt 2)]) = "DELETE FROM " +:+ quoteIdentifier "orders" +:+ " WHERE " +:+ w.
Proof. apply (no_unfiltered_write "orders" ["amount"] [] [demo_filter (VInt 2)] eq_refl). reflexivity. Defined.
Lemma mutation_text_ignores_values_witness :
  SQL (BuildInsert "orders" ["id"] [VInt 1]) = SQL (BuildInsert "orders" ["id"] [VString "'); DROP TABLE orders"]).
Proof.
  apply (mutation_text_ignores_values "orders" ["id"] [VInt 1] [VString "'); DROP TABLE orders"] [] [] []); reflexivity.
Defined.
Lemma batch_of_one_is_insert_witness :
  BuildBatchInsert "orders" ["id"] [[VInt 1]] = BuildInsert "orders" ["id"] [VInt 1].
Proof. apply (batch_of_one_is_insert "orders" ["id"] [VInt 1]). reflexivity. Defined.
Lemma write_columns_readable_witness :
  ValidateFilterColumns (Some {| writableTables := demo_wt; vAllowedTables := demo_wl |}) "orders" ["amount"] = Ok tt.
Proof.
  apply (write_columns_readable ["orders"] (fun m => (map_to_list m).*1)
    {| writableTables := demo_wt; vAllowedTables := demo_wl |}).
  - apply visits_demo_wt.
  - apply visits_map_to_list.
  - vm_compute. reflexivity.
  - vm_compute. reflexivity.
Defined.
