(* ===== verification/Sanitizer.v ===== *)
(** * internal/template/sanitizer.go: the seven-state SQL scanner

    [scan] is the loop of [sanitizeSQL]: the state, the rest of the input, and as result
    the output still to be written or the error.  The loop looks at most two bytes ahead,
    so it is structural recursion on the input. *)
From S2P Require Import Prelude GoStrings Values.

Inductive scannerState :=
  | stateNormal | stateInSingleQuote | stateInDoubleQuote | stateInBacktick
  | stateInLineComment | stateInBlockComment | stateInHint.
#[export] Instance scannerState_eq_dec : EqDecision scannerState.
Proof. solve_decision. Defined.

Definition unsafe_sql (msg : string) : error :=
  ValidationError ErrValidationUnsafeSQL (Sprintf msg []).

(** [out.WriteString(p)] before the rest of the run. *)
Definition emit (p : string) (r : result string) : result string :=
  match r with Ok o => Ok (p +:+ o) | Err e => Err e end.

(** The check of the state at the end of the input. *)
Definition at_eof (st : scannerState) : result string :=
  match st with
  | stateInSingleQuote => Err (unsafe_sql "unclosed single-quoted string literal")
  | stateInDoubleQuote => Err (unsafe_sql "unclosed double-quoted identifier")
  | stateInBacktick => Err (unsafe_sql "unclosed backtick-quoted identifier")
  | stateInBlockComment => Err (unsafe_sql "unclosed block comment")
  | stateInHint => Err (unsafe_sql "unclosed optimizer hint")
  | stateNormal | stateInLineComment => Ok EmptyString
  end.

Fixpoint scan (st : scannerState) (s : string) : result string :=
  match s with
  | EmptyString => at_eof st
  | String ch s1 =>
      match st with
      | stateNormal =>
          if Ascii.eqb ch SQUOTE then emit (str1 ch) (scan stateInSingleQuote s1)
          else if Ascii.eqb ch DQUOTE then emit (str1 ch) (scan stateInDoubleQuote s1)
          else if Ascii.eqb ch BACKTICK then emit (str1 ch) (scan stateInBacktick s1)
          else if Ascii.eqb ch ";"%char then
            Err (unsafe_sql "multi-statement SQL detected: semicolon found outside string literal")
          else match s1 with
          | String c2 s2 =>
              if Ascii.eqb ch "-"%char && Ascii.eqb c2 "-"%char then scan stateInLineComment s2
              else if Ascii.eqb ch "/"%char && Ascii.eqb c2 "*"%char then
                match s2 with
                | String c3 s3 =>
                    if Ascii.eqb c3 "+"%char then emit "/*+" (scan stateInHint s3)
                    else scan stateInBlockComment s2
                | EmptyString => scan stateInBlockComment s2
                end
              else emit (str1 ch) (scan stateNormal s1)
          | EmptyString => emit (str1 ch) (scan stateNormal s1)
          end
      | stateInSingleQuote =>
          match s1 with
          | String c2 s2 =>
              if Ascii.eqb ch BSLASH && Ascii.eqb c2 BSLASH then
                emit (String BSLASH (str1 BSLASH)) (scan stateInSingleQuote s2)
              else if Ascii.eqb ch BSLASH && Ascii.eqb c2 SQUOTE then
                emit (String BSLASH (str1 SQUOTE)) (scan stateInSingleQuote s2)
              else if Ascii.eqb ch SQUOTE && Ascii.eqb c2 SQUOTE then
                emit (String SQUOTE (str1 SQUOTE)) (scan stateInSingleQuote s2)
              else if Ascii.eqb ch SQUOTE then emit (str1 ch) (scan stateNormal s1)
              else emit (str1 ch) (scan stateInSingleQuote s1)
          | EmptyString =>
              if Ascii.eqb ch SQUOTE then emit (str1 ch) (scan stateNormal s1)
              else emit (str1 ch) (scan stateInSingleQuote s1)
          end
      | stateInDoubleQuote =>
          match s1 with
          | String c2 s2 =>
              if Ascii.eqb ch DQUOTE && Ascii.eqb c2 DQUOTE then
                emit (String DQUOTE (str1 DQUOTE)) (scan stateInDoubleQuote s2)
              else if Ascii.eqb ch DQUOTE then emit (str1 ch) (scan stateNormal s1)
              else emit (str1 ch) (scan stateInDoubleQuote s1)
          | EmptyString =>
              if Ascii.eqb ch DQUOTE then emit (str1 ch) (scan stateNormal s1)
              else emit (str1 ch) (scan stateInDoubleQuote s1)
          end
      | stateInBacktick =>
          match s1 with
          | String c2 s2 =>
              if Ascii.eqb ch BACKTICK && Ascii.eqb c2 BACKTICK then
                emit (String BACKTICK (str1 BACKTICK)) (scan stateInBacktick s2)
              else if Ascii.eqb ch BACKTICK then emit (str1 ch) (scan stateNormal s1)
              else emit (str1 ch) (scan stateInBacktick s1)
          | EmptyString =>
              if Ascii.eqb ch BACKTICK then emit (str1 ch) (scan stateNormal s1)
              else emit (str1 ch) (scan stateInBacktick s1)
          end
      | stateInLineComment =>
          if Ascii.eqb ch LF then emit (str1 LF) (scan stateNormal s1)
          else scan stateInLineComment s1
      | stateInBlockComment =>
          match s1 with
          | String c2 s2 =>
              if Ascii.eqb ch "*"%char && Ascii.eqb c2 "/"%char then emit " " (scan stateNormal s2)
              else scan stateInBlockComment s1
          | EmptyString => scan stateInBlockComment s1
          end
      | stateInHint =>
          match s1 with
          | String c2 s2 =>
              if Ascii.eqb ch "*"%char && Ascii.eqb c2 "/"%char then emit "*/" (scan stateNormal s2)
              else emit (str1 ch) (scan stateInHint s1)
          | EmptyString => emit (str1 ch) (scan stateInHint s1)
          end
      end
  end.

Definition sanitizeSQL (sql : string) : result string := scan stateNormal sql.

(** ** A reference lexer

    The same language as tokens: a maximal quoted region, a comment, a hint, or one other
    byte.  [lex] is written token by token, each token found by its own function; it is what
    a reader of the documentation would write, and is independent of the scanner's states. *)
Inductive token :=
  | TByte (c : ascii)
  | TQuoted (q : ascii) (body : string)
  | THint (body : string)
  | TComment
  | TLineComment (newline : bool)
  | TSemicolon.

(** The raw body of a region closed by [q], and the rest; [esc]: a backslash protects a
    backslash or the quote. *)
Fixpoint quoted_body (esc : bool) (q : ascii) (s : string) : option (string * string) :=
  match s with
  | EmptyString => None
  | String c s1 =>
      match s1 with
      | String d s2 =>
          if (esc && Ascii.eqb c BSLASH && (Ascii.eqb d BSLASH || Ascii.eqb d q))
             || (Ascii.eqb c q && Ascii.eqb d q)
          then '(b, r) ← quoted_body esc q s2; Some (String c (String d b), r)
          else if Ascii.eqb c q then Some (EmptyString, s1)
          else '(b, r) ← quoted_body esc q s1; Some (String c b, r)
      | EmptyString => if Ascii.eqb c q then Some (EmptyString, s1) else None
      end
  end.
(** The text up to the closing delimiter of a block comment, and the rest. *)
Fixpoint until_close (s : string) : option (string * string) :=
  match s with
  | String c s1 =>
      match s1 with
      | String d s2 =>
          if Ascii.eqb c "*"%char && Ascii.eqb d "/"%char then Some (EmptyString, s2)
          else '(b, r) ← until_close s1; Some (String c b, r)
      | EmptyString => None
      end
  | EmptyString => None
  end.
Fixpoint drop_line (s : string) : option string :=
  match s with
  | String c s1 => if Ascii.eqb c LF then Some s1 else drop_line s1
  | EmptyString => None
  end.
(** The token at the front of a non-empty input. *)
Definition next_token (s : string) : option (token * string) :=
  match s with
  | EmptyString => None
  | String c s1 =>
      if Ascii.eqb c SQUOTE then '(b, r) ← quoted_body true c s1; Some (TQuoted c b, r)
      else if Ascii.eqb c DQUOTE || Ascii.eqb c BACKTICK then
        '(b, r) ← quoted_body false c s1; Some (TQuoted c b, r)
      else if Ascii.eqb c ";"%char then Some (TSemicolon, s1)
      else if has_prefix "--" s then
        match drop_line (str_drop 2 s) with
        | Some r => Some (TLineComment true, r)
        | None => Some (TLineComment false, EmptyString)
        end
      else if has_prefix "/*+" s then '(b, r) ← until_close (str_drop 3 s); Some (THint b, r)
      else if has_prefix "/*" s then '(_, r) ← until_close (str_drop 2 s); Some (TComment, r)
      else Some (TByte c, s1)
  end.
Fixpoint lex (fuel : nat) (s : string) : option (list token) :=
  match s, fuel with
  | EmptyString, _ => Some []
  | _, O => None
  | _, S fuel' => '(t, r) ← next_token s; ts ← lex fuel' r; Some (t :: ts)
  end.
Definition tokens (s : string) : option (list token) := lex (String.length s) s.

(** What each token contributes to the cleaned text. *)
Definition clean_token (t : token) : string :=
  match t with
  | TByte c => str1 c
  | TQuoted q b => String q (b +:+ str1 q)
  | THint b => "/*+" +:+ b +:+ "*/"
  | TComment => " "
  | TLineComment nl => if nl then str1 LF else EmptyString
  | TSemicolon => EmptyString
  end.
Definition is_semicolon (t : token) : bool := match t with TSemicolon => true | _ => false end.
Fixpoint clean (ts : list token) : string :=
  match ts with [] => EmptyString | t :: ts' => clean_token t +:+ clean ts' end.

(** A text the scanner passes through unchanged from the normal state into the normal
    state, whatever follows it that does not start with [q]. *)
Definition starts_with (q : ascii) (s : string) : bool :=
  match s with String c _ => Ascii.eqb c q | EmptyString => false end.
Definition passes (q : ascii) (t : string) : Prop :=
  forall post, starts_with q post = false ->
    scan stateNormal (t +:+ post) = emit t (scan stateNormal post).

Definition is_ok {A} (r : result A) : bool := match r with Ok _ => true | Err _ => false end.
(** The quote of a quoted state, and whether a backslash protects in it. *)
Definition quoted_state (st : scannerState) : option (ascii * bool) :=
  match st with
  | stateInSingleQuote => Some (SQUOTE, true)
  | stateInDoubleQuote => Some (DQUOTE, false)
  | stateInBacktick => Some (BACKTICK, false)
  | _ => None
  end.

(** A statement in which a server with backslash escapes sees a second statement: the first
    double-quoted text it reads contains an escaped quote and ends before the semicolon; the
    scanner, which knows no backslash there, takes the semicolon to be inside a second
    double-quoted region. *)
Definition escaped_dquote_sql : string :=
  "SELECT " +:+ str1 DQUOTE +:+ str1 BSLASH +:+ str1 DQUOTE +:+ " " +:+ str1 DQUOTE
  +:+ "; DROP TABLE t; SELECT " +:+ str1 DQUOTE.

(** ** Lemmas *)

Example escaped_dquote_accepted : sanitizeSQL escaped_dquote_sql = Ok escaped_dquote_sql.
Proof. vm_compute. reflexivity. Qed.

Lemma emit_emit p q r : emit p (emit q r) = emit (p +:+ q) r.
Proof. destruct r; simpl; [|done]. by rewrite str_app_assoc. Qed.

Lemma emit_Ok p r o : emit p r = Ok o <-> exists o', r = Ok o' /\ o = p +:+ o'.
Proof. destruct r; simpl; naive_solver. Qed.

(** Induction on the length of a string. *)
Lemma str_len_ind (P : string -> Prop) :
  (forall s, (forall t, (String.length t < String.length s)%nat -> P t) -> P s) -> forall s, P s.
Proof.
  intros H s. apply (H s). remember (String.length s) as n eqn:E. clear E.
  induction n as [|n IH]; intros t Ht; [lia|]. apply H. intros u Hu. apply IH. lia.
Qed.

Lemma quoted_step st q esc c d s :
  quoted_state st = Some (q, esc) ->
  scan st (String c (String d s)) =
    if (esc && Ascii.eqb c BSLASH && (Ascii.eqb d BSLASH || Ascii.eqb d q))
       || (Ascii.eqb c q && Ascii.eqb d q)
    then emit (String c (str1 d)) (scan st s)
    else if Ascii.eqb c q then emit (str1 c) (scan stateNormal (String d s))
    else emit (str1 c) (scan st (String d s)).
Proof.
  destruct st; try done; intros [= <- <-]; cbn [scan andb orb];
    repeat match goal with |- context [Ascii.eqb ?a ?b] => destruct (Ascii.eqb_spec a b); subst end;
    try done; by vm_compute.
Qed.

Lemma quoted_body_step esc q c d s :
  quoted_body esc q (String c (String d s)) =
    if (esc && Ascii.eqb c BSLASH && (Ascii.eqb d BSLASH || Ascii.eqb d q))
       || (Ascii.eqb c q && Ascii.eqb d q)
    then '(b, r) ← quoted_body esc q s; Some (String c (String d b), r)
    else if Ascii.eqb c q then Some (EmptyString, String d s)
    else '(b, r) ← quoted_body esc q (String d s); Some (String c b, r).
Proof. done. Qed.
Lemma until_close_step c d s :
  until_close (String c (String d s)) =
    if Ascii.eqb c "*"%char && Ascii.eqb d "/"%char then Some (EmptyString, s)
    else '(b, r) ← until_close (String d s); Some (String c b, r).
Proof. done. Qed.
Lemma scan_hint_step c d s :
  scan stateInHint (String c (String d s)) =
    if Ascii.eqb c "*"%char && Ascii.eqb d "/"%char then emit "*/" (scan stateNormal s)
    else emit (str1 c) (scan stateInHint (String d s)).
Proof. done. Qed.
Lemma scan_block_step c d s :
  scan stateInBlockComment (String c (String d s)) =
    if Ascii.eqb c "*"%char && Ascii.eqb d "/"%char then emit " " (scan stateNormal s)
    else scan stateInBlockComment (String d s).
Proof. done. Qed.

Lemma scan_quoted st q esc :
  quoted_state st = Some (q, esc) ->
  forall s, match quoted_body esc q s with
       | Some (b, r) => scan st s = emit (b +:+ str1 q) (scan stateNormal r)
                        /\ (String.length r < String.length s)%nat
       | None => is_ok (scan st s) = false
       end.
Proof.
  intros Hst s. induction s as [s IH] using str_len_ind.
  destruct s as [|c [|d s2]].
  - by destruct st.
  - assert (Hone : scan st (str1 c) = if Ascii.eqb c q then emit (str1 c) (scan stateNormal EmptyString)
                                      else emit (str1 c) (scan st EmptyString)).
    { destruct st; try done; by injection Hst as <- <-. }
    simpl quoted_body. unfold str1 in Hone. rewrite Hone.
    destruct (Ascii.eqb_spec c q) as [->|]; [by split; [|simpl; lia]|]. by destruct st.
  - rewrite (quoted_step st q esc), quoted_body_step by done.
    destruct (_ || _) eqn:Hpair.
    + specialize (IH s2 ltac:(simpl; lia)). destruct (quoted_body esc q s2) as [[b r]|]; simpl.
      * destruct IH as [-> Hl]. rewrite emit_emit. split; [done|simpl in *; lia].
      * by destruct (scan st s2).
    + destruct (Ascii.eqb_spec c q) as [->|]; [by split; [|simpl; lia]|].
      specialize (IH (String d s2) ltac:(simpl; lia)).
      destruct (quoted_body esc q (String d s2)) as [[b r]|]; cbn [mbind option_bind].
      * destruct IH as [-> Hl]. rewrite emit_emit. split; [done|simpl in *; lia].
      * by destruct (scan st (String d s2)).
Qed.

Lemma scan_hint s :
  match until_close s with
  | Some (b, r) => scan stateInHint s = emit (b +:+ "*/") (scan stateNormal r)
                   /\ (String.length r < String.length s)%nat
  | None => is_ok (scan stateInHint s) = false
  end.
Proof.
  induction s as [|c s IH]; [done|]. destruct s as [|d s2]; [by vm_compute|].
  rewrite until_close_step, scan_hint_step. destruct (_ && _); [by split; [|simpl; lia]|].
  destruct (until_close (String d s2)) as [[b r]|]; cbn [mbind option_bind].
  - destruct IH as [-> Hl]. rewrite emit_emit. split; [done|simpl in *; lia].
  - by destruct (scan stateInHint (String d s2)).
Qed.

Lemma scan_block s :
  match until_close s with
  | Some (_, r) => scan stateInBlockComment s = emit " " (scan stateNormal r)
                   /\ (String.length r < String.length s)%nat
  | None => is_ok (scan stateInBlockComment s) = false
  end.
Proof.
  induction s as [|c s IH]; [done|]. destruct s as [|d s2]; [by vm_compute|].
  rewrite until_close_step, scan_block_step. destruct (_ && _); [by split; [|simpl; lia]|].
  destruct (until_close (String d s2)) as [[b r]|]; cbn [mbind option_bind].
  - destruct IH as [-> Hl]. split; [done|simpl in *; lia].
  - done.
Qed.

Lemma scan_line s :
  match drop_line s with
  | Some r => scan stateInLineComment s = emit (str1 LF) (scan stateNormal r)
              /\ (String.length r < String.length s)%nat
  | None => scan stateInLineComment s = Ok EmptyString
  end.
Proof.
  induction s as [|c s IH]; [done|]. cbn [drop_line scan].
  destruct (Ascii.eqb c LF); [by split; [|simpl; lia]|].
  destruct (drop_line s); [|done]. destruct IH as [-> Hl]. split; [done|simpl; lia].
Qed.

(** One token of the reference lexer is one stretch of the scanner. *)
Lemma scan_token s :
  s <> EmptyString ->
  match next_token s with
  | Some (TSemicolon, r) => is_ok (scan stateNormal s) = false
  | Some (t, r) => scan stateNormal s = emit (clean_token t) (scan stateNormal r)
                   /\ (String.length r < String.length s)%nat
  | None => is_ok (scan stateNormal s) = false
  end.
Proof.
  destruct s as [|c s1]; [done|]. intros _. unfold next_token.
  assert (Hq : forall st q esc, quoted_state st = Some (q, esc) ->
    match ('(b, r) ← quoted_body esc q s1; Some (TQuoted q b, r)) with
    | Some (TSemicolon, r) => is_ok (emit (str1 q) (scan st s1)) = false
    | Some (t, r) => emit (str1 q) (scan st s1) = emit (clean_token t) (scan stateNormal r)
                     /\ (String.length r < S (String.length s1))%nat
    | None => is_ok (emit (str1 q) (scan st s1)) = false
    end).
  { intros st q esc Hst. pose proof (scan_quoted st q esc Hst s1) as H.
    destruct (quoted_body esc q s1) as [[b r]|]; cbn [mbind option_bind].
    - destruct H as [-> Hl]. rewrite emit_emit. split; [done|lia].
    - by destruct (scan st s1). }
  destruct (Ascii.eqb_spec c SQUOTE) as [->|Hsq]; [by apply (Hq stateInSingleQuote)|].
  destruct (Ascii.eqb_spec c DQUOTE) as [->|Hdq]; [by apply (Hq stateInDoubleQuote)|].
  destruct (Ascii.eqb_spec c BACKTICK) as [->|Hbt]; [by apply (Hq stateInBacktick)|].
  cbn [orb]. cbn [scan]. rewrite (proj2 (Ascii.eqb_neq _ _) Hsq), (proj2 (Ascii.eqb_neq _ _) Hdq),
    (proj2 (Ascii.eqb_neq _ _) Hbt).
  destruct (Ascii.eqb c ";"%char); [done|].
  destruct s1 as [|c2 s2]; [cbn [has_prefix]; rewrite !andb_false_r; by split; [|simpl; lia]|].
  cbn [has_prefix str_drop]. rewrite !(Ascii.eqb_sym _ c), !(Ascii.eqb_sym _ c2), !andb_true_r.
  destruct (Ascii.eqb c "-" && Ascii.eqb c2 "-").
  { pose proof (scan_line s2) as H. destruct (drop_line s2) as [r|].
    - destruct H as [-> Hl]. split; [done|simpl; lia].
    - rewrite H. split; [done|simpl; lia]. }
  destruct (Ascii.eqb c "/" && Ascii.eqb c2 "*") eqn:Hop.
  - apply andb_true_iff in Hop as [-> ->]. destruct s2 as [|c3 s3]; [done|].
    rewrite (Ascii.eqb_sym _ c3). cbn [andb]. destruct (Ascii.eqb c3 "+"); cbn [andb].
    + pose proof (scan_hint s3) as H. destruct (until_close s3) as [[b r]|]; cbn [mbind option_bind].
      * destruct H as [-> Hl]. rewrite emit_emit. split; [done|simpl in *; lia].
      * by destruct (scan stateInHint s3).
    + pose proof (scan_block (String c3 s3)) as H.
      destruct (until_close (String c3 s3)) as [[b r]|]; cbn [mbind option_bind]; [|done].
      destruct H as [-> Hl]. split; [done|simpl in *; lia].
  - rewrite andb_assoc, Hop. cbn [andb]. split; [done|simpl; lia].
Qed.

(** The whole scanner against the reference lexer. *)
Lemma scan_lex fuel s :
  (String.length s <= fuel)%nat ->
  match lex fuel s with
  | Some ts => if existsb is_semicolon ts then is_ok (scan stateNormal s) = false
               else scan stateNormal s = Ok (clean ts)
  | None => is_ok (scan stateNormal s) = false
  end.
Proof.
  revert s. induction fuel as [|fuel IH]; intros s Hl; [by destruct s; simpl in *; [|lia]|].
  destruct (decide (s = EmptyString)) as [->|Hs]; [done|].
  pose proof (scan_token s Hs) as Ht.
  assert (lex (S fuel) s = '(t, r) ← next_token s; ts ← lex fuel r; Some (t :: ts)) as -> by by destruct s.
  destruct (next_token s) as [[t r]|]; cbn [mbind option_bind]; [|done].
  destruct t; try (destruct Ht as [Ht Hr]; specialize (IH r ltac:(lia));
    destruct (lex fuel r) as [ts|]; cbn [mbind option_bind existsb is_semicolon orb];
    [destruct (existsb is_semicolon ts); rewrite Ht; [by destruct (scan stateNormal r)|by rewrite IH]
    |rewrite Ht; by destruct (scan stateNormal r)]).
  destruct (lex fuel r); [|done]. simpl. done.
Qed.

Lemma scan_err st s e : scan st s = Err e -> err_code e = Some ErrValidationUnsafeSQL.
Proof.
  revert st. induction s as [s IH] using str_len_ind. intros st.
  assert (Hem : forall p r, emit p r = Err e -> r = Err e) by (intros p [] H; simplify_eq/=; done).
  destruct s as [|c s1]; [by destruct st; intros; simplify_eq/=|].
  assert (IH1 : forall st, scan st s1 = Err e -> err_code e = Some ErrValidationUnsafeSQL)
    by (intros; eapply IH; [|done]; simpl; lia).
  assert (IH2 : forall c2 s2 st, s1 = String c2 s2 -> scan st s2 = Err e -> err_code e = Some ErrValidationUnsafeSQL)
    by (intros ? ? ? ->; apply IH; simpl; lia).
  assert (IH3 : forall c2 c3 s3 st, s1 = String c2 (String c3 s3) -> scan st s3 = Err e ->
    err_code e = Some ErrValidationUnsafeSQL) by (intros ? ? ? ? ->; apply IH; simpl; lia).
  destruct st; cbn [scan]; repeat case_match; intros He; try (apply Hem in He); eauto;
    by simplify_eq/=.
Qed.

(** *** Cleaned text is stable *)

Lemma quoted_body_head esc q d s b r :
  quoted_body esc q (String d s) = Some (b, r) -> (b = EmptyString /\ d = q) \/ exists b', b = String d b'.
Proof.
  destruct s as [|d2 s2]; [cbn [quoted_body]; destruct (Ascii.eqb_spec d q); naive_solver|].
  rewrite quoted_body_step. destruct (_ || _).
  - destruct (quoted_body esc q s2) as [[]|]; simpl; naive_solver.
  - destruct (Ascii.eqb_spec d q); [naive_solver|].
    destruct (quoted_body esc q (String d2 s2)) as [[]|]; cbn [mbind option_bind]; naive_solver.
Qed.

(** A body is read again, and closed by the same quote, whatever follows it. *)
Lemma quoted_body_again esc q s b r :
  q <> BSLASH -> quoted_body esc q s = Some (b, r) ->
  starts_with q r = false
  /\ forall r', starts_with q r' = false -> quoted_body esc q (b +:+ String q r') = Some (b, r').
Proof.
  intros Hq. revert b. induction s as [s IH] using str_len_ind. intros b.
  assert (Hclose : forall r', starts_with q r' = false -> quoted_body esc q (String q r') = Some (EmptyString, r')).
  { intros [|d r'] Hr; [simpl; by rewrite Ascii.eqb_refl|]. rewrite quoted_body_step. simpl in Hr.
    by rewrite (proj2 (Ascii.eqb_neq _ _) Hq), Ascii.eqb_refl, Hr, andb_false_r. }
  destruct s as [|c [|d s2]].
  - done.
  - cbn [quoted_body]. destruct (Ascii.eqb_spec c q) as [->|]; [|done]. by intros [= <- <-].
  - rewrite quoted_body_step. destruct (_ || _) eqn:Hp.
    + destruct (quoted_body esc q s2) as [[b' r0]|] eqn:Hb; [|done]. simpl. intros [= <- ->].
      destruct (IH s2 ltac:(simpl; lia) b' Hb) as [Hr Hag]. split; [done|]. intros r' Hr'.
      cbn [String.append]. rewrite quoted_body_step, Hp. by rewrite Hag.
    + destruct (Ascii.eqb_spec c q) as [->|Hcq].
      * intros [= <- <-]. split; [|done]. simpl.
        destruct (Ascii.eqb d q); [|done]. by rewrite orb_true_r in Hp.
      * destruct (quoted_body esc q (String d s2)) as [[b' r0]|] eqn:Hb; [|done].
        cbn [mbind option_bind]. intros [= <- ->].
        destruct (IH (String d s2) ltac:(simpl; lia) b' Hb) as [Hr Hag]. split; [done|]. intros r' Hr'.
        specialize (Hag r' Hr'). cbn [String.append].
        destruct (quoted_body_head _ _ _ _ _ _ Hb) as [[-> ->]|[b2 ->]]; cbn [String.append] in *;
          rewrite quoted_body_step, (proj2 (Ascii.eqb_neq _ _) Hcq), Hp; by rewrite Hag.
Qed.

Lemma until_close_again s b r r' :
  until_close s = Some (b, r) -> until_close (b +:+ "*/" +:+ r') = Some (b, r').
Proof.
  revert b. induction s as [|c s IH]; intros b; [done|]. destruct s as [|d s2]; [done|].
  rewrite until_close_step. destruct (_ && _) eqn:Hp; [by intros [= <- <-]|].
  destruct (until_close (String d s2)) as [[b' r0]|] eqn:Hb; [|done].
  cbn [mbind option_bind]. intros [= <- ->]. specialize (IH b' eq_refl).
  assert (b' = EmptyString \/ exists b2, b' = String d b2) as [->|[b2 ->]].
  { destruct s2 as [|d2 s3]; [done|]. rewrite until_close_step in Hb. destruct (_ && _); [naive_solver|].
    destruct (until_close (String d2 s3)) as [[]|]; cbn [mbind option_bind] in Hb; naive_solver. }
  - cbn [String.append] in *. rewrite until_close_step. rewrite andb_false_r. by rewrite IH.
  - cbn [String.append] in *. rewrite until_close_step, Hp. by rewrite IH.
Qed.

Lemma next_token_head c s1 t r :
  next_token (String c s1) = Some (t, r) ->
  match t with
  | TByte d | TQuoted d _ => d = c
  | THint _ => c = "/"%char
  | TLineComment false => r = EmptyString
  | _ => True
  end.
Proof.
  unfold next_token. intros H.
  destruct (Ascii.eqb_spec c SQUOTE).
  { apply bind_Some in H as ([b r'] & _ & [= <- <-]). done. }
  destruct (_ || _); [apply bind_Some in H as ([b r'] & _ & [= <- <-]); done|].
  destruct (Ascii.eqb c ";"); [by injection H as <- <-|].
  destruct (has_prefix "--" (String c s1)); [by destruct (drop_line _); injection H as <- <-|].
  destruct (has_prefix "/*+" (String c s1)) eqn:E.
  { apply bind_Some in H as ([b r'] & _ & [= <- <-]).
    cbn [has_prefix] in E. apply andb_true_iff in E as [E _]. by apply Ascii.eqb_eq in E. }
  destruct (has_prefix "/*" (String c s1)); [apply bind_Some in H as ([b r'] & _ & [= <- <-]); done|].
  by injection H as <- <-.
Qed.

(** The first byte of the output is the first byte of the input, or the blank or newline
    left by a comment. *)
Lemma scan_first q s o :
  q <> " "%char -> q <> LF -> starts_with q s = false -> scan stateNormal s = Ok o ->
  starts_with q o = false.
Proof.
  intros Hq1 Hq2 Hs Ho. destruct (decide (s = EmptyString)) as [->|Hne]; [by injection Ho as <-|].
  pose proof (scan_token s Hne) as Ht. destruct s as [|c s1]; [done|]. simpl in Hs.
  pose proof (next_token_head c s1) as Hh.
  destruct (next_token (String c s1)) as [[t r]|] eqn:Hn; [|by rewrite Ho in Ht].
  specialize (Hh t r eq_refl).
  destruct t as [d|d b|b| |[]|]; try (destruct Ht as [Ht _]; rewrite Ht in Ho;
    apply emit_Ok in Ho as (o' & Ho' & ->)); try (by rewrite Ho in Ht);
    cbn [starts_with clean_token str1 String.append].
  - by subst.
  - by subst.
  - by subst.
  - by apply Ascii.eqb_neq, not_eq_sym.
  - by apply Ascii.eqb_neq, not_eq_sym.
  - subst. by injection Ho' as <-.
Qed.

Lemma scan_byte c r :
  c <> SQUOTE -> c <> DQUOTE -> c <> BACKTICK -> c <> ";"%char ->
  (c = "-"%char -> starts_with "-"%char r = false) -> (c = "/"%char -> starts_with "*"%char r = false) ->
  scan stateNormal (String c r) = emit (str1 c) (scan stateNormal r).
Proof.
  intros H1 H2 H3 H4 H5 H6. cbn [scan].
  rewrite (proj2 (Ascii.eqb_neq _ _) H1), (proj2 (Ascii.eqb_neq _ _) H2),
    (proj2 (Ascii.eqb_neq _ _) H3), (proj2 (Ascii.eqb_neq _ _) H4).
  destruct r as [|d r]; [done|]. simpl in H5, H6.
  destruct (Ascii.eqb_spec c "-"%char); [rewrite H5 by done|];
    (destruct (Ascii.eqb_spec c "/"%char); [rewrite H6 by done|]); try done; congruence.
Qed.

(** What the shape of a token says about the text it was read from. *)
Lemma next_token_shape s :
  match next_token s with
  | Some (TByte c, r) =>
      c <> SQUOTE /\ c <> DQUOTE /\ c <> BACKTICK /\ c <> ";"%char
      /\ (c = "-"%char -> starts_with "-"%char r = false)
      /\ (c = "/"%char -> starts_with "*"%char r = false)
  | Some (TQuoted q b, r) => exists st esc body,
      quoted_state st = Some (q, esc) /\ quoted_body esc q body = Some (b, r) /\ q <> BSLASH
  | Some (THint b, r) => exists body, until_close body = Some (b, r)
  | _ => True
  end.
Proof.
  destruct s as [|c s1]; [done|]. unfold next_token.
  destruct (Ascii.eqb_spec c SQUOTE) as [->|H1].
  { destruct (quoted_body true SQUOTE s1) as [[b r]|] eqn:E; simpl; [|done].
    by exists stateInSingleQuote, true, s1. }
  destruct (Ascii.eqb_spec c DQUOTE) as [->|H2].
  { simpl. destruct (quoted_body false DQUOTE s1) as [[b r]|] eqn:E; simpl; [|done].
    by exists stateInDoubleQuote, false, s1. }
  destruct (Ascii.eqb_spec c BACKTICK) as [->|H3].
  { simpl. destruct (quoted_body false BACKTICK s1) as [[b r]|] eqn:E; simpl; [|done].
    by exists stateInBacktick, false, s1. }
  simpl orb. cbv iota. destruct (Ascii.eqb_spec c ";"%char) as [->|H4]; [done|].
  destruct (has_prefix "--" (String c s1)) eqn:E1; [by repeat case_match; simplify_eq|].
  destruct (has_prefix "/*+" (String c s1)) eqn:E2.
  { destruct (until_close _) as [[b r]|] eqn:E; simpl; [eauto|done]. }
  destruct (has_prefix "/*" (String c s1)) eqn:E3.
  { by destruct (until_close _) as [[b r]|]. }
  split; [done|]. split; [done|]. split; [done|]. split; [done|].
  split; intros ->; destruct s1 as [|d s2]; try done; cbn [has_prefix starts_with] in *.
  - rewrite andb_true_r in E1. by rewrite Ascii.eqb_sym.
  - rewrite andb_true_r in E3. by rewrite Ascii.eqb_sym.
Qed.

Lemma scan_hint_open s : scan stateNormal ("/*+" +:+ s) = emit "/*+" (scan stateInHint s).
Proof. done. Qed.
Lemma scan_open st q esc s :
  quoted_state st = Some (q, esc) -> scan stateNormal (String q s) = emit (str1 q) (scan st s).
Proof. destruct st; try done; by intros [= <- <-]. Qed.

(** A text that continues no token of the text before it. *)
Definition benign (post : string) : Prop :=
  Forall (fun q => starts_with q post = false) [SQUOTE; DQUOTE; BACKTICK; "-"%char; "*"%char].

(** Cleaned text is scanned unchanged, whatever benign text follows it. *)
Lemma scan_again s o post :
  benign post -> scan stateNormal s = Ok o ->
  scan stateNormal (o +:+ post) = emit o (scan stateNormal post).
Proof.
  intros Hpost. revert o. induction s as [s IH] using str_len_ind. intros o Ho.
  destruct (decide (s = EmptyString)) as [->|Hne].
  { injection Ho as <-. simpl. by destruct (scan stateNormal post). }
  pose proof (scan_token s Hne) as Ht. pose proof (next_token_shape s) as Hsh.
  assert (Hfirst : forall q r o', q ∈ [SQUOTE; DQUOTE; BACKTICK; "-"%char; "*"%char] ->
    starts_with q r = false -> scan stateNormal r = Ok o' -> starts_with q (o' +:+ post) = false).
  { intros q r o' Hq Hr Hr'. destruct o' as [|c o']; [by apply (proj1 (Forall_forall _ _) Hpost)|].
    apply (scan_first q r (String c o')); [| |done|done];
      repeat (apply elem_of_cons in Hq as [->|Hq]; [done|]); by apply not_elem_of_nil in Hq. }
  destruct (next_token s) as [[t r]|]; [|by rewrite Ho in Ht].
  destruct t as [c|q b|b| |nl|]; try (by rewrite Ho in Ht);
    destruct Ht as [Ht Hl]; rewrite Ht in Ho; apply emit_Ok in Ho as (o' & Ho' & ->);
    pose proof (IH r Hl o' Ho') as Hr; cbn [clean_token str1 String.append].
  - destruct Hsh as (H1 & H2 & H3 & H4 & H5 & H6).
    rewrite scan_byte; try done; [by rewrite Hr, emit_emit| |]; intros Hc; (eapply Hfirst; [| |exact Ho']);
      auto; subst; repeat (first [left|right]).
  - destruct Hsh as (st & esc & body & Hst & Hb & Hnb).
    destruct (quoted_body_again esc q body b r Hnb Hb) as [Hs Hag].
    assert (Hso : starts_with q (o' +:+ post) = false).
    { eapply Hfirst; [|exact Hs|exact Ho']. destruct st; try done; injection Hst as <- <-; repeat (first [left|right]). }
    pose proof (scan_quoted st q esc Hst (b +:+ String q (o' +:+ post))) as Hq. rewrite Hag in Hq by done.
    destruct Hq as [Hq _]. rewrite !str_app_assoc. cbn [str1 String.append].
    rewrite (scan_open st q esc) by done. rewrite Hq, Hr, !emit_emit. by rewrite !str_app_assoc.
  - destruct Hsh as (body & Hb). apply (until_close_again _ _ _ (o' +:+ post)) in Hb.
    pose proof (scan_hint (b +:+ "*/" +:+ o' +:+ post)) as Hh. rewrite Hb in Hh. destruct Hh as [Hh _].
    change (scan stateNormal ("/*+" +:+ (((b +:+ "*/") +:+ o') +:+ post))
            = emit ("/*+" +:+ ((b +:+ "*/") +:+ o')) (scan stateNormal post)).
    rewrite scan_hint_open, !str_app_assoc, Hh, Hr, !emit_emit. by rewrite !str_app_assoc.
  - rewrite scan_byte by done. by rewrite Hr, emit_emit.
  - destruct nl; [|exact Hr].
    change (scan stateNormal (String LF (o' +:+ post)) = emit (String LF o') (scan stateNormal post)).
    rewrite scan_byte by done. by rewrite Hr, emit_emit.
Qed.

(** C5: the scanner implements the reference lexer: it accepts exactly the texts that split
    into tokens without a semicolon token, and its output is those tokens with every plain
    comment replaced (a block comment by a blank, a line comment by its newline) and
    everything else, optimizer hints included, byte for byte.  Every rejection is
    VALIDATION_UNSAFE_SQL. *)
Theorem sanitizeSQL_refines_lexer s :
  match tokens s with
  | Some ts => if existsb is_semicolon ts
               then exists e, sanitizeSQL s = Err e /\ err_code e = Some ErrValidationUnsafeSQL
               else sanitizeSQL s = Ok (clean ts)
  | None => exists e, sanitizeSQL s = Err e /\ err_code e = Some ErrValidationUnsafeSQL
  end.
Proof.
  assert (Herr : is_ok (sanitizeSQL s) = false ->
    exists e, sanitizeSQL s = Err e /\ err_code e = Some ErrValidationUnsafeSQL).
  { unfold sanitizeSQL. destruct (scan stateNormal s) as [|e] eqn:E; [done|]. eauto using scan_err. }
  pose proof (scan_lex (String.length s) s (le_n _)) as H. unfold tokens.
  destruct (lex (String.length s) s) as [ts|]; [|auto]. destruct (existsb is_semicolon ts); auto.
Qed.

(** cleaning is idempotent: cleaned SQL is accepted and unchanged by a second pass, so
    it contains no comment, no semicolon outside quotes and hints, and removing comments
    never splices two bytes into a new token. *)
Theorem sanitizeSQL_idempotent s o : sanitizeSQL s = Ok o -> sanitizeSQL o = Ok o.
Proof.
  unfold sanitizeSQL. intros Ho.
  pose proof (scan_again s o EmptyString) as H. rewrite str_app_nil_r in H. rewrite H; [|by repeat constructor|done].
  simpl. by rewrite str_app_nil_r.
Qed.

(** ** Witnesses *)

Lemma sanitizeSQL_idempotent_witness :
  sanitizeSQL "SELECT /*+ SET_VAR(x=1) */ a/* c */-- d" = Ok "SELECT /*+ SET_VAR(x=1) */ a "
  /\ sanitizeSQL "SELECT /*+ SET_VAR(x=1) */ a " = Ok "SELECT /*+ SET_VAR(x=1) */ a ".
Proof.
  split; [reflexivity|].
  apply (sanitizeSQL_idempotent "SELECT /*+ SET_VAR(x=1) */ a/* c */-- d"). reflexivity.
Defined.
