(* ===== verification/FuncMap.v ===== *)
(** * internal/template/funcmap.go: the functions templates render values with

    The safety functions are related to the scanner of [Sanitizer]: what they print is
    scanned as one closed piece wherever the template puts it.  Decimal text of floats
    ([strconv.ParseFloat], [FormatFloat]) is a parameter, [FloatText]. *)
From S2P Require Import Prelude GoStrings Values GoConv Sanitizer.

Class FloatText := {
  parse_float : string -> option spec_float;
  format_float : spec_float -> string;
}.

Section FuncMap.
Context `{GoFmt}.

Definition safeString (v : GoVal) : string :=
  let s := sprint v in
  let s := replace_byte NUL EmptyString s in
  let s := replace_byte BSLASH (String BSLASH (str1 BSLASH)) s in
  replace_byte SQUOTE (String SQUOTE (str1 SQUOTE)) s.

Definition quote (v : GoVal) : string := str1 SQUOTE +:+ safeString v +:+ str1 SQUOTE.

(** [val != math.Trunc(val)], an infinity or a NaN. *)
Definition not_integral (f : spec_float) : bool :=
  match f with
  | S754_zero _ => false
  | S754_finite _ m e => (e <? 0) && negb (Zpos m mod 2 ^ (- e) =? 0)
  | S754_infinity _ | S754_nan => true
  end.
Definition not_finite (f : spec_float) : bool :=
  match f with S754_infinity _ | S754_nan => true | _ => false end.

Definition safeInt (v : GoVal) : result string :=
  match v with
  | VInt val | VInt64 val => Ok (itoa val)
  | VFloat64 val =>
      if not_integral val then Err (Errorf (Sprintf "safeInt: %v is not a valid integer" [AVal v]))
      else Ok (itoa (int_of_float val))
  | VString val =>
      match parse_int val with
      | Some n => Ok (itoa n)
      | None => Err (Errorf (Sprintf "safeInt: %q is not a valid integer" [AStr val]))
      end
  | _ => Err (Errorf (Sprintf "safeInt: unsupported type %T" [AVal v]))
  end.

Definition safeFloat `{FloatText} (v : GoVal) : result string :=
  f ← match v with
      | VFloat64 val | VFloat32 val => Ok val
      | VInt val | VInt64 val => Ok (float_of_int val)
      | VString val =>
          match parse_float val with
          | Some f => Ok f
          | None => Err (Errorf (Sprintf "safeFloat: %q is not a valid float" [AStr val]))
          end
      | _ => Err (Errorf (Sprintf "safeFloat: unsupported type %T" [AVal v]))
      end;
  if not_finite f then Err (Errorf (Sprintf "safeFloat: %v is not a finite number" [AVal v]))
  else Ok (format_float f).

(** One segment of the loop of [safeIdentifier]. *)
Definition identifier_segment (seg : string) : result string :=
  if (slen seg =? 0) || (64 <? slen seg) then
    Err (Errorf (Sprintf "safeIdentifier: segment length must be 1-64 chars, got %d: %q"
                   [AInt (slen seg); AStr seg]))
  else if negb (str_forallb ident_char seg) then
    Err (Errorf (Sprintf "safeIdentifier: illegal characters in %q" [AStr seg]))
  else Ok ("`" +:+ seg +:+ "`").
Definition safeIdentifier (v : GoVal) : result string :=
  let s := sprint v in
  if String.eqb s EmptyString then Err (Errorf (Sprintf "safeIdentifier: empty identifier" []))
  else
    let segments := split_byte "."%char s in
    if 2 <? Z.of_nat (length segments) then
      Err (Errorf (Sprintf "safeIdentifier: too many segments (max 2): %q" [AStr s]))
    else parts ← mapR identifier_segment segments; Ok (join "." parts).

Definition string_item (ie : Z * GoVal) : result string :=
  match ie.2 with
  | VString s => Ok s
  | e => Err (Errorf (Sprintf "safeInList: element %d is %T, expected string" [AInt ie.1; AVal e]))
  end.
Definition safeInList (v : GoVal) : result string :=
  items ← match v with
          | VStrings val => Ok val
          | VSlice val => mapR string_item (indexed val)
          | _ => Err (Errorf (Sprintf "safeInList: unsupported type %T, expected []string or []any" [AVal v]))
          end;
  _ ← guard_err (Z.of_nat (length items) =? 0)
        (Errorf (Sprintf "safeInList: empty slice (IN () is invalid SQL)" []));
  Ok (join "," (map (fun item => quote (VString item)) items)).

Definition safeLike (v : GoVal) : string :=
  let s := sprint v in
  let s := replace_byte BSLASH (String BSLASH (str1 BSLASH)) s in
  let s := replace_byte "%"%char "\%" s in
  replace_byte "_"%char "\_" s.

Definition joinFn (v : GoVal) : result string :=
  match v with
  | VStrings val => Ok (join "," val)
  | VSlice val => Ok (join "," (map sprint val))
  | _ => Err (Errorf (Sprintf "join: unsupported type %T, expected []string or []any" [AVal v]))
  end.

(** [reflect.Value.IsZero]; slices and maps are taken to be non-nil. *)
Definition is_zero (v : GoVal) : bool :=
  match v with
  | VNil | VBool false | VInt 0 | VInt64 0 | VDuration 0
  | VFloat64 (S754_zero false) | VFloat32 (S754_zero false)
  | VString EmptyString | VJSONNumber EmptyString | VFloatPtr None => true
  | _ => false
  end.
Definition defaultFn (defaultVal val : GoVal) : GoVal := if is_zero val then defaultVal else val.
Definition upper `{UnicodeTables} (v : GoVal) : string := to_upper (sprint v).
Definition lower `{UnicodeTables} (v : GoVal) : string := to_lower (sprint v).
Definition trimSpace (v : GoVal) : string := trim_space (sprint v).
End FuncMap.

(** ** Vocabulary of the theorems *)

(** What a MySQL-protocol server makes of the text between the quotes of a literal. *)
Fixpoint sql_unescape (s : string) : string :=
  match s with
  | String c s1 =>
      match s1 with
      | String d s2 =>
          if Ascii.eqb c BSLASH || (Ascii.eqb c SQUOTE && Ascii.eqb d SQUOTE)
          then String d (sql_unescape s2) else String c (sql_unescape s1)
      | EmptyString => str1 c
      end
  | EmptyString => EmptyString
  end.
(** What LIKE ... ESCAPE '\' makes of an escaped pattern: [None] is a wildcard. *)
Fixpoint like_chars (s : string) : list (option ascii) :=
  match s with
  | String c s1 =>
      if Ascii.eqb c BSLASH then
        match s1 with String d s2 => Some d :: like_chars s2 | EmptyString => [Some c] end
      else (if Ascii.eqb c "%"%char || Ascii.eqb c "_"%char then None else Some c) :: like_chars s1
  | EmptyString => []
  end.
(** A prefix of the statement after which the scanner is in its normal state, having
    written [o], whatever literal comes next. *)
Definition boundary (pre o : string) : Prop :=
  forall x, starts_with SQUOTE x = true ->
    scan stateNormal (pre +:+ x) = emit o (scan stateNormal x).

(** A rendering of the values that have no simple text, for the witnesses. *)
Definition demo_fmt : GoFmt :=
  {| fmt_float64 _ := "1.5"; fmt_float32 _ := "1.5"; fmt_opaque _ := "{}" |}.

(** The escape of one byte, and of a text. *)
Definition esc_byte (c : ascii) : string :=
  if Ascii.eqb c NUL then EmptyString
  else if Ascii.eqb c BSLASH then String BSLASH (str1 BSLASH)
  else if Ascii.eqb c SQUOTE then String SQUOTE (str1 SQUOTE)
  else str1 c.
Fixpoint esc (s : string) : string :=
  match s with EmptyString => EmptyString | String c s' => esc_byte c +:+ esc s' end.
(** Bytes that mean nothing to the scanner. *)
Definition plain_byte (c : ascii) : bool :=
  negb (Ascii.eqb c SQUOTE || Ascii.eqb c DQUOTE || Ascii.eqb c BACKTICK || Ascii.eqb c ";"%char
        || Ascii.eqb c "-"%char || Ascii.eqb c "/"%char).

(** ** Lemmas *)

Lemma replace_byte_app old new s t :
  replace_byte old new (s +:+ t) = replace_byte old new s +:+ replace_byte old new t.
Proof.
  induction s as [|c s IH]; simpl; [done|]. destruct (Ascii.eqb c old); [|by rewrite IH].
  by rewrite IH, str_app_assoc.
Qed.

(** The three passes are one byte-wise escape. *)
Lemma safeString_esc `{GoFmt} v : safeString v = esc (sprint v).
Proof.
  unfold safeString. cbv zeta. induction (sprint v) as [|c s IH]; [done|].
  cbn [replace_byte esc]. unfold esc_byte at 1.
  destruct (Ascii.eqb_spec c NUL) as [->|]; [exact IH|]. cbn [replace_byte].
  destruct (Ascii.eqb_spec c BSLASH) as [->|].
  { rewrite replace_byte_app. by rewrite IH. }
  cbn [replace_byte]. destruct (Ascii.eqb_spec c SQUOTE) as [->|]; by rewrite IH.
Qed.

Lemma scan_esc s post :
  starts_with SQUOTE post = false ->
  scan stateInSingleQuote (esc s +:+ String SQUOTE post)
  = emit (esc s +:+ str1 SQUOTE) (scan stateNormal post).
Proof.
  intros Hp. induction s as [|c s IH].
  - cbn [esc String.append]. destruct post as [|d post]; [done|].
    rewrite (quoted_step stateInSingleQuote SQUOTE true) by done.
    simpl in Hp. rewrite Hp. done.
  - cbn [esc]. unfold esc_byte. destruct (Ascii.eqb_spec c NUL); [done|].
    destruct (Ascii.eqb_spec c BSLASH) as [->|Hb].
    { cbn [String.append str1]. rewrite (quoted_step stateInSingleQuote SQUOTE true) by done.
      simpl orb. cbv iota. by rewrite IH, emit_emit. }
    destruct (Ascii.eqb_spec c SQUOTE) as [->|Hq].
    { cbn [String.append str1]. rewrite (quoted_step stateInSingleQuote SQUOTE true) by done.
      simpl orb. cbv iota. by rewrite IH, emit_emit. }
    cbn [String.append str1].
    assert (exists d r, esc s +:+ String SQUOTE post = String d r) as (d & r & Hd)
      by (destruct (esc s); simpl; eauto).
    rewrite Hd, (quoted_step stateInSingleQuote SQUOTE true) by done.
    rewrite (proj2 (Ascii.eqb_neq _ _) Hb), (proj2 (Ascii.eqb_neq _ _) Hq). cbn [andb orb].
    by rewrite <- Hd, IH, emit_emit.
Qed.

Lemma quote_passes `{GoFmt} v : passes SQUOTE (quote v).
Proof.
  intros post Hp. unfold quote. rewrite safeString_esc. cbn [String.append str1].
  rewrite (scan_open stateInSingleQuote SQUOTE true), str_app_assoc by done.
  change (str1 SQUOTE +:+ post) with (String SQUOTE post).
  by rewrite scan_esc, emit_emit.
Qed.

Lemma passes_app q1 q2 s t :
  passes q1 s -> passes q2 t -> (forall post, starts_with q2 post = false -> starts_with q1 (t +:+ post) = false) ->
  passes q2 (s +:+ t).
Proof.
  intros Hs Ht Hst post Hp. rewrite str_app_assoc, Hs by auto. by rewrite Ht, emit_emit.
Qed.

Lemma plain_scan s post : str_forallb plain_byte s = true ->
  scan stateNormal (s +:+ post) = emit s (scan stateNormal post).
Proof.
  intros Hs. induction s as [|c s IH]; [simpl; by destruct (scan _ post)|].
  simpl in Hs. cbn [String.append].
  apply andb_true_iff in Hs as [Hc Hs]. unfold plain_byte in Hc.
  repeat rewrite ?negb_orb, ?andb_true_iff in Hc. destruct_and?.
  repeat match goal with H : negb (Ascii.eqb _ _) = true |- _ => apply negb_true_iff, Ascii.eqb_neq in H end.
  rewrite scan_byte by done. by rewrite IH, emit_emit.
Qed.

Lemma plain_passes q s : str_forallb plain_byte s = true -> passes q s.
Proof. intros Hs post _. by apply plain_scan. Qed.

Lemma ident_plain c : ident_char c = true -> plain_byte c = true.
Proof.
  intros Hc%ident_char_not_special. unfold plain_byte.
  destruct Hc as (H1 & H2 & H3 & _ & _ & H6 & _ & H8 & H9).
  repeat match goal with H : c <> _ |- _ => rewrite (proj2 (Ascii.eqb_neq _ _) H); clear H end. done.
Qed.

Lemma segment_passes seg out : identifier_segment seg = Ok out ->
  passes BACKTICK out /\ out = "`" +:+ seg +:+ "`" /\ 1 <= slen seg <= 64 /\ str_forallb ident_char seg = true.
Proof.
  unfold identifier_segment. destruct ((slen seg =? 0) || (64 <? slen seg)) eqn:Hl; [done|].
  destruct (str_forallb ident_char seg) eqn:Hc; [|done]. intros [= <-].
  pose proof (slen_nonneg seg). split; [|split; [done|split; [lia|done]]].
  intros post Hp.
  trans (scan stateNormal (String BACKTICK (seg +:+ String BACKTICK post)));
    [cbn [String.append]; by rewrite str_app_assoc|].
  rewrite (scan_open stateInBacktick BACKTICK false) by done. clear -Hp Hc.
  assert (Hb : scan stateInBacktick (seg +:+ String BACKTICK post)
             = emit (seg +:+ str1 BACKTICK) (scan stateNormal post)).
  { induction seg as [|c s IH].
    - cbn [String.append]. destruct post as [|d post]; [done|].
      rewrite (quoted_step stateInBacktick BACKTICK false) by done. simpl in Hp. by rewrite Hp.
    - simpl in Hc. apply andb_true_iff in Hc as [Hc Hs]. specialize (IH Hs).
      cbn [String.append].
      assert (exists d r, s +:+ String BACKTICK post = String d r) as (d & r & Hd)
        by (destruct s; simpl; eauto).
      rewrite Hd, (quoted_step stateInBacktick BACKTICK false) by done.
      destruct (ident_char_not_special c Hc) as (Hn & _).
      rewrite (proj2 (Ascii.eqb_neq _ _) Hn). cbn [andb orb]. by rewrite <- Hd, IH, emit_emit. }
  by rewrite Hb, emit_emit.
Qed.

(** ** Theorems *)

(** C13: a quoted value is one literal.  Whatever the value, the text [quote] makes is
    scanned, from the normal state and before anything but another quote, as exactly one
    closed string literal: the scanner is back in its normal state after it.  Hence in a
    statement [pre 'value' post] the verdict and the cleaned text of [post] do not depend on
    the value. *)
Theorem quoted_value_confined `{GoFmt} pre o v post :
  boundary pre o -> starts_with SQUOTE post = false ->
  sanitizeSQL (pre +:+ quote v +:+ post) = emit (o +:+ quote v) (sanitizeSQL post).
Proof.
  intros Hb Hp. unfold sanitizeSQL. rewrite Hb by done.
  by rewrite quote_passes, emit_emit by done.
Qed.

(** C31: what the server reads inside the quotes is the value, without its NUL bytes. *)
Theorem safeString_roundtrip `{GoFmt} v :
  sql_unescape (safeString v) = replace_byte NUL EmptyString (sprint v).
Proof.
  rewrite safeString_esc. induction (sprint v) as [|c s IH]; [done|].
  cbn [esc replace_byte]. unfold esc_byte.
  destruct (Ascii.eqb_spec c NUL) as [->|]; [done|].
  destruct (Ascii.eqb_spec c BSLASH) as [->|Hb].
  { cbn [String.append str1]. rewrite <- IH. done. }
  destruct (Ascii.eqb_spec c SQUOTE) as [->|Hq].
  { cbn [String.append str1]. rewrite <- IH. done. }
  cbn [String.append str1]. rewrite <- IH. destruct (esc s) as [|d r]; [done|].
  cbn [sql_unescape]. by rewrite (proj2 (Ascii.eqb_neq _ _) Hb), (proj2 (Ascii.eqb_neq _ _) Hq).
Qed.

Lemma safeIdentifier_facts `{GoFmt} v out :
  safeIdentifier v = Ok out ->
  passes BACKTICK out
  /\ ((exists a, out = "`" +:+ a +:+ "`" /\ str_forallb ident_char a = true /\ 1 <= slen a <= 64)
      \/ exists a b, out = "`" +:+ a +:+ "`.`" +:+ b +:+ "`"
          /\ str_forallb ident_char (a +:+ b) = true /\ 1 <= slen a <= 64 /\ 1 <= slen b <= 64).
Proof.
  unfold safeIdentifier. destruct (String.eqb _ _); [done|].
  destruct (split_byte "."%char (sprint v)) as [|s1 [|s2 [|s3 l]]] eqn:Hs; simpl.
  - by apply split_byte_nonempty in Hs.
  - intros (parts & (p1 & H1 & [= <-])%bind_Ok & [= <-])%bind_Ok. simpl.
    apply segment_passes in H1 as (Hp & -> & Hl & Hc). split; [done|]. left. by exists s1.
  - intros (parts & (p1 & H1 & (ps & (p2 & H2 & [= <-])%bind_Ok & [= <-])%bind_Ok)%bind_Ok & [= <-])%bind_Ok.
    apply segment_passes in H1 as (Hp1 & -> & Hl1 & Hc1). apply segment_passes in H2 as (Hp2 & -> & Hl2 & Hc2).
    split.
    + apply (passes_app BACKTICK BACKTICK ("`" +:+ s1 +:+ "`") ("." +:+ ("`" +:+ s2 +:+ "`"))); [exact Hp1| |done].
      apply (passes_app SQUOTE BACKTICK "." ("`" +:+ s2 +:+ "`")); [by apply plain_passes|exact Hp2|done].
    + right. exists s1, s2. rewrite str_forallb_app, Hc1, Hc2. split; [|done].
      cbn [join]. rewrite !str_app_assoc. done.
  - destruct (2 <? Z.of_nat (S (S (S (length l))))) eqn:E; [done|lia].
Qed.

(** a name accepted by [safeIdentifier] is one or two backtick-quoted segments of 1 to
    64 identifier characters joined by a dot, and is scanned as closed quoted identifiers. *)
Theorem safeIdentifier_shape `{GoFmt} v out :
  safeIdentifier v = Ok out ->
  passes BACKTICK out
  /\ ((exists a, out = "`" +:+ a +:+ "`" /\ str_forallb ident_char a = true /\ 1 <= slen a <= 64)
      \/ exists a b, out = "`" +:+ a +:+ "`.`" +:+ b +:+ "`"
          /\ str_forallb ident_char (a +:+ b) = true /\ 1 <= slen a <= 64 /\ 1 <= slen b <= 64).
Proof. apply safeIdentifier_facts. Qed.

(** the list for IN is scanned as closed literals: no element, whatever its content,
    escapes its quotes; the list is never empty; non-string elements are refused. *)
Theorem safeInList_passes `{GoFmt} v out :
  safeInList v = Ok out ->
  passes SQUOTE out /\ exists items, items <> [] /\ (v = VStrings items \/ v = VSlice (map VString items))
                       /\ out = join "," (map (fun i => quote (VString i)) items).
Proof.
  unfold safeInList. intros (items & Hi & ([] & Hn%guard_err_Ok & [= <-])%bind_Ok)%bind_Ok.
  assert (items <> []) as Hne by by intros ->. split.
  - clear Hi Hn. induction items as [|i [|j l] IH]; [done|by apply quote_passes|].
    cbn [map] in *. rewrite join_cons. eapply (passes_app SQUOTE); [apply quote_passes| |done].
    eapply (passes_app BACKTICK); [by apply plain_passes|by apply IH|].
    intros post _. by destruct l.
  - exists items. split; [done|]. split; [|done]. destruct v; try done.
    + injection Hi as ->. by left.
    + right. f_equal. clear Hn Hne. revert items Hi. unfold indexed. generalize 0.
      induction l as [|x l IH]; intros z items; simpl; [by intros [= <-]|].
      intros (s & Hs & (ss & Hss & [= <-])%bind_Ok)%bind_Ok. simpl.
      unfold string_item in Hs. simpl in Hs. destruct x; try done. injection Hs as ->.
      f_equal. by eapply IH.
Qed.

(** an escaped LIKE pattern matches only the value itself: read with backslash as the
    escape character it contains no wildcard, and its characters are the value's. *)
Theorem safeLike_no_wildcard `{GoFmt} v :
  like_chars (safeLike v) = map Some (list_ascii_of_string (sprint v)).
Proof.
  unfold safeLike. cbv zeta. induction (sprint v) as [|c s IH]; [done|].
  cbn [replace_byte list_ascii_of_string map].
  destruct (Ascii.eqb_spec c BSLASH) as [->|Hb].
  { rewrite !replace_byte_app. rewrite <- IH. done. }
  cbn [replace_byte]. destruct (Ascii.eqb_spec c "%"%char) as [->|Hpc].
  { rewrite !replace_byte_app. rewrite <- IH. done. }
  cbn [replace_byte]. destruct (Ascii.eqb_spec c "_"%char) as [->|Hu].
  { rewrite <- IH. done. }
  cbn [like_chars]. rewrite (proj2 (Ascii.eqb_neq _ _) Hb), (proj2 (Ascii.eqb_neq _ _) Hpc),
    (proj2 (Ascii.eqb_neq _ _) Hu). cbn [orb]. by rewrite IH.
Qed.

(** an integer a template prints is an integer: the text [safeInt] makes is the decimal
    text of some [int64], and for a string argument of the integer it parses to. *)
Theorem safeInt_decimal v out :
  (match v with VInt z | VInt64 z => in_int64 z | _ => True end) ->
  safeInt v = Ok out ->
  exists z, in_int64 z /\ out = itoa z /\ parse_int out = Some z
    /\ (forall s, v = VString s -> parse_int s = Some z).
Proof.
  intros Hv H.
  assert (exists z, in_int64 z /\ out = itoa z /\ (forall s, v = VString s -> parse_int s = Some z)) as (z & Hz & -> & Hs).
  { unfold safeInt in H. destruct v; try done; simplify_eq/=; try (eexists; by split_and!).
    - destruct (not_integral f); [done|]. injection H as <-. exists (int_of_float f).
      split; [apply int_of_float_range|done].
    - destruct (parse_int s) as [n|] eqn:E; [|done]. injection H as <-. exists n.
      split; [by eapply parse_int_range|]. split; [done|]. by intros ? [= <-]. }
  exists z. by rewrite parse_int_itoa.
Qed.

(** ** Witnesses *)

Lemma quoted_value_confined_witness :
  sanitizeSQL ("SELECT * FROM t WHERE a=" +:+ quote (H := demo_fmt) (VString "x' OR 1=1; --") +:+ " -- end")
  = Ok "SELECT * FROM t WHERE a='x'' OR 1=1; --' ".
Proof.
  rewrite (quoted_value_confined (H := demo_fmt) "SELECT * FROM t WHERE a=" "SELECT * FROM t WHERE a="
    (VString "x' OR 1=1; --") " -- end"); [reflexivity| |reflexivity].
  intros x _. apply plain_scan. reflexivity.
Defined.
Lemma safeIdentifier_shape_witness :
  safeIdentifier (H := demo_fmt) (VString "db.users") = Ok "`db`.`users`"
  /\ passes BACKTICK "`db`.`users`".
Proof.
  split; [reflexivity|]. exact (proj1 (safeIdentifier_shape (H := demo_fmt) (VString "db.users") _ eq_refl)).
Defined.
Lemma safeInList_passes_witness :
  safeInList (H := demo_fmt) (VSlice [VString "a"; VString "b's"]) = Ok "'a','b''s'"
  /\ passes SQUOTE "'a','b''s'".
Proof.
  split; [reflexivity|].
  exact (proj1 (safeInList_passes (H := demo_fmt) (VSlice [VString "a"; VString "b's"]) _ eq_refl)).
Defined.
Lemma safeInt_decimal_witness : exists z, in_int64 z /\ "-42" = itoa z /\ parse_int "-42" = Some z
  /\ (forall s, VString "-0042" = VString s -> parse_int s = Some z).
Proof. apply (safeInt_decimal (VString "-0042") "-42" I). reflexivity. Defined.
