(* ===== verification/Pagination.v ===== *)
(** * internal/template/pagination.go: the statement around a rendered template

    [wrapWithPagination] and [wrapWithCount], and that what they make of sanitized SQL is
    again one sanitized statement.  The Go functions return no arguments (the limits are
    inlined), so only the text is modelled. *)
From S2P Require Import Prelude GoStrings Values Sanitizer FuncMap.

Record TemplateOrderByParam := { obField : string; obDirection : string }.

Section Pagination.
Context `{GoFmt}.

Definition safe_or (what f : string) : result string :=
  match safeIdentifier (VString f) with
  | Ok safe => Ok safe
  | Err err => Err (ValidationError ErrValidationInvalidField (Sprintf what [AStr f; AErr err]))
  end.
Definition sort_direction (dir : string) : string := if equal_fold "DESC" dir then "DESC" else "ASC".
Definition order_part (ob : TemplateOrderByParam) : result string :=
  safe ← safe_or "invalid orderBy field %q: %v" (obField ob);
  Ok (safe +:+ " " +:+ sort_direction (obDirection ob)).

Definition wrapWithPagination (renderedSQL : string) (fields : list string)
    (orderBy : list TemplateOrderByParam) (first offset : option Z) (maxResultRows : Z) : result string :=
  let limit := wrap64 (default maxResultRows first + 1) in
  let off := default 0 offset in
  fieldSelection ← (if Z.of_nat (length fields) =? 0 then Ok "*"
                    else parts ← mapR (safe_or "invalid field name %q: %v") fields; Ok (join ", " parts));
  orderByClause ← (if Z.of_nat (length orderBy) =? 0 then Ok EmptyString
                   else parts ← mapR order_part orderBy; Ok (" ORDER BY " +:+ join ", " parts));
  Ok ("SELECT " +:+ fieldSelection +:+ " FROM (" +:+ renderedSQL +:+ ") AS __tq_wrapper__"
        +:+ orderByClause +:+ " LIMIT " +:+ itoa limit +:+ " OFFSET " +:+ itoa off).

Definition wrapWithCount (renderedSQL : string) : string :=
  "SELECT COUNT(*) AS total_count FROM (" +:+ renderedSQL +:+ ") AS __tq_cnt__".

(** ** Lemmas *)

(** A text that passes whatever comes next, quotes of identifiers excepted. *)
Lemma passes_plain s t : passes BACKTICK s -> str_forallb plain_byte t = true -> t <> EmptyString ->
  starts_with BACKTICK t = false -> passes BACKTICK (s +:+ t).
Proof.
  intros Hs Ht Hne Hb. apply (passes_app BACKTICK BACKTICK); [done|by apply plain_passes|].
  intros post _. by destruct t.
Qed.

Lemma safe_or_passes what f out : safe_or what f = Ok out -> passes BACKTICK out.
Proof.
  unfold safe_or. destruct (safeIdentifier (VString f)) as [o|] eqn:E; [|done]. intros [= <-].
  by apply safeIdentifier_facts in E as [? _].
Qed.
Lemma sort_direction_cases dir : sort_direction dir = "DESC" \/ sort_direction dir = "ASC".
Proof. unfold sort_direction. destruct (equal_fold _ dir); auto. Qed.
Lemma order_part_passes ob out : order_part ob = Ok out -> passes BACKTICK out.
Proof.
  unfold order_part. intros (s & Hs%safe_or_passes & [= <-])%bind_Ok.
  destruct (sort_direction_cases (obDirection ob)) as [-> | ->];
    (apply passes_plain; [done|reflexivity|discriminate|reflexivity]).
Qed.

Lemma plain_then t s q : str_forallb plain_byte t = true -> passes q s -> passes q (t +:+ s).
Proof. intros Ht Hs post Hp. rewrite str_app_assoc, plain_scan, Hs by done. by rewrite emit_emit. Qed.

Lemma join_passes parts : Forall (passes BACKTICK) parts -> passes BACKTICK (join ", " parts).
Proof.
  induction 1 as [|p parts Hp Hps IH]; [by apply plain_passes|].
  destruct parts as [|p2 parts]; [done|]. rewrite join_cons.
  apply (passes_app BACKTICK BACKTICK); [done|by apply plain_then|done].
Qed.

Lemma mapR_passes {A} (f : A -> result string) l parts :
  (forall a out, f a = Ok out -> passes BACKTICK out) -> mapR f l = Ok parts -> Forall (passes BACKTICK) parts.
Proof. intros Hf Hm%mapR_Ok. induction Hm; constructor; eauto. Qed.

Lemma digits_plain s : str_forallb is_digit s = true -> str_forallb plain_byte s = true.
Proof. apply str_forallb_impl. intros c Hc. apply ident_plain. unfold ident_char. by rewrite Hc, orb_true_r. Qed.

Lemma itoa_passes z q : passes q (itoa z).
Proof.
  rewrite itoa_eq. destruct z as [|p|p]; cbn [signed_digits]; [by apply plain_passes|..];
    destruct (pretty_N_digits (Npos p)) as (Hd & _ & Hn); [by apply plain_passes, digits_plain|].
  intros post _. destruct (digits_head _ Hd Hn) as (c & r & E & Hc). rewrite E in *. cbn [String.append].
  rewrite scan_byte; try done.
  - change (String c (r +:+ post)) with (String c r +:+ post).
    rewrite plain_scan by by apply digits_plain. by rewrite emit_emit.
  - intros _. cbn [starts_with]. apply Ascii.eqb_neq. by apply digit_not_sign.
Qed.

(** A closing parenthesis and what follows continues no token. *)
Lemma benign_paren t : benign (")" +:+ t).
Proof. by repeat constructor. Qed.

(** Sanitized SQL between a head that passes before anything and a tail after a closing
    parenthesis. *)
Lemma embed raw sql head tail :
  sanitizeSQL raw = Ok sql ->
  (forall post, scan stateNormal (head +:+ post) = emit head (scan stateNormal post)) ->
  passes BACKTICK tail ->
  sanitizeSQL (head +:+ sql +:+ ")" +:+ tail) = Ok (head +:+ sql +:+ ")" +:+ tail).
Proof.
  unfold sanitizeSQL. intros Hraw Hh Ht. rewrite Hh.
  rewrite (scan_again raw sql (")" +:+ tail)) by (done || apply benign_paren).
  rewrite plain_scan by done. specialize (Ht EmptyString eq_refl). rewrite str_app_nil_r in Ht.
  rewrite Ht. simpl. by rewrite str_app_nil_r.
Qed.

Lemma wrapped_scans raw sql fields orderBy first offset maxRows w :
  sanitizeSQL raw = Ok sql ->
  wrapWithPagination sql fields orderBy first offset maxRows = Ok w ->
  sanitizeSQL w = Ok w.
Proof.
  intros Hraw. unfold wrapWithPagination.
  intros (fs & Hfs & (ob & Hob & Hw)%bind_Ok)%bind_Ok. apply Ok_inj in Hw as <-.
  assert (Hpf : passes BACKTICK fs).
  { destruct (Z.of_nat (length fields) =? 0) in Hfs; [injection Hfs as <-; by apply plain_passes|].
    apply bind_Ok in Hfs as (parts & Hp & [= <-]). apply join_passes.
    eapply mapR_passes; [|exact Hp]. intros a out. apply safe_or_passes. }
  assert (Hpo : passes BACKTICK ob).
  { destruct (Z.of_nat (length orderBy) =? 0) in Hob; [injection Hob as <-; by apply plain_passes|].
    apply bind_Ok in Hob as (parts & Hp & E). assert (ob = " ORDER BY " +:+ join ", " parts) as -> by congruence.
    apply plain_then; [done|]. apply join_passes.
    eapply mapR_passes; [|exact Hp]. intros a out. apply order_part_passes. }
  pose proof (embed raw sql ("SELECT " +:+ fs +:+ " FROM (")
      (" AS __tq_wrapper__" +:+ ob +:+ " LIMIT " +:+ itoa (wrap64 (default maxRows first + 1))
        +:+ " OFFSET " +:+ itoa (default 0 offset)) Hraw) as He.
  rewrite !str_app_assoc in He. apply He.
  - intros post. rewrite !str_app_assoc, plain_scan, Hpf, plain_scan by done. by rewrite !emit_emit.
  - apply plain_then; [done|]. apply (passes_app BACKTICK BACKTICK); [done| |done].
    apply plain_then; [done|]. apply (passes_app BACKTICK BACKTICK); [apply itoa_passes| |done].
    apply plain_then; [done|]. apply itoa_passes.
Qed.
Lemma count_scans raw sql : sanitizeSQL raw = Ok sql -> sanitizeSQL (wrapWithCount sql) = Ok (wrapWithCount sql).
Proof.
  intros Hraw. apply (embed raw sql "SELECT COUNT(*) AS total_count FROM (" " AS __tq_cnt__" Hraw).
  - intros post. by apply plain_scan.
  - by apply plain_passes.
Qed.

(** ** Theorems *)

(** the wrapped statement is one statement.  Around sanitized SQL both wrappers make a
    text the sanitizer accepts as it is: no semicolon outside quotes, no comment, nothing
    unclosed, whatever fields and orderings the client asked for.  Its page is the first
    [limit] rows after [offset], one more than asked for. *)
Theorem wrapped_statement_safe raw sql fields orderBy first offset maxRows w :
  sanitizeSQL raw = Ok sql ->
  wrapWithPagination sql fields orderBy first offset maxRows = Ok w ->
  sanitizeSQL w = Ok w /\ sanitizeSQL (wrapWithCount sql) = Ok (wrapWithCount sql)
  /\ exists head, w = head +:+ " LIMIT " +:+ itoa (wrap64 (default maxRows first + 1))
                       +:+ " OFFSET " +:+ itoa (default 0 offset).
Proof.
  intros Hraw Hw. split; [by eapply wrapped_scans|]. split; [by eapply count_scans|].
  unfold wrapWithPagination in Hw. apply bind_Ok in Hw as (fs & _ & (ob & _ & Hw)%bind_Ok). apply Ok_inj in Hw as <-.
  exists ("SELECT " +:+ fs +:+ " FROM (" +:+ sql +:+ ") AS __tq_wrapper__" +:+ ob). by rewrite !str_app_assoc.
Qed.
End Pagination.

(** ** Witness *)

Lemma wrapped_statement_safe_witness :
  let sql := "SELECT a FROM t WHERE b=';' " in
  match wrapWithPagination (H := demo_fmt) sql ["a"] [{| obField := "t.a"; obDirection := "desc" |}] (Some 10) None 100 with
  | Ok w => sanitizeSQL w = Ok w
            /\ w = "SELECT `a` FROM (SELECT a FROM t WHERE b=';' ) AS __tq_wrapper__ ORDER BY `t`.`a` DESC LIMIT 11 OFFSET 0"
  | Err _ => False
  end.
Proof.
  intros sql.
  destruct (wrapWithPagination (H := demo_fmt) sql ["a"] [{| obField := "t.a"; obDirection := "desc" |}] (Some 10) None 100)
    as [w|] eqn:E; [|discriminate E].
  split.
  - refine (proj1 (wrapped_statement_safe (H := demo_fmt) "SELECT a FROM t WHERE b=';' -- x" sql ["a"]
      [{| obField := "t.a"; obDirection := "desc" |}] (Some 10) None 100 w _ E)). reflexivity.
  - vm_compute in E. injection E as <-. reflexivity.
Defined.
