(* ===== verification/TemplateParams.v ===== *)
(** * internal/template/validator.go and the schemas of loader.go

    Parameter schemas ([compileParamSchemas], [parseDefaultValue]) and the validation of a
    request against them ([validateParams]).  A Go [map\[string\]any] is a [gmap]; package
    [regexp] and the decimal text of floats are parameters. *)
From S2P Require Import Prelude GoStrings Values GoConv Sanitizer FuncMap.

(** Package [regexp]: compilation and unanchored matching. *)
Class GoRegexp := {
  Regexp : Type;
  regexp_Compile : string -> result Regexp;
  MatchString : Regexp -> string -> bool;
  regexp_String : Regexp -> string;
}.

(** internal/config/config.go. *)
Record TemplateParamConfig := {
  pcName : string; pcType : string; pcRequired : bool; pcDefault : option string;
  pcEnum : list string; pcMaxLength : option Z; pcMaxItems : option Z; pcPattern : option string;
}.

Section TemplateParams.
Context {GF : GoFmt} {FT : FloatText} {GR : GoRegexp}.

Record ParamSchema := {
  psName : string; psType : string; psRequired : bool; psDefault : GoVal;
  psEnum : list string; psMaxLength : Z; psMaxItems : Z; psPattern : option Regexp;
}.

(** ** Schemas *)

Definition parseDefaultValue (raw paramType : string) : result GoVal :=
  if String.eqb paramType "string" then Ok (VString raw)
  else if String.eqb paramType "int" then
    match parse_int raw with
    | Some v => Ok (VInt64 v)
    | None => Err (Errorf (Sprintf "cannot parse %q as int: %w" [AStr raw]))
    end
  else if String.eqb paramType "float" then
    match parse_float raw with
    | Some v => Ok (VFloat64 v)
    | None => Err (Errorf (Sprintf "cannot parse %q as float: %w" [AStr raw]))
    end
  else if String.eqb paramType "boolean" then
    match parse_bool raw with
    | Some v => Ok (VBool v)
    | None => Err (Errorf (Sprintf "cannot parse %q as boolean: %w" [AStr raw]))
    end
  else if String.eqb paramType "string[]" then Ok VNil
  else Err (Errorf (Sprintf "unsupported type %q" [AStr paramType])).

(** The body of the loop of [compileParamSchemas]. *)
Definition compile_one (p : TemplateParamConfig) : result ParamSchema :=
  pattern ← match pcPattern p with
            | Some pat =>
                if String.eqb pat EmptyString then Ok None
                else match regexp_Compile pat with
                     | Ok re => Ok (Some re)
                     | Err err => Err (Wrap (Sprintf "parameter %q: invalid pattern %q: %w"
                                               [AStr (pcName p); AStr pat; AErr err]) err)
                     end
            | None => Ok None
            end;
  def ← match pcDefault p with
        | Some d =>
            match parseDefaultValue d (pcType p) with
            | Ok def => Ok def
            | Err err => Err (Wrap (Sprintf "parameter %q: invalid default %q for type %q: %w"
                                      [AStr (pcName p); AStr d; AStr (pcType p); AErr err]) err)
            end
        | None => Ok VNil
        end;
  Ok {| psName := pcName p; psType := pcType p; psRequired := pcRequired p; psDefault := def;
        psEnum := pcEnum p; psMaxLength := default 1024 (pcMaxLength p);
        psMaxItems := default 1000 (pcMaxItems p); psPattern := pattern |}.
Definition compileParamSchemas (params : list TemplateParamConfig) : result (list ParamSchema) :=
  mapR compile_one params.

(** ** Conversion *)

Definition type_error (msg name : string) (args : list arg) : error :=
  ValidationError ErrValidationInvalidParameterType (Sprintf msg (AStr name :: args)).

Definition convertString (name : string) (val : GoVal) : result string :=
  match val with
  | VString s => Ok s
  | _ => Err (type_error "parameter %q must be string, got %T" name [AVal val])
  end.
Definition convertInt (name : string) (val : GoVal) : result Z :=
  match val with
  | VInt v | VInt64 v => Ok v
  | VFloat64 v =>
      if not_integral v
      then Err (type_error "parameter %q must be int, got float64 with decimal part" name [])
      else Ok (int_of_float v)
  | VString v =>
      match parse_int v with
      | Some i => Ok i
      | None => Err (type_error "parameter %q must be int, got unparseable string %q" name [AStr v])
      end
  | _ => Err (type_error "parameter %q must be int, got %T" name [AVal val])
  end.
Definition convertFloat (name : string) (val : GoVal) : result spec_float :=
  match val with
  | VFloat64 f | VFloat32 f =>
      if not_finite f
      then Err (type_error "parameter %q must be a finite float, got %v" name [AVal val]) else Ok f
  | VInt v | VInt64 v => Ok (float_of_int v)
  | VString v =>
      match parse_float v with
      | Some f =>
          if not_finite f
          then Err (type_error "parameter %q must be a finite float, got %v" name [AVal (VFloat64 f)])
          else Ok f
      | None => Err (type_error "parameter %q must be float, got unparseable string %q" name [AStr v])
      end
  | _ => Err (type_error "parameter %q must be float, got %T" name [AVal val])
  end.
Definition convertBoolean (name : string) (val : GoVal) : result bool :=
  match val with
  | VBool b => Ok b
  | _ => Err (type_error "parameter %q must be boolean, got %T" name [AVal val])
  end.
Definition slice_item (name : string) (ie : Z * GoVal) : result string :=
  match ie.2 with
  | VString s => Ok s
  | e => Err (type_error "parameter %q[%d] must be string, got %T" name [AInt ie.1; AVal e])
  end.
Definition convertStringSlice (name : string) (val : GoVal) : result (list string) :=
  match val with
  | VStrings v => Ok v
  | VSlice v => mapR (slice_item name) (indexed v)
  | _ => Err (type_error "parameter %q must be string[], got %T" name [AVal val])
  end.
Definition convertParamType (name : string) (val : GoVal) (schemaType : string) : result GoVal :=
  if String.eqb schemaType "string" then VString <$> convertString name val
  else if String.eqb schemaType "int" then VInt64 <$> convertInt name val
  else if String.eqb schemaType "float" then VFloat64 <$> convertFloat name val
  else if String.eqb schemaType "boolean" then VBool <$> convertBoolean name val
  else if String.eqb schemaType "string[]" then VStrings <$> convertStringSlice name val
  else Err (type_error "parameter %q has unsupported type %q" name [AStr schemaType]).

(** ** Constraints *)

Definition value_error (msg : string) (args : list arg) : error :=
  ValidationError ErrValidationInvalidParameterValue (Sprintf msg args).
Definition validateConstraints (schema : ParamSchema) (val : GoVal) : result unit :=
  _ ← guard_err ((0 <? Z.of_nat (length (psEnum schema)))
                   && negb (existsb (String.eqb (sprint val)) (psEnum schema)))
        (value_error "parameter %q value %q is not in allowed values %v"
           [AStr (psName schema); AStr (sprint val); AStrs (psEnum schema)]);
  _ ← guard_err (String.eqb (psType schema) "string" &&
                   match val with
                   | VString s => (0 <? psMaxLength schema) && (psMaxLength schema <? slen s)
                   | _ => false
                   end)
        (value_error "parameter %q length %d exceeds max_length %d" [AStr (psName schema); AInt (psMaxLength schema)]);
  _ ← guard_err (String.eqb (psType schema) "string[]" &&
                   match val with
                   | VStrings ss => (0 <? psMaxItems schema) && (psMaxItems schema <? Z.of_nat (length ss))
                   | _ => false
                   end)
        (value_error "parameter %q has %d items, exceeds max_items %d" [AStr (psName schema); AInt (psMaxItems schema)]);
  guard_err (String.eqb (psType schema) "string" &&
               match psPattern schema, val with
               | Some re, VString s => negb (MatchString re s)
               | _, _ => false
               end)
    (value_error "parameter %q value %q does not match pattern %q" [AStr (psName schema)]).

(** ** The loop *)

(** One iteration of the loop of [validateParams] on the copied map. *)
Definition validate_one (params : gmap string GoVal) (schema : ParamSchema) : result (gmap string GoVal) :=
  match params !! psName schema with
  | None =>
      if psRequired schema
      then Err (ValidationError ErrValidationMissingParameter
                  (Sprintf "required parameter %q is missing" [AStr (psName schema)]))
      else match psDefault schema with
           | VNil => Ok params
           | def => Ok (<[psName schema := def]> params)
           end
  | Some val =>
      converted ← convertParamType (psName schema) val (psType schema);
      _ ← validateConstraints schema converted;
      Ok (<[psName schema := converted]> params)
  end.
Fixpoint validateParams (params : gmap string GoVal) (schemas : list ParamSchema)
    : result (gmap string GoVal) :=
  match schemas with
  | [] => Ok params
  | schema :: schemas' => params' ← validate_one params schema; validateParams params' schemas'
  end.

(** ** Specification *)

(** The dynamic type a schema type stands for. *)
Definition has_type (t : string) (v : GoVal) : bool :=
  match v with
  | VString _ => String.eqb t "string"
  | VInt64 _ => String.eqb t "int"
  | VFloat64 _ => String.eqb t "float"
  | VBool _ => String.eqb t "boolean"
  | VStrings _ => String.eqb t "string[]"
  | _ => false
  end.
(** The constraints of a schema, as a predicate on a converted value. *)
Definition satisfies (s : ParamSchema) (v : GoVal) : Prop :=
  (psEnum s = [] \/ sprint v ∈ psEnum s) /\
  (forall t, v = VString t ->
     (0 < psMaxLength s -> slen t <= psMaxLength s) /\
     (forall re, psPattern s = Some re -> MatchString re t = true)) /\
  (forall ts, v = VStrings ts -> 0 < psMaxItems s -> Z.of_nat (length ts) <= psMaxItems s).

(** What becomes of one parameter, by itself: from its value in the request to the value
    the template sees. *)
Inductive resolved (s : ParamSchema) : option GoVal -> option GoVal -> Prop :=
  | resolved_absent : psRequired s = false -> psDefault s = VNil -> resolved s None None
  | resolved_default : psRequired s = false -> psDefault s <> VNil -> resolved s None (Some (psDefault s))
  | resolved_given v w : convertParamType (psName s) v (psType s) = Ok w ->
      has_type (psType s) w = true -> satisfies s w -> resolved s (Some v) (Some w).

(** ** Lemmas *)

Lemma convert_typed name v t w : convertParamType name v t = Ok w -> has_type t w = true.
Proof.
  unfold convertParamType.
  repeat match goal with |- context [String.eqb t ?k] => destruct (String.eqb_spec t k) as [->|_] end;
    try discriminate; intros Hw;
    match type of Hw with (_ <$> ?c) = _ => destruct c; [|discriminate Hw] end;
    injection Hw as <-; reflexivity.
Qed.

Lemma guards_Ok b1 b2 b3 b4 e1 e2 e3 e4 :
  (_ ← guard_err b1 e1; _ ← guard_err b2 e2; _ ← guard_err b3 e3; guard_err b4 e4) = Ok tt
  <-> b1 = false /\ b2 = false /\ b3 = false /\ b4 = false.
Proof. destruct b1, b2, b3, b4; split; (intros (? & ? & ? & ?) || intros ?); try discriminate; auto. Qed.

Lemma enum_allowed x (l : list string) :
  (0 <? Z.of_nat (length l)) && negb (existsb (String.eqb x) l) = false <-> l = [] \/ x ∈ l.
Proof.
  rewrite andb_false_iff, negb_false_iff, existsb_exists, Z.ltb_ge.
  setoid_rewrite String.eqb_eq. setoid_rewrite <- list_elem_of_In.
  destruct l; simpl; naive_solver lia.
Qed.

Lemma validateConstraints_Ok s v : has_type (psType s) v = true ->
  validateConstraints s v = Ok tt <-> satisfies s v.
Proof.
  intros Ht. unfold validateConstraints, satisfies. rewrite guards_Ok, enum_allowed.
  apply and_iff_compat_l.
  destruct v; try discriminate Ht; apply String.eqb_eq in Ht; rewrite Ht;
    cbn [String.eqb Ascii.eqb Bool.eqb andb]; try (by split; intros _; split_and!; try done; intros; discriminate).
  - rewrite !andb_false_iff, !Z.ltb_ge. split.
    + intros (Hl & _ & Hp). split; [|done]. intros t [= <-]. split; [lia|].
      intros re Hre. rewrite Hre in Hp. by apply negb_false_iff.
    + intros (Hs & _). destruct (Hs s0 eq_refl) as [Hl Hp]. split_and!; [lia|done|].
      destruct (psPattern s) as [re|]; [|done]. by rewrite Hp.
  - rewrite !andb_false_iff, !Z.ltb_ge. split.
    + intros (_ & Hl & _). split; [done|]. intros ts [= <-]. lia.
    + intros (_ & Hs). specialize (Hs l eq_refl). split_and!; [done|lia|by destruct (psPattern s)].
Qed.

(** The loop body on the value of its own parameter. *)
Definition resolve (s : ParamSchema) (o : option GoVal) : result (option GoVal) :=
  match o with
  | None => if psRequired s
            then Err (ValidationError ErrValidationMissingParameter
                        (Sprintf "required parameter %q is missing" [AStr (psName s)]))
            else match psDefault s with VNil => Ok None | def => Ok (Some def) end
  | Some v => w ← convertParamType (psName s) v (psType s); _ ← validateConstraints s w; Ok (Some w)
  end.

Lemma resolve_resolved s o o' : resolve s o = Ok o' <-> resolved s o o'.
Proof.
  destruct o as [v|]; simpl.
  - rewrite bind_Ok. setoid_rewrite bind_Ok. split.
    + intros (w & Hc & [] & Hv & [= <-]). pose proof (convert_typed _ _ _ _ Hc).
      constructor; [done..|]. by apply validateConstraints_Ok.
    + inversion 1; subst. exists w. split; [done|]. exists tt. by rewrite validateConstraints_Ok.
  - destruct (psRequired s) eqn:Er; [split; [done|inversion 1; congruence]|].
    destruct (psDefault s) eqn:Ed;
      (split; [intros [= <-]; first [by constructor|rewrite <- Ed; constructor; congruence]
              |inversion 1; congruence]).
Qed.

Lemma validate_one_resolve m s :
  validate_one m s = o ← resolve s (m !! psName s); Ok (partial_alter (fun _ => o) (psName s) m).
Proof.
  unfold validate_one, resolve. destruct (m !! psName s) as [v|] eqn:Hm.
  - destruct (convertParamType _ _ _) as [w|]; [|done]. simpl. by destruct (validateConstraints s w).
  - destruct (psRequired s); [done|].
    assert (Ok m = Ok (partial_alter (fun _ => None) (psName s) m)) as Hn.
    { f_equal. symmetry. change (delete (psName s) m = m). by apply delete_id. }
    destruct (psDefault s); done.
Qed.

Lemma validateParams_resolved params schemas r :
  NoDup (map psName schemas) ->
  validateParams params schemas = Ok r <->
  (forall s, s ∈ schemas -> resolved s (params !! psName s) (r !! psName s)) /\
  (forall k, k ∉ map psName schemas -> r !! k = params !! k).
Proof.
  revert params. induction schemas as [|s schemas IH]; intros params Hn; cbn [validateParams map] in *.
  - split.
    + intros [= ->]. split; [|done]. intros s Hs. by apply elem_of_nil in Hs.
    + intros [_ Heq]. f_equal. apply map_eq. intros k. symmetry. apply Heq. apply not_elem_of_nil.
  - apply NoDup_cons in Hn as [Hs Hn]. rewrite validate_one_resolve.
    assert (Hother : forall o s', s' ∈ schemas ->
              partial_alter (fun _ => o) (psName s) params !! psName s' = params !! psName s').
    { intros o s' Hs'. apply lookup_partial_alter_ne. intros E. apply Hs. rewrite E. by apply list_elem_of_fmap_2. }
    split.
    + intros (m & (o & Ho & [= <-])%bind_Ok & Hr)%bind_Ok. apply resolve_resolved in Ho.
      apply IH in Hr as [Hin Hout]; [|done]. split.
      * intros s' [->|Hs']%elem_of_cons; [|rewrite <- (Hother o) by done; auto].
        by rewrite Hout, lookup_partial_alter_eq.
      * intros k [Hk1 Hk2]%not_elem_of_cons. by rewrite Hout, lookup_partial_alter_ne.
    + intros [Hin Hout]. apply bind_Ok.
      exists (partial_alter (fun _ => r !! psName s) (psName s) params). split.
      * apply bind_Ok. exists (r !! psName s). split; [|done]. apply resolve_resolved. apply Hin. by left.
      * apply IH; [done|]. split.
        -- intros s' Hs'. rewrite Hother by done. apply Hin. by right.
        -- intros k Hk. destruct (decide (k = psName s)) as [->|Hne]; [by rewrite lookup_partial_alter_eq|].
           rewrite lookup_partial_alter_ne by done. apply Hout. by apply not_elem_of_cons.
Qed.

Lemma parseDefault_typed raw t v : parseDefaultValue raw t = Ok v -> v = VNil \/ has_type t v = true.
Proof.
  unfold parseDefaultValue.
  repeat match goal with |- context [String.eqb t ?k] => destruct (String.eqb_spec t k) as [->|_] end;
    try case_match; intros [= <-]; auto.
Qed.

Lemma compile_default p s : compile_one p = Ok s -> psDefault s = VNil \/ has_type (psType s) (psDefault s) = true.
Proof.
  unfold compile_one. intros (pat & _ & (d & Hd & [= <-])%bind_Ok)%bind_Ok. cbn [psDefault psType].
  destruct (pcDefault p) as [raw|]; [|injection Hd as <-; by left].
  destruct (parseDefaultValue raw (pcType p)) eqn:E; [|done]. injection Hd as <-. by eapply parseDefault_typed.
Qed.

(** The function of its type renders the value; an empty list has no rendering. *)
Definition renders (w : GoVal) : Prop :=
  match w with
  | VString _ | VBool _ | VStrings [] => True
  | VInt64 z => safeInt w = Ok (itoa z)
  | VFloat64 _ => exists t, safeFloat w = Ok t
  | VStrings _ => exists t, safeInList w = Ok t
  | _ => False
  end.
Lemma typed_renders t w : has_type t w = true ->
  renders w \/ exists f, w = VFloat64 f /\ not_finite f = true.
Proof.
  destruct w; try discriminate; intros _; cbn [renders]; auto.
  - unfold safeFloat. simpl. destruct (not_finite f) eqn:E; eauto.
  - left. destruct l as [|x l]; [done|]. eexists. reflexivity.
Qed.
(** A Go integer is a machine integer. *)
Definition machine_int (v : GoVal) : Prop :=
  match v with VInt z | VInt64 z => in_int64 z | _ => True end.
Lemma converted_renders name v t w : machine_int v -> convertParamType name v t = Ok w -> renders w.
Proof.
  intros Hm Hc. destruct (typed_renders t w (convert_typed _ _ _ _ Hc)) as [|(f & -> & Hf)]; [done|]. exfalso.
  assert (t = "float") as -> by (apply convert_typed in Hc; by apply String.eqb_eq in Hc).
  unfold convertParamType in Hc. simpl in Hc. unfold convertFloat in Hc.
  destruct v; try discriminate Hc; simpl in Hc;
    try (injection Hc as <-; pose proof (float_of_int_finite _ Hm); by destruct (float_of_int _));
    repeat case_match; simplify_eq/=; congruence.
Qed.

(** ** Theorems *)

(** C28: validation decides each parameter by itself.  When the schemas name different
    parameters, [validateParams] returns a map exactly if every schema accepts its own
    parameter; the map holds what each schema makes of it (converted and within the
    constraints, or the default, or nothing) and everything else as it was sent. *)
Theorem validateParams_iff params schemas r :
  NoDup (map psName schemas) ->
  validateParams params schemas = Ok r <->
  (forall s, s ∈ schemas -> resolved s (params !! psName s) (r !! psName s)) /\
  (forall k, k ∉ map psName schemas -> r !! k = params !! k).
Proof. apply validateParams_resolved. Qed.

(** validated parameters have the type of their schema.  Under compiled schemas with
    different names and for machine integers, a parameter the template sees has the dynamic type its schema says; a
    value the client sent is one the rendering function of that type accepts, and so is a
    default unless it is a NaN or infinity; a parameter the template does not see was
    neither sent nor required. *)
Theorem validated_params_typed cfg schemas params r s :
  compileParamSchemas cfg = Ok schemas -> NoDup (map psName schemas) ->
  validateParams params schemas = Ok r -> s ∈ schemas ->
  (forall k v, params !! k = Some v -> machine_int v) ->
  match r !! psName s with
  | Some w => has_type (psType s) w = true /\
      (renders w \/ (params !! psName s = None /\ exists f, w = VFloat64 f /\ not_finite f = true))
  | None => params !! psName s = None /\ psRequired s = false
  end.
Proof.
  intros Hc Hn Hv Hs Hm. apply validateParams_resolved in Hv as [Hin _]; [|done]. specialize (Hin s Hs).
  apply mapR_Ok in Hc. apply (Forall2_Forall_r _ (fun s => psDefault s = VNil \/ has_type (psType s) (psDefault s) = true))
    in Hc; [|apply Forall_true; intros ? ?; apply compile_default].
  apply (proj1 (Forall_forall _ _)) with (x := s) in Hc; [|done].
  specialize (Hm (psName s)). remember (params !! psName s) as o. remember (r !! psName s) as o'.
  destruct Hin as [Hr _|Hr Hd|v w Hw Ht _]; [done|..|eauto using converted_renders].
  destruct Hc as [?|Ht]; [done|]. split; [done|]. destruct (typed_renders _ _ Ht); auto.
Qed.
End TemplateParams.
Arguments ParamSchema {_}.

(** ** Witnesses *)

Definition demo_regexp : GoRegexp :=
  {| Regexp := string; regexp_Compile := Ok; MatchString := String.eqb; regexp_String s := s |}.
Definition demo_text : FloatText :=
  {| parse_float s := float_of_int <$> parse_int s; format_float _ := EmptyString |}.
Definition demo_configs : list TemplateParamConfig :=
  [ {| pcName := "driver_id"; pcType := "int"; pcRequired := true; pcDefault := None; pcEnum := [];
       pcMaxLength := None; pcMaxItems := None; pcPattern := None |};
    {| pcName := "period"; pcType := "string"; pcRequired := false; pcDefault := Some "monthly";
       pcEnum := ["daily"; "weekly"; "monthly"]; pcMaxLength := None; pcMaxItems := None; pcPattern := None |} ].
Definition demo_schemas : list (ParamSchema (GR := demo_regexp)) :=
  match compileParamSchemas (FT := demo_text) (GR := demo_regexp) demo_configs with Ok s => s | Err _ => [] end.
Definition demo_validate (params : gmap string GoVal) : result (gmap string GoVal) :=
  validateParams (GF := demo_fmt) (FT := demo_text) (GR := demo_regexp) params demo_schemas.

Lemma validateParams_iff_witness :
  let params := {[ "driver_id" := VString "42"; "other" := VBool true ]} in
  let r := {[ "driver_id" := VInt64 42; "period" := VString "monthly"; "other" := VBool true ]} in
  demo_validate params = Ok r
  /\ (forall k, k ∉ ["driver_id"; "period"] -> r !! k = params !! k)
  /\ demo_validate {[ "driver_id" := VInt 1; "period" := VString "yearly" ]}
     = Err (value_error "parameter %q value %q is not in allowed values %v"
              [AStr "period"; AStr "yearly"; AStrs ["daily"; "weekly"; "monthly"]]).
Proof.
  intros params r. split; [reflexivity|]. split; [|reflexivity].
  exact (proj2 (proj1 (validateParams_iff (GF := demo_fmt) (FT := demo_text) (GR := demo_regexp)
    params demo_schemas r ltac:(apply (bool_decide_unpack _); reflexivity)) eq_refl)).
Defined.

Definition demo_schema : ParamSchema (GR := demo_regexp) :=
  {| psName := "driver_id"; psType := "int"; psRequired := true; psDefault := VNil; psEnum := [];
     psMaxLength := 1024; psMaxItems := 1000; psPattern := None |}.
Lemma validated_params_typed_witness :
  let params : gmap string GoVal := {[ "driver_id" := VString "42" ]} in
  demo_validate params = Ok {[ "driver_id" := VInt64 42; "period" := VString "monthly" ]}
  /\ has_type "int" (VInt64 42) = true
  /\ (renders (GF := demo_fmt) (FT := demo_text) (VInt64 42)
      \/ (params !! "driver_id" = None /\ exists f, VInt64 42 = VFloat64 f /\ not_finite f = true)).
Proof.
  intros params. split; [reflexivity|].
  refine (validated_params_typed (GF := demo_fmt) (FT := demo_text) (GR := demo_regexp)
    demo_configs demo_schemas params {[ "driver_id" := VInt64 42; "period" := VString "monthly" ]} demo_schema
    eq_refl _ eq_refl _ _).
  - apply (bool_decide_unpack _). reflexivity.
  - left.
  - intros k v [_ <-]%lookup_singleton_Some. exact I.
Defined.
