(* ===== verification/TemplateLoader.v ===== *)
(** * internal/template: loader.go and registry.go

    Loading the configured templates from disk, and the registry of the loaded ones.  The
    disk is a record of what [os.Stat], [os.ReadFile] and [filepath.WalkDir] answer;
    [text/template] and [sha256] are parameters.  Log output is left out. *)
From S2P Require Import Prelude GoStrings Values FuncMap TemplateParams.

(** ** Packages [path/filepath] and [unicode/utf8] *)

(** The elements of a cleaned path, last first. *)
Fixpoint clean_elems (rooted : bool) (acc elems : list string) : list string :=
  match elems with
  | [] => acc
  | e :: elems' =>
      if String.eqb e EmptyString || String.eqb e "." then clean_elems rooted acc elems'
      else if String.eqb e ".." then
        match acc with
        | a :: acc' => if String.eqb a ".." then clean_elems rooted (e :: acc) elems'
                       else clean_elems rooted acc' elems'
        | [] => clean_elems rooted (if rooted then [] else [e]) elems'
        end
      else clean_elems rooted (e :: acc) elems'
  end.
Definition path_clean (p : string) : string :=
  let rooted := has_prefix "/" p in
  let body := join "/" (rev (clean_elems rooted [] (split_byte "/"%char p))) in
  if rooted then "/" +:+ body else if String.eqb body EmptyString then "." else body.
(** [filepath.Join] of two elements. *)
Definition path_join (a b : string) : string :=
  if String.eqb a EmptyString && String.eqb b EmptyString then EmptyString
  else if String.eqb a EmptyString then path_clean b
  else if String.eqb b EmptyString then path_clean a
  else path_clean (a +:+ "/" +:+ b).

Definition cont_byte (c : ascii) : bool := between 128 191 c.
(** [utf8.Valid]. *)
Fixpoint utf8_valid (s : string) : bool :=
  match s with
  | EmptyString => true
  | String a s1 =>
      if is_ascii_byte a then utf8_valid s1 else
      match s1 with
      | EmptyString => false
      | String b s2 =>
          if between 194 223 a then cont_byte b && utf8_valid s2 else
          match s2 with
          | EmptyString => false
          | String c s3 =>
              if between 224 239 a then
                (if Ascii.eqb a (byte_of 224) then between 160 191 b
                 else if Ascii.eqb a (byte_of 237) then between 128 159 b else cont_byte b)
                && cont_byte c && utf8_valid s3
              else
              match s3 with
              | EmptyString => false
              | String d s4 =>
                  between 240 244 a
                  && (if Ascii.eqb a (byte_of 240) then between 144 191 b
                      else if Ascii.eqb a (byte_of 244) then between 128 143 b else cont_byte b)
                  && cont_byte c && cont_byte d && utf8_valid s4
              end
          end
      end
  end.

(** ** The environment *)

Inductive StatResult :=
  | StatNotExist
  | StatErr (err : error)
  | StatInfo (Size : Z) (IsDir : bool).
(** An entry [filepath.WalkDir] visits, in its order. *)
Record WalkEntry := { wPath : string; wName : string; wErr : bool; wIsDir : bool }.
Record Disk := {
  os_Stat : string -> StatResult;
  os_ReadFile : string -> result string;
  WalkDir : string -> list WalkEntry;
}.

(** [text/template]: a set of parsed fragments, a template parsed on top of a clone of it,
    and its execution on the parameters. *)
Class TextTemplate := {
  Fragments : Type;
  no_fragments : Fragments;
  parse_fragment : string -> Fragments -> result Fragments;
  Template : Type;
  clone_parse : string -> string -> Fragments -> result Template;
  tmpl_Execute : Template -> gmap string GoVal -> result string;
}.

(** internal/config/config.go. *)
Record TemplateConfig := {
  tcName : string; tcFile : string; tcDescription : string;
  tcCacheEnabled : option bool; tcCacheTTL : option Z; tcCountEnabled : option bool;
  tcParameters : list TemplateParamConfig;
}.
Record SQLTemplatesConfig := {
  BaseDir : string; SharedDir : string; RenderTimeout : Z; MaxRenderedSQLLen : Z;
  MaxConcurrentQueries : Z; Templates : list TemplateConfig;
}.

Record TemplateLoadFailure := { flName : string; flError : format }.

Lemma find_name_None n tcs :
  find (fun tc => String.eqb (tcName tc) n) tcs = None <-> n ∉ map tcName tcs.
Proof.
  induction tcs as [|tc tcs IH]; simpl; [split; intros _; [apply not_elem_of_nil|reflexivity]|].
  rewrite not_elem_of_cons. destruct (String.eqb_spec (tcName tc) n) as [->|Hn]; [naive_solver|].
  rewrite IH. naive_solver.
Qed.

Section TemplateLoader.
Context {FT : FloatText} {GR : GoRegexp} {TT : TextTemplate}.
Variable sha256Hex : string -> string.

(** ** registry.go *)

Record RegisteredTemplate := {
  tName : string;
  Description : string;
  tTemplate : Template;
  ParamSchemas : list ParamSchema;
  CacheEnabled : bool;
  CacheTTL : option Z;
  CountEnabled : bool;
}.
Record TemplateRegistry := {
  templates : gmap string RegisteredTemplate;
  hashes : gmap string string;
}.
Definition NewTemplateRegistry : TemplateRegistry := {| templates := ∅; hashes := ∅ |}.
Definition Get (r : TemplateRegistry) (name : string) : option RegisteredTemplate := templates r !! name.
Definition GetHash (r : TemplateRegistry) (name : string) : option string := hashes r !! name.
Definition name_le (a b : RegisteredTemplate) : Prop := str_le (tName a) (tName b).
#[export] Instance name_le_dec a b : Decision (name_le a b) := str_le_dec _ _.
Definition GetAll (r : TemplateRegistry) : list RegisteredTemplate :=
  merge_sort name_le (map_to_list (templates r)).*2.
Definition Update (ts : gmap string RegisteredTemplate) (hs : gmap string string) (r : TemplateRegistry)
    : TemplateRegistry := {| templates := ts; hashes := hs |}.

(** ** loader.go *)

Definition maxTemplateFileSize : Z := 2 ^ 20.
Definition name_char (c : ascii) : bool := ident_char c || Ascii.eqb c "-"%char.
(** [templateNameRe]. *)
Definition template_name_ok (name : string) : bool :=
  (1 <=? slen name) && (slen name <=? 64) && str_forallb name_char name.

Definition readTemplateFile (d : Disk) (path : string) : result string :=
  match os_Stat d path with
  | StatNotExist => Err (Errorf (Sprintf "template file %q does not exist" [AStr path]))
  | StatErr err => Err (Wrap (Sprintf "stat template file %q: %w" [AStr path; AErr err]) err)
  | StatInfo size _ =>
      if maxTemplateFileSize <? size
      then Err (Errorf (Sprintf "template file %q size %d exceeds max %d bytes"
                          [AStr path; AInt size; AInt maxTemplateFileSize]))
      else match os_ReadFile d path with
           | Ok content => Ok content
           | Err err => Err (Wrap (Sprintf "read template file %q: %w" [AStr path; AErr err]) err)
           end
  end.

(** The [WalkDir] callback of [loadSharedFragments]: a fragment that cannot be used is
    skipped. *)
Definition load_fragment (d : Disk) (shared : Fragments) (e : WalkEntry) : Fragments :=
  if wErr e || wIsDir e || negb (has_suffix ".sql.tmpl" (wName e)) then shared else
  match os_ReadFile d (wPath e) with
  | Err _ => shared
  | Ok content =>
      if (maxTemplateFileSize <? slen content) || negb (utf8_valid content) then shared else
      match parse_fragment content shared with Ok shared' => shared' | Err _ => shared end
  end.
Definition loadSharedFragments (d : Disk) (sharedDir : string) : result Fragments :=
  match os_Stat d sharedDir with
  | StatNotExist => Ok no_fragments
  | StatErr err => Err (Wrap (Sprintf "stat shared_dir %q: %w" [AStr sharedDir; AErr err]) err)
  | StatInfo _ false => Err (Errorf (Sprintf "shared_dir %q is not a directory" [AStr sharedDir]))
  | StatInfo _ true => Ok (foldl (load_fragment d) no_fragments (WalkDir d sharedDir))
  end.

(** Steps 2c to 2k of the loop of [loadAll]: the template with the hash of its text, or the
    recorded failure. *)
Definition load_one (d : Disk) (baseDir : string) (shared : Fragments) (tc : TemplateConfig)
    : (RegisteredTemplate * string) + format :=
  let filePath := path_join baseDir (tcFile tc) in
  match readTemplateFile d filePath with
  | Err err => inr (Sprintf "%v" [AErr err])
  | Ok content =>
      if negb (utf8_valid content) then inr (Sprintf "file %q is not valid UTF-8" [AStr filePath]) else
      match clone_parse (tcName tc) content shared with
      | Err err => inr (Sprintf "parse error: %v" [AErr err])
      | Ok tmpl =>
          match compileParamSchemas (tcParameters tc) with
          | Err err => inr (Sprintf "schema compilation error: %v" [AErr err])
          | Ok schemas =>
              inl ({| tName := tcName tc; Description := tcDescription tc; tTemplate := tmpl;
                      ParamSchemas := schemas; CacheEnabled := default true (tcCacheEnabled tc);
                      CacheTTL := tcCacheTTL tc; CountEnabled := default true (tcCountEnabled tc) |},
                   sha256Hex content)
          end
      end
  end.

Record loadResult := {
  Registered : gmap string RegisteredTemplate;
  Hashes : gmap string string;
  Failures : list TemplateLoadFailure;
}.
Definition add_failure (name : string) (e : format) (r : loadResult) : loadResult :=
  {| Registered := Registered r; Hashes := Hashes r;
     Failures := Failures r ++ [{| flName := name; flError := e |}] |}.

(** One iteration, on the names seen so far and the result so far. *)
Definition load_step (d : Disk) (baseDir : string) (shared : Fragments)
    (st : gset string * loadResult) (tc : TemplateConfig) : gset string * loadResult :=
  let '(seen, r) := st in
  let name := tcName tc in
  if negb (template_name_ok name) then
    (seen, add_failure name (Sprintf "name %q does not match pattern %s" [AStr name]) r)
  else if bool_decide (name ∈ seen) then
    (seen, add_failure name (Sprintf "duplicate template name %q" [AStr name]) r)
  else
    let seen := {[name]} ∪ seen in
    match load_one d baseDir shared tc with
    | inr e => (seen, add_failure name e r)
    | inl (reg, hash) =>
        (seen, {| Registered := <[name := reg]> (Registered r); Hashes := <[name := hash]> (Hashes r);
                  Failures := Failures r |})
    end.
Definition shared_fragments (d : Disk) (cfg : SQLTemplatesConfig) : Fragments :=
  let sharedDir := if String.eqb (SharedDir cfg) EmptyString then path_join (BaseDir cfg) "_shared" else SharedDir cfg in
  match loadSharedFragments d sharedDir with Ok s => s | Err _ => no_fragments end.
Definition loadAll (d : Disk) (cfg : SQLTemplatesConfig) : loadResult :=
  (foldl (load_step d (BaseDir cfg) (shared_fragments d cfg))
     (∅, {| Registered := ∅; Hashes := ∅; Failures := [] |}) (Templates cfg)).2.

(** ** Specification *)

(** What the first configuration of a name loads. *)
Definition loads (d : Disk) (baseDir : string) (shared : Fragments) (tcs : list TemplateConfig) (n : string)
    : option (RegisteredTemplate * string) :=
  tc ← find (fun tc => String.eqb (tcName tc) n) tcs;
  if template_name_ok n then
    match load_one d baseDir shared tc with inl x => Some x | inr _ => None end
  else None.

Section LoadLoop.
Variables (d : Disk) (baseDir : string) (shared : Fragments).

(** What one configuration loads by itself. *)
Definition loads_one (tc : TemplateConfig) : option (RegisteredTemplate * string) :=
  if template_name_ok (tcName tc) then
    match load_one d baseDir shared tc with inl x => Some x | inr _ => None end
  else None.
Lemma loads_cons tc tcs n :
  loads d baseDir shared (tc :: tcs) n
  = if String.eqb (tcName tc) n then loads_one tc else loads d baseDir shared tcs n.
Proof.
  unfold loads, loads_one. cbn [find]. by destruct (String.eqb_spec (tcName tc) n) as [<-|_].
Qed.

Lemma load_step_spec seen r tc seen' r' :
  load_step d baseDir shared (seen, r) tc = (seen', r') ->
  let name := tcName tc in
  seen' = (if template_name_ok name then {[name]} ∪ seen else seen) /\
  if bool_decide (name ∈ seen) then Registered r' = Registered r /\ Hashes r' = Hashes r
  else Registered r' = match loads_one tc with Some x => <[name := x.1]> (Registered r) | None => Registered r end
       /\ Hashes r' = match loads_one tc with Some x => <[name := x.2]> (Hashes r) | None => Hashes r end.
Proof.
  unfold load_step, loads_one. destruct (template_name_ok (tcName tc)); cbn [negb].
  - case_bool_decide as Hs; [intros [= <- <-]; split; [set_solver|done]|].
    destruct (load_one d baseDir shared tc) as [[reg hash]|e]; intros [= <- <-]; done.
  - intros [= <- <-]. split; [done|]. by case_bool_decide.
Qed.

Lemma load_loop tcs seen r :
  (forall n, n ∉ seen -> Registered r !! n = None /\ Hashes r !! n = None) ->
  (forall n, n ∈ seen -> template_name_ok n = true) ->
  let r' := (foldl (load_step d baseDir shared) (seen, r) tcs).2 in
  forall n, Registered r' !! n = (if bool_decide (n ∈ seen) then Registered r !! n
                                  else fst <$> loads d baseDir shared tcs n)
         /\ Hashes r' !! n = (if bool_decide (n ∈ seen) then Hashes r !! n
                               else snd <$> loads d baseDir shared tcs n).
Proof.
  revert seen r. induction tcs as [|tc tcs IH]; intros seen r Hr Hok; cbn [foldl].
  { intros n. case_bool_decide; [done|]. by apply Hr. }
  destruct (load_step d baseDir shared (seen, r) tc) as [seen1 r1] eqn:E.
  apply load_step_spec in E as [-> E]. intros n.
  assert (Hin : forall m, m <> tcName tc ->
            bool_decide (m ∈ (if template_name_ok (tcName tc) then {[tcName tc]} ∪ seen else seen)) = bool_decide (m ∈ seen)).
  { intros m Hm. destruct (template_name_ok _); [|done]. apply bool_decide_ext. set_solver. }
  assert (Hkeep : forall m, m <> tcName tc -> Registered r1 !! m = Registered r !! m /\ Hashes r1 !! m = Hashes r !! m).
  { intros m Hm. case_bool_decide; [by destruct E as [-> ->]|].
    destruct E as [-> ->], (loads_one tc); [|done]. by rewrite !lookup_insert_ne by done. }
  edestruct IH with (n := n) as [H1 H2]; [| |rewrite H1, H2; clear H1 H2].
  - intros m Hm. destruct (decide (m = tcName tc)) as [->|Hne].
    + destruct (template_name_ok (tcName tc)) eqn:Hn; [set_solver|]. rewrite bool_decide_eq_false_2 in E by done.
      unfold loads_one in E. rewrite Hn in E. destruct E as [-> ->]. auto.
    + destruct (Hkeep m Hne) as [-> ->]. apply Hr. destruct (template_name_ok _); set_solver.
  - intros m Hm. destruct (template_name_ok (tcName tc)) eqn:Hn; [|auto].
    apply elem_of_union in Hm as [->%elem_of_singleton|Hm]; auto.
  - rewrite loads_cons. destruct (String.eqb_spec (tcName tc) n) as [<-|Hne].
    + case_bool_decide as Hs.
      * rewrite bool_decide_eq_true_2 by (rewrite (Hok _ Hs); set_solver). by destruct E as [-> ->].
      * unfold loads_one in *. destruct (template_name_ok (tcName tc)) eqn:Hn.
        -- rewrite bool_decide_eq_true_2 by set_solver. destruct E as [-> ->].
           destruct (load_one _ _ _ _) as [x|]; [by rewrite !lookup_insert_eq|]. by apply Hr.
        -- rewrite bool_decide_eq_false_2 by done. unfold loads. rewrite Hn. by destruct (find _ tcs).
    + rewrite Hin by done. by destruct (Hkeep n (not_eq_sym Hne)) as [-> ->].
Qed.

(** With different names, the failures are the configurations that load nothing. *)
Lemma load_loop_failures tcs seen r :
  NoDup (map tcName tcs) -> (forall n, n ∈ map tcName tcs -> n ∉ seen) ->
  let r' := (foldl (load_step d baseDir shared) (seen, r) tcs).2 in
  (forall n, n ∈ map flName (Failures r') <->
     n ∈ map flName (Failures r) \/ n ∈ map tcName tcs /\ loads d baseDir shared tcs n = None).
Proof.
  revert seen r. induction tcs as [|tc tcs IH]; intros seen r Hnd Hs; cbn [foldl map].
  { intros n. rewrite elem_of_nil. naive_solver. }
  apply NoDup_cons in Hnd as [Hni Hnd]. intros n.
  assert (Hstep : exists seen' r', load_step d baseDir shared (seen, r) tc = (seen', r')
            /\ (forall n, n ∈ map tcName tcs -> n ∉ seen')
            /\ forall n, n ∈ map flName (Failures r') <->
                 n ∈ map flName (Failures r) \/ n = tcName tc /\ loads_one tc = None).
  { unfold load_step, loads_one. pose proof (Hs (tcName tc) ltac:(by left)) as Hns.
    destruct (template_name_ok (tcName tc)) eqn:Hok; cbn [negb].
    - rewrite bool_decide_eq_false_2 by done.
      assert (Hs' : forall n, n ∈ map tcName tcs -> n ∉ ({[tcName tc]} ∪ seen)).
      { intros m Hm. specialize (Hs m ltac:(by right)). assert (m <> tcName tc) by (by intros ->). set_solver. }
      destruct (load_one d baseDir shared tc) as [[reg hash]|e]; eexists _, _; (split; [done|]); (split; [exact Hs'|]);
        intros m; simpl; [naive_solver|]. rewrite map_app, elem_of_app. simpl. rewrite list_elem_of_singleton. naive_solver.
    - eexists _, _. split; [done|]. split; [intros m Hm; apply Hs; by right|].
      intros m. simpl. rewrite map_app, elem_of_app. simpl. rewrite list_elem_of_singleton. naive_solver. }
  destruct Hstep as (seen' & r' & -> & Hs' & Hf). rewrite (IH seen' r' Hnd Hs'), Hf, elem_of_cons, loads_cons.
  destruct (String.eqb_spec (tcName tc) n) as [<-|Hne]; naive_solver.
Qed.
End LoadLoop.

Lemma loadAll_lookup d cfg n :
  Registered (loadAll d cfg) !! n = fst <$> loads d (BaseDir cfg) (shared_fragments d cfg) (Templates cfg) n /\
  Hashes (loadAll d cfg) !! n = snd <$> loads d (BaseDir cfg) (shared_fragments d cfg) (Templates cfg) n.
Proof.
  unfold loadAll.
  destruct (load_loop d (BaseDir cfg) (shared_fragments d cfg) (Templates cfg) ∅
              {| Registered := ∅; Hashes := ∅; Failures := [] |}) with (n := n) as [H1 H2].
  - intros m _. simpl. by rewrite !lookup_empty.
  - intros m Hm. by apply not_elem_of_empty in Hm.
  - rewrite H1, H2, bool_decide_eq_false_2 by apply not_elem_of_empty. done.
Qed.
Lemma loadAll_failures d cfg n : NoDup (map tcName (Templates cfg)) ->
  n ∈ map flName (Failures (loadAll d cfg)) <->
  n ∈ map tcName (Templates cfg) /\ loads d (BaseDir cfg) (shared_fragments d cfg) (Templates cfg) n = None.
Proof.
  intros Hn. unfold loadAll. rewrite load_loop_failures; [|done|intros ??; apply not_elem_of_empty].
  simpl. rewrite elem_of_nil. naive_solver.
Qed.

End TemplateLoader.
Arguments RegisteredTemplate {_ _}.
Arguments TemplateRegistry {_ _}.
Arguments loadResult {_ _}.
