(* ===== verification/Json.v ===== *)
(** * Package [encoding/json], as the caches use it

    [Marshal] of a row set and [Unmarshal] into [\[\]map\[string\]any], on JSON text.  The
    decimal text of floats is a parameter ([FloatText]); values other than nil, booleans,
    integers, floats and strings are marshalled by [json_other].  Strings are valid UTF-8;
    their bytes above 127 are written as they are. *)
From S2P Require Import Prelude GoStrings Values GoConv FuncMap.

Class JsonText := { json_float : spec_float -> string; json_other : GoVal -> result string }.
(** [ParseFloat] of the text of an [int64] is its conversion to [float64]. *)
Class FloatTextLaws (FT : FloatText) : Prop :=
  parse_float_int z : in_int64 z -> parse_float (itoa z) = Some (float_of_int z).

(** ** Writing *)

Definition u00 (c : ascii) : string :=
  "\u00" +:+ String (hex_digit (code c / 16)%N) (str1 (hex_digit (code c mod 16)%N)).
(** One byte of a string literal. *)
Definition json_byte (c : ascii) : string :=
  if Ascii.eqb c DQUOTE || Ascii.eqb c BSLASH then String BSLASH (str1 c)
  else if (code c =? 8)%N then "\b" else if (code c =? 12)%N then "\f"
  else if (code c =? 10)%N then "\n" else if (code c =? 13)%N then "\r"
  else if (code c =? 9)%N then "\t"
  else if (code c <? 32)%N || Ascii.eqb c "<" || Ascii.eqb c ">" || Ascii.eqb c "&" then u00 c
  else str1 c.
Fixpoint json_bytes (s : string) : string :=
  match s with EmptyString => EmptyString | String c s' => json_byte c +:+ json_bytes s' end.
Definition json_string (s : string) : string := String DQUOTE (json_bytes s +:+ str1 DQUOTE).

Section Json.
Context {FT : FloatText} {JT : JsonText}.

Definition json_value (v : GoVal) : result string :=
  match v with
  | VNil => Ok "null"
  | VBool b => Ok (if b then "true" else "false")
  | VInt z | VInt64 z => Ok (itoa z)
  | VFloat64 f =>
      if not_finite f then Err (Errorf (Sprintf "json: unsupported value: %v" [AVal v]))
      else Ok (json_float f)
  | VString s => Ok (json_string s)
  | _ => json_other v
  end.
Definition json_member (kv : string * GoVal) : result string :=
  v ← json_value kv.2; Ok (json_string kv.1 +:+ ":" +:+ v).
(** A map is written with its keys sorted. *)
Definition json_row (row : list (string * GoVal)) : result string :=
  ms ← mapR json_member (merge_sort key_le row); Ok ("{" +:+ join "," ms +:+ "}").
Definition Marshal_rows (rows : list (list (string * GoVal))) : result string :=
  rs ← mapR json_row rows; Ok ("[" +:+ join "," rs +:+ "]").

(** ** Reading *)

Fixpoint skip_ws (s : string) : string :=
  match s with
  | String c s' =>
      if Ascii.eqb c " " || (code c =? 9)%N || (code c =? 10)%N || (code c =? 13)%N then skip_ws s' else s
  | EmptyString => s
  end.
Definition hex_val (c : ascii) : option N :=
  if is_digit c then Some (code c - 48)%N
  else if between 97 102 c then Some (code c - 87)%N
  else if between 65 70 c then Some (code c - 55)%N
  else None.
Definition hex4 (a b c d : ascii) : option N :=
  x ← hex_val a; y ← hex_val b; z ← hex_val c; w ← hex_val d;
  Some (((x * 16 + y) * 16 + z) * 16 + w)%N.
Definition surrogate (r : N) : bool := ((55296 <=? r) && (r <? 57344))%N.
(** [utf8.AppendRune]; a lone surrogate is U+FFFD. *)
Definition utf8_rune (r : N) : string :=
  let r := if surrogate r then 65533%N else r in
  let tail (n : N) := byte_of (128 + n mod 64)%N in
  if (r <? 128)%N then str1 (byte_of r)
  else if (r <? 2048)%N then String (byte_of (192 + r / 64)%N) (str1 (tail r))
  else if (r <? 65536)%N then String (byte_of (224 + r / 4096)%N) (String (tail (r / 64)%N) (str1 (tail r)))
  else String (byte_of (240 + r / 262144)%N) (String (tail (r / 4096)%N) (String (tail (r / 64)%N) (str1 (tail r)))).
Definition simple_escape (c : ascii) : option ascii :=
  if Ascii.eqb c DQUOTE || Ascii.eqb c BSLASH || Ascii.eqb c "/" then Some c
  else if Ascii.eqb c "b" then Some (byte_of 8) else if Ascii.eqb c "f" then Some (byte_of 12)
  else if Ascii.eqb c "n" then Some LF else if Ascii.eqb c "r" then Some (byte_of 13)
  else if Ascii.eqb c "t" then Some (byte_of 9) else None.
Definition cons_text (t : string) (r : option (string * string)) : option (string * string) :=
  match r with Some (v, rest) => Some (t +:+ v, rest) | None => None end.

(** The rest of a string literal after its opening quote. *)
Fixpoint read_string (s : string) : option (string * string) :=
  match s with
  | EmptyString => None
  | String c s1 =>
      if Ascii.eqb c DQUOTE then Some (EmptyString, s1)
      else if Ascii.eqb c BSLASH then
        match s1 with
        | String e s2 =>
            if Ascii.eqb e "u" then
              match s2 with
              | String a (String b (String x (String y s3))) =>
                  match hex4 a b x y with
                  | None => None
                  | Some r =>
                      if negb (surrogate r) then cons_text (utf8_rune r) (read_string s3) else
                      match s3 with
                      | String q (String u (String a' (String b' (String x' (String y' s4))))) =>
                          match hex4 a' b' x' y' with
                          | Some r' =>
                              if Ascii.eqb q BSLASH && Ascii.eqb u "u"
                                 && (r <? 56320)%N && (56320 <=? r')%N && (r' <? 57344)%N
                              then cons_text (utf8_rune (65536 + (r - 55296) * 1024 + (r' - 56320))%N) (read_string s4)
                              else cons_text (utf8_rune r) (read_string s3)
                          | None => cons_text (utf8_rune r) (read_string s3)
                          end
                      | _ => cons_text (utf8_rune r) (read_string s3)
                      end
                  end
              | _ => None
              end
            else match simple_escape e with
                 | Some ch => cons_text (str1 ch) (read_string s2)
                 | None => None
                 end
        | EmptyString => None
        end
      else if (code c <? 32)%N then None
      else cons_text (str1 c) (read_string s1)
  end.

(** Numbers: the token, then its grammar. *)
Definition number_byte (c : ascii) : bool :=
  is_digit c || Ascii.eqb c "-" || Ascii.eqb c "+" || Ascii.eqb c "." || Ascii.eqb c "e" || Ascii.eqb c "E".
Fixpoint take_number (s : string) : string * string :=
  match s with
  | String c s' => if number_byte c then let '(t, r) := take_number s' in (String c t, r) else (EmptyString, s)
  | EmptyString => (EmptyString, EmptyString)
  end.
Definition digits1 (s : string) : bool := negb (String.eqb s EmptyString) && str_forallb is_digit s.
Definition int_part_ok (s : string) : bool :=
  String.eqb s "0" || (digits1 s && negb (has_prefix "0" s)).
Definition cut_sign (s : string) : string :=
  match s with String c s' => if Ascii.eqb c "-" || Ascii.eqb c "+" then s' else s | _ => s end.
Definition mantissa_ok (s : string) : bool :=
  match split_byte "."%char s with
  | [i] => int_part_ok i
  | [i; f] => int_part_ok i && digits1 f
  | _ => false
  end.
Definition number_ok (s : string) : bool :=
  let s := match s with String "-" s' => s' | _ => s end in
  match index_byte "e"%char (str_map lower_byte s) with
  | Some i => mantissa_ok (str_take i s) && digits1 (cut_sign (str_drop (S i) s))
  | None => mantissa_ok s
  end.

(** A scalar, an object of scalars, an array of such objects. *)
Definition read_scalar (s : string) : option (GoVal * string) :=
  let s := skip_ws s in
  if has_prefix "null" s then Some (VNil, str_drop 4 s)
  else if has_prefix "true" s then Some (VBool true, str_drop 4 s)
  else if has_prefix "false" s then Some (VBool false, str_drop 5 s)
  else match s with
       | String c s' =>
           if Ascii.eqb c DQUOTE then '(v, r) ← read_string s'; Some (VString v, r)
           else let '(t, r) := take_number s in
                if number_ok t then f ← parse_float t; Some (VFloat64 f, r) else None
       | EmptyString => None
       end.
Definition expect (c : ascii) (s : string) : option string :=
  match skip_ws s with String a r => if Ascii.eqb a c then Some r else None | EmptyString => None end.
(** Comma-separated items up to [close], after the opening bracket. *)
Fixpoint read_items {A} (item : string -> option (A * string)) (close : ascii) (fuel : nat) (s : string)
    : option (list A * string) :=
  match fuel with
  | O => None
  | S fuel' =>
      '(x, r) ← item s;
      match expect ","%char r with
      | Some r' => '(xs, r'') ← read_items item close fuel' r'; Some (x :: xs, r'')
      | None => r' ← expect close r; Some ([x], r')
      end
  end.
Definition read_list {A} (item : string -> option (A * string)) (close : ascii) (s : string)
    : option (list A * string) :=
  match expect close s with
  | Some r => Some ([], r)
  | None => read_items item close (S (String.length s)) s
  end.
Definition read_member (s : string) : option ((string * GoVal) * string) :=
  r ← expect DQUOTE s; '(k, r) ← read_string r; r ← expect ":"%char r;
  '(v, r) ← read_scalar r; Some ((k, v), r).
(** A Go map keeps the last value of a repeated key. *)
Definition last_wins (kvs : list (string * GoVal)) : list (string * GoVal) :=
  foldr (fun kv acc => if bool_decide (kv.1 ∈ acc.*1) then acc else kv :: acc) [] kvs.
Definition read_row (s : string) : option (list (string * GoVal) * string) :=
  if has_prefix "null" (skip_ws s) then Some ([], str_drop 4 (skip_ws s)) else
  r ← expect "{"%char s; '(kvs, r) ← read_list read_member "}"%char r;
  Some (last_wins kvs, r).
Definition read_rows (s : string) : option (list (list (string * GoVal))) :=
  if has_prefix "null" (skip_ws s) then
    (if String.eqb (skip_ws (str_drop 4 (skip_ws s))) EmptyString then Some [] else None) else
  r ← expect "["%char s; '(rows, r) ← read_list read_row "]"%char r;
  if String.eqb (skip_ws r) EmptyString then Some rows else None.
Definition Unmarshal_rows (s : string) : result (list (list (string * GoVal))) :=
  match read_rows s with
  | Some rows => Ok rows
  | None => Err (Errorf (Sprintf "json: cannot unmarshal" [AStr s]))
  end.

(** What becomes of a value in an [any]: every number is a [float64]. *)
Definition json_view (v : GoVal) : GoVal :=
  match v with VInt z | VInt64 z => VFloat64 (float_of_int z) | _ => v end.
Definition json_row_view (row : list (string * GoVal)) : list (string * GoVal) :=
  map (fun kv => (kv.1, json_view kv.2)) (merge_sort key_le row).
End Json.

(** ** Strings *)

Lemma read_json_byte c s : read_string (json_byte c +:+ s) = cons_text (str1 c) (read_string s).
Proof. destruct c as [[] [] [] [] [] [] [] []]; reflexivity. Qed.
Lemma read_json_string s rest : read_string (json_bytes s +:+ str1 DQUOTE +:+ rest) = Some (s, rest).
Proof.
  induction s as [|c s IH]; [reflexivity|]. cbn [json_bytes].
  by rewrite str_app_assoc, read_json_byte, IH.
Qed.

(** ** Integers *)

Lemma pretty_N_go_head x s : (0 < x)%N -> exists c r, pretty_N_go x s = String c r /\ c <> "0"%char.
Proof.
  revert s. induction (N.lt_wf_0 x) as [x _ IH]; intros s Hx. rewrite pretty_N_go_step by lia.
  destruct (decide (x / 10 = 0)%N) as [Hz|Hnz].
  - assert (x < 10)%N as Hlt.
    { pose proof (N.div_mod x 10 ltac:(done)). pose proof (N.mod_lt x 10 ltac:(done)). lia. }
    rewrite Hz, pretty_N_go_0, N.mod_small by done. exists (pretty_N_char x), s. split; [done|]. clear IH Hz.
    assert (x = 1 \/ x = 2 \/ x = 3 \/ x = 4 \/ x = 5 \/ x = 6 \/ x = 7 \/ x = 8 \/ x = 9)%N as Hc by lia.
    by repeat destruct Hc as [-> | Hc]; [..|rewrite Hc].
  - apply IH; [by apply N.div_lt|by apply N.neq_0_lt_0].
Qed.
Lemma pretty_int_part p : int_part_ok (pretty (Npos p)) = true.
Proof.
  destruct (pretty_N_digits (Npos p)) as (Hd & _ & Hn).
  unfold int_part_ok, digits1. rewrite Hd.
  unfold pretty, pretty_N in *. rewrite decide_False in * by done.
  destruct (pretty_N_go_head (Npos p) EmptyString) as (c & r & -> & Hc); [done|].
  cbn [has_prefix]. destruct (Ascii.eqb_spec "0" c) as [<-|_]; [done|]. by rewrite orb_true_r.
Qed.

Lemma digits_no_byte s c : str_forallb is_digit s = true -> is_digit c = false -> index_byte c s = None.
Proof.
  intros Hs Hc. induction s as [|a s IH]; simpl in *; [done|]. apply andb_true_iff in Hs as [Ha Hs].
  destruct (Ascii.eqb_spec a c) as [->|_]; [congruence|]. by rewrite IH.
Qed.
Lemma digits_split s : str_forallb is_digit s = true -> split_byte "."%char s = [s].
Proof.
  intros Hs. induction s as [|a s IH]; simpl in *; [done|]. apply andb_true_iff in Hs as [Ha Hs].
  destruct (Ascii.eqb_spec a ".") as [->|_]; [done|]. by rewrite IH.
Qed.
Lemma digits_lower s : str_forallb is_digit s = true -> str_map lower_byte s = s.
Proof.
  induction s as [|a s IH]; simpl; [done|]. intros [Ha Hs]%andb_true_iff. rewrite IH by done. f_equal.
  revert Ha. by destruct a as [[] [] [] [] [] [] [] []].
Qed.
Lemma mantissa_pretty p : number_ok (pretty (Npos p)) = true /\ number_ok ("-" +:+ pretty (Npos p)) = true.
Proof.
  destruct (pretty_N_digits (Npos p)) as (Hd & _ & Hn).
  destruct (digits_head _ Hd Hn) as (c & r & E & Hc). destruct (digit_not_sign c Hc) as (Hm & _).
  assert (Hok : mantissa_ok (pretty (Npos p)) = true).
  { unfold mantissa_ok. rewrite digits_split by done. apply pretty_int_part. }
  assert (H : index_byte "e"%char (str_map lower_byte (pretty (Npos p))) = None).
  { rewrite digits_lower by done. by apply digits_no_byte. }
  unfold number_ok. split.
  - assert (match pretty (Npos p) with String "-" s' => s' | _ => pretty (Npos p) end = pretty (Npos p)) as ->.
    { rewrite E. destruct c as [[] [] [] [] [] [] [] []]; done. }
    by rewrite H.
  - cbn [String.append]. by rewrite H.
Qed.
Lemma number_itoa z : number_ok (itoa z) = true.
Proof. rewrite itoa_eq. destruct z; [done|apply mantissa_pretty..]. Qed.

(** A text that no number continues into. *)
Definition delimited (s : string) : Prop :=
  match s with String c _ => number_byte c = false | EmptyString => True end.
Lemma take_number_app t s : str_forallb itoa_byte t = true -> delimited s -> take_number (t +:+ s) = (t, s).
Proof.
  intros Ht Hs. induction t as [|c t IH]; simpl.
  - destruct s as [|c s]; [done|]. cbn [take_number]. by rewrite Hs.
  - simpl in Ht. apply andb_true_iff in Ht as [Hc Ht]. rewrite IH by done.
    assert (number_byte c = true) as ->; [|done]. unfold itoa_byte, number_byte in *.
    apply orb_true_iff in Hc as [-> | ->]; [done|]. by rewrite !orb_true_r.
Qed.

(** ** Rows *)

Definition is_ws (c : ascii) : bool :=
  Ascii.eqb c " " || (code c =? 9)%N || (code c =? 10)%N || (code c =? 13)%N.
(** A text that opens with a byte of its own: no blank, no bracket that would close a list. *)
Definition opens (t : string) : Prop :=
  match t with
  | String c _ => is_ws c = false /\ c <> "}"%char /\ c <> "]"%char
  | EmptyString => False
  end.
Lemma expect_head a c s : is_ws c = false -> expect a (String c s) = if Ascii.eqb c a then Some s else None.
Proof. intros Hc. unfold expect. cbn [skip_ws]. unfold is_ws in Hc. by rewrite Hc. Qed.

(** [item] reads [x] from the text [t] wherever it stands. *)
Definition reads {A} (item : string -> option (A * string)) (x : A) (t : string) : Prop :=
  opens t /\ forall rest, delimited rest -> item (t +:+ rest) = Some (x, rest).

Lemma read_items_join {A} (item : string -> option (A * string)) close xs ts rest fuel :
  close = "}"%char \/ close = "]"%char -> Forall2 (reads item) xs ts -> xs <> [] -> (length xs <= fuel)%nat ->
  read_items item close fuel (join "," ts +:+ String close rest) = Some (xs, rest).
Proof.
  intros Hclose Hr. revert fuel. induction Hr as [|x t xs ts [_ Hx] Hr IH]; intros fuel Hne Hf; [done|].
  destruct fuel as [|fuel]; [simpl in Hf; lia|]. cbn [read_items].
  assert (Hws : is_ws close = false /\ Ascii.eqb close "," = false /\ number_byte close = false)
    by (by destruct Hclose as [-> | ->]).
  destruct Hws as (Hw & Hc & Hn).
  destruct Hr as [|x2 t2 xs ts Hx2 Hr].
  - cbn [join]. rewrite Hx by done. cbn. rewrite !expect_head by done.
    rewrite Hc. by rewrite Ascii.eqb_refl.
  - rewrite join_cons, !str_app_assoc, Hx by done. cbn [mbind option_bind].
    change ("," +:+ ?s) with (String "," s). rewrite expect_head by done. rewrite Ascii.eqb_refl.
    rewrite IH; [done|done|simpl in *; lia].
Qed.

Lemma opens_length t : opens t -> (1 <= String.length t)%nat.
Proof. destruct t; simpl; [done|lia]. Qed.
Lemma join_length ts : Forall opens ts -> (length ts <= String.length (join "," ts))%nat.
Proof.
  induction 1 as [|t ts Ht%opens_length Hts IH]; [simpl; lia|].
  destruct ts as [|t2 ts]; [simpl in *; lia|]. rewrite join_cons, !str_length_app. simpl in *. lia.
Qed.

Lemma read_list_join {A} (item : string -> option (A * string)) close xs ts rest :
  close = "}"%char \/ close = "]"%char -> Forall2 (reads item) xs ts ->
  read_list item close (join "," ts +:+ String close rest) = Some (xs, rest).
Proof.
  intros Hclose Hr. unfold read_list. destruct Hr as [|x t xs ts Hx Hr].
  - cbn [join String.append]. rewrite expect_head by (by destruct Hclose as [-> | ->]).
    by rewrite Ascii.eqb_refl.
  - assert (Hnone : expect close (join "," (t :: ts) +:+ String close rest) = None).
    { destruct Hx as [Ho _]. destruct t as [|c t]; [done|]. destruct Ho as (Hw & H1 & H2).
      assert (exists r, join "," (String c t :: ts) +:+ String close rest = String c r) as [r ->]
        by (destruct ts; eexists; reflexivity).
      rewrite expect_head by done. destruct (Ascii.eqb_spec c close) as [->|]; [|done].
      by destruct Hclose. }
    rewrite Hnone. apply read_items_join; [done|by constructor|done|].
    assert (Ho : Forall opens (t :: ts)).
    { constructor; [apply Hx|]. clear Hnone. induction Hr as [|? ? ? ? []]; by constructor. }
    apply join_length in Ho. apply Forall2_length in Hr. rewrite str_length_app. simpl in *. lia.
Qed.

(** A value the round trip is stated for. *)
Definition plain (v : GoVal) : Prop :=
  match v with VNil | VBool _ | VString _ => True | VInt z | VInt64 z => in_int64 z | _ => False end.

Section RoundTrip.
Context {FT : FloatText} {JT : JsonText} {FL : FloatTextLaws FT}.

Lemma read_number c s : itoa_byte c = true ->
  read_scalar (String c s) = (let '(t, r) := take_number (String c s) in
                              if number_ok t then f ← parse_float t; Some (VFloat64 f, r) else None).
Proof. destruct c as [[] [] [] [] [] [] [] []]; try discriminate; intros _; reflexivity. Qed.
Lemma itoa_head z : exists c r, itoa z = String c r /\ itoa_byte c = true.
Proof.
  pose proof (itoa_bytes z) as Hb. pose proof (itoa_nonempty z). destruct (itoa z) as [|c r]; [done|].
  simpl in Hb. apply andb_true_iff in Hb as [Hc _]. eauto.
Qed.
Lemma itoa_opens z : opens (itoa z).
Proof.
  destruct (itoa_head z) as (c & r & -> & Hc).
  destruct c as [[] [] [] [] [] [] [] []]; try discriminate Hc; repeat split; discriminate.
Qed.

Lemma reads_value v t : plain v -> json_value v = Ok t -> reads read_scalar (json_view v) t.
Proof.
  assert (Hint : forall z, in_int64 z -> reads read_scalar (VFloat64 (float_of_int z)) (itoa z)).
  { intros z Hz. split; [apply itoa_opens|]. intros rest Hrest.
    destruct (itoa_head z) as (c & r & E & Hc). rewrite E. cbn [String.append]. rewrite read_number by done.
    change (String c (r +:+ rest)) with (String c r +:+ rest). rewrite <- E.
    rewrite take_number_app, number_itoa, parse_float_int by (done || apply itoa_bytes). done. }
  destruct v; try done; cbn [plain json_value json_view]; intros Hv [= <-]; auto.
  - split; [repeat split; discriminate|]. intros rest _. reflexivity.
  - split; [destruct b; repeat split; discriminate|]. intros rest _. by destruct b.
  - split; [repeat split; discriminate|]. intros rest _. unfold json_string. cbn [String.append].
    rewrite str_app_assoc.
    transitivity ('(v, r) ← read_string (json_bytes s +:+ str1 DQUOTE +:+ rest); Some (VString v, r)); [reflexivity|].
    by rewrite read_json_string.
Qed.

Lemma reads_member kv t : plain kv.2 -> json_member kv = Ok t ->
  reads read_member (kv.1, json_view kv.2) t.
Proof.
  destruct kv as [k v]. unfold json_member. cbn [fst snd]. intros Hv (tv & Htv & [= <-])%bind_Ok.
  destruct (reads_value v tv Hv Htv) as [_ Hr].
  split; [repeat split; discriminate|]. intros rest Hrest. unfold json_string. cbn [String.append].
  rewrite !str_app_assoc. unfold read_member. rewrite expect_head by done. rewrite Ascii.eqb_refl. cbn [mbind option_bind].
  rewrite read_json_string. cbn [mbind option_bind String.append]. rewrite expect_head by done.
  rewrite Ascii.eqb_refl. cbn [mbind option_bind]. by rewrite Hr.
Qed.

Lemma last_wins_id (kvs : list (string * GoVal)) : NoDup kvs.*1 -> last_wins kvs = kvs.
Proof.
  induction kvs as [|kv kvs IH]; [done|]. cbn [fmap list_fmap]. intros [Hn Hd]%NoDup_cons.
  unfold last_wins in *. cbn [foldr]. rewrite IH by done.
  by rewrite bool_decide_eq_false_2.
Qed.

Lemma reads_row row t : NoDup row.*1 -> Forall (fun kv => plain kv.2) row -> json_row row = Ok t ->
  reads read_row (json_row_view row) t.
Proof.
  intros Hn Hp. unfold json_row. intros (ms & Hms & [= <-])%bind_Ok.
  split; [repeat split; discriminate|]. intros rest _. cbn [String.append]. unfold read_row.
  assert (Hq : forall s, has_prefix "null" (skip_ws (String "{" s)) = false) by reflexivity.
  rewrite Hq. rewrite expect_head by done. rewrite Ascii.eqb_refl. cbn [mbind option_bind].
  rewrite str_app_assoc. cbn [String.append].
  rewrite (read_list_join _ _ (json_row_view row)); [|by left|].
  - cbn. f_equal. f_equal. apply last_wins_id. unfold json_row_view.
    rewrite <- list_fmap_compose. change (compose fst _) with (@fst string GoVal).
    by rewrite (merge_sort_Permutation key_le row).
  - apply mapR_Ok in Hms. unfold json_row_view.
    assert (Hp' : Forall (fun kv => plain kv.2) (merge_sort key_le row)) by (by rewrite merge_sort_Permutation).
    clear - Hms Hp' FL. induction Hms as [|kv m l ms Hm Hms IH]; [constructor|].
    apply Forall_cons in Hp' as [? ?]. cbn. constructor; [by apply reads_member|auto].
Qed.

(** What [Unmarshal] reads back of marshalled rows. *)
Lemma rows_roundtrip rows t :
  Forall (fun row => NoDup row.*1 /\ Forall (fun kv => plain kv.2) row) rows ->
  Marshal_rows rows = Ok t -> Unmarshal_rows t = Ok (map json_row_view rows) /\ t <> EmptyString.
Proof.
  intros Hp. unfold Marshal_rows. intros (rs & Hrs & [= <-])%bind_Ok. split; [|done].
  unfold Unmarshal_rows, read_rows. cbn [String.append].
  assert (Hq : forall s, has_prefix "null" (skip_ws (String "[" s)) = false) by reflexivity.
  rewrite Hq, expect_head by done. rewrite Ascii.eqb_refl. cbn [mbind option_bind].
  rewrite (read_list_join _ _ (map json_row_view rows)); [done|by right|].
  apply mapR_Ok in Hrs. induction Hrs as [|row t l rs Hr Hrs IH]; [constructor|].
  apply Forall_cons in Hp as [[? ?] ?]. cbn. constructor; [by apply reads_row|auto].
Qed.

(** Plain rows are always marshalled. *)
Lemma Marshal_plain rows :
  Forall (fun row => Forall (fun kv => plain kv.2) row) rows -> exists t, Marshal_rows rows = Ok t.
Proof.
  intros Hp. unfold Marshal_rows.
  assert (exists rs, mapR json_row rows = Ok rs) as [rs ->]; [|by eexists].
  apply mapR_total. eapply Forall_impl; [exact Hp|]. intros row Hrow. unfold json_row.
  assert (exists ms, mapR json_member (merge_sort key_le row) = Ok ms) as [ms ->]; [|by eexists].
  apply mapR_total. rewrite merge_sort_Permutation. eapply Forall_impl; [exact Hrow|].
  intros [k v] Hv. unfold json_member. cbn [fst snd] in *. destruct v; try done; by eexists.
Qed.
End RoundTrip.
