(* ===== verification/JsonRaw.v ===== *)
(** * Package [encoding/json]: raw messages

    A [json.RawMessage] is the text of one value.  [raw_array] and [raw_object] split a text
    into those of its elements and members; the other decoders read one value into a Go type.
    A decoder gives [None] where [json.Unmarshal] returns an error. *)
From S2P Require Import Prelude GoStrings Values GoConv FuncMap Json.

Section Raw.
Context {FT : FloatText}.

Definition literals : list string := ["null"; "true"; "false"].
(** What follows the value the text starts with. *)
Fixpoint skip_value (fuel : nat) (s : string) : option string :=
  match fuel with
  | O => None
  | S fuel' =>
      let s := skip_ws s in
      let item s := r ← skip_value fuel' s; Some (tt, r) in
      let member s := r ← expect DQUOTE s; '(_, r) ← read_string r; r ← expect ":"%char r; item r in
      match List.find (fun l => has_prefix l s) literals with
      | Some l => Some (str_drop (String.length l) s)
      | None =>
          match s with
          | String c s' =>
              if Ascii.eqb c DQUOTE then '(_, r) ← read_string s'; Some r
              else if Ascii.eqb c "{" then '(_, r) ← read_list member "}"%char s'; Some r
              else if Ascii.eqb c "[" then '(_, r) ← read_list item "]"%char s'; Some r
              else let '(t, r) := take_number s in if number_ok t then Some r else None
          | EmptyString => None
          end
      end
  end.
(** The raw text of the first value, and the rest. *)
Definition read_raw (s : string) : option (string * string) :=
  let s := skip_ws s in
  r ← skip_value (S (String.length s)) s;
  Some (str_take (String.length s - String.length r) s, r).
Definition read_raw_member (s : string) : option ((string * string) * string) :=
  r ← expect DQUOTE s; '(k, r) ← read_string r; r ← expect ":"%char r; '(v, r) ← read_raw r; Some ((k, v), r).

(** The whole text is one value. *)
Definition whole {A} (x : option (A * string)) : option A :=
  '(a, r) ← x; if String.eqb (skip_ws r) EmptyString then Some a else None.
Definition is_null (s : string) : bool := match whole (read_raw s) with Some t => String.eqb t "null" | None => false end.
(** Into a slice; [null] leaves it nil. *)
Definition raw_array (s : string) : option (list string) :=
  if is_null s then Some [] else whole (r ← expect "["%char s; read_list read_raw "]"%char r).
(** The members of an object in order. *)
Definition raw_object (s : string) : option (list (string * string)) :=
  if is_null s then Some [] else whole (r ← expect "{"%char s; read_list read_raw_member "}"%char r).
(** Into a string or a [float64] that holds its zero value. *)
Definition dec_string (s : string) : option string :=
  if is_null s then Some EmptyString else whole (r ← expect DQUOTE s; read_string r).
Definition dec_float (s : string) : option spec_float :=
  if is_null s then Some (S754_zero false)
  else t ← whole (read_raw s);
       if String.eqb (take_number t).1 t && number_ok t then parse_float t else None.
(** Into a [map\[string\]string]. *)
Definition dec_string_map (s : string) : option (list (string * string)) :=
  kvs ← raw_object s;
  foldl (fun acc kv => m ← acc; v ← dec_string kv.2; Some (assoc_set kv.1 v m)) (Some []) kvs.
(** Into a [\[2\]json.RawMessage]: missing elements stay empty, more are ignored. *)
Definition dec_pair (s : string) : option (string * string) :=
  l ← raw_array s; Some (nth 0 l EmptyString, nth 1 l EmptyString).
(** A struct field: the last member whose name matches, whatever its case. *)
Definition json_field (name : string) (kvs : list (string * string)) : option string :=
  foldl (fun acc kv => if equal_fold (str_map upper_byte name) kv.1 then Some kv.2 else acc) None kvs.
Definition dec_field {A} (dec : string -> option A) (zero : A) (name : string) (kvs : list (string * string)) : option A :=
  match json_field name kvs with Some raw => dec raw | None => Some zero end.
End Raw.
