(* ===== verification/Scalar.v ===== *)
(** * internal/graphql/scalar: the AnyValue, JSON and DateTime scalars

    What a client may put into a filter value, and how the scalars are read and written.
    [time.Parse] and [Time.Format] for RFC 3339 are the class [TimeText]. *)
From S2P Require Import Prelude GoStrings Values GoConv FuncMap Json JsonRaw.

(** ** anyvalue.go *)

Definition MaxAnyValueDepth : Z := 64.
Definition ErrAnyValueDepthExceeded : error := Errorf (Sprintf "AnyValue exceeds maximum nesting depth of 64" []).

(** The loops over the children, with the error of the first bad one. *)
Section Children.
Variable check : GoVal -> option error.
Fixpoint check_members (m : list (string * GoVal)) : option error :=
  match m with
  | [] => None
  | (k, child) :: m' =>
      match check child with
      | Some err => Some (Wrap (Sprintf "at key %q: %w" [AStr k; AErr err]) err)
      | None => check_members m'
      end
  end.
Fixpoint check_items (i : Z) (l : list GoVal) : option error :=
  match l with
  | [] => None
  | child :: l' =>
      match check child with
      | Some err => Some (Wrap (Sprintf "at index [%d]: %w" [AInt i; AErr err]) err)
      | None => check_items (i + 1) l'
      end
  end.
End Children.
(** The values of [map\[string\]any] in the order of the list. *)
Fixpoint validateAnyValue (v : GoVal) (depth : Z) {struct v} : option error :=
  match v with
  | VNil | VBool _ | VString _ | VFloat64 _ | VInt _ | VInt64 _ => None
  | VJSONNumber _ => None
  | VMap m =>
      if MaxAnyValueDepth <=? depth then Some ErrAnyValueDepthExceeded
      else check_members (fun child => validateAnyValue child (depth + 1)) m
  | VSlice l =>
      if MaxAnyValueDepth <=? depth then Some ErrAnyValueDepthExceeded
      else check_items (fun child => validateAnyValue child (depth + 1)) 0 l
  | _ => Some (Errorf (Sprintf "unsupported AnyValue type: %T" [AVal v]))
  end.
Definition UnmarshalAnyValue (v : GoVal) : result GoVal :=
  match validateAnyValue v 0 with Some err => Err err | None => Ok v end.
Definition MarshalAnyValue `{JsonText} (v : GoVal) : string :=
  match json_value v with Err _ => "null" | Ok b => b end.

(** ** json.go *)

(** [json.Unmarshal] into an [any]; [fuel] bounds the nesting, and the length of the text suffices. *)
Fixpoint json_any `{FloatText} (fuel : nat) (s : string) : option GoVal :=
  match fuel with
  | O => None
  | S fuel' =>
      t ← whole (read_raw s);
      match t with
      | String c _ =>
          if String.eqb t "null" then Some VNil
          else if String.eqb t "true" then Some (VBool true)
          else if String.eqb t "false" then Some (VBool false)
          else if Ascii.eqb c DQUOTE then VString <$> dec_string t
          else if Ascii.eqb c "[" then
            items ← raw_array t; VSlice <$> mapM (json_any fuel') items
          else if Ascii.eqb c "{" then
            kvs ← raw_object t;
            VMap <$> foldl (fun acc kv => m ← acc; v ← json_any fuel' kv.2; Some (assoc_set kv.1 v m)) (Some []) kvs
          else VFloat64 <$> dec_float t
      | EmptyString => None
      end
  end.
Definition MarshalJSON `{JsonText} (v : list (string * GoVal)) : string :=
  match json_row v with Err _ => "null" | Ok b => b end.
(** A nil map is the empty one. *)
Definition UnmarshalJSON `{FloatText} (v : GoVal) : result (list (string * GoVal)) :=
  match v with
  | VMap m => Ok m
  | VString s =>
      match json_any (S (String.length s)) s with
      | Some (VMap m) => Ok m
      | Some VNil => Ok []
      | _ => Err (Errorf (Sprintf "JSON scalar must be a valid JSON object: %w" [AStr s]))
      end
  | _ => Err (Errorf (Sprintf "JSON scalar must be a map or string, got %T" [AVal v]))
  end.

(** ** datetime.go *)

Class TimeText := { Time : Type; Format : Time -> string; Parse : string -> option Time }.
Section DateTime.
Context {TM : TimeText}.
Definition MarshalDateTime (t : Time) : string := str1 DQUOTE +:+ Format t +:+ str1 DQUOTE.
Definition UnmarshalDateTime (v : GoVal) : result Time :=
  match v with
  | VString s =>
      match Parse s with
      | Some t => Ok t
      | None => Err (Errorf (Sprintf "DateTime must be in RFC3339 format: %w" [AStr s]))
      end
  | _ => Err (Errorf (Sprintf "DateTime must be a string, got %T" [AVal v]))
  end.
End DateTime.

(** ** Theorems *)

(** The types a decoder of variables or literals produces. *)
Fixpoint supported (v : GoVal) : bool :=
  match v with
  | VNil | VBool _ | VString _ | VFloat64 _ | VInt _ | VInt64 _ | VJSONNumber _ => true
  | VMap m => forallb (fun kv => supported kv.2) m
  | VSlice l => forallb supported l
  | _ => false
  end.
(** Containers inside each other; a scalar is 0. *)
Fixpoint nesting (v : GoVal) : nat :=
  match v with
  | VMap m => S (foldr (fun kv n => Nat.max (nesting kv.2) n) O m)
  | VSlice l => S (foldr (fun c n => Nat.max (nesting c) n) O l)
  | _ => O
  end.

Lemma members_none check m : check_members check m = None <-> Forall (fun kv => check kv.2 = None) m.
Proof.
  induction m as [|[k c] m IH]; simpl; [done|]. rewrite Forall_cons. simpl.
  destruct (check c); [split; [done|by intros []]|]. rewrite IH. split; [done|by intros []].
Qed.
Lemma items_none check i l : check_items check i l = None <-> Forall (fun c => check c = None) l.
Proof.
  revert i. induction l as [|c l IH]; intros i; simpl; [done|]. rewrite Forall_cons.
  destruct (check c); [split; [done|by intros []]|]. rewrite IH. split; [done|by intros []].
Qed.

Section Nested.
Variable P : GoVal -> Prop.
Hypothesis Hslice : forall l, Forall P l -> P (VSlice l).
Hypothesis Hmap : forall m, Forall (fun kv => P kv.2) m -> P (VMap m).
Hypothesis Hleaf : forall v, match v with VSlice _ | VMap _ => False | _ => True end -> P v.
#[local] Set Default Proof Using "All".
Fixpoint GoVal_nested (v : GoVal) : P v :=
  match v with
  | VSlice l => Hslice l ((fix go l := match l return Forall P l with [] => Forall_nil_2 _ | x :: l' => Forall_cons_2 _ _ _ (GoVal_nested x) (go l') end) l)
  | VMap m => Hmap m ((fix go m := match m return Forall (fun kv => P kv.2) m with [] => Forall_nil_2 _ | kv :: m' => Forall_cons_2 _ _ _ (GoVal_nested kv.2) (go m') end) m)
  | v => Hleaf v I
  end.
End Nested.

Definition fits (d : Z) (v : GoVal) : Prop := nesting v = O \/ d + Z.of_nat (nesting v) <= MaxAnyValueDepth.
(** The children of a container fit one level down. *)
Lemma fits_children {A} (f : A -> GoVal) d (l : list A) :
  d < MaxAnyValueDepth ->
  Forall (fun x => fits (d + 1) (f x)) l <-> d + Z.of_nat (S (foldr (fun x n => Nat.max (nesting (f x)) n) O l)) <= MaxAnyValueDepth.
Proof.
  intros Hd. induction l as [|x l IH]; simpl; [split; [lia|constructor]|].
  rewrite Forall_cons, IH. unfold fits. lia.
Qed.
Lemma validate_iff v : forall d, validateAnyValue v d = None <-> supported v = true /\ fits d v.
Proof.
  induction v as [l IH|m IH|v Hv] using GoVal_nested; intros d.
  - unfold fits. simpl. destruct (Z.leb_spec MaxAnyValueDepth d) as [Hd|Hd].
    { split; [done|]. intros [_ [H|H]]; [done|lia]. }
    rewrite items_none, forallb_forall. rewrite Forall_forall in IH.
    pose proof (fits_children (fun x => x) d l Hd) as Hf. cbn beta in Hf.
    split.
    + intros H. rewrite Forall_forall in H. split; [intros x Hx%list_elem_of_In; by apply (IH x Hx (d + 1)), H|].
      right. apply Hf, Forall_forall. intros x Hx. by apply (IH x Hx (d + 1)), H.
    + intros [Hs [H|H]]; [done|]. apply Hf in H. rewrite Forall_forall in H. apply Forall_forall. intros x Hx.
      apply (IH x Hx (d + 1)). split; [by apply Hs, list_elem_of_In|by apply H].
  - unfold fits. simpl. destruct (Z.leb_spec MaxAnyValueDepth d) as [Hd|Hd].
    { split; [done|]. intros [_ [H|H]]; [done|lia]. }
    rewrite members_none, forallb_forall. rewrite Forall_forall in IH. pose proof (fits_children snd d m Hd) as Hf.
    split.
    + intros H. rewrite Forall_forall in H. split; [intros x Hx%list_elem_of_In; by apply (IH x Hx (d + 1)), H|].
      right. apply Hf, Forall_forall. intros x Hx. by apply (IH x Hx (d + 1)), H.
    + intros [Hs [H|H]]; [done|]. apply Hf in H. rewrite Forall_forall in H. apply Forall_forall. intros x Hx.
      apply (IH x Hx (d + 1)). split; [by apply Hs, list_elem_of_In|by apply H].
  - unfold fits. destruct v; simpl in *; try done; split; intros; intuition (auto; discriminate).
Qed.

(** which values an AnyValue takes.  Exactly those built of JSON types with at most 64
    containers inside each other, and it takes them as they are; so no value of a filter that
    reached a resolver is nested deeper. *)
Theorem any_value_iff v : UnmarshalAnyValue v = Ok v <-> supported v = true /\ (nesting v <= 64)%nat.
Proof.
  unfold UnmarshalAnyValue. pose proof (validate_iff v 0) as H. unfold fits, MaxAnyValueDepth in H.
  destruct (validateAnyValue v 0) as [e|].
  - split; [done|]. intros [Hs Hn]. assert (Some e = None); [apply H; split; [done|lia]|done].
  - split; [|done]. intros _. destruct (proj1 H eq_refl) as [Hs Hn]. split; [done|lia].
Qed.

(** A nested object arrives as the value the text denotes. *)
Definition demo_object : string :=
  "{" +:+ str1 DQUOTE +:+ "a" +:+ str1 DQUOTE +:+ ": [true, {}], " +:+ str1 DQUOTE +:+ "b" +:+ str1 DQUOTE +:+ ":null}".
Definition demo_float_text : FloatText := {| parse_float _ := None; format_float _ := EmptyString |}.
Example UnmarshalJSON_demo :
  UnmarshalJSON (H := demo_float_text) (VString demo_object) = Ok [("a", VSlice [VBool true; VMap []]); ("b", VNil)].
Proof. vm_compute. reflexivity. Qed.
Lemma any_value_iff_witness : UnmarshalAnyValue (VSlice [VMap [("k", VInt 1)]; VNil]) = Ok (VSlice [VMap [("k", VInt 1)]; VNil]).
Proof. apply any_value_iff. split; [reflexivity|simpl; lia]. Defined.
