(* ===== verification/RateLimit.v ===== *)
(** * internal/ratelimit: the interface and the local limiter

    [RateLimiter] is the interface of ratelimit.go.  The token bucket of
    golang.org/x/time/rate is the class [TokenBucket], with its documented behaviour as
    laws over the exact level of a bucket; [exact_bucket] has them.  The distributed and the
    falling-back limiter are in files of their own. *)
From Stdlib Require Import QArith Qminmax Qround Lqa.
From S2P Require Import Prelude GoStrings Values GoConv.
Open Scope Z_scope.

(** ** ratelimit.go *)

Record RateLimitResult := { Allowed : bool; Limit : Z; Remaining : Z; ResetAt : Z }.
(** [Allow ctx key count] at an instant. *)
Class RateLimiter (L : Type) := { Allow : Z -> string -> Z -> L -> result RateLimitResult * L }.

(** ** golang.org/x/time/rate *)

(** The exact value of a finite float. *)
Definition Q_of_float (f : spec_float) : Q :=
  match f with
  | S754_finite s m e =>
      let v := if 0 <=? e then inject_Z (Zpos m * 2 ^ e) else (Zpos m # Z.to_pos (2 ^ (- e))) in
      if s then Qopp v else v
  | _ => 0%Q
  end.
(** Tokens that flow in at [rate] per second in [dt] nanoseconds. *)
Definition inflow (rate : spec_float) (dt : Z) : Q := (Q_of_float rate * inject_Z dt / inject_Z second)%Q.

Class TokenBucket (B : Type) := {
  NewLimiter : spec_float -> Z -> B;
  AllowN : Z -> Z -> B -> bool * B;
  TokensAt : Z -> B -> spec_float;
}.
(** A bucket of size [burst] that starts full and is refilled at [rate] per second; [AllowN]
    takes [n] tokens if they are there at that instant.  [level] is the exact number of
    tokens, [stamp] the last instant the bucket was used at. *)
Class TokenBucketLaws {B} (TB : TokenBucket B) := {
  bucket : spec_float -> Z -> B -> Prop;
  level : Z -> B -> Q;
  (** not used after the instant *)
  ready : Z -> B -> Prop;
  ready_mono t t' b : ready t b -> t <= t' -> ready t' b;
  ready_new rate burst t : ready t (NewLimiter rate burst);
  ready_allow now n b : ready now b -> ready now (AllowN now n b).2;
  bucket_new rate burst : 0 <= burst -> bucket rate burst (NewLimiter rate burst);
  bucket_allow rate burst now n b : bucket rate burst b -> 0 <= n -> bucket rate burst (AllowN now n b).2;
  level_new rate burst t : (level t (NewLimiter rate burst) == inject_Z burst)%Q;
  level_range rate burst t b : bucket rate burst b -> (0 <= level t b <= inject_Z burst)%Q;
  allow_iff rate burst now n b : bucket rate burst b -> 0 <= n -> ready now b ->
    (AllowN now n b).1 = true <-> (inject_Z n <= level now b)%Q;
  level_allow rate burst now n b : bucket rate burst b -> 0 <= n -> ready now b ->
    (level now (AllowN now n b).2 == level now b - (if (AllowN now n b).1 then inject_Z n else 0))%Q;
  level_inflow rate burst t t' b : bucket rate burst b -> ready t b -> t <= t' ->
    (0 <= Q_of_float rate)%Q -> (level t' b <= level t b + inflow rate (t' - t))%Q;
  level_full rate burst t t' b : bucket rate burst b -> ready t b -> t <= t' -> (0 <= Q_of_float rate)%Q ->
    (inject_Z burst <= level t b + inflow rate (t' - t))%Q -> (level t' b == inject_Z burst)%Q;
}.

(** *** The exact bucket *)

Record exact_bucket := { eb_rate : spec_float; eb_burst : Z; eb_tokens : Q; eb_last : option Z }.
Definition eb_level (t : Z) (b : exact_bucket) : Q :=
  match eb_last b with
  | None => eb_tokens b
  | Some u => Qmax 0 (Qmin (inject_Z (eb_burst b)) (eb_tokens b + inflow (eb_rate b) (t - u)))
  end.
#[export] Instance exact_tokens : TokenBucket exact_bucket := {|
  NewLimiter rate burst := {| eb_rate := rate; eb_burst := burst; eb_tokens := inject_Z burst; eb_last := None |};
  AllowN now n b :=
    let l := eb_level now b in
    let ok := Qle_bool (inject_Z n) l in
    (ok, {| eb_rate := eb_rate b; eb_burst := eb_burst b;
            eb_tokens := if ok then l - inject_Z n else l; eb_last := Some now |});
  TokensAt t b := float_of_int (Qfloor (eb_level t b));
|}.

Lemma inflow_add r a b : (inflow r (a + b) == inflow r a + inflow r b)%Q.
Proof. unfold inflow, Qdiv. rewrite inject_Z_plus. ring. Qed.
Lemma inflow_0 r : (inflow r 0 == 0)%Q.
Proof. unfold inflow, Qdiv. ring. Qed.
Lemma inflow_nonneg r a : (0 <= Q_of_float r)%Q -> 0 <= a -> (0 <= inflow r a)%Q.
Proof.
  intros Hr Ha. unfold inflow, Qdiv. apply Qmult_le_0_compat; [|discriminate].
  apply Qmult_le_0_compat; [done|]. change 0%Q with (inject_Z 0). by rewrite <- Zle_Qle.
Qed.

Lemma clamp_Q (b x : Q) : (0 <= b)%Q ->
  (0 <= Qmax 0 (Qmin b x) <= b)%Q /\ (0 <= x -> x <= b -> Qmax 0 (Qmin b x) == x)%Q
  /\ (b <= x -> Qmax 0 (Qmin b x) == b)%Q /\ (x <= Qmax 0 (Qmin b x) \/ b == Qmax 0 (Qmin b x))%Q
  /\ (0 <= x -> Qmax 0 (Qmin b x) <= x)%Q.
Proof.
  intros Hb. destruct (Q.max_spec 0 (Qmin b x)) as [[? ->]|[? ->]], (Q.min_spec b x) as [[? E]|[? E]];
    rewrite ?E in *; repeat split; intros; try lra; (left; lra) || (right; lra).
Qed.

Lemma eb_level_after now n b : (0 <= eb_tokens (AllowN now n b).2 <= inject_Z (eb_burst b))%Q -> 0 <= eb_burst b ->
  (eb_level now (AllowN now n b).2 == eb_tokens (AllowN now n b).2)%Q.
Proof.
  intros Ht Hn. unfold eb_level at 1. simpl in *. rewrite Z.sub_diag.
  assert (0 <= inject_Z (eb_burst b))%Q by (change 0%Q with (inject_Z 0); by rewrite <- Zle_Qle).
  pose proof (inflow_0 (eb_rate b)). set (x := (if Qle_bool _ _ then _ else _)) in *.
  destruct (clamp_Q (inject_Z (eb_burst b)) (x + inflow (eb_rate b) 0)) as (_ & Hx & _); [done|]. rewrite Hx; lra.
Qed.

Definition eb_ok (r : spec_float) (n : Z) (b : exact_bucket) : Prop :=
  eb_rate b = r /\ eb_burst b = n /\ 0 <= n /\ (0 <= eb_tokens b <= inject_Z n)%Q
  /\ (eb_last b = None -> (eb_tokens b == inject_Z n)%Q).
Lemma eb_burst_nonneg r n b : eb_ok r n b -> (0 <= inject_Z n)%Q.
Proof. intros (_ & _ & Hn & _). change 0%Q with (inject_Z 0). by rewrite <- Zle_Qle. Qed.
Lemma eb_level_range r n t b : eb_ok r n b -> (0 <= eb_level t b <= inject_Z n)%Q.
Proof.
  intros Hok. pose proof (eb_burst_nonneg _ _ _ Hok) as Hb. destruct Hok as (<- & <- & _ & Ht & _).
  unfold eb_level. destruct (eb_last b); [by apply clamp_Q|done].
Qed.
Lemma eb_allow_ok r n now k b : eb_ok r n b -> 0 <= k -> eb_ok r n (AllowN now k b).2.
Proof.
  intros Hok Hk. pose proof (eb_level_range _ _ now _ Hok) as Hl. destruct Hok as (Hr & Hn & H0 & _).
  split; [done|]. split; [done|]. split; [done|]. split; [|done]. simpl.
  assert (0 <= inject_Z k)%Q by (change 0%Q with (inject_Z 0); by rewrite <- Zle_Qle).
  destruct (Qle_bool (inject_Z k) (eb_level now b)) eqn:E; [|done]. apply Qle_bool_iff in E. lra.
Qed.

#[export] Instance exact_laws : TokenBucketLaws exact_tokens.
Proof.
  refine {|
    bucket := eb_ok; level := eb_level;
    ready t b := match eb_last b with None => True | Some u => u <= t end;
  |}.
  - intros t t' b. destruct (eb_last b); [lia|done].
  - done.
  - intros now n b _. simpl. lia.
  - intros r n Hn. split; [done|]. split; [done|]. split; [done|]. split; [|done]. simpl.
    assert (0 <= inject_Z n)%Q by (change 0%Q with (inject_Z 0); by rewrite <- Zle_Qle). lra.
  - intros r n now k b Hok Hk. by apply eb_allow_ok.
  - reflexivity.
  - apply eb_level_range.
  - intros r n now k b Hok Hk Hr. apply Qle_bool_iff.
  - intros r n now k b Hok Hk Hr. pose proof (eb_allow_ok _ _ now k _ Hok Hk) as Hok'.
    destruct Hok' as (_ & Hb' & H0 & Ht & _). rewrite eb_level_after.
    + simpl. destruct (Qle_bool _ _); lra.
    + simpl in *. by rewrite Hb'.
    + simpl in *. by rewrite Hb'.
  - intros r n t t' b Hok Hr Ht Hpos. pose proof (eb_burst_nonneg _ _ _ Hok) as Hb.
    destruct Hok as (Er & En & _ & Htok & Hnew). subst r n. unfold eb_level. destruct (eb_last b) as [u|].
    + pose proof (inflow_add (eb_rate b) (t - u) (t' - t)) as Ha. replace (t - u + (t' - t)) with (t' - u) in Ha by lia.
      pose proof (inflow_nonneg (eb_rate b) (t' - t) Hpos ltac:(lia)).
      pose proof (inflow_nonneg (eb_rate b) (t - u) Hpos ltac:(lia)).
      pose proof (inflow_nonneg (eb_rate b) (t' - u) Hpos ltac:(lia)).
      destruct (clamp_Q (inject_Z (eb_burst b)) (eb_tokens b + inflow (eb_rate b) (t - u))) as (? & _ & _ & Hc & _); [done|].
      destruct (clamp_Q (inject_Z (eb_burst b)) (eb_tokens b + inflow (eb_rate b) (t' - u))) as (? & _ & _ & _ & Hc'); [done|].
      destruct Hc as [Hc|Hc]; [specialize (Hc' ltac:(lra))|]; lra.
    + pose proof (inflow_nonneg (eb_rate b) (t' - t) Hpos ltac:(lia)). lra.
  - intros r n t t' b Hok Hr Ht Hpos. pose proof (eb_burst_nonneg _ _ _ Hok) as Hb.
    destruct Hok as (Er & En & _ & Htok & Hnew). subst r n. unfold eb_level. destruct (eb_last b) as [u|]; [|auto].
    pose proof (inflow_add (eb_rate b) (t - u) (t' - t)) as Ha. replace (t - u + (t' - t)) with (t' - u) in Ha by lia.
    pose proof (inflow_nonneg (eb_rate b) (t - u) Hpos ltac:(lia)).
    destruct (clamp_Q (inject_Z (eb_burst b)) (eb_tokens b + inflow (eb_rate b) (t - u))) as (? & _ & _ & _ & Hle); [done|].
    destruct (clamp_Q (inject_Z (eb_burst b)) (eb_tokens b + inflow (eb_rate b) (t' - u))) as (? & _ & Hfull & _); [done|].
    intros Hin. apply Hfull. specialize (Hle ltac:(lra)). lra.
Defined.

(** ** local.go *)

(** [Duration.Seconds]. *)
Definition duration_seconds (d : Z) : spec_float :=
  SFadd prec64 emax64 (float_of_int (Z.quot d second))
    (float_div (float_of_int (Z.rem d second)) (float_of_int second)).

Section Local.
Context {B : Type} {TB : TokenBucket B}.

Record limiterEntry := { limiter : B; lastSeen : Z }.
Record KeyedRateLimiter := {
  limiters : gmap string limiterEntry;
  ratePerSec : spec_float;
  burst : Z;
  maxEntries : Z;
  windowSize : Z;
  cleanupInterval : Z;
}.
Definition set_limiters (m : gmap string limiterEntry) (krl : KeyedRateLimiter) : KeyedRateLimiter :=
  {| limiters := m; ratePerSec := ratePerSec krl; burst := burst krl; maxEntries := maxEntries krl;
     windowSize := windowSize krl; cleanupInterval := cleanupInterval krl |}.

Definition NewKeyedRateLimiter (requestsPerWindow windowSize maxEntries : Z) : KeyedRateLimiter :=
  {| limiters := ∅;
     ratePerSec := float_div (float_of_int requestsPerWindow) (duration_seconds windowSize);
     burst := requestsPerWindow; maxEntries := maxEntries; windowSize := windowSize;
     cleanupInterval := wrap64 (2 * windowSize) |}.

Definition Keyed_Allow (now : Z) (key : string) (count : Z) (krl : KeyedRateLimiter)
    : RateLimitResult * KeyedRateLimiter :=
  let refused := {| Allowed := false; Limit := burst krl; Remaining := 0; ResetAt := now + windowSize krl |} in
  let found :=
    match limiters krl !! key with
    | Some entry => Some (limiter entry)
    | None => if maxEntries krl <=? Z.of_nat (size (limiters krl)) then None
              else Some (NewLimiter (ratePerSec krl) (burst krl))
    end in
  match found with
  | None => (refused, krl)
  | Some l =>
      let '(allowed, l') := AllowN now count l in
      ({| Allowed := allowed; Limit := burst krl; Remaining := Z.max 0 (int_of_float (TokensAt now l'));
          ResetAt := now + windowSize krl |},
       set_limiters (<[key := {| limiter := l'; lastSeen := now |}]> (limiters krl)) krl)
  end.
(** One tick of [startCleanup]. *)
Definition cleanup_tick (now : Z) (krl : KeyedRateLimiter) : KeyedRateLimiter :=
  set_limiters (filter (fun kv => (time_sub now (lastSeen kv.2) <=? cleanupInterval krl) = true) (limiters krl)) krl.

#[export] Instance keyed_limiter : RateLimiter KeyedRateLimiter := {|
  Allow now key count krl := let '(r, krl') := Keyed_Allow now key count krl in (Ok r, krl');
|}.
End Local.
Arguments limiterEntry : clear implicits.
Arguments KeyedRateLimiter : clear implicits.

(** ** The local limiter bounds what it lets through *)

(** What happens to a limiter, with its instant. *)
Inductive keyed_op := KAllow (now : Z) (key : string) (count : Z) | KTick (now : Z).
Definition op_time (o : keyed_op) : Z := match o with KAllow t _ _ | KTick t => t end.

Section KeyedFacts.
Context {B : Type} {TB : TokenBucket B} {TL : TokenBucketLaws TB}.
Notation Keyed := (KeyedRateLimiter B).

Definition keyed_step (krl : Keyed) (o : keyed_op) : Keyed :=
  match o with
  | KAllow now key count => (Keyed_Allow now key count krl).2
  | KTick now => cleanup_tick now krl
  end.
(** The tokens of [k] let through by one operation. *)
Definition granted (k : string) (o : keyed_op) (krl : Keyed) : Z :=
  match o with
  | KAllow now key count => if String.eqb key k && Allowed (Keyed_Allow now key count krl).1 then count else 0
  | KTick _ => 0
  end.
Fixpoint granted_sum (k : string) (ops : list keyed_op) (krl : Keyed) : Z :=
  match ops with [] => 0 | o :: ops' => granted k o krl + granted_sum k ops' (keyed_step krl o) end.
(** Operations in the order of the clock, with non-negative counts. *)
Fixpoint timed (t : Z) (ops : list keyed_op) : Prop :=
  match ops with
  | [] => True
  | o :: ops' => t <= op_time o /\ match o with KAllow _ _ n => 0 <= n | KTick _ => True end /\ timed (op_time o) ops'
  end.
Definition end_time (t : Z) (ops : list keyed_op) : Z := default t (op_time <$> last ops).

(** The limiter's state at an instant: its buckets are buckets of its parameters, none used
    in the future, no more than allowed; an idle bucket refills before it is cleaned up. *)
Record keyed_ok (t : Z) (krl : Keyed) : Prop := {
  ko_buckets k e : limiters krl !! k = Some e ->
    bucket (ratePerSec krl) (burst krl) (limiter e) /\ ready (lastSeen e) (limiter e) /\ lastSeen e <= t;
  ko_size : Z.of_nat (size (limiters krl)) <= Z.max 0 (maxEntries krl);
  ko_burst : 0 <= burst krl;
  ko_interval : 0 < cleanupInterval krl <= max_int64;
  ko_rate : (0 <= Q_of_float (ratePerSec krl))%Q;
  ko_refill : (inject_Z (burst krl) <= inflow (ratePerSec krl) (cleanupInterval krl))%Q;
}.

(** The tokens there are for [k]: a key without a bucket gets a full one. *)
Definition available (t : Z) (k : string) (krl : Keyed) : Q :=
  match limiters krl !! k with Some e => level t (limiter e) | None => inject_Z (burst krl) end.

Lemma burst_nonneg t krl : keyed_ok t krl -> (0 <= inject_Z (burst krl))%Q.
Proof. intros H. change 0%Q with (inject_Z 0). rewrite <- Zle_Qle. apply (ko_burst _ _ H). Qed.

Lemma available_range t k krl : keyed_ok t krl -> (0 <= available t k krl <= inject_Z (burst krl))%Q.
Proof.
  intros H. unfold available. destruct (limiters krl !! k) as [e|] eqn:E.
  - destruct (ko_buckets _ _ H k e E) as (Hb & _). by eapply level_range.
  - pose proof (burst_nonneg _ _ H). lra.
Qed.

Lemma available_passes t t' k krl : keyed_ok t krl -> t <= t' ->
  (available t' k krl <= available t k krl + inflow (ratePerSec krl) (t' - t))%Q.
Proof.
  intros H Ht. unfold available. destruct (limiters krl !! k) as [e|] eqn:E.
  - destruct (ko_buckets _ _ H k e E) as (Hb & Hr & Hs). eapply level_inflow; [done| |done|apply (ko_rate _ _ H)].
    by eapply ready_mono.
  - pose proof (inflow_nonneg (ratePerSec krl) (t' - t) (ko_rate _ _ H) ltac:(lia)). lra.
Qed.

Lemma keyed_ok_later t t' krl : keyed_ok t krl -> t <= t' -> keyed_ok t' krl.
Proof.
  intros [Hb Hs H1 H2 H3 H4] Ht. split; try done. intros k e E. destruct (Hb k e E) as (? & ? & ?). split_and!; [done..|lia].
Qed.
Lemma limiter_of t k krl l :
  keyed_ok t krl ->
  match limiters krl !! k with
  | Some entry => Some (limiter entry)
  | None => if maxEntries krl <=? Z.of_nat (size (limiters krl)) then None
            else Some (NewLimiter (ratePerSec krl) (burst krl))
  end = Some l ->
  bucket (ratePerSec krl) (burst krl) l /\ ready t l /\ (available t k krl == level t l)%Q.
Proof.
  intros H. unfold available. destruct (limiters krl !! k) as [e|] eqn:E.
  - intros [= <-]. destruct (ko_buckets _ _ H k e E) as (Hb & Hr & Hs). split_and!; [done| |reflexivity].
    by eapply ready_mono.
  - case_match; [done|]. intros [= <-]. split_and!; [apply bucket_new, (ko_burst _ _ H)|apply ready_new|].
    by rewrite level_new.
Qed.

Lemma allow_step now key n krl k : keyed_ok now krl -> 0 <= n ->
  let krl' := (Keyed_Allow now key n krl).2 in
  keyed_ok now krl' /\ burst krl' = burst krl /\ ratePerSec krl' = ratePerSec krl /\
  (available now k krl' == available now k krl - inject_Z (granted k (KAllow now key n) krl))%Q.
Proof.
  intros H Hn. unfold granted, Keyed_Allow. pose proof (limiter_of now key krl) as Hl.
  assert (Hsize : limiters krl !! key = None -> maxEntries krl <=? Z.of_nat (size (limiters krl)) = false ->
            Z.of_nat (S (size (limiters krl))) <= Z.max 0 (maxEntries krl)) by lia.
  destruct (match limiters krl !! key with Some _ => _ | None => _ end) as [l|] eqn:Ef.
  - destruct (Hl l H eq_refl) as (Hb & Hr & Hav). clear Hl.
    pose proof (bucket_allow _ _ now n l Hb Hn) as Hb'. pose proof (ready_allow now n l Hr) as Hr'.
    pose proof (level_allow _ _ now n l Hb Hn Hr) as Hla.
    destruct (AllowN now n l) as [ok l']. cbn [fst snd Allowed] in *. split_and!; [|done|done|].
    + split; try apply H; simpl.
      * intros k' e. destruct (decide (k' = key)) as [->|Hne].
        -- rewrite lookup_insert_eq. intros [= <-]. split_and!; [done..|]. simpl. lia.
        -- rewrite lookup_insert_ne by done. apply (ko_buckets _ _ H).
      * rewrite map_size_insert. destruct (limiters krl !! key) eqn:E; [apply (ko_size _ _ H)|].
        destruct (maxEntries krl <=? _) eqn:Em; [discriminate Ef|]. by apply Hsize.
    + unfold available at 1. simpl. destruct (String.eqb_spec key k) as [<-|Hne]; cbn [andb].
      * rewrite lookup_insert_eq. simpl. rewrite Hla, Hav. by destruct ok.
      * rewrite lookup_insert_ne by done. fold (available now k krl). change (inject_Z 0) with 0%Q. lra.
  - cbn [fst snd Allowed]. rewrite andb_false_r. split_and!; [done..|]. change (inject_Z 0) with 0%Q. lra.
Qed.

Lemma inflow_mono r a b : (0 <= Q_of_float r)%Q -> a <= b -> (inflow r a <= inflow r b)%Q.
Proof.
  intros Hr Hab. pose proof (inflow_nonneg r (b - a) Hr ltac:(lia)). pose proof (inflow_add r a (b - a)) as Ha.
  replace (a + (b - a)) with b in Ha by lia. lra.
Qed.
Lemma idle_time now u d : u <= now -> 0 < d <= max_int64 -> ~ (time_sub now u <=? d) = true -> d <= now - u.
Proof. unfold time_sub, clamp64, max_int64, min_int64. lia. Qed.

(** Deleting an idle bucket gives nothing away: it was full. *)
Lemma tick_step now krl k : keyed_ok now krl ->
  let krl' := cleanup_tick now krl in
  keyed_ok now krl' /\ burst krl' = burst krl /\ ratePerSec krl' = ratePerSec krl /\
  (available now k krl' == available now k krl)%Q.
Proof.
  intros H. simpl. split_and!; [|done|done|].
  - split; try apply H; simpl.
    + intros k' e [E _]%map_lookup_filter_Some. by apply (ko_buckets _ _ H k').
    + etrans; [|apply (ko_size _ _ H)]. apply Nat2Z.inj_le, map_size_filter.
  - unfold available. simpl. destruct (limiters krl !! k) as [e|] eqn:E.
    + destruct (ko_buckets _ _ H k e E) as (Hb & Hr & Hs).
      destruct (decide ((time_sub now (lastSeen e) <=? cleanupInterval krl) = true)) as [Hk|Hk].
      * rewrite (proj2 (map_lookup_filter_Some _ _ _ _)) by done. reflexivity.
      * rewrite (proj2 (map_lookup_filter_None _ _ _)) by (right; intros ? ?; simplify_eq; done).
        symmetry. apply (level_full _ _ (lastSeen e) now _ Hb Hr Hs (ko_rate _ _ H)).
        pose proof (level_range _ _ (lastSeen e) _ Hb) as Hl. pose proof (ko_refill _ _ H) as Hf.
        pose proof (idle_time _ _ _ Hs (ko_interval _ _ H) Hk) as Hi.
        pose proof (inflow_mono (ratePerSec krl) _ _ (ko_rate _ _ H) Hi). lra.
    + rewrite (proj2 (map_lookup_filter_None _ _ _)) by (by left). reflexivity.
Qed.

Lemma keyed_step_ok t o krl k : keyed_ok t krl -> t <= op_time o ->
  match o with KAllow _ _ n => 0 <= n | KTick _ => True end ->
  let krl' := keyed_step krl o in
  keyed_ok (op_time o) krl' /\ burst krl' = burst krl /\ ratePerSec krl' = ratePerSec krl /\
  (available (op_time o) k krl' + inject_Z (granted k o krl)
    <= available t k krl + inflow (ratePerSec krl) (op_time o - t))%Q.
Proof.
  intros H Ht Hn. pose proof (available_passes _ _ k _ H Ht) as Ha. apply (keyed_ok_later _ _ _ H) in Ht.
  destruct o as [now key n|now]; cbn [keyed_step op_time] in *.
  - destruct (allow_step now key n krl k Ht Hn) as (? & ? & ? & E). split_and!; [done..|]. lra.
  - destruct (tick_step now krl k Ht) as (? & ? & ? & E). split_and!; [done..|].
    cbn [granted]. change (inject_Z 0) with 0%Q. lra.
Qed.

Lemma end_time_cons t o ops : end_time t (o :: ops) = end_time (op_time o) ops.
Proof. unfold end_time. destruct ops as [|o' ops]; [done|]. rewrite last_cons_cons. by destruct (last_is_Some (o' :: ops)) as [_ [? ->]]. Qed.

Lemma keyed_run ops : forall t krl k, keyed_ok t krl -> timed t ops ->
  let krl' := foldl keyed_step krl ops in
  keyed_ok (end_time t ops) krl' /\
  (available (end_time t ops) k krl' + inject_Z (granted_sum k ops krl)
    <= available t k krl + inflow (ratePerSec krl) (end_time t ops - t))%Q.
Proof.
  induction ops as [|o ops IH]; intros t krl k H Ht.
  - unfold end_time. simpl. split; [done|]. rewrite Z.sub_diag, inflow_0. change (inject_Z 0) with 0%Q. lra.
  - destruct Ht as (Hle & Hn & Ht). destruct (keyed_step_ok t o krl k H Hle Hn) as (H' & Hb & Hr & E).
    destruct (IH (op_time o) _ k H' Ht) as (H'' & E'). rewrite end_time_cons. cbn [foldl granted_sum]. split; [done|].
    rewrite inject_Z_plus. rewrite Hr in E'. set (te := end_time _ _) in *.
    pose proof (inflow_add (ratePerSec krl) (op_time o - t) (te - op_time o)) as Ha.
    replace (op_time o - t + (te - op_time o)) with (te - t) in Ha by lia. lra.
Qed.

(** What a configuration has to give: a positive cleanup interval in which a bucket refills. *)
Definition params_ok (krl : Keyed) : bool :=
  (0 <=? burst krl) && (0 <? cleanupInterval krl) && (cleanupInterval krl <=? max_int64)
  && Qle_bool 0 (Q_of_float (ratePerSec krl))
  && Qle_bool (inject_Z (burst krl)) (inflow (ratePerSec krl) (cleanupInterval krl)).

Lemma new_limiter_ok t n w m : params_ok (NewKeyedRateLimiter n w m) = true -> keyed_ok t (NewKeyedRateLimiter n w m).
Proof.
  unfold params_ok. rewrite !andb_true_iff, !Qle_bool_iff. intros ((((H1 & H2) & H3) & H4) & H5).
  split; [intros k e; simpl; by rewrite lookup_empty|..]; simpl in *;
    [rewrite map_size_empty; lia|lia|lia|assumption..].
Qed.
Lemma keyed_step_max krl o : maxEntries (keyed_step krl o) = maxEntries krl.
Proof. destruct o; [|done]. simpl. unfold Keyed_Allow. by repeat (case_match; simplify_eq/=). Qed.
Lemma keyed_run_max ops : forall krl, maxEntries (foldl keyed_step krl ops) = maxEntries krl.
Proof. induction ops as [|o ops IH]; intros krl; [done|]. simpl. by rewrite IH, keyed_step_max. Qed.

(** C18: whatever the calls and the cleanups, in the order of the clock, the local limiter lets
    through for a key at most the burst and what the rate gives in the time since it started,
    and it never tracks more keys than [maxEntries]: deleting idle buckets does not refill them. *)
Theorem keyed_rate_bound n w m t0 ops k :
  params_ok (NewKeyedRateLimiter n w m) = true -> timed t0 ops ->
  let krl0 := NewKeyedRateLimiter n w m in
  (inject_Z (granted_sum k ops krl0) <= inject_Z n + inflow (ratePerSec krl0) (end_time t0 ops - t0))%Q
  /\ Z.of_nat (size (limiters (foldl keyed_step krl0 ops))) <= Z.max 0 m.
Proof.
  intros Hp%(new_limiter_ok t0) Ht krl0. destruct (keyed_run ops t0 _ k Hp Ht) as (Hok & E).
  pose proof (available_range _ k _ Hok). split; [|].
  2: { pose proof (keyed_run_max ops krl0) as Hm. cbn [maxEntries NewKeyedRateLimiter krl0] in Hm. rewrite <- Hm. apply (ko_size _ _ Hok). }
  unfold available at 2 in E. unfold krl0 in *. cbn [limiters burst NewKeyedRateLimiter] in E. rewrite lookup_empty in E. lra.
Qed.
End KeyedFacts.


(** 100 requests per minute on exact buckets: three calls of 60 tokens and a cleanup. *)
Definition demo_ops : list keyed_op :=
  [KAllow 0 "apikey:a" 60; KAllow second "apikey:a" 60; KTick (200 * second); KAllow (201 * second) "apikey:a" 60].
Lemma keyed_rate_bound_witness :
  let krl0 : KeyedRateLimiter exact_bucket := NewKeyedRateLimiter 100 (60 * second) 1 in
  granted_sum "apikey:a" demo_ops krl0 = 120 /\
  (inject_Z (granted_sum "apikey:a" demo_ops krl0)
   <= inject_Z 100 + inflow (ratePerSec krl0) (end_time 0 demo_ops - 0))%Q.
Proof.
  split; [vm_compute; reflexivity|].
  refine (proj1 (keyed_rate_bound 100 (60 * second) 1 0 demo_ops "apikey:a" _ _)); [vm_compute; reflexivity|].
  cbv [timed demo_ops op_time second]; lia.
Defined.
