(* ===== verification/DistributedLimit.v ===== *)
(** * internal/ratelimit/distributed.go: the token bucket in Redis

    The Lua script is a function on the Redis keyspace; a hash holds the texts of its fields
    and the instant it expires at.  How Lua prints and reads numbers is the class [LuaNum].
    The numbers of ARGV are passed as they are: the client writes the shortest decimal that
    reads back as the same double.  A call that does not reach Redis is the error the client
    reports. *)
From Stdlib Require Import QArith Qround.
From S2P Require Import Prelude GoStrings Values GoConv RateLimit.
Open Scope Z_scope.

(** [tonumber] and [tostring] of Lua. *)
Class LuaNum := { tonumber : string -> option spec_float; tostring : spec_float -> string }.

(** The hash of a bucket: the fields [tokens] and [last_refill], and when it expires (in
    seconds of the server's clock). *)
Record bucket_hash := { h_tokens : string; h_last : string; h_expires : option Z }.
Notation keyspace := (gmap string bucket_hash).
Definition live (rnow : Z) (h : bucket_hash) : bool :=
  match h_expires h with Some e => rnow <? e | None => true end.
Definition HMGET (rnow : Z) (key : string) (db : keyspace) : option (string * string) :=
  match db !! key with
  | Some h => if live rnow h then Some (h_tokens h, h_last h) else None
  | None => None
  end.
(** [HMSET] keeps the time to live of a live key. *)
Definition HMSET (rnow : Z) (key tokens last : string) (db : keyspace) : keyspace :=
  let exp := match db !! key with Some h => if live rnow h then h_expires h else None | None => None end in
  <[key := {| h_tokens := tokens; h_last := last; h_expires := exp |}]> db.
(** [EXPIRE] with a time that is not positive deletes the key. *)
Definition EXPIRE (rnow : Z) (key : string) (ttl : Z) (db : keyspace) : keyspace :=
  if ttl <=? 0 then delete key db
  else match db !! key with
       | Some h => <[key := {| h_tokens := h_tokens h; h_last := h_last h; h_expires := Some (rnow + ttl) |}]> db
       | None => db
       end.

(** A reply of the script as the client returns it. *)
Inductive lua_reply := LInt (z : Z) | LStr (s : string) | LNil.

Section Distributed.
Context {LN : LuaNum}.

Definition lua_min (a b : spec_float) : spec_float := if SFltb b a then b else a.
Definition lua_floor (f : spec_float) : Z := Qfloor (Q_of_float f).
Definition float_zero : spec_float := S754_zero false.
Definition float_add (a b : spec_float) : spec_float := SFadd prec64 emax64 a b.
Definition float_sub (a b : spec_float) : spec_float := SFsub prec64 emax64 a b.
Definition lua_nil_error : error := Errorf (Sprintf "attempt to perform arithmetic on a nil value" []).

(** The bucket a call starts from: [tokens] and [last_refill]. *)
Definition read_bucket (rnow : Z) (key : string) (now max_tokens : spec_float) (db : keyspace)
    : option (spec_float * option spec_float) :=
  match HMGET rnow key db with
  | Some (t, l) => match tonumber t with Some f => Some (f, tonumber l) | None => Some (max_tokens, Some now) end
  | None => Some (max_tokens, Some now)
  end.
(** The tokens after the refill and the instant of it. *)
Definition refill (now max_tokens refill_rate tokens last_refill : spec_float) : spec_float * spec_float :=
  let elapsed := float_sub now last_refill in
  if SFltb float_zero elapsed
  then (lua_min max_tokens (float_add tokens (float_mul elapsed refill_rate)), now)
  else (tokens, last_refill).

Definition tokenBucketScript (rnow : Z) (key : string) (now max_tokens refill_rate requested : spec_float) (ttl : Z)
    (db : keyspace) : result (list lua_reply) * keyspace :=
  match read_bucket rnow key now max_tokens db with
  | Some (tokens, Some last_refill) =>
      let '(tokens, last_refill) := refill now max_tokens refill_rate tokens last_refill in
      let '(allowed, tokens) :=
        if SFleb requested tokens then (1, float_sub tokens requested) else (0, tokens) in
      let db := EXPIRE rnow key ttl (HMSET rnow key (tostring tokens) (tostring last_refill) db) in
      let reset_seconds :=
        if SFltb tokens max_tokens then float_div (float_sub max_tokens tokens) refill_rate else float_zero in
      (Ok [LInt allowed; LInt (lua_floor tokens); LStr (tostring reset_seconds)], db)
  | _ => (Err lua_nil_error, db)
  end.

Record DistributedRateLimiter := { maxTokens : Z; refillRate : spec_float; drl_windowSize : Z }.
Definition NewDistributedRateLimiter (requestsPerWindow windowSize : Z) : DistributedRateLimiter :=
  {| maxTokens := requestsPerWindow;
     refillRate := float_div (float_of_int requestsPerWindow) (duration_seconds windowSize);
     drl_windowSize := windowSize |}.

Definition toInt64 (v : lua_reply) : result Z :=
  match v with
  | LInt z => Ok z
  | LStr s => match sscanf_d s with Some n => Ok n | None => Err (Errorf (Sprintf "expected integer" [])) end
  | LNil => Err (Errorf (Sprintf "unexpected type %T" [AVal VNil]))
  end.
Definition wrap_err {A} (msg : string) (r : result A) : result A :=
  match r with Ok a => Ok a | Err e => Err (Wrap (Sprintf msg [AErr e]) e) end.

(** What [Allow] makes of the script's result. *)
Definition read_result (now : Z) (drl : DistributedRateLimiter) (res : list lua_reply) : result RateLimitResult :=
  match res with
  | v0 :: v1 :: _ :: _ =>
      allowed ← wrap_err "parsing allowed: %w" (toInt64 v0);
      remaining ← wrap_err "parsing remaining: %w" (toInt64 v1);
      mret {| Allowed := allowed =? 1; Limit := maxTokens drl; Remaining := remaining;
              ResetAt := now + drl_windowSize drl |}
  | _ => Err (Errorf (Sprintf "unexpected lua script result length: %d" [AInt (Z.of_nat (length res))]))
  end.
Definition redis_key (key : string) : string := "ratelimit:" +:+ key.
(** The time to live in seconds. *)
Definition bucket_ttl (drl : DistributedRateLimiter) : Z :=
  wrap64 (int_of_float (duration_seconds (drl_windowSize drl)) * 2).
(** [Allow] at an instant in Unix nanoseconds, [rnow] being the server's clock; [net] is the
    error of a call that does not reach Redis. *)
Definition Distributed_Allow (net : option error) (rnow now : Z) (key : string) (count : Z)
    (drl : DistributedRateLimiter) (db : keyspace) : result RateLimitResult * keyspace :=
  let '(reply, db') :=
    match net with
    | Some e => (Err e, db)
    | None => tokenBucketScript rnow (redis_key key) (float_of_int (now / second)) (float_of_int (maxTokens drl))
                (refillRate drl) (float_of_int count) (bucket_ttl drl) db
    end in
  (res ← wrap_err "redis rate limit script failed: %w" reply; read_result now drl res, db').

(** ** Sub-second windows *)

(** A request: the clocks, the key and the count. *)
Record request := { q_rnow : Z; q_now : Z; q_key : string; q_count : Z }.
Definition serve (drl : DistributedRateLimiter) (db : keyspace) (q : request) : result RateLimitResult * keyspace :=
  Distributed_Allow None (q_rnow q) (q_now q) (q_key q) (q_count q) drl db.
Fixpoint serve_all (drl : DistributedRateLimiter) (db : keyspace) (qs : list request) : list (result RateLimitResult) :=
  match qs with
  | [] => []
  | q :: qs' => let '(r, db') := serve drl db q in r :: serve_all drl db' qs'
  end.

Lemma expire_now rnow key ttl t l (db : keyspace) : ttl <= 0 -> db !! key = None ->
  EXPIRE rnow key ttl (HMSET rnow key t l db) = db.
Proof.
  intros H E. unfold EXPIRE, HMSET. rewrite (proj2 (Z.leb_le _ _) H). cbv zeta. apply map_eq. intros k.
  destruct (decide (k = key)) as [->|?]; [by rewrite lookup_delete_eq|]. by rewrite lookup_delete_ne, lookup_insert_ne.
Qed.

Lemma sub_self z : in_int64 z -> exists b, float_sub (float_of_int z) (float_of_int z) = S754_zero b.
Proof.
  intros H%float_of_int_finite. destruct (float_of_int z) as [[]| | |s m e]; try done; [by eexists..|].
  exists false. simpl. by rewrite Z.sub_diag.
Qed.
(** Within one second nothing flows in. *)
Lemma refill_same z mx rate tokens : in_int64 z ->
  refill (float_of_int z) mx rate tokens (float_of_int z) = (tokens, float_of_int z).
Proof. intros H. unfold refill. by destruct (sub_self z H) as [b ->]. Qed.

Lemma full_bucket_allows net rnow now key count drl (db : keyspace) :
  in_int64 (now / second) -> HMGET rnow (redis_key key) db = None ->
  SFleb (float_of_int count) (float_of_int (maxTokens drl)) = true -> net = None ->
  exists r t l, Distributed_Allow net rnow now key count drl db
    = (Ok r, EXPIRE rnow (redis_key key) (bucket_ttl drl) (HMSET rnow (redis_key key) t l db)) /\ Allowed r = true.
Proof.
  intros Hn He Hc ->. unfold Distributed_Allow, tokenBucketScript, read_bucket.
  rewrite He, refill_same, Hc by done. do 3 eexists. split; [reflexivity|done].
Qed.

Lemma serve_fresh drl q : bucket_ttl drl <= 0 -> in_int64 (q_now q / second) ->
  SFleb (float_of_int (q_count q)) (float_of_int (maxTokens drl)) = true ->
  exists r, serve drl ∅ q = (Ok r, ∅) /\ Allowed r = true.
Proof.
  intros Ht Hn Hc. unfold serve.
  destruct (full_bucket_allows None (q_rnow q) (q_now q) (q_key q) (q_count q) drl ∅) as (r & t & l & -> & Hr); [done..|].
  exists r. by rewrite expire_now.
Qed.

(** with a window whose time to live in whole seconds is not positive (any window below
    one second) every request is let through, however many there are and at whatever instants:
    the script deletes the bucket it has just written. *)
Theorem subsecond_window_never_limits drl qs : bucket_ttl drl <= 0 ->
  Forall (fun q => in_int64 (q_now q / second)
    /\ SFleb (float_of_int (q_count q)) (float_of_int (maxTokens drl)) = true) qs ->
  Forall (fun r => exists res, r = Ok res /\ Allowed res = true) (serve_all drl ∅ qs).
Proof.
  intros Ht. induction 1 as [|q qs [Hn Hc] _ IH]; [constructor|]. simpl.
  destruct (serve_fresh drl q Ht Hn Hc) as (r & -> & Hr). constructor; [by exists r|done].
Qed.

End Distributed.

(** Numbers written as integers are enough for the demonstrations. *)
Definition demo_lua : LuaNum :=
  {| tonumber s := float_of_int <$> parse_int s; tostring f := itoa (lua_floor f) |}.
Definition demo_requests : list request :=
  repeat {| q_rnow := 100; q_now := 100 * second; q_key := "ip:10.0.0.1"; q_count := 1 |} 3.

(** Two requests per 500 ms and three requests at one instant; with a window of one second
    the third is refused. *)
Lemma subsecond_window_never_limits_witness :
  let allowed drl := map (fun r => match r with Ok x => Allowed x | Err _ => false end)
                       (serve_all (LN := demo_lua) drl ∅ demo_requests) in
  allowed (NewDistributedRateLimiter 2 second) = [true; true; false]
  /\ Forall (fun r => exists res, r = Ok res /\ Allowed res = true)
       (serve_all (LN := demo_lua) (NewDistributedRateLimiter 2 (second / 2)) ∅ demo_requests).
Proof.
  split; [vm_compute; reflexivity|].
  apply subsecond_window_never_limits; [vm_compute; discriminate|].
  repeat constructor; vm_compute; congruence.
Defined.
