(* ===== verification/FallbackLimit.v ===== *)
(** * internal/ratelimit/fallback.go: degrading to the local limiter and recovering

    First the operations one after the other, with the two limiters they drive; then the same
    code as a step relation on the shared fields, with any number of callers and the recovery
    probe interleaved at each access to [useFallback] and [probeOnce].  [probes] counts the
    goroutines that run [runProbe]. *)
From S2P Require Import Prelude GoStrings Values GoConv RateLimit DistributedLimit.

Section Fallback.
Context {B : Type} {TB : TokenBucket B} {LN : LuaNum}.
#[local] Set Default Proof Using "Type".

Record FallbackRateLimiter := {
  primary : DistributedRateLimiter;
  fallback : KeyedRateLimiter B;
  useFallback : bool;
  probeInterval : Z;
  probeOnce : bool;
  probes : nat;
}.
Definition set_fallback (k : KeyedRateLimiter B) (f : FallbackRateLimiter) : FallbackRateLimiter :=
  {| primary := primary f; fallback := k; useFallback := useFallback f; probeInterval := probeInterval f;
     probeOnce := probeOnce f; probes := probes f |}.
Definition set_flags (use once : bool) (n : nat) (f : FallbackRateLimiter) : FallbackRateLimiter :=
  {| primary := primary f; fallback := fallback f; useFallback := use; probeInterval := probeInterval f;
     probeOnce := once; probes := n |}.

Definition NewFallbackRateLimiter (p : DistributedRateLimiter) (k : KeyedRateLimiter B) (probeInterval : Z)
    : FallbackRateLimiter :=
  {| primary := p; fallback := k; useFallback := false;
     probeInterval := if probeInterval <=? 0 then 30 * second else probeInterval;
     probeOnce := false; probes := 0 |}.

Definition startRecoveryProbe (f : FallbackRateLimiter) : FallbackRateLimiter :=
  if probeOnce f then f else set_flags (useFallback f) true (S (probes f)) f.

Definition local_allow (now : Z) (key : string) (count : Z) (f : FallbackRateLimiter)
    : result RateLimitResult * FallbackRateLimiter :=
  let '(r, k) := Allow now key count (fallback f) in (r, set_fallback k f).
Definition Fallback_Allow (net : option error) (rnow now : Z) (key : string) (count : Z)
    (f : FallbackRateLimiter) (db : keyspace) : result RateLimitResult * FallbackRateLimiter * keyspace :=
  if useFallback f then (local_allow now key count f, db)
  else
    let '(res, db') := Distributed_Allow net rnow now key count (primary f) db in
    match res with
    | Err _ => (local_allow now key count (startRecoveryProbe (set_flags true (probeOnce f) (probes f) f)), db')
    | Ok r => (Ok r, f, db')
    end.
(** A tick of a probe that runs, with the outcome of its PING. *)
Definition runProbe_tick (ping : option error) (f : FallbackRateLimiter) : FallbackRateLimiter :=
  match ping with
  | Some _ => f
  | None => set_flags false false (pred (probes f)) f
  end.

(** ** One after the other *)

(** What happens: a request, a tick of the probe (if it runs), a tick of the cleanup. *)
Inductive fop :=
  | FAllow (net : option error) (rnow now : Z) (key : string) (count : Z)
  | FProbe (ping : option error)
  | FCleanup (now : Z).
Definition fstep (st : FallbackRateLimiter * keyspace) (o : fop) : option (result RateLimitResult) * (FallbackRateLimiter * keyspace) :=
  let '(f, db) := st in
  match o with
  | FAllow net rnow now key count =>
      let '(r, f', db') := Fallback_Allow net rnow now key count f db in (Some r, (f', db'))
  | FProbe ping => (None, (if Nat.eqb (probes f) 0 then f else runProbe_tick ping f, db))
  | FCleanup now => (None, (set_fallback (cleanup_tick now (fallback f)) f, db))
  end.
Fixpoint frun (st : FallbackRateLimiter * keyspace) (ops : list fop)
    : list (option (result RateLimitResult)) * (FallbackRateLimiter * keyspace) :=
  match ops with
  | [] => ([], st)
  | o :: ops' => let '(r, st') := fstep st o in let '(rs, st'') := frun st' ops' in (r :: rs, st'')
  end.

(** The contract: a limiter in one of two modes.  In the distributed mode Redis answers, and
    its first failure changes to the local mode; in the local mode the local limiter answers
    until a PING succeeds. *)
Record spec_state := { s_local : bool; s_keyed : KeyedRateLimiter B; s_db : keyspace }.
Definition spec_step (p : DistributedRateLimiter) (s : spec_state) (o : fop) : option (result RateLimitResult) * spec_state :=
  match o with
  | FAllow net rnow now key count =>
      let '(res, db') :=
        if s_local s then (Err lua_nil_error, s_db s) else Distributed_Allow net rnow now key count p (s_db s) in
      match res with
      | Ok r => (Some (Ok r), {| s_local := false; s_keyed := s_keyed s; s_db := db' |})
      | Err _ =>
          let '(r, k) := Keyed_Allow now key count (s_keyed s) in
          (Some (Ok r), {| s_local := true; s_keyed := k; s_db := db' |})
      end
  | FProbe ping =>
      (None, {| s_local := s_local s && bool_decide (ping <> None); s_keyed := s_keyed s; s_db := s_db s |})
  | FCleanup now => (None, {| s_local := s_local s; s_keyed := cleanup_tick now (s_keyed s); s_db := s_db s |})
  end.
Fixpoint spec_run (p : DistributedRateLimiter) (s : spec_state) (ops : list fop)
    : list (option (result RateLimitResult)) :=
  match ops with
  | [] => []
  | o :: ops' => let '(r, s') := spec_step p s o in r :: spec_run p s' ops'
  end.

(** The relation of the simulation: the mode is [useFallback], and exactly then a probe runs. *)
Record represents (p : DistributedRateLimiter) (st : FallbackRateLimiter * keyspace) (s : spec_state) : Prop := {
  rep_primary : primary st.1 = p;
  rep_local : useFallback st.1 = s_local s;
  rep_once : probeOnce st.1 = s_local s;
  rep_probes : probes st.1 = if s_local s then 1%nat else 0%nat;
  rep_keyed : fallback st.1 = s_keyed s;
  rep_db : st.2 = s_db s;
}.

Lemma fstep_simulates p st s o : represents p st s ->
  (fstep st o).1 = (spec_step p s o).1 /\ represents p (fstep st o).2 (spec_step p s o).2.
Proof.
  destruct st as [f db], s as [lc k sdb]. intros [Hp Hl Ho Hn Hk Hd]. simpl in Hp, Hl, Ho, Hn, Hk, Hd. subst p sdb k.
  destruct o as [net rnow now key n|ping|now]; cbn [fstep spec_step s_local s_keyed s_db].
  - unfold Fallback_Allow. rewrite Hl. destruct lc; [|destruct (Distributed_Allow _ _ _ _ _ _ _) as [[r|e] db']].
    + unfold local_allow. simpl. destruct (Keyed_Allow now key n (fallback f)) as [r k']. split; [done|]. by split.
    + split; [done|]. by split.
    + unfold local_allow, startRecoveryProbe. cbn [probeOnce set_flags useFallback probes]. rewrite Ho, Hn.
      cbn [fallback set_flags Allow keyed_limiter]. destruct (Keyed_Allow now key n (fallback f)) as [r k'].
      split; [done|]. by split.
  - split; [done|]. destruct lc, ping; simpl; rewrite Hn; simpl; split; simpl; rewrite ?Hn; done.
  - split; [done|]. by split.
Qed.

(** C29: one operation after the other, the limiter is the two-mode limiter of its contract:
    it answers as Redis does until a call fails, from then on as the local limiter, and after
    the next successful PING as Redis again; a request never fails. *)
Theorem fallback_refines p k interval ops db :
  (frun (NewFallbackRateLimiter p k interval, db) ops).1
    = spec_run p {| s_local := false; s_keyed := k; s_db := db |} ops.
Proof.
  assert (H : represents p (NewFallbackRateLimiter p k interval, db) {| s_local := false; s_keyed := k; s_db := db |})
    by (by split).
  revert H. generalize (NewFallbackRateLimiter p k interval, db) {| s_local := false; s_keyed := k; s_db := db |}.
  induction ops as [|o ops IH]; intros st s H; [done|]. simpl.
  destruct (fstep_simulates _ _ _ o H) as [E H']. destruct (fstep st o) as [r st'], (spec_step p s o) as [r' s'].
  simpl in E, H'. specialize (IH _ _ H'). destruct (frun st' ops). simpl in *. congruence.
Qed.
End Fallback.
Arguments FallbackRateLimiter : clear implicits.

(** ** Interleaved *)

(** Where a call of [Allow] is: before it loads [useFallback]; in the call to Redis; before
    it stores [true]; before it enters [once.Do]; before it asks the local limiter; finished,
    with what answered it. *)
Inductive caller := CLoad | CPrimary | CStore | COnce | CLocal | CDone (by_redis : bool).
(** Where a probe is: waiting for a tick; between storing [false] and the reset of [probeOnce]. *)
Inductive probe := PWait | PReset.
#[export] Instance caller_eq_dec : EqDecision caller.
Proof. solve_decision. Defined.
#[export] Instance probe_eq_dec : EqDecision probe.
Proof. solve_decision. Defined.
Record shared := { sh_use : bool; sh_once : bool; sh_probes : list probe; sh_callers : list caller }.
Definition sh_init : shared := {| sh_use := false; sh_once := false; sh_probes := []; sh_callers := [] |}.

(** Who moves next: a new call, the [i]-th call (whose request to Redis succeeds or not), the
    [j]-th probe (whose PING succeeds or not). *)
Inductive sched := SCall | SCaller (i : nat) (redis_up : bool) | SProbe (j : nat) (redis_up : bool).
Definition set_caller (i : nat) (c : caller) (use once : bool) (ps : list probe) (s : shared) : shared :=
  {| sh_use := use; sh_once := once; sh_probes := ps; sh_callers := <[i := c]> (sh_callers s) |}.
Definition caller_step (i : nat) (up : bool) (c : caller) (s : shared) : option shared :=
  let keep c' := Some (set_caller i c' (sh_use s) (sh_once s) (sh_probes s) s) in
  match c with
  | CLoad => keep (if sh_use s then CLocal else CPrimary)
  | CPrimary => keep (if up then CDone true else CStore)
  | CStore => Some (set_caller i COnce true (sh_once s) (sh_probes s) s)
  | COnce => if sh_once s then keep CLocal
             else Some (set_caller i CLocal (sh_use s) true (sh_probes s ++ [PWait]) s)
  | CLocal => keep (CDone false)
  | CDone _ => None
  end.
Definition probe_step (j : nat) (up : bool) (p : probe) (s : shared) : shared :=
  match p with
  | PWait => if up then {| sh_use := false; sh_once := sh_once s; sh_probes := <[j := PReset]> (sh_probes s);
                           sh_callers := sh_callers s |}
             else s
  | PReset => {| sh_use := sh_use s; sh_once := false; sh_probes := delete j (sh_probes s); sh_callers := sh_callers s |}
  end.
Definition sched_step (s : shared) (e : sched) : option shared :=
  match e with
  | SCall => Some {| sh_use := sh_use s; sh_once := sh_once s; sh_probes := sh_probes s; sh_callers := sh_callers s ++ [CLoad] |}
  | SCaller i up => c ← sh_callers s !! i; caller_step i up c s
  | SProbe j up => p ← sh_probes s !! j; Some (probe_step j up p s)
  end.
Definition step (s s' : shared) : Prop := exists e, sched_step s e = Some s'.
Definition schedule (s : shared) (es : list sched) : option shared := foldl (fun o e => o ≫= fun s => sched_step s e) (Some s) es.

(** At most one probe runs, and exactly while [probeOnce] is done. *)
Definition one_probe (s : shared) : Prop := length (sh_probes s) = if sh_once s then 1%nat else 0%nat.
Lemma one_probe_step s s' : one_probe s -> step s s' -> one_probe s'.
Proof.
  unfold one_probe. intros H [[|i up|j up] E]; simpl in E; [by simplify_eq| |].
  - destruct (sh_callers s !! i) as [[]|]; simpl in E; simplify_eq; try done.
    destruct (sh_once s); simplify_eq; simpl; [done|]. by rewrite length_app, H.
  - destruct (sh_probes s !! j) as [[]|] eqn:Ej; simpl in E; simplify_eq.
    + destruct up; simpl; [by rewrite length_insert|done].
    + simpl. rewrite length_delete by eauto. rewrite H. by destruct (sh_once s).
Qed.

(** A call that is not on its way to start a probe. *)
Definition settled (c : caller) : Prop := c = CLoad \/ c = CLocal \/ exists b, c = CDone b.
(** The mode is local, nothing on its way can change that, and a probe that still runs has
    already stored its [false]. *)
Definition no_recovery (s : shared) : Prop :=
  sh_use s = true /\ PWait ∉ sh_probes s /\ Forall settled (sh_callers s).
(** A call that asks Redis or has been answered by it. *)
Definition asks_redis (c : caller) : bool := match c with CPrimary | CDone true => true | _ => false end.

Lemma settled_step s i up c : sh_use s = true -> sh_callers s !! i = Some c -> settled c ->
  forall s', caller_step i up c s = Some s' ->
    exists c', s' = set_caller i c' true (sh_once s) (sh_probes s) s /\ settled c' /\ asks_redis c' = false.
Proof.
  intros Hu Hi Hc s' E. destruct Hc as [->|[->|[b ->]]]; simpl in E; rewrite ?Hu in E; simplify_eq.
  - exists CLocal. unfold settled. auto.
  - exists (CDone false). unfold settled. split; [done|]. eauto.
Qed.
Lemma no_recovery_step s s' : no_recovery s -> step s s' ->
  no_recovery s' /\ forall i, asks_redis <$> sh_callers s' !! i = Some true -> asks_redis <$> sh_callers s !! i = Some true.
Proof.
  intros (Hu & Hp & Hc) [[|i up|j up] E]; simpl in E.
  - simplify_eq. split; [split; [done|]; split; [done|]|].
    + apply Forall_app. split; [done|]. repeat constructor.
    + simpl. intros i. destruct (decide (i < length (sh_callers s))%nat); [by rewrite lookup_app_l|].
      rewrite lookup_app_r by lia. destruct (i - length (sh_callers s))%nat; done.
  - destruct (sh_callers s !! i) as [c|] eqn:Ei; simpl in E; [|done].
    destruct (settled_step s i up c Hu Ei (Forall_lookup_1 _ _ _ _ Hc Ei) s' E) as (c' & -> & Hs & Hr). split.
    + split; [done|]. split; [done|]. by apply Forall_insert.
    + simpl. intros k. destruct (decide (k = i)) as [->|Hne]; [|by rewrite list_lookup_insert_ne by done].
      rewrite list_lookup_insert_eq by (by eapply lookup_lt_Some). simpl. congruence.
  - destruct (sh_probes s !! j) as [[]|] eqn:Ej; simpl in E; [..|done].
    + exfalso. apply Hp. by eapply list_elem_of_lookup_2.
    + simplify_eq. split; [|done]. split; [done|]. split; [|done]. simpl. intros Hin. apply Hp.
      by eapply list_elem_of_delete_inv.
Qed.
Lemma no_recovery_steps s s' : no_recovery s -> rtc step s s' ->
  no_recovery s' /\ forall i, asks_redis <$> sh_callers s' !! i = Some true -> asks_redis <$> sh_callers s !! i = Some true.
Proof.
  intros H Hr. induction Hr as [|s s1 s' H1 _ IH]; [done|]. destruct (no_recovery_step _ _ H H1) as [Hn Ha].
  destruct (IH Hn) as [Hn' Ha']. split; [done|]. intros i Hi. apply Ha, Ha', Hi.
Qed.
Lemma schedule_steps es : forall s s', schedule s es = Some s' -> rtc step s s'.
Proof.
  unfold schedule. induction es as [|e es IH]; intros s s' E; simpl in E; [simplify_eq; constructor|].
  destruct (sched_step s e) as [s1|] eqn:E1.
  - econstructor; [by exists e|]. by apply IH.
  - exfalso. revert E. clear. induction es; [done|]. done.
Qed.

(** Redis fails and recovers; between the two steps of the recovery another call fails. *)
Definition race : list sched :=
  [SCall; SCaller 0 true; SCaller 0 false; SCaller 0 false; SCaller 0 false; SCaller 0 false;
   SProbe 0 true;
   SCall; SCaller 1 true; SCaller 1 false; SCaller 1 false; SCaller 1 false; SCaller 1 false;
   SProbe 0 true].

Definition raced : shared :=
  {| sh_use := true; sh_once := false; sh_probes := []; sh_callers := [CDone false; CDone false] |}.
Lemma race_end : schedule sh_init race = Some raced.
Proof. by vm_compute. Qed.

(** the interleavings never run two probes at once. *)
Theorem probe_unique s : rtc step sh_init s -> (length (sh_probes s) <= 1)%nat.
Proof.
  intros H. cut (one_probe s); [unfold one_probe; case_match; lia|].
  assert (H0 : one_probe sh_init) by done. induction H; eauto using one_probe_step.
Qed.

(** A probe that waits can recover, and a call on its way to [once.Do] can start one once the
    previous one is gone. *)
Lemma step_to s s' e : sched_step s e = Some s' -> rtc step s s'.
Proof. intros E. apply rtc_once. by exists e. Qed.
Lemma probe_recovers s : PWait ∈ sh_probes s -> exists s', rtc step s s' /\ sh_use s' = false.
Proof.
  intros [j Hj]%list_elem_of_lookup. eexists. split; [|reflexivity || shelve].
  apply (step_to _ _ (SProbe j true)). simpl. by rewrite Hj.
Unshelve. done.
Qed.
Lemma once_starts s i : sh_once s = false -> sh_probes s = [] -> sh_callers s !! i = Some COnce ->
  exists s', rtc step s s' /\ PWait ∈ sh_probes s'.
Proof.
  intros Ho Hp Hi. eexists. split; [apply (step_to _ _ (SCaller i true)); simpl; rewrite Hi; simpl; by rewrite Ho|].
  simpl. rewrite Hp. by apply list_elem_of_singleton.
Qed.
Lemma call_starts s i c : sh_once s = false -> sh_probes s = [] -> sh_callers s !! i = Some c -> ~ settled c ->
  exists s', rtc step s s' /\ PWait ∈ sh_probes s'.
Proof.
  intros Ho Hp Hi Hc. pose proof (lookup_lt_Some _ _ _ Hi) as Hl.
  assert (Hstore : forall s, sh_once s = false -> sh_probes s = [] -> sh_callers s !! i = Some CStore ->
            exists s', rtc step s s' /\ PWait ∈ sh_probes s').
  { intros s1 Ho1 Hp1 Hi1. destruct (once_starts (set_caller i COnce true (sh_once s1) (sh_probes s1) s1) i) as (s' & H & Hw); [done|done|simpl; apply list_lookup_insert_eq; by eapply lookup_lt_Some|].
    exists s'. split; [|done]. etrans; [|exact H]. apply (step_to _ _ (SCaller i true)). simpl. by rewrite Hi1. }
  destruct c; [exfalso; apply Hc; by left| |by apply Hstore|by eapply once_starts|exfalso; apply Hc; right; by left|].
  - destruct (Hstore (set_caller i CStore (sh_use s) (sh_once s) (sh_probes s) s)) as (s' & H & Hw); [done..|by apply list_lookup_insert_eq|].
    exists s'. split; [|done]. etrans; [|exact H]. apply (step_to _ _ (SCaller i false)). simpl. by rewrite Hi.
  - exfalso. apply Hc. right. right. eauto.
Qed.
Lemma can_recover s : one_probe s -> ~ no_recovery s -> exists s', rtc step s s' /\ sh_use s' = false.
Proof.
  intros H1 Hn. destruct (sh_use s) eqn:Hu; [|by exists s].
  destruct (decide (PWait ∈ sh_probes s)) as [Hw|Hw]; [by apply probe_recovers|].
  assert (Hc : exists i c, sh_callers s !! i = Some c /\ ~ settled c).
  { destruct (decide (Exists (fun c => c = CPrimary \/ c = CStore \/ c = COnce) (sh_callers s))) as [He|He].
    - apply Exists_exists in He as (c & [i Hi]%list_elem_of_lookup & Hc). exists i, c. split; [done|].
      unfold settled. intros [->|[->|[b ->]]]; naive_solver.
    - exfalso. apply Hn. split; [done|]. split; [done|]. apply Forall_forall. intros c Hin.
      assert (~ (c = CPrimary \/ c = CStore \/ c = COnce)) by (intros ?; apply He, Exists_exists; eauto).
      unfold settled. destruct c; naive_solver. }
  destruct Hc as (i & c & Hi & Hc).
  assert (Hs : exists s1, rtc step s s1 /\ sh_once s1 = false /\ sh_probes s1 = [] /\ sh_callers s1 = sh_callers s).
  { unfold one_probe in H1. destruct (sh_once s) eqn:Ho; [|exists s; split; [done|]; split; [done|]; split; [by destruct (sh_probes s)|done]].
    destruct (sh_probes s) as [|[] [|? ?]] eqn:Ep; simpl in H1; try done; [exfalso; apply Hw; by left|].
    eexists. split; [apply (step_to _ _ (SProbe 0 true)); simpl; by rewrite Ep|]. simpl. by rewrite Ep. }
  destruct Hs as (s1 & Hr1 & Ho & Hp & Hcs). rewrite <- Hcs in Hi.
  destruct (call_starts s1 i c Ho Hp Hi Hc) as (s2 & Hr2 & Hw2). destruct (probe_recovers s2 Hw2) as (s3 & Hr3 & Hu3).
  exists s3. split; [|done]. by transitivity s1; [|transitivity s2].
Qed.
Lemma reachable_one_probe s : rtc step sh_init s -> one_probe s.
Proof. intros H. assert (H0 : one_probe sh_init) by done. induction H; eauto using one_probe_step. Qed.

(** C24: recovery can be lost.  A reachable state is local for good - it stays local whatever is
    scheduled and however healthy Redis is - exactly when it is local, no probe waits for a tick
    and no call is between its load and [once.Do]; from then on no call asks Redis.  Such a state
    arises from every reachable state in which a probe has stored its [false] and not yet reset
    [probeOnce] ([PReset]) and a call that is at its request to Redis has it fail, stores [true]
    and goes through [once.Do] before the reset, when all other calls are settled; and there are
    such states. *)
Theorem recovery_race_sticks :
  (forall s, rtc step sh_init s -> ((forall s', rtc step s s' -> sh_use s' = true) <-> no_recovery s))
  /\ (forall s, no_recovery s -> forall s' i, rtc step s s' ->
        asks_redis <$> sh_callers s' !! i = Some true -> asks_redis <$> sh_callers s !! i = Some true)
  /\ (forall s i, rtc step sh_init s -> sh_probes s = [PReset] -> sh_callers s !! i = Some CPrimary ->
        (forall k c, k <> i -> sh_callers s !! k = Some c -> settled c) ->
        forall s', schedule s [SCaller i false; SCaller i false; SCaller i false] = Some s' ->
          sh_probes s' = [PReset] /\ no_recovery s')
  /\ (exists s i, rtc step sh_init s /\ sh_probes s = [PReset] /\ sh_callers s !! i = Some CPrimary
        /\ forall k c, k <> i -> sh_callers s !! k = Some c -> settled c).
Proof.
  split; [|split; [|split]].
  - intros s Hr. split.
    + intros H. destruct (decide (sh_use s = true /\ PWait ∉ sh_probes s /\
        Forall (fun c => ~ (c = CPrimary \/ c = CStore \/ c = COnce)) (sh_callers s))) as [(Hu & Hp & Hc)|Hn].
      * split; [done|]. split; [done|]. eapply Forall_impl; [exact Hc|]. intros c. unfold settled. destruct c; naive_solver.
      * exfalso. destruct (can_recover s) as (s' & Hs' & Hf); [by apply reachable_one_probe| |by rewrite (H s' Hs') in Hf].
        intros (Hu & Hp & Hc). apply Hn. split; [done|]. split; [done|]. eapply Forall_impl; [exact Hc|].
        intros c [->|[->|[b ->]]]; naive_solver.
    + intros Hn s' Hs'. by apply (no_recovery_steps s s' Hn Hs').
  - intros s Hn s' i Hr. apply (no_recovery_steps s s' Hn Hr).
  - intros s i Hr Hp Hi Hk s' E. pose proof (reachable_one_probe s Hr) as H1. unfold one_probe in H1. rewrite Hp in H1.
    destruct (sh_once s) eqn:Ho; [|done]. pose proof (lookup_lt_Some _ _ _ Hi) as Hl.
    unfold schedule in E. simpl in E. rewrite Hi in E. simpl in E. rewrite list_lookup_insert_eq in E by done. simpl in E.
    rewrite list_lookup_insert_eq in E by (by rewrite length_insert). simpl in E. rewrite Ho in E. simplify_eq. simpl.
    split; [done|]. split; [done|]. split; [simpl; rewrite Hp; by intros ?%list_elem_of_singleton|].
    simpl. rewrite !list_insert_insert_eq. apply Forall_lookup. intros k c Hc. destruct (decide (k = i)) as [->|Hne].
    + rewrite list_lookup_insert_eq in Hc by done. simplify_eq. right. by left.
    + rewrite list_lookup_insert_ne in Hc by done. eauto.
  - destruct (schedule sh_init (take 9 race)) as [s|] eqn:E; [|discriminate E].
    exists s, 1%nat. split; [by eapply schedule_steps|]. injection E as <-. split; [done|]. split; [done|].
    intros [|[|k]] c Hne Hc; [|done..]. simpl in Hc. simplify_eq. right. right. eauto.
Qed.

Lemma probe_unique_witness : exists s, rtc step sh_init s /\ length (sh_probes s) = 1%nat /\ (length (sh_probes s) <= 1)%nat.
Proof.
  destruct (schedule sh_init (take 6 race)) as [s|] eqn:E; [|discriminate E].
  exists s. pose proof (schedule_steps _ _ _ E) as H. split; [exact H|]. split; [by injection E as <-|].
  exact (probe_unique s H).
Defined.
