(* ===== verification/Manager.v ===== *)
(** * internal/datasource: registry.go, manager.go, reconnect.go

    The manager holds adapters behind the [DataSource] interface.  [DataSourceOps] is that
    interface over an adapter state [DS] and the outside world [W]; [StructuredErrors] is
    the promise of the adapters its theorems use; [Adapters] implements both.  Each method of the manager takes the
    lock around every map access; the step from one access to the next is an argument where
    it matters (the adapter's answers come from [W]). *)
From S2P Require Import Prelude GoStrings Values GoConv DataSource SqlAdapter.
From S2P Require Retry StarRocks Whitelist.

Class DataSourceOps (DS W : Type) := {
  ds_Connect : DS -> W -> option error * DS * W;
  ds_Execute : DS -> QueryRequest -> W -> result QueryResult * DS * W;
  ds_HealthCheck : DS -> W -> option error * DS * W;
  ds_Close : DS -> W -> option error * DS * W;
  ds_Writable : DS -> bool;
}.
(** Errors of [Execute] are [APIError]s. *)
Class StructuredErrors {DS W} (DSO : DataSourceOps DS W) : Prop :=
  execute_errors_api d q w e d' w' : ds_Execute d q w = (Err e, d', w') -> is_api_error e = true.

Section Manager.
Context {DS W : Type} {DSO : DataSourceOps DS W}.

(** ** registry.go *)

Definition AdapterFactory : Type := string -> DataSourceConfig -> result DS.
Definition AdapterRegistry : Type := gmap string AdapterFactory.
Definition NewAdapterRegistry : AdapterRegistry := ∅.
Definition Register (typeName : string) (factory : AdapterFactory) (r : AdapterRegistry)
    : result unit * AdapterRegistry :=
  match r !! typeName with
  | Some _ => (Err (Errorf (Sprintf "adapter type %q is already registered" [AStr typeName])), r)
  | None => (Ok tt, <[typeName := factory]> r)
  end.
Definition RegistryGet (r : AdapterRegistry) (typeName : string) : option AdapterFactory := r !! typeName.
Definition RegistryList (r : AdapterRegistry) : list string := sort_strings (map_to_list r).*1.

(** ** manager.go *)

Record DataSourceStatus := {
  Available : bool;
  LastError : option error;
  ReconnectCount : Z;
  NextReconnectAt : option Z;
}.
(** [loops]: the reconnect loops started, with their intervals. *)
Record DataSourceManager := {
  registry : AdapterRegistry;
  datasources : gmap string DS;
  status : gmap string DataSourceStatus;
  retryConfig : Retry.Config;
  loops : list (string * Z * Z);
  stopped : bool;
}.
Definition NewDataSourceManager (registry : AdapterRegistry) (retryCfg : Retry.Config) : DataSourceManager :=
  {| registry := registry; datasources := ∅; status := ∅; retryConfig := retryCfg; loops := [];
     stopped := false |}.

(** [m.datasources[name] = ds; m.status[name] = st], with the loops to start. *)
Definition store (name : string) (ds : DS) (st : DataSourceStatus) (ls : list (string * Z * Z))
    (m : DataSourceManager) : DataSourceManager :=
  {| registry := registry m; datasources := <[name := ds]> (datasources m);
     status := <[name := st]> (status m); retryConfig := retryConfig m; loops := ls ++ loops m;
     stopped := stopped m |}.

(** reconnect.go *)
Definition defaultReconnectInterval : Z := 5 * second.
Definition defaultMaxReconnectInterval : Z := 60 * second.
Definition parseDuration (v : GoVal) : option Z :=
  match v with
  | VString val => parse_duration val
  | VDuration val => Some val
  | VFloat64 val => Some (int_of_float (float_mul val (float_of_int second)))
  | VInt val | VInt64 val => Some (wrap64 (val * second))
  | _ => None
  end.
Definition parseReconnectIntervals (options : list (string * GoVal)) : Z * Z :=
  (default defaultReconnectInterval (v ← assoc "reconnect_interval" options; parseDuration v),
   default defaultMaxReconnectInterval (v ← assoc "max_reconnect_interval" options; parseDuration v)).

(** [min(initialInterval * 2^attempt, maxInterval)] the way the loop computes it. *)
Definition reconnect_backoff (initialInterval maxInterval attempt : Z) : Z :=
  let backoff := int_of_float (float_mul (float_of_int initialInterval) (pow2 attempt)) in
  if maxInterval <? backoff then maxInterval else backoff.

(** One configuration of the loop of [Init]. *)
Definition init_one (cfg : DataSourceConfig) (mw : DataSourceManager * W) : DataSourceManager * W :=
  let '(m, w) := mw in
  if negb (Enabled cfg) then mw else
  match RegistryGet (registry m) (DsType cfg) with
  | None => mw
  | Some factory =>
      match factory (DsName cfg) cfg with
      | Err _ => mw
      | Ok ds =>
          match ds_Connect ds w with
          | (Some err, ds', w') =>
              let '(initial, max) := parseReconnectIntervals (DsOptions cfg) in
              (store (DsName cfg) ds'
                 {| Available := false; LastError := Some err; ReconnectCount := 0; NextReconnectAt := None |}
                 [(DsName cfg, initial, max)] m, w')
          | (None, ds', w') =>
              (store (DsName cfg) ds'
                 {| Available := true; LastError := None; ReconnectCount := 0; NextReconnectAt := None |}
                 [] m, w')
          end
      end
  end.
Definition Init (configs : list DataSourceConfig) (m : DataSourceManager) (w : W) : DataSourceManager * W :=
  foldl (fun mw cfg => init_one cfg mw) (m, w) configs.

Definition Get (m : DataSourceManager) (name : string) : result DS :=
  match datasources m !! name with
  | None => Err (DatasourceError ErrDatasourceUnavailable (Sprintf "datasource %q not found" [AStr name]))
  | Some ds =>
      match status m !! name with
      | Some st =>
          if negb (Available st)
          then Err (DatasourceError ErrDatasourceUnavailable
                      (Sprintf "datasource %q is currently unavailable" [AStr name]))
          else Ok ds
      | None => Ok ds
      end
  end.
Definition GetWritable (m : DataSourceManager) (name : string) : result DS :=
  ds ← Get m name;
  if ds_Writable ds then Ok ds
  else Err (DatasourceError ErrDatasourceUnavailable
              (Sprintf "datasource %q does not support write operations" [AStr name])).
Definition Status (m : DataSourceManager) (name : string) : option DataSourceStatus := status m !! name.

(** The [n]-th of a series of calls to [Execute], counted from 0. *)
Fixpoint nth_execute (q : QueryRequest) (n : nat) (ds : DS) (w : W) : result QueryResult * DS * W :=
  let '(r, ds', w') := ds_Execute ds q w in
  match n with O => (r, ds', w') | S n' => nth_execute q n' ds' w' end.
(** The data source and the world after [n] of them. *)
Fixpoint after_executes (q : QueryRequest) (n : nat) (ds : DS) (w : W) : DS * W :=
  match n with O => (ds, w) | S n' => let '(_, ds', w') := ds_Execute ds q w in after_executes q n' ds' w' end.
Definition with_datasource (name : string) (ds : DS) (m : DataSourceManager) : DataSourceManager :=
  {| registry := registry m; datasources := <[name := ds]> (datasources m); status := status m;
     retryConfig := retryConfig m; loops := loops m; stopped := stopped m |}.
(** The outcome and the number of calls made, and what the calls leave. *)
Definition ExecuteWithRetry (cancel : Z -> option error) (m : DataSourceManager) (dsName : string)
    (query : QueryRequest) (w : W) : (result QueryResult * Z) * (DataSourceManager * W) :=
  match Get m dsName with
  | Err err => ((Err err, 0), (m, w))
  | Ok ds =>
      let '(r, _, n) := Retry.Do (fun k => (nth_execute query (Z.to_nat k) ds w).1.1) cancel (retryConfig m) in
      let '(ds', w') := after_executes query (Z.to_nat n) ds w in
      ((r, n), (with_datasource dsName ds' m, w'))
  end.

(** The status a health check leaves. *)
Definition after_health (err : option error) (st : DataSourceStatus) : DataSourceStatus :=
  {| Available := match err with None => true | Some _ => false end; LastError := err;
     ReconnectCount := ReconnectCount st; NextReconnectAt := NextReconnectAt st |}.
Definition health_one (name : string) (acc : list (string * option error) * DataSourceManager * W)
    : list (string * option error) * DataSourceManager * W :=
  let '(results, m, w) := acc in
  match datasources m !! name with
  | None => acc
  | Some ds =>
      let '(err, ds', w') := ds_HealthCheck ds w in
      (results ++ [(name, err)],
       {| registry := registry m; datasources := <[name := ds']> (datasources m);
          status := alter (after_health err) name (status m); retryConfig := retryConfig m;
          loops := loops m; stopped := stopped m |}, w')
  end.
(** [names]: the keys in the order this run visits them. *)
Definition HealthCheckAll (names : list string) (m : DataSourceManager) (w : W)
    : list (string * option error) * DataSourceManager * W :=
  foldl (fun acc name => health_one name acc) ([], m, w) names.

Definition close_one (name : string) (acc : list error * DataSourceManager * W)
    : list error * DataSourceManager * W :=
  let '(errs, m, w) := acc in
  match datasources m !! name with
  | None => acc
  | Some ds =>
      let '(err, ds', w') := ds_Close ds w in
      (match err with
       | Some e => errs ++ [Wrap (Sprintf "close %s: %w" [AStr name; AErr e]) e]
       | None => errs
       end,
       {| registry := registry m; datasources := <[name := ds']> (datasources m); status := status m;
          retryConfig := retryConfig m; loops := loops m; stopped := stopped m |}, w')
  end.
Definition CloseAll (names : list string) (m : DataSourceManager) (w : W)
    : result unit * DataSourceManager * W :=
  let m := {| registry := registry m; datasources := datasources m; status := status m;
              retryConfig := retryConfig m; loops := loops m; stopped := true |} in
  let '(errs, m, w) := foldl (fun acc name => close_one name acc) ([], m, w) names in
  (match errs with
   | [] => Ok tt
   | _ => Err (Errorf (Sprintf "errors closing datasources: %v" (map AErr errs)))
   end, m, w).

(** One iteration of a reconnect loop after its wait: the manager, the world and whether
    the loop goes on, with its next attempt number.  [now] is the clock after a failure. *)
Definition reconnect_step (name : string) (backoff now attempt : Z) (m : DataSourceManager) (w : W)
    : DataSourceManager * W * option Z :=
  match datasources m !! name with
  | None => (m, w, None)
  | Some ds =>
      let set_status f ds' :=
        {| registry := registry m; datasources := <[name := ds']> (datasources m);
           status := alter f name (status m); retryConfig := retryConfig m; loops := loops m;
           stopped := stopped m |} in
      match ds_Connect ds w with
      | (Some err, ds', w') =>
          (set_status (fun st => {| Available := Available st; LastError := Some err;
                         ReconnectCount := ReconnectCount st + 1;
                         NextReconnectAt := Some (now + backoff) |}) ds', w', Some (attempt + 1))
      | (None, ds', w') =>
          (set_status (fun st => {| Available := true; LastError := None; ReconnectCount := 0;
                         NextReconnectAt := None |}) ds', w', None)
      end
  end.

(** ** Vocabulary of the theorems *)

(** What the manager maintains: a status for every data source and no other; a running loop
    only for a stored one. *)
Record MInv (m : DataSourceManager) : Prop := {
  inv_dom : dom (status m) = dom (datasources m);
  inv_loops : Forall (fun l => l.1.1 ∈ dom (datasources m)) (loops m);
}.
Definition usable (m : DataSourceManager) (name : string) : Prop :=
  exists st, status m !! name = Some st /\ Available st = true.

(** The operations that change the manager while it serves. *)
Inductive mstep : DataSourceManager -> DataSourceManager -> Prop :=
  | mstep_health names w rs m m' w' : HealthCheckAll names m w = (rs, m', w') -> mstep m m'
  | mstep_reconnect name b now k w k' m m' w' : reconnect_step name b now k m w = (m', w', k') -> mstep m m'
  | mstep_close names w r m m' w' : CloseAll names m w = (r, m', w') -> mstep m m'.

(** ** Lemmas *)

Lemma store_inv name ds st ls m :
  Forall (fun l => l.1.1 = name) ls -> MInv m -> MInv (store name ds st ls m).
Proof.
  intros Hls [Hd Hl]. split; simpl.
  - by rewrite !dom_insert_L, Hd.
  - apply Forall_app. split; (eapply Forall_impl; [eassumption|]); intros l H; simpl in *; set_solver.
Qed.

Lemma init_one_inv cfg m w : MInv m -> MInv (init_one cfg (m, w)).1.
Proof.
  intros Hm. unfold init_one. destruct (negb (Enabled cfg)); [done|].
  destruct (RegistryGet _ _) as [f|]; [|done]. destruct (f _ _) as [ds|]; [|done].
  destruct (ds_Connect ds w) as [[[err|] ds'] w'].
  - destruct (parseReconnectIntervals _) as [i x]. apply store_inv; [by apply Forall_singleton|done].
  - by apply store_inv.
Qed.

Lemma Init_inv configs m w : MInv m -> MInv (Init configs m w).1.
Proof.
  unfold Init. revert m w. induction configs as [|c cs IH]; intros m w Hm; [done|]. cbn [foldl].
  pose proof (init_one_inv c m w Hm) as H. destruct (init_one c (m, w)) as [m' w']. by apply IH.
Qed.

Lemma touch_inv name ds f m m' :
  MInv m -> name ∈ dom (datasources m) ->
  datasources m' = <[name := ds]> (datasources m) -> status m' = alter f name (status m) ->
  loops m' = loops m -> MInv m'.
Proof.
  intros [Hd Hl] Hn E1 E2 E3.
  assert (Hdom : dom (<[name := ds]> (datasources m)) = dom (datasources m)).
  { rewrite dom_insert_L. set_solver. }
  split; rewrite ?E1, ?E2, ?E3, ?Hdom; [by rewrite dom_alter_L|done].
Qed.

Lemma health_one_inv name rs m w rs' m' w' :
  health_one name (rs, m, w) = (rs', m', w') -> MInv m -> MInv m'.
Proof.
  unfold health_one. destruct (datasources m !! name) as [ds|] eqn:E; [|intros; by simplify_eq].
  destruct (ds_HealthCheck ds w) as [[err ds'] w1]. intros [= <- <- <-] Hm.
  eapply (touch_inv name ds'); try done. by apply elem_of_dom_2 in E.
Qed.

Lemma HealthCheckAll_inv names m w rs m' w' :
  HealthCheckAll names m w = (rs, m', w') -> MInv m -> MInv m'.
Proof.
  unfold HealthCheckAll. generalize (@nil (string * option error)) as rs0. revert m w.
  induction names as [|n names IH]; intros m w rs0; cbn [foldl]; [by intros [= _ <- _]|].
  destruct (health_one n (rs0, m, w)) as [[rs1 m1] w1] eqn:E. intros H Hm.
  eapply IH; [exact H|]. by eapply health_one_inv.
Qed.

Lemma close_one_inv name es m w es' m' w' :
  close_one name (es, m, w) = (es', m', w') -> MInv m -> MInv m'.
Proof.
  unfold close_one. destruct (datasources m !! name) as [ds|] eqn:E; [|intros; by simplify_eq].
  destruct (ds_Close ds w) as [[err ds'] w1]. intros [= _ <- _] [Hd Hl].
  assert (Hdom : dom (<[name := ds']> (datasources m)) = dom (datasources m)).
  { rewrite dom_insert_L. apply elem_of_dom_2 in E. set_solver. }
  split; simpl; by rewrite Hdom.
Qed.

Lemma close_all_inv names es m w es' m' w' :
  foldl (fun acc name => close_one name acc) (es, m, w) names = (es', m', w') -> MInv m -> MInv m'.
Proof.
  revert es m w. induction names as [|n names IH]; intros es m w; cbn [foldl]; [by intros [= _ <- _]|].
  destruct (close_one n (es, m, w)) as [[es1 m1] w1] eqn:E. intros H Hm.
  eapply IH; [exact H|]. by eapply close_one_inv.
Qed.

Lemma mstep_inv m m' : mstep m m' -> MInv m -> MInv m'.
Proof.
  destruct 1 as [names w rs m m' w' H|name b now k w k' m m' w' H|names w r m m' w' H]; intros Hm.
  - by eapply HealthCheckAll_inv.
  - unfold reconnect_step in H. destruct (datasources m !! name) as [ds|] eqn:E; [|by simplify_eq].
    apply elem_of_dom_2 in E. destruct (ds_Connect ds w) as [[[err|] ds'] w1]; injection H as <- _ _;
      by eapply (touch_inv name ds').
  - unfold CloseAll in H. destruct (foldl _ _ _) as [[es m1] w1] eqn:E. injection H as _ <- _.
    eapply close_all_inv; [exact E|]. destruct Hm. by split.
Qed.

Lemma Get_usable m name : MInv m -> (exists ds, Get m name = Ok ds) <-> usable m name.
Proof.
  intros [Hd _]. unfold Get, usable. split.
  - intros [ds H]. destruct (datasources m !! name) as [d|] eqn:E; [|done].
    destruct (status m !! name) as [st|] eqn:Es.
    + exists st. destruct (Available st) eqn:Ea; done.
    + apply elem_of_dom_2 in E. rewrite <- Hd in E. by apply elem_of_dom in E as [? E]; rewrite Es in E.
  - intros (st & Hs & Ha). apply elem_of_dom_2 in Hs as Hin. rewrite Hd in Hin.
    apply elem_of_dom in Hin as [ds Hds]. rewrite Hds, Hs, Ha. by exists ds.
Qed.

Lemma api_error_business e : is_api_error e = true -> Retry.IsTransient (Some e) = false.
Proof. destruct e; done. Qed.

Lemma nth_execute_api `{!StructuredErrors DSO} q n ds w e d' w' :
  nth_execute q n ds w = (Err e, d', w') -> is_api_error e = true.
Proof.
  revert ds w. induction n as [|n IH]; intros ds w; simpl;
    destruct (ds_Execute ds q w) as [[r ds1] w1] eqn:E; [|by apply IH].
  intros [= -> -> ->]. by eapply execute_errors_api.
Qed.

(** ** Theorems *)

(** C21: from start-up on, through any sequence of health checks, reconnect attempts and
    shutdown, the status table and the data source table hold the same names, every
    reconnect loop is for a stored data source, and [Get] hands out exactly the data sources
    whose status is available. *)
Theorem manager_invariant configs reg rc w m :
  rtc mstep (Init configs (NewDataSourceManager reg rc) w).1 m ->
  dom (status m) = dom (datasources m)
  /\ Forall (fun l => l.1.1 ∈ dom (datasources m)) (loops m)
  /\ forall name, (exists ds, Get m name = Ok ds) <-> usable m name.
Proof.
  intros Hr. assert (Hm : MInv m).
  { assert (H0 : MInv (Init configs (NewDataSourceManager reg rc) w).1).
    { apply Init_inv. split; [done|constructor]. }
    revert H0. induction Hr as [|? ? ? Hs Hr IH]; [done|]. intros H0. apply IH. by eapply mstep_inv. }
  destruct Hm as [Hd Hl]. split; [done|]. split; [done|]. intros name. by apply Get_usable.
Qed.

Lemma with_datasource_same name ds m : Get m name = Ok ds -> with_datasource name ds m = m.
Proof.
  unfold Get, with_datasource. intros H. destruct (datasources m !! name) as [ds'|] eqn:E; [|done].
  assert (ds' = ds) as -> by (destruct (status m !! name) as [st|]; [destruct (Available st)|]; simpl in H; by simplify_eq).
  rewrite insert_id by done. by destruct m.
Qed.
(** What [ExecuteWithRetry] comes to for adapters that report structured errors: these are never
    retried, so [Execute] is called once, or not at all when [MaxRetries] is negative. *)
Definition exit_error : error := Errorf (Sprintf "retry loop exited unexpectedly" []).
Definition one_call (m : DataSourceManager) (name : string) (q : QueryRequest) (w : W)
    : (result QueryResult * Z) * (DataSourceManager * W) :=
  match Get m name with
  | Err err => ((Err err, 0), (m, w))
  | Ok ds =>
      if Retry.MaxRetries (retryConfig m) <? 0 then ((Err exit_error, 0), (m, w))
      else let '(r, ds', w') := ds_Execute ds q w in ((r, 1), (with_datasource name ds' m, w'))
  end.
Lemma single_execution `{!StructuredErrors DSO} cancel m name q w :
  ExecuteWithRetry cancel m name q w = one_call m name q w.
Proof.
  unfold ExecuteWithRetry, one_call. destruct (Get m name) as [ds|err] eqn:Hg; [|done].
  unfold Retry.Do. destruct (Z.ltb_spec (Retry.MaxRetries (retryConfig m)) 0) as [Hneg|Hmax].
  { replace (Z.to_nat (Retry.MaxRetries (retryConfig m) + 1)) with O by lia. simpl. by rewrite with_datasource_same. }
  destruct (Z.to_nat (Retry.MaxRetries (retryConfig m) + 1)) as [|fuel] eqn:Hf; [lia|].
  set (fn := fun k : Z => (nth_execute q (Z.to_nat k) ds w).1.1).
  destruct (ds_Execute ds q w) as [[r ds'] w'] eqn:E.
  assert (H0 : fn 0 = r) by (unfold fn; simpl; by rewrite E).
  assert (Hfin : Retry.finishes fn cancel (retryConfig m) 0 r []).
  { destruct r as [r|e]; [by apply Retry.fin_ok|]. apply Retry.fin_business; [done|].
    apply api_error_business. by eapply execute_errors_api. }
  rewrite (Retry.do_loop_finishes fn cancel (retryConfig m) fuel 0 r []) by done. simpl. by rewrite E.
Qed.
End Manager.

Arguments DataSourceManager : clear implicits.
Arguments AdapterRegistry : clear implicits.

(** the reconnect delay.  With the default intervals the delay of attempt [n] is
    [min (5s * 2^n) 60s] for the first 31 attempts; from attempt 31 on the doubled interval
    no longer fits an [int64], the conversion gives the least one, the comparison with the
    maximum does not catch it, and the loop no longer waits. *)
Theorem reconnect_backoff_default n :
  0 <= n ->
  reconnect_backoff defaultReconnectInterval defaultMaxReconnectInterval n =
    if n <? 31 then Z.min (5 * second * 2 ^ n) (60 * second) else min_int64.
Proof.
  intros Hn. destruct (Z.ltb_spec n 1024) as [Hlt|Hge].
  - assert (Hall : forallb (fun n =>
      reconnect_backoff defaultReconnectInterval defaultMaxReconnectInterval n
      =? (if n <? 31 then Z.min (5 * second * 2 ^ n) (60 * second) else min_int64)) (seqZ 0 1024) = true)
      by (vm_compute; reflexivity).
    rewrite forallb_forall in Hall. specialize (Hall n).
    rewrite <- list_elem_of_In, elem_of_seqZ in Hall. apply Z.eqb_eq. apply Hall. lia.
  - unfold reconnect_backoff, pow2. rewrite (proj2 (Z.ltb_ge n emax64)) by (unfold emax64; lia).
    rewrite (proj2 (Z.ltb_ge n 31)) by lia. vm_compute. reflexivity.
Qed.

(** ** The SQL adapters behind the interface *)

(** The StarRocks adapter over a database that answers as [W] says. *)
Section StarRocksInstance.
Context {W : Type}.
Variable queryDB : W -> SqlAdapter.stmt -> result SqlAdapter.Rows.
Variable countDB : W -> SqlAdapter.stmt -> result Z.
Variable ping : W -> result unit.
Variable tick : W -> W.

Definition as_error {A} (r : result A) : option error := match r with Ok _ => None | Err e => Some e end.
Definition starrocks_ops : DataSourceOps StarRocks.Adapter W := {|
  ds_Connect a w := let '(r, a') := StarRocks.Connect (Ok EmptyString) (Ok tt) (ping w) a in
                    (as_error r, a', tick w);
  ds_Execute a q w := ((StarRocks.Execute (queryDB w) (countDB w) a q).1, a, tick w);
  ds_HealthCheck a w := let '(r, a') := StarRocks.HealthCheck (ping w) a in (as_error r, a', tick w);
  ds_Close a w := let '(r, a') := StarRocks.Close (Ok tt) a in (as_error r, a', tick w);
  ds_Writable _ := true;
|}.

#[export] Instance starrocks_structured : StructuredErrors starrocks_ops.
Proof.
  intros a q w e a' w' H. simpl in H. destruct (StarRocks.Execute _ _ a q) as [r log] eqn:E.
  injection H as -> _ _. by eapply StarRocks.Execute_errors_api.
Qed.
End StarRocksInstance.

(** ** Witnesses *)

Definition demo_ops : DataSourceOps StarRocks.Adapter nat :=
  starrocks_ops (fun _ _ => Err (NetError true None)) (fun _ _ => Ok 0) (fun _ => Ok tt) S.
Definition demo_registry : AdapterRegistry StarRocks.Adapter :=
  {[ "starrocks" := StarRocks.NewAdapter ]}.
Definition demo_config : DataSourceConfig :=
  {| DsName := "sr"; DsType := "starrocks"; Enabled := true; Connection := [];
     DsOptions := DsOptions (Whitelist.with_tables StarRocks.demo_tables) |}.
Definition demo_retry : Retry.Config := {| Retry.MaxRetries := 3; Retry.RetryInterval := second |}.
Definition demo_manager : DataSourceManager StarRocks.Adapter :=
  (Init (DSO := demo_ops) [demo_config] (NewDataSourceManager demo_registry demo_retry) O).1.

Lemma manager_invariant_witness : dom (status demo_manager) = dom (datasources demo_manager).
Proof.
  refine (proj1 (manager_invariant (DSO := demo_ops) [demo_config] demo_registry demo_retry O demo_manager _)).
  apply rtc_refl.
Defined.
Lemma reconnect_backoff_default_witness :
  reconnect_backoff defaultReconnectInterval defaultMaxReconnectInterval 31 = min_int64.
Proof. apply (reconnect_backoff_default 31). lia. Defined.
