(* ===== verification/Auth.v ===== *)
(** * internal/middleware: authentication, authorization, brute-force limiter, CSRF

    A request is the record of what these middlewares read of it.  The JWT library and bcrypt
    are arguments of the operations that use them; the clock is too.  A response is the pair of status and error code ([None]: the request went on
    to the next handler). *)
From S2P Require Import Prelude GoStrings Values.
From S2P Require Net.

Record AuthIdentity := {
  Subject : string;
  Method : string;
  Datasources : list string;
  Operations : list string;
}.
Record AuthError := { AuthCode : string; AuthStatus : Z; AuthMessage : string }.

Record Request := {
  Path : string;
  HttpMethod : string;
  RemoteAddr : string;
  Header : string -> string;
  Identity : option AuthIdentity;
  BatchCount : option Z;
}.
Definition with_identity (id : AuthIdentity) (r : Request) : Request :=
  {| Path := Path r; HttpMethod := HttpMethod r; RemoteAddr := RemoteAddr r; Header := Header r;
     Identity := Some id; BatchCount := BatchCount r |}.

(** A verdict of an authenticator. *)
Definition auth_err {A} (code : string) (msg : string) : A + AuthError :=
  inr {| AuthCode := code; AuthStatus := 401; AuthMessage := msg |}.

(** ** JWT *)

(** The kinds of key [x509.ParsePKIXPublicKey] can return that the code tells apart. *)
Inductive PublicKey := RSAKey (der : string) | ECDSAKey (der : string) | OtherKey.
(** The [any] that [keyFunc] returns. *)
Inductive VerifyKey := SecretBytes (secret : string) | PublicVerify (key : option PublicKey).
(** The JWT library: the header's algorithm and the claims of a token, whether its signature
    verifies by an algorithm under a key, [GetExpirationTime], and [jwt.Parse] at an instant with
    the answer of the key function, the valid methods and the issuer option: the rendered
    error, or whether the token is valid and its claims. *)
Class JwtParser := {
  jwt_alg : string -> option string;
  jwt_claims : string -> option (list (string * GoVal));
  jwt_verify : string -> VerifyKey -> string -> bool;
  jwt_expiry : list (string * GoVal) -> option Z;
  jwt_Parse : Z -> result VerifyKey -> list string -> option string -> string -> string + (bool * list (string * GoVal));
}.
Class JwtParserLaws (JP : JwtParser) : Prop := {
  (** A token is valid only if its method is allowed, its signature verifies under the key, the
      issuer is the one asked for and it has not expired. *)
  jwt_Parse_valid now key methods iss tok claims :
    jwt_Parse now key methods iss tok = inr (true, claims) ->
    exists alg k, jwt_alg tok = Some alg /\ alg ∈ methods /\ jwt_claims tok = Some claims /\ key = Ok k /\ jwt_verify alg k tok = true
      /\ (forall i, iss = Some i -> assoc "iss" claims = Some (VString i)) /\ (forall t, jwt_expiry claims = Some t -> now < t);
  (** Every method takes keys of its own type only. *)
  jwt_verify_HS256 k tok : jwt_verify "HS256" k tok = true -> exists secret, k = SecretBytes secret;
  jwt_verify_RS256 k tok : jwt_verify "RS256" k tok = true -> exists der, k = PublicVerify (Some (RSAKey der));
  jwt_verify_ES256 k tok : jwt_verify "ES256" k tok = true -> exists der, k = PublicVerify (Some (ECDSAKey der));
}.
Record JWTAuthenticator := { algorithm : string; secret : string; publicKey : option PublicKey; issuer : string }.
Definition keyFunc (j : JWTAuthenticator) : result VerifyKey :=
  if String.eqb (algorithm j) "HS256" then Ok (SecretBytes (secret j))
  else if String.eqb (algorithm j) "RS256" || String.eqb (algorithm j) "ES256" then Ok (PublicVerify (publicKey j))
  else Err (Errorf (Sprintf "unsupported algorithm: %s" [AStr (algorithm j)])).

Definition isTokenExpired (err : string) : bool := contains "token is expired" err.
Definition classifyError (err : string) : AuthError :=
  if isTokenExpired err
  then {| AuthCode := ErrAuthTokenExpired; AuthStatus := 401; AuthMessage := "token has expired" |}
  else {| AuthCode := ErrAuthTokenInvalid; AuthStatus := 401; AuthMessage := "invalid token: " +:+ err |}.

(** The strings of a claim that is a list; [absent] when it is missing or of another type. *)
Definition string_claim (absent : list string) (claims : list (string * GoVal)) (key : string)
    : list string :=
  match assoc key claims with
  | Some (VSlice l) => omap (fun v => match v with VString s => Some s | _ => None end) l
  | _ => absent
  end.
Definition claims_identity (claims : list (string * GoVal)) : AuthIdentity :=
  {| Subject := match assoc "sub" claims with Some (VString s) => s | _ => EmptyString end;
     Method := "jwt";
     Datasources := string_claim [] claims "datasources";
     Operations := string_claim ["query"] claims "operations" |}.

Definition JWT_Authenticate {JP : JwtParser} (now : Z) (j : JWTAuthenticator) (r : Request)
    : AuthIdentity + AuthError :=
  let authHeader := Header r "Authorization" in
  if String.eqb authHeader EmptyString then auth_err ErrAuthMissing "missing Authorization header"
  else if negb (has_prefix "Bearer " authHeader) then
    auth_err ErrAuthTokenInvalid "Authorization header must use Bearer scheme"
  else
    let tokenStr := str_drop 7 authHeader in
    if String.eqb tokenStr EmptyString then auth_err ErrAuthMissing "missing Bearer token"
    else match jwt_Parse now (keyFunc j) [algorithm j]
                 (if String.eqb (issuer j) EmptyString then None else Some (issuer j)) tokenStr with
         | inl err => inr (classifyError err)
         | inr (valid, claims) =>
             if negb valid then auth_err ErrAuthTokenInvalid "invalid token"
             else inl (claims_identity claims)
         end.

(** ** API keys *)

Record APIKeyEntry := {
  KeyID : string;
  KeyHash : string;
  ExpiresAt : option Z;
  KeyDatasources : list string;
  KeyOperations : list string;
}.
(** The configured entry: ID, key hash, the [expires_at] text, permissions. *)
Record APIKeyConfig := { cID : string; cKey : string; cExpires : string;
                         cDatasources : list string; cOperations : list string }.
Definition NewAPIKeyAuthenticator (parse_rfc3339 : string -> option Z) (keys : list APIKeyConfig)
    : result (list APIKeyEntry) :=
  mapR (fun k =>
    _ ← guard_err (String.eqb (cID k) EmptyString)
          (Errorf (Sprintf "apikey: key entry missing ID" []));
    _ ← guard_err (String.eqb (cKey k) EmptyString)
          (Errorf (Sprintf "apikey: key entry %q missing key hash" [AStr (cID k)]));
    exp ← (if String.eqb (cExpires k) EmptyString then Ok None
           else match parse_rfc3339 (cExpires k) with
                | Some t => Ok (Some t)
                | None => Err (Errorf (Sprintf "apikey: key %q has invalid expires_at %q: %w"
                                         [AStr (cID k); AStr (cExpires k)]))
                end);
    Ok {| KeyID := cID k; KeyHash := cKey k; ExpiresAt := exp;
          KeyDatasources := cDatasources k; KeyOperations := cOperations k |}) keys.

(** [matches hash key]: [bcrypt.CompareHashAndPassword(...) == nil]. *)
Fixpoint key_loop (matches : string -> string -> bool) (now : Z) (apiKey : string)
    (keys : list APIKeyEntry) : AuthIdentity + AuthError :=
  match keys with
  | [] => auth_err ErrAuthTokenInvalid "invalid API key"
  | k :: keys' =>
      if negb (matches (KeyHash k) apiKey) then key_loop matches now apiKey keys'
      else if match ExpiresAt k with Some t => t <? now | None => false end
      then auth_err ErrAuthTokenExpired "API key has expired"
      else inl {| Subject := KeyID k; Method := "apikey"; Datasources := KeyDatasources k;
                  Operations := KeyOperations k |}
  end.
Definition APIKey_Authenticate (matches : string -> string -> bool) (now : Z) (keys : list APIKeyEntry)
    (r : Request) : AuthIdentity + AuthError :=
  let apiKey := Header r "X-API-Key" in
  if String.eqb apiKey EmptyString then auth_err ErrAuthMissing "missing X-API-Key header"
  else key_loop matches now apiKey keys.

(** ** authz.go *)

Definition str_in (l : list string) (s : string) : bool := existsb (String.eqb s) l.
Definition denied (msg : string) : option AuthError :=
  Some {| AuthCode := ErrAuthInsufficientPermission; AuthStatus := 403; AuthMessage := msg |}.
(** [None] is a nil error: permitted. *)
Definition Authorize (identity : option AuthIdentity) (datasource operation : string)
    : option AuthError :=
  match identity with
  | None => denied "no identity provided"
  | Some id =>
      if (0 <? Z.of_nat (length (Datasources id))) && negb (String.eqb datasource EmptyString)
         && negb (str_in (Datasources id) datasource)
      then denied ("access denied for datasource: " +:+ datasource)
      else if (0 <? Z.of_nat (length (Operations id))) && negb (String.eqb operation EmptyString)
              && negb (str_in (Operations id) operation)
      then denied ("operation not permitted: " +:+ operation)
      else None
  end.

(** ** Middlewares *)

Definition publicEndpoints : list string := ["/health"; "/ready"; "/metrics"; "/playground"].
Definition isPublicEndpoint (path : string) : bool := str_in publicEndpoints path.

(** The response of a middleware that stopped, or the request it passed on. *)
Definition outcome : Type := Request + (Z * string).

Definition AuthMiddleware (authenticate : Request -> AuthIdentity + AuthError) (r : Request) : outcome :=
  if isPublicEndpoint (Path r) then inl r
  else match authenticate r with
       | inr err => inr (AuthStatus err, AuthCode err)
       | inl id => inl (with_identity id r)
       end.

Definition isGraphQLPath (path : string) : bool :=
  String.eqb path "/graphql" || String.eqb path "/graphql/".
Definition CSRFProtection (allowGetQueries : bool) (mode : string) (r : Request) : outcome :=
  let blockGet := String.eqb mode "production" && negb allowGetQueries in
  if negb (isGraphQLPath (Path r)) then inl r
  else if blockGet && String.eqb (HttpMethod r) "GET" then inr (403, "VALIDATION_GET_QUERY_DISABLED")
  else if String.eqb (HttpMethod r) "POST" && negb (contains "application/json" (Header r "Content-Type"))
  then inr (415, "VALIDATION_INVALID_CONTENT_TYPE")
  else inl r.

(** ** auth_failure_limiter.go *)

Record failureRecord := { count : Z; firstAt : Z; bannedAt : option Z }.
Record AuthFailureLimiter := {
  failures : gmap string failureRecord;
  threshold : Z;
  window : Z;
  banDur : Z;
  trustedProxies : list Net.IPNet;
}.
Definition set_failures (f : gmap string failureRecord) (l : AuthFailureLimiter) : AuthFailureLimiter :=
  {| failures := f; threshold := threshold l; window := window l; banDur := banDur l;
     trustedProxies := trustedProxies l |}.

(** [now] is the instant [time.Since] reads. *)
Definition ban_active (now : Z) (l : AuthFailureLimiter) (rec : failureRecord) : bool :=
  match bannedAt rec with Some b => time_sub now b <? banDur l | None => false end.
Definition Check_ (now : Z) (l : AuthFailureLimiter) (ip : string) : bool :=
  match failures l !! ip with
  | None => true
  | Some rec => negb (ban_active now l rec)
  end.
Definition RecordFailure (now : Z) (ip : string) (l : AuthFailureLimiter) : AuthFailureLimiter :=
  match failures l !! ip with
  | None => set_failures (<[ip := {| count := 1; firstAt := now; bannedAt := None |}]> (failures l)) l
  | Some rec =>
      if ban_active now l rec then l
      else if window l <? time_sub now (firstAt rec) then
        set_failures (<[ip := {| count := 1; firstAt := now; bannedAt := None |}]> (failures l)) l
      else
        let c := count rec + 1 in
        set_failures (<[ip := {| count := c; firstAt := firstAt rec;
                                 bannedAt := if threshold l <=? c then Some now else bannedAt rec |}]>
                        (failures l)) l
  end.
(** Whether [cleanup] keeps a record. *)
Definition keeps (now : Z) (l : AuthFailureLimiter) (rec : failureRecord) : bool :=
  match bannedAt rec with
  | Some b => negb (banDur l <=? time_sub now b)
  | None => negb (window l <=? time_sub now (firstAt rec))
  end.
Definition cleanup (now : Z) (l : AuthFailureLimiter) : AuthFailureLimiter :=
  set_failures (filter (fun kv => keeps now l kv.2 = true) (failures l)) l.

Definition isTrusted (l : AuthFailureLimiter) (ipStr : string) : bool :=
  match Net.ParseIP ipStr with
  | None => false
  | Some ip => existsb (fun cidr => Net.Contains cidr ip) (trustedProxies l)
  end.
Definition stripPort (addr : string) : string := default addr (Net.SplitHost addr).
(** The loop over the header: its parts from the right to the left. *)
Fixpoint first_untrusted (trusted : string -> bool) (parts : list string) : option string :=
  match parts with
  | [] => None
  | p :: rest =>
      let ip := trim_space p in
      if String.eqb ip EmptyString then first_untrusted trusted rest
      else if trusted ip then first_untrusted trusted rest else Some ip
  end.
Definition ExtractClientIP (l : AuthFailureLimiter) (r : Request) : string :=
  let remoteIP := stripPort (RemoteAddr r) in
  if (length (trustedProxies l) =? 0)%nat then remoteIP
  else if negb (isTrusted l remoteIP) then remoteIP
  else
    let xff := Header r "X-Forwarded-For" in
    if String.eqb xff EmptyString then remoteIP
    else default remoteIP (first_untrusted (isTrusted l) (reverse (split_byte ","%char xff))).

(** ** Vocabulary of the theorems *)

(** The failures of [ip] at the instants [ts], in order. *)
Fixpoint fail_at (ip : string) (ts : list Z) (l : AuthFailureLimiter) : AuthFailureLimiter :=
  match ts with [] => l | t :: ts' => fail_at ip ts' (RecordFailure t ip l) end.

(** What an identity may do, as the documentation of [DefaultAuthorizer] says it. *)
Definition permits (id : AuthIdentity) (datasource operation : string) : Prop :=
  (Datasources id = [] \/ datasource = EmptyString \/ datasource ∈ Datasources id)
  /\ (Operations id = [] \/ operation = EmptyString \/ operation ∈ Operations id).

(** ** Lemmas *)

Lemma str_in_iff l s : str_in l s = true <-> s ∈ l.
Proof.
  unfold str_in. rewrite existsb_exists. split.
  - intros (x & Hx & ->%String.eqb_eq). by apply list_elem_of_In.
  - intros H. exists s. split; [by apply list_elem_of_In|apply String.eqb_refl].
Qed.

Lemma restricted_false (l : list string) (s : string) :
  (0 <? Z.of_nat (length l)) && negb (String.eqb s EmptyString) && negb (str_in l s) = false
  <-> l = [] \/ s = EmptyString \/ s ∈ l.
Proof.
  rewrite <- str_in_iff. destruct l as [|x l]; [simpl; naive_solver|].
  assert (0 <? Z.of_nat (length (x :: l)) = true) as -> by (simpl; lia).
  destruct (String.eqb_spec s EmptyString); destruct (str_in (x :: l) s); simpl; naive_solver.
Qed.

Lemma RecordFailure_other now ip ip' l :
  ip <> ip' -> failures (RecordFailure now ip l) !! ip' = failures l !! ip'.
Proof.
  intros Hne. unfold RecordFailure. destruct (failures l !! ip); [|simpl; by rewrite lookup_insert_ne].
  repeat case_match; simpl; rewrite ?lookup_insert_ne; done.
Qed.

Lemma fail_at_config ip ts l :
  threshold (fail_at ip ts l) = threshold l /\ window (fail_at ip ts l) = window l
  /\ banDur (fail_at ip ts l) = banDur l.
Proof.
  revert l. induction ts as [|t ts IH]; intros l; simpl; [done|].
  destruct (IH (RecordFailure t ip l)) as (-> & -> & ->).
  unfold RecordFailure. by repeat case_match.
Qed.

(** Within the window and below the threshold the failures are counted. *)
Lemma fail_at_count ip t0 ts l c :
  failures l !! ip = Some {| count := c; firstAt := t0; bannedAt := None |} ->
  c + Z.of_nat (length ts) < threshold l ->
  Forall (fun t => in_int64 (t - t0) /\ t - t0 <= window l) ts ->
  failures (fail_at ip ts l) !! ip
    = Some {| count := c + Z.of_nat (length ts); firstAt := t0; bannedAt := None |}.
Proof.
  revert l c. induction ts as [|t ts IH]; intros l c Hl Hc Hw; simpl in *; [by rewrite Z.add_0_r|].
  apply Forall_cons in Hw as [[Hi Ht] Hw].
  assert (Hst : failures (RecordFailure t ip l) !! ip
                = Some {| count := c + 1; firstAt := t0; bannedAt := None |}).
  { unfold RecordFailure. rewrite Hl. unfold ban_active, time_sub. simpl.
    rewrite clamp64_id by done. rewrite (proj2 (Z.ltb_ge _ _)) by lia.
    rewrite (proj2 (Z.leb_gt _ _)) by lia. simpl. by rewrite lookup_insert_eq. }
  destruct (fail_at_config ip [t] l) as (H1 & H2 & _). simpl in H1, H2.
  rewrite (IH _ (c + 1)); [f_equal; f_equal; lia|done|rewrite H1; lia|by rewrite H2].
Qed.

Lemma fail_at_app ip ts ts' l : fail_at ip (ts ++ ts') l = fail_at ip ts' (fail_at ip ts l).
Proof. revert l. induction ts; simpl; auto. Qed.

(** ** Theorems *)

(** the ban.  An address without a record that fails [max 2 threshold] times inside one
    window is banned by the last of those failures, from that instant for exactly the ban
    duration, and not before: one failure fewer leaves it free.  A threshold of 0 or 1 still
    lets a first failure pass.  Other addresses are not affected. *)
Theorem ban_at_threshold ip l t0 ts t now :
  failures l !! ip = None ->
  Z.of_nat (S (S (length ts))) = Z.max 2 (threshold l) ->
  Forall (fun t => in_int64 (t - t0) /\ t - t0 <= window l) (ts ++ [t]) ->
  in_int64 (now - t) ->
  (forall now', Check_ now' (fail_at ip (t0 :: ts) l) ip = true)
  /\ Check_ now (fail_at ip (t0 :: ts ++ [t]) l) ip = negb (now - t <? banDur l)
  /\ forall ip', ip <> ip' -> failures (fail_at ip (t0 :: ts ++ [t]) l) !! ip' = failures l !! ip'.
Proof.
  intros Hn Hc Hw Hnow. apply Forall_app in Hw as [Hw Ht].
  apply Forall_cons in Ht as [[Hi Ht] _].
  set (l1 := RecordFailure t0 ip l).
  assert (Hl1 : failures l1 !! ip = Some {| count := 1; firstAt := t0; bannedAt := None |}).
  { unfold l1, RecordFailure. rewrite Hn. simpl. by rewrite lookup_insert_eq. }
  destruct (fail_at_config ip [t0] l) as (H1 & H2 & H3). simpl in H1, H2, H3. fold l1 in H1, H2, H3.
  assert (Hl2 : failures (fail_at ip ts l1) !! ip
    = Some {| count := 1 + Z.of_nat (length ts); firstAt := t0; bannedAt := None |}).
  { destruct ts as [|t1 ts]; [done|]. apply fail_at_count; [done| |by rewrite H2].
    rewrite H1. simpl length in *. lia. }
  destruct (fail_at_config ip ts l1) as (H4 & H5 & H6).
  split; [|split].
  - intros now'. simpl. fold l1. unfold Check_. by rewrite Hl2.
  - simpl. fold l1. rewrite fail_at_app. simpl. set (l2 := fail_at ip ts l1) in *.
    unfold RecordFailure. rewrite Hl2. unfold ban_active at 1. simpl.
    unfold time_sub at 1. rewrite clamp64_id by done.
    rewrite (proj2 (Z.ltb_ge _ _)) by (rewrite H5, H2; lia).
    rewrite (proj2 (Z.leb_le _ _)) by (rewrite H4, H1; lia).
    unfold Check_, ban_active, time_sub. simpl. rewrite lookup_insert_eq. simpl.
    by rewrite clamp64_id, H6, H3 by done.
  - intros ip' Hne. clear -Hne. generalize (t0 :: ts ++ [t]) as all, l.
    intros all. induction all as [|x all IH]; intros l0; simpl; [done|].
    rewrite IH. by apply RecordFailure_other.
Qed.

(** the periodic cleanup does not change any verdict: at the instant it runs, every
    address is allowed afterwards exactly if it was allowed before. *)
Theorem cleanup_keeps_verdicts now l ip :
  Check_ now (cleanup now l) ip = Check_ now l ip.
Proof.
  unfold Check_, cleanup. simpl. rewrite map_lookup_filter.
  destruct (failures l !! ip) as [rec|]; simpl; [|done].
  case_guard as Hk; simpl; [done|]. unfold keeps in Hk. unfold ban_active.
  destruct (bannedAt rec); [|done]. destruct (banDur l <=? time_sub now z) eqn:E; [|done].
  by rewrite (proj2 (Z.ltb_ge _ _)) by lia.
Qed.

(** the authorizer's decision: a missing identity is refused, an identity may do exactly
    what [permits] says, and every refusal is AUTH_INSUFFICIENT_PERMISSION with status 403. *)
Theorem Authorize_iff identity datasource operation :
  (Authorize identity datasource operation = None
     <-> exists id, identity = Some id /\ permits id datasource operation)
  /\ (forall e, Authorize identity datasource operation = Some e ->
       AuthCode e = ErrAuthInsufficientPermission /\ AuthStatus e = 403).
Proof.
  unfold Authorize, permits. destruct identity as [id|]; [|split; [naive_solver|by intros e [= <-]]].
  destruct (_ && negb (str_in (Datasources id) datasource)) eqn:Hd.
  { split; [|by intros e [= <-]]. split; [done|]. intros (? & [= <-] & Hp & _).
    apply restricted_false in Hp. congruence. }
  destruct (_ && negb (str_in (Operations id) operation)) eqn:Ho.
  { split; [|by intros e [= <-]]. split; [done|]. intros (? & [= <-] & _ & Hp).
    apply restricted_false in Hp. congruence. }
  apply restricted_false in Hd, Ho. split; [|done]. naive_solver.
Qed.

(** nothing but the public endpoints is reachable unauthenticated: a request the
    authentication middleware passes on is for a public endpoint or carries the identity the
    authenticator returned for it; otherwise the response is 401 with its code. *)
Theorem auth_middleware_gate authenticate r r' :
  AuthMiddleware authenticate r = inl r' ->
  isPublicEndpoint (Path r) = true /\ r' = r
  \/ exists id, authenticate r = inl id /\ Identity r' = Some id /\ Path r' = Path r.
Proof.
  unfold AuthMiddleware. destruct (isPublicEndpoint (Path r)); [intros [= <-]; by left|].
  destruct (authenticate r) as [id|]; [|done]. intros [= <-]. right. by exists id.
Qed.

(** an API key authenticates only as the first configured entry whose hash it matches,
    and only while that entry has not expired; the identity carries that entry's
    permissions. *)
Theorem apikey_identity matches now keys r id :
  APIKey_Authenticate matches now keys r = inl id ->
  exists i k, keys !! i = Some k
    /\ matches (KeyHash k) (Header r "X-API-Key") = true
    /\ (forall j k', keys !! j = Some k' -> (j < i)%nat -> matches (KeyHash k') (Header r "X-API-Key") = false)
    /\ (forall t, ExpiresAt k = Some t -> now <= t)
    /\ Subject id = KeyID k /\ Datasources id = KeyDatasources k /\ Operations id = KeyOperations k.
Proof.
  unfold APIKey_Authenticate. destruct (String.eqb _ _); [done|].
  induction keys as [|k keys IH]; simpl; [done|].
  destruct (matches (KeyHash k) (Header r "X-API-Key")) eqn:Hm; simpl.
  - destruct (match ExpiresAt k with Some t => t <? now | None => false end) eqn:He; [done|].
    intros [= <-]. exists O, k. split; [done|]. split; [done|]. split; [intros; lia|].
    split; [|done]. intros t Ht. rewrite Ht in He. lia.
  - intros H. destruct (IH H) as (i & k0 & Hi & Hm0 & Hbefore & Hrest). exists (S i), k0.
    split; [done|]. split; [done|]. split; [|done]. intros [|j] k' Hj Hlt; [by injection Hj as <-|].
    simpl in Hj. eapply Hbefore; [exact Hj|lia].
Qed.

(** a token whose "operations" claim is an empty list, or a list without a single
    string, yields an identity with no operations, which the authorizer treats as
    unrestricted: it may mutate, although a token without the claim may only query. *)
Theorem empty_operations_claim_grants_all claims ds l :
  assoc "operations" claims = Some (VSlice l) ->
  Forall (fun v => match v with VString _ => False | _ => True end) l ->
  string_claim [] claims "datasources" = [] ->
  Authorize (Some (claims_identity claims)) ds "mutation" = None
  /\ Authorize (Some (claims_identity [])) ds "mutation" <> None.
Proof.
  intros Ho Hl Hd. unfold Authorize, claims_identity. simpl. rewrite Hd. simpl.
  assert (string_claim ["query"] claims "operations" = []) as ->.
  { unfold string_claim. rewrite Ho. clear Ho.
    induction Hl as [|v l Hv _ IH]; [done|]. by destruct v. }
  done.
Qed.

(** ** Witnesses *)

Definition demo_limiter : AuthFailureLimiter :=
  {| failures := ∅; threshold := 3; window := 60 * second; banDur := 600 * second; trustedProxies := [] |}.
Definition demo_request (h : string -> string) : Request :=
  {| Path := "/graphql"; HttpMethod := "POST"; RemoteAddr := "1.2.3.4:5"; Header := h; Identity := None;
     BatchCount := None |}.
Definition demo_keys : list APIKeyEntry :=
  [{| KeyID := "k1"; KeyHash := "h1"; ExpiresAt := Some 5; KeyDatasources := ["sr"]; KeyOperations := ["query"] |}].
Lemma ban_at_threshold_witness :
  Check_ (10 * second) (fail_at "ip" [0; second; 2 * second] demo_limiter) "ip" = false.
Proof.
  refine (proj1 (proj2 (ban_at_threshold "ip" demo_limiter 0 [second] (2 * second) (10 * second) eq_refl eq_refl _ _))).
  - repeat constructor; vm_compute; intuition discriminate.
  - vm_compute. intuition discriminate.
Defined.
Lemma auth_middleware_gate_witness : exists id,
  (fun _ : Request => inl (claims_identity [])) (demo_request (fun _ => EmptyString)) = inl id :> AuthIdentity + AuthError
  /\ Identity (with_identity (claims_identity []) (demo_request (fun _ => EmptyString))) = Some id.
Proof.
  destruct (auth_middleware_gate (fun _ => inl (claims_identity [])) (demo_request (fun _ => EmptyString))
    (with_identity (claims_identity []) (demo_request (fun _ => EmptyString))) eq_refl) as [[H _]|(id & H1 & H2 & _)].
  - vm_compute in H. discriminate H.
  - exists id. split; [exact H1|exact H2].
Defined.
Lemma apikey_identity_witness : exists i k, demo_keys !! i = Some k /\ String.eqb (KeyHash k) "h1" = true.
Proof.
  destruct (apikey_identity String.eqb 5 demo_keys
    (demo_request (fun h => if String.eqb h "X-API-Key" then "h1" else EmptyString))
    {| Subject := "k1"; Method := "apikey"; Datasources := ["sr"]; Operations := ["query"] |} eq_refl)
    as (i & k & Hi & Hm & _).
  exists i, k. split; [exact Hi|exact Hm].
Defined.
Lemma empty_operations_claim_grants_all_witness :
  Authorize (Some (claims_identity [("operations", VSlice [])])) "sr" "mutation" = None.
Proof.
  refine (proj1 (empty_operations_claim_grants_all [("operations", VSlice [])] "sr" [] eq_refl _ eq_refl)).
  constructor.
Defined.
