(* ===== verification/Http.v ===== *)
(** * The HTTP vocabulary of internal/middleware and internal/server

    A request is the [Auth.Request] of the authenticating middlewares with what the others
    read: its body and the values the middlewares put into its context.  A handler gets the
    headers set on the response so far and answers with the whole response; the state it acts
    on is a parameter.  The clock and the random source of a request are part of it. *)
From S2P Require Import Prelude GoStrings Values Json.
From S2P Require Import Auth.

Definition headers : Type := list (string * string).
(** [w.Header().Set] and [Del]. *)
Definition set_header (k v : string) (h : headers) : headers := assoc_set k v h.
Definition del_header (k : string) (h : headers) : headers :=
  List.filter (fun kv => negb (String.eqb kv.1 k)) h.

Record Req := {
  base : Request;
  Body : string;
  RequestID : string;          (** [CtxKeyRequestID]; empty when absent *)
  MaxBytes : option Z;         (** the limit of [http.MaxBytesReader] *)
  Deadline : option Z;         (** of the request's context *)
  Now : Z;
  Random : option (list Z);    (** what [rand.Read] delivers *)
}.
Definition with_base (b : Request) (r : Req) : Req :=
  {| base := b; Body := Body r; RequestID := RequestID r; MaxBytes := MaxBytes r; Deadline := Deadline r;
     Now := Now r; Random := Random r |}.
Definition with_request_id (id : string) (r : Req) : Req :=
  {| base := base r; Body := Body r; RequestID := id; MaxBytes := MaxBytes r; Deadline := Deadline r;
     Now := Now r; Random := Random r |}.
Definition with_max_bytes (n : Z) (r : Req) : Req :=
  {| base := base r; Body := Body r; RequestID := RequestID r; MaxBytes := Some n; Deadline := Deadline r;
     Now := Now r; Random := Random r |}.
Definition with_deadline (d : Z) (r : Req) : Req :=
  {| base := base r; Body := Body r; RequestID := RequestID r; MaxBytes := MaxBytes r;
     Deadline := Some (match Deadline r with Some d0 => Z.min d0 d | None => d end);
     Now := Now r; Random := Random r |}.
Definition with_body (b : string) (r : Req) : Req :=
  {| base := base r; Body := b; RequestID := RequestID r; MaxBytes := MaxBytes r; Deadline := Deadline r;
     Now := Now r; Random := Random r |}.
(** [io.ReadAll(r.Body)]. *)
Definition read_body (r : Req) : result string :=
  match MaxBytes r with
  | Some n => if slen (Body r) <=? n then Ok (Body r) else Err (Errorf (Sprintf "http: request body too large" []))
  | None => Ok (Body r)
  end.

Record Response := { Status : Z; RespHeaders : headers; RespBody : string }.
Definition Handler (S : Type) : Type := Req -> headers -> S -> Response * S.
Definition Middleware (S : Type) : Type := Handler S -> Handler S.

(** ** JSON bodies *)

(** An object with the texts of its values; [json.Marshal] of a map sorts the keys. *)
Definition json_fields (kvs : list (string * string)) : string :=
  "{" +:+ join "," (map (fun kv => json_string kv.1 +:+ ":" +:+ kv.2) kvs) +:+ "}".
Definition json_object (kvs : list (string * string)) : string := json_fields (merge_sort key_le kvs).
(** [json.NewEncoder(w).Encode]. *)
Definition encode (text : string) : string := text +:+ str1 LF.
Definition write_json (status : Z) (text : string) (h : headers) : Response :=
  {| Status := status; RespHeaders := set_header "Content-Type" "application/json" h; RespBody := encode text |}.

(** The body the middlewares' errors share: code, message, classification and request ID. *)
Definition error_body (code message requestID : string) : string :=
  json_object
    (("error", json_object [("code", json_string code); ("message", json_string message);
                            ("classification", json_string (Classification code))])
     :: if String.eqb requestID EmptyString then [] else [("requestId", json_string requestID)]).
(** The shape of a GraphQL error. *)
Definition graphql_error_body (code message classification : string) : string :=
  json_object [("errors", "[" +:+ json_object
    [("message", json_string message);
     ("extensions", json_object [("code", json_string code); ("classification", json_string classification)])] +:+ "]")].
