(* ===== verification/Health.v ===== *)
(** * internal/health: the liveness and readiness endpoints

    health.go over the data source manager.  The checks of the registered components are
    functions of the state the handlers act on, which holds the manager and the world its data
    sources live in; [err_text] is [error.Error], and the names are the keys of a Go map in the
    order this run visits them. *)
From S2P Require Import Prelude GoStrings Values Json Manager Http.
From S2P Require Auth Retry.

(** ** One round of health checks *)

Definition healthy (r : string * option error) : bool := match r.2 with None => true | Some _ => false end.

Section Round.
#[local] Set Default Proof Using "Type".
Context {DS W : Type} {DSO : DataSourceOps DS W}.

Definition checked (results : list (string * option error)) (m : DataSourceManager DS) : Prop :=
  forall name err, (name, err) ∈ results -> exists st ds, status m !! name = Some st /\ datasources m !! name = Some ds
    /\ Available st = healthy (name, err).
Lemma HealthCheckAll_step names name m w : HealthCheckAll (names ++ [name]) m w = health_one name (HealthCheckAll names m w).
Proof. unfold HealthCheckAll. by rewrite foldl_app. Qed.

(** A round over the names: who was asked, and the status each one was left with. *)
Lemma HealthCheckAll_spec names m w : NoDup names -> MInv m ->
  let '(results, m', _) := HealthCheckAll names m w in
  MInv m' /\ dom (datasources m') = dom (datasources m)
  /\ (forall name, name ∈ results.*1 <-> name ∈ names /\ name ∈ dom (datasources m))
  /\ checked results m'.
Proof.
  intros Hnd Hm. induction names as [|name names IH] using rev_ind.
  - simpl. split; [done|]. split; [done|]. split; [set_solver|]. intros name err Hin. by apply elem_of_nil in Hin.
  - apply NoDup_app in Hnd as (Hnd & Hout & _). specialize (IH Hnd). rewrite HealthCheckAll_step.
    destruct (HealthCheckAll names m w) as [[results m1] w1]. destruct IH as (Hm1 & Hdom & Hres & Hchk).
    assert (Hnew : name ∉ names) by set_solver. unfold health_one.
    destruct (datasources m1 !! name) as [ds|] eqn:Hds.
    + assert (Hin : name ∈ dom (datasources m)) by (rewrite <- Hdom; by apply elem_of_dom_2 in Hds).
      destruct (ds_HealthCheck ds w1) as [[err ds'] w']. split; [|split; [|split]].
      * destruct Hm1 as [H1 H2]. split; simpl.
        -- rewrite dom_insert_L, dom_alter_L, H1. apply elem_of_dom_2 in Hds. set_solver.
        -- eapply Forall_impl; [exact H2|]. intros l Hl. simpl in *. set_solver.
      * simpl. rewrite dom_insert_L, Hdom. set_solver.
      * intros n. rewrite fmap_app, elem_of_app, Hres, elem_of_app. simpl. rewrite list_elem_of_singleton. set_solver.
      * intros n e Hne. simpl. apply elem_of_app in Hne as [Hne|Hne].
        -- assert (n <> name). { intros ->. apply Hnew, (proj1 (Hres name)). apply list_elem_of_fmap. by exists (name, e). }
           rewrite lookup_alter_ne, lookup_insert_ne by done. by apply Hchk.
        -- apply list_elem_of_singleton in Hne as [= -> ->]. rewrite lookup_insert_eq, lookup_alter_eq.
           destruct (status m1 !! name) as [st|] eqn:Hst.
           ++ simpl. eexists _, _. split; [done|]. split; [done|]. by destruct err.
           ++ apply not_elem_of_dom in Hst. destruct Hm1 as [H1 _]. rewrite H1 in Hst. by apply elem_of_dom_2 in Hds.
    + split; [done|]. split; [done|]. split; [|done]. intros n. rewrite Hres, elem_of_app, list_elem_of_singleton.
      apply not_elem_of_dom in Hds. rewrite Hdom in Hds. naive_solver.
Qed.
End Round.

(** ** The handlers *)

Section Health.
#[local] Set Default Proof Using "Type".
Context {DS W S : Type} {DSO : DataSourceOps DS W}.
Variable manager : S -> DataSourceManager DS.
Variable world : S -> W.
Variable update : DataSourceManager DS -> W -> S -> S.
Variable err_text : error -> string.

Record HealthChecker := {
  version : string;
  buildTime : string;
  components : list (string * (S -> option error));
}.
Definition NewHealthChecker (version buildTime : string) : HealthChecker :=
  {| version := version; buildTime := buildTime; components := [] |}.
Definition RegisterComponent (name : string) (check : S -> option error) (hc : HealthChecker) : HealthChecker :=
  {| version := version hc; buildTime := buildTime hc; components := assoc_set name check (components hc) |}.

Record healthResponse := {
  hr_Status : string;
  hr_Components : list (string * string);
  hr_Datasources : list (string * string);
}.
(** A member that is left out when its map is empty. *)
Definition omitempty (name : string) (m : list (string * string)) : list (string * string) :=
  match m with [] => [] | _ => [(name, json_object (map (fun kv => (kv.1, json_string kv.2)) m))] end.
Definition encode_response (hc : HealthChecker) (resp : healthResponse) : string :=
  json_fields ([("status", json_string (hr_Status resp)); ("version", json_string (version hc));
                ("build_time", json_string (buildTime hc))]
               ++ omitempty "components" (hr_Components resp) ++ omitempty "datasources" (hr_Datasources resp)).

Definition verdict (err : option error) : string := match err with None => "ok" | Some e => err_text e end.
Definition verdicts (results : list (string * option error)) : list (string * string) :=
  map (fun r => (r.1, verdict r.2)) results.

Definition LivenessCheck (hc : HealthChecker) : Handler S := fun r h s =>
  let results := map (fun c : string * (S -> option error) => (c.1, c.2 s)) (components hc) in
  let allHealthy := forallb healthy results in
  (write_json (if allHealthy then 200 else 503)
     (encode_response hc {| hr_Status := if allHealthy then "ok" else "degraded"; hr_Components := verdicts results; hr_Datasources := [] |}) h,
   s).
Definition ReadinessCheck (names : list string) (hc : HealthChecker) : Handler S := fun r h s =>
  let '(results, m, w) := HealthCheckAll names (manager s) (world s) in
  let anyHealthy := existsb healthy results in
  let anyHealthy := if Z.of_nat (length results) =? 0 then false else anyHealthy in
  (write_json (if anyHealthy then 200 else 503)
     (encode_response hc {| hr_Status := if anyHealthy then "ok" else "unavailable"; hr_Components := []; hr_Datasources := verdicts results |}) h,
   update m w s).

(** ** Theorem *)

(** the two endpoints.  A readiness request asks every data source, leaves each one available
    exactly when it passed, and answers 200 if and only if some data source can be used
    afterwards, 503 otherwise (also when none is configured); a liveness request answers 200
    exactly when every registered component passes, and asks no data source. *)
Theorem health_endpoints hc names r h s :
  (forall m w s, manager (update m w s) = m) -> MInv (manager s) ->
  NoDup names -> (forall n, n ∈ names <-> n ∈ dom (datasources (manager s))) ->
  let '(resp, s') := ReadinessCheck names hc r h s in
  Http.Status resp ∈ [200; 503]
  /\ (Http.Status resp = 200 <-> exists name ds, Get (manager s') name = Ok ds)
  /\ (let '(live, s'') := LivenessCheck hc r h s in
      s'' = s /\ (Http.Status live = 200 <-> forall name check, (name, check) ∈ components hc -> check s = None)).
Proof.
  intros Hu Hm Hnd Hnames. unfold ReadinessCheck.
  pose proof (HealthCheckAll_spec names _ (world s) Hnd Hm) as Hs.
  destruct (HealthCheckAll names _ _) as [[results m'] w']. destruct Hs as (Hm' & Hdom & Hres & Hchk).
  rewrite Hu. set (any := if Z.of_nat (length results) =? 0 then false else existsb healthy results).
  assert (Hany : any = true <-> exists name ds, Get m' name = Ok ds).
  { assert (E : any = existsb healthy results) by (unfold any; by destruct results). rewrite E, existsb_exists. split.
    - intros ([name err] & Hin%list_elem_of_In & Hh). exists name. apply (Get_usable _ _ Hm').
      destruct (Hchk _ _ Hin) as (st & ds & Hst & _ & Ha). exists st. by rewrite Ha.
    - intros (name & Hg). apply (Get_usable _ _ Hm') in Hg as (st & Hst & Ha).
      assert (Hin : name ∈ results.*1).
      { apply Hres. apply elem_of_dom_2 in Hst. destruct Hm' as [H1 _]. rewrite H1, Hdom in Hst. by rewrite Hnames. }
      apply list_elem_of_fmap in Hin as ([n err] & -> & Hin). exists (n, err). split; [by apply list_elem_of_In|].
      destruct (Hchk _ _ Hin) as (st' & ds & Hst' & _ & Ha'). simpl in Hst. rewrite Hst in Hst'. injection Hst' as <-. by rewrite <- Ha'. }
  split; [simpl; destruct any; set_solver|]. split; [simpl; rewrite <- Hany; by destruct any|].
  unfold LivenessCheck. split; [done|]. simpl.
  assert (Hall : forallb healthy (map (fun c : string * (S -> option error) => (c.1, c.2 s)) (components hc)) = true
    <-> forall name check, (name, check) ∈ components hc -> check s = None).
  { rewrite forallb_forall. split.
    - intros H name check Hin.
      assert (Hh : healthy (name, check s) = true)
        by (apply H, list_elem_of_In, list_elem_of_fmap; by exists (name, check)).
      unfold healthy in Hh. simpl in Hh. by destruct (check s).
    - intros H [n err] Hin%list_elem_of_In. apply list_elem_of_fmap in Hin as ([n' check] & [= -> ->] & Hin).
      unfold healthy. simpl. by rewrite (H n' check Hin). }
  rewrite <- Hall. by destruct (forallb _ _).
Qed.
End Health.

(** ** Witness: a manager with a working and a failing data source *)

Definition demo_ops : DataSourceOps bool nat := {|
  ds_Connect d w := (None, d, S w);
  ds_Execute d _ w := (Err (Errorf (Sprintf "none" [])), d, S w);
  ds_HealthCheck (d : bool) w := (if d then None else Some (Errorf (Sprintf "down" [])), d, S w);
  ds_Close d w := (None, d, S w);
  ds_Writable _ := false;
|}.
Definition demo_status (b : bool) : DataSourceStatus :=
  {| Available := b; LastError := None; ReconnectCount := 0; NextReconnectAt := None |}.
(** [a] recovered since its last check, [b] broke down. *)
Definition demo_manager : DataSourceManager bool :=
  {| registry := NewAdapterRegistry; datasources := {[ "a" := true; "b" := false ]};
     status := {[ "a" := demo_status false; "b" := demo_status true ]};
     retryConfig := {| Retry.MaxRetries := 0; Retry.RetryInterval := 0 |}; loops := []; stopped := false |}.
Definition demo_checker : HealthChecker (S := DataSourceManager bool * nat) :=
  RegisterComponent "core" (fun _ => None) (NewHealthChecker "1.0" "today").
Definition demo_request : Req :=
  {| base := {| Auth.Path := "/ready"; Auth.HttpMethod := "GET"; Auth.RemoteAddr := "10.0.0.7"; Auth.Header _ := EmptyString;
                Auth.Identity := None; Auth.BatchCount := None |};
     Body := EmptyString; RequestID := EmptyString; MaxBytes := None; Deadline := None; Now := 0; Random := None |}.
Definition demo_ready : Response * (DataSourceManager bool * nat) :=
  ReadinessCheck (DSO := demo_ops) fst snd (fun m w _ => (m, w)) (fun _ => "down") ["b"; "a"] demo_checker demo_request [] (demo_manager, O).
(** The request answers 200 and swaps the two: [a] can be used, [b] no longer. *)
Lemma health_endpoints_witness :
  Http.Status demo_ready.1 = 200
  /\ (exists name ds, Get demo_ready.2.1 name = Ok ds)
  /\ Get demo_ready.2.1 "a" = Ok true
  /\ match Get demo_ready.2.1 "b" with Ok _ => False | Err _ => True end.
Proof.
  pose proof (health_endpoints (DSO := demo_ops) fst snd (fun m w _ => (m, w)) (fun _ => "down") demo_checker ["b"; "a"]
    demo_request [] (demo_manager, O) ltac:(reflexivity)) as H.
  change (ReadinessCheck _ _ _ _ _ _ _ _ _) with demo_ready in H.
  specialize (H ltac:(split; [vm_compute; reflexivity|constructor])).
  specialize (H ltac:(repeat constructor; set_solver)).
  specialize (H ltac:(intros n; cbn [datasources demo_manager fst]; rewrite dom_insert_L, dom_singleton_L; set_solver)).
  assert (E200 : Http.Status demo_ready.1 = 200) by (vm_compute; reflexivity).
  split; [exact E200|]. destruct demo_ready as [resp s'] eqn:E. cbn [fst snd] in *. destruct H as (_ & H & _).
  split; [exact (proj1 H E200)|]. assert (s' = demo_ready.2) as -> by (by rewrite E). split; vm_compute; done.
Defined.
