(* ===== verification/Middleware.v ===== *)
(** * internal/middleware: the middlewares around the handlers

    Each middleware is a function on handlers, composed the way [router.Use] composes them;
    the decisions of the authenticating ones are those of [Auth]. *)
From S2P Require Import Prelude GoStrings Values GoConv FuncMap Json.
From S2P Require Import RateLimit Auth Http.

(** ** requestid.go *)

Definition HeaderXRequestID : string := "X-Request-ID".
Definition hex_byte (b : Z) : string := hex_pad 2 (Z.to_N b) EmptyString.
Definition hex_bytes (l : list Z) : string := fold_right (fun b s => hex_byte b +:+ s) EmptyString l.
(** The sixteen bytes of [rand.Read] with the version and variant bits; [None] on its error. *)
Definition generateUUIDv4 (rnd : option (list Z)) : option string :=
  u ← rnd;
  let u := <[6%nat := Z.lor (Z.land (nth 6 u 0) 15) 64]> u in
  let u := <[8%nat := Z.lor (Z.land (nth 8 u 0) 63) 128]> u in
  Some (hex_bytes (take 4 u) +:+ "-" +:+ hex_bytes (take 2 (drop 4 u)) +:+ "-" +:+ hex_bytes (take 2 (drop 6 u))
        +:+ "-" +:+ hex_bytes (take 2 (drop 8 u)) +:+ "-" +:+ hex_bytes (take 6 (drop 10 u))).

Section Middleware.
Context {St : Type}.
Notation Handler := (Handler St).
Notation Middleware := (Middleware St).

Definition RequestIDMiddleware : Middleware := fun next r h s =>
  let given := Header (base r) HeaderXRequestID in
  match (if String.eqb given EmptyString then generateUUIDv4 (Random r) else Some given) with
  | None => next r h s
  | Some requestID => next (with_request_id requestID r) (set_header HeaderXRequestID requestID h) s
  end.

(** ** bodylimit.go *)

Definition defaultMaxBodySize : Z := 2 ^ 20.

Section Sizes.
Context {FT : FloatText} {UT : UnicodeTables}.

Definition size_multipliers : list (string * Z) :=
  [("TB", 2 ^ 40); ("GB", 2 ^ 30); ("MB", 2 ^ 20); ("KB", 2 ^ 10); ("B", 1)].
Definition parse_suffixed (numStr : string) (multiplier : Z) : result Z :=
  match parse_float numStr with
  | None => Err (Errorf (Sprintf "invalid numeric value %q: %w" [AStr numStr]))
  | Some val =>
      if SFltb val (S754_zero false)
      then Err (Errorf (Sprintf "size must be non-negative, got %v" [AVal (VFloat64 val)]))
      else Ok (int_of_float (float_mul val (float_of_int multiplier)))
  end.
Fixpoint parse_size_loop (s : string) (ms : list (string * Z)) : result Z :=
  match ms with
  | (suffix, multiplier) :: ms' =>
      if has_suffix suffix s then parse_suffixed (trim_space (cut_suffix suffix s)) multiplier
      else parse_size_loop s ms'
  | [] =>
      match parse_int s with
      | None => Err (Errorf (Sprintf "invalid size string %q: %w" [AStr s]))
      | Some val =>
          if val <? 0 then Err (Errorf (Sprintf "size must be non-negative, got %d" [AInt val])) else Ok val
      end
  end.
Definition ParseSizeString (s : string) : result Z :=
  let s := trim_space s in
  if String.eqb s EmptyString then Err (Errorf (Sprintf "empty size string" []))
  else parse_size_loop (to_upper s) size_multipliers.

(** A configured size if it is valid and positive, the default otherwise. *)
Definition size_or (dflt : Z) (sizeStr : string) : Z :=
  if String.eqb sizeStr EmptyString then dflt
  else match ParseSizeString sizeStr with
       | Ok parsed => if 0 <? parsed then parsed else dflt
       | Err _ => dflt
       end.
Definition BodyLimit (sizeStr : string) : Middleware := fun next r h s =>
  next (with_max_bytes (size_or defaultMaxBodySize sizeStr) r) h s.

Definition WriteBodyLimitError (r : Req) (h : headers) : Response :=
  write_json 413 (error_body ErrValidationPayloadTooLarge "request body exceeds maximum allowed size" (RequestID r)) h.

(** ** compression.go *)

Record CompressionConfig := { CompressionEnabled : bool; MinSize : string }.
Definition defaultMinCompressSize : Z := 2 ^ 10.
Definition acceptsGzip (r : Request) : bool := contains "gzip" (Header r "Accept-Encoding").
(** What becomes of a buffered response; [gzip] is compress/gzip's writer. *)
Definition compress_response (gzip : string -> string) (minSize : Z) (resp : Response) : Response :=
  if minSize <=? slen (RespBody resp)
  then {| Status := Status resp;
          RespHeaders := del_header "Content-Length" (set_header "Content-Encoding" "gzip" (RespHeaders resp));
          RespBody := gzip (RespBody resp) |}
  else resp.
Definition Compression (gzip : string -> string) (cfg : CompressionConfig) : Middleware := fun next =>
  if negb (CompressionEnabled cfg) then next
  else
    let minSize := size_or defaultMinCompressSize (MinSize cfg) in
    fun r h s =>
      if negb (acceptsGzip (base r)) then next r h s
      else let '(resp, s') := next r h s in (compress_response gzip minSize resp, s').
End Sizes.

(** ** cors.go *)

Record CORSConfig := {
  CORSEnabled : bool;
  AllowedOrigins : list string;
  AllowedMethods : list string;
  AllowedHeaders : list string;
}.
Definition defaultMaxAge : string := "86400".
Definition CORS (cfg : CORSConfig) : Middleware := fun next =>
  if negb (CORSEnabled cfg) then next
  else
    let methods := join ", " (AllowedMethods cfg) in
    let hdrs := join ", " (AllowedHeaders cfg) in
    let allowAll := str_in (AllowedOrigins cfg) "*" in
    fun r h s =>
      let origin := Header (base r) "Origin" in
      if String.eqb origin EmptyString then next r h s
      else if negb (allowAll || str_in (AllowedOrigins cfg) origin) then next r h s
      else
        let h := set_header "Access-Control-Allow-Origin" (if allowAll then "*" else origin) h in
        if String.eqb (HttpMethod (base r)) "OPTIONS"
        then ({| Status := 204;
                 RespHeaders := set_header "Access-Control-Max-Age" defaultMaxAge
                                  (set_header "Access-Control-Allow-Headers" hdrs
                                     (set_header "Access-Control-Allow-Methods" methods h));
                 RespBody := EmptyString |}, s)
        else next r h s.

(** ** csrf.go and auth_middleware.go *)

Definition writeCSRFError (r : Req) (statusCode : Z) (code message : string) (h : headers) : Response :=
  write_json statusCode (error_body code message (RequestID r)) h.
Definition csrf_message (code : string) : string :=
  if String.eqb code "VALIDATION_GET_QUERY_DISABLED" then "GET queries are disabled in production mode"
  else "Content-Type must be application/json".
Definition CSRFMiddleware (allowGetQueries : bool) (mode : string) : Middleware := fun next r h s =>
  match CSRFProtection allowGetQueries mode (base r) with
  | inl _ => next r h s
  | inr (status, code) => (writeCSRFError r status code (csrf_message code) h, s)
  end.

Definition writeAuthError (r : Req) (err : Auth.AuthError) (h : headers) : Response :=
  write_json (AuthStatus err) (error_body (AuthCode err) (AuthMessage err) (RequestID r)) h.
Definition AuthenticationMiddleware (authenticate : Z -> Request -> AuthIdentity + Auth.AuthError) : Middleware :=
  fun next r h s =>
    if isPublicEndpoint (Path (base r)) then next r h s
    else match authenticate (Now r) (base r) with
         | inr err => (writeAuthError r err h, s)
         | inl id => next (with_base (with_identity id (base r)) r) h s
         end.

(** ** concurrency.go: [sem] is the number of taken slots in the state *)

Definition writeServiceUnavailable (h : headers) : Response :=
  write_json 503
    (graphql_error_body ErrServiceUnavailable "server is at capacity, please retry later" "INTERNAL")
    (set_header "Retry-After" "5" h).
Definition MaxConcurrentRequests (sem : St -> Z) (set_sem : Z -> St -> St) (maxConcurrent : Z) : Middleware :=
  fun next =>
    if maxConcurrent <=? 0 then next
    else fun r h s =>
      if isPublicEndpoint (Path (base r)) then next r h s
      else if sem s <? maxConcurrent then
        let '(resp, s') := next r h (set_sem (sem s + 1) s) in (resp, set_sem (sem s' - 1) s')
      else (writeServiceUnavailable h, s).

(** ** ratelimit.go *)

Definition extractRateLimitKey (r : Request) (clientIP : Request -> string) : string :=
  match Identity r with
  | Some identity =>
      if String.eqb (Method identity) "apikey" then "apikey:" +:+ Subject identity
      else if String.eqb (Method identity) "jwt" then "jwt:" +:+ Subject identity
      else "ip:" +:+ clientIP r
  | None => "ip:" +:+ clientIP r
  end.
Definition extractBatchCount (r : Request) : Z :=
  match BatchCount r with Some count => if 0 <? count then count else 1 | None => 1 end.
Definition setRateLimitHeaders (res : RateLimitResult) (h : headers) : headers :=
  set_header "X-RateLimit-Reset" (itoa (ResetAt res / second))
    (set_header "X-RateLimit-Remaining" (itoa (Remaining res))
       (set_header "X-RateLimit-Limit" (itoa (Limit res)) h)).
Definition writeRateLimitError (r : Req) (h : headers) : Response :=
  write_json 429 (error_body ErrRateLimitExceeded "rate limit exceeded, retry after reset" (RequestID r)) h.
(** [clientIP] is the extractor's, or the remote address without its port. *)
Definition RateLimitMiddleware {L} {RL : RateLimiter L} (lim : St -> L) (set_lim : L -> St -> St)
    (clientIP : Request -> string) : Middleware := fun next r h s =>
  if isPublicEndpoint (Path (base r)) then next r h s
  else
    let '(result, l') := Allow (Now r) (extractRateLimitKey (base r) clientIP) (extractBatchCount (base r)) (lim s) in
    let s := set_lim l' s in
    match result with
    | Err _ => next r h s
    | Ok res =>
        let h := setRateLimitHeaders res h in
        if negb (Allowed res) then (writeRateLimitError r h, s) else next r h s
    end.

(** ** cmd/server/helpers.go *)

Definition brute_force_body : string :=
  json_fields [("error", json_fields [("code", json_string ErrAuthBruteForceBlocked);
    ("message", json_string "too many authentication failures"); ("classification", json_string "AUTH")])].
Definition newAuthFailureLimiterMiddleware (afl : St -> AuthFailureLimiter) (clientIP : Request -> string)
    : Middleware := fun next r h s =>
  if negb (Check_ (Now r) (afl s) (clientIP (base r)))
  then ({| Status := 429; RespHeaders := set_header "Content-Type" "application/json" h; RespBody := brute_force_body |}, s)
  else next r h s.
End Middleware.

(** ** Compression is transparent *)

(** What a client makes of a response: a body marked gzip is decompressed, once. *)
Definition decode (gunzip : string -> string) (resp : Response) : string :=
  match assoc "Content-Encoding" (RespHeaders resp) with
  | Some e => if String.eqb e "gzip" then gunzip (RespBody resp) else RespBody resp
  | None => RespBody resp
  end.

Section CompressionFacts.
Context {St : Type} {FT : FloatText} {UT : UnicodeTables}.
Context (gzip gunzip : string -> string) (gunzip_gzip : forall b, gunzip (gzip b) = b).

Lemma del_header_other k k' h : k <> k' -> assoc k (del_header k' h) = assoc k h.
Proof.
  intros Hne. induction h as [|[k0 v] h IH]; [done|]. unfold del_header in *. simpl.
  destruct (String.eqb_spec k0 k') as [->|?]; simpl; [by rewrite decide_False by done|].
  destruct (decide (k0 = k)); [done|apply IH].
Qed.
Lemma set_header_eq k v h : assoc k (set_header k v h) = Some v.
Proof. unfold set_header. rewrite assoc_set_lookup. by rewrite decide_True. Qed.

(** C35: compression changes neither the status nor the effect of the handler, and a client that
    decompresses gets the handler's body, whatever the size and the configuration.  A body the
    handler has already compressed is compressed again under the one header: from the minimal
    size on, the client decompresses it once and is left with compressed text. *)
Theorem compression_transparent cfg (next : Handler St) r h s :
  let '(resp, s') := next r h s in
  let '(out, s2) := Compression gzip cfg next r h s in
  s2 = s' /\ Status out = Status resp
  /\ (assoc "Content-Encoding" (RespHeaders resp) = None -> decode gunzip out = RespBody resp)
  /\ (forall b, assoc "Content-Encoding" (RespHeaders resp) = Some "gzip" -> RespBody resp = gzip b ->
      CompressionEnabled cfg = true -> acceptsGzip (base r) = true ->
      size_or defaultMinCompressSize (MinSize cfg) <= slen (RespBody resp) ->
      decode gunzip out = gzip b).
Proof using Type gunzip_gzip.
  unfold Compression. destruct (next r h s) as [resp s'] eqn:En.
  assert (Hplain : assoc "Content-Encoding" (RespHeaders resp) = None -> decode gunzip resp = RespBody resp)
    by (unfold decode; by intros ->).
  destruct (CompressionEnabled cfg); cbn [negb]; [|rewrite En; by repeat split].
  destruct (acceptsGzip (base r)); cbn [negb]; [|rewrite En; by repeat split].
  rewrite En. unfold compress_response. destruct (size_or _ _ <=? slen (RespBody resp)) eqn:Hsize.
  - assert (Hd : forall hs, decode gunzip {| Status := Status resp; RespBody := gzip (RespBody resp);
        RespHeaders := del_header "Content-Length" (set_header "Content-Encoding" "gzip" hs) |} = RespBody resp).
    { intros hs. unfold decode. cbn [RespHeaders RespBody]. rewrite del_header_other, set_header_eq by done. apply gunzip_gzip. }
    repeat split; [done|]. intros b _ Hb _ _ _. by rewrite Hd.
  - repeat split; [done|]. intros b _ _ _ _ Hs. lia.
Qed.
End CompressionFacts.

(** An encoder for the demonstration, and the handler of /metrics, which compresses itself. *)
Definition demo_gzip (b : string) : string := "gz:" +:+ b.
Definition demo_gunzip (b : string) : string := str_drop 3 b.
Definition demo_metrics : Handler unit := fun _ h s =>
  ({| Status := 200; RespHeaders := set_header "Content-Encoding" "gzip" h; RespBody := demo_gzip "go_goroutines 12" |}, s).
Definition demo_floats : FloatText := {| parse_float _ := None; format_float _ := EmptyString |}.
Definition demo_unicode : UnicodeTables := {| uni_to_upper s := s; uni_to_lower s := s |}.
Definition demo_req : Req :=
  {| base := {| Path := "/metrics"; HttpMethod := "GET"; RemoteAddr := "10.0.0.7:5000";
                Header k := if String.eqb k "Accept-Encoding" then "gzip" else EmptyString;
                Identity := None; BatchCount := None |};
     Body := EmptyString; RequestID := EmptyString; MaxBytes := None; Deadline := None; Now := 0; Random := None |}.
Lemma compression_transparent_witness :
  let out := (Compression (FT := demo_floats) (UT := demo_unicode) demo_gzip
                {| CompressionEnabled := true; MinSize := "16" |} demo_metrics demo_req [] tt).1 in
  decode demo_gunzip out = demo_gzip "go_goroutines 12" /\ demo_gzip "go_goroutines 12" <> "go_goroutines 12".
Proof.
  pose proof (compression_transparent (FT := demo_floats) (UT := demo_unicode) demo_gzip demo_gunzip
    (fun b => eq_refl) {| CompressionEnabled := true; MinSize := "16" |} demo_metrics demo_req [] tt) as H.
  split; [|discriminate]. refine (proj2 (proj2 (proj2 H)) "go_goroutines 12" _ _ _ _ _); [reflexivity..|].
  vm_compute. discriminate.
Defined.
