(* ===== verification/Server.v ===== *)
(** * cmd/server/main.go and internal/server: routes, the middleware chain, depth limit, batches

    The server's state is what its middlewares and handlers share: the taken slots of the
    concurrency limiter, the rate limiter, the failure table and the state of the application.
    The chi router is the class [Mux]: it calls the handler registered for the method and path
    of a request. *)
From S2P Require Import Prelude GoStrings Values GoConv FuncMap Json.
From S2P Require Import RateLimit Auth Http Middleware.

Record server_state (L A : Type) := {
  sem_used : Z;
  rate_limiter : L;
  auth_failures : AuthFailureLimiter;
  app : A;
}.
Arguments sem_used {L A} _.
Arguments rate_limiter {L A} _.
Arguments auth_failures {L A} _.
Arguments app {L A} _.
Arguments Build_server_state {L A} _ _ _ _.

Record route (S : Type) := { r_method : string; r_path : string; r_handler : Handler S }.
Arguments Build_route {S} _ _ _.
Arguments r_method {S} _.
Arguments r_path {S} _.
Arguments r_handler {S} _.
Class Mux := {
  mux : forall S, list (route S) -> Handler S;
  mux_found S (rs : list (route S)) rt r h s :
    NoDup (map (fun rt => (r_method rt, r_path rt)) rs) -> rt ∈ rs ->
    HttpMethod (base r) = r_method rt -> Path (base r) = r_path rt -> mux S rs r h s = r_handler rt r h s;
}.
Arguments mux {Mux S} _ _ _ _.

Section Server.
Context {L A : Type} {RL : RateLimiter L} {FT : FloatText} {UT : UnicodeTables} {CM : Mux}.
#[local] Set Default Proof Using "Type".
Notation S := (server_state L A).
Notation Handler := (Handler S).
Notation Middleware := (Middleware S).

Definition set_sem (n : Z) (s : S) : S := Build_server_state n (rate_limiter s) (auth_failures s) (app s).
Definition set_limiter (l : L) (s : S) : S := Build_server_state (sem_used s) l (auth_failures s) (app s).
Definition set_app (a : A) (s : S) : S := Build_server_state (sem_used s) (rate_limiter s) (auth_failures s) a.
(** A handler of the application: it acts on its own state only. *)
Definition app_handler (g : Req -> headers -> A -> Response * A) : Handler := fun r h s =>
  let '(resp, a) := g r h (app s) in (resp, set_app a s).

(** What main.go builds the chain from: the configuration and what it was made into. *)
Record chain_config := {
  MaxRequestBodySize : string;
  MaxConcurrent : Z;
  cors : CORSConfig;
  AllowGetQueries : bool;
  Mode : string;
  authenticator : option (Z -> Request -> AuthIdentity + Auth.AuthError);
  auth_failure_enabled : bool;
  client_ip : Request -> string;      (** [ExtractClientIP], or the address without port *)
  compression : CompressionConfig;
  gzip_writer : string -> string;
}.

(** [router.Use] in the order of main.go: the first is the outermost. *)
Definition middleware_chain (c : chain_config) : list Middleware :=
  [RequestIDMiddleware;
   BodyLimit (MaxRequestBodySize c);
   MaxConcurrentRequests sem_used set_sem (MaxConcurrent c);
   CORS (cors c);
   CSRFMiddleware (AllowGetQueries c) (Mode c)]
  ++ match authenticator c with Some a => [AuthenticationMiddleware a] | None => [] end
  ++ (if auth_failure_enabled c then [newAuthFailureLimiterMiddleware auth_failures (client_ip c)] else [])
  ++ [RateLimitMiddleware rate_limiter set_limiter (client_ip c);
      Compression (gzip_writer c) (compression c)].
Definition compose (ms : list Middleware) (h : Handler) : Handler := foldr (fun m next => m next) h ms.
Definition chain (c : chain_config) : Middleware := compose (middleware_chain c).

(** [WithRequestTimeout]. *)
Definition WithRequestTimeout (RequestTimeout : Z) (next : Handler) : Handler := fun r h s =>
  let timeout := if RequestTimeout <=? 0 then 30 * second else RequestTimeout in
  next (with_deadline (Now r + timeout) r) h s.

(** The handlers main.go registers. *)
Record handlers := {
  gqlHandler : Handler;
  LivenessCheck : Handler;
  ReadinessCheck : Handler;
  metricsHandler : Handler;
  playgroundHandler : Handler;
}.
Definition redirect_playground : Handler := fun _ h s =>
  ({| Status := 302; RespHeaders := set_header "Location" "/playground" h; RespBody := EmptyString |}, s).
Definition main_routes (c : chain_config) (timeout : Z) (hs : handlers) : list (route S) :=
  [Build_route "GET" "/health" (LivenessCheck hs);
   Build_route "GET" "/ready" (ReadinessCheck hs);
   Build_route "GET" "/metrics" (metricsHandler hs);
   Build_route "POST" "/graphql" (WithRequestTimeout timeout (gqlHandler hs))]
  ++ (if AllowGetQueries c || String.eqb (Mode c) "development"
      then [Build_route "GET" "/graphql" (WithRequestTimeout timeout (gqlHandler hs))] else [])
  ++ (if String.eqb (Mode c) "development"
      then [Build_route "GET" "/" redirect_playground; Build_route "GET" "/playground" (playgroundHandler hs)] else []).
(** The server main.go starts. *)
Definition serve (c : chain_config) (timeout : Z) (hs : handlers) : Handler := chain c (mux (main_routes c timeout hs)).
Fixpoint serve_seq (h : Handler) (rs : list Req) (s : S) : list Response * S :=
  match rs with
  | [] => ([], s)
  | r :: rs' => let '(resp, s1) := h r [] s in let '(resps, s2) := serve_seq h rs' s1 in (resp :: resps, s2)
  end.

(** ** What the chain lets through *)

(** What a middleware does to a finished response leaves its status, the application and the
    failure table alone. *)
Definition gentle (post : Response * S -> Response * S) : Prop := forall x,
  Status (post x).1 = Status x.1 /\ app (post x).2 = app x.2 /\ auth_failures (post x).2 = auth_failures x.2.
Definition refusal_statuses : list Z := [204; 503; 403; 415; 401; 429].
Definition untouched (s s' : S) : Prop := app s' = app s /\ auth_failures s' = auth_failures s.
(** A middleware answers by itself, without the application, or calls the handler behind once,
    with a request, headers and a state that satisfy [P]. *)
Definition gate (m : Middleware) (r : Req) (h : headers) (s : S) (P : Req -> headers -> S -> Prop) : Prop :=
  (exists resp s', (forall next, m next r h s = (resp, s')) /\ Status resp ∈ refusal_statuses /\ untouched s s')
  \/ (exists r' h' s' post, (forall next, m next r h s = post (next r' h' s')) /\ gentle post /\ untouched s s' /\ P r' h' s').

Lemma gate_refuse m r h s P resp s' : (forall next, m next r h s = (resp, s')) ->
  Status resp ∈ refusal_statuses -> untouched s s' -> gate m r h s P.
Proof. intros. left. eauto. Qed.
Lemma gate_pass m r h s (P : _ -> _ -> _ -> Prop) r' h' s' : (forall next, m next r h s = next r' h' s') ->
  untouched s s' -> P r' h' s' -> gate m r h s P.
Proof. intros E Hu HP. right. exists r', h', s', id. split; [exact E|]. split; [by intros x|done]. Qed.

Lemma gate_comp (m1 m2 : Middleware) r h s P1 P2 : gate m1 r h s P1 ->
  (forall r' h' s', P1 r' h' s' -> gate m2 r' h' s' P2) ->
  gate (fun next => m1 (m2 next)) r h s P2.
Proof.
  intros [(resp & s' & E & Hr)|(r1 & h1 & s1 & post1 & E1 & G1 & [U1 U1'] & HP1)] H2; [left; eauto|].
  destruct (H2 _ _ _ HP1) as [(resp & s' & E & Hst & [U U'])|(r2 & h2 & s2 & post2 & E2 & G2 & [U2 U2'] & HP2)].
  - left. exists (post1 (resp, s')).1, (post1 (resp, s')).2. destruct (G1 (resp, s')) as (Ha & Hb & Hc).
    split; [intros next; by rewrite E1, E, <- surjective_pairing|]. rewrite Ha. split; [done|]. split; simpl in *; congruence.
  - right. exists r2, h2, s2, (fun x => post1 (post2 x)). split; [intros next; by rewrite E1, E2|].
    split; [|split; [split; congruence|done]]. intros x. destruct (G1 (post2 x)) as (-> & -> & ->). apply G2.
Qed.

Lemma gate_cons m ms r h s P1 P2 : gate m r h s P1 -> (forall r' h' s', P1 r' h' s' -> gate (compose ms) r' h' s' P2) ->
  gate (compose (m :: ms)) r h s P2.
Proof. apply gate_comp. Qed.
Lemma gate_nil r h s (P : _ -> _ -> _ -> Prop) : P r h s -> gate (compose []) r h s P.
Proof. by eapply gate_pass. Qed.

(** Shows how a middleware goes on under the conditions of the context. *)
Ltac by_conditions M :=
  intros next; unfold M; cbv beta zeta;
  repeat (match goal with
          | E : ?x = true |- context [?x] => rewrite E
          | E : ?x = false |- context [?x] => rewrite E
          | E : ?x = Some _ |- context [?x] => rewrite E
          | E : ?x = None |- context [?x] => rewrite E
          | E : ?x = inl _ |- context [?x] => rewrite E
          | E : ?x = inr _ |- context [?x] => rewrite E
          | E : ?x = (_, _) |- context [?x] => rewrite E
          end; cbn [negb]; cbv beta zeta);
  reflexivity.
Ltac passes M := eapply gate_pass; [by_conditions M|done|try done].
Ltac refuses M := eapply gate_refuse; [by_conditions M|simpl; set_solver|done].

(** What is kept of the request by every middleware but the authenticating one. *)
Definition same_request (r r' : Req) : Prop := base r' = base r /\ Body r' = Body r /\ Now r' = Now r.

Lemma gate_request_id r h s : gate RequestIDMiddleware r h s (fun r' _ s' => same_request r r' /\ s' = s).
Proof.
  destruct (if String.eqb (Header (base r) HeaderXRequestID) EmptyString then generateUUIDv4 (Random r)
            else Some (Header (base r) HeaderXRequestID)) as [id|] eqn:E; passes @RequestIDMiddleware.
Qed.
Lemma gate_body_limit c r h s : gate (BodyLimit (MaxRequestBodySize c)) r h s
  (fun r' _ s' => same_request r r' /\ MaxBytes r' = Some (size_or defaultMaxBodySize (MaxRequestBodySize c)) /\ s' = s).
Proof. passes @BodyLimit. Qed.

(** The slot a request holds while its handler runs. *)
Definition slot (c : chain_config) (r : Req) (s s' : S) : Prop :=
  (0 < MaxConcurrent c /\ isPublicEndpoint (Path (base r)) = false /\ sem_used s' = sem_used s + 1 /\ sem_used s' <= MaxConcurrent c
   \/ (MaxConcurrent c <= 0 \/ isPublicEndpoint (Path (base r)) = true) /\ sem_used s' = sem_used s)
  /\ rate_limiter s' = rate_limiter s /\ untouched s s'.
Lemma gate_concurrent c r h s : gate (MaxConcurrentRequests sem_used set_sem (MaxConcurrent c)) r h s
  (fun r' _ s' => r' = r /\ slot c r s s').
Proof.
  unfold slot. destruct (MaxConcurrent c <=? 0) eqn:Em; [passes @MaxConcurrentRequests; split; [done|]; split; [right; lia|done]|].
  destruct (isPublicEndpoint (Path (base r))) eqn:Ep; [passes @MaxConcurrentRequests; split; [done|]; split; [right; auto|done]|].
  destruct (sem_used s <? MaxConcurrent c) eqn:Es; [|refuses @MaxConcurrentRequests].
  right. exists r, h, (set_sem (sem_used s + 1) s), (fun x => (x.1, set_sem (sem_used x.2 - 1) x.2)).
  split; [intros next; unfold MaxConcurrentRequests; rewrite Em, Ep, Es; by destruct (next r h _)|].
  split; [by intros [? ?]|]. split; [done|]. split; [done|]. split; [left; simpl; lia|done].
Qed.
Lemma gate_cors c r h s : gate (CORS (cors c)) r h s (fun r' _ s' => r' = r /\ s' = s).
Proof.
  destruct (CORSEnabled (cors c)) eqn:E1; [|passes @CORS].
  destruct (String.eqb (Header (base r) "Origin") EmptyString) eqn:E2; [passes @CORS|].
  destruct (str_in (AllowedOrigins (cors c)) "*" || str_in (AllowedOrigins (cors c)) (Header (base r) "Origin")) eqn:E3; [|passes @CORS].
  destruct (String.eqb (HttpMethod (base r)) "OPTIONS") eqn:E4; [refuses @CORS|passes @CORS].
Qed.
Lemma gate_csrf c r h s : gate (CSRFMiddleware (AllowGetQueries c) (Mode c)) r h s (fun r' _ s' => r' = r /\ s' = s).
Proof.
  destruct (CSRFProtection (AllowGetQueries c) (Mode c) (base r)) as [b|[st code]] eqn:E; [passes @CSRFMiddleware|].
  eapply gate_refuse; [by_conditions @CSRFMiddleware| |done]. simpl. revert E. unfold CSRFProtection.
  repeat case_match; intros; simplify_eq; set_solver.
Qed.

Definition authenticated (a : Z -> Request -> AuthIdentity + Auth.AuthError) (r r' : Req) : Prop :=
  exists id, a (Now r) (base r) = inl id /\ r' = with_base (with_identity id (base r)) r.
(** Authenticators refuse with 401 or 403. *)
Definition refuses_properly (a : Z -> Request -> AuthIdentity + Auth.AuthError) : Prop :=
  forall now r e, a now r = inr e -> AuthStatus e = 401 \/ AuthStatus e = 403.
Lemma gate_auth a r h s : refuses_properly a -> isPublicEndpoint (Path (base r)) = false ->
  gate (AuthenticationMiddleware a) r h s (fun r' _ s' => authenticated a r r' /\ s' = s).
Proof.
  intros Ha Ep. destruct (a (Now r) (base r)) as [id|e] eqn:E.
  - passes @AuthenticationMiddleware. split; [by exists id|done].
  - eapply gate_refuse; [by_conditions @AuthenticationMiddleware| |done].
    simpl. destruct (Ha _ _ _ E) as [-> | ->]; set_solver.
Qed.
Lemma gate_failures c r h s : gate (newAuthFailureLimiterMiddleware auth_failures (client_ip c)) r h s
  (fun r' _ s' => Check_ (Now r) (auth_failures s) (client_ip c (base r)) = true /\ r' = r /\ s' = s).
Proof.
  destruct (Check_ (Now r) (auth_failures s) (client_ip c (base r))) eqn:E;
    [passes @newAuthFailureLimiterMiddleware|refuses @newAuthFailureLimiterMiddleware].
Qed.

(** The rate limiter lets the request through, or fails to answer. *)
Definition within_rate (c : chain_config) (r : Req) (s s' : S) : Prop := exists res l',
  Allow (Now r) (extractRateLimitKey (base r) (client_ip c)) (extractBatchCount (base r)) (rate_limiter s) = (res, l')
  /\ match res with Ok x => Allowed x = true | Err _ => True end /\ s' = set_limiter l' s.
Lemma gate_rate c r h s : isPublicEndpoint (Path (base r)) = false ->
  gate (RateLimitMiddleware rate_limiter set_limiter (client_ip c)) r h s (fun r' _ s' => r' = r /\ within_rate c r s s').
Proof.
  intros Ep. unfold within_rate.
  destruct (Allow (Now r) (extractRateLimitKey (base r) (client_ip c)) (extractBatchCount (base r)) (rate_limiter s))
    as [[res|e] l'] eqn:E; [destruct (Allowed res) eqn:Ea|].
  - passes @RateLimitMiddleware. split; [done|]. by exists (Ok res), l'.
  - refuses @RateLimitMiddleware.
  - passes @RateLimitMiddleware. split; [done|]. by exists (Err e), l'.
Qed.
Lemma gate_compression c r h s : gate (Compression (gzip_writer c) (compression c)) r h s (fun r' h' s' => r' = r /\ s' = s).
Proof.
  destruct (CompressionEnabled (compression c)) eqn:E1; [|passes @Compression].
  destruct (acceptsGzip (base r)) eqn:E2; [|passes @Compression].
  right. exists r, h, s, (fun x => (compress_response (gzip_writer c) (size_or defaultMinCompressSize (MinSize (compression c))) x.1, x.2)).
  split; [intros next; unfold Compression; rewrite E1; cbn [negb]; cbv beta zeta; rewrite E2; cbn [negb]; by destruct (next r h s)|].
  split; [|done]. intros x. unfold compress_response. simpl. by case_match.
Qed.

(** The path of a request that reaches the application. *)
Definition admitted (c : chain_config) (r : Req) (s : S) (r' : Req) (s' : S) : Prop :=
  MaxBytes r' = Some (size_or defaultMaxBodySize (MaxRequestBodySize c)) /\ Body r' = Body r /\ Now r' = Now r
  /\ match authenticator c with
     | Some a => exists id, a (Now r) (base r) = inl id /\ base r' = with_identity id (base r)
     | None => base r' = base r
     end
  /\ (0 < MaxConcurrent c -> sem_used s < MaxConcurrent c)
  /\ (auth_failure_enabled c = true -> Check_ (Now r) (auth_failures s) (client_ip c (base r')) = true)
  /\ exists s1, rate_limiter s1 = rate_limiter s /\ within_rate c r' s1 s'.

(** C9: what is behind the middleware chain.  A request for a path that is not public is either
    answered by the chain alone, with one of its refusals and without touching the application,
    or it reaches the router exactly once; then it carries the identity its credentials
    authenticate, its body is limited to the configured size, a slot of the concurrency
    limiter was free, its address is not banned and the rate limiter let its key through (or
    could not answer); what the chain does to the response afterwards keeps its status. *)
Theorem chain_gate c r h s :
  isPublicEndpoint (Path (base r)) = false ->
  (forall a, authenticator c = Some a -> refuses_properly a) ->
  gate (chain c) r h s (fun r' _ s' => admitted c r s r' s').
Proof.
  intros Hp Ha. unfold chain, middleware_chain. cbn [app].
  eapply gate_cons; [apply gate_request_id|]. intros r1 h1 s1 [(Hb1 & Hbo1 & Hn1) ->].
  eapply gate_cons; [apply gate_body_limit|]. intros r2 h2 s2 [(Hb2 & Hbo2 & Hn2) [Hm ->]].
  eapply gate_cons; [apply gate_concurrent|]. intros ? h3 s3 [-> (Hslot & Hrl & Happ & Hafl)].
  eapply gate_cons; [apply gate_cors|]. intros ? h4 ? [-> ->].
  eapply gate_cons; [apply gate_csrf|]. intros ? h5 ? [-> ->].
  assert (Hadm : forall r6 r7 s7, Path (base r6) = Path (base r) -> Body r6 = Body r2 -> Now r6 = Now r2 -> MaxBytes r6 = MaxBytes r2 ->
            match authenticator c with
            | Some a => exists id, a (Now r) (base r) = inl id /\ base r6 = with_identity id (base r)
            | None => base r6 = base r end ->
            (auth_failure_enabled c = true -> Check_ (Now r) (auth_failures s) (client_ip c (base r6)) = true) ->
            r7 = r6 -> within_rate c r6 s3 s7 -> admitted c r s r7 s7).
  { intros r6 r7 s7 _ Hbo Hn Hm6 Hid Hck -> Hw. split; [congruence|]. split; [congruence|]. split; [congruence|].
    split; [done|]. split; [|split; [done|by exists s3]]. intros Hmax.
    destruct Hslot as [(_ & _ & ? & ?)|[[?|Hpub] _]]; [lia|lia|]. rewrite Hb2, Hb1 in Hpub. congruence. }
  assert (Hrest : forall r6 h6, Path (base r6) = Path (base r) -> Body r6 = Body r2 -> Now r6 = Now r2 -> MaxBytes r6 = MaxBytes r2 ->
            match authenticator c with
            | Some a => exists id, a (Now r) (base r) = inl id /\ base r6 = with_identity id (base r)
            | None => base r6 = base r end ->
            gate (compose ((if auth_failure_enabled c then [newAuthFailureLimiterMiddleware auth_failures (client_ip c)] else [])
              ++ [RateLimitMiddleware rate_limiter set_limiter (client_ip c); Compression (gzip_writer c) (compression c)]))
              r6 h6 s3 (fun r' _ s' => admitted c r s r' s')).
  { intros r6 h6 Hpath Hbo Hn Hm6 Hid.
    assert (Hend : (auth_failure_enabled c = true -> Check_ (Now r) (auth_failures s) (client_ip c (base r6)) = true) ->
              forall h7, gate (compose [RateLimitMiddleware rate_limiter set_limiter (client_ip c); Compression (gzip_writer c) (compression c)])
                r6 h7 s3 (fun r' _ s' => admitted c r s r' s')).
    { intros Hck h7. eapply gate_cons; [apply gate_rate; congruence|]. intros ? h8 s8 [-> Hw].
      eapply gate_cons; [apply gate_compression|]. intros ? h9 ? [-> ->]. apply gate_nil. by eapply Hadm. }
    destruct (auth_failure_enabled c) eqn:Ef; [|by apply Hend].
    eapply gate_cons; [apply gate_failures|]. intros ? h7 ? (Hck & -> & ->). apply Hend. intros _.
    rewrite Hn, Hn2, Hn1, Hafl in Hck. done. }
  destruct (authenticator c) as [a|] eqn:Ea; [|apply Hrest; congruence].
  eapply gate_cons; [apply gate_auth; [by apply Ha|congruence]|]. intros r6 h6 ? [(id & Eid & ->) ->].
  rewrite Hn2, Hn1, Hb2, Hb1 in Eid. apply Hrest; simpl; try congruence. exists id. by rewrite Hb2, Hb1.
Qed.

(** ** Guessing credentials *)

(** A login attempt with credentials the authenticator refuses. *)
Definition failed_login (a : Z -> Request -> AuthIdentity + Auth.AuthError) (r : Req) : Prop :=
  Path (base r) = "/graphql" /\ HttpMethod (base r) = "POST"
  /\ contains "application/json" (Header (base r) "Content-Type") = true
  /\ exists e, a (Now r) (base r) = inr e /\ AuthStatus e = 401.

Lemma login_refused a r h : failed_login a r ->
  exists resp, Status resp = 401 /\ forall (next : Handler) s, AuthenticationMiddleware a next r h s = (resp, s).
Proof.
  intros (Hp & _ & _ & e & Ee & He). exists (writeAuthError r e h). split; [done|]. intros next s.
  unfold AuthenticationMiddleware. by rewrite Hp, Ee.
Qed.
Lemma csrf_login a c (next : Handler) r h s : failed_login a r -> CSRFMiddleware (AllowGetQueries c) (Mode c) next r h s = next r h s.
Proof.
  intros (Hp & Hm & Hc & _). unfold CSRFMiddleware, CSRFProtection. rewrite Hp, Hm, Hc. simpl. by rewrite andb_false_r.
Qed.
Lemma cors_login a c r h : failed_login a r ->
  exists h', forall (next : Handler) s, CORS (cors c) next r h s = next r h' s.
Proof.
  intros (_ & Hm & _). unfold CORS. destruct (negb (CORSEnabled _)); [by eexists|]. cbv zeta.
  destruct (String.eqb (Header (base r) "Origin") EmptyString); [by eexists|]. destruct (negb _); [by eexists|].
  rewrite Hm. simpl. by eexists.
Qed.
Lemma slot_login c (next : Handler) r h s resp :
  MaxConcurrent c <= 0 \/ sem_used s < MaxConcurrent c -> isPublicEndpoint (Path (base r)) = false ->
  (forall s0, next r h s0 = (resp, s0)) -> MaxConcurrentRequests sem_used set_sem (MaxConcurrent c) next r h s = (resp, s).
Proof.
  intros Hs Hp E. unfold MaxConcurrentRequests. destruct (MaxConcurrent c <=? 0) eqn:Em; [done|].
  rewrite Hp, (proj2 (Z.ltb_lt _ _)), E by lia. destruct s. unfold set_sem. simpl. f_equal. f_equal. lia.
Qed.

Lemma failed_login_refused c a (next : Handler) r h s : authenticator c = Some a -> failed_login a r ->
  MaxConcurrent c <= 0 \/ sem_used s < MaxConcurrent c ->
  exists resp, chain c next r h s = (resp, s) /\ Status resp = 401.
Proof.
  intros Ea Hf Hs.
  assert (Hchain : exists behind, chain c next r h s
            = RequestIDMiddleware (BodyLimit (MaxRequestBodySize c) (MaxConcurrentRequests sem_used set_sem (MaxConcurrent c)
                (CORS (cors c) (CSRFMiddleware (AllowGetQueries c) (Mode c) (AuthenticationMiddleware a behind))))) r h s)
    by (eexists; unfold chain, middleware_chain; rewrite Ea; reflexivity).
  destruct Hchain as [behind ->].
  assert (Hrid : exists r1 h1, base r1 = base r /\ Now r1 = Now r /\ forall n : Handler, RequestIDMiddleware n r h s = n r1 h1 s)
    by (unfold RequestIDMiddleware; destruct (if String.eqb _ _ then _ else _); do 2 eexists;
        (split; [|split; [|intros n; reflexivity]]); reflexivity).
  destruct Hrid as (r1 & h1 & Hb & Hn & ->). unfold BodyLimit. set (r2 := with_max_bytes _ r1).
  assert (Hf2 : failed_login a r2) by (unfold failed_login in *; simpl; by rewrite Hb, Hn).
  destruct (cors_login a c r2 h1 Hf2) as [h2 Hc]. destruct (login_refused a r2 h2 Hf2) as (resp & H401 & Hl).
  exists resp. split; [|done]. apply slot_login; [done| |].
  - destruct Hf2 as (-> & _). done.
  - intros s0. by rewrite Hc, (csrf_login a), Hl.
Qed.

(** C40: guessing credentials is not limited: however many attempts come in, from whatever
    address and at whatever instants, each one is answered 401 and leaves the server exactly
    as it was, so neither the failure limiter (also when it is enabled) nor the rate limiter
    ever refuses one. *)
Theorem failed_logins_unlimited c a (next : Handler) rs s : authenticator c = Some a ->
  MaxConcurrent c <= 0 \/ sem_used s < MaxConcurrent c -> Forall (failed_login a) rs ->
  map Status (serve_seq (chain c next) rs s).1 = repeat 401 (length rs) /\ (serve_seq (chain c next) rs s).2 = s.
Proof.
  intros Ea Hs. induction 1 as [|r rs Hr _ [IH1 IH2]]; [done|]. simpl.
  destruct (failed_login_refused c a next r [] s Ea Hr Hs) as (resp & -> & H401).
  destruct (serve_seq (chain c next) rs s). simpl in *. by rewrite H401, IH1.
Qed.
End Server.

(** ** A router and a server for the demonstrations *)

Definition not_found {S} : Handler S := fun _ h s =>
  ({| Status := 404; RespHeaders := h; RespBody := "404 page not found" |}, s).
Fixpoint exact_route {S} (rs : list (route S)) (r : Req) : Handler S :=
  match rs with
  | [] => not_found
  | rt :: rs' => if String.eqb (HttpMethod (base r)) (r_method rt) && String.eqb (Path (base r)) (r_path rt)
                 then r_handler rt else exact_route rs' r
  end.
Lemma exact_route_found {S} (rs : list (route S)) rt r :
  NoDup (map (fun rt => (r_method rt, r_path rt)) rs) -> rt ∈ rs ->
  HttpMethod (base r) = r_method rt -> Path (base r) = r_path rt -> exact_route rs r = r_handler rt.
Proof.
  intros Hnd Hin Hm Hp. induction rs as [|rt' rs IH]; simpl; [by apply elem_of_nil in Hin|].
  apply NoDup_cons in Hnd as [Hout Hnd]. rewrite Hm, Hp.
  destruct (String.eqb_spec (r_method rt) (r_method rt')); simpl.
  - destruct (String.eqb_spec (r_path rt) (r_path rt')); [|apply IH; set_solver].
    apply elem_of_cons in Hin as [->|Hin]; [done|]. destruct Hout. apply list_elem_of_fmap. exists rt. split; congruence.
  - apply IH; set_solver.
Qed.
Definition exact_mux : Mux.
Proof.
  refine {| mux := fun S rs r => exact_route rs r r |}.
  intros S rs rt r h s Hnd Hin Hm Hp. by rewrite (exact_route_found rs rt r).
Defined.

Section Demo.
#[local] Existing Instance demo_floats.
#[local] Existing Instance demo_unicode.
#[local] Existing Instance exact_mux.
Notation demo_L := (KeyedRateLimiter exact_bucket).

Definition demo_refuse (now : Z) (r : Request) : AuthIdentity + Auth.AuthError :=
  if String.eqb (Header r "X-API-Key") "k1"
  then inl {| Subject := "k1"; Method := "apikey"; Datasources := []; Operations := [] |}
  else auth_err ErrAuthTokenInvalid "invalid API key".
Definition demo_chain : chain_config :=
  {| MaxRequestBodySize := EmptyString; MaxConcurrent := 2;
     cors := {| CORSEnabled := false; AllowedOrigins := []; AllowedMethods := []; AllowedHeaders := [] |};
     AllowGetQueries := false; Mode := "production"; authenticator := Some demo_refuse;
     auth_failure_enabled := true; client_ip r := RemoteAddr r;
     compression := {| CompressionEnabled := false; MinSize := EmptyString |}; gzip_writer b := b |}.
Definition demo_state : server_state demo_L unit :=
  {| sem_used := 0; rate_limiter := NewKeyedRateLimiter 2 (60 * second) 100;
     auth_failures := {| failures := ∅; threshold := 3; window := 60 * second; banDur := 600 * second; trustedProxies := [] |}; app := tt |}.
Definition demo_post (key : string) (now : Z) : Req :=
  {| base := {| Path := "/graphql"; HttpMethod := "POST"; RemoteAddr := "10.0.0.7";
                Header k := if String.eqb k "Content-Type" then "application/json"
                            else if String.eqb k "X-API-Key" then key else EmptyString;
                Identity := None; BatchCount := None |};
     Body := "{}"; RequestID := EmptyString; MaxBytes := None; Deadline := None; Now := now; Random := None |}.
Definition demo_app : Handler (server_state demo_L unit) := fun _ h s =>
  ({| Status := 200; RespHeaders := h; RespBody := "data" |}, s).

Lemma demo_refuses_properly : refuses_properly demo_refuse.
Proof. unfold refuses_properly, demo_refuse. intros now r e. case_match; [done|]. unfold auth_err. intros [= <-]. by left. Qed.

(** A request with a key passes; the third one within the window is refused with 429. *)
Lemma chain_gate_witness :
  map Status (serve_seq (chain demo_chain demo_app) (repeat (demo_post "k1" 0) 3) demo_state).1 = [200; 200; 429]
  /\ gate (chain demo_chain) (demo_post "k1" 0) [] demo_state
       (fun r' _ s' => admitted demo_chain (demo_post "k1" 0) demo_state r' s').
Proof.
  split; [vm_compute; reflexivity|].
  apply chain_gate; [reflexivity|]. intros a Ea. apply Some_inj in Ea. rewrite <- Ea. exact demo_refuses_properly.
Defined.

(** Ten guesses with a failure threshold of three and two requests per minute. *)
Lemma failed_logins_unlimited_witness :
  map Status (serve_seq (chain demo_chain demo_app) (repeat (demo_post "wrong" 0) 10) demo_state).1 = repeat 401 10.
Proof.
  refine (proj1 (failed_logins_unlimited demo_chain demo_refuse demo_app (repeat (demo_post "wrong" 0) 10) demo_state _ _ _)).
  - reflexivity.
  - right. reflexivity.
  - repeat (constructor; [split; [reflexivity|]; split; [reflexivity|]; split; [reflexivity|]; eexists; split; reflexivity|]).
    constructor.
Defined.
End Demo.
