(* ===== verification/GraphqlDepth.v ===== *)
(** * internal/server/server.go: the query depth limit

    A selection set is the list of its selections; a fragment spread names its definition,
    which is looked up in the document ([None]: the pointer is nil).  [selectionSetDepth]
    recurses on [fuel]; it terminates exactly when the fragments it meets are not cyclic,
    which the validation before it ensures. *)
From S2P Require Import Prelude GoStrings Values.

Inductive selection :=
  | Field (ss : list selection)
  | InlineFragment (ss : list selection)
  | FragmentSpread (name : string).

Section Depth.
Variable Definition_ : string -> option (list selection).

Definition children (sel : selection) : list selection :=
  match sel with
  | Field ss | InlineFragment ss => ss
  | FragmentSpread name => default [] (Definition_ name)
  end.
Fixpoint selectionSetDepth (fuel : nat) (ss : list selection) : option Z :=
  match fuel with
  | O => None
  | S fuel' =>
      match ss with
      | [] => Some 0
      | _ =>
          maxChild ← foldl (fun acc sel =>
            maxChild ← acc;
            childDepth ← selectionSetDepth fuel' (children sel);
            Some (if maxChild <? childDepth then childDepth else maxChild)) (Some 0) ss;
          Some (1 + maxChild)
      end
  end.
Definition calcSelectionSetDepth (fuel : nat) (ops : list (list selection)) : option Z :=
  foldl (fun acc ss =>
    maxDepth ← acc;
    d ← selectionSetDepth fuel ss;
    Some (if maxDepth <? d then d else maxDepth)) (Some 0) ops.
(** The operation middleware of [NewGraphQLHandler]: [None] lets the operation run. *)
Definition depth_error (depth maxDepth : Z) : error :=
  GqlError ErrValidationDepthExceeded
    (Sprintf "query depth %d exceeds maximum allowed depth %d" [AInt depth; AInt maxDepth]).
Definition depth_limit (fuel : nat) (maxDepth : Z) (ops : list (list selection)) : option (option error) :=
  if 0 <? maxDepth
  then depth ← calcSelectionSetDepth fuel ops; Some (if maxDepth <? depth then Some (depth_error depth maxDepth) else None)
  else Some None.

(** ** What the depth is *)

(** [n] selection sets nested in one another, from [ss] down. *)
Inductive nested : nat -> list selection -> Prop :=
  | nested_0 ss : nested 0 ss
  | nested_S n sel ss : sel ∈ ss -> nested n (children sel) -> nested (S n) ss.

(** The maximum of a loop over the elements. *)
Definition max_loop {X} (f : X -> option Z) (l : list X) (a : Z) : option Z :=
  foldl (fun acc x => m ← acc; d ← f x; Some (if m <? d then d else m)) (Some a) l.
Lemma max_loop_None {X} (f : X -> option Z) l :
  foldl (fun acc x => m ← acc; d ← f x; Some (if m <? d then d else m)) None l = None.
Proof. induction l; [done|]. done. Qed.
Lemma max_loop_Some {X} (f : X -> option Z) l : forall a m, max_loop f l a = Some m ->
  a <= m /\ (forall x, x ∈ l -> exists d, f x = Some d /\ d <= m) /\ (m = a \/ exists x, x ∈ l /\ f x = Some m).
Proof.
  unfold max_loop. induction l as [|x l IH]; intros a m H; simpl in H.
  - simplify_eq. split; [lia|]. split; [set_solver|by left].
  - destruct (f x) as [d|] eqn:Ed; simpl in H; [|by rewrite max_loop_None in H].
    destruct (IH _ _ H) as (H1 & H2 & H3). split; [destruct (a <? d) eqn:?; lia|]. split.
    + intros y [->|Hy]%elem_of_cons; [exists d; split; [done|destruct (a <? d) eqn:?; lia]|by apply H2].
    + destruct H3 as [->|(y & Hy & Ey)]; [|right; exists y; set_solver].
      destruct (a <? d); [right; exists x; set_solver|by left].
Qed.
Lemma max_loop_total {X} (f : X -> option Z) l : (forall x, x ∈ l -> is_Some (f x)) -> forall a, is_Some (max_loop f l a).
Proof.
  unfold max_loop. induction l as [|x l IH]; intros H a; [by eexists|]. simpl.
  destruct (H x) as [d ->]; [set_solver|]. simpl. apply IH. set_solver.
Qed.
Lemma selectionSetDepth_S fuel ss : ss <> [] ->
  selectionSetDepth (S fuel) ss = (m ← max_loop (fun sel => selectionSetDepth fuel (children sel)) ss 0; Some (1 + m)).
Proof. by destruct ss. Qed.

Lemma depth_nested fuel : forall ss d, selectionSetDepth fuel ss = Some d ->
  0 <= d /\ forall n, nested n ss <-> Z.of_nat n <= d.
Proof.
  induction fuel as [|fuel IH]; intros ss d H; [done|]. destruct (decide (ss = [])) as [->|Hne].
  - simpl in H. simplify_eq. split; [lia|]. intros n. split; [|intros; assert (n = 0%nat) as -> by lia; constructor].
    inversion 1; subst; [lia|set_solver].
  - rewrite selectionSetDepth_S in H by done. destruct (max_loop _ ss 0) as [m|] eqn:Em; simpl in H; [|done].
    apply max_loop_Some in Em as (H0 & Hall & Hmax). simplify_eq. split; [lia|]. intros n. split.
    + inversion 1 as [|n' sel ? Hin Hn]; subst; [lia|]. destruct (Hall sel Hin) as (d & Ed & Hd).
      destruct (IH _ _ Ed) as [_ Hiff]. apply Hiff in Hn. lia.
    + destruct n as [|n]; [constructor|]. intros Hn. destruct Hmax as [->|(sel & Hin & Esel)].
      * destruct ss as [|sel ss]; [done|]. assert (n = 0%nat) as -> by lia. eapply nested_S; [by left|constructor].
      * eapply nested_S; [exact Hin|]. destruct (IH _ _ Esel) as [_ Hiff]. apply Hiff. lia.
Qed.
Lemma calc_nested fuel ops d : calcSelectionSetDepth fuel ops = Some d ->
  forall n, (0 < n)%nat -> (exists ss, ss ∈ ops /\ nested n ss) <-> Z.of_nat n <= d.
Proof.
  intros (H0 & Hall & Hmax)%max_loop_Some n Hn. split.
  - intros (ss & Hin & Hnest). destruct (Hall ss Hin) as (d' & Ed & Hd). destruct (depth_nested _ _ _ Ed) as [_ Hiff].
    apply Hiff in Hnest. lia.
  - intros Hd. destruct Hmax as [->|(ss & Hin & Ess)]; [lia|]. exists ss. split; [done|].
    destruct (depth_nested _ _ _ Ess) as [_ Hiff]. by apply Hiff.
Qed.

(** ** Termination *)

(** The spreads of a selection, at whatever depth inside it. *)
Fixpoint spreads (sel : selection) : list string :=
  match sel with
  | Field ss | InlineFragment ss => flat_map spreads ss
  | FragmentSpread name => [name]
  end.
(** No fragment reaches itself: each one spreads only fragments of a lower rank. *)
Definition acyclic (rank : string -> nat) : Prop := forall name ss sel name',
  Definition_ name = Some ss -> sel ∈ ss -> name' ∈ spreads sel -> (rank name' < rank name)%nat.

Fixpoint height (sel : selection) : nat :=
  match sel with
  | Field ss | InlineFragment ss => S (list_max (map height ss))
  | FragmentSpread _ => 1
  end.
Definition heights (ss : list selection) : nat := list_max (map height ss).

Lemma max_loop_mono {X} (f g : X -> option Z) l : (forall x d, f x = Some d -> g x = Some d) ->
  forall a m, max_loop f l a = Some m -> max_loop g l a = Some m.
Proof.
  intros Hfg. unfold max_loop. induction l as [|x l IH]; intros a m H; simpl in *; [done|].
  destruct (f x) as [d|] eqn:Ed; simpl in H; [|by rewrite max_loop_None in H]. rewrite (Hfg _ _ Ed). by apply IH.
Qed.
Lemma fuel_mono fuel : forall fuel' ss d, (fuel <= fuel')%nat -> selectionSetDepth fuel ss = Some d -> selectionSetDepth fuel' ss = Some d.
Proof.
  induction fuel as [|fuel IH]; intros [|fuel'] ss d Hle H; [done|done|lia|].
  destruct (decide (ss = [])) as [->|Hne]; [done|]. rewrite selectionSetDepth_S in H |- * by done.
  destruct (max_loop _ ss 0) as [m|] eqn:Em; simpl in H; [|done].
  rewrite (max_loop_mono _ (fun sel => selectionSetDepth fuel' (children sel)) _ (fun sel d => IH fuel' _ d ltac:(lia)) _ _ Em). done.
Qed.
Definition finishes (ss : list selection) : Prop := exists fuel, is_Some (selectionSetDepth fuel ss).
Lemma common_fuel {X} (f : X -> list selection) (l : list X) : (forall x, x ∈ l -> finishes (f x)) ->
  exists fuel, forall x, x ∈ l -> is_Some (selectionSetDepth fuel (f x)).
Proof.
  induction l as [|x l IH]; intros H; [exists O; set_solver|]. destruct IH as [fuel IH]; [set_solver|].
  destruct (H x) as (fuel' & d & Hd); [set_solver|]. exists (max fuel fuel').
  intros y [->|Hy]%elem_of_cons; [exists d; eapply fuel_mono; [|done]; lia|].
  destruct (IH y Hy) as [d' Hd']. exists d'. eapply fuel_mono; [|done]; lia.
Qed.
Lemma finishes_children ss : (forall sel, sel ∈ ss -> finishes (children sel)) -> finishes ss.
Proof.
  intros H. destruct (decide (ss = [])) as [->|Hne]; [exists 1%nat; by eexists|].
  destruct (common_fuel children ss H) as [fuel Hf]. exists (S fuel). rewrite selectionSetDepth_S by done.
  destruct (max_loop_total (fun sel => selectionSetDepth fuel (children sel)) ss Hf 0) as [m ->]. by eexists.
Qed.

Lemma height_in ss sel : sel ∈ ss -> (height sel <= heights ss)%nat.
Proof.
  intros H. unfold heights. pose proof (proj1 (list_max_le (map height ss) _) (Nat.le_refl _)) as Hf.
  rewrite List.Forall_forall in Hf. apply Hf. apply in_map. by apply list_elem_of_In.
Qed.
Lemma spreads_in ss sel name : sel ∈ ss -> name ∈ spreads sel -> name ∈ flat_map spreads ss.
Proof. intros H1 H2. apply list_elem_of_In, in_flat_map. exists sel. split; by apply list_elem_of_In. Qed.

Lemma acyclic_finishes rank : acyclic rank -> forall n h ss, (heights ss <= h)%nat ->
  (forall sel name, sel ∈ ss -> name ∈ spreads sel -> (rank name < n)%nat) -> finishes ss.
Proof.
  intros Hac. induction n as [n IHn] using lt_wf_ind. induction h as [|h IHh]; intros ss Hh Hr.
  - destruct ss as [|sel ss]; [exists 1%nat; by eexists|]. pose proof (height_in (sel :: ss) sel ltac:(set_solver)).
    destruct sel; simpl in *; lia.
  - apply finishes_children. intros sel Hin. pose proof (height_in _ _ Hin) as Hs. destruct sel as [ss'|ss'|name]; simpl in Hs.
    1, 2: apply IHh; [unfold heights; simpl; lia|]; intros sel' name' Hin' Hn'; eapply Hr; [exact Hin|];
      simpl; by eapply spreads_in.
    simpl. destruct (Definition_ name) as [ss'|] eqn:Ed; [|exists 1%nat; by eexists]. simpl.
    eapply (IHn (rank name)); [eapply Hr; [exact Hin|by left]|reflexivity|]. intros sel' name' H1 H2. by eapply Hac.
Qed.

(** C25: the depth check terminates on every document whose fragments are not cyclic, whatever
    its operations, and rejects one exactly if some operation nests more selection sets
    (fields, inline fragments and spreads each counting one) than the configured maximum; no
    maximum means no limit. *)
Theorem depth_limit_decides rank maxDepth ops : acyclic rank ->
  exists fuel, forall fuel', (fuel <= fuel')%nat -> exists verdict, depth_limit fuel' maxDepth ops = Some verdict
    /\ (verdict <> None <-> 0 < maxDepth /\ exists ss n, ss ∈ ops /\ nested n ss /\ maxDepth < Z.of_nat n).
Proof.
  intros Hac.
  destruct (common_fuel (fun ss => ss) ops) as [fuel Hf].
  { intros ss _. set (n := S (list_max (map rank (flat_map spreads ss)))).
    apply (acyclic_finishes rank Hac n (heights ss)); [done|]. intros sel name H1 H2. unfold n.
    pose proof (proj1 (list_max_le (map rank (flat_map spreads ss)) _) (Nat.le_refl _)) as Hl.
    rewrite List.Forall_forall in Hl. apply Nat.lt_succ_r, Hl, in_map, list_elem_of_In. by eapply spreads_in. }
  exists fuel. intros fuel' Hle. unfold depth_limit. destruct (0 <? maxDepth) eqn:Em; [|eexists; split; [done|split; [done|lia]]].
  destruct (max_loop_total (selectionSetDepth fuel') ops) with (a := 0) as [d Hd].
  { intros ss Hss. destruct (Hf ss Hss) as [d Hd]. exists d. by eapply fuel_mono. }
  change (max_loop (selectionSetDepth fuel') ops 0) with (calcSelectionSetDepth fuel' ops) in Hd.
  pose proof (calc_nested _ _ _ Hd) as Hc. rewrite Hd. eexists. split; [reflexivity|].
  destruct (maxDepth <? d) eqn:Ed.
  - split; [|done]. intros _. split; [lia|]. destruct (proj2 (Hc (Z.to_nat d) ltac:(lia)) ltac:(lia)) as (ss & Hin & Hn).
    exists ss, (Z.to_nat d). split_and!; [done|done|lia].
  - split; [done|]. intros (_ & ss & n & Hin & Hn & Hlt). exfalso.
    assert (Z.of_nat n <= d) by (apply Hc; [lia|eauto]). lia.
Qed.

(** A cyclic fragment is nested without end, and no recursion depth is enough. *)
Lemma unbounded_diverges ss : (forall n, nested n ss) -> forall fuel, selectionSetDepth fuel ss = None.
Proof.
  intros H fuel. destruct (selectionSetDepth fuel ss) as [d|] eqn:E; [|done].
  destruct (depth_nested _ _ _ E) as [H0 Hiff]. specialize (Hiff (S (Z.to_nat d))). pose proof (proj1 Hiff (H _)). lia.
Qed.

(** The calls of [selectionSetDepth] for one selection set. *)
Fixpoint visits (fuel : nat) (ss : list selection) : nat :=
  match fuel with O => O | S fuel' => S (list_sum (map (fun sel => visits fuel' (children sel)) ss)) end.
End Depth.

(** ** The cost *)

(** [n] fragments, each of which spreads the next one twice. *)
Definition doubling (n : nat) (name : string) : option (list selection) :=
  let next := FragmentSpread (String "f" name) in
  if (String.length name <? n)%nat then Some [next; next] else None.

Lemma doubling_children n name : (String.length name < n)%nat ->
  children (doubling n) (FragmentSpread name) = [FragmentSpread (String "f" name); FragmentSpread (String "f" name)].
Proof. intros H. unfold children, doubling. by rewrite (proj2 (Nat.ltb_lt _ _) H). Qed.
Lemma doubling_leaf n name : (n <= String.length name)%nat -> children (doubling n) (FragmentSpread name) = [].
Proof. intros H. unfold children, doubling. by rewrite (proj2 (Nat.ltb_ge _ _) H). Qed.
Lemma doubling_visits n m : forall fuel name, (String.length name + m = n)%nat -> (m < fuel)%nat ->
  (2 ^ S m <= S (visits (doubling n) fuel (children (doubling n) (FragmentSpread name))))%nat.
Proof.
  induction m as [|m IH]; intros [|fuel] name Hl Hf; try lia.
  - rewrite doubling_leaf by lia. simpl. lia.
  - rewrite doubling_children by lia.
    specialize (IH fuel (String "f" name) ltac:(simpl; lia) ltac:(lia)). simpl in IH |- *. lia.
Qed.
Lemma doubling_depth n m : forall fuel name, (String.length name + m = n)%nat -> (m < fuel)%nat ->
  selectionSetDepth (doubling n) fuel (children (doubling n) (FragmentSpread name)) = Some (Z.of_nat m).
Proof.
  induction m as [|m IH]; intros [|fuel] name Hl Hf; try lia.
  - by rewrite doubling_leaf by lia.
  - rewrite doubling_children by lia. rewrite selectionSetDepth_S by done. unfold max_loop. cbn [foldl mbind option_bind].
    rewrite !(IH fuel (String "f" name)) by (simpl; lia). simpl. repeat case_match; f_equal; lia.
Qed.

(** the check is not linear in the query: it expands a fragment once for each spread, so a
    document of fewer than [n] fragments with two spreads each, which nests no more than [n]
    selection sets, costs it [2 ^ n] recursive calls. *)
Theorem depth_check_exponential n fuel : (0 < n < fuel)%nat ->
  selectionSetDepth (doubling n) fuel [FragmentSpread "f"] = Some (Z.of_nat n)
  /\ (2 ^ n <= visits (doubling n) fuel [FragmentSpread "f"])%nat.
Proof.
  intros [Hn Hf]. destruct n as [|m]; [lia|]. destruct fuel as [|fuel]; [lia|]. split.
  - rewrite selectionSetDepth_S by done. unfold max_loop. cbn [foldl mbind option_bind].
    rewrite (doubling_depth _ m) by (simpl; lia). simpl. case_match; f_equal; lia.
  - pose proof (doubling_visits (S m) m fuel "f" ltac:(simpl; lia) ltac:(lia)) as H.
    change (visits (doubling (S m)) (S fuel) [FragmentSpread "f"])
      with (S (visits (doubling (S m)) fuel (children (doubling (S m)) (FragmentSpread "f")) + 0)).
    rewrite Nat.add_0_r. exact H.
Qed.

(** A document of three levels under a limit of two. *)
Definition demo_doc (name : string) : option (list selection) :=
  if String.eqb name "user" then Some [Field []; Field [Field []]] else None.
Lemma depth_limit_decides_witness : exists fuel, forall fuel', (fuel <= fuel')%nat ->
  exists verdict, depth_limit demo_doc fuel' 2 [[Field []]; [FragmentSpread "user"]] = Some verdict /\ verdict <> None.
Proof.
  destruct (depth_limit_decides demo_doc (fun _ => O) 2 [[Field []]; [FragmentSpread "user"]]) as [fuel H].
  - intros name ss sel name'. unfold demo_doc. destruct (String.eqb name "user"); [|discriminate].
    intros E Hin. apply Some_inj in E. subst ss. repeat (apply elem_of_cons in Hin as [->|Hin]; [simpl; set_solver|]). set_solver.
  - exists fuel. intros fuel' Hle. destruct (H fuel' Hle) as (v & E & Hv). exists v. split; [exact E|].
    apply Hv. split; [reflexivity|]. exists [FragmentSpread "user"], 3%nat. split; [set_solver|]. split; [|reflexivity].
    eapply nested_S; [by left|]. eapply nested_S; [by right; left|]. eapply nested_S; [by left|constructor].
Defined.
Lemma depth_check_exponential_witness :
  selectionSetDepth (doubling 10) 12 [FragmentSpread "f"] = Some 10
  /\ (2 ^ 10 <= visits (doubling 10) 12 [FragmentSpread "f"])%nat.
Proof. apply (depth_check_exponential 10 12). lia. Defined.
