(* ===== verification/Batch.v ===== *)
(** * internal/server/batch.go: batched queries

    The goroutines of a batch run the handler behind in an order the scheduler chooses:
    [order] lists the queries as their handlers run; each result goes into the slot of its
    query.  [RawJSON] is encoding/json on arrays of raw messages. *)
From S2P Require Import Prelude GoStrings Values GoConv Json.
From S2P Require Import Auth Http.

Class RawJSON := {
  unmarshal_array : string -> option (list string);   (** [json.Unmarshal] into [\[\]json.RawMessage] *)
  compact : string -> option string;                  (** a raw message as [Encode] writes it, if it is valid *)
}.

Record BatchHandler (S : Type) := { next_handler : Handler S; maxBatchQueries : Z }.
Arguments next_handler {S} _.
Arguments maxBatchQueries {S} _.

Section Batch.
Context {S : Type} {RJ : RawJSON}.

Definition NewBatchHandler (next : Handler S) (maxBatchQueries : Z) : BatchHandler S :=
  {| next_handler := next; maxBatchQueries := if maxBatchQueries <=? 0 then 10 else maxBatchQueries |}.

Fixpoint isBatchRequest (body : string) : bool :=
  match body with
  | EmptyString => false
  | String b body' =>
      if Ascii.eqb b " " || Ascii.eqb b (byte_of 9) || Ascii.eqb b LF || Ascii.eqb b (byte_of 13)
      then isBatchRequest body'
      else Ascii.eqb b "["
  end.
Definition writeJSONError (statusCode : Z) (code message : string) (h : headers) : Response :=
  write_json statusCode (graphql_error_body code message "VALIDATION") h.
Definition errorJSON (code message : string) : string := graphql_error_body code message "INTERNAL".

Definition with_batch_count (n : Z) (r : Req) : Req :=
  with_base {| Path := Path (base r); HttpMethod := HttpMethod (base r); RemoteAddr := RemoteAddr (base r);
               Header := Header (base r); Identity := Identity (base r); BatchCount := Some n |} r.
(** The sub-request of one query: a POST with the original's headers and context.  A request
    built by [http.NewRequest] has no remote address and no body limit. *)
Definition sub_request (ctx : Req) (queryBody : string) : Req :=
  {| base := {| Path := Path (base ctx); HttpMethod := "POST"; RemoteAddr := EmptyString;
                Header k := if String.eqb k "Content-Type" then "application/json" else Header (base ctx) k;
                Identity := Identity (base ctx); BatchCount := BatchCount (base ctx) |};
     Body := queryBody; RequestID := RequestID ctx; MaxBytes := None; Deadline := Deadline ctx;
     Now := Now ctx; Random := Random ctx |}.
(** [url_ok]: the URL of the original parses again. *)
Definition executeOne (url_ok : bool) (bh : BatchHandler S) (ctx : Req) (queryBody : string) (s : S) : string * S :=
  if negb url_ok then (errorJSON ErrInternalUnexpected "failed to create sub-request", s)
  else let '(resp, s') := next_handler bh (sub_request ctx queryBody) [] s in (RespBody resp, s').

(** The goroutines, in the order their handlers run. *)
Fixpoint run_queries (url_ok : bool) (bh : BatchHandler S) (ctx : Req) (queries : list string) (order : list nat)
    (results : list string) (s : S) : list string * S :=
  match order with
  | [] => (results, s)
  | i :: order' =>
      match queries !! i with
      | Some q => let '(b, s') := executeOne url_ok bh ctx q s in
                  run_queries url_ok bh ctx queries order' (<[i := b]> results) s'
      | None => run_queries url_ok bh ctx queries order' results s
      end
  end.
(** A raw message in an array.  The recorder of a handler that writes nothing has a nil slice, which
    encodes as null. *)
Definition raw_text (result : string) : option string :=
  if String.eqb result EmptyString then Some "null" else compact result.
(** [json.NewEncoder(w).Encode(results)]: one invalid message and nothing is written. *)
Definition encode_results (results : list string) : string :=
  match mapM raw_text results with
  | Some texts => encode ("[" +:+ join "," texts +:+ "]")
  | None => EmptyString
  end.

Definition BatchServeHTTP (url_ok : bool) (order : list nat) (bh : BatchHandler S) (r : Req) (h : headers) (s : S)
    : Response * S :=
  match read_body r with
  | Err _ => (writeJSONError 400 "VALIDATION_INVALID_BODY" "failed to read request body" h, s)
  | Ok body =>
      if negb (isBatchRequest body) then
        let r2 := with_body body (with_batch_count 1 r) in
        next_handler bh {| base := base r2; Body := body; RequestID := RequestID r2; MaxBytes := None;
                           Deadline := Deadline r2; Now := Now r2; Random := Random r2 |} h s
      else
        match unmarshal_array body with
        | None => (writeJSONError 400 "VALIDATION_INVALID_BODY" "invalid JSON array in batch request" h, s)
        | Some rawQueries =>
            let count := Z.of_nat (length rawQueries) in
            if count =? 0
            then ({| Status := 200; RespHeaders := set_header "Content-Type" "application/json" h; RespBody := "[]" |}, s)
            else if maxBatchQueries bh <? count
            then (writeJSONError 400 ErrValidationBatchLimitExceeded
                    ("batch contains " +:+ itoa count +:+ " queries, exceeds maximum of " +:+ itoa (maxBatchQueries bh)) h, s)
            else
              let '(results, s') :=
                run_queries url_ok bh (with_batch_count count r) rawQueries order
                  (replicate (length rawQueries) EmptyString) s in
              ({| Status := 200; RespHeaders := set_header "Content-Type" "application/json" h;
                  RespBody := encode_results results |}, s')
        end
  end.

(** ** Every query runs once and has the slot of its place *)

(** The states between the runs of the queries, the first and the last one included. *)
Fixpoint states (url_ok : bool) (bh : BatchHandler S) (ctx : Req) (queries : list string) (order : list nat) (s : S) : list S :=
  s :: match order with
       | [] => []
       | i :: order' =>
           states url_ok bh ctx queries order'
             match queries !! i with Some q => (executeOne url_ok bh ctx q s).2 | None => s end
       end.
Lemma run_queries_slots url_ok bh ctx queries order : forall results s, NoDup order -> length results = length queries ->
  let out := run_queries url_ok bh ctx queries order results s in
  length out.1 = length queries /\ last (states url_ok bh ctx queries order s) = Some out.2
  /\ (forall i, i ∉ order -> out.1 !! i = results !! i)
  /\ forall k i q, order !! k = Some i -> queries !! i = Some q -> exists sk,
       states url_ok bh ctx queries order s !! k = Some sk
       /\ states url_ok bh ctx queries order s !! Datatypes.S k = Some (executeOne url_ok bh ctx q sk).2
       /\ out.1 !! i = Some (executeOne url_ok bh ctx q sk).1.
Proof.
  induction order as [|j order IH]; intros results s Hnd Hlen; [done|].
  apply NoDup_cons in Hnd as [Hj Hnd]. cbn [run_queries states].
  set (results' := match queries !! j with Some q => <[j := (executeOne url_ok bh ctx q s).1]> results | None => results end).
  set (s1 := match queries !! j with Some q => (executeOne url_ok bh ctx q s).2 | None => s end).
  assert (E : match queries !! j with
              | Some q => let '(b, s') := executeOne url_ok bh ctx q s in run_queries url_ok bh ctx queries order (<[j:=b]> results) s'
              | None => run_queries url_ok bh ctx queries order results s
              end = run_queries url_ok bh ctx queries order results' s1).
  { unfold results', s1. destruct (queries !! j); [|done]. by destruct (executeOne _ _ _ _ _). }
  rewrite E. clear E.
  assert (Hl' : length results' = length queries) by (unfold results'; destruct (queries !! j); by rewrite ?length_insert).
  destruct (IH results' s1 Hnd Hl') as (H1 & H2 & H3 & H4). split; [done|]. split; [|split].
  - rewrite <- H2. by destruct order.
  - intros i [Hi Hin]%not_elem_of_cons. rewrite H3 by done. unfold results'. destruct (queries !! j); [|done].
    by rewrite list_lookup_insert_ne.
  - intros [|k] i q Hk Hq; simpl in Hk.
    + simplify_eq. exists s. split; [done|]. split.
      * simpl. unfold s1. rewrite Hq. by destruct order.
      * rewrite H3 by done. unfold results'. rewrite Hq, list_lookup_insert_eq; [done|]. rewrite Hlen. by eapply lookup_lt_Some.
    + destruct (H4 k i q Hk Hq) as (sk & ? & ? & ?). by exists sk.
Qed.

End Batch.

(** Three queries run last to first, on a handler that counts its calls. *)
Definition demo_json : RawJSON :=
  {| unmarshal_array s := if String.eqb s "[a,b,c]" then Some ["a"; "b"; "c"] else None;
     compact s := if String.eqb s EmptyString then None else Some s |}.
Definition demo_count : Handler nat := fun r h s => ({| Status := 200; RespHeaders := h; RespBody := Body r +:+ pretty s |}, S s).
Definition demo_batch_req : Req :=
  {| base := {| Path := "/graphql"; HttpMethod := "POST"; RemoteAddr := EmptyString; Header _ := EmptyString;
                Identity := None; BatchCount := None |};
     Body := "[a,b,c]"; RequestID := EmptyString; MaxBytes := None; Deadline := None; Now := 0; Random := None |}.
