(* ===== verification/Dataloader.v ===== *)
(** * internal/graphql/dataloader: the per-request batching loader

    The loader as a step relation.  Every region of code under [mu] is one step, so [Load]
    is the step that submits a request and, later, the delivery on its channel; a batch that
    was taken is executed request by request, interleaved with everything else.  A timer is
    a number; [outstanding] are the timer functions that can still run.  [Stop] on a timer
    whose function has begun comes too late: the function then runs after the step, although
    the timer is no longer registered.  A request is a number, [src] gives its data source. *)
From S2P Require Import Prelude GoStrings Values.

Definition DefaultBatchWindow : Z := millisecond.
Definition DefaultMaxBatch : Z := 100.

Record DataLoader := {
  pending : gmap string (list nat);
  timers : gmap string nat;
  closed : bool;
  (** goroutines: timer functions that can still run, batches being executed *)
  outstanding : list (nat * string);
  flights : list (list nat);
  (** requests whose result is in their channel; the next timer *)
  delivered : list nat;
  next_timer : nat;
}.
Definition New : DataLoader :=
  {| pending := ∅; timers := ∅; closed := false; outstanding := []; flights := []; delivered := []; next_timer := 0 |}.

Definition set_pending (p : gmap string (list nat)) (dl : DataLoader) : DataLoader :=
  {| pending := p; timers := timers dl; closed := closed dl; outstanding := outstanding dl; flights := flights dl;
     delivered := delivered dl; next_timer := next_timer dl |}.
Definition set_timers (t : gmap string nat) (o : list (nat * string)) (n : nat) (dl : DataLoader) : DataLoader :=
  {| pending := pending dl; timers := t; closed := closed dl; outstanding := o; flights := flights dl;
     delivered := delivered dl; next_timer := n |}.
Definition set_flights (f : list (list nat)) (d : list nat) (dl : DataLoader) : DataLoader :=
  {| pending := pending dl; timers := timers dl; closed := closed dl; outstanding := outstanding dl; flights := f;
     delivered := d; next_timer := next_timer dl |}.
Definition set_closed (dl : DataLoader) : DataLoader :=
  {| pending := pending dl; timers := timers dl; closed := true; outstanding := outstanding dl; flights := flights dl;
     delivered := delivered dl; next_timer := next_timer dl |}.

(** [takePending]. *)
Definition takePending (ds : string) (dl : DataLoader) : list nat * DataLoader :=
  (default [] (pending dl !! ds), set_pending (delete ds (pending dl)) dl).
(** [stopTimer]; [in_time] tells whether [Stop] kept the function from running. *)
Definition stopTimer (in_time : bool) (ds : string) (dl : DataLoader) : DataLoader :=
  match timers dl !! ds with
  | None => dl
  | Some t =>
      set_timers (delete ds (timers dl))
        (if in_time then List.filter (fun tf => negb (Nat.eqb tf.1 t)) (outstanding dl) else outstanding dl) (next_timer dl) dl
  end.
Definition ensureTimer (ds : string) (dl : DataLoader) : DataLoader :=
  match timers dl !! ds with
  | Some _ => dl
  | None =>
      set_timers (<[ds := next_timer dl]> (timers dl)) (outstanding dl ++ [(next_timer dl, ds)]) (S (next_timer dl)) dl
  end.
(** [executeBatch] starts on the requests it is given. *)
Definition launch (reqs : list nat) (dl : DataLoader) : DataLoader :=
  match reqs with [] => dl | _ => set_flights (flights dl ++ [reqs]) (delivered dl) dl end.

Section Steps.
Variable maxBatch : Z.
#[local] Set Default Proof Using "Type".

(** [Load], up to waiting for the result; [None] when the loader is closed. *)
Definition Load (in_time : bool) (ds : string) (req : nat) (dl : DataLoader) : option DataLoader :=
  if closed dl then None
  else
    let batch := default [] (pending dl !! ds) ++ [req] in
    let dl := set_pending (<[ds := batch]> (pending dl)) dl in
    if maxBatch <=? Z.of_nat (length batch) then
      let '(reqs, dl) := takePending ds (stopTimer in_time ds dl) in
      Some (launch reqs dl)
    else Some (ensureTimer ds dl).
(** The timer function. *)
Definition timer_function (ds : string) (dl : DataLoader) : DataLoader :=
  let '(reqs, dl) := takePending ds dl in
  launch reqs (set_timers (delete ds (timers dl)) (outstanding dl) (next_timer dl) dl).
(** [Load] when its context is cancelled before the result came. *)
Definition cancelled (in_time : bool) (ds : string) (dl : DataLoader) : DataLoader :=
  let '(reqs, dl) := takePending ds dl in
  match reqs with [] => dl | _ => launch reqs (stopTimer in_time ds dl) end.
Definition Close (in_time : string -> bool) (dl : DataLoader) : DataLoader :=
  let all := map_to_list (pending dl) in
  let dl := foldl (fun dl dr => stopTimer (in_time dr.1) dr.1 dl) (set_closed dl) all in
  foldl (fun dl dr => launch dr.2 dl) (set_pending ∅ dl) all.

(** Everything submitted, wherever it is. *)
Definition waiting (p : gmap string (list nat)) : list nat := concat (map_to_list p).*2.
Definition everywhere (dl : DataLoader) : list nat := waiting (pending dl) ++ concat (flights dl) ++ delivered dl.

(** The label is the request a step submits. *)
Inductive step : option nat -> DataLoader -> DataLoader -> Prop :=
  | step_load in_time ds req dl dl' : req ∉ everywhere dl -> Load in_time ds req dl = Some dl' -> step (Some req) dl dl'
  | step_timer t ds before after dl :
      outstanding dl = before ++ (t, ds) :: after ->
      step None dl (timer_function ds (set_timers (timers dl) (before ++ after) (next_timer dl) dl))
  | step_cancel in_time ds dl : step None dl (cancelled in_time ds dl)
  | step_close in_time dl : step None dl (Close in_time dl)
  (** the next request of a batch: its query runs and its result is delivered *)
  | step_execute before req reqs after dl :
      flights dl = before ++ (req :: reqs) :: after ->
      step None dl (set_flights (before ++ match reqs with [] => [] | _ => [reqs] end ++ after) (delivered dl ++ [req]) dl).
(** A run from a new loader, with the requests it submitted. *)
Inductive runs : list nat -> DataLoader -> Prop :=
  | run_new : runs [] New
  | run_step sub l dl dl' : runs sub dl -> step l dl dl' -> runs (sub ++ option_list l) dl'.

(** ** What the loader keeps *)

(** A registered timer can still run; a request that waits has a registered timer. *)
Record timers_ok (dl : DataLoader) : Prop := {
  to_timer ds t : timers dl !! ds = Some t -> (t, ds) ∈ outstanding dl;
  to_fresh t ds : (t, ds) ∈ outstanding dl -> (t < next_timer dl)%nat;
  to_distinct : NoDup (outstanding dl).*1;
}.
Definition covered (dl : DataLoader) (ds : string) : Prop := is_Some (pending dl !! ds) -> is_Some (timers dl !! ds).
Record Inv (dl : DataLoader) : Prop := {
  inv_once : NoDup (everywhere dl);
  inv_timers : timers_ok dl;
  inv_waits ds : covered dl ds;
}.

Lemma waiting_take ds p : default [] (p !! ds) ++ waiting (delete ds p) ≡ₚ waiting p.
Proof.
  unfold waiting. destruct (p !! ds) as [b|] eqn:E; simpl.
  - rewrite <- (map_to_list_delete p ds b E). by simpl.
  - by rewrite delete_id.
Qed.
Lemma waiting_insert ds p req : waiting (<[ds := default [] (p !! ds) ++ [req]]> p) ≡ₚ waiting p ++ [req].
Proof.
  rewrite <- (waiting_take ds p), <- (waiting_take ds (<[ds := _]> p)). rewrite lookup_insert_eq, delete_insert_eq. simpl.
  rewrite <- !app_assoc. apply Permutation_app_head, Permutation_app_comm.
Qed.

Lemma stop_timers it ds dl : timers_ok dl -> timers_ok (stopTimer it ds dl).
Proof.
  intros [H1 H2 H3]. unfold stopTimer. destruct (timers dl !! ds) as [t|] eqn:Et; [|done]. destruct it; split; cbn.
  - intros ds' t' Ht'. apply lookup_delete_Some in Ht' as [Hne Ht']. apply list_elem_of_In, filter_In. split; [apply list_elem_of_In; auto|].
    apply negb_true_iff, Nat.eqb_neq. simpl. intros ->. destruct Hne.
    pose proof (H1 _ _ Et) as Ha. pose proof (H1 _ _ Ht') as Hb.
    apply list_elem_of_lookup in Ha as [i Hi], Hb as [j Hj].
    assert (i = j); [|congruence]. eapply NoDup_lookup; [exact H3| |]; rewrite list_lookup_fmap; [by rewrite Hi|by rewrite Hj].
  - intros t' ds' [Hin _]%list_elem_of_In%filter_In. apply (H2 _ ds'). by apply list_elem_of_In.
  - clear -H3. induction (outstanding dl) as [|x l IH]; simpl in *; [constructor|]. apply NoDup_cons in H3 as [Hx Hl].
    destruct (negb _); simpl; [|by apply IH]. constructor; [|by apply IH]. intros (y & Hy & Hin)%list_elem_of_fmap. apply Hx.
    apply list_elem_of_In, filter_In in Hin as [Hin _]. apply list_elem_of_fmap. exists y. split; [done|by apply list_elem_of_In].
  - intros ds' t' Ht'. apply lookup_delete_Some in Ht' as [_ Ht']. auto.
  - auto.
  - done.
Qed.
Lemma ensure_timers ds dl : timers_ok dl -> timers_ok (ensureTimer ds dl) /\ is_Some (timers (ensureTimer ds dl) !! ds).
Proof.
  intros [H1 H2 H3]. unfold ensureTimer. destruct (timers dl !! ds) as [t|] eqn:Et; [by split; [split|rewrite Et]|].
  split; [|by cbn; rewrite lookup_insert_eq]. split; cbn.
  - intros ds' t' Ht'. apply elem_of_app. destruct (decide (ds' = ds)) as [->|Hne].
    + rewrite lookup_insert_eq in Ht'. injection Ht' as <-. right. by left.
    + rewrite lookup_insert_ne in Ht' by done. left. auto.
  - intros t' ds' [Hin|[= -> ->]%list_elem_of_singleton]%elem_of_app; [apply H2 in Hin|]; lia.
  - rewrite fmap_app. apply NoDup_app. split; [done|]. split; [|repeat constructor; by intros ?%elem_of_nil].
    intros t' ([t'' ds'] & -> & Hin)%list_elem_of_fmap. intros H%list_elem_of_singleton. simpl in H. apply H2 in Hin. lia.
Qed.
(** Flights and pending requests do not matter to the timers. *)
Lemma timers_ok_ext dl dl' : timers dl' = timers dl -> outstanding dl' = outstanding dl -> next_timer dl' = next_timer dl ->
  timers_ok dl -> timers_ok dl'.
Proof. intros E1 E2 E3 [H1 H2 H3]. split; rewrite ?E1, ?E2, ?E3; auto. Qed.
Lemma stop_frame it ds dl : let dl' := stopTimer it ds dl in
  pending dl' = pending dl /\ flights dl' = flights dl /\ delivered dl' = delivered dl /\ closed dl' = closed dl
  /\ forall ds', ds' <> ds -> timers dl' !! ds' = timers dl !! ds'.
Proof.
  unfold stopTimer. destruct (timers dl !! ds); cbn; [|done]. repeat split; try done. intros ds' Hne. by apply lookup_delete_ne.
Qed.
Lemma ensure_frame ds dl : let dl' := ensureTimer ds dl in
  pending dl' = pending dl /\ flights dl' = flights dl /\ delivered dl' = delivered dl
  /\ forall ds', ds' <> ds -> timers dl' !! ds' = timers dl !! ds'.
Proof.
  unfold ensureTimer. destruct (timers dl !! ds); cbn; [done|]. repeat split; try done. intros ds' Hne. by apply lookup_insert_ne.
Qed.
Lemma launch_frame reqs dl : let dl' := launch reqs dl in
  pending dl' = pending dl /\ timers dl' = timers dl /\ outstanding dl' = outstanding dl /\ next_timer dl' = next_timer dl
  /\ delivered dl' = delivered dl /\ concat (flights dl') = concat (flights dl) ++ reqs.
Proof. destruct reqs; cbn; [by rewrite app_nil_r|]. rewrite concat_app. simpl. by rewrite app_nil_r. Qed.

(** Taking what waits for a source and launching it moves requests and loses none. *)
Lemma take_launch ds dl dl1 :
  pending dl1 = delete ds (pending dl) -> flights dl1 = flights dl -> delivered dl1 = delivered dl ->
  everywhere (launch (default [] (pending dl !! ds)) dl1) ≡ₚ everywhere dl.
Proof.
  intros E1 E2 E3. destruct (launch_frame (default [] (pending dl !! ds)) dl1) as (F1 & _ & _ & _ & F5 & F6).
  unfold everywhere. rewrite F1, F5, F6, E1, E2, E3, <- (waiting_take ds (pending dl)). rewrite !app_assoc. apply Permutation_app_tail.
  rewrite (Permutation_app_comm (default [] _)), <- !app_assoc. apply Permutation_app_head, Permutation_app_comm.
Qed.

Definition kept (dl dl' : DataLoader) (new : list nat) : Prop :=
  everywhere dl' ≡ₚ everywhere dl ++ new /\ timers_ok dl' /\ forall ds, covered dl' ds.

Lemma load_kept it ds req dl dl' : Inv dl -> Load it ds req dl = Some dl' -> kept dl dl' [req].
Proof.
  intros [_ Ht Hw] H. unfold Load in H. destruct (closed dl); [done|].
  set (batch := default [] (pending dl !! ds) ++ [req]) in *.
  set (dl1 := set_pending (<[ds := batch]> (pending dl)) dl) in *.
  assert (He : everywhere dl1 ≡ₚ everywhere dl ++ [req]).
  { unfold everywhere, dl1, batch. cbn. rewrite waiting_insert, <- !app_assoc. apply Permutation_app_head.
    rewrite (app_assoc (concat _)). apply Permutation_app_comm. }
  assert (Ht1 : timers_ok dl1) by (by apply (timers_ok_ext dl)).
  destruct (maxBatch <=? _).
  - destruct (stop_frame it ds dl1) as (S1 & S2 & S3 & _ & S5). unfold takePending in H. rewrite S1 in H. injection H as <-.
    change (<[ds:=batch]> (pending dl)) with (pending dl1).
    pose proof (take_launch ds dl1 (set_pending (delete ds (pending dl1)) (stopTimer it ds dl1)) eq_refl S2 S3) as Hl.
    destruct (launch_frame (default [] (pending dl1 !! ds)) (set_pending (delete ds (pending dl1)) (stopTimer it ds dl1)))
      as (F1 & F2 & F3 & F4 & _).
    split; [by rewrite Hl|]. split; [eapply timers_ok_ext; [exact F2|exact F3|exact F4|]; by apply (timers_ok_ext (stopTimer it ds dl1)), stop_timers|].
    intros ds' [b Hb]. rewrite F1 in Hb. rewrite F2. cbn in Hb |- *. apply lookup_delete_Some in Hb as [Hne Hb].
    rewrite lookup_insert_ne in Hb by done. rewrite S5 by done. apply Hw. by eexists.
  - injection H as <-. destruct (ensure_timers ds dl1 Ht1) as [Ht2 Hs]. destruct (ensure_frame ds dl1) as (E1 & E2 & E3 & E4).
    split; [unfold everywhere; rewrite E1, E2, E3; exact He|]. split; [done|].
    intros ds' [b Hb]. destruct (decide (ds' = ds)) as [->|Hne]; [done|]. rewrite E4 by done. rewrite E1 in Hb. cbn in Hb |- *.
    rewrite lookup_insert_ne in Hb by done. apply Hw. by eexists.
Qed.
Lemma timer_kept t ds before after dl : Inv dl -> outstanding dl = before ++ (t, ds) :: after ->
  kept dl (timer_function ds (set_timers (timers dl) (before ++ after) (next_timer dl) dl)) [].
Proof.
  intros [_ [H1 H2 H3] Hw] Ho. unfold timer_function, takePending. cbn.
  set (dl1 := set_timers _ _ _ (set_pending _ _)).
  destruct (launch_frame (default [] (pending dl !! ds)) dl1) as (F1 & F2 & F3 & F4 & _).
  split; [rewrite app_nil_r; by apply (take_launch ds dl dl1)|]. split.
  - eapply timers_ok_ext; [exact F2|exact F3|exact F4|]. rewrite Ho in H1, H2, H3. split; cbn.
    + intros ds' t' [Hne Ht']%lookup_delete_Some. apply H1 in Ht'. apply elem_of_app in Ht' as [|[[= -> ->]|]%elem_of_cons];
        [apply elem_of_app; auto|done|apply elem_of_app; auto].
    + intros t' ds' Hin. apply (H2 t' ds'). apply elem_of_app in Hin as []; apply elem_of_app; [by left|right; by right].
    + rewrite fmap_app in H3 |- *. simpl in H3. apply NoDup_app in H3 as (Ha & Hb & Hc). apply NoDup_cons in Hc as [Hd Hc].
      apply NoDup_app. split; [done|]. split; [|done]. intros x Hx Hx'. apply (Hb x Hx). by right.
  - intros ds' [b Hb]. rewrite F1 in Hb. rewrite F2. cbn in Hb |- *. apply lookup_delete_Some in Hb as [Hne Hb].
    rewrite lookup_delete_ne by done. apply Hw. by eexists.
Qed.
Lemma cancel_kept it ds dl : Inv dl -> kept dl (cancelled it ds dl) [].
Proof.
  intros [_ Ht Hw]. unfold cancelled, takePending. set (dl1 := set_pending _ dl).
  assert (Ht1 : timers_ok dl1) by (by apply (timers_ok_ext dl)).
  assert (Hc : forall ds', ds' <> ds -> is_Some (pending dl1 !! ds') -> is_Some (timers dl !! ds')).
  { intros ds' Hne [b Hb]. unfold dl1 in Hb. cbn in Hb. rewrite lookup_delete_ne in Hb by done. apply Hw. by eexists. }
  destruct (default [] (pending dl !! ds)) as [|r rs] eqn:Er.
  - split; [|split; [done|]].
    + rewrite app_nil_r. pose proof (take_launch ds dl dl1 eq_refl eq_refl eq_refl) as H. by rewrite Er in H.
    + intros ds' Hp. destruct (decide (ds' = ds)) as [->|Hne]; [|by apply Hc].
      unfold dl1 in Hp. cbn in Hp. rewrite lookup_delete_eq in Hp. by destruct Hp.
  - destruct (stop_frame it ds dl1) as (S1 & S2 & S3 & _ & S5).
    destruct (launch_frame (r :: rs) (stopTimer it ds dl1)) as (F1 & F2 & F3 & F4 & _).
    split; [rewrite app_nil_r; pose proof (take_launch ds dl (stopTimer it ds dl1) S1 S2 S3) as H; by rewrite Er in H|].
    split; [eapply timers_ok_ext; [exact F2|exact F3|exact F4|]; by apply stop_timers|].
    intros ds' Hp. rewrite F1, S1 in Hp. rewrite F2. destruct (decide (ds' = ds)) as [->|Hne].
    + unfold dl1 in Hp. cbn in Hp. rewrite lookup_delete_eq in Hp. by destruct Hp.
    + rewrite S5 by done. by apply Hc.
Qed.
Lemma close_kept it dl : Inv dl -> kept dl (Close it dl) [].
Proof.
  intros [_ Ht _]. unfold Close.
  assert (Hs : forall (l : list (string * list nat)) dl0, timers_ok dl0 -> let dl1 := foldl (fun dl dr => stopTimer (it dr.1) dr.1 dl) dl0 l in
    timers_ok dl1 /\ flights dl1 = flights dl0 /\ delivered dl1 = delivered dl0).
  { induction l as [|[ds b] l IH]; intros dl0 H0; simpl; [done|].
    destruct (stop_frame (it ds) ds dl0) as (_ & S2 & S3 & _). destruct (IH _ (stop_timers (it ds) ds dl0 H0)) as (I1 & I2 & I3).
    split; [done|]. by rewrite I2, I3, S2, S3. }
  assert (Hl : forall (l : list (string * list nat)) dl0, timers_ok dl0 -> pending dl0 = ∅ ->
    let dl1 := foldl (fun dl dr => launch dr.2 dl) dl0 l in
    timers_ok dl1 /\ pending dl1 = ∅ /\ concat (flights dl1) = concat (flights dl0) ++ concat l.*2 /\ delivered dl1 = delivered dl0).
  { induction l as [|[ds b] l IH]; intros dl0 H0 Hp; simpl; [by rewrite app_nil_r|].
    destruct (launch_frame b dl0) as (F1 & F2 & F3 & F4 & F5 & F6).
    destruct (IH (launch b dl0)) as (I1 & I2 & I3 & I4); [eapply timers_ok_ext; eauto|by rewrite F1|].
    split; [done|]. split; [done|]. rewrite I3, I4, F5, F6, <- app_assoc. done. }
  destruct (Hs (map_to_list (pending dl)) (set_closed dl)) as (T1 & T2 & T3); [by apply (timers_ok_ext dl)|].
  set (dl2 := set_pending ∅ _) in *.
  destruct (Hl (map_to_list (pending dl)) dl2) as (L1 & L2 & L3 & L4); [by eapply timers_ok_ext, T1|done|].
  split; [|split; [exact L1|]].
  - unfold everywhere. rewrite L2, L3, L4, app_nil_r. unfold waiting at 1. rewrite map_to_list_empty. simpl.
    rewrite T2, T3. cbn. rewrite app_assoc. apply Permutation_app_tail, Permutation_app_comm.
  - intros ds [b Hb]. by rewrite L2, lookup_empty in Hb.
Qed.
Lemma execute_kept before req reqs after dl : Inv dl -> flights dl = before ++ (req :: reqs) :: after ->
  kept dl (set_flights (before ++ match reqs with [] => [] | _ => [reqs] end ++ after) (delivered dl ++ [req]) dl) [].
Proof.
  intros [_ Ht Hw] Hf. split; [|split; [by apply (timers_ok_ext dl)|exact Hw]].
  rewrite app_nil_r. unfold everywhere. cbn [pending flights delivered set_flights]. rewrite Hf, !concat_app.
  apply Permutation_app_head. simpl.
  assert (E : concat match reqs with [] => [] | _ => [reqs] end = reqs) by (destruct reqs; simpl; by rewrite ?app_nil_r).
  rewrite E, <- !app_assoc. apply Permutation_app_head. rewrite !app_assoc, <- (Permutation_app_comm [req]). simpl.
  by rewrite <- !app_assoc.
Qed.
Lemma step_kept l dl dl' : Inv dl -> step l dl dl' -> kept dl dl' (option_list l) /\ Inv dl'.
Proof.
  intros HI Hs.
  assert (Hk : kept dl dl' (option_list l) /\ NoDup (everywhere dl ++ option_list l)).
  { destruct Hs as [it ds req dl dl' Hn H|t ds before after dl Ho| | |before req reqs after dl Hf]; simpl.
    - split; [by eapply load_kept|]. apply NoDup_app. split; [apply HI|]. split; [|repeat constructor; by intros ?%elem_of_nil].
      intros x Hx ->%list_elem_of_singleton. done.
    - split; [by apply (timer_kept t)|rewrite app_nil_r; apply HI].
    - split; [by apply cancel_kept|rewrite app_nil_r; apply HI].
    - split; [by apply close_kept|rewrite app_nil_r; apply HI].
    - split; [by apply execute_kept|rewrite app_nil_r; apply HI]. }
  destruct Hk as [(He & Ht & Hw) Hn]. split; [done|]. split; [by rewrite He|done|done].
Qed.
Lemma launch_closed reqs dl : closed (launch reqs dl) = closed dl.
Proof. by destruct reqs. Qed.
Lemma closed_stays l dl dl' : step l dl dl' -> (closed dl = true -> pending dl = ∅) -> closed dl' = true -> pending dl' = ∅.
Proof.
  intros Hs. destruct Hs as [it ds req dl dl' _ H|t ds before after dl _|it ds dl|it dl|]; intros Hc; [| | | |done].
  - unfold Load in H. destruct (closed dl) eqn:Ec; [done|]. revert H. set (dl1 := set_pending _ dl).
    destruct (maxBatch <=? _); intros [= <-].
    + destruct (stop_frame it ds dl1) as (_ & _ & _ & S4 & _).
      rewrite launch_closed. cbn [closed set_pending]. rewrite S4. unfold dl1. cbn. congruence.
    + unfold ensureTimer. destruct (timers dl1 !! ds); unfold dl1; cbn; congruence.
  - unfold timer_function, takePending. destruct (launch_frame (default [] (pending dl !! ds))
      (set_timers (delete ds (timers dl)) (before ++ after) (next_timer dl) (set_pending (delete ds (pending dl)) dl))) as (F1 & _).
    cbn. intros H. etrans; [exact F1|]. cbn. rewrite Hc; [apply delete_empty|]. by destruct (default [] (pending dl !! ds)).
  - unfold cancelled, takePending. destruct (stop_frame it ds (set_pending (delete ds (pending dl)) dl)) as (S1 & _ & _ & S4 & _).
    destruct (default [] (pending dl !! ds)); cbn; [|rewrite S1, S4]; cbn; intros H; rewrite Hc by done; apply delete_empty.
  - intros _. unfold Close. assert (G : forall (l : list (string * list nat)) dl0, pending dl0 = ∅ ->
      pending (foldl (fun dl dr => launch dr.2 dl) dl0 l) = ∅).
    { induction l as [|x l IH]; intros dl0 H0; [done|]. apply IH. by destruct (launch_frame x.2 dl0) as [-> _]. }
    by apply G.
Qed.

(** C37: every request is answered once.  In any interleaving of loads, timers, cancelled callers,
    a close and executions, each submitted request is in exactly one place: it waits, is part
    of one batch being executed, or has been delivered; what waits has a timer function still
    to come, so once no goroutine of the loader is left every request has been delivered; and
    a closed loader holds nothing back. *)
Theorem loader_exactly_once sub dl :
  runs sub dl ->
  NoDup sub /\ everywhere dl ≡ₚ sub
  /\ (forall ds b, pending dl !! ds = Some b -> exists t, (t, ds) ∈ outstanding dl)
  /\ (outstanding dl = [] -> flights dl = [] -> delivered dl ≡ₚ sub)
  /\ (closed dl = true -> pending dl = ∅).
Proof.
  intros H. assert (G : Inv dl /\ everywhere dl ≡ₚ sub /\ (closed dl = true -> pending dl = ∅)).
  { induction H as [|sub l dl dl' _ (HI & He & Hc) Hs].
    - split; [|split; [done|done]]. split; [exact (NoDup_nil_2 (A := nat))| |intros ds [b Hb]; discriminate Hb].
      split; [intros ds t Ht; discriminate Ht|by intros ? ? ?%elem_of_nil|constructor].
    - destruct (step_kept l dl dl' HI Hs) as [(Hk & _) HI']. split; [done|]. split; [by rewrite Hk, He|].
      by eapply closed_stays. }
  destruct G as ([Hn [H1 _ _] Hw] & He & Hc).
  assert (Hwait : forall ds b, pending dl !! ds = Some b -> exists t, (t, ds) ∈ outstanding dl).
  { intros ds b Hb. destruct (Hw ds (ex_intro _ b Hb)) as [t Ht]. exists t. by apply H1. }
  split; [by rewrite <- He|]. split; [done|]. split; [done|]. split; [|done]. intros Ho Hf. rewrite <- He. unfold everywhere.
  rewrite Hf. assert (Hp : pending dl = ∅).
  { apply map_empty. intros ds. destruct (pending dl !! ds) as [b|] eqn:Hb; [|done]. destruct (Hwait ds b Hb) as [t Ht].
    rewrite Ho in Ht. by apply elem_of_nil in Ht. }
  rewrite Hp. unfold waiting. by rewrite map_to_list_empty.
Qed.
End Steps.

(** Two requests for one source with batches of two: the second flushes the batch. *)
Lemma loader_exactly_once_witness : exists dl, runs 2 [1%nat; 2%nat] dl /\ NoDup [1%nat; 2%nat] /\ flights dl = [[1%nat; 2%nat]].
Proof.
  assert (H : exists dl, runs 2 [1%nat; 2%nat] dl /\ flights dl = [[1%nat; 2%nat]]).
  { eexists. split.
    - refine (run_step 2 [1%nat] (Some 2%nat) _ _ (run_step 2 [] (Some 1%nat) _ _ (run_new 2) _) _).
      + eapply (step_load 2 true "sr"); [|reflexivity]. vm_compute. intros H. inversion H.
      + eapply (step_load 2 true "sr"); [|reflexivity]. vm_compute. intros H. inversion H; subst. by apply elem_of_nil in H2.
    - reflexivity. }
  destruct H as (dl & H & Hf). exists dl. split; [exact H|]. split; [|exact Hf]. apply (loader_exactly_once 2 [1%nat; 2%nat] dl H).
Defined.
