(* ===== verification/Effects.v ===== *)
(** * Computations with effects

    The writer and error monad of the request pipelines: the outcome of a computation and the
    effects it had, in order.  [finally] and [on_error] are the deferred calls of the
    code; [after] and [on_failure] are code behind a call that can panic.
    [LogEntry] is the entry of internal/audit/audit.go. *)
From S2P Require Import Prelude GoStrings Values.

Record LogEntry := {
  Principal : string;
  Time : Z;
  Operation : string;
  Datasource : string;
  Success : bool;
  ExtraFields : list (string * string);
}.

Definition M (Ev A : Type) : Type := result A * list Ev.
Section Monad.
Context {Ev : Type}.

Definition ret {A} (a : A) : M Ev A := (Ok a, []).
Definition fail {A} (e : error) : M Ev A := (Err e, []).
Definition lift {A} (r : result A) : M Ev A := (r, []).
Definition emit (ev : list Ev) : M Ev unit := (Ok tt, ev).
Definition bindM {A B} (m : M Ev A) (f : A -> M Ev B) : M Ev B :=
  match m.1 with
  | Ok a => ((f a).1, m.2 ++ (f a).2)
  | Err e => (Err e, m.2)
  end.
Definition outcome_of {A} (m : M Ev A) : option error := match m.1 with Ok _ => None | Err e => Some e end.
(** Effects that follow [m] whatever its outcome; that follow its failure. *)
Definition finally {A} (m : M Ev A) (k : option error -> list Ev) : M Ev A :=
  (m.1, m.2 ++ k (match m.1 with Ok _ => None | Err e => Some e end)).
Definition on_error {A} (m : M Ev A) (w : list Ev) : M Ev A :=
  finally m (fun e => match e with None => [] | Some _ => w end).
(** The same for calls that can panic: code after such a call is not reached. *)
Definition after {A} (m : M Ev A) (k : option error -> list Ev) : M Ev A :=
  finally m (fun e => match e with Some (Panic _) => [] | _ => k e end).
Definition on_failure {A} (m : M Ev A) (w : list Ev) : M Ev A :=
  after m (fun e => match e with None => [] | Some _ => w end).
End Monad.
Notation "x <-- m ; k" := (bindM m (fun x => k)) (at level 100, m at next level, right associativity).
Notation "m ;;; k" := (bindM m (fun _ => k)) (at level 100, right associativity).

(** The same with a state: what an operation does to it is kept on every path. *)
Definition ST (S Ev A : Type) : Type := S -> M Ev A * S.
Section State.
Context {S Ev : Type}.

Definition srun {A} (m : M Ev A) : ST S Ev A := fun s => (m, s).
Definition sbind {A B} (m : ST S Ev A) (f : A -> ST S Ev B) : ST S Ev B := fun s =>
  let '((r, ev), s1) := m s in
  match r with
  | Ok a => let '((r2, ev2), s2) := f a s1 in ((r2, ev ++ ev2), s2)
  | Err e => ((Err e, ev), s1)
  end.
Definition sfinally {A} (m : ST S Ev A) (k : option error -> list Ev) : ST S Ev A := fun s =>
  let '(x, s1) := m s in (finally x k, s1).
Definition son_error {A} (m : ST S Ev A) (w : list Ev) : ST S Ev A := fun s =>
  let '(x, s1) := m s in (on_error x w, s1).
End State.
Notation "x <~ m ; k" := (sbind m (fun x => k)) (at level 100, m at next level, right associativity).
Notation "m ~~ k" := (sbind m (fun _ => k)) (at level 100, right associativity).
