(* ===== verification/Tracing.v ===== *)
(** * internal/observability/tracing.go, redis_hook.go and resolver/mutation_tracing.go: spans

    What the code tells the tracer is a list of [SpanEvent]s.  A span is started and ended in
    one call, so an event is about the innermost span that is still open; [run_spans] follows
    the open spans.  A status holds the error whose text is its description.  Exporters, the
    sampler and the propagation of trace headers are the OpenTelemetry library's. *)
From S2P Require Import Prelude GoStrings Values Effects.
From S2P Require Net.

(** ** Spans *)

Inductive Attribute := AString (k v : string) | AInt64 (k : string) (v : Z).
Inductive SpanStatus := StatusOk | StatusError (err : error).
Inductive SpanEvent :=
  | SpanStart (name : string)
  | SetAttributes (attrs : list Attribute)
  | SetStatus (st : SpanStatus)
  | RecordError (err : error)
  | SpanEnd.

(** The spans open after some events, innermost first; [None] when an event is about no span. *)
Fixpoint run_spans (evs : list SpanEvent) (spans : list string) : option (list string) :=
  match evs with
  | [] => Some spans
  | SpanStart name :: evs' => run_spans evs' (name :: spans)
  | SpanEnd :: evs' => match spans with [] => None | _ :: spans' => run_spans evs' spans' end
  | _ :: evs' => match spans with [] => None | _ => run_spans evs' spans end
  end.
(** Every span is ended once, and no event is about a span that is not open. *)
Definition balanced (evs : list SpanEvent) : Prop := forall spans, run_spans evs spans = Some spans.

(** *** The constructors of tracing.go: the events before the caller's *)

Definition StartRequestSpan (operationType operationName httpMethod httpURL : string) : list SpanEvent :=
  [SpanStart ("GraphQL " +:+ operationType +:+ " " +:+ operationName);
   SetAttributes [AString "graphql.operation.name" operationName; AString "graphql.operation.type" operationType;
                  AString "http.method" httpMethod; AString "http.url" httpURL]].
Definition StartResolverSpan (fieldName fieldType datasource : string) : list SpanEvent :=
  [SpanStart ("Resolver " +:+ fieldName);
   SetAttributes [AString "graphql.field.name" fieldName; AString "graphql.field.type" fieldType;
                  AString "graphql.datasource" datasource]].
Definition StartStarRocksSpan (sanitizedSQL datasource : string) : list SpanEvent :=
  [SpanStart "StarRocks Query";
   SetAttributes [AString "db.system" "starrocks"; AString "db.statement" sanitizedSQL; AString "db.datasource" datasource]].
Definition StartPrometheusSpan (promQL datasource : string) : list SpanEvent :=
  [SpanStart "Prometheus Query";
   SetAttributes [AString "db.system" "prometheus"; AString "db.statement" promQL; AString "db.datasource" datasource]].
(** [span] may be nil. *)
Definition RecordSpanError (span : bool) (err : option error) : list SpanEvent :=
  match err with
  | Some e => if negb span then [] else [SetStatus (StatusError e); RecordError e]
  | None => []
  end.

(** ** mutation_tracing.go *)

Section Trace.
Context {Ev : Type}.
Variable ev : SpanEvent -> Ev.

Definition traceMutation (operation table : string) (fn : M Ev Z) : M Ev Z :=
  let '(res, evs) := fn in
  (res,
   map ev [SpanStart ("mutation." +:+ operation);
           SetAttributes [AString "db.system" "starrocks"; AString "db.operation" operation; AString "db.table" table]]
   ++ evs
   ++ map ev (match res with
              | Err (Panic _) => []
              | Err err => [RecordError err; SetStatus (StatusError err)]
              | Ok affected => [SetAttributes [AInt64 "db.affected_rows" affected]; SetStatus StatusOk]
              end)
   ++ map ev [SpanEnd]).

(** ** redis_hook.go *)

(** What both hooks do around a command. *)
Definition hooked (spanName : string) (attrs : list Attribute) (next : M Ev unit) : M Ev unit :=
  let '(res, evs) := next in
  (res,
   map ev [SpanStart spanName; SetAttributes attrs]
   ++ evs
   ++ map ev (match res with Err err => [SetStatus (StatusError err); RecordError err] | Ok _ => [] end)
   ++ map ev [SpanEnd]).
Definition ProcessHook {UT : UnicodeTables} (peerName name : string) (next : M Ev unit) : M Ev unit :=
  let cmdName := to_upper name in
  hooked ("Redis " +:+ cmdName)
    [AString "db.system" "redis"; AString "db.operation" cmdName; AString "net.peer.name" peerName] next.
Definition ProcessPipelineHook (peerName : string) (cmds : list string) (next : M Ev unit) : M Ev unit :=
  hooked "Redis PIPELINE"
    [AString "db.system" "redis"; AString "db.operation" "PIPELINE"; AString "net.peer.name" peerName;
     AInt64 "db.redis.pipeline_length" (Z.of_nat (length cmds))] next.
End Trace.

(** [NewRedisTracingHook]: the [peerName]. *)
Definition NewRedisTracingHook (addr : string) : string := default addr (Net.SplitHost addr).
Example peer_plain : NewRedisTracingHook "redis.local:6379" = "redis.local". Proof. reflexivity. Qed.
Example peer_bare : NewRedisTracingHook "redis.local" = "redis.local". Proof. reflexivity. Qed.

(** ** Lemmas *)

Lemma run_spans_app a b spans : run_spans (a ++ b) spans = run_spans a spans ≫= run_spans b.
Proof.
  revert spans. induction a as [|e a IH]; intros spans; [done|].
  destruct e; cbn [app run_spans]; [apply IH|destruct spans; simpl; [done|apply IH]..].
Qed.
Lemma balanced_nil : balanced [].
Proof. done. Qed.
Lemma balanced_app a b : balanced a -> balanced b -> balanced (a ++ b).
Proof. intros Ha Hb spans. rewrite run_spans_app, Ha. apply Hb. Qed.
(** A span around balanced events, with any number of remarks after them. *)
Definition remark (e : SpanEvent) : bool := match e with SpanStart _ | SpanEnd => false | _ => true end.
Lemma run_remarks rs name spans : forallb remark rs = true -> run_spans rs (name :: spans) = Some (name :: spans).
Proof. induction rs as [|r rs IH]; [done|]. simpl. intros [Hr H]%andb_true_iff. destruct r; try done; by apply IH. Qed.
Lemma balanced_span name before evs after :
  forallb remark before = true -> forallb remark after = true -> balanced evs ->
  balanced (SpanStart name :: before ++ evs ++ after ++ [SpanEnd]).
Proof.
  intros Hb Ha He spans. cbn [run_spans]. rewrite run_spans_app, run_remarks by done. cbn [mbind option_bind].
  rewrite run_spans_app, He. cbn [mbind option_bind]. by rewrite run_spans_app, run_remarks.
Qed.
#[export] Hint Resolve balanced_nil balanced_app : mk.

(** The spans of a log of effects. *)
Definition span_events {Ev} (spans : Ev -> option SpanEvent) (evs : list Ev) : list SpanEvent := omap spans evs.
Lemma span_events_map {Ev} (ev : SpanEvent -> Ev) spans evs :
  (forall e, spans (ev e) = Some e) -> omap spans (map ev evs) = evs.
Proof. intros H. induction evs as [|e evs IH]; [done|]. cbn. rewrite H. by f_equal. Qed.

Section Transparent.
Context {Ev : Type}.
Variables (ev : SpanEvent -> Ev) (spans : Ev -> option SpanEvent).
Hypothesis spans_ev : forall e, spans (ev e) = Some e.
#[local] Set Default Proof Using "Type".

(** A traced mutation has the result and, in order, the effects of the untraced one; its spans
    are balanced when those of the function are. *)
Lemma traceMutation_spec operation table (fn : M Ev Z) :
  (traceMutation ev operation table fn).1 = fn.1
  /\ (forall A (f : Ev -> option A), (forall e, f (ev e) = None) ->
        omap f (traceMutation ev operation table fn).2 = omap f fn.2)
  /\ (balanced (span_events spans fn.2) -> balanced (span_events spans (traceMutation ev operation table fn).2)).
Proof using spans_ev.
  unfold traceMutation. destruct fn as [res evs]. cbn [fst snd]. split; [done|]. split.
  - intros A f Hf. assert (Hmap : forall l, omap f (map ev l) = []).
    { induction l as [|e l IH]; [done|]. cbn. by rewrite Hf. }
    by rewrite !omap_app, !Hmap, !app_nil_r.
  - intros Hb. unfold span_events in *. rewrite !omap_app.
    rewrite !(span_events_map ev spans) by done. cbn [app]. apply (balanced_span _ [_]); [done| |done]. destruct res as [|[]]; done.
Qed.
End Transparent.
