(* ===== verification/Metrics.v ===== *)
(** * internal/observability/metrics.go and internal/template/metrics.go: the metrics

    A metric vector is what its [Opts] and label names say.  The registry is the Prometheus
    client's, the class [Registry]: [Register] gives nothing where the library returns an
    error, which [MustRegister] turns into a panic.  [RegistryLaws] is the documented
    behaviour: a metric is accepted when no other has its name, and its variable and constant
    label names are valid and all different. *)
From S2P Require Import Prelude GoStrings Values.

Inductive MetricKind := Counter | Gauge | Histogram (buckets : list Z).  (** bounds in thousandths *)
Record Desc := { Name : string; Kind : MetricKind; VariableLabels : list string; ConstLabels : list (string * string) }.
Definition label_names (d : Desc) : list string := VariableLabels d ++ (ConstLabels d).*1.

Class Registry (G : Type) := {
  NewRegistry : G;   (** with the Go runtime and process collectors *)
  Register : Desc -> G -> option G;
  label_ok : string -> bool;
}.
Class RegistryLaws {G} (R : Registry G) := {
  registered : G -> string -> Prop;
  new_registered n : has_prefix "graphql_" n = true -> ~ registered NewRegistry n;
  register_iff d g : is_Some (Register d g) <->
    ~ registered g (Name d) /\ NoDup (label_names d) /\ Forall (fun l => label_ok l = true) (label_names d);
  register_names d g g' n : Register d g = Some g' -> registered g' n <-> n = Name d \/ registered g n;
  (** letters and underscores, the first no underscore *)
  label_ok_plain l : str_forallb (fun c => is_lower c || Ascii.eqb c "_") l = true -> l <> EmptyString ->
    has_prefix "_" l = false -> label_ok l = true;
}.

Section Metrics.
Context {G : Type} {R : Registry G}.

(** [reg.MustRegister(ds...)]; nothing is its panic. *)
Definition MustRegister (ds : list Desc) (g : G) : option G := foldl (fun o d => g ← o; Register d g) (Some g) ds.

Record MetricsCollector := { registry : G; customLabels : list (string * string) }.

Definition requestDurationBuckets : list Z := [10; 25; 50; 100; 200; 500; 1000; 2500; 5000; 10000].
Definition dsQueryDurationBuckets : list Z := [5; 10; 25; 50; 100; 250; 500; 1000; 2500; 5000].
Definition mutationDurationBuckets : list Z := [5; 10; 25; 50; 100; 250; 500; 1000; 2500; 5000].

(** The vectors [NewMetricsCollector] makes, in the order it registers them. *)
Definition collector_metrics (cl : list (string * string)) : list Desc :=
  [{| Name := "graphql_request_duration_seconds"; Kind := Histogram requestDurationBuckets;
      VariableLabels := ["operation_name"; "operation_type"; "datasource"]; ConstLabels := cl |};
   {| Name := "graphql_requests_total"; Kind := Counter;
      VariableLabels := ["operation_name"; "operation_type"; "status"; "datasource"]; ConstLabels := cl |};
   {| Name := "graphql_requests_in_flight"; Kind := Gauge; VariableLabels := []; ConstLabels := cl |};
   {| Name := "graphql_datasource_query_duration_seconds"; Kind := Histogram dsQueryDurationBuckets;
      VariableLabels := ["datasource"; "datasource_type"]; ConstLabels := cl |};
   {| Name := "graphql_datasource_connection_pool_active"; Kind := Gauge; VariableLabels := ["datasource"]; ConstLabels := cl |};
   {| Name := "graphql_datasource_connection_pool_idle"; Kind := Gauge; VariableLabels := ["datasource"]; ConstLabels := cl |};
   {| Name := "graphql_datasource_connection_pool_waiting"; Kind := Gauge; VariableLabels := ["datasource"]; ConstLabels := cl |};
   {| Name := "graphql_errors_total"; Kind := Counter; VariableLabels := ["error_type"; "datasource"]; ConstLabels := cl |};
   {| Name := "graphql_cache_hits_total"; Kind := Counter; VariableLabels := ["datasource"; "cache_backend"]; ConstLabels := cl |};
   {| Name := "graphql_cache_misses_total"; Kind := Counter; VariableLabels := ["datasource"; "cache_backend"]; ConstLabels := cl |};
   {| Name := "graphql_mutation_duration_seconds"; Kind := Histogram mutationDurationBuckets;
      VariableLabels := ["operation"; "datasource"; "table"; "status"]; ConstLabels := cl |};
   {| Name := "graphql_mutation_total"; Kind := Counter;
      VariableLabels := ["operation"; "datasource"; "table"; "status"]; ConstLabels := cl |}].
Definition NewMetricsCollector (CustomLabels : list (string * string)) : option MetricsCollector :=
  let cl := CustomLabels in
  reg ← MustRegister (collector_metrics cl) NewRegistry;
  Some {| registry := reg; customLabels := cl |}.

(** [prometheus.DefBuckets]. *)
Definition DefBuckets : list Z := [5; 10; 25; 50; 100; 250; 500; 1000; 2500; 5000; 10000].
Definition template_metrics (constLabels : list (string * string)) : list Desc :=
  [{| Name := "graphql_template_query_duration_seconds"; Kind := Histogram DefBuckets;
      VariableLabels := ["template_name"; "datasource"]; ConstLabels := constLabels |};
   {| Name := "graphql_template_queries_total"; Kind := Counter;
      VariableLabels := ["template_name"; "status"]; ConstLabels := constLabels |};
   {| Name := "graphql_template_render_duration_seconds"; Kind := Histogram DefBuckets;
      VariableLabels := ["template_name"]; ConstLabels := constLabels |};
   {| Name := "graphql_template_semaphore_wait_seconds"; Kind := Histogram DefBuckets;
      VariableLabels := ["template_name"]; ConstLabels := constLabels |};
   {| Name := "graphql_template_cache_hits_total"; Kind := Counter;
      VariableLabels := ["template_name"; "result"]; ConstLabels := constLabels |};
   {| Name := "graphql_template_render_goroutine_leaks"; Kind := Gauge; VariableLabels := []; ConstLabels := constLabels |}].
(** On the registry of the collector and with its labels; what is left of the registry. *)
Definition NewTemplateMetrics (reg : G) (customLabels : list (string * string)) : option G :=
  MustRegister (template_metrics customLabels) reg.

(** ** When the registration panics *)

(** The label names the metrics vary. *)
Definition varied (ds : list Desc) : list string := remove_dups (concat (map VariableLabels ds)).
Definition reserved_labels : list string :=
  ["operation_name"; "operation_type"; "datasource_type"; "error_type"; "cache_backend"; "operation"; "datasource"; "table"; "status"].
Definition reserved_template_labels : list string := ["datasource"; "status"; "template_name"; "result"].
(** Constant labels with valid names that are not varied. *)
Definition label_free (reserved : list string) (cl : list (string * string)) : Prop :=
  Forall (fun l => label_ok l = true /\ l ∉ reserved) cl.*1.

Context {RL : RegistryLaws R}.
#[local] Set Default Proof Using "Type".

Lemma MustRegister_None ds : foldl (fun o d => g ← o; Register d g) None ds = None.
Proof. induction ds as [|d ds IH]; [done|]. exact IH. Qed.
(** Registering several metrics: their names are new and different, their labels are. *)
Definition labels_fit (d : Desc) : Prop := NoDup (label_names d) /\ Forall (fun l => label_ok l = true) (label_names d).
Lemma MustRegister_iff ds : forall g, NoDup (map Name ds) -> Forall (fun d => ~ registered g (Name d)) ds ->
  (is_Some (MustRegister ds g) <-> Forall labels_fit ds)
  /\ forall g' n, MustRegister ds g = Some g' -> registered g' n <-> n ∈ map Name ds \/ registered g n.
Proof using RL.
  induction ds as [|d ds IH]; intros g Hnd Hnew.
  { unfold MustRegister. simpl. split; [split; [constructor|done]|]. intros g' n [= <-].
    split; [by right|]. intros [H|H]; [by apply elem_of_nil in H|done]. }
  simpl in Hnd. apply NoDup_cons in Hnd as [Hd Hnd]. apply Forall_cons in Hnew as [Hn Hnew].
  unfold MustRegister in *. cbn [foldl mbind option_bind].
  pose proof (register_iff d g) as Hreg. destruct (Register d g) as [g1|] eqn:E.
  - assert (Hfit : labels_fit d) by (destruct (proj1 Hreg) as (_ & ? & ?); [done|by split]).
    destruct (IH g1) as [H1 H2]; [done| |].
    { rewrite !Forall_forall in *. intros x Hx. rewrite (register_names d g g1 _ E). intros [Hq|Hq]; [|by apply (Hnew x Hx)].
      apply Hd. rewrite <- Hq. apply list_elem_of_In, in_map, list_elem_of_In, Hx. }
    split.
    + rewrite H1, Forall_cons. naive_solver.
    + intros g' n Hg. rewrite (H2 g' n Hg), (register_names d g g1 n E). simpl. rewrite elem_of_cons. tauto.
  - rewrite MustRegister_None. split; [|done]. split; [by intros [? ?]|]. rewrite Forall_cons. intros [[H1 H2] _].
    destruct (proj2 Hreg) as [? ?]; [by split_and!|done].
Qed.

(** Metrics that share their constant labels. *)
Lemma labels_fit_iff (ds : list Desc) cl :
  ds <> [] -> NoDup cl.*1 ->
  Forall (fun d => ConstLabels d = cl /\ NoDup (VariableLabels d) /\ Forall (fun l => label_ok l = true) (VariableLabels d)) ds ->
  Forall labels_fit ds <-> label_free (varied ds) cl.
Proof using RL.
  intros Hne Hcl Hds. unfold label_free.
  assert (Hone : forall d, d ∈ ds -> labels_fit d <-> Forall (fun l => label_ok l = true /\ l ∉ VariableLabels d) cl.*1).
  { intros d Hd. rewrite Forall_forall in Hds. destruct (Hds d Hd) as (Hc & Hv & Hok).
    unfold labels_fit, label_names. rewrite Hc, NoDup_app, Forall_app, !Forall_forall.
    rewrite Forall_forall in Hok. split; [intros ((_ & H1 & _) & _ & H2) l Hl; split; [by apply H2|by intros ?%H1]|].
    intros H. split_and!; [done|intros l Hl Hin; by apply (H l Hin)|done|done|intros l Hl; by apply H]. }
  assert (Hin : forall l, l ∈ varied ds <-> exists d, d ∈ ds /\ l ∈ VariableLabels d).
  { intros l. unfold varied. rewrite elem_of_remove_dups, list_elem_of_In, in_concat. split.
    - intros (x & Hx & Hl). apply in_map_iff in Hx as (d & <- & Hd). exists d. by rewrite !list_elem_of_In.
    - intros (d & Hd & Hl). exists (VariableLabels d). rewrite <- !list_elem_of_In. split; [|done].
      apply list_elem_of_In, in_map, list_elem_of_In, Hd. }
  rewrite !Forall_forall. split.
  - intros H l Hl. split.
    + destruct ds as [|d ds]; [done|]. pose proof (proj1 (Hone d ltac:(left)) (H d ltac:(left))) as Hd.
      rewrite Forall_forall in Hd. by apply Hd.
    + rewrite Hin. intros (d & Hd & Hv). pose proof (proj1 (Hone d Hd) (H d Hd)) as Hf. rewrite Forall_forall in Hf.
      by apply (Hf l Hl).
  - intros H d Hd. apply (Hone d Hd), Forall_forall. intros l Hl. destruct (H l Hl) as [H1 H2]. split; [done|].
    intros Hv. apply H2, Hin. eauto.
Qed.
Ltac plain_labels := repeat (apply Forall_cons; split; [apply label_ok_plain; by vm_compute|]); constructor.
Lemma collector_labels cl :
  Forall (fun d => ConstLabels d = cl /\ NoDup (VariableLabels d) /\ Forall (fun l => label_ok l = true) (VariableLabels d))
    (collector_metrics cl).
Proof using RL.
  repeat (apply Forall_cons; split; [split; [reflexivity|split; [decided|plain_labels]]|]). constructor.
Qed.
Lemma template_labels cl :
  Forall (fun d => ConstLabels d = cl /\ NoDup (VariableLabels d) /\ Forall (fun l => label_ok l = true) (VariableLabels d))
    (template_metrics cl).
Proof using RL.
  repeat (apply Forall_cons; split; [split; [reflexivity|split; [decided|plain_labels]]|]). constructor.
Qed.

Lemma NewMetricsCollector_iff cl : NoDup cl.*1 ->
  (is_Some (NewMetricsCollector cl) <-> label_free reserved_labels cl)
  /\ forall mc, NewMetricsCollector cl = Some mc -> customLabels mc = cl
     /\ forall n, n ∉ map Name (collector_metrics []) -> has_prefix "graphql_" n = true -> ~ registered (registry mc) n.
Proof using RL.
  intros Hnd. unfold NewMetricsCollector.
  assert (Hnew : Forall (fun d => ~ registered NewRegistry (Name d)) (collector_metrics cl))
    by (repeat (apply Forall_cons; split; [by apply new_registered|]); constructor).
  destruct (MustRegister_iff (collector_metrics cl) NewRegistry) as [H1 H2]; [decided|done|].
  assert (E : varied (collector_metrics cl) = reserved_labels) by (vm_compute; reflexivity).
  rewrite (labels_fit_iff (collector_metrics cl) cl ltac:(done) Hnd (collector_labels cl)), E in H1. rewrite <- H1.
  destruct (MustRegister (collector_metrics cl) NewRegistry) as [g|]; simpl;
    [|split; [split; intros [? ?]; done|done]].
  split; [split; by eexists|]. intros mc [= <-]. cbn [registry customLabels]. split; [done|].
  intros n Hni Hp. rewrite (H2 g n eq_refl). intros [Hin|Hin]; [done|]. by apply (new_registered n Hp).
Qed.

(** which custom labels a process survives.  [NewMetricsCollector] panics exactly when a
    custom label has a name the registry rejects, or the name of a label some metric varies
    ([datasource], [status], [table] and others); when it passes, [NewTemplateMetrics] panics
    exactly for the labels [template_name] and [result]. *)
Theorem custom_labels_panic cl :
  NoDup cl.*1 ->
  (is_Some (NewMetricsCollector cl) <-> label_free reserved_labels cl)
  /\ forall mc, NewMetricsCollector cl = Some mc ->
     customLabels mc = cl
     /\ (is_Some (NewTemplateMetrics (registry mc) (customLabels mc)) <->
         "template_name" ∉ cl.*1 /\ "result" ∉ cl.*1).
Proof using RL.
  intros Hnd. destruct (NewMetricsCollector_iff cl Hnd) as [H1 H2]. split; [exact H1|].
  intros mc Hmc. destruct (H2 mc Hmc) as [-> Hn]. split; [done|]. unfold NewTemplateMetrics.
  destruct (MustRegister_iff (template_metrics cl) (registry mc)) as [H3 _]; [decided| |].
  { repeat (apply Forall_cons; split; [apply Hn; [decided|done]|]). constructor. }
  rewrite H3. assert (E' : varied (template_metrics cl) = reserved_template_labels) by (vm_compute; reflexivity).
  rewrite (labels_fit_iff (template_metrics cl) cl ltac:(done) Hnd (template_labels cl)), E'.
  assert (Hfree : label_free reserved_labels cl) by (apply H1; by eexists).
  unfold label_free in *. rewrite Forall_forall in *. split.
  - intros H. split; intros Hin; destruct (H _ Hin) as [_ Hr]; apply Hr; decided.
  - intros [Ht Hr] l Hl. destruct (Hfree l Hl) as [Hok Hv]. split; [done|].
    intros Hin. unfold reserved_template_labels in Hin.
    repeat (apply elem_of_cons in Hin as [->|Hin]; [first [by apply Ht|by apply Hr|apply Hv; decided]|]). by apply elem_of_nil in Hin.
Qed.
End Metrics.

(** ** A registry for the demonstration: names of small letters and underscores *)

Definition demo_label (l : string) : bool :=
  str_forallb (fun c => is_lower c || Ascii.eqb c "_") l && negb (String.eqb l EmptyString) && negb (has_prefix "_" l).
#[local] Instance demo_registry : Registry (list string) := {|
  NewRegistry := ["go_goroutines"; "process_cpu_seconds_total"];
  Register d g :=
    if bool_decide (Name d ∉ g) && bool_decide (NoDup (label_names d)) && forallb demo_label (label_names d)
    then Some (Name d :: g) else None;
  label_ok := demo_label;
|}.
#[local] Instance demo_registry_laws : RegistryLaws demo_registry.
Proof.
  refine {| registered g n := n ∈ g |}; cbn [NewRegistry Register label_ok demo_registry].
  - intros n Hn Hin. repeat (apply elem_of_cons in Hin as [->|Hin]; [done|]). by apply elem_of_nil in Hin.
  - intros d g. rewrite Forall_forall. assert (Hf : forallb demo_label (label_names d) = true <-> forall l, l ∈ label_names d -> demo_label l = true).
    { rewrite forallb_forall. split; intros H l Hl; apply H; by apply list_elem_of_In. }
    assert (E : forall (x : bool) (y : list string), is_Some (if x then Some y else None) <-> x = true)
      by (intros [] y; split; (done || (intros [? ?]; done) || (intros; by eexists))).
    rewrite E, !andb_true_iff, !bool_decide_eq_true, Hf. tauto.
  - intros d g g' n H. repeat case_match; simplify_eq. rewrite elem_of_cons. done.
  - intros l H1 H2 H3. unfold demo_label. rewrite H1, H3. destruct (String.eqb_spec l EmptyString); done.
Defined.
Lemma custom_labels_panic_witness :
  is_Some (NewMetricsCollector (R := demo_registry) [("env", "prod")])
  /\ NewMetricsCollector (R := demo_registry) [("env", "prod"); ("datasource", "sr")] = None.
Proof.
  split.
  - apply custom_labels_panic; [decided|]. constructor; [|constructor].
    split; [done|decided].
  - apply eq_None_not_Some. intros H. apply custom_labels_panic in H; [|decided].
    apply Forall_cons in H as [_ H]. apply Forall_inv in H as [_ H]. apply H. decided.
Defined.
