(* ===== verification/Mutation.v ===== *)
(** * internal/graphql/resolver: the mutation pipeline

    mutation_exec.go, mutation_helpers.go and the data mutations of mutation.resolvers.go.
    A mutation is a computation in the writer/error monad [M]: its result and the effects it
    had, in order (limiter call, statement sent, metrics, audit entry, cache invalidation).
    The limiter, the data source and the cache are fields of the resolver, as in the code;
    each is called at most once per mutation, so each is the function of that call.  A panic,
    such as a call through a nil validator, ends the computation with [Panic]: the code behind
    the call, audit entry and metrics included, is not reached.
    Debug logging is left out. *)
From S2P Require Import Prelude GoStrings Values DataSource SqlCore SqlAdapter Whitelist MutationSql Auth Effects Tracing.
From S2P Require StarRocks Manager.

(** ** Effects *)

Inductive Event :=
  | EvRateLimit (key : string) (n : Z)
  | EvWrite (q : stmt)
  | EvMetrics (operation ds table status : string)
  | EvAudit (entry : LogEntry)
  | EvClear (ds : string)
  | EvClearAll
  | EvSpan (e : SpanEvent).
Notation M := (Effects.M Event).

(** ** The resolver's dependencies *)

Record MutationsConfig := {
  MutEnabled : bool;
  DatasourceName : string;
  MaxAffectedRows : Z;
  MaxBatchSize : Z;
}.
Record Resolver := {
  (** the snapshot this request loads from the atomic pointer *)
  MutationConfig : MutationsConfig;
  (** nil when the server started with mutations disabled, also after a hot reload enabled them *)
  rMutationValidator : option MutationValidator;
  rWritableTableValidator : option WritableTableValidator;
  (** [Allow(ctx, key, n)]: the [Allowed] flag or a limiter error *)
  MutationRateLimiter : option (string -> Z -> result bool);
  (** [DSManager.GetWritable], then [ExecuteWrite] of the data source it returns *)
  rGetWritable : string -> result (stmt -> result Z);
  (** [ClearByDatasource] and [ClearAll] *)
  CacheClearer : option ((string -> option error) * option error);
  AuditLogger : bool;
  MetricsCollector : bool;
  (** the clock when the audit entry is made *)
  rNow : Z;
}.

(** ** mutation_helpers.go *)

(** [generated.FilterOperator] is a string type. *)
Record MutationFilterInput := { mfField : string; mfOperator : string; mfValue : GoVal }.
Record ColumnValueInput := { Column : string; cvValue : GoVal }.
Record MutationResult := { resSuccess : bool; AffectedRows : Z; Warning : option string }.

Definition convertFilterOperator (op : string) : FilterOperator :=
  if String.eqb op "EQ" then FilterOpEQ
  else if String.eqb op "NEQ" then FilterOpNEQ
  else if String.eqb op "GT" then FilterOpGT
  else if String.eqb op "GTE" then FilterOpGTE
  else if String.eqb op "LT" then FilterOpLT
  else if String.eqb op "LTE" then FilterOpLTE
  else if String.eqb op "LIKE" then FilterOpLIKE
  else if String.eqb op "IN" then FilterOpIN
  else if String.eqb op "NOT_IN" then FilterOpNOT_IN
  else if String.eqb op "IS_NULL" then FilterOpIS_NULL
  else if String.eqb op "IS_NOT_NULL" then FilterOpIS_NOT_NULL
  else FilterOpEQ.

Definition errNilFilterInput : error := Errorf (Sprintf "nil filter input" []).
Definition errINRequiresNonNull : error :=
  Errorf (Sprintf "IN/NOT_IN filter requires a non-null array value" []).
Definition errINRequiresNonEmpty : error :=
  Errorf (Sprintf "IN/NOT_IN filter requires a non-empty array value" []).

Definition convertMutationFilter (input : option MutationFilterInput) : result FilterCondition :=
  match input with
  | None => Err errNilFilterInput
  | Some i =>
      let op := convertFilterOperator (mfOperator i) in
      value ←
        (if String.eqb (mfOperator i) "IS_NULL" || String.eqb (mfOperator i) "IS_NOT_NULL" then Ok VNil
         else if String.eqb (mfOperator i) "IN" || String.eqb (mfOperator i) "NOT_IN" then
           match mfValue i with
           | VNil => Err errINRequiresNonNull
           | VSlice arr => if Z.of_nat (length arr) =? 0 then Err errINRequiresNonEmpty else Ok (VSlice arr)
           | v => Err (Errorf (Sprintf "IN/NOT_IN filter value must be a JSON array, got %T" [AVal v]))
           end
         else
           match mfValue i with
           | VNil => Err (Errorf (Sprintf "filter operator %s requires a non-null value" [AStr (mfOperator i)]))
           | v => Ok v
           end);
      Ok {| Field := mfField i; DataSource.Operator := op; Value := value |}
  end.
Definition convertMutationFilters (filters : list (option MutationFilterInput))
    : result (list FilterCondition) :=
  mapR (fun f => match convertMutationFilter f with
                 | Ok fc => Ok fc
                 | Err err => Err (GqlError ErrValidationInvalidField (Sprintf "invalid filter: %s" [AErr err]))
                 end) filters.

Definition extractRateLimitKeyFromIdentity (identity : option AuthIdentity) : string :=
  match identity with
  | None => "anonymous"
  | Some i => if negb (String.eqb (Subject i) EmptyString) then Subject i else "anonymous"
  end.

Definition checkMutationRateLimit (r : Resolver) (identity : option AuthIdentity) : M unit :=
  match MutationRateLimiter r with
  | None => ret tt
  | Some allow =>
      let key := "mutation:" +:+ extractRateLimitKeyFromIdentity identity in
      emit [EvRateLimit key 1] ;;;
      match allow key 1 with
      | Err _ => ret tt
      | Ok allowed =>
          if negb allowed
          then fail (GqlError ErrMutationRateLimitExceeded (Sprintf "mutation rate limit exceeded" []))
          else ret tt
      end
  end.

Definition checkMutationAuth (identity : option AuthIdentity) (targetDatasource : string) : result unit :=
  match identity with
  | None => Err (GqlError ErrAuthMissing (Sprintf "authentication required for mutation operations" []))
  | Some i =>
      _ ← guard_err (negb (str_in (Operations i) "mutation"))
            (GqlError ErrAuthInsufficientPermission
               (Sprintf "insufficient permissions: mutation operation not allowed" []));
      guard_err ((0 <? Z.of_nat (length (Datasources i))) && negb (str_in (Datasources i) targetDatasource))
        (GqlError ErrAuthInsufficientPermission
           (Sprintf "insufficient permissions: no access to datasource %q" [AStr targetDatasource]))
  end.

Definition logMutationAudit (r : Resolver) (identity : option AuthIdentity)
    (operation table ds : string) (success : bool) (reason : string) (affectedRows : Z) : list Event :=
  if negb (AuditLogger r) then [] else
  [EvAudit {| Principal := match identity with Some i => Subject i | None => EmptyString end;
              Time := rNow r; Operation := operation; Datasource := ds; Success := success;
              ExtraFields := [("table", table)] ++
                (if success then [("affected_rows", itoa affectedRows)]
                 else if negb (String.eqb reason EmptyString) then [("reason", reason)] else []) |}].

(** ** mutation_exec.go *)

Record mutationExecPlan := {
  operation : string;
  table : string;
  plan_cfg : option MutationsConfig;
  validate : result unit;
  buildAndExecute : (stmt -> result Z) -> M Z;
}.

Definition recordMutationMetrics (r : Resolver) (operation ds table : string) (err : option error)
    : list Event :=
  if negb (MetricsCollector r) then [] else
  [EvMetrics operation ds table (match err with Some _ => "error" | None => "success" end)].

Definition checkAffectedRowsWarning (affected : Z) (cfg : MutationsConfig) : option string :=
  if MaxAffectedRows cfg <? affected
  then Some ("affected rows (" +:+ itoa affected +:+ ") exceeded threshold ("
               +:+ itoa (MaxAffectedRows cfg) +:+ ")")
  else None.

Definition invalidateCacheAfterMutation (r : Resolver) (ds : string) : list Event :=
  match CacheClearer r with None => [] | Some _ => [EvClear ds] end.

Definition executeMutation (r : Resolver) (identity : option AuthIdentity) (plan : mutationExecPlan)
    : M MutationResult :=
  let cfg := default (MutationConfig r) (plan_cfg plan) in
  let ds := DatasourceName cfg in
  let audit_failure reason :=
    logMutationAudit r identity (operation plan) (table plan) ds false reason 0 in
  if negb (MutEnabled cfg) then
    fail (GqlError ErrMutationFeatureDisabled (Sprintf "mutations feature is disabled" []))
  else
  checkMutationRateLimit r identity ;;;
  on_error (lift (checkMutationAuth identity ds)) (audit_failure "authorization_denied") ;;;
  on_failure (lift (validate plan)) (audit_failure "validation_failed") ;;;
  wds <-- on_failure (lift (rGetWritable r ds)) (audit_failure "execution_failed") ;
  affected <-- on_failure
    (after (traceMutation EvSpan (operation plan) (table plan) (buildAndExecute plan wds))
             (recordMutationMetrics r (operation plan) ds (table plan)))
    (audit_failure "execution_failed") ;
  emit (logMutationAudit r identity (operation plan) (table plan) ds true EmptyString affected) ;;;
  emit (invalidateCacheAfterMutation r ds) ;;;
  ret {| resSuccess := true; AffectedRows := affected; Warning := checkAffectedRowsWarning affected cfg |}.

(** ** mutation.resolvers.go *)

Definition ClearCache (r : Resolver) (datasource : option string) : M bool :=
  match CacheClearer r with
  | None => ret true
  | Some (clearBy, clearAll) =>
      match datasource with
      | Some d =>
          emit [EvClear d] ;;;
          match clearBy d with
          | Some err => fail (Wrap (Sprintf "failed to clear cache for datasource %q: %w" [AStr d; AErr err]) err)
          | None => ret true
          end
      | None =>
          emit [EvClearAll] ;;;
          match clearAll with
          | Some err => fail (Wrap (Sprintf "failed to clear all cache: %w" [AErr err]) err)
          | None => ret true
          end
      end
  end.

(** The [buildAndExecute] closures: length check, then the write. *)
Definition send (r : Resolver) (m : MutationSQL) (wds : stmt -> result Z) : M Z :=
  lift (ValidateSQLLength (rMutationValidator r) (SQL m)) ;;;
  emit [EvWrite (SQL m, Params m)] ;;;
  lift (wds (SQL m, Params m)).

Definition InsertStarrocks (r : Resolver) (identity : option AuthIdentity) (tbl : string)
    (values : list ColumnValueInput) : M MutationResult :=
  let columns := map Column values in
  let vals := map cvValue values in
  let w := rWritableTableValidator r in
  executeMutation r identity
    {| operation := "insert"; table := tbl; plan_cfg := None;
       validate := (_ ← ValidateInsertInput tbl columns vals;
                    _ ← ValidateTable w tbl;
                    _ ← ValidateOperation w tbl "insert";
                    ValidateWriteColumns w tbl columns);
       buildAndExecute := send r (BuildInsert tbl columns vals) |}.

(** A filter that cannot be converted is audited and refused before everything else. *)
Definition with_filters (r : Resolver) (identity : option AuthIdentity) (op tbl : string)
    (filter : list (option MutationFilterInput)) (k : list FilterCondition -> M MutationResult)
    : M MutationResult :=
  filters <-- on_error (lift (convertMutationFilters filter))
    (logMutationAudit r identity op tbl (DatasourceName (MutationConfig r)) false "validation_failed" 0) ;
  k filters.

Definition UpdateStarrocks (r : Resolver) (identity : option AuthIdentity) (tbl : string)
    (set : list ColumnValueInput) (filter : list (option MutationFilterInput)) : M MutationResult :=
  let setCols := map Column set in
  let setVals := map cvValue set in
  let w := rWritableTableValidator r in
  with_filters r identity "update" tbl filter (fun filters =>
  executeMutation r identity
    {| operation := "update"; table := tbl; plan_cfg := None;
       validate := (_ ← ValidateUpdateInput tbl setCols filters;
                    _ ← ValidateTable w tbl;
                    _ ← ValidateOperation w tbl "update";
                    _ ← ValidateWriteColumns w tbl setCols;
                    ValidateFilterColumns w tbl (map Field filters));
       buildAndExecute := send r (BuildUpdate tbl setCols setVals filters) |}).

Definition DeleteStarrocks (r : Resolver) (identity : option AuthIdentity) (tbl : string)
    (filter : list (option MutationFilterInput)) : M MutationResult :=
  let w := rWritableTableValidator r in
  with_filters r identity "delete" tbl filter (fun filters =>
  executeMutation r identity
    {| operation := "delete"; table := tbl; plan_cfg := None;
       validate := (_ ← ValidateDeleteInput tbl filters;
                    _ ← ValidateTable w tbl;
                    _ ← ValidateOperation w tbl "delete";
                    ValidateFilterColumns w tbl (map Field filters));
       buildAndExecute := send r (BuildDelete tbl filters) |}).

Definition InsertBatchStarrocks (r : Resolver) (identity : option AuthIdentity) (tbl : string)
    (columns : list string) (rows : list (list GoVal)) : M MutationResult :=
  let cfg := MutationConfig r in
  let w := rWritableTableValidator r in
  if MutEnabled cfg && (MaxBatchSize cfg <? Z.of_nat (length rows)) then
    on_error (fail (GqlError ErrValidationBatchLimitExceeded
                (Sprintf "batch size %d exceeds maximum allowed %d"
                   [AInt (Z.of_nat (length rows)); AInt (MaxBatchSize cfg)])))
      (logMutationAudit r identity "insertBatch" tbl (DatasourceName cfg) false "validation_failed" 0)
  else
  executeMutation r identity
    {| operation := "insertBatch"; table := tbl; plan_cfg := Some cfg;
       validate := (_ ← ValidateBatchInsertInput (rMutationValidator r) tbl columns rows;
                    _ ← ValidateTable w tbl;
                    _ ← ValidateOperation w tbl "insert";
                    ValidateWriteColumns w tbl columns);
       buildAndExecute := send r (BuildBatchInsert tbl columns rows) |}.

(** ** Vocabulary of the theorems *)

Definition writes (log : list Event) : list stmt :=
  omap (fun e => match e with EvWrite q => Some q | _ => None end) log.
Definition audits (log : list Event) : list LogEntry :=
  omap (fun e => match e with EvAudit x => Some x | _ => None end) log.
Definition clears (log : list Event) : list string :=
  omap (fun e => match e with EvClear d => Some d | _ => None end) log.

(** The data mutations of the schema and how each is resolved. *)
Inductive Call :=
  | CInsert (tbl : string) (values : list ColumnValueInput)
  | CUpdate (tbl : string) (set : list ColumnValueInput) (filter : list (option MutationFilterInput))
  | CDelete (tbl : string) (filter : list (option MutationFilterInput))
  | CBatch (tbl : string) (columns : list string) (rows : list (list GoVal)).
Definition run (r : Resolver) (identity : option AuthIdentity) (c : Call) : M MutationResult :=
  match c with
  | CInsert t vs => InsertStarrocks r identity t vs
  | CUpdate t set f => UpdateStarrocks r identity t set f
  | CDelete t f => DeleteStarrocks r identity t f
  | CBatch t cols rows => InsertBatchStarrocks r identity t cols rows
  end.

(** The statement a call stands for, when its filters are well formed. *)
Definition call_stmt (c : Call) : option MutationSQL :=
  match c with
  | CInsert t vs => Some (BuildInsert t (map Column vs) (map cvValue vs))
  | CUpdate t set f =>
      match convertMutationFilters f with
      | Ok fs => Some (BuildUpdate t (map Column set) (map cvValue set) fs)
      | Err _ => None
      end
  | CDelete t f =>
      match convertMutationFilters f with Ok fs => Some (BuildDelete t fs) | Err _ => None end
  | CBatch t cols rows => Some (BuildBatchInsert t cols rows)
  end.
Definition call_table (c : Call) : string :=
  match c with CInsert t _ | CUpdate t _ _ | CDelete t _ | CBatch t _ _ => t end.
(** The write operation a call needs on its table, the columns it writes, the fields it
    filters on. *)
Definition call_right (c : Call) : string :=
  match c with CInsert _ _ | CBatch _ _ _ => "insert" | CUpdate _ _ _ => "update" | CDelete _ _ => "delete" end.
Definition call_columns (c : Call) : list string :=
  match c with CInsert _ vs | CUpdate _ vs _ => map Column vs | CDelete _ _ => [] | CBatch _ cols _ => cols end.
Definition call_fields (c : Call) : list string :=
  match c with
  | CUpdate _ _ f | CDelete _ f => omap (fun o => match o with Some i => Some (mfField i) | None => None end) f
  | _ => []
  end.

(** The whitelists permit the call. *)
Definition permitted (p : option WritableTableValidator) (c : Call) : Prop :=
  exists w cfg, p = Some w /\ writableTables w !! call_table c = Some cfg
    /\ col_allowed (AllowedOperations cfg) (call_right c) = true
    /\ Forall (fun col => col_allowed (Columns cfg) col = true) (call_columns c)
    /\ (call_fields c <> [] -> exists cols, vAllowedTables w !! call_table c = Some cols
          /\ Forall (fun f => col_allowed cols f = true) (call_fields c)).
Definition authorized (identity : option AuthIdentity) (ds : string) : Prop :=
  exists i, identity = Some i /\ "mutation" ∈ Operations i /\ (Datasources i = [] \/ ds ∈ Datasources i).
(** The limiter refuses the caller. *)
Definition limited (r : Resolver) (identity : option AuthIdentity) : bool :=
  match MutationRateLimiter r with
  | None => false
  | Some allow =>
      match allow ("mutation:" +:+ extractRateLimitKeyFromIdentity identity) 1 with
      | Ok false => true
      | _ => false
      end
  end.
Definition audit_entry (r : Resolver) (identity : option AuthIdentity) (op tbl : string) (ok : bool)
    (extra : list (string * string)) : LogEntry :=
  {| Principal := match identity with Some i => Subject i | None => EmptyString end; Time := rNow r;
     Operation := op; Datasource := DatasourceName (MutationConfig r); Success := ok;
     ExtraFields := ("table", tbl) :: extra |}.
Definition audited (r : Resolver) (e : LogEntry) : list LogEntry := if AuditLogger r then [e] else [].

(** The statement is within the maximum length. *)
Definition within (p : option MutationValidator) (sql : string) : Prop :=
  exists v, p = Some v /\ slen sql <= maxSQLLength v.
(** What can panic before a statement is sent: a nil validator, or the data source manager. *)
Definition can_panic (r : Resolver) (what : string) : Prop :=
  rMutationValidator r = None \/ rWritableTableValidator r = None
  \/ rGetWritable r (DatasourceName (MutationConfig r)) = Err (Panic what).
Definition failure_reasons : list string := ["authorization_denied"; "validation_failed"; "execution_failed"].

(** Every way a mutation can end: [valid] are the whitelist and input checks, [m] its
    statement. *)
Inductive outcome (r : Resolver) (id : option AuthIdentity) (op tbl : string) (valid : Prop)
    (m : option MutationSQL) : M MutationResult -> Prop :=
  | out_gate e log :
      is_panic e = false -> MutEnabled (MutationConfig r) = false \/ limited r id = true ->
      writes log = [] -> audits log = [] -> clears log = [] ->
      outcome r id op tbl valid m (Err e, log)
  | out_panic what log :
      can_panic r what -> writes log = [] -> audits log = [] -> clears log = [] ->
      outcome r id op tbl valid m (Err (Panic what), log)
  | out_refused e log reason :
      is_panic e = false -> reason ∈ failure_reasons -> writes log = [] -> audits log = audited r (audit_entry r id op tbl false [("reason", reason)]) ->
      clears log = [] -> outcome r id op tbl valid m (Err e, log)
  | out_sent res log q wds :
      MutEnabled (MutationConfig r) = true -> limited r id = false ->
      authorized id (DatasourceName (MutationConfig r)) -> valid ->
      m = Some q -> within (rMutationValidator r) (SQL q) ->
      rGetWritable r (DatasourceName (MutationConfig r)) = Ok wds ->
      writes log = [(SQL q, Params q)] ->
      res = (n ← wds (SQL q, Params q);
             Ok {| resSuccess := true; AffectedRows := n;
                   Warning := checkAffectedRowsWarning n (MutationConfig r) |}) ->
      audits log = match res with
                   | Ok x => audited r (audit_entry r id op tbl true [("affected_rows", itoa (AffectedRows x))])
                   | Err (Panic _) => []
                   | Err _ => audited r (audit_entry r id op tbl false [("reason", "execution_failed")])
                   end ->
      clears log = match res, CacheClearer r with
                   | Ok _, Some _ => [DatasourceName (MutationConfig r)]
                   | _, _ => []
                   end ->
      outcome r id op tbl valid m (res, log).

(** ** Lemmas *)

Lemma checkMutationAuth_Ok id ds : checkMutationAuth id ds = Ok tt <-> authorized id ds.
Proof.
  unfold checkMutationAuth, authorized. destruct id as [i|]; [|naive_solver].
  assert (Hd : (0 <? Z.of_nat (length (Datasources i))) && negb (str_in (Datasources i) ds) = false
          <-> Datasources i = [] \/ ds ∈ Datasources i).
  { rewrite <- str_in_iff. destruct (Datasources i) as [|x l]; [naive_solver|].
    simpl length. rewrite (proj2 (Z.ltb_lt 0 _)) by lia. destruct (str_in (x :: l) ds); simpl; naive_solver. }
  split.
  - intros H. result_inv. exists i. rewrite <- Hd, <- str_in_iff. split; [done|]. split; [|done].
    by apply negb_false_iff.
  - intros (? & [= <-] & H1 & H2). apply Hd in H2. apply str_in_iff in H1. by rewrite H1, H2.
Qed.

Lemma checkMutationRateLimit_spec r id :
  exists log, checkMutationRateLimit r id
    = ((if limited r id then Err (GqlError ErrMutationRateLimitExceeded (Sprintf "mutation rate limit exceeded" []))
        else Ok tt), log)
  /\ writes log = [] /\ audits log = [] /\ clears log = [].
Proof.
  unfold checkMutationRateLimit, limited. destruct (MutationRateLimiter r) as [allow|]; [|by exists []].
  unfold bindM. simpl. destruct (allow _ 1) as [[]|]; eexists; split; try reflexivity; done.
Qed.

Lemma writes_app a b : writes (a ++ b) = writes a ++ writes b.
Proof. apply omap_app. Qed.
Lemma audits_app a b : audits (a ++ b) = audits a ++ audits b.
Proof. apply omap_app. Qed.
Lemma clears_app a b : clears (a ++ b) = clears a ++ clears b.
Proof. apply omap_app. Qed.

Lemma writes_cons e l : writes (e :: l) = match e with EvWrite q => [q] | _ => [] end ++ writes l.
Proof. by destruct e. Qed.
Lemma audits_cons e l : audits (e :: l) = match e with EvAudit x => [x] | _ => [] end ++ audits l.
Proof. by destruct e. Qed.
Lemma clears_cons e l : clears (e :: l) = match e with EvClear d => [d] | _ => [] end ++ clears l.
Proof. by destruct e. Qed.
Lemma no_events : writes [] = [] /\ audits [] = [] /\ clears [] = [].
Proof. done. Qed.

Lemma audit_events r id op tbl ok reason n :
  (ok = false -> reason <> EmptyString) ->
  let log := logMutationAudit r id op tbl (DatasourceName (MutationConfig r)) ok reason n in
  audits log = audited r (audit_entry r id op tbl ok
                 (if ok then [("affected_rows", itoa n)] else [("reason", reason)]))
  /\ writes log = [] /\ clears log = [].
Proof.
  intros Hr. unfold logMutationAudit, audited. destruct (AuditLogger r); [|done]. simpl. split; [|done].
  destruct ok; [done|]. destruct (String.eqb_spec reason EmptyString); [by destruct Hr|done].
Qed.

Lemma metrics_events r op ds tbl e :
  let log := recordMutationMetrics r op ds tbl e in
  audits log = [] /\ writes log = [] /\ clears log = [].
Proof. unfold recordMutationMetrics. by destruct (MetricsCollector r). Qed.

Lemma invalidate_events r ds :
  let log := invalidateCacheAfterMutation r ds in
  audits log = [] /\ writes log = []
  /\ clears log = match CacheClearer r with Some _ => [ds] | None => [] end.
Proof. unfold invalidateCacheAfterMutation. by destruct (CacheClearer r). Qed.

Create HintDb mklog.
#[local] Hint Rewrite writes_app audits_app clears_app writes_cons audits_cons clears_cons
  (proj1 no_events) (proj1 (proj2 no_events)) (proj2 (proj2 no_events)) @app_nil_r : mklog.
(** Split a log into its parts and use what is known of each. *)
Ltac read_log :=
  autorewrite with mklog;
  repeat match goal with
  | H : writes _ = _ |- _ => rewrite H
  | H : audits _ = _ |- _ => rewrite H
  | H : clears _ = _ |- _ => rewrite H
  end; autorewrite with mklog; simpl.
Ltac read_metrics :=
  match goal with |- context [recordMutationMetrics ?r ?o ?d ?t ?e] =>
    destruct (metrics_events r o d t e) as (? & ? & ?) end.

(** *** Panics *)

Lemma calm_panics {A} (m : result A) e : calm m -> m = Err e -> is_panic e = false.
Proof. intros H ->. destruct e; try done. by destruct (H what). Qed.
Lemma calm_auth id ds : calm (checkMutationAuth id ds).
Proof. unfold checkMutationAuth. destruct id; eauto with calm. Qed.
Lemma calm_ident code msg s : calm (check_ident code msg s).
Proof. unfold check_ident. destruct (ValidateMutationIdentifier s); auto with calm. Qed.
#[local] Hint Resolve calm_auth calm_ident : calm.
Ltac calm_checks := repeat (apply calm_bind; [|intros ? _]); auto 6 with calm.
Lemma calm_insert t cols vals : calm (ValidateInsertInput t cols vals).
Proof. unfold ValidateInsertInput. calm_checks. Qed.
Lemma calm_update t cols fs : calm (ValidateUpdateInput t cols fs).
Proof. unfold ValidateUpdateInput. calm_checks. Qed.
Lemma calm_delete t fs : calm (ValidateDeleteInput t fs).
Proof. unfold ValidateDeleteInput. calm_checks. Qed.
Lemma calm_batch v t cols rows : calm (ValidateBatchInsertInput (Some v) t cols rows).
Proof. unfold ValidateBatchInsertInput. calm_checks. Qed.
Lemma calm_table w t : calm (ValidateTable (Some w) t).
Proof. unfold ValidateTable. apply calm_bind; [apply calm_deref|intros ? _]. case_match; auto with calm. Qed.
Lemma calm_operation w t op : calm (ValidateOperation (Some w) t op).
Proof. unfold ValidateOperation. apply calm_bind; [apply calm_deref|intros ? _]. case_match; auto with calm. Qed.
Lemma calm_write w t cols : calm (ValidateWriteColumns (Some w) t cols).
Proof. unfold ValidateWriteColumns. apply calm_bind; [apply calm_deref|intros ? _]. case_match; auto with calm. Qed.
Lemma calm_filter w t cols : calm (ValidateFilterColumns (Some w) t cols).
Proof. unfold ValidateFilterColumns. apply calm_bind; [apply calm_deref|intros ? _]. case_match; auto with calm. Qed.
#[local] Hint Resolve calm_insert calm_update calm_delete calm_batch calm_table calm_operation calm_write calm_filter : calm.
Lemma calm_convert filter : calm (convertMutationFilters filter).
Proof. apply calm_mapR. intros o. destruct (convertMutationFilter o); auto with calm. Qed.
(** The checks of a resolver panic only through a nil pointer. *)
Definition nil_only (r : Resolver) (check : result unit) : Prop :=
  rMutationValidator r = None \/ rWritableTableValidator r = None \/ calm check.

(** The pipeline ends in one of the four ways. *)
Lemma executeMutation_outcome r id p m :
  (plan_cfg p = None \/ plan_cfg p = Some (MutationConfig r)) -> buildAndExecute p = send r m ->
  nil_only r (validate p) ->
  outcome r id (operation p) (table p) (validate p = Ok tt) (Some m) (executeMutation r id p).
Proof.
  intros Hcfg Hb Hnil.
  assert (Hc : default (MutationConfig r) (plan_cfg p) = MutationConfig r) by (by destruct Hcfg as [->| ->]).
  unfold executeMutation. rewrite Hc, Hb. clear Hc Hcfg Hb.
  destruct (MutEnabled (MutationConfig r)) eqn:Hen; simpl; [|by apply out_gate; auto].
  destruct (checkMutationRateLimit_spec r id) as (llog & Hlim & Hw & Ha & Hx).
  unfold bindM at 1. rewrite Hlim. simpl.
  set (ds := DatasourceName (MutationConfig r)).
  destruct (limited r id) eqn:Hlimited; simpl; [by apply out_gate; auto|].
  assert (Hf : forall reason e log, is_panic e = false -> reason ∈ failure_reasons ->
    writes log = [] -> audits log = [] -> clears log = [] ->
    outcome r id (operation p) (table p) (validate p = Ok tt) (Some m)
      (Err e, log ++ logMutationAudit r id (operation p) (table p) ds false reason 0)).
  { intros reason e log He Hin Hw' Ha' Hx'.
    destruct (audit_events r id (operation p) (table p) false reason 0) as (H1 & H2 & H3).
    { intros _ ->. unfold failure_reasons in Hin. by rewrite !elem_of_cons, elem_of_nil in Hin; destruct_or? Hin. }
    fold ds in H1, H2, H3. apply (out_refused _ _ _ _ _ _ _ _ reason); by read_log. }
  assert (Hg : forall reason e log, (forall what, e = Panic what -> can_panic r what) -> reason ∈ failure_reasons ->
    writes log = [] -> audits log = [] -> clears log = [] ->
    outcome r id (operation p) (table p) (validate p = Ok tt) (Some m)
      (Err e, log ++ match e with Panic _ => [] | _ => logMutationAudit r id (operation p) (table p) ds false reason 0 end)).
  { intros reason e log He Hin Hw' Ha' Hx'. destruct e; try (by apply Hf).
    rewrite app_nil_r. by apply out_panic; auto. }
  destruct (checkMutationAuth id ds) as [[]|e] eqn:Hauth; unfold bindM, on_failure, after, on_error, finally, lift, emit, ret;
    simpl; [|apply Hf; [by eapply calm_panics; [apply calm_auth|]|by left|done..]].
  destruct (validate p) as [[]|e] eqn:Hval; simpl.
  2:{ rewrite <- ?app_assoc. simpl. apply (Hg "validation_failed"); [|by right; left|done..].
      intros what ->. destruct Hnil as [?|[?|Hcalm]]; [by left|by right; left|by destruct (Hcalm what)]. }
  destruct (rGetWritable r ds) as [wds|e] eqn:Hgw; simpl.
  2:{ apply (Hg "execution_failed"); [|by right; right; left|done..]. intros what ->. right. by right. }
  apply checkMutationAuth_Ok in Hauth. unfold send, bindM, lift, emit. simpl.
  unfold ValidateSQLLength, mbind, result_bind, deref, traceMutation.
  destruct (rMutationValidator r) as [v|] eqn:Hv; simpl.
  2:{ apply out_panic; [by left|by read_log..]. }
  unfold guard_err. destruct (maxSQLLength v <? slen _) eqn:Hlen; simpl.
  { read_metrics. destruct (audit_events r id (operation p) (table p) false "execution_failed" 0) as (F1 & F2 & F3); [done|].
    fold ds in F1, F2, F3. apply (out_refused _ _ _ _ _ _ _ _ "execution_failed"); try (by read_log); by right; right; left. }
  read_metrics.
  destruct (audit_events r id (operation p) (table p) true EmptyString
              (match wds (SQL m, Params m) with Ok n => n | Err _ => 0 end)) as (A1 & A2 & A3); [done|].
  destruct (audit_events r id (operation p) (table p) false "execution_failed" 0) as (F1 & F2 & F3); [done|].
  destruct (invalidate_events r ds) as (I1 & I2 & I3). fold ds in A1, A2, A3, F1, F2, F3.
  assert (Hin : within (rMutationValidator r) (SQL m)) by (exists v; split; [done|lia]).
  destruct (wds (SQL m, Params m)) as [n|e] eqn:Hwds; simpl;
    apply (out_sent _ _ _ _ _ _ _ _ m wds); try done; rewrite ?Hwds; try (by read_log);
    destruct e; by read_log.
Qed.

Lemma outcome_impl r id op tbl (P Q : Prop) m x :
  (P -> Q) -> outcome r id op tbl P m x -> outcome r id op tbl Q m x.
Proof.
  intros HPQ H. inversion H; subst; [by apply out_gate|by apply out_panic|by eapply out_refused|].
  eapply out_sent; eauto.
Qed.

Lemma convert_fields filter fs :
  convertMutationFilters filter = Ok fs ->
  map Field fs = omap (fun o => match o with Some i => Some (mfField i) | None => None end) filter.
Proof.
  intros H%mapR_Ok. induction H as [|o fc fl fs Hf H IH]; [done|].
  destruct (convertMutationFilter o) as [fc'|] eqn:Hc; [|done]. injection Hf as ->.
  destruct o as [i|]; [|done]. unfold convertMutationFilter in Hc.
  apply bind_Ok in Hc as (v & _ & [= <-]). simpl. f_equal. exact IH.
Qed.

(** A call whose filters do not convert is audited and refused. *)
Lemma with_filters_outcome r id op tbl filter k P (m : list FilterCondition -> MutationSQL) :
  (forall fs, convertMutationFilters filter = Ok fs -> outcome r id op tbl P (Some (m fs)) (k fs)) ->
  outcome r id op tbl P
    (match convertMutationFilters filter with Ok fs => Some (m fs) | Err _ => None end)
    (with_filters r id op tbl filter k).
Proof.
  intros Hk. unfold with_filters, on_error, finally, lift, bindM.
  destruct (convertMutationFilters filter) as [fs|e] eqn:Hc; simpl.
  - specialize (Hk fs eq_refl). by destruct (k fs).
  - destruct (audit_events r id op tbl false "validation_failed" 0) as (H1 & H2 & H3); [done|].
    apply (out_refused _ _ _ _ _ _ _ _ "validation_failed"); try done; [|by right; left].
    eapply calm_panics; [apply calm_convert|exact Hc].
Qed.

(** The whitelist checks of the resolvers establish [permitted]. *)
Lemma permitted_intro p c fields :
  ValidateOperation p (call_table c) (call_right c) = Ok tt ->
  (call_columns c = [] \/ ValidateWriteColumns p (call_table c) (call_columns c) = Ok tt) ->
  call_fields c = fields ->
  (fields = [] \/ ValidateFilterColumns p (call_table c) fields = Ok tt) ->
  permitted p c.
Proof.
  unfold ValidateOperation, ValidateWriteColumns, ValidateFilterColumns, permitted, mbind, result_bind.
  destruct p as [w|]; [cbn [deref]|done].
  intros Ho Hc -> Hf. destruct (writableTables w !! call_table c) as [cfg|] eqn:Hl; [|done].
  exists w, cfg. split; [done|]. split; [done|]. apply guard_err_Ok, negb_false_iff in Ho. split; [done|]. split.
  - destruct Hc as [->|Hc]; [constructor|]. rewrite forR_Ok in Hc. eapply Forall_impl; [exact Hc|].
    simpl. by intros col Hcol%guard_err_Ok%negb_false_iff.
  - intros Hne. destruct Hf as [|Hf]; [done|].
    destruct (vAllowedTables w !! call_table c) as [cols|]; [|done]. exists cols. split; [done|].
    rewrite forR_Ok in Hf. eapply Forall_impl; [exact Hf|]. by intros f ?%guard_err_Ok%negb_false_iff.
Qed.
Lemma nil_only_checks r check :
  (forall v w, rMutationValidator r = Some v -> rWritableTableValidator r = Some w -> calm check) -> nil_only r check.
Proof.
  unfold nil_only. destruct (rMutationValidator r) as [v|]; [|by left]. destruct (rWritableTableValidator r) as [w|]; [|by right; left].
  intros H. right. right. by apply (H v w).
Qed.
Ltac calm_plan :=
  apply nil_only_checks; intros ?v ?w ?Hv ?Hw; rewrite ?Hv, ?Hw;
  repeat match goal with |- calm (_ ≫= _) => apply calm_bind; [|intros ? _] end; auto with calm.

Definition call_op (c : Call) : string :=
  match c with CInsert _ _ => "insert" | CUpdate _ _ _ => "update" | CDelete _ _ => "delete"
  | CBatch _ _ _ => "insertBatch" end.
Definition call_valid (r : Resolver) (c : Call) : Prop :=
  permitted (rWritableTableValidator r) c
  /\ forall m, call_stmt c = Some m -> well_formed m.

(** [executeMutation_outcome] for a literal plan. *)
Lemma plan_outcome r id op t cfg v b m (P : Prop) :
  (cfg = None \/ cfg = Some (MutationConfig r)) -> b = send r m -> nil_only r v -> (v = Ok tt -> P) ->
  outcome r id op t P (Some m)
    (executeMutation r id {| operation := op; table := t; plan_cfg := cfg; validate := v;
                             buildAndExecute := b |}).
Proof.
  intros Hc Hb Hn HP. eapply outcome_impl; [exact HP|].
  by apply (executeMutation_outcome r id {| operation := op; table := t; plan_cfg := cfg; validate := v;
                             buildAndExecute := b |}).
Qed.

Lemma run_outcome r id c :
  outcome r id (call_op c) (call_table c) (call_valid r c) (call_stmt c) (run r id c).
Proof.
  destruct c as [t vs|t set f|t f|t cols rows]; simpl.
  - apply plan_outcome; [by left|done|calm_plan|]. intros H.
    result_inv. split; [|intros m [= <-]; by apply insert_fragment].
    eapply permitted_intro; simpl; eauto.
  - apply with_filters_outcome. intros fs Hfs.
    apply plan_outcome; [by left|done|calm_plan|]. intros H.
    result_inv. split.
    + eapply permitted_intro; simpl; eauto. rewrite <- (convert_fields _ _ Hfs). by right.
    + simpl. rewrite Hfs. intros m [= <-]. apply update_fragment; [done|by rewrite !length_map].
  - apply with_filters_outcome. intros fs Hfs.
    apply plan_outcome; [by left|done|calm_plan|]. intros H.
    result_inv. split.
    + eapply permitted_intro; simpl; eauto. rewrite <- (convert_fields _ _ Hfs). by right.
    + simpl. rewrite Hfs. intros m [= <-]. by apply delete_fragment.
  - unfold InsertBatchStarrocks. destruct (_ && _).
    { unfold on_error, finally, fail. simpl.
      destruct (audit_events r id "insertBatch" t false "validation_failed" 0) as (H1 & H2 & H3); [done|].
      apply (out_refused _ _ _ _ _ _ _ _ "validation_failed"); try done. by right; left. }
    apply plan_outcome; [by right|done|calm_plan|]. intros H.
    result_inv. split; [|intros m [= <-]; by eapply batch_fragment].
    eapply permitted_intro; simpl; eauto.
Qed.

(** The gate of a statement that was sent. *)
Lemma sent_gated r id c q :
  q ∈ writes (run r id c).2 ->
  writes (run r id c).2 = [q]
  /\ MutEnabled (MutationConfig r) = true /\ limited r id = false
  /\ authorized id (DatasourceName (MutationConfig r))
  /\ permitted (rWritableTableValidator r) c
  /\ exists m, call_stmt c = Some m /\ q = (SQL m, Params m) /\ well_formed m
       /\ within (rMutationValidator r) (SQL m).
Proof.
  intros Hq. destruct (run_outcome r id c) as [e log _ _ Hw _ _|what log _ Hw _ _|e log ? _ _ Hw _ _|res log m wds];
    simpl in *; [rewrite Hw in Hq; by apply not_elem_of_nil in Hq..|].
  match goal with H : writes log = _, V : call_valid r c |- _ => rewrite H in *; destruct V as [Hp Hwf] end.
  apply list_elem_of_singleton in Hq as ->. repeat (split; [done|]). exists m. auto.
Qed.

(** When a mutation panics.  The data source does not: *)
Definition source_calm (r : Resolver) : Prop :=
  let ds := DatasourceName (MutationConfig r) in
  calm (rGetWritable r ds) /\ forall wds q, rGetWritable r ds = Ok wds -> calm (wds q).
Lemma run_calm r id c :
  rMutationValidator r <> None -> rWritableTableValidator r <> None -> source_calm r -> calm (run r id c).1.
Proof.
  intros Hv Hw [Hg Hs] what.
  destruct (run_outcome r id c) as [e log He|what' log Hp|e log reason He|res log m wds]; simpl.
  1,3: by intros [= ->].
  - destruct Hp as [?|[?|Hp]]; [done..|]. by destruct (Hg what').
  - intros ->. match goal with H : Err _ = _ |- _ => symmetry in H; apply bind_Err in H as [H|(? & _ & ?)]; [|done] end.
    by eapply Hs.
Qed.
(** The input checks accept the call. *)
Definition accepted_input (cfg : MutationsConfig) (c : Call) : Prop :=
  match c with
  | CInsert t vs => ValidateInsertInput t (map Column vs) (map cvValue vs) = Ok tt
  | CUpdate t set f => exists fs, convertMutationFilters f = Ok fs /\ ValidateUpdateInput t (map Column set) fs = Ok tt
  | CDelete t f => exists fs, convertMutationFilters f = Ok fs /\ ValidateDeleteInput t fs = Ok tt
  | CBatch t _ rows => mut_ident t /\ len rows <= MaxBatchSize cfg
  end.
Lemma executeMutation_nil r id p :
  plan_cfg p = None \/ plan_cfg p = Some (MutationConfig r) -> validate p = Err nil_dereference ->
  MutEnabled (MutationConfig r) = true -> limited r id = false -> authorized id (DatasourceName (MutationConfig r)) ->
  (executeMutation r id p).1 = Err nil_dereference.
Proof.
  intros Hcfg Hv Hen Hl Ha%checkMutationAuth_Ok.
  assert (Hc : default (MutationConfig r) (plan_cfg p) = MutationConfig r) by (by destruct Hcfg as [->| ->]).
  destruct (checkMutationRateLimit_spec r id) as (llog & Hlim & _). rewrite Hl in Hlim.
  unfold executeMutation. rewrite Hc, Hen. cbn [negb]. unfold bindM at 1. rewrite Hlim. cbn [fst].
  unfold bindM at 1, on_error, finally, lift. rewrite Ha. cbn [fst]. unfold bindM at 1. by rewrite Hv.
Qed.
Lemma run_nil r id c :
  rMutationValidator r = None -> rWritableTableValidator r = None -> MutEnabled (MutationConfig r) = true ->
  limited r id = false -> authorized id (DatasourceName (MutationConfig r)) -> accepted_input (MutationConfig r) c ->
  (run r id c).1 = Err nil_dereference.
Proof.
  intros Hv Hw Hen Hl Ha Hi. destruct c as [t vs|t set f|t f|t cols rows]; cbn [run accepted_input] in *.
  - apply executeMutation_nil; [by left| |done..]. cbn [validate]. by rewrite Hi, Hw.
  - destruct Hi as (fs & Hf & Hi). unfold UpdateStarrocks, with_filters. rewrite Hf. unfold bindM at 1. cbn.
    apply executeMutation_nil; [by left| |done..]. cbn [validate]. unfold map in *. by rewrite Hi, Hw.
  - destruct Hi as (fs & Hf & Hi). unfold DeleteStarrocks, with_filters. rewrite Hf. unfold bindM at 1. cbn.
    apply executeMutation_nil; [by left| |done..]. cbn [validate]. by rewrite Hi, Hw.
  - destruct Hi as (Ht & Hn). unfold InsertBatchStarrocks, len in *. rewrite (proj2 (Z.ltb_ge _ _)), andb_false_r by lia.
    apply executeMutation_nil; [by right| |done..]. cbn [validate]. unfold ValidateBatchInsertInput.
    by rewrite (proj2 (check_ident_Ok _ _ _) Ht), Hv.
Qed.

(** ** Theorems *)

(** C15: what reaches the data source.  A mutation sends at most one statement, and it sends
    one only when mutations are enabled, the limiter did not refuse the caller, the caller
    may mutate the configured data source, the operation, the written columns and the
    filtered fields are whitelisted for the table, and the statement is the one the call
    stands for, of safe bytes with one placeholder per parameter and within the maximum
    length. *)
Theorem mutation_gate r id c q :
  q ∈ writes (run r id c).2 ->
  writes (run r id c).2 = [q]
  /\ MutEnabled (MutationConfig r) = true /\ limited r id = false
  /\ authorized id (DatasourceName (MutationConfig r))
  /\ permitted (rWritableTableValidator r) c
  /\ exists m, call_stmt c = Some m /\ q = (SQL m, Params m) /\ well_formed m
       /\ within (rMutationValidator r) (SQL m).
Proof. exact (sent_gated r id c q). Qed.

(** every mutation past the feature gate and the rate limiter leaves exactly one audit
    entry, for the caller, the operation, the table and the data source, whose verdict is
    the verdict of the call: a success with the affected rows, or a failure with a reason; a mutation that panics leaves none. *)
Theorem mutation_audited r id c :
  AuditLogger r = true -> MutEnabled (MutationConfig r) = true -> limited r id = false ->
  let x := run r id c in
  match x.1 with
  | Ok res => audits x.2 = [audit_entry r id (call_op c) (call_table c) true [("affected_rows", itoa (AffectedRows res))]]
  | Err e =>
      if is_panic e then audits x.2 = [] else
      exists reason, reason ∈ failure_reasons
        /\ audits x.2 = [audit_entry r id (call_op c) (call_table c) false [("reason", reason)]]
  end.
Proof.
  intros Hal Hen Hlim. assert (Ha : forall e, audited r e = [e]) by (intros; unfold audited; by rewrite Hal). cbv zeta.
  destruct (run_outcome r id c) as [e log _ Hg _ _ _|what log _ _ Hau _|e log reason He Hin _ Hau _|res log m wds]; simpl in *.
  - destruct Hg; congruence.
  - done.
  - rewrite He, Hau, Ha. by exists reason.
  - match goal with H : audits log = _ |- _ => rewrite H end.
    destruct res as [res|[]]; rewrite ?Ha; cbn [is_panic]; try done;
      by (exists "execution_failed"; split; [right; right; left|]).
Qed.

(** the effects of a success.  A mutation succeeds exactly by its one statement
    succeeding on the writable data source; the answer carries the affected rows it
    reported and a warning exactly above the threshold; the cached results of the data
    source are then invalidated, and they are invalidated in no other case. *)
Theorem mutation_effects r id c :
  match (run r id c).1 with
  | Ok res => exists m wds,
      call_stmt c = Some m /\ writes (run r id c).2 = [(SQL m, Params m)]
      /\ rGetWritable r (DatasourceName (MutationConfig r)) = Ok wds
      /\ wds (SQL m, Params m) = Ok (AffectedRows res)
      /\ (Warning res = None <-> AffectedRows res <= MaxAffectedRows (MutationConfig r))
      /\ clears (run r id c).2 = match CacheClearer r with
                                 | Some _ => [DatasourceName (MutationConfig r)]
                                 | None => []
                                 end
  | Err _ => clears (run r id c).2 = []
  end.
Proof.
  destruct (run_outcome r id c) as [e log _ _ _ _ Hc|what log _ _ _ Hc|e log ? _ _ _ _ Hc|res log m wds];
    simpl in *; [done..|].
  destruct res as [res|e]; [|done].
  match goal with H : Ok res = _ |- _ => symmetry in H; apply bind_Ok in H as (n & Hn & [= <-]) end.
  exists m, wds. simpl. repeat (split; [done|]). split; [|done].
  unfold checkAffectedRowsWarning. destruct (MaxAffectedRows _ <? n) eqn:E; split; intros; try done; lia.
Qed.

(** ** The span of a mutation *)

Definition spans (log : list Event) : list SpanEvent :=
  omap (fun e => match e with EvSpan x => Some x | _ => None end) log.
(** What [traceMutation] records of an execution that makes no spans itself. *)
Definition mutation_span (op tbl : string) (res : result Z) : list SpanEvent :=
  (traceMutation id op tbl (res, [])).2.
(** Nothing was executed and no span made; or one span was made, for this result. *)
Definition one_span (op tbl : string) (x : M MutationResult) : Prop :=
  (spans x.2 = [] /\ writes x.2 = [] /\ exists e, x.1 = Err e)
  \/ exists res, spans x.2 = mutation_span op tbl res
      /\ match res with Ok n => exists y, x.1 = Ok y /\ AffectedRows y = n | Err e => x.1 = Err e end.

Lemma spans_app a b : spans (a ++ b) = spans a ++ spans b.
Proof. apply omap_app. Qed.
Lemma no_spans_audit r id op tbl ds ok reason n : spans (logMutationAudit r id op tbl ds ok reason n) = []
  /\ writes (logMutationAudit r id op tbl ds ok reason n) = [].
Proof. unfold logMutationAudit. by destruct (AuditLogger r). Qed.
Lemma no_spans_metrics r op ds tbl e : spans (recordMutationMetrics r op ds tbl e) = [].
Proof. unfold recordMutationMetrics. by destruct (MetricsCollector r). Qed.
Lemma no_spans_invalidate r ds : spans (invalidateCacheAfterMutation r ds) = [].
Proof. unfold invalidateCacheAfterMutation. by destruct (CacheClearer r). Qed.
Lemma no_spans_limit r id : spans (checkMutationRateLimit r id).2 = [].
Proof.
  unfold checkMutationRateLimit. destruct (MutationRateLimiter r) as [allow|]; [|done].
  unfold bindM. simpl. by destruct (allow _ 1) as [[]|].
Qed.
(** A refusal that is audited. *)
Lemma refused_no_span r id op tbl op' tbl' ds reason (e : error) log :
  spans log = [] -> writes log = [] ->
  one_span op tbl (Err e, log ++ logMutationAudit r id op' tbl' ds false reason 0).
Proof.
  intros Hs Hw. left. destruct (no_spans_audit r id op' tbl' ds false reason 0) as [Ha Haw]. simpl.
  rewrite spans_app, writes_app, Hs, Hw, Ha, Haw. split_and!; [done..|by eexists].
Qed.
Lemma failed_no_span r id op tbl op' tbl' ds reason (e : error) log :
  spans log = [] -> writes log = [] ->
  one_span op tbl (Err e, log ++ match e with Panic _ => [] | _ => logMutationAudit r id op' tbl' ds false reason 0 end).
Proof.
  intros Hs Hw. destruct e; try by apply refused_no_span. rewrite app_nil_r. left. split_and!; [done..|by eexists].
Qed.
Ltac read_spans Hs :=
  rewrite ?spans_app; cbn [spans omap list_omap]; rewrite ?spans_app;
  rewrite ?no_spans_metrics, ?no_spans_invalidate, ?(proj1 (no_spans_audit _ _ _ _ _ _ _ _)), ?Hs.
Lemma executeMutation_span r id p m :
  buildAndExecute p = send r m -> one_span (operation p) (table p) (executeMutation r id p).
Proof.
  intros Hb. unfold executeMutation. rewrite Hb. set (cfg := default _ _). set (ds := DatasourceName cfg).
  destruct (MutEnabled cfg); simpl; [|left; split_and!; [done..|by eexists]].
  destruct (checkMutationRateLimit_spec r id) as (llog & Hlim & Hw & _ & _).
  pose proof (no_spans_limit r id) as Hs. rewrite Hlim in Hs. unfold bindM at 1. rewrite Hlim. simpl in Hs |- *.
  destruct (limited r id); simpl; [left; split_and!; [done..|by eexists]|].
  destruct (checkMutationAuth id ds) as [[]|e]; unfold bindM, on_failure, after, on_error, finally, lift, emit, ret; simpl;
    [|by apply refused_no_span].
  destruct (validate p) as [[]|e]; simpl; [|by apply failed_no_span].
  destruct (rGetWritable r ds) as [wds|e]; simpl; [|by apply failed_no_span].
  right. exists ((send r m wds).1).
  unfold send, bindM, lift, emit, traceMutation. simpl. destruct (ValidateSQLLength _ _) as [[]|e]; simpl.
  - destruct (wds (SQL m, Params m)) as [n|[]]; simpl; read_spans Hs; split; try done; by eexists.
  - destruct e; read_spans Hs; done.
Qed.
Lemma run_span r id c : one_span (call_op c) (call_table c) (run r id c).
Proof.
  assert (Hf : forall op tbl filter k, (forall fs, one_span op tbl (k fs)) -> one_span op tbl (with_filters r id op tbl filter k)).
  { intros op tbl filter k Hk. unfold with_filters, on_error, finally, lift, bindM.
    destruct (convertMutationFilters filter) as [fs|e]; simpl; [specialize (Hk fs); by destruct (k fs)|].
    by apply (refused_no_span r id op tbl op tbl _ _ e []). }
  destruct c as [t vs|t set f|t f|t cols rows]; simpl.
  - by apply (executeMutation_span r id {| operation := "insert" |} (BuildInsert t (map Column vs) (map cvValue vs))).
  - apply Hf. intros fs. by apply (executeMutation_span r id {| operation := "update" |} (BuildUpdate t (map Column set) (map cvValue set) fs)).
  - apply Hf. intros fs. by apply (executeMutation_span r id {| operation := "delete" |} (BuildDelete t fs)).
  - unfold InsertBatchStarrocks. destruct (_ && _); [by apply (refused_no_span r id _ _ "insertBatch" t _ _ _ [])|].
    by apply (executeMutation_span r id {| operation := "insertBatch" |} (BuildBatchInsert t cols rows)).
Qed.

(** tracing of a mutation.  A mutation that executes makes one span, named after its
    operation, with its table, ended once, and the span says what the caller gets: the
    affected rows and Ok, or the error; a mutation refused before that makes none and sends
    nothing. *)
Theorem mutation_traced r id c :
  balanced (spans (run r id c).2)
  /\ ((spans (run r id c).2 = [] /\ writes (run r id c).2 = [] /\ exists e, (run r id c).1 = Err e)
      \/ exists res, spans (run r id c).2 = mutation_span (call_op c) (call_table c) res
          /\ match res with
             | Ok n => exists y, (run r id c).1 = Ok y /\ AffectedRows y = n
             | Err e => (run r id c).1 = Err e
             end).
Proof.
  destruct (run_span r id c) as [(Hs & Hw & He)|(res & Hs & Hr)]; rewrite Hs.
  - split; [apply balanced_nil|]. by left.
  - split; [by destruct res as [n|[]]|]. right. by exists res.
Qed.

(** ** The StarRocks adapter behind the manager *)

(** [GetWritable] of the manager and [ExecuteWrite] of the adapter it returns, at the clock
    readings of that call. *)
Definition writable_of {W} (DSO : Manager.DataSourceOps StarRocks.Adapter W)
    (execDB : stmt -> result (result Z)) (now t1 t2 : Z)
    (m : Manager.DataSourceManager StarRocks.Adapter) (ds : string) : result (stmt -> result Z) :=
  a ← Manager.GetWritable (DSO := DSO) m ds;
  Ok (fun q => (StarRocks.ExecuteWrite execDB now t1 t2 a q).1.1).

(** ** Witnesses *)

Definition demo_resolver : Resolver := {|
  MutationConfig := {| MutEnabled := true; DatasourceName := "sr"; MaxAffectedRows := 2; MaxBatchSize := 10 |};
  rMutationValidator := Some {| maxBatchSize := 10; maxSQLLength := 1000 |};
  rWritableTableValidator := Some
    {| writableTables := {[ "t" := {| Columns := {[ "a" := true ]}; AllowedOperations := {[ "insert" := true ]} |} ]};
       vAllowedTables := {[ "t" := {[ "a" := true ]} ]} |};
  MutationRateLimiter := Some (fun _ _ => Ok true);
  rGetWritable := writable_of Manager.demo_ops (fun _ => Ok (Ok 3)) 0 0 0 Manager.demo_manager;
  CacheClearer := Some (fun _ => None, None);
  AuditLogger := true; MetricsCollector := true; rNow := 7 |}.
Definition demo_caller : AuthIdentity :=
  {| Subject := "alice"; Method := "jwt"; Datasources := []; Operations := ["mutation"] |}.
Definition demo_call : Call := CInsert "t" [{| Column := "a"; cvValue := VInt 1 |}].
Example demo_run : (run demo_resolver (Some demo_caller) demo_call).1
  = Ok {| resSuccess := true; AffectedRows := 3; Warning := Some "affected rows (3) exceeded threshold (2)" |}.
Proof. vm_compute. reflexivity. Qed.

Lemma mutation_gate_witness :
  writes (run demo_resolver (Some demo_caller) demo_call).2 = [("INSERT INTO `t` (`a`) VALUES (?)", [VInt 1])].
Proof.
  refine (proj1 (mutation_gate demo_resolver (Some demo_caller) demo_call
    ("INSERT INTO `t` (`a`) VALUES (?)", [VInt 1]) _)).
  vm_compute. left.
Defined.
Lemma mutation_audited_witness : exists reason,
  audits (run demo_resolver None demo_call).2
    = [audit_entry demo_resolver None "insert" "t" false [("reason", reason)]].
Proof.
  destruct (mutation_audited demo_resolver None demo_call eq_refl eq_refl eq_refl) as (reason & _ & H).
  exists reason. exact H.
Defined.
