(* ===== verification/Prometheus.v ===== *)
(** * internal/adapter/prometheus: validator, PromQL builder, type mapper and adapter

    The HTTP exchange of one call is the argument [net], a function of the URL; the texts of
    the errors of encoding/json and strconv are the argument [err_text].  The state of an
    adapter is its record; the transport that counts open connections is a small state
    machine of its own. *)
From S2P Require Import Prelude GoStrings Values GoConv FuncMap Json JsonRaw.
From S2P Require Import DataSource SqlAdapter.

(** ** validator.go *)

Definition promqlSpecialChars : list ascii := ["}"%char; "{"%char; "|"%char; "~"%char; DQUOTE].
Definition maxSubqueryDepth : Z := 2.
Definition highCostOps : list string := ["group_left"; "group_right"].
Fixpoint contains_any (cs : list ascii) (s : string) : bool :=
  match s with EmptyString => false | String c s' => existsb (Ascii.eqb c) cs || contains_any cs s' end.
Definition ValidateLabelValue (value : string) : result unit :=
  guard_err (contains_any promqlSpecialChars value)
    (ValidationError ErrValidationPromQLInjection (Sprintf "label value contains PromQL special characters" [])).
(** The deepest nesting of brackets: the current and the maximal depth. *)
Fixpoint bracket_depth (depth maxDepth : Z) (s : string) : Z :=
  match s with
  | EmptyString => maxDepth
  | String c s' =>
      if Ascii.eqb c "[" then bracket_depth (depth + 1) (Z.max maxDepth (depth + 1)) s'
      else if Ascii.eqb c "]" then bracket_depth (if 0 <? depth then depth - 1 else depth) maxDepth s'
      else bracket_depth depth maxDepth s'
  end.
Definition ValidateQueryExpression {UT : UnicodeTables} (query : string) : result unit :=
  _ ← guard_err (maxSubqueryDepth <? bracket_depth 0 0 query)
        (ValidationError ErrValidationPromQLInjection
           (Sprintf "query expression exceeds maximum subquery nesting depth" []));
  forR (fun op => guard_err (contains op (to_lower query))
          (ValidationError ErrValidationPromQLInjection
             (Sprintf "query expression contains high-cost operation: " [AStr op]))) highCostOps.

(** ** query_builder.go *)

(** [filterOpToLabelMatch]; the match type is its text. *)
Definition filterOpToLabelMatch (op : FilterOperator) : option string :=
  match op with
  | FilterOpEQ => Some "="
  | FilterOpNEQ => Some "!="
  | FilterOpLIKE => Some "=~"
  | _ => None
  end.

Section Builder.
Context {GF : GoFmt}.

Definition label_matcher (f : FilterCondition) : option string :=
  matchType ← filterOpToLabelMatch (Operator f);
  Some (DataSource.Field f +:+ matchType +:+ str1 DQUOTE +:+ sprint (Value f) +:+ str1 DQUOTE).
Definition appendLabelMatchers (query : string) (filters : list FilterCondition) : string :=
  let matchers := omap label_matcher filters in
  if Z.of_nat (length matchers) =? 0 then query else query +:+ "{" +:+ join ", " matchers +:+ "}".

Definition missing_option (key : string) : error := Errorf (Sprintf "missing required option %q" [AStr key]).
Definition extractRequiredOption (req : QueryRequest) (key : string) : result string :=
  match ReqOptions req with
  | None => Err (Errorf (Sprintf "options map is nil: missing required option %q" [AStr key]))
  | Some opts =>
      match assoc key opts with
      | None => Err (missing_option key)
      | Some v =>
          let bad := Err (Errorf (Sprintf "option %q must be a non-empty string" [AStr key])) in
          match v with VString s => if String.eqb s EmptyString then bad else Ok s | _ => bad end
      end
  end.
Definition extractQuery (req : QueryRequest) : result string := extractRequiredOption req "query".

(** [url.Values] with one value per key. *)
Definition url_values : Type := list (string * string).
Definition BuildInstant (req : QueryRequest) : result (string * url_values) :=
  query ← extractQuery req;
  let query := appendLabelMatchers query (Filters req) in
  Ok (query, ("query", query) ::
    match assoc "time" (default [] (ReqOptions req)) with
    | Some (VString ts) => if String.eqb ts EmptyString then [] else [("time", ts)]
    | _ => []
    end).
Definition BuildRange (req : QueryRequest) : result (string * url_values) :=
  query ← extractQuery req;
  let query := appendLabelMatchers query (Filters req) in
  startTime ← extractRequiredOption req "startTime";
  endTime ← extractRequiredOption req "endTime";
  step ← extractRequiredOption req "step";
  Ok (query, [("query", query); ("start", startTime); ("end", endTime); ("step", step)]).
End Builder.

(** ** type_mapper.go *)

Definition MapResultType (rt : string) : string :=
  if String.eqb rt "scalar" then "Float"
  else if String.eqb rt "string" then "String"
  else if String.eqb rt "vector" then "PrometheusVector"
  else if String.eqb rt "matrix" then "PrometheusMatrix"
  else "String".
Definition ConvertValue (v : spec_float) : option spec_float * string :=
  match v with
  | S754_nan => (None, "NaN value converted to null")
  | S754_infinity false => (None, "+Inf value converted to null")
  | S754_infinity true => (None, "-Inf value converted to null")
  | _ => (Some v, EmptyString)
  end.
Definition ConvertValues (values : list spec_float) : list (option spec_float) * list string :=
  (map (fun v => (ConvertValue v).1) values,
   omap (fun iv : Z * spec_float =>
     let w := (ConvertValue iv.2).2 in
     if String.eqb w EmptyString then None else Some ("data point [" +:+ itoa iv.1 +:+ "]: " +:+ w)) (indexed values)).

(** ** adapter.go: the instrumented transport *)

(** The counter and, for each response handed out, whether its body was closed. *)
Record InstrumentedTransport := { activeConns : Z; bodies : list bool }.
Definition new_transport : InstrumentedTransport := {| activeConns := 0; bodies := [] |}.
(** [RoundTrip], given whether the request behind it succeeds. *)
Definition RoundTrip (ok : bool) (t : InstrumentedTransport) : InstrumentedTransport :=
  let t := {| activeConns := activeConns t + 1; bodies := bodies t |} in
  if ok then {| activeConns := activeConns t; bodies := bodies t ++ [false] |}
  else {| activeConns := activeConns t - 1; bodies := bodies t |}.
(** [Close] of the [i]-th body: the counter changes once. *)
Definition CloseBody (i : nat) (t : InstrumentedTransport) : InstrumentedTransport :=
  match bodies t !! i with
  | Some false => {| activeConns := activeConns t - 1; bodies := <[i := true]> (bodies t) |}
  | _ => t
  end.

(** ** adapter.go *)

Definition defaultMaxDataPoints : Z := 11000.
Record Adapter := {
  p_name : string;
  p_config : DataSourceConfig;
  baseURL : string;
  queryTimeout : Z;
  available : bool;
  maxDataPoints : Z;
}.
Definition setAvailable (v : bool) (a : Adapter) : Adapter :=
  {| p_name := p_name a; p_config := p_config a; baseURL := baseURL a; queryTimeout := queryTimeout a;
     available := v; maxDataPoints := maxDataPoints a |}.

(** [url_ok] is [url.Parse]. *)
Definition NewAdapter (url_ok : string -> bool) (name : string) (config : DataSourceConfig) : result Adapter :=
  let baseURL := match assoc "url" (Connection config) with Some (VString s) => s | _ => EmptyString end in
  if String.eqb baseURL EmptyString
  then Err (Errorf (Sprintf "prometheus adapter %q: missing connection.url" [AStr name]))
  else if negb (url_ok baseURL)
  then Err (Errorf (Sprintf "prometheus adapter %q: invalid connection.url: %w" [AStr name]))
  else Ok {| p_name := name; p_config := config; baseURL := baseURL;
             queryTimeout := getDurationOption (DsOptions config) "query_timeout" (15 * second);
             available := false;
             maxDataPoints := getIntOption (DsOptions config) "max_data_points" defaultMaxDataPoints |}.

(** What comes of a GET: the request cannot be built, sent or read, or a status and a body. *)
Inductive http_result :=
  HNoRequest (e : error) | HFailed (e : error) | HUnread (status : Z) (e : error) | HResponse (status : Z) (body : string).
Definition buildinfo_url (a : Adapter) : string := baseURL a +:+ "/api/v1/status/buildinfo".
(** What [Connect] and [HealthCheck] make of the answer, each with its own texts: only a
    status other than 200 or no answer is an error. *)
Definition probe_error (create failed returned : string) (a : Adapter) (r : http_result) : option error :=
  match r with
  | HNoRequest e => Some (Wrap (Sprintf create [AStr (p_name a)]) e)
  | HFailed e => Some (Wrap (Sprintf failed [AStr (p_name a)]) e)
  | HUnread status _ | HResponse status _ =>
      if status =? 200 then None else Some (Errorf (Sprintf returned [AStr (p_name a); AInt status]))
  end.
Definition Connect (net : string -> http_result) (a : Adapter) : result unit * Adapter :=
  if available a then (Ok tt, a)
  else match probe_error "prometheus adapter %q: create request: %w" "prometheus adapter %q: connect failed: %w"
               "prometheus adapter %q: buildinfo returned status %d" a (net (buildinfo_url a)) with
       | Some e => (Err e, a)
       | None => (Ok tt, setAvailable true a)
       end.
(** The timeout a health check runs under. *)
Definition healthTimeout (a : Adapter) : Z :=
  let t := Z.quot (getDurationOption (DsOptions (p_config a)) "query_timeout" (15 * second)) 3 in
  if t <? second then second else t.
Definition HealthCheck (net : string -> http_result) (a : Adapter) : result unit * Adapter :=
  match probe_error "prometheus adapter %q: health check create request: %w"
          "prometheus adapter %q: health check failed: %w"
          "prometheus adapter %q: health check returned status %d" a (net (buildinfo_url a)) with
  | Some e => (Err e, setAvailable false a)
  | None => (Ok tt, setAvailable true a)
  end.
Definition Close (a : Adapter) : result unit * Adapter := (Ok tt, setAvailable false a).
Definition SchemaFiles : list string := ["internal/graphql/schema/prometheus.graphql"].

(** *** [url.Values.Encode] *)

Definition unreserved (c : ascii) : bool :=
  is_lower c || is_upper c || is_digit c
  || Ascii.eqb c "-" || Ascii.eqb c "_" || Ascii.eqb c "." || Ascii.eqb c "~".
Definition upper_hex (n : N) : ascii := if (n <? 10)%N then byte_of (48 + n) else byte_of (55 + n).
Fixpoint QueryEscape (s : string) : string :=
  match s with
  | EmptyString => EmptyString
  | String c s' =>
      if unreserved c then String c (QueryEscape s')
      else if Ascii.eqb c " " then String "+" (QueryEscape s')
      else String "%" (String (upper_hex (code c / 16)) (String (upper_hex (code c mod 16)) (QueryEscape s')))
  end.
Definition Encode (params : url_values) : string :=
  join "&" (map (fun kv => QueryEscape kv.1 +:+ "=" +:+ QueryEscape kv.2) (merge_sort key_le params)).

(** *** Queries *)

Section Query.
Context {GF : GoFmt} {FT : FloatText} {UT : UnicodeTables}.
Variable err_text : string -> string.

Definition query_error (fmt : string) (args : list arg) : error :=
  DatasourceError ErrDatasourceQueryError (Sprintf fmt args).
(** The raw result and its type. *)
Record prometheusData := { ResultType : string; Result : string }.
Definition doQuery (net : string -> http_result) (a : Adapter) (path : string) (params : url_values) : result prometheusData :=
  match net (baseURL a +:+ path +:+ "?" +:+ Encode params) with
  | HNoRequest e => Err (query_error "prometheus create request: %v" [AErr e])
  | HFailed e => Err (query_error "prometheus query failed: %v" [AErr e])
  | HUnread _ e => Err (query_error "prometheus read response: %v" [AErr e])
  | HResponse status body =>
      if negb (status =? 200) then Err (query_error "prometheus returned status %d: %s" [AInt status; AStr body]) else
      match (kvs ← raw_object body;
             st ← dec_field dec_string EmptyString "status" kvs;
             et ← dec_field dec_string EmptyString "errorType" kvs;
             er ← dec_field dec_string EmptyString "error" kvs;
             Some (st, et, er, default EmptyString (json_field "data" kvs))) with
      | None => Err (query_error "prometheus parse response: %v" [AStr (err_text body)])
      | Some (st, et, er, data) =>
          if negb (String.eqb st "success") then Err (query_error "prometheus error (%s): %s" [AStr et; AStr er]) else
          match (kvs ← raw_object data;
                 rt ← dec_field dec_string EmptyString "resultType" kvs;
                 Some {| ResultType := rt; Result := default EmptyString (json_field "result" kvs) |}) with
          | None => Err (query_error "prometheus parse data: %v" [AStr (err_text data)])
          | Some d => Ok d
          end
      end
  end.

Definition parseTimestampValue (pair : string * string) : spec_float * option spec_float * list string :=
  match dec_float pair.1 with
  | None => (S754_zero false, None, ["failed to parse timestamp: " +:+ err_text pair.1])
  | Some ts =>
      match dec_string pair.2 with
      | None => (ts, None, ["failed to parse value: " +:+ err_text pair.2])
      | Some valStr =>
          match parse_float valStr with
          | None => (ts, None, ["failed to parse float value " +:+ err_text valStr])
          | Some f =>
              let '(converted, warning) := ConvertValue f in
              (ts, converted, if String.eqb warning EmptyString then [] else [warning])
          end
      end
  end.

Record vectorResult := { v_metric : list (string * string); v_value : string * string }.
Record matrixResult := { m_metric : list (string * string); m_values : list (string * string) }.
Definition dec_vector (raw : string) : option vectorResult :=
  kvs ← raw_object raw;
  m ← dec_field dec_string_map [] "metric" kvs;
  v ← dec_field dec_pair (EmptyString, EmptyString) "value" kvs;
  Some {| v_metric := m; v_value := v |}.
Definition dec_matrix (raw : string) : option matrixResult :=
  kvs ← raw_object raw;
  m ← dec_field dec_string_map [] "metric" kvs;
  vs ← dec_field (fun r => l ← raw_array r; mapM dec_pair l) [] "values" kvs;
  Some {| m_metric := m; m_values := vs |}.

Definition data_points_error (n limit : Z) (advice : string) : error :=
  DatasourceError ErrDatasourceMaxDataPoints
    (Sprintf ("query returned %d data points, exceeding limit of %d; consider " +:+ advice) [AInt n; AInt limit]).
Definition query_result (data : list (list (string * GoVal))) (warnings : list string) : QueryResult :=
  {| Data := data; TotalCount := None; Warnings := warnings |}.

Definition vector_row (r : vectorResult) : list (string * GoVal) * list string :=
  let '(ts, val, w) := parseTimestampValue (v_value r) in
  ([("metric", VMapSS (v_metric r)); ("value", VFloatPtr val); ("timestamp", VFloat64 ts)], w).
Definition convertVector (a : Adapter) (raw : string) : result QueryResult :=
  match (l ← raw_array raw; mapM dec_vector l) with
  | None => Err (query_error "prometheus parse vector: %v" [AStr (err_text raw)])
  | Some results =>
      let n := Z.of_nat (length results) in
      if maxDataPoints a <? n then Err (data_points_error n (maxDataPoints a) "narrowing the query")
      else let rows := map vector_row results in Ok (query_result (map fst rows) (flat_map snd rows))
  end.

Definition matrix_row (r : matrixResult) : list (string * GoVal) * list string :=
  let points := map parseTimestampValue (m_values r) in
  ([("metric", VMapSS (m_metric r)); ("values", VFloatPtrs (map (fun p => p.1.2) points));
    ("timestamps", VFloats (map (fun p => p.1.1) points))],
   flat_map (fun ip : Z * _ => map (fun ww => "series " +:+ sprint (VMapSS (m_metric r)) +:+ " data point ["
                                              +:+ itoa ip.1 +:+ "]: " +:+ ww) ip.2.2) (indexed points)).
Definition total_points (results : list matrixResult) : Z :=
  Z.of_nat (list_sum (map (fun r => length (m_values r)) results)).
Definition convertMatrix (a : Adapter) (raw : string) : result QueryResult :=
  match (l ← raw_array raw; mapM dec_matrix l) with
  | None => Err (query_error "prometheus parse matrix: %v" [AStr (err_text raw)])
  | Some results =>
      let n := total_points results in
      if maxDataPoints a <? n
      then Err (data_points_error n (maxDataPoints a) "increasing step or narrowing time range")
      else let rows := map matrix_row results in Ok (query_result (map fst rows) (flat_map snd rows))
  end.

Definition convertScalar (raw : string) : result QueryResult :=
  match dec_pair raw with
  | None => Err (query_error "prometheus parse scalar: %v" [AStr (err_text raw)])
  | Some p =>
      let '(ts, val, warnings) := parseTimestampValue p in
      Ok (query_result [[("value", VFloatPtr val); ("timestamp", VFloat64 ts)]] warnings)
  end.
Definition convertString (raw : string) : result QueryResult :=
  match dec_pair raw with
  | None => Err (query_error "prometheus parse string: %v" [AStr (err_text raw)])
  | Some (r0, r1) =>
      match dec_float r0 with
      | None => Err (query_error "prometheus parse string timestamp: %v" [AStr (err_text r0)])
      | Some ts =>
          match dec_string r1 with
          | None => Err (query_error "prometheus parse string value: %v" [AStr (err_text r1)])
          | Some val => Ok (query_result [[("value", VString val); ("timestamp", VFloat64 ts)]] [])
          end
      end
  end.
Definition convertResponse (a : Adapter) (data : prometheusData) : result QueryResult :=
  let rt := ResultType data in
  if String.eqb rt "vector" then convertVector a (Result data)
  else if String.eqb rt "matrix" then convertMatrix a (Result data)
  else if String.eqb rt "scalar" then convertScalar (Result data)
  else if String.eqb rt "string" then convertString (Result data)
  else Ok (query_result [[("resultType", VString rt); ("raw", VString (Result data))]] []).

(** The request a query becomes: the API path and its parameters. *)
Definition query_params (req : QueryRequest) : result (string * url_values) :=
  match assoc "startTime" (default [] (ReqOptions req)) with
  | Some _ =>
      match BuildRange req with
      | Ok (_, params) => Ok ("/api/v1/query_range", params)
      | Err e => Err (query_error "prometheus build range query: %v" [AErr e])
      end
  | None =>
      match BuildInstant req with
      | Ok (_, params) => Ok ("/api/v1/query", params)
      | Err e => Err (query_error "prometheus build instant query: %v" [AErr e])
      end
  end.
Definition validate_request (req : QueryRequest) : result unit :=
  _ ← forR (fun f => ValidateLabelValue (sprint (Value f))) (Filters req);
  match assoc "query" (default [] (ReqOptions req)) with
  | Some (VString q) => if String.eqb q EmptyString then Ok tt else ValidateQueryExpression q
  | _ => Ok tt
  end.
Definition Execute (net : string -> http_result) (a : Adapter) (req : QueryRequest) : result QueryResult :=
  _ ← guard_err (negb (available a))
        (DatasourceError ErrDatasourceUnavailable (Sprintf "prometheus adapter %q is not connected" [AStr (p_name a)]));
  _ ← validate_request req;
  '(apiPath, params) ← query_params req;
  promResp ← doQuery net a apiPath params;
  convertResponse a promResp.
End Query.
