(* ===== verification/Resolver.v ===== *)
(** * internal/graphql/resolver: the StarRocks query resolver

    query.go and [Starrocks] of base.resolvers.go: the request a GraphQL query becomes, the
    Relay connection its rows become, and the resolver between them.  The manager's
    [ExecuteWithRetry] is an argument.  [fieldRequested] reads the selection set of the
    GraphQL library and is a boolean argument. *)
From S2P Require Import Prelude GoStrings Values DataSource SqlCore SqlAdapter Whitelist.
From S2P Require StarRocks Mutation.

(** ** [base64.StdEncoding.EncodeToString] *)

Definition b64_char (n : N) : ascii :=
  byte_of (if (n <? 26)%N then 65 + n else if (n <? 52)%N then 71 + n
           else if (n <? 62)%N then n - 4 else if (n =? 62)%N then 43 else 47).
Fixpoint base64_encode (s : string) : string :=
  match s with
  | EmptyString => EmptyString
  | String a EmptyString =>
      String (b64_char (code a / 4)) (String (b64_char (code a mod 4 * 16)) "==")
  | String a (String b EmptyString) =>
      String (b64_char (code a / 4))
        (String (b64_char (code a mod 4 * 16 + code b / 16))
          (String (b64_char (code b mod 16 * 4)) "="))
  | String a (String b (String c r)) =>
      String (b64_char (code a / 4))
        (String (b64_char (code a mod 4 * 16 + code b / 16))
          (String (b64_char (code b mod 16 * 4 + code c / 64))
            (String (b64_char (code c mod 64)) (base64_encode r))))
  end.

(** ** query.go: requests *)

(** The generated input types; an optional list element may be null. *)
Record StarRocksFilter := { fField : string; fOperator : string; fValue : string }.
Record StarRocksOrderBy := { oField : string; oDirection : string }.

Definition findStarRocksDS : string := "analytics_db".
Definition findPrometheusDS : string := "monitoring".

Definition convertSortDirection (dir : string) : SortDirection :=
  if String.eqb dir "DESC" then SortDESC else SortASC.

Definition convert_filter (f : StarRocksFilter) : FilterCondition :=
  {| Field := fField f; Operator := Mutation.convertFilterOperator (fOperator f); Value := VString (fValue f) |}.
Definition convert_order (o : StarRocksOrderBy) : OrderByClause :=
  {| OrderField := oField o; Direction := convertSortDirection (oDirection o) |}.
(** [Options] and [NeedCount] are set by the resolver. *)
Definition buildStarRocksQueryRequest (fields : list string) (filters : list (option StarRocksFilter))
    (orderBy : list (option StarRocksOrderBy)) (first : option Z) (after : option string)
    (offset limit : option Z) : QueryRequest :=
  {| Fields := fields;
     Filters := omap (fmap convert_filter) filters;
     OrderBy := omap (fmap convert_order) orderBy;
     Pagination := match first, after, offset, limit with
                   | None, None, None, None => None
                   | _, _, _, _ => Some {| First := first; After := after; Offset := offset; Limit := limit |}
                   end;
     NeedCount := false;
     ReqOptions := None |}.

(** ** query.go: results *)

Definition row : Type := list (string * GoVal).
Record StarRocksEdge := { Node : row; Cursor : string }.
Record PageInfo := {
  HasNextPage : bool;
  HasPreviousPage : bool;
  StartCursor : option string;
  EndCursor : option string;
}.
Record StarRocksConnection := {
  Edges : list StarRocksEdge;
  Nodes : list row;
  conPageInfo : PageInfo;
  conTotalCount : Z;
}.

Definition encodeCursor (index : Z) : string := base64_encode ("cursor:" +:+ itoa index).

Definition buildStarRocksConnection (data : list row) (totalCount offset first : option Z)
    : StarRocksConnection :=
  let startIdx := default 0 offset in
  let edges := map (fun ir : Z * row => {| Node := ir.2; Cursor := encodeCursor (wrap64 (startIdx + ir.1)) |})
                 (indexed data) in
  {| Edges := edges;
     Nodes := data;
     conPageInfo := {|
       HasNextPage := match first with Some n => n <=? Z.of_nat (length data) | None => false end;
       HasPreviousPage := 0 <? startIdx;
       StartCursor := Cursor <$> head edges;
       EndCursor := Cursor <$> last edges |};
     conTotalCount := default 0 totalCount |}.

(** What [extensions.warnings] holds afterwards. *)
Definition setExtensionWarnings {A} (existing warnings : list A) : list A :=
  if Z.of_nat (length warnings) =? 0 then existing else existing ++ warnings.

Definition truncation_warning (maxRows n : Z) : string :=
  "Result set truncated: returned " +:+ itoa maxRows +:+ " rows out of " +:+ itoa n
    +:+ " (max_result_rows=" +:+ itoa maxRows +:+ ")".

(** ** base.resolvers.go *)

(** The request with the options and the count the resolver adds. *)
Definition starrocks_request (totalRequested : bool) (table : string) (fields : list string)
    (filters : list (option StarRocksFilter)) (orderBy : list (option StarRocksOrderBy))
    (first : option Z) (after : option string) (offset limit : option Z) : QueryRequest :=
  let req := buildStarRocksQueryRequest fields filters orderBy first after offset limit in
  {| Fields := Fields req; Filters := Filters req; OrderBy := OrderBy req;
     Pagination := Pagination req; NeedCount := totalRequested;
     ReqOptions := Some [("table", VString table)] |}.

Section Starrocks.
Variable ExecuteWithRetry : string -> QueryRequest -> result QueryResult.
Variable MaxResultRows : Z.

(** The connection and the extension warnings of the response. *)
Definition Starrocks (existing : list string) (totalRequested : bool) (table : string) (fields : list string)
    (filters : list (option StarRocksFilter)) (orderBy : list (option StarRocksOrderBy))
    (first : option Z) (after : option string) (offset limit : option Z)
    : result (StarRocksConnection * list string) :=
  let req := starrocks_request totalRequested table fields filters orderBy first after offset limit in
  res ← ExecuteWithRetry findStarRocksDS req;
  let data := Data res in
  let truncated := (0 <? MaxResultRows) && (MaxResultRows <? Z.of_nat (length data)) in
  let warnings := Warnings res ++
    (if truncated then [truncation_warning MaxResultRows (Z.of_nat (length data))] else []) in
  let data := if truncated then take (Z.to_nat MaxResultRows) data else data in
  Ok (buildStarRocksConnection data (TotalCount res) offset first, setExtensionWarnings existing warnings).
End Starrocks.

(** ** Lemmas *)

Lemma indexed_map_snd {A} i (l : list A) : map snd (indexed_from i l) = l.
Proof. revert i. induction l; intros i; simpl; [done|]. by f_equal. Qed.

Lemma indexed_lookup {A} i (l : list A) k :
  indexed_from i l !! k = (fun x => (i + Z.of_nat k, x)) <$> l !! k.
Proof.
  revert i k. induction l as [|x l IH]; intros i [|k]; simpl; [done..|by rewrite Z.add_0_r|].
  rewrite IH. destruct (l !! k); simpl; [|done]. do 2 f_equal. lia.
Qed.

Lemma encodeCursor_head i : exists r,
  encodeCursor i = String "Y" (String "3" (String "V" (String "y" (String "c" (String "2" (String "9" (String "y" r))))))).
Proof. unfold encodeCursor. simpl String.append. cbn [base64_encode]. eexists. reflexivity. Qed.

Lemma decode_encodeCursor i : decodeCursor (encodeCursor i) = -1.
Proof. destruct (encodeCursor_head i) as [r ->]. reflexivity. Qed.

(** The statement of a request, when it is accepted. *)
Lemma in_filter_rejected {D : Dialect} wl req tbl f q :
  f ∈ Filters req -> (Operator f = FilterOpIN \/ Operator f = FilterOpNOT_IN) ->
  (forall l, Value f <> VSlice l) -> Build wl req tbl <> Ok q.
Proof.
  intros Hf Hop Hv (_ & _ & Hwh)%bind_Ok. apply bind_Ok in Hwh as (sc & _ & Hwh).
  apply bind_Ok in Hwh as (wp & Hw & _). revert Hw. unfold buildWhereClause.
  destruct (Filters req) as [|f0 fs]; [by apply not_elem_of_nil in Hf|].
  intros (cps & Hc & _)%bind_Ok.
  assert (Ht : Forall (fun f => exists cp, where_one (default ∅ (wl !! tbl)) f = Ok cp) (f0 :: fs)).
  { apply mapR_total. by exists cps. }
  rewrite Forall_forall in Ht. destruct (Ht f Hf) as [cp Hcp].
  unfold where_one in Hcp. apply bind_Ok in Hcp as (_ & _ & Hcp).
  destruct Hop as [Ho|Ho]; rewrite Ho in Hcp; apply in_clause_Ok in Hcp as (l & Hl & _); by eapply Hv.
Qed.

(** A request with a list filter, as GraphQL builds it, has a scalar where the builder wants
    a list. *)
Lemma starrocks_list_filter tr table fields filters orderBy first after offset limit f :
  Some f ∈ filters -> fOperator f = "IN" \/ fOperator f = "NOT_IN" ->
  exists fc, fc ∈ Filters (starrocks_request tr table fields filters orderBy first after offset limit)
    /\ (Operator fc = FilterOpIN \/ Operator fc = FilterOpNOT_IN) /\ forall l, Value fc <> VSlice l.
Proof.
  intros Hf Ho. exists (convert_filter f). split; [|split; [|done]].
  - simpl. apply list_elem_of_omap. by exists (Some f).
  - simpl. destruct Ho as [-> | ->]; [by left|by right].
Qed.

(** ** Theorems *)

(** the list filters of the query API cannot be used.  [StarRocksFilter.value] is a
    string, the SQL builder accepts IN and NOT_IN on lists only: every query with such a
    filter fails, and nothing is sent to the database. *)
Theorem list_filters_rejected queryDB countDB a tr table fields filters orderBy first after offset limit f :
  Some f ∈ filters -> fOperator f = "IN" \/ fOperator f = "NOT_IN" ->
  let r := StarRocks.Execute queryDB countDB a
             (starrocks_request tr table fields filters orderBy first after offset limit) in
  (exists e, r.1 = Err e) /\ r.2 = [].
Proof.
  intros Hf Ho. destruct (starrocks_list_filter tr table fields filters orderBy first after offset limit f Hf Ho)
    as (fc & Hfc & Hop & Hv).
  set (req := starrocks_request _ _ _ _ _ _ _ _ _) in *. unfold StarRocks.Execute.
  destruct (StarRocks.db a); simpl negb; cbv iota; [|split; [by eexists|done]].
  destruct (extractTable (ReqOptions req)) as [t|e]; simpl; [|split; [by eexists|done]].
  destruct (Build (StarRocks.allowedTables a) req t) as [q|e] eqn:Hb; simpl; [|split; [by eexists|done]].
  by destruct (in_filter_rejected (D := StarRocks.starrocks_dialect) _ _ _ _ q Hfc Hop Hv Hb).
Qed.

(** the cursors of a page are not usable.  Whatever page an edge comes from, [after]
    with its cursor is the same as neither [after] nor [offset]: a client that follows
    [endCursor] is given the first page again. *)
Theorem cursors_ignored data total offset first e (D : Dialect) (p : PaginationParams) :
  e ∈ Edges (buildStarRocksConnection data total offset first) ->
  After p = Some (Cursor e) ->
  buildLimitClause (Some p)
    = buildLimitClause (Some {| First := First p; After := None; Offset := None; Limit := Limit p |}).
Proof.
  intros He Ha. apply list_elem_of_fmap in He as (ir & -> & _). simpl in Ha.
  unfold buildLimitClause, effective_offset. rewrite Ha, decode_encodeCursor. done.
Qed.

(** the answer of the resolver.  It has the rows of the data source, cut to the maximum
    when one is set, with exactly one added warning when rows were cut; one edge per row,
    in order, with the cursors of consecutive offsets; [hasNextPage] exactly when the rows
    that are left fill the requested page, so a page cut by the maximum has none. *)
Theorem starrocks_answer exec maxRows existing tr table fields filters orderBy first after offset limit conn ws :
  Starrocks exec maxRows existing tr table fields filters orderBy first after offset limit = Ok (conn, ws) ->
  exists res, exec findStarRocksDS
      (starrocks_request tr table fields filters orderBy first after offset limit) = Ok res
  /\ (let n := Z.of_nat (length (Data res)) in
      let cut := (0 <? maxRows) && (maxRows <? n) in
      Nodes conn = (if cut then take (Z.to_nat maxRows) (Data res) else Data res)
      /\ (0 < maxRows -> Z.of_nat (length (Nodes conn)) <= maxRows)
      /\ ws = existing ++ Warnings res ++ (if cut then [truncation_warning maxRows n] else []))
  /\ map Node (Edges conn) = Nodes conn
  /\ (forall i e, Edges conn !! i = Some e -> Cursor e = encodeCursor (wrap64 (default 0 offset + Z.of_nat i)))
  /\ (HasNextPage (conPageInfo conn) = true
        <-> exists k, first = Some k /\ k <= Z.of_nat (length (Nodes conn)))
  /\ conTotalCount conn = default 0 (TotalCount res).
Proof.
  unfold Starrocks. intros (res & Hres & H)%bind_Ok. exists res. split; [done|]. injection H as <- <-.
  set (cut := (0 <? maxRows) && _). set (data := if cut then _ else _). split; [split; [done|split]|].
  - simpl. intros Hm. unfold data. destruct cut eqn:Hcut; unfold cut in Hcut; [rewrite length_take|]; unfold row in *; lia.
  - unfold setExtensionWarnings. destruct (Warnings res ++ _) eqn:E; simpl; [by rewrite app_nil_r|done].
  - split; [|split; [|split; [|done]]]; simpl.
    + rewrite <- (indexed_map_snd 0 data) at 2. by rewrite map_map.
    + intros i e He. apply list_lookup_fmap_Some in He as (ir & -> & He). unfold indexed in He. rewrite indexed_lookup in He.
      apply fmap_Some in He as (x & _ & ->). done.
    + destruct first as [k|]; split; [intros; exists k; split; [done|lia]| |done|by intros (? & ? & _)].
      intros (k' & [= <-] & ?). lia.
Qed.

(** ** Witnesses *)

Definition demo_in : StarRocksFilter := {| fField := "id"; fOperator := "IN"; fValue := "1" |}.
Definition demo_data : list row := [[("id", VInt 7)]; [("id", VInt 8)]; [("id", VInt 9)]].
Definition demo_exec (_ : string) (_ : QueryRequest) : result QueryResult :=
  Ok {| Data := demo_data; TotalCount := Some 3; Warnings := [] |}.

Lemma list_filters_rejected_witness :
  (StarRocks.Execute (fun _ => Ok StarRocks.demo_rows) (fun _ => Ok 1) StarRocks.demo_adapter
     (starrocks_request false "orders" ["id"] [Some demo_in] [] None None None None)).2 = [].
Proof.
  refine (proj2 (list_filters_rejected (fun _ => Ok StarRocks.demo_rows) (fun _ => Ok 1) StarRocks.demo_adapter
    false "orders" ["id"] [Some demo_in] [] None None None None demo_in _ (or_introl eq_refl))).
  left.
Defined.
Lemma cursors_ignored_witness :
  buildLimitClause (D := StarRocks.starrocks_dialect)
    (Some {| First := Some 2; After := Some (encodeCursor 1); Offset := None; Limit := None |}) = "LIMIT 2".
Proof.
  rewrite (cursors_ignored demo_data None None (Some 2) {| Node := [("id", VInt 8)]; Cursor := encodeCursor 1 |}
    StarRocks.starrocks_dialect
    {| First := Some 2; After := Some (encodeCursor 1); Offset := None; Limit := None |}).
  - reflexivity.
  - vm_compute. right. left.
  - reflexivity.
Defined.
Lemma starrocks_answer_witness : exists conn ws,
  Starrocks demo_exec 2 [] true "orders" ["id"] [] [] (Some 2) None None None = Ok (conn, ws)
  /\ length (Nodes conn) = 2%nat /\ HasNextPage (conPageInfo conn) = true.
Proof.
  destruct (Starrocks demo_exec 2 [] true "orders" ["id"] [] [] (Some 2) None None None) as [[conn ws]|] eqn:E;
    [|discriminate E].
  exists conn, ws. split; [reflexivity|].
  destruct (starrocks_answer demo_exec 2 [] true "orders" ["id"] [] [] (Some 2) None None None conn ws E)
    as (res & Hres & (Hn & _) & _ & _ & Hp & _).
  injection Hres as <-. simpl in Hn. split; [rewrite Hn; reflexivity|].
  apply Hp. exists 2. split; [reflexivity|]. rewrite Hn. vm_compute. discriminate.
Defined.
