(* ===== verification/PrometheusResolver.v ===== *)
(** * internal/graphql/resolver: the Prometheus query resolvers

    The requests [PrometheusInstant] and [PrometheusRange] build and the GraphQL results they
    make of the adapter's rows.  A [scalar.DateTime] is the text [Format(time.RFC3339)] gives;
    the manager's [ExecuteWithRetry] and the first result of [strconv.ParseFloat] are
    arguments. *)
From S2P Require Import Prelude GoStrings Values GoConv FuncMap Json JsonRaw.
From S2P Require Import DataSource SqlAdapter Prometheus Resolver.

(** The generated types. *)
Record PrometheusLabelFilter := { pf_name : string; pf_value : string; pf_match : string }.
Record PrometheusMetricLabel := { ml_name : string; ml_value : string }.
Record PrometheusDataPoint := { dp_timestamp : spec_float; dp_value : option spec_float }.
Record PrometheusVector := { pv_metric : list PrometheusMetricLabel; pv_value : PrometheusDataPoint }.
Record PrometheusMatrix := { pm_metric : list PrometheusMetricLabel; pm_values : list PrometheusDataPoint }.
Record PrometheusInstantResult := { ir_type : string; ir_vectors : list PrometheusVector }.
Record PrometheusRangeResult := { rr_type : string; rr_matrices : list PrometheusMatrix }.

Definition convertLabelMatchType (mt : string) : FilterOperator :=
  if String.eqb mt "EXACT" then FilterOpEQ
  else if String.eqb mt "NOT_EQUAL" then FilterOpNEQ
  else if String.eqb mt "REGEX" then FilterOpLIKE
  else if String.eqb mt "NOT_REGEX" then FilterOpNOT_IN
  else FilterOpEQ.
Definition label_condition (f : PrometheusLabelFilter) : FilterCondition :=
  {| DataSource.Field := pf_name f; Operator := convertLabelMatchType (pf_match f); Value := VString (pf_value f) |}.
Definition label_request (opts : list (string * GoVal)) (filters : list (option PrometheusLabelFilter)) : QueryRequest :=
  {| Fields := []; Filters := omap (fmap label_condition) filters; OrderBy := []; Pagination := None;
     NeedCount := false; ReqOptions := Some opts |}.
Definition buildPrometheusInstantRequest (query : string) (timeArg : option string)
    (filters : list (option PrometheusLabelFilter)) : QueryRequest :=
  label_request ([("query", VString query); ("query_type", VString "instant")]
                 ++ match timeArg with Some t => [("time", VString t)] | None => [] end) filters.
Definition buildPrometheusRangeRequest (query startTime endTime step : string)
    (filters : list (option PrometheusLabelFilter)) : QueryRequest :=
  label_request [("query", VString query); ("query_type", VString "range"); ("startTime", VString startTime);
                 ("endTime", VString endTime); ("step", VString step)] filters.

Section Results.
Context {GF : GoFmt}.
Variable ParseFloat_value : string -> spec_float.

Definition toFloat64 (v : GoVal) : spec_float :=
  match v with
  | VFloat64 f | VFloat32 f => f
  | VInt z | VInt64 z => float_of_int z
  | VString s => ParseFloat_value s
  | _ => S754_zero false
  end.
Definition extractMetricLabels (row : row) : list PrometheusMetricLabel :=
  match assoc "metric" row with
  | Some (VMap metricMap) => map (fun kv => {| ml_name := kv.1; ml_value := sprint kv.2 |}) metricMap
  | _ => []
  end.
Definition extractDataPoint (row : row) : PrometheusDataPoint :=
  {| dp_timestamp := match assoc "timestamp" row with Some ts => toFloat64 ts | None => S754_zero false end;
     dp_value := toFloat64 <$> assoc "value" row |}.
Definition extractDataPoints (row : row) : list PrometheusDataPoint :=
  match assoc "values" row with
  | Some (VSlice values) => omap (fun v => match v with VMap p => Some (extractDataPoint p) | _ => None end) values
  | _ => []
  end.
Definition result_type (dflt : string) (data : list row) : string :=
  match head data ≫= assoc "resultType" with Some (VString rt) => rt | _ => dflt end.
Definition convertToInstantResult (result : QueryResult) : PrometheusInstantResult :=
  {| ir_type := result_type "vector" (Data result);
     ir_vectors := map (fun row => {| pv_metric := extractMetricLabels row; pv_value := extractDataPoint row |}) (Data result) |}.
Definition convertToRangeResult (result : QueryResult) : PrometheusRangeResult :=
  {| rr_type := result_type "matrix" (Data result);
     rr_matrices := map (fun row => {| pm_metric := extractMetricLabels row; pm_values := extractDataPoints row |}) (Data result) |}.

Variable ExecuteWithRetry : string -> QueryRequest -> result QueryResult.
Definition PrometheusInstant (existing : list string) (query : string) (time : option string)
    (filters : list (option PrometheusLabelFilter)) : result (PrometheusInstantResult * list string) :=
  result ← ExecuteWithRetry findPrometheusDS (buildPrometheusInstantRequest query time filters);
  Ok (convertToInstantResult result, setExtensionWarnings existing (Warnings result)).
Definition PrometheusRange (existing : list string) (query startTime endTime step : string)
    (filters : list (option PrometheusLabelFilter)) : result (PrometheusRangeResult * list string) :=
  result ← ExecuteWithRetry findPrometheusDS (buildPrometheusRangeRequest query startTime endTime step filters);
  Ok (convertToRangeResult result, setExtensionWarnings existing (Warnings result)).
End Results.

(** ** What arrives of the adapter's rows *)

Section Facts.
Context {GF : GoFmt} {FT : FloatText} {UT : UnicodeTables}.
Variable ParseFloat_value : string -> spec_float.
Variable err_text : string -> string.
#[local] Set Default Proof Using "Type".
Notation Execute := (Prometheus.Execute err_text).

(** The rows the adapter builds: a metric is a [map\[string\]string], a value a pointer to a
    float or the text of a string result, values are pointers. *)
Definition adapter_row (rt : string) (row : row) : Prop :=
  match assoc "metric" row with None | Some (VMapSS _) => True | _ => False end
  /\ match assoc "values" row with None | Some (VFloatPtrs _) => True | _ => False end
  /\ (rt = "vector" \/ rt = "scalar" -> exists p, assoc "value" row = Some (VFloatPtr p)).

Lemma convertResponse_rows a d res : convertResponse err_text a d = Ok res ->
  Forall (adapter_row (ResultType d)) (Data res).
Proof.
  unfold convertResponse, adapter_row. destruct (String.eqb_spec (ResultType d) "vector") as [->|Nv].
  { unfold convertVector. repeat case_match; try done. intros <-%Ok_inj. apply Forall_forall.
    intros row (r & -> & (v & -> & _)%list_elem_of_fmap)%list_elem_of_fmap. unfold vector_row.
    destruct (parseTimestampValue _ _) as [[ts val] w]. split_and!; [done|done|]. intros _. by exists val. }
  destruct (String.eqb_spec (ResultType d) "matrix") as [->|Nm].
  { unfold convertMatrix. repeat case_match; try done. intros <-%Ok_inj. apply Forall_forall.
    intros row (r & -> & (m & -> & _)%list_elem_of_fmap)%list_elem_of_fmap. split_and!; [done|done|by intros [|]]. }
  destruct (String.eqb_spec (ResultType d) "scalar") as [->|Ns].
  { unfold convertScalar. destruct (dec_pair (Result d)) as [p|]; [|done].
    destruct (parseTimestampValue _ p) as [[ts val] w]. intros <-%Ok_inj. constructor; [|constructor].
    split_and!; [done|done|]. intros _. by exists val. }
  destruct (String.eqb_spec (ResultType d) "string") as [->|Nst].
  { unfold convertString. repeat case_match; try done. intros <-%Ok_inj. constructor; [|constructor].
    split_and!; [done|done|by intros [|]]. }
  intros <-%Ok_inj. constructor; [|constructor]. split_and!; [done|done|by intros [|]].
Qed.
Lemma row_labels_lost rt row : adapter_row rt row -> extractMetricLabels row = [].
Proof. unfold adapter_row, extractMetricLabels. intros (H & _). by destruct (assoc "metric" row) as [[]|]. Qed.
Lemma row_points_lost rt row : adapter_row rt row -> extractDataPoints ParseFloat_value row = [].
Proof. unfold adapter_row, extractDataPoints. intros (_ & H & _). by destruct (assoc "values" row) as [[]|]. Qed.
Lemma row_value_lost rt row : adapter_row rt row -> rt = "vector" \/ rt = "scalar" ->
  dp_value (extractDataPoint ParseFloat_value row) = Some (S754_zero false).
Proof. intros (_ & _ & H) Hrt. unfold extractDataPoint. by destruct (H Hrt) as [p ->]. Qed.

Lemma Execute_data net a req res : Execute net a req = Ok res ->
  exists path params d, query_params req = Ok (path, params) /\ doQuery err_text net a path params = Ok d
    /\ Forall (adapter_row (ResultType d)) (Data res).
Proof.
  unfold Prometheus.Execute. intros (_ & _ & (_ & _ & ([path params] & Hq & (d & Hd & Hc)%bind_Ok)%bind_Ok)%bind_Ok)%bind_Ok.
  exists path, params, d. split_and!; [done..|]. by eapply convertResponse_rows.
Qed.

(** C12: none of the measurements Prometheus returns reaches the client.  Whatever the endpoint
    answers, a range query has neither labels nor data points in any of its series, and an
    instant query has no labels and, for a vector or a scalar, the value 0 in every sample:
    the resolver's type assertions do not match the types the adapter builds. *)
Theorem prometheus_data_lost net a existing query filters :
  (forall startTime endTime step res ws,
     PrometheusRange ParseFloat_value (fun _ => Execute net a) existing query startTime endTime step filters = Ok (res, ws) ->
     Forall (fun m => pm_metric m = [] /\ pm_values m = []) (rr_matrices res))
  /\ (forall time res ws,
     PrometheusInstant ParseFloat_value (fun _ => Execute net a) existing query time filters = Ok (res, ws) ->
     exists path params d, query_params (buildPrometheusInstantRequest query time filters) = Ok (path, params)
       /\ doQuery err_text net a path params = Ok d
       /\ Forall (fun v => pv_metric v = [] /\
            (ResultType d = "vector" \/ ResultType d = "scalar" -> dp_value (pv_value v) = Some (S754_zero false)))
            (ir_vectors res)).
Proof.
  split.
  - intros st en sp res ws (r & Hr & E%Ok_inj)%bind_Ok. apply Execute_data in Hr as (path & params & d & _ & _ & Hrows).
    injection E as <- _. simpl. apply Forall_fmap. eapply Forall_impl; [exact Hrows|].
    intros row Hrow. split; [by eapply row_labels_lost|by eapply row_points_lost].
  - intros time res ws (r & Hr & E%Ok_inj)%bind_Ok. apply Execute_data in Hr as (path & params & d & Hq & Hd & Hrows).
    exists path, params, d. split_and!; [done..|]. injection E as <- _. simpl. apply Forall_fmap.
    eapply Forall_impl; [exact Hrows|]. intros row Hrow. split; [by eapply row_labels_lost|by eapply row_value_lost].
Qed.
End Facts.
