(* ===== verification/PrometheusFacts.v ===== *)
(** * The Prometheus adapter: what it sends and what it lets through

    The query string decodes to the parameters that were built; results stay within the
    limit of data points and hold finite numbers only; the transport counts open bodies; and
    what the label filters of the GraphQL API do, and do not do, to the query. *)
From S2P Require Import Prelude GoStrings Values GoConv FuncMap Json JsonRaw.
From S2P Require Import DataSource SqlAdapter Prometheus Resolver PrometheusResolver.

(** ** The query string *)

(** [url.ParseQuery] of a well-formed query string. *)
Fixpoint QueryUnescape (s : string) : option string :=
  match s with
  | EmptyString => Some EmptyString
  | String c s1 =>
      if Ascii.eqb c "%" then
        match s1 with
        | String h (String l s2) =>
            x ← hex_val h; y ← hex_val l; r ← QueryUnescape s2; Some (String (byte_of (x * 16 + y)) r)
        | _ => None
        end
      else r ← QueryUnescape s1; Some (String (if Ascii.eqb c "+" then " "%char else c) r)
  end.
Definition parse_pair (s : string) : option (string * string) :=
  match index_byte "="%char s with
  | Some i => k ← QueryUnescape (str_take i s); v ← QueryUnescape (str_drop (S i) s); Some (k, v)
  | None => k ← QueryUnescape s; Some (k, EmptyString)
  end.
Definition ParseQuery (s : string) : option url_values :=
  if String.eqb s EmptyString then Some [] else mapM parse_pair (split_byte "&"%char s).

Lemma hex_digits c : hex_val (upper_hex (code c / 16)) = Some (code c / 16)%N
  /\ hex_val (upper_hex (code c mod 16)) = Some (code c mod 16)%N
  /\ byte_of (code c / 16 * 16 + code c mod 16) = c.
Proof. by destruct c as [[] [] [] [] [] [] [] []]. Qed.
Lemma unreserved_not_special c : unreserved c = true -> c <> "%"%char /\ c <> "+"%char /\ c <> "&"%char /\ c <> "="%char.
Proof. intros H. split_and!; intros ->; vm_compute in H; discriminate. Qed.
Lemma unescape_escape s : QueryUnescape (QueryEscape s) = Some s.
Proof.
  induction s as [|c s IH]; [done|]. simpl. destruct (unreserved c) eqn:Hu.
  - apply unreserved_not_special in Hu as (H1 & H2 & _). simpl.
    rewrite (proj2 (Ascii.eqb_neq _ _) H1), (proj2 (Ascii.eqb_neq _ _) H2), IH. done.
  - destruct (Ascii.eqb_spec c " ") as [->|_]; simpl; [by rewrite IH|].
    destruct (hex_digits c) as (-> & -> & E). simpl. by rewrite IH, E.
Qed.
Definition query_byte (c : ascii) : bool := negb (Ascii.eqb c "&") && negb (Ascii.eqb c "=").
Lemma escape_bytes s : str_forallb query_byte (QueryEscape s) = true.
Proof.
  assert (Hhex : forall c, query_byte (upper_hex (code c / 16)) = true /\ query_byte (upper_hex (code c mod 16)) = true)
    by (intros c; by destruct c as [[] [] [] [] [] [] [] []]).
  induction s as [|c s IH]; [done|]. simpl. destruct (unreserved c) eqn:Hu.
  - apply unreserved_not_special in Hu as (_ & _ & H3 & H4). simpl. rewrite IH. unfold query_byte.
    by rewrite (proj2 (Ascii.eqb_neq _ _) H3), (proj2 (Ascii.eqb_neq _ _) H4).
  - destruct (Ascii.eqb c " "); simpl; [done|]. destruct (Hhex c) as [-> ->]. by rewrite IH.
Qed.

Lemma split_byte_whole c p : str_forallb (fun a => negb (Ascii.eqb a c)) p = true -> split_byte c p = [p].
Proof.
  induction p as [|a p IH]; intros H; simpl in *; [done|]. apply andb_true_iff in H as [Ha H].
  apply negb_true_iff in Ha. by rewrite Ha, IH.
Qed.
Lemma split_byte_app c p q : str_forallb (fun a => negb (Ascii.eqb a c)) p = true ->
  split_byte c (p +:+ String c q) = p :: split_byte c q.
Proof.
  induction p as [|a p IH]; intros H; simpl in *; [by rewrite Ascii.eqb_refl|].
  apply andb_true_iff in H as [Ha H]. apply negb_true_iff in Ha. by rewrite Ha, IH.
Qed.
Lemma split_join c ps : ps <> [] -> Forall (fun p => str_forallb (fun a => negb (Ascii.eqb a c)) p = true) ps ->
  split_byte c (join (str1 c) ps) = ps.
Proof.
  intros Hne H. induction H as [|p ps Hp H IH]; [done|]. destruct ps as [|q ps]; [by apply split_byte_whole|].
  rewrite join_cons. change (str1 c +:+ ?x) with (String c x). rewrite split_byte_app by done. by rewrite IH.
Qed.

Lemma parse_encoded_pair kv : parse_pair (QueryEscape kv.1 +:+ "=" +:+ QueryEscape kv.2) = Some kv.
Proof.
  unfold parse_pair. change ("=" +:+ ?x) with (String "=" x). rewrite index_byte_app.
  - rewrite str_take_app.
    replace (str_drop (S (String.length (QueryEscape kv.1))) (QueryEscape kv.1 +:+ String "=" (QueryEscape kv.2)))
      with (QueryEscape kv.2).
    + rewrite !unescape_escape. by destruct kv.
    + generalize (QueryEscape kv.2) as q. generalize (QueryEscape kv.1) as p. clear. intros p q.
      induction p as [|a p IH]; [by destruct q|done].
  - eapply str_forallb_impl; [|apply escape_bytes]. unfold query_byte. intros a. by destruct (Ascii.eqb a "&"), (Ascii.eqb a "=").
Qed.

(** the query string the adapter sends decodes to exactly the parameters it built, whatever
    bytes the query, the times and the step contain: none of them can add or change another
    parameter. *)
Theorem query_string_roundtrip params : ParseQuery (Encode params) = Some (merge_sort key_le params).
Proof.
  unfold Encode, ParseQuery. set (ps := merge_sort key_le params).
  set (enc := fun kv : string * string => QueryEscape kv.1 +:+ "=" +:+ QueryEscape kv.2).
  destruct (decide (ps = [])) as [->|Hps]; [done|].
  rewrite (proj2 (String.eqb_neq _ _)).
  - change "&" with (str1 "&"%char). rewrite split_join.
    + apply mapM_fmap_Some. intros kv. apply parse_encoded_pair.
    + by destruct ps.
    + apply Forall_fmap, Forall_forall. intros kv _. unfold enc. simpl.
      assert (Hb : forall x, str_forallb (fun a => negb (Ascii.eqb a "&")) (QueryEscape x) = true).
      { intros x. eapply str_forallb_impl; [|apply escape_bytes]. unfold query_byte. intros a. by destruct (Ascii.eqb a "&"). }
      rewrite str_forallb_app, Hb. apply Hb.
  - destruct ps as [|kv ps']; [done|]. intros E. apply (f_equal String.length) in E. revert E. clear.
    destruct ps' as [|kv' ps']; cbn [map join]; unfold enc; rewrite ?str_length_app; cbn [String.length]; lia.
Qed.

Definition demo_params : url_values := [("step", "15s"); ("query", "up{a=1}&query=x y")].
Lemma query_string_demo : Encode demo_params = "query=up%7Ba%3D1%7D%26query%3Dx+y&step=15s".
Proof. reflexivity. Qed.

(** ** Results *)

Section Results.
Context {GF : GoFmt} {FT : FloatText} {UT : UnicodeTables}.
Variable err_text : string -> string.
#[local] Set Default Proof Using "Type".

Definition finite (f : spec_float) : bool :=
  match f with S754_zero _ | S754_finite _ _ _ => true | _ => false end.
(** The measurements of a row. *)
Definition row_values (row : list (string * GoVal)) : list (option spec_float) :=
  match assoc "value" row, assoc "values" row with
  | Some (VFloatPtr p), _ => [p]
  | _, Some (VFloatPtrs ps) => ps
  | _, _ => []
  end.

Lemma ConvertValue_finite v f : (ConvertValue v).1 = Some f -> finite f = true.
Proof. by destruct v as [|[]| |]; simpl; intros; simplify_eq. Qed.
Lemma ConvertValue_warns v : (ConvertValue v).1 = None -> (ConvertValue v).2 <> EmptyString.
Proof. by destruct v as [|[]| |]. Qed.
Lemma parseTimestampValue_spec p ts val ws : parseTimestampValue err_text p = (ts, val, ws) ->
  match val with Some f => finite f = true | None => ws <> [] end.
Proof.
  unfold parseTimestampValue. destruct (dec_float p.1); [|by intros [= _ <- <-]].
  destruct (dec_string p.2) as [str|]; [|by intros [= _ <- <-]]. destruct (parse_float str) as [f|]; [|by intros [= _ <- <-]].
  pose proof (ConvertValue_finite f) as Hf. pose proof (ConvertValue_warns f) as Hw.
  destruct (ConvertValue f) as [o w]. simpl in *. intros [= _ <- <-]. destruct o as [g|]; [by apply Hf|].
  destruct (String.eqb_spec w EmptyString); [by destruct (Hw eq_refl)|done].
Qed.

(** A row's measurements are finite numbers or null, and a null has left a warning. *)
Definition clean (rows : list (list (string * GoVal))) (ws : list string) : Prop :=
  Forall (fun row => Forall (fun v => match v with Some f => finite f = true | None => ws <> [] end) (row_values row)) rows.

Lemma clean_rows {R} (f : R -> list (string * GoVal) * list string) (rs : list R) :
  (forall r, Forall (fun v => match v with Some g => finite g = true | None => (f r).2 <> [] end) (row_values (f r).1)) ->
  clean (map fst (map f rs)) (flat_map snd (map f rs)).
Proof.
  intros H. unfold clean. apply Forall_forall. intros row (x & -> & (r & -> & Hr)%list_elem_of_fmap)%list_elem_of_fmap.
  eapply Forall_impl; [apply H|]. intros [g|]; [done|]. intros Hne Hall. apply Hne.
  destruct ((f r).2) as [|w ws] eqn:E; [done|]. exfalso.
  assert (Hin : In w (flat_map snd (map f rs))).
  { apply in_flat_map. exists (f r). split; [by apply in_map, list_elem_of_In|]. rewrite E. by left. }
  rewrite Hall in Hin. destruct Hin.
Qed.

Lemma vector_row_clean r : Forall (fun v => match v with Some g => finite g = true | None => (vector_row err_text r).2 <> [] end)
  (row_values (vector_row err_text r).1).
Proof.
  unfold vector_row. destruct (parseTimestampValue err_text (v_value r)) as [[ts val] w] eqn:E.
  apply parseTimestampValue_spec in E. simpl. by constructor.
Qed.
Lemma matrix_row_clean r : Forall (fun v => match v with Some g => finite g = true | None => (matrix_row err_text r).2 <> [] end)
  (row_values (matrix_row err_text r).1).
Proof.
  simpl. apply Forall_forall. intros v (p & -> & Hp)%list_elem_of_fmap.
  pose proof Hp as (q & Eq & _)%list_elem_of_fmap. destruct p as [[ts val] w]. symmetry in Eq.
  apply parseTimestampValue_spec in Eq. simpl. destruct val as [g|]; [done|]. intros Hall. apply Eq.
  destruct w as [|w0 w]; [done|]. exfalso.
  destruct (indexed_from_elem _ _ Hp 0) as [j Hj].
  set (line := "series " +:+ sprint (VMapSS (m_metric r)) +:+ " data point [" +:+ itoa j +:+ "]: " +:+ w0).
  assert (Hin : In line (matrix_row err_text r).2).
  { simpl. apply in_flat_map. eexists. split; [by apply list_elem_of_In|]. simpl. by left. }
  simpl in Hin. rewrite Hall in Hin. destruct Hin.
Qed.

(** The data points a result holds. *)
Definition points (res : QueryResult) : nat := list_sum (map (fun row => length (row_values row)) (Data res)).

Lemma points_of {R} (f : R -> list (string * GoVal) * list string) (g : R -> nat) rs ws :
  (forall r, length (row_values (f r).1) = g r) -> points (query_result (map fst (map f rs)) ws) = list_sum (map g rs).
Proof. intros H. unfold points. simpl. induction rs as [|r rs IH]; simpl; [done|]. by rewrite H, IH. Qed.
Lemma list_sum_ones {R} (rs : list R) : list_sum (map (fun _ => 1%nat) rs) = length rs.
Proof. induction rs; simpl; congruence. Qed.

(** C20: a successful query returns no more data points than [max_data_points] (a scalar or a
    string is one), every measurement is a finite number or null, and a null, which stands for
    NaN, an infinity or an unreadable value, is reported in the warnings. *)
Theorem prometheus_result_bounds net a req res : Execute err_text net a req = Ok res ->
  Z.of_nat (points res) <= Z.max 1 (maxDataPoints a) /\ clean (Data res) (Warnings res).
Proof.
  unfold Execute. intros (_ & _ & (_ & _ & ([path params] & _ & (d & _ & Hc)%bind_Ok)%bind_Ok)%bind_Ok)%bind_Ok.
  revert Hc. unfold convertResponse.
  destruct (String.eqb (ResultType d) "vector").
  { unfold convertVector. destruct (_ ≫= _) as [rs|]; [|done]. destruct (_ <? _) eqn:El; [done|]. intros <-%Ok_inj. split.
    - rewrite (points_of _ (fun _ => 1%nat)), list_sum_ones; [lia|]. intros r. unfold vector_row.
      by destruct (parseTimestampValue _ _) as [[ts val] w].
    - apply clean_rows, vector_row_clean. }
  destruct (String.eqb (ResultType d) "matrix").
  { unfold convertMatrix. destruct (_ ≫= _) as [rs|]; [|done]. destruct (_ <? _) eqn:El; [done|]. intros <-%Ok_inj. split.
    - rewrite (points_of _ (fun r => length (m_values r))); [unfold total_points in El; lia|]. intros r. simpl.
      etrans; [apply length_map|apply length_map].
    - apply clean_rows, matrix_row_clean. }
  destruct (String.eqb (ResultType d) "scalar").
  { unfold convertScalar. destruct (dec_pair _) as [p|]; [|done].
    destruct (parseTimestampValue err_text p) as [[ts val] w] eqn:E. apply parseTimestampValue_spec in E.
    intros <-%Ok_inj. split; [unfold points; simpl; lia|]. constructor; [by constructor|constructor]. }
  destruct (String.eqb (ResultType d) "string").
  { unfold convertString. repeat case_match; try done. intros <-%Ok_inj. split; [unfold points; simpl; lia|]. by repeat constructor. }
  intros <-%Ok_inj. split; [unfold points; simpl; lia|]. by repeat constructor.
Qed.

(** ** Label filters of the GraphQL API *)

(** The parameters an instant query sends, if it is valid. *)
Definition sent (req : QueryRequest) : result (string * url_values) := _ ← validate_request req; query_params req.

Lemma forR_skip {A} (f : A -> result unit) l1 x l2 : f x = Ok tt -> forR f (l1 ++ x :: l2) = forR f (l1 ++ l2).
Proof.
  intros Hx. unfold forR. induction l1 as [|y l1 IH]; simpl; [rewrite Hx; simpl; by destruct (mapR f l2)|].
  destruct (f y); simpl; [|done]. destruct (mapR f (l1 ++ x :: l2)), (mapR f (l1 ++ l2)); simpl in *; congruence.
Qed.
(** A filter the builder has no matcher for. *)
Lemma sent_skip opts l1 x l2 : label_matcher x = None -> ValidateLabelValue (sprint (Value x)) = Ok tt ->
  let req fs := {| Fields := []; Filters := fs; OrderBy := []; Pagination := None; NeedCount := false; ReqOptions := Some opts |} in
  sent (req (l1 ++ x :: l2)) = sent (req (l1 ++ l2)).
Proof.
  intros Hx Hv req. unfold sent. assert (Hvr : validate_request (req (l1 ++ x :: l2)) = validate_request (req (l1 ++ l2))).
  { unfold validate_request. simpl. by rewrite forR_skip. }
  assert (Ha : forall q, appendLabelMatchers q (l1 ++ x :: l2) = appendLabelMatchers q (l1 ++ l2)).
  { intros q. unfold appendLabelMatchers. rewrite !omap_app. simpl. by rewrite Hx. }
  assert (Hq : query_params (req (l1 ++ x :: l2)) = query_params (req (l1 ++ l2))).
  { unfold query_params, BuildRange, BuildInstant.
    change (extractQuery (req (l1 ++ x :: l2))) with (extractQuery (req (l1 ++ l2))).
    destruct (extractQuery (req (l1 ++ l2))) as [q|e]; [|reflexivity]. cbn [mbind result_bind].
    change (Filters (req ?l)) with l. by rewrite Ha. }
  by rewrite Hvr, Hq.
Qed.

(** a filter with match type NOT_REGEX has no effect: the query goes out as if it were not
    there (its value is still checked), so the series it should exclude are returned. *)
Theorem not_regex_filter_ignored query time before f after :
  pf_match f = "NOT_REGEX" -> contains_any promqlSpecialChars (pf_value f) = false ->
  sent (buildPrometheusInstantRequest query time (before ++ Some f :: after))
    = sent (buildPrometheusInstantRequest query time (before ++ after)).
Proof.
  intros Hm Hv. unfold buildPrometheusInstantRequest, label_request. rewrite !omap_app.
  cbn [omap list_omap fmap option_fmap option_map]. apply sent_skip.
  - unfold label_matcher, label_condition. simpl. by rewrite Hm.
  - unfold ValidateLabelValue. simpl. by rewrite Hv.
Qed.

(** label names are not checked at all: whatever text a filter has for a name, the request
    is accepted and the text goes into the query as code, behind the selector brace. *)
Theorem label_names_unchecked query name : query <> EmptyString -> ValidateQueryExpression query = Ok tt ->
  sent (buildPrometheusInstantRequest query None [Some {| pf_name := name; pf_value := EmptyString; pf_match := "EXACT" |}])
    = Ok ("/api/v1/query", [("query", query +:+ "{" +:+ name +:+ "=" +:+ str1 DQUOTE +:+ str1 DQUOTE +:+ "}")]).
Proof.
  intros Hq%String.eqb_neq Hv. unfold sent, validate_request, query_params, BuildInstant, extractQuery, extractRequiredOption.
  simpl. rewrite Hq, Hv. simpl. unfold appendLabelMatchers, label_condition. simpl. by rewrite !str_app_assoc.
Qed.
End Results.

(** ** The transport *)

(** What happens to the transport: a request, or a body closed (also more than once). *)
Inductive transport_op := TRequest (ok : bool) | TClose (i : nat).
Definition transport_step (t : InstrumentedTransport) (o : transport_op) : InstrumentedTransport :=
  match o with TRequest ok => RoundTrip ok t | TClose i => CloseBody i t end.
Definition open_bodies (t : InstrumentedTransport) : Z := Z.of_nat (length (List.filter negb (bodies t))).
Lemma close_counts (l : list bool) : forall i, l !! i = Some false ->
  Z.of_nat (length (List.filter negb (<[i := true]> l))) = Z.of_nat (length (List.filter negb l)) - 1.
Proof.
  induction l as [|b l IH]; intros [|i] H; simpl in H; try done; simplify_eq; simpl; [lia|].
  specialize (IH i H). destruct b; simpl; lia.
Qed.

(** the counter of active connections is the number of response bodies not yet closed, after
    any requests, failed ones included, and any closings, repeated ones included. *)
Theorem active_conns_counted ops : activeConns (foldl transport_step new_transport ops) = open_bodies (foldl transport_step new_transport ops).
Proof.
  assert (H : activeConns new_transport = open_bodies new_transport) by done.
  revert H. generalize new_transport. induction ops as [|o ops IH]; intros t H; simpl; [done|]. apply IH. unfold open_bodies in *.
  destruct o as [[]|i]; simpl.
  - rewrite List.filter_app, length_app. simpl. lia.
  - lia.
  - unfold CloseBody. destruct (bodies t !! i) as [[]|] eqn:E; simpl; try done. rewrite close_counts by done. lia.
Qed.

(** ** Witnesses *)

Definition demo_fmt : GoFmt :=
  {| fmt_float64 _ := EmptyString; fmt_float32 _ := EmptyString; fmt_opaque _ := EmptyString |}.
Definition demo_text : FloatText := {| parse_float s := float_of_int <$> parse_int s; format_float _ := EmptyString |}.
Definition demo_tables : UnicodeTables := {| uni_to_upper s := s; uni_to_lower s := s |}.
Section Witnesses.
#[local] Existing Instance demo_fmt.
#[local] Existing Instance demo_text.
#[local] Existing Instance demo_tables.

Lemma not_regex_filter_ignored_witness :
  let f := {| pf_name := "env"; pf_value := "staging"; pf_match := "NOT_REGEX" |} in
  sent (buildPrometheusInstantRequest "up" None [Some f]) = Ok ("/api/v1/query", [("query", "up")]).
Proof. exact (not_regex_filter_ignored "up" None [] {| pf_name := "env"; pf_value := "staging"; pf_match := "NOT_REGEX" |} [] eq_refl eq_refl). Defined.

(** The query that goes out has an operation the validator refuses. *)
Lemma label_names_unchecked_witness :
  let name := "} * on(job) group_left() b{x" in
  let q := "up{" +:+ name +:+ "=" +:+ str1 DQUOTE +:+ str1 DQUOTE +:+ "}" in
  sent (buildPrometheusInstantRequest "up" None [Some {| pf_name := name; pf_value := EmptyString; pf_match := "EXACT" |}])
    = Ok ("/api/v1/query", [("query", q)])
  /\ ValidateQueryExpression q <> Ok tt.
Proof.
  split; [|vm_compute; discriminate].
  exact (label_names_unchecked "up" "} * on(job) group_left() b{x" ltac:(discriminate) eq_refl).
Defined.

(** A vector of one sample and one unreadable value. *)
Definition quoted (s : string) : string := str1 DQUOTE +:+ s +:+ str1 DQUOTE.
Definition demo_body : string :=
  "{" +:+ quoted "status" +:+ ":" +:+ quoted "success" +:+ "," +:+ quoted "data" +:+ ":{"
    +:+ quoted "resultType" +:+ ":" +:+ quoted "vector" +:+ "," +:+ quoted "result" +:+ ":[{"
    +:+ quoted "metric" +:+ ":{" +:+ quoted "job" +:+ ":" +:+ quoted "api" +:+ "}," +:+ quoted "value" +:+ ":[17," +:+ quoted "42" +:+ "]},{"
    +:+ quoted "metric" +:+ ":{}," +:+ quoted "value" +:+ ":[17," +:+ quoted "?" +:+ "]}]}}".
Definition demo_net (_ : string) : http_result := HResponse 200 demo_body.
Definition demo_adapter : Adapter :=
  {| p_name := "monitoring"; p_config := {| DsName := "monitoring"; DsType := "prometheus"; Enabled := true; Connection := []; DsOptions := [] |};
     baseURL := "http://p:9090"; queryTimeout := 15 * second; available := true; maxDataPoints := 2 |}.
Definition demo_request : QueryRequest := buildPrometheusInstantRequest "up" None [].
Definition demo_result : QueryResult :=
  match Execute (fun s => s) demo_net demo_adapter demo_request with Ok r => r | Err _ => query_result [] [] end.

Lemma demo_exchange : Execute (fun s => s) demo_net demo_adapter demo_request = Ok demo_result.
Proof. vm_compute. reflexivity. Qed.
Lemma prometheus_result_bounds_witness :
  Execute (fun s => s) demo_net demo_adapter demo_request = Ok demo_result /\ points demo_result = 2%nat
  /\ Z.of_nat (points demo_result) <= 2 /\ clean (Data demo_result) (Warnings demo_result).
Proof.
  split; [exact demo_exchange|]. split; [vm_compute; reflexivity|].
  exact (prometheus_result_bounds (fun s => s) demo_net demo_adapter demo_request demo_result demo_exchange).
Defined.

(** The sample 42 with its label reaches the client as 0 without labels. *)
Definition demo_answer : PrometheusInstantResult := convertToInstantResult (fun _ => S754_zero false) demo_result.
Lemma demo_query : PrometheusInstant (fun _ => S754_zero false) (fun _ => Execute (fun s => s) demo_net demo_adapter) [] "up" None []
  = Ok (demo_answer, Warnings demo_result).
Proof. unfold PrometheusInstant. change (buildPrometheusInstantRequest "up" None []) with demo_request. by rewrite demo_exchange. Qed.
Lemma prometheus_data_lost_witness :
  PrometheusInstant (fun _ => S754_zero false) (fun _ => Execute (fun s => s) demo_net demo_adapter) [] "up" None []
    = Ok (demo_answer, Warnings demo_result)
  /\ length (ir_vectors demo_answer) = 2%nat /\ Forall (fun v => pv_metric v = []) (ir_vectors demo_answer).
Proof.
  split; [exact demo_query|]. split; [vm_compute; reflexivity|].
  destruct (proj2 (prometheus_data_lost (fun _ => S754_zero false) (fun s => s) demo_net demo_adapter [] "up" []) None _ _
              demo_query) as (path & params & d & _ & _ & H).
  eapply Forall_impl; [exact H|]. intros v Hv. exact (proj1 Hv).
Defined.
End Witnesses.
