(* ===== verification/ClickHouseConn.v ===== *)
(** * internal/adapter/clickhouse: the connection

    The part of adapter.go that opens and closes the connection, with the text of the DSN.
    [net/url] is modelled as far as the credentials go: [PathEscape], and what a URL parser
    reads between [//] and the last [@] of the authority. *)
From S2P Require Import Prelude GoStrings Values GoConv Json JsonRaw.
From S2P Require Import DataSource SqlAdapter Prometheus PrometheusFacts.
From S2P Require Import StarRocks ClickHouse.
Import ClickHouse.Adapter.

Section Conn.
Context {GF : GoFmt}.
#[local] Set Default Proof Using "Type".

(** ** [net/url] *)

(** [url.PathEscape] escapes all but the unreserved bytes and these. *)
Definition path_byte (c : ascii) : bool :=
  unreserved c || Ascii.eqb c "$" || Ascii.eqb c "&" || Ascii.eqb c "+" || Ascii.eqb c ":" || Ascii.eqb c "="
  || Ascii.eqb c "@".
Fixpoint PathEscape (s : string) : string :=
  match s with
  | EmptyString => EmptyString
  | String c s' =>
      if path_byte c then String c (PathEscape s')
      else String "%" (String (upper_hex (code c / 16)) (String (upper_hex (code c mod 16)) (PathEscape s')))
  end.
(** Escapes read back; [None] is a malformed one. *)
Fixpoint PathUnescape (s : string) : option string :=
  match s with
  | EmptyString => Some EmptyString
  | String c s1 =>
      if Ascii.eqb c "%" then
        match s1 with
        | String h (String l s2) =>
            x ← hex_val h; y ← hex_val l; r ← PathUnescape s2; Some (String (byte_of (x * 16 + y)) r)
        | _ => None
        end
      else r ← PathUnescape s1; Some (String c r)
  end.
(** The text before the first of these bytes. *)
Fixpoint until (stop : ascii -> bool) (s : string) : string :=
  match s with
  | EmptyString => EmptyString
  | String c s' => if stop c then EmptyString else String c (until stop s')
  end.
Definition ends_authority (c : ascii) : bool := Ascii.eqb c "/" || Ascii.eqb c "?" || Ascii.eqb c "#".
(** [url.Parse(rawURL).User]: the name and the password, and the host with its port. *)
Definition url_user (rawURL : string) : option (string * string * string) :=
  i ← index_byte ":" rawURL;
  let rest := str_drop (S i) rawURL in
  if negb (has_prefix "//" rest) then None else
  let authority := until ends_authority (str_drop 2 rest) in
  at_ ← last_index_byte "@" authority;
  let userinfo := str_take at_ authority in
  let host := str_drop (S at_) authority in
  match index_byte ":" userinfo with
  | None => u ← PathUnescape userinfo; Some (u, EmptyString, host)
  | Some c => u ← PathUnescape (str_take c userinfo); p ← PathUnescape (str_drop (S c) userinfo); Some (u, p, host)
  end.

(** ** adapter.go *)

Definition or_text (dflt s : string) : string := if String.eqb s EmptyString then dflt else s.
Definition conn_user (a : Adapter) : string := or_text "default" (string_or_empty (Connection (config a)) "username").
Definition conn_host (a : Adapter) : string := or_text "localhost" (string_or_empty (Connection (config a)) "host").
Definition conn_database (a : Adapter) : string := or_text "default" (string_or_empty (Connection (config a)) "database").
Definition conn_password (a : Adapter) : string := string_or_empty (Connection (config a)) "password".
(** The query parameters of the DSN. *)
Definition dsn_params (options : list (string * GoVal)) (secure : bool) : url_values :=
  let compress := getStringOption options "compress" "lz4" in
  [("dial_timeout", sprint (VDuration (getDurationOption options "connection_timeout" (5 * second))));
   ("read_timeout", sprint (VDuration (getDurationOption options "read_timeout" (30 * second))))]
  ++ (if String.eqb compress "none" || String.eqb compress EmptyString then [] else [("compress", compress)])
  ++ (if secure then [("secure", "true")] else []).
Definition buildDSN (a : Adapter) : string :=
  let '(port, secure) := dsn_port (Connection (config a)) (DsOptions (config a)) in
  "clickhouse://" +:+ PathEscape (conn_user a) +:+ ":" +:+ PathEscape (conn_password a) +:+ "@" +:+ conn_host a +:+ ":"
  +:+ itoa port +:+ "/" +:+ conn_database a +:+ "?" +:+ Encode (dsn_params (DsOptions (config a)) secure).
Definition sanitizedDSN (a : Adapter) : string :=
  "clickhouse://" +:+ conn_user a +:+ ":***@" +:+ conn_host a +:+ "/" +:+ conn_database a.

Definition NewAdapter (name : string) (config : DataSourceConfig) : result Adapter :=
  match QueryBuilder.ParseAllowedTables config with
  | Ok wl => Ok {| StarRocks.name := name; config := config; db := false; allowedTables := wl; available := false;
                   circuitBreaker := None |}
  | Err err => Err (Wrap (Sprintf "clickhouse adapter %q: %w" [AStr name; AErr err]) err)
  end.

(** [open_] and [ping] are the outcomes of [sql.Open] on the DSN and of [PingContext]; the pool
    is what a new connection is configured with. *)
Definition Connect (open_ : string -> result unit) (ping : result unit) (a : Adapter) : result unit * Adapter * option Pool :=
  if db a then (Ok tt, a, None) else
  match open_ (buildDSN a) with
  | Err err => (Err (Wrap (Sprintf "clickhouse adapter %q: open connection: %w" [AStr (name a); AErr err]) err), a, None)
  | Ok _ =>
      let pool := pool_params (DsOptions (config a)) in
      match ping with
      | Err err => (Err (Wrap (Sprintf "clickhouse adapter %q: ping failed: %w" [AStr (name a); AErr err]) err), a, Some pool)
      | Ok _ => (Ok tt, set_conn true true a, Some pool)
      end
  end.
Definition Close (close : result unit) (a : Adapter) : result unit * Adapter :=
  if db a then
    (match close with
     | Err err => Err (Wrap (Sprintf "clickhouse adapter %q: close failed: %w" [AStr (name a); AErr err]) err)
     | Ok _ => Ok tt
     end, set_conn false false a)
  else (Ok tt, set_conn false false a).
End Conn.

(** ** Lemmas *)

Definition without (c : ascii) (s : string) : bool := str_forallb (fun a => negb (Ascii.eqb a c)) s.

Lemma path_byte_not_special c : path_byte c = true -> c <> "%"%char /\ ends_authority c = false.
Proof. intros H. split; [intros ->; vm_compute in H; done|]. destruct c as [[] [] [] [] [] [] [] []]; by vm_compute in H |- *. Qed.
Lemma unescape_path s : PathUnescape (PathEscape s) = Some s.
Proof.
  induction s as [|c s IH]; [done|]. simpl. destruct (path_byte c) eqn:Hc.
  - apply path_byte_not_special in Hc as [Hc _]. simpl. by rewrite (proj2 (Ascii.eqb_neq _ _) Hc), IH.
  - simpl. destruct (hex_digits c) as (-> & -> & E). simpl. by rewrite IH, E.
Qed.
Lemma path_escape_app s t : PathEscape (s +:+ t) = PathEscape s +:+ PathEscape t.
Proof. induction s as [|c s IH]; [done|]. simpl. by destruct (path_byte c); simpl; rewrite IH. Qed.
Lemma path_escape_forallb (p : ascii -> bool) s :
  p "%"%char = true -> (forall c, p (upper_hex (code c / 16)) = true /\ p (upper_hex (code c mod 16)) = true) ->
  str_forallb (fun c => negb (path_byte c) || p c) s = true -> str_forallb p (PathEscape s) = true.
Proof.
  intros Hp Hh. induction s as [|c s IH]; [done|]. simpl. intros [Hc Hs]%andb_true_iff.
  destruct (path_byte c); simpl in *; [by rewrite Hc, IH|]. destruct (Hh c) as [-> ->]. by rewrite Hp, IH.
Qed.
Lemma path_escape_in_authority s : str_forallb (fun c => negb (ends_authority c)) (PathEscape s) = true.
Proof.
  apply path_escape_forallb; [done|intros c; by destruct c as [[] [] [] [] [] [] [] []]|].
  induction s as [|c s IH]; [done|]. simpl. rewrite IH, andb_true_r. destruct (path_byte c) eqn:E; [|done].
  apply path_byte_not_special in E as [_ ->]. done.
Qed.
Lemma path_escape_without_colon s : without ":" s = true -> without ":" (PathEscape s) = true.
Proof.
  intros H. apply path_escape_forallb; [done|intros c; by destruct c as [[] [] [] [] [] [] [] []]|].
  eapply str_forallb_impl; [|exact H]. intros c ->. apply orb_true_r.
Qed.
Lemma until_app stop p c q : str_forallb (fun a => negb (stop a)) p = true -> stop c = true ->
  until stop (p +:+ String c q) = p.
Proof.
  intros Hp Hc. induction p as [|a p IH]; simpl in *; [by rewrite Hc|].
  apply andb_true_iff in Hp as [Ha%negb_true_iff Hp]. by rewrite Ha, IH.
Qed.

(** A host as it is written in a URL. *)
Definition host_ok (h : string) : bool := str_forallb (fun c => negb (ends_authority c || Ascii.eqb c "@")) h.

(** The credentials a URL parser reads are the split of name, colon, password at the first
    colon. *)
Lemma dsn_user `{GoFmt} a x r : host_ok (conn_host a) = true -> without ":" x = true ->
  conn_user a +:+ ":" +:+ conn_password a = x +:+ ":" +:+ r ->
  url_user (buildDSN a) = Some (x, r, conn_host a +:+ ":" +:+ itoa (dsn_port (Connection (config a)) (DsOptions (config a))).1).
Proof.
  intros Hh Hx Hcred. unfold buildDSN. destruct (dsn_port _ _) as [port secure]. cbn [fst].
  set (rest := conn_database a +:+ _). set (hp := conn_host a +:+ ":" +:+ itoa port).
  assert (Hhp : str_forallb (fun c => negb (ends_authority c || Ascii.eqb c "@")) hp = true).
  { unfold hp. rewrite !str_forallb_app. unfold host_ok in Hh. rewrite Hh. simpl.
    eapply str_forallb_impl; [|apply itoa_bytes]. intros c. destruct c as [[] [] [] [] [] [] [] []]; by vm_compute. }
  assert (Eraw : forall u p, "clickhouse://" +:+ u +:+ ":" +:+ p +:+ "@" +:+ conn_host a +:+ ":" +:+ itoa port +:+ "/" +:+ rest
    = "clickhouse" +:+ String ":" ("//" +:+ ((u +:+ ":" +:+ p) +:+ String "@" hp) +:+ String "/" rest)).
  { intros u p. unfold hp. cbn [String.append]. do 13 f_equal.
    do 2 (rewrite !str_app_assoc; cbn [String.append]). by rewrite ?str_app_assoc. }
  rewrite Eraw. set (cred := PathEscape (conn_user a) +:+ ":" +:+ PathEscape (conn_password a)).
  assert (Ecred : cred = PathEscape x +:+ String ":" (PathEscape r)).
  { unfold cred. change (String ":" (PathEscape r)) with (PathEscape (":" +:+ r)). rewrite <- path_escape_app, <- Hcred, path_escape_app. done. }
  unfold url_user. rewrite index_byte_app by done. cbn [mbind option_bind].
  rewrite str_drop_after. change (has_prefix "//" _) with true. cbn [negb].
  change (str_drop 2 ("//" +:+ ?s)) with s.
  rewrite until_app; [|rewrite str_forallb_app|done].
  2: { unfold cred. rewrite !str_forallb_app, !path_escape_in_authority. simpl.
       eapply str_forallb_impl; [|exact Hhp]. intros c. cbv beta. rewrite negb_orb. by intros [-> _]%andb_true_iff. }
  rewrite last_index_byte_app.
  2: { eapply str_forallb_impl; [|exact Hhp]. intros c. cbv beta. rewrite negb_orb. by intros [_ ->]%andb_true_iff. }
  cbn [mbind option_bind]. rewrite str_take_app, str_drop_after.
  rewrite Ecred, index_byte_app by by apply path_escape_without_colon.
  rewrite str_take_app, str_drop_after, unescape_path.
  cbn [mbind option_bind]. by rewrite unescape_path.
Qed.

Lemma split_at_byte c s : without c s = false -> exists x y, without c x = true /\ s = x +:+ String c y.
Proof.
  unfold without. induction s as [|a s IH]; [done|]. simpl. destruct (Ascii.eqb_spec a c) as [->|Hne]; simpl.
  - intros _. by exists EmptyString, s.
  - intros (x & y & Hx & ->)%IH. exists (String a x), y. split; [|done]. simpl. by rewrite (proj2 (Ascii.eqb_neq _ _) Hne).
Qed.

(** the credentials in the DSN.  Escaped as they are, they read back as they were configured,
    whatever bytes they contain, if and only if the user name has no colon: [PathEscape]
    leaves a colon alone, and what follows the first one becomes part of the password. *)
Theorem dsn_credentials `{GoFmt} a : host_ok (conn_host a) = true ->
  let target := conn_host a +:+ ":" +:+ itoa (dsn_port (Connection (config a)) (DsOptions (config a))).1 in
  (url_user (buildDSN a) = Some (conn_user a, conn_password a, target) <-> without ":" (conn_user a) = true)
  /\ (forall x y, without ":" x = true -> conn_user a = x +:+ ":" +:+ y ->
      url_user (buildDSN a) = Some (x, y +:+ ":" +:+ conn_password a, target)).
Proof.
  intros Hh target. assert (H2 : forall x y, without ":" x = true -> conn_user a = x +:+ ":" +:+ y ->
      url_user (buildDSN a) = Some (x, y +:+ ":" +:+ conn_password a, target)).
  { intros x y Hx E. apply dsn_user; [done..|]. by rewrite E, !str_app_assoc. }
  split; [|done]. split; [|intros Hu; by apply dsn_user].
  intros E. destruct (without ":" (conn_user a)) eqn:Hu; [done|].
  destruct (split_at_byte ":" _ Hu) as (x & y & Hx & Exy). pose proof (H2 x y Hx Exy) as E2.
  rewrite E2 in E. injection E as E _. rewrite E in Hx. congruence.
Qed.

(** ** Witness *)

Definition demo_conn (user : string) : StarRocks.Adapter :=
  {| name := "ch";
     config := {| DsName := "ch"; DsType := "clickhouse"; Enabled := true;
                  Connection := [("host", VString "db.example"); ("username", VString user); ("password", VString "p@s/s:w")];
                  DsOptions := [("secure", VBool true)] |};
     db := false; allowedTables := ∅; available := false; circuitBreaker := None |}.
(** Name [svc] and name [svc:eu], with the password [p@s/s:w]. *)
Lemma dsn_credentials_witness :
  url_user (buildDSN (GF := FuncMap.demo_fmt) (demo_conn "svc")) = Some ("svc", "p@s/s:w", "db.example:9440")
  /\ url_user (buildDSN (GF := FuncMap.demo_fmt) (demo_conn "svc:eu")) = Some ("svc", "eu:p@s/s:w", "db.example:9440").
Proof.
  split.
  - exact (proj2 (proj1 (@dsn_credentials FuncMap.demo_fmt (demo_conn "svc") ltac:(reflexivity))) ltac:(reflexivity)).
  - exact (proj2 (@dsn_credentials FuncMap.demo_fmt (demo_conn "svc:eu") ltac:(reflexivity)) "svc" "eu" ltac:(reflexivity) ltac:(reflexivity)).
Defined.
