(* ===== verification/Adapters.v ===== *)
(** * The data sources of the running program

    The four kinds of adapter main.go registers behind the one interface of the data source
    manager.  What the world answers (databases, Prometheus, clocks, contexts) is an
    [Env] of the state of the world, which [tick] moves on at every call. *)
From S2P Require Import Prelude GoStrings Values GoConv FuncMap JsonRaw.
From S2P Require Import DataSource SqlAdapter Manager.
From S2P Require Retry Mock Whitelist StarRocks ClickHouse ClickHouseConn Prometheus PrometheusFacts.

Inductive AnyAdapter :=
  | StarRocksDS (a : StarRocks.Adapter)
  | ClickHouseDS (a : StarRocks.Adapter)
  | PrometheusDS (a : Prometheus.Adapter)
  | MockDS (a : Mock.Adapter).

(** What one call of an adapter meets. *)
Record Env := {
  e_query : stmt -> result Rows;
  e_count : stmt -> result Z;
  e_open : string -> result unit;
  e_ping : result unit;
  e_close : result unit;
  e_http : string -> Prometheus.http_result;
  e_ctx_before : option error;
  e_ctx_after : option error;
  e_now : Z; e_t1 : Z; e_t2 : Z;
}.

Definition register_next (r : result (AdapterRegistry AnyAdapter)) (nf : string * AdapterFactory (DS := AnyAdapter))
    : result (AdapterRegistry AnyAdapter) :=
  r ← r; let '(res, r') := Register nf.1 nf.2 r in _ ← res; Ok r'.

Lemma register_all fs : forall r : gmap string (AdapterFactory (DS := AnyAdapter)), NoDup fs.*1 -> (forall n, n ∈ fs.*1 -> r !! n = None) ->
  exists r' : gmap string (AdapterFactory (DS := AnyAdapter)), foldl register_next (Ok r) fs = Ok r' /\ forall t, is_Some (r' !! t) <-> t ∈ fs.*1 \/ is_Some (r !! t).
Proof.
  induction fs as [|[n f] fs IH]; intros r Hnd Hr; simpl in *.
  - exists r. split; [done|]. intros t. split; [auto|]. by intros [?%elem_of_nil|].
  - apply NoDup_cons in Hnd as [Hn Hnd]. 
    assert (E0 : r !! n = None) by (apply Hr; by left).
    assert (Register n f r = (Ok tt, <[n := f]> r)) as ->.
    { unfold Register. case_match eqn:E; [by pose proof (eq_trans (eq_sym E) E0)|done]. }
    cbn [mbind result_bind].
    destruct (IH (<[n := f]> r) Hnd) as (r' & Er & H).
    + intros n' Hn'. rewrite lookup_insert_ne by (intros ->; done). apply Hr. by right.
    + exists r'. split; [exact Er|]. intros t. rewrite H, elem_of_cons.
      destruct (decide (t = n)) as [->|Hne]; [rewrite lookup_insert_eq|rewrite lookup_insert_ne by done]; naive_solver.
Qed.

Section Adapters.
#[local] Set Default Proof Using "Type".
Context {GF : GoFmt} {FT : FloatText} {UT : UnicodeTables}.
Context {W : Type}.
Variable err_text : string -> string.
Variable special : GoVal -> option GoVal.
Variable env : W -> Env.
Variable tick : W -> W.

Definition lift {A} (f : A -> AnyAdapter) (w : W) (ra : result unit * A) : option error * AnyAdapter * W :=
  (as_error ra.1, f ra.2, tick w).
Definition AnyConnect (d : AnyAdapter) (w : W) : option error * AnyAdapter * W :=
  let e := env w in
  match d with
  | StarRocksDS a =>
      lift StarRocksDS w (StarRocks.Connect ((fun _ => EmptyString) <$> StarRocks.buildDSN a) (e_open e EmptyString) (e_ping e) a)
  | ClickHouseDS a => lift ClickHouseDS w (ClickHouseConn.Connect (e_open e) (e_ping e) a).1
  | PrometheusDS a => lift PrometheusDS w (Prometheus.Connect (e_http e) a)
  | MockDS a => (None, MockDS a, tick w)
  end.
Definition AnyExecute (d : AnyAdapter) (q : QueryRequest) (w : W) : result QueryResult * AnyAdapter * W :=
  let e := env w in
  match d with
  | StarRocksDS a => ((StarRocks.Execute (e_query e) (e_count e) a q).1, d, tick w)
  | ClickHouseDS a =>
      let '(r, a', _) := ClickHouse.Adapter.Execute special (e_query e) (e_count e) (e_ctx_before e) (e_ctx_after e)
                           (e_now e) (e_t1 e) (e_t2 e) a q in
      (r, ClickHouseDS a', tick w)
  | PrometheusDS a => (Prometheus.Execute err_text (e_http e) a q, d, tick w)
  | MockDS a => (match Mock.Execute a q with Some r => Ok r | None => Err (Errorf (Sprintf "panic" [])) end, d, tick w)
  end.
Definition AnyHealthCheck (d : AnyAdapter) (w : W) : option error * AnyAdapter * W :=
  let e := env w in
  match d with
  | StarRocksDS a => lift StarRocksDS w (StarRocks.HealthCheck (e_ping e) a)
  | ClickHouseDS a => lift ClickHouseDS w (ClickHouse.Adapter.HealthCheck (e_t1 e) (e_t2 e) (e_ping e) a)
  | PrometheusDS a => lift PrometheusDS w (Prometheus.HealthCheck (e_http e) a)
  | MockDS a => (None, d, tick w)
  end.
Definition AnyClose (d : AnyAdapter) (w : W) : option error * AnyAdapter * W :=
  let e := env w in
  match d with
  | StarRocksDS a => lift StarRocksDS w (StarRocks.Close (e_close e) a)
  | ClickHouseDS a => lift ClickHouseDS w (ClickHouseConn.Close (e_close e) a)
  | PrometheusDS a => lift PrometheusDS w (Prometheus.Close a)
  | MockDS a => (None, d, tick w)
  end.
(** The kinds that implement [WritableDataSource]. *)
Definition AnyWritable (d : AnyAdapter) : bool :=
  match d with StarRocksDS _ | ClickHouseDS _ => true | PrometheusDS _ | MockDS _ => false end.

#[export] Instance any_ops : DataSourceOps AnyAdapter W := {|
  ds_Connect := AnyConnect;
  ds_Execute := AnyExecute;
  ds_HealthCheck := AnyHealthCheck;
  ds_Close := AnyClose;
  ds_Writable := AnyWritable;
|}.

(** ** Every error of [Execute] is structured *)

Lemma query_error_api fmt args : is_api_error (Prometheus.query_error fmt args) = true.
Proof. done. Qed.
Lemma validation_api b code f e : guard_err b (ValidationError code f) = Err e -> is_api_error e = true.
Proof. by intros [_ ->]%guard_err_Err. Qed.
Lemma validate_request_api req e : Prometheus.validate_request req = Err e -> is_api_error e = true.
Proof.
  unfold Prometheus.validate_request. intros [(f & _ & H)%forR_Err|(_ & _ & H)]%bind_Err; [by eapply validation_api|].
  destruct (assoc _ _) as [[]|]; try done. destruct (String.eqb _ _); [done|].
  unfold Prometheus.ValidateQueryExpression in H.
  apply bind_Err in H as [H|(_ & _ & (op & _ & H)%forR_Err)]; by eapply validation_api.
Qed.
Lemma prometheus_errors_api net a req e : Prometheus.Execute err_text net a req = Err e -> is_api_error e = true.
Proof.
  unfold Prometheus.Execute. intros [H|(_ & _ & H)]%bind_Err; [by apply guard_err_Err in H as [_ ->]|].
  apply bind_Err in H as [H|(_ & _ & H)]; [by eapply validate_request_api|].
  apply bind_Err in H as [H|([path params] & _ & H)].
  { revert H. unfold Prometheus.query_params. by repeat case_match; intros [= <-]. }
  apply bind_Err in H as [H|(d & _ & H)].
  - revert H. unfold Prometheus.doQuery. by repeat case_match; intros [= <-].
  - revert H. unfold Prometheus.convertResponse, Prometheus.convertVector, Prometheus.convertMatrix, Prometheus.convertScalar, Prometheus.convertString.
    by repeat case_match; intros [= <-].
Qed.
#[export] Instance any_structured : StructuredErrors any_ops.
Proof.
  intros d q w e d' w'. cbn [ds_Execute any_ops]. unfold AnyExecute. destruct d as [a|a|a|a].
  - intros [= H _ _]. destruct (StarRocks.Execute _ _ a q) as [r log] eqn:E. simpl in H. subst r. by eapply StarRocks.Execute_errors_api.
  - destruct (ClickHouse.Adapter.Execute _ _ _ _ _ _ _ _ a q) as [[r a'] log] eqn:E. intros [= -> _ _].
    by eapply ClickHouse.Facts.ch_Execute_errors_api.
  - intros [= H _ _]. by eapply prometheus_errors_api.
  - destruct (Mock.Execute_total a q) as [r ->]. done.
Qed.

(** The registry of main.go. *)
Variable url_ok : string -> bool.
Definition factories : list (string * AdapterFactory (DS := AnyAdapter)) :=
  [("starrocks", fun name cfg => StarRocksDS <$> StarRocks.NewAdapter name cfg);
   ("prometheus", fun name cfg => PrometheusDS <$> Prometheus.NewAdapter url_ok name cfg);
   ("mock", fun name cfg => Ok (MockDS (Mock.Factory name cfg)));
   ("clickhouse", fun name cfg => ClickHouseDS <$> ClickHouseConn.NewAdapter name cfg)].
Definition main_registry : result (AdapterRegistry AnyAdapter) := foldl register_next (Ok NewAdapterRegistry) factories.
Definition main_manager (retry : Retry.Config) (configs : list DataSourceConfig) (w : W)
    : result (DataSourceManager AnyAdapter * W) :=
  r ← main_registry; Ok (Init configs (NewDataSourceManager r retry) w).

(** ** Theorems *)

(** C19: what the program runs on.  Its registry knows exactly these four types.  All four report
    every failure as a structured error, which the retry policy never repeats, so for a usable
    data source of any of them [Execute] is called exactly once, however it fails and whatever
    number of retries from 0 on is configured, and its answer and the state it leaves are
    returned.  With a negative number, which no validation refuses, it is not called at all: the
    loop falls through to its error.  A name that is unknown or unavailable executes nothing. *)
Theorem queries_run_once cancel m name q w :
  (exists r, main_registry = Ok r
     /\ forall t, is_Some (RegistryGet r t) <-> t ∈ ["starrocks"; "prometheus"; "mock"; "clickhouse"])
  /\ ExecuteWithRetry cancel m name q w =
     match Get m name with
     | Ok ds =>
         if Retry.MaxRetries (retryConfig m) <? 0 then ((Err exit_error, 0), (m, w))
         else let '(r, ds', w') := AnyExecute ds q w in ((r, 1), (with_datasource name ds' m, w'))
     | Err err => ((Err err, 0), (m, w))
     end.
Proof.
  split; [|apply (single_execution (DSO := any_ops))].
  destruct (register_all factories NewAdapterRegistry) as (r & Hr & H).
  - vm_compute. repeat constructor; set_solver.
  - intros n _. exact (lookup_empty n).
  - exists r. split; [done|]. intros t. unfold RegistryGet. rewrite H. unfold NewAdapterRegistry.
    split; [|auto]. intros [?|[f Hf]]; [done|]. by pose proof (eq_trans (eq_sym (lookup_empty t)) Hf).
Qed.
End Adapters.

(** ** Witness: a connected ClickHouse source whose driver fails with a timeout *)

#[local] Instance ascii_unicode : UnicodeTables := {| uni_to_upper s := s; uni_to_lower s := s |}.
Definition demo_env (n : nat) : Env :=
  {| e_query _ := Err (NetError true None); e_count _ := Ok 0; e_open _ := Ok tt; e_ping := Ok tt; e_close := Ok tt;
     e_http _ := Prometheus.HResponse 500 EmptyString; e_ctx_before := None; e_ctx_after := None;
     e_now := Z.of_nat n; e_t1 := Z.of_nat n; e_t2 := Z.of_nat n |}.
Definition demo_config : DataSourceConfig :=
  {| DsName := "ch"; DsType := "clickhouse"; Enabled := true; Connection := [];
     DsOptions := DsOptions (Whitelist.with_tables StarRocks.demo_tables) |}.
#[local] Existing Instances FuncMap.demo_fmt PrometheusFacts.demo_text ascii_unicode.
Definition demo_retry : Retry.Config := {| Retry.MaxRetries := 3; Retry.RetryInterval := second |}.
Definition demo_ops : DataSourceOps AnyAdapter nat := any_ops (fun s => s) (fun _ => None) demo_env S.
Definition demo_manager : DataSourceManager AnyAdapter :=
  match main_manager (fun s => s) (fun _ => None) demo_env S (fun _ => true) demo_retry [demo_config] O with
  | Ok (m, _) => m
  | Err _ => NewDataSourceManager NewAdapterRegistry demo_retry
  end.
Definition demo_answer : result QueryResult * Z :=
  match Get demo_manager "ch" with
  | Ok ds => ((AnyExecute (fun s => s) (fun _ => None) demo_env S ds (StarRocks.demo_req (VInt 3)) 1%nat).1.1, 1)
  | Err err => (Err err, 0)
  end.
(** Three retries are configured; one call is made. *)
Lemma queries_run_once_witness :
  (ExecuteWithRetry (DSO := demo_ops) (fun _ => None) demo_manager "ch" (StarRocks.demo_req (VInt 3)) 1%nat).1 = demo_answer
  /\ demo_answer.2 = 1 /\ match demo_answer.1 with Err e => is_api_error e = true | Ok _ => False end.
Proof.
  split; [|split; vm_compute; reflexivity].
  pose proof (proj2 (queries_run_once (fun s => s) (fun _ => None) demo_env S (fun _ => true) (fun _ => None) demo_manager "ch"
    (StarRocks.demo_req (VInt 3)) 1%nat)) as H.
  change (any_ops (fun s => s) (fun _ => None) demo_env S) with demo_ops in H. rewrite H. vm_compute. reflexivity.
Defined.
