(* ===== verification/ReadPath.v ===== *)
(** * The read path end to end

    The GraphQL field [starrocks] as the running program resolves it: the resolver on top of
    the data source manager, the manager on top of the registered adapters, an SQL adapter on
    top of its builder. *)
From S2P Require Import Prelude GoStrings Values GoConv FuncMap JsonRaw.
From S2P Require Import DataSource SqlCore SqlAdapter Manager Adapters.
From S2P Require Retry Whitelist StarRocks ClickHouse Prometheus PrometheusFacts.
From S2P Require Import Resolver.

#[local] Existing Instances StarRocks.starrocks_laws ClickHouse.clickhouse_laws.

Section ReadPath.
#[local] Set Default Proof Using "Type".
Context {GF : GoFmt} {FT : FloatText} {UT : UnicodeTables} {W : Type}.
Variable err_text : string -> string.
Variable special : GoVal -> option GoVal.
Variable tick : W -> W.

(** [Starrocks] of base.resolvers.go over the manager of the program. *)
Definition starrocks_field (env : W -> Env) (cancel : Z -> option error) (m : DataSourceManager AnyAdapter) (w : W)
    (maxRows : Z) (existing : list string) (totalRequested : bool) (table : string) (fields : list string)
    (filters : list (option StarRocksFilter)) (orderBy : list (option StarRocksOrderBy))
    (first : option Z) (after : option string) (offset limit : option Z) : result (StarRocksConnection * list string) :=
  Starrocks (fun name req => (ExecuteWithRetry (DSO := any_ops err_text special env tick) cancel m name req w).1.1)
    maxRows existing totalRequested table fields filters orderBy first after offset limit.

(** Two worlds that differ at most in what the databases answer to statements other than safe
    ones: only safe bytes, one placeholder per parameter. *)
Record same_but_unsafe (e1 e2 : Env) : Prop := {
  sb_query q : fragment q -> e_query e1 q = e_query e2 q;
  sb_count q : fragment q -> e_count e1 q = e_count e2 q;
  sb_http : e_http e1 = e_http e2;
  sb_ctx : (e_ctx_before e1, e_ctx_after e1) = (e_ctx_before e2, e_ctx_after e2);
  sb_clock : (e_now e1, e_t1 e1, e_t2 e1) = (e_now e2, e_t1 e2, e_t2 e2);
}.

(** ** The adapters ask only safe statements *)

Lemma starrocks_ext q1 q2 c1 c2 a req :
  (forall q, fragment q -> q1 q = q2 q) -> (forall q, fragment q -> c1 q = c2 q) ->
  StarRocks.Execute q1 c1 a req = StarRocks.Execute q2 c2 a req.
Proof.
  intros Hq Hc. unfold StarRocks.Execute. destruct (StarRocks.db a); [|done]. cbn [negb].
  destruct (extractTable _) as [t|]; [|done]. cbn [mbind result_bind].
  destruct (Build (D := StarRocks.starrocks_dialect) _ req t) as [q|] eqn:Hb; [|done]. cbn [mbind result_bind].
  rewrite <- (Hq q (proj1 (Build_fragment (D := StarRocks.starrocks_dialect) _ _ _ _ Hb))). destruct (_ ≫= _); [|done]. destruct (NeedCount req); [|done].
  destruct (BuildCount (D := StarRocks.starrocks_dialect) _ req t) as [cq|] eqn:Hbc; [|done]. by rewrite <- (Hc cq (BuildCount_fragment (D := StarRocks.starrocks_dialect) _ _ _ _ Hbc)).
Qed.
Lemma clickhouse_ext sp q1 q2 c1 c2 cb ca now t1 t2 a req :
  (forall q, fragment q -> q1 q = q2 q) -> (forall q, fragment q -> c1 q = c2 q) ->
  ClickHouse.Adapter.Execute sp q1 c1 cb ca now t1 t2 a req = ClickHouse.Adapter.Execute sp q2 c2 cb ca now t1 t2 a req.
Proof.
  intros Hq Hc. unfold ClickHouse.Adapter.Execute. destruct (StarRocks.db a); [|done]. cbn [negb].
  destruct cb; [done|]. destruct (ClickHouse.Adapter.breaker now a) as [b []]; [|done]. cbn [negb].
  destruct (extractTable _) as [t|]; [|done]. cbn [mbind result_bind].
  destruct (Build (D := ClickHouse.clickhouse_dialect) _ req t) as [q|] eqn:Hb; [|done]. cbn [mbind result_bind].
  rewrite <- (Hq q (proj1 (Build_fragment (D := ClickHouse.clickhouse_dialect) _ _ _ _ Hb))). destruct (q1 q); [|done]. destruct (scanRows _ _); [|done].
  destruct (NeedCount req); [|done].
  destruct (BuildCount (D := ClickHouse.clickhouse_dialect) _ req t) as [cq|] eqn:Hbc; [|done]. by rewrite <- (Hc cq (BuildCount_fragment (D := ClickHouse.clickhouse_dialect) _ _ _ _ Hbc)).
Qed.
Lemma any_execute_ext env1 env2 d q w : same_but_unsafe (env1 w) (env2 w) ->
  (AnyExecute err_text special env1 tick d q w).1.1 = (AnyExecute err_text special env2 tick d q w).1.1.
Proof.
  intros [Hq Hc Hh Hx Ht]. simplify_eq/=. unfold AnyExecute. destruct d as [a|a|a|a]; cbn [fst].
  - by rewrite (starrocks_ext _ _ _ _ _ _ Hq Hc).
  - repeat match goal with H : _ = _ |- _ => rewrite H; clear H end.
    rewrite (clickhouse_ext special _ _ _ _ _ _ _ _ _ _ _ Hq Hc). by destruct (ClickHouse.Adapter.Execute _ _ _ _ _ _ _ _ _ _) as [[]].
  - by rewrite Hh.
  - done.
Qed.

(** What an SQL data source answers was asked within its whitelist. *)
Definition whitelist_of (d : AnyAdapter) : option Whitelist :=
  match d with
  | StarRocksDS a | ClickHouseDS a => Some (StarRocks.allowedTables a)
  | PrometheusDS _ | MockDS _ => None
  end.
Definition admitted_by (d : AnyAdapter) (wl : Whitelist) (req : QueryRequest) (t : string) : Prop :=
  match d with
  | ClickHouseDS _ => admissible (D := ClickHouse.clickhouse_dialect) wl req t
  | _ => admissible (D := StarRocks.starrocks_dialect) wl req t
  end.
Lemma any_execute_admitted env d q w res wl :
  (AnyExecute err_text special env tick d q w).1.1 = Ok res -> whitelist_of d = Some wl ->
  exists t, extractTable (ReqOptions q) = Ok t /\ admitted_by d wl q t.
Proof.
  unfold AnyExecute. destruct d as [a|a|a|a]; cbn [fst]; intros H [= <-]; revert H.
  - unfold StarRocks.Execute. destruct (StarRocks.db a); [|done]. cbn [negb].
    destruct (extractTable _) as [t|]; [|done]. cbn [mbind result_bind].
    destruct (Build _ q t) as [x|] eqn:Hb; [|done]. intros _. exists t. split; [done|]. apply Build_admissible. eauto.
  - unfold ClickHouse.Adapter.Execute. destruct (StarRocks.db a); [|done]. cbn [negb].
    destruct (e_ctx_before _); [done|]. destruct (ClickHouse.Adapter.breaker _ a) as [b []]; [|done]. cbn [negb].
    destruct (extractTable _) as [t|]; [|done]. cbn [mbind result_bind].
    destruct (Build _ q t) as [x|] eqn:Hb; [|done]. intros _. exists t. split; [done|]. apply Build_admissible. eauto.
Qed.

(** ** Theorem *)

(** C4: the read path is confined.  Whatever a client writes into the field, its answer does not
    depend on what the databases would answer to a statement that is not safe, so none reaches
    them; and an answer that came from an SQL data source was asked for a table, columns,
    filters and an order its whitelist admits. *)
Theorem read_path_confined cancel m w maxRows existing tr table fields filters orderBy first after offset limit :
  0 <= Retry.MaxRetries (retryConfig m) ->
  (forall env1 env2, same_but_unsafe (env1 w) (env2 w) ->
     starrocks_field env1 cancel m w maxRows existing tr table fields filters orderBy first after offset limit
     = starrocks_field env2 cancel m w maxRows existing tr table fields filters orderBy first after offset limit)
  /\ (forall env answer, starrocks_field env cancel m w maxRows existing tr table fields filters orderBy first after offset limit = Ok answer ->
      exists ds, Get m findStarRocksDS = Ok ds /\ forall wl, whitelist_of ds = Some wl ->
        admitted_by ds wl (starrocks_request tr table fields filters orderBy first after offset limit) table).
Proof.
  intros Hmax. set (req := starrocks_request tr table fields filters orderBy first after offset limit).
  assert (Hrun : forall env, (ExecuteWithRetry (DSO := any_ops err_text special env tick) cancel m findStarRocksDS req w).1.1
    = match Get m findStarRocksDS with Ok ds => (AnyExecute err_text special env tick ds req w).1.1 | Err e => Err e end).
  { intros env. destruct (Get m findStarRocksDS) as [ds|e] eqn:Hg; [|unfold ExecuteWithRetry; by rewrite Hg].
    rewrite (single_execution (DSO := any_ops err_text special env tick) cancel m findStarRocksDS req w). unfold one_call.
    rewrite Hg, (proj2 (Z.ltb_ge _ _) Hmax). cbn [ds_Execute any_ops]. by destruct (AnyExecute _ _ _ _ _ _ _) as [[? ?] ?]. }
  unfold starrocks_field, Starrocks. fold req. split.
  - intros env1 env2 He. rewrite !Hrun. destruct (Get m findStarRocksDS) as [ds|e]; [|done].
    by rewrite (any_execute_ext env1 env2 ds req w He).
  - intros env answer. rewrite Hrun. destruct (Get m findStarRocksDS) as [ds|e]; [|done].
    intros (res & Hr & _)%bind_Ok. exists ds. split; [done|]. intros wl Hwl.
    destruct (any_execute_admitted env ds req w res wl Hr Hwl) as (t & Ht & Hadm).
    apply extractTable_Ok in Ht as (_ & mm & [= <-] & Ht). cbn in Ht. injection Ht as <-. exact Hadm.
Qed.
End ReadPath.

(** ** Witness *)

#[local] Existing Instances FuncMap.demo_fmt PrometheusFacts.demo_text Adapters.ascii_unicode.
Definition demo_answering (safe_only : bool) (n : nat) : Env :=
  {| e_query q := if safe_only && negb (str_forallb sql_byte q.1) then Err (NetError true None) else Ok StarRocks.demo_rows;
     e_count _ := Ok 7; e_open _ := Ok tt; e_ping := Ok tt; e_close := Ok tt;
     e_http _ := Prometheus.HResponse 500 EmptyString; e_ctx_before := None; e_ctx_after := None;
     e_now := Z.of_nat n; e_t1 := Z.of_nat n; e_t2 := Z.of_nat n |}.
Definition demo_source : DataSourceConfig :=
  {| DsName := findStarRocksDS; DsType := "starrocks"; Enabled := true; Connection := [("host", VString "db")];
     DsOptions := DsOptions (Whitelist.with_tables StarRocks.demo_tables) |}.
Definition demo_program : DataSourceManager AnyAdapter :=
  match main_manager (fun s => s) (fun _ => None) (demo_answering false) S (fun _ => true) demo_retry [demo_source] O with
  | Ok (m, _) => m
  | Err _ => NewDataSourceManager NewAdapterRegistry demo_retry
  end.
Definition demo_field (env : nat -> Env) : result (StarRocksConnection * list string) :=
  starrocks_field (fun s => s) (fun _ => None) S env (fun _ => None) demo_program 1%nat 100 [] true "orders" ["id"; "amount"]
    [Some {| fField := "amount"; fOperator := "GT"; fValue := "1' OR '1'='1" |}] [] (Some 10) None None None.
(** The injection attempt is a bound parameter: a database that refuses unsafe statements answers
    the same. *)
Lemma read_path_confined_witness :
  demo_field (demo_answering false) = demo_field (demo_answering true)
  /\ match demo_field (demo_answering true) with Ok (c, _) => conTotalCount c = 7 | Err _ => False end
  /\ exists ds, Get demo_program findStarRocksDS = Ok ds.
Proof.
  assert (Hall := read_path_confined (fun s => s) (fun _ => None) S (fun _ => None) demo_program 1%nat 100 [] true "orders" ["id"; "amount"]
    [Some {| fField := "amount"; fOperator := "GT"; fValue := "1' OR '1'='1" |}] [] (Some 10) None None None
    ltac:(vm_compute; discriminate)).
  split; [|split; [vm_compute; reflexivity|]].
  - unfold demo_field. apply (proj1 Hall). split; [|done..]. intros q [Hq _]. simpl. by rewrite Hq.
  - destruct (demo_field (demo_answering true)) as [answer|e] eqn:E; [|vm_compute in E; discriminate].
    destruct (proj2 Hall (demo_answering true) answer E) as (ds & Hds & _). by exists ds.
Defined.
