(* ===== verification/Lru.v ===== *)
(** * The LRU cache library the memory cache is built on

    [hashicorp/golang-lru] is not code of the repository: it is the interface [LRU], whose
    laws [LRULaws] state its documented behaviour over the entries in order of use (least
    recently used first).  Every removal, by [Remove], [RemoveOldest], [Purge] or an [Add]
    over the capacity, is reported to the eviction callback; replacing the value of a stored
    key is not.  [list_lru] is an instance, so the laws can hold. *)
From S2P Require Import Prelude GoStrings.

Section Entries.
Context {E : Type}.
Definition drop_key (k : string) (l : list (string * E)) : list (string * E) :=
  filter (fun kv => kv.1 <> k) l.
(** [k] becomes the most recently used. *)
Definition touch (k : string) (l : list (string * E)) : list (string * E) :=
  match assoc k l with Some e => drop_key k l ++ [(k, e)] | None => l end.
End Entries.

(** The operations; those that can remove an entry return what they removed. *)
Class LRU (L E : Type) := {
  lru_entries : L -> list (string * E);
  lru_cap : L -> Z;
  lru_new : Z -> L;
  lru_get : string -> L -> option E * L;
  lru_peek : string -> L -> option E;
  lru_remove : string -> L -> list (string * E) * L;
  lru_remove_oldest : L -> list (string * E) * L;
  lru_add : string -> E -> L -> list (string * E) * L;
  lru_len : L -> Z;
  lru_keys : L -> list string;
  lru_purge : L -> list (string * E) * L;
}.

Class LRULaws {L E} (C : LRU L E) : Prop := {
  new_entries n : 0 < n -> lru_entries (lru_new n) = [] /\ lru_cap (lru_new n) = n;
  get_spec k l : (lru_get k l).1 = assoc k (lru_entries l)
    /\ lru_entries (lru_get k l).2 = touch k (lru_entries l)
    /\ lru_cap (lru_get k l).2 = lru_cap l;
  peek_spec k l : lru_peek k l = assoc k (lru_entries l);
  remove_spec k l :
    (lru_remove k l).1 = match assoc k (lru_entries l) with Some e => [(k, e)] | None => [] end
    /\ lru_entries (lru_remove k l).2 = drop_key k (lru_entries l)
    /\ lru_cap (lru_remove k l).2 = lru_cap l;
  remove_oldest_spec l :
    (lru_remove_oldest l).1 = take 1 (lru_entries l)
    /\ lru_entries (lru_remove_oldest l).2 = drop 1 (lru_entries l)
    /\ lru_cap (lru_remove_oldest l).2 = lru_cap l;
  (** a stored key is replaced silently; a new one evicts the oldest over the capacity *)
  add_spec k e l :
    lru_cap (lru_add k e l).2 = lru_cap l
    /\ match assoc k (lru_entries l) with
       | Some _ => (lru_add k e l).1 = [] /\ lru_entries (lru_add k e l).2 = drop_key k (lru_entries l) ++ [(k, e)]
       | None =>
           let n := if lru_cap l <? Z.of_nat (length (lru_entries l)) + 1 then 1%nat else O in
           (lru_add k e l).1 = take n (lru_entries l ++ [(k, e)])
           /\ lru_entries (lru_add k e l).2 = drop n (lru_entries l ++ [(k, e)])
       end;
  len_spec l : lru_len l = Z.of_nat (length (lru_entries l));
  keys_spec l : lru_keys l = (lru_entries l).*1;
  purge_spec l : lru_entries (lru_purge l).2 = [] /\ (lru_purge l).1 ≡ₚ lru_entries l
    /\ lru_cap (lru_purge l).2 = lru_cap l;
}.

(** ** An instance *)

Record list_cache (E : Type) := { lc_cap : Z; lc_entries : list (string * E) }.
Arguments Build_list_cache {E} _ _.
Arguments lc_cap {E} _.
Arguments lc_entries {E} _.
Definition with_entries {E} (l : list_cache E) (es : list (string * E)) : list_cache E :=
  Build_list_cache (lc_cap l) es.

#[export] Instance list_lru {E} : LRU (list_cache E) E := {|
  lru_entries := lc_entries;
  lru_cap := lc_cap;
  lru_new n := Build_list_cache n [];
  lru_get k l := (assoc k (lc_entries l), with_entries l (touch k (lc_entries l)));
  lru_peek k l := assoc k (lc_entries l);
  lru_remove k l :=
    (match assoc k (lc_entries l) with Some e => [(k, e)] | None => [] end,
     with_entries l (drop_key k (lc_entries l)));
  lru_remove_oldest l := (take 1 (lc_entries l), with_entries l (drop 1 (lc_entries l)));
  lru_add k e l :=
    match assoc k (lc_entries l) with
    | Some _ => ([], with_entries l (drop_key k (lc_entries l) ++ [(k, e)]))
    | None =>
        let n := if lc_cap l <? Z.of_nat (length (lc_entries l)) + 1 then 1%nat else O in
        (take n (lc_entries l ++ [(k, e)]), with_entries l (drop n (lc_entries l ++ [(k, e)])))
    end;
  lru_len l := Z.of_nat (length (lc_entries l));
  lru_keys l := (lc_entries l).*1;
  lru_purge l := (lc_entries l, with_entries l []);
|}.
#[export] Instance list_lru_laws {E} : LRULaws (list_lru (E := E)).
Proof.
  split; try done.
  intros k e l. simpl. destruct (assoc k (lc_entries l)); simpl; [done|]. by destruct (_ <? _).
Qed.

(** ** Lemmas on entries *)

Section EntryLemmas.
Context {E : Type}.
Implicit Types l : list (string * E).

Lemma drop_key_assoc k k' l :
  assoc k' (drop_key k l) = if decide (k' = k) then None else assoc k' l.
Proof.
  unfold drop_key. induction l as [|[k0 e] l IH]; simpl; [by case_decide|].
  rewrite filter_cons. simpl. destruct (decide (k0 <> k)) as [Hne|He]; simpl; rewrite IH;
    repeat case_decide; subst; try done; by destruct He.
Qed.

Lemma drop_key_keys k l : (drop_key k l).*1 = filter (fun x => x <> k) l.*1.
Proof.
  unfold drop_key. induction l as [|[k0 e] l IH]; [done|]. rewrite fmap_cons, !filter_cons. simpl.
  destruct (decide (k0 <> k)); [rewrite fmap_cons; f_equal|]; exact IH.
Qed.

Lemma drop_key_NoDup k l : NoDup l.*1 -> NoDup (drop_key k l).*1.
Proof. rewrite drop_key_keys. apply NoDup_filter. Qed.

Lemma drop_key_not_in k l : k ∉ (drop_key k l).*1.
Proof. rewrite drop_key_keys, list_elem_of_filter. by intros []. Qed.

Lemma NoDup_snoc_key k (e : E) l : NoDup l.*1 -> k ∉ l.*1 -> NoDup (l ++ [(k, e)]).*1.
Proof.
  intros Hl Hk. rewrite fmap_app. simpl. apply NoDup_app. split; [done|]. split; [|by apply NoDup_singleton].
  intros x Hx ->%list_elem_of_singleton. done.
Qed.

Lemma assoc_app k l l' : assoc k (l ++ l') = match assoc k l with Some e => Some e | None => assoc k l' end.
Proof. induction l as [|[k0 e] l IH]; simpl; [done|]. by case_decide. Qed.

Lemma touch_assoc k k' l : assoc k' (touch k l) = assoc k' l.
Proof.
  unfold touch. destruct (assoc k l) as [e|] eqn:Hk; [|done]. rewrite assoc_app, drop_key_assoc. simpl.
  destruct (decide (k' = k)) as [->|]; [by rewrite Hk, decide_True|].
  rewrite decide_False by congruence. by destruct (assoc k' l).
Qed.

Lemma touch_NoDup k l : NoDup l.*1 -> NoDup (touch k l).*1.
Proof.
  unfold touch. destruct (assoc k l); [|done]. intros H.
  apply NoDup_snoc_key; [by apply drop_key_NoDup|apply drop_key_not_in].
Qed.

Lemma drop_key_None k l : k ∉ l.*1 -> drop_key k l = l.
Proof.
  unfold drop_key. induction l as [|[k0 e] l IH]; [done|]. rewrite fmap_cons, not_elem_of_cons. simpl.
  intros [Hne Hl]. rewrite filter_cons_True by (simpl; congruence). by rewrite IH.
Qed.

(** Removing a stored key splits the entries. *)
Lemma drop_key_perm k (e : E) l : NoDup l.*1 -> assoc k l = Some e -> l ≡ₚ (k, e) :: drop_key k l.
Proof.
  unfold drop_key. induction l as [|[k0 e0] l IH]; simpl; [done|]. rewrite NoDup_cons. intros [Hk0 Hl].
  rewrite filter_cons. simpl. destruct (decide (k0 = k)) as [->|Hne].
  - intros [= ->]. rewrite decide_False by (by intros []). f_equiv. symmetry.
    fold (drop_key k l). by rewrite drop_key_None.
  - intros Hk. rewrite decide_True by done. rewrite (IH Hl Hk) at 1. constructor.
Qed.
End EntryLemmas.
