(* ===== verification/MemoryCache.v ===== *)
(** * internal/cache/memory.go: the in-memory cache

    Over any LRU library that obeys [LRULaws].  A value is a byte string; instants are
    arguments.  The operations here run without interleaving; [SetThread] at the end is
    [Set] as the sequence of its atomic actions, run by concurrent goroutines. *)
From S2P Require Import Prelude GoStrings Values Lru.

Record memoryCacheEntry := { eValue : string; ExpiresAt : Z }.

(** ** [parseMemorySize] *)

Definition multipliers : list (string * Z) :=
  [("GB", 1024 * 1024 * 1024); ("MB", 1024 * 1024); ("KB", 1024); ("B", 1)].
Definition not_positive (n : Z) : error := Errorf (Sprintf "memory size must be positive, got %d" [AInt n]).
Fixpoint suffix_size (s : string) (ms : list (string * Z)) : option (result Z) :=
  match ms with
  | [] => None
  | (suffix, mult) :: ms' =>
      if has_suffix suffix s then
        let numStr := trim_space (cut_suffix suffix s) in
        Some (match parse_int numStr with
              | None => Err (Errorf (Sprintf "invalid number %q: %w" [AStr numStr]))
              | Some n => if n <=? 0 then Err (not_positive n) else Ok (wrap64 (n * mult))
              end)
      else suffix_size s ms'
  end.
Definition parseMemorySize `{UnicodeTables} (s : string) : result Z :=
  if String.eqb s EmptyString then Ok (256 * 1024 * 1024) else
  let s := trim_space (to_upper s) in
  match suffix_size s multipliers with
  | Some r => r
  | None =>
      match parse_int s with
      | None => Err (Errorf (Sprintf "unsupported memory size format %q" [AStr s]))
      | Some n => if n <=? 0 then Err (not_positive n) else Ok n
      end
  end.

Section MemoryCache.
Context {L : Type} `{C : LRU L memoryCacheEntry} {CL : LRULaws C}.

Record MemoryCache := { cache : L; memUsed : Z; maxMemory : Z }.
Record MemoryCacheConfig := { MaxEntries : Z; MaxMemorySize : string }.

Definition NewMemoryCache `{UnicodeTables} (cfg : MemoryCacheConfig) : result MemoryCache :=
  match parseMemorySize (MaxMemorySize cfg) with
  | Err err => Err (Wrap (Sprintf "invalid max_memory_size %q: %w" [AStr (MaxMemorySize cfg); AErr err]) err)
  | Ok maxMem =>
      let maxEntries := if MaxEntries cfg <=? 0 then 10000 else MaxEntries cfg in
      Ok {| cache := lru_new maxEntries; memUsed := 0; maxMemory := maxMem |}
  end.

Definition size (v : string) : Z := slen v.
Definition onEvict (kv : string * memoryCacheEntry) (used : Z) : Z := used - size (eValue kv.2).
(** Run a removing operation of the library with its callback. *)
Definition evicting (r : list (string * memoryCacheEntry) * L) (mc : MemoryCache) : MemoryCache :=
  {| cache := r.2; memUsed := foldr onEvict (memUsed mc) r.1; maxMemory := maxMemory mc |}.
Definition set_cache (l : L) (mc : MemoryCache) : MemoryCache :=
  {| cache := l; memUsed := memUsed mc; maxMemory := maxMemory mc |}.

Definition Delete (key : string) (mc : MemoryCache) : MemoryCache :=
  evicting (lru_remove key (cache mc)) mc.

Definition Get (now : Z) (key : string) (mc : MemoryCache) : option string * MemoryCache :=
  let '(r, l) := lru_get key (cache mc) in
  let mc := set_cache l mc in
  match r with
  | None => (None, mc)
  | Some entry =>
      if ExpiresAt entry <? now then (None, evicting (lru_remove key (cache mc)) mc)
      else (Some (eValue entry), mc)
  end.

(** The eviction loop; [fuel] bounds the iterations, and the number of entries suffices. *)
Fixpoint make_room (fuel : nat) (entrySize : Z) (mc : MemoryCache) : MemoryCache :=
  match fuel with
  | O => mc
  | S fuel' =>
      if (maxMemory mc <? memUsed mc + entrySize) && (0 <? lru_len (cache mc))
      then make_room fuel' entrySize (evicting (lru_remove_oldest (cache mc)) mc)
      else mc
  end.
(** [if _, ok := Peek(key); ok { Remove(key) }]. *)
Definition reclaim (key : string) (mc : MemoryCache) : MemoryCache :=
  match lru_peek key (cache mc) with
  | Some _ => evicting (lru_remove key (cache mc)) mc
  | None => mc
  end.
(** The accounting and the insertion. *)
Definition store (key : string) (entry : memoryCacheEntry) (mc : MemoryCache) : MemoryCache :=
  let mc := {| cache := cache mc; memUsed := memUsed mc + size (eValue entry); maxMemory := maxMemory mc |} in
  evicting (lru_add key entry (cache mc)) mc.
Definition Set_ (now : Z) (key : string) (value : string) (ttl : Z) (mc : MemoryCache) : MemoryCache :=
  let entrySize := size value in
  let mc := reclaim key mc in
  let mc := make_room (Z.to_nat (lru_len (cache mc))) entrySize mc in
  store key {| eValue := value; ExpiresAt := now + ttl |} mc.

Definition DeleteByPrefix (prefix : string) (mc : MemoryCache) : MemoryCache :=
  foldl (fun mc k => if has_prefix prefix k then Delete k mc else mc) mc (lru_keys (cache mc)).
Definition Clear (mc : MemoryCache) : MemoryCache :=
  let mc := evicting (lru_purge (cache mc)) mc in
  {| cache := cache mc; memUsed := 0; maxMemory := maxMemory mc |}.
Definition MemUsed (mc : MemoryCache) : Z := memUsed mc.
Definition Len (mc : MemoryCache) : Z := lru_len (cache mc).

(** ** Vocabulary of the theorems *)

Inductive op :=
  | OGet (now : Z) (key : string)
  | OSet (now : Z) (key value : string) (ttl : Z)
  | ODelete (key : string)
  | ODeleteByPrefix (prefix : string)
  | OClear.
Definition exec (o : op) (mc : MemoryCache) : MemoryCache :=
  match o with
  | OGet now k => (Get now k mc).2
  | OSet now k v ttl => Set_ now k v ttl mc
  | ODelete k => Delete k mc
  | ODeleteByPrefix p => DeleteByPrefix p mc
  | OClear => Clear mc
  end.
Definition run (ops : list op) (mc : MemoryCache) : MemoryCache := foldl (fun mc o => exec o mc) mc ops.

(** The specification: the value and expiry last set under each key and not deleted since. *)
Definition spec_step (o : op) (m : gmap string memoryCacheEntry) : gmap string memoryCacheEntry :=
  match o with
  | OGet _ _ => m
  | OSet now k v ttl => <[k := {| eValue := v; ExpiresAt := now + ttl |}]> m
  | ODelete k => delete k m
  | ODeleteByPrefix p => filter (fun kv => has_prefix p kv.1 = false) m
  | OClear => ∅
  end.
Definition spec (ops : list op) (m : gmap string memoryCacheEntry) : gmap string memoryCacheEntry :=
  foldl (fun m o => spec_step o m) m ops.

Definition entries (mc : MemoryCache) : list (string * memoryCacheEntry) := lru_entries (cache mc).
Definition total (l : list (string * memoryCacheEntry)) : Z :=
  foldr (fun kv n => size (eValue kv.2) + n) 0 l.

(** What every operation maintains, for a cache made with these limits. *)
Variables maxEntries limit : Z.
(** Bytes counted that no entry accounts for: 0, unless concurrent calls lost some. *)
Variable drift : Z.
Record Inv (mc : MemoryCache) : Prop := {
  inv_nodup : NoDup (entries mc).*1;
  inv_used : memUsed mc = total (entries mc) + drift;
  inv_mem : memUsed mc <= maxMemory mc \/ (length (entries mc) <= 1)%nat;
  inv_len : Z.of_nat (length (entries mc)) <= lru_cap (cache mc);
  inv_pos : 0 < lru_cap (cache mc);
  inv_cap : lru_cap (cache mc) = maxEntries;
  inv_limit : maxMemory mc = limit;
}.
(** Every stored entry is the one the specification has. *)
Definition agrees (mc : MemoryCache) (m : gmap string memoryCacheEntry) : Prop :=
  forall k e, assoc k (entries mc) = Some e -> m !! k = Some e.

(** ** Lemmas *)

Lemma total_app l l' : total (l ++ l') = total l + total l'.
Proof. induction l as [|kv l IH]; simpl; [done|]. rewrite IH. lia. Qed.
Lemma total_nonneg l : 0 <= total l.
Proof. induction l as [|kv l IH]; simpl; [done|]. unfold size. pose proof (slen_nonneg (eValue kv.2)). lia. Qed.
Lemma total_perm l l' : l ≡ₚ l' -> total l = total l'.
Proof. induction 1; simpl; lia. Qed.
Lemma evicted_total l u : foldr onEvict u l = u - total l.
Proof. induction l as [|kv l IH]; simpl; [lia|]. unfold onEvict at 1. rewrite IH. lia. Qed.

(** Removal, with its accounting. *)
Lemma remove_facts k mc :
  NoDup (entries mc).*1 -> memUsed mc = total (entries mc) + drift ->
  let mc' := evicting (lru_remove k (cache mc)) mc in
  entries mc' = drop_key k (entries mc) /\ memUsed mc' = total (entries mc') + drift
  /\ maxMemory mc' = maxMemory mc /\ lru_cap (cache mc') = lru_cap (cache mc)
  /\ memUsed mc' <= memUsed mc /\ (length (entries mc') <= length (entries mc))%nat.
Proof.
  intros Hnd Hu. unfold evicting, entries in *. simpl.
  destruct (remove_spec k (cache mc)) as (H1 & H2 & H3). rewrite H1, H2, H3, evicted_total. split; [done|].
  destruct (assoc k (lru_entries (cache mc))) as [e|] eqn:Hk.
  - pose proof (drop_key_perm _ _ _ Hnd Hk) as Hp. pose proof (total_perm _ _ Hp) as Ht. apply Permutation_length in Hp.
    simpl in *. unfold size in *. pose proof (slen_nonneg (eValue e)). repeat split; lia.
  - apply assoc_None, drop_key_None in Hk. rewrite Hk. simpl. repeat split; lia.
Qed.

Lemma Delete_inv k mc : Inv mc -> Inv (Delete k mc) /\ entries (Delete k mc) = drop_key k (entries mc).
Proof.
  intros [Hn Hu Hm Hc Hp Hmax Hlim]. destruct (remove_facts k mc Hn Hu) as (H1 & H2 & H3 & H4 & H5 & H6).
  unfold Delete in *. split; [|done]. split; [|done| | | | |]; rewrite ?H3, ?H4; [|destruct Hm; [left|right]; lia|lia|lia|done|done].
  rewrite H1. by apply drop_key_NoDup.
Qed.

Lemma Get_facts now k mc :
  Inv mc -> Inv (Get now k mc).2
  /\ (Get now k mc).1 = match assoc k (entries mc) with
                        | Some e => if ExpiresAt e <? now then None else Some (eValue e)
                        | None => None
                        end
  /\ forall k' e, assoc k' (entries (Get now k mc).2) = Some e -> assoc k' (entries mc) = Some e.
Proof.
  intros HI. unfold Get. destruct (get_spec k (cache mc)) as (H1 & H2 & H3).
  destruct (lru_get k (cache mc)) as [r l]. simpl in *. subst r.
  set (mc1 := set_cache l mc).
  assert (Ha : forall k', assoc k' (entries mc1) = assoc k' (entries mc)).
  { intros k'. unfold mc1, entries, set_cache. simpl. by rewrite H2, touch_assoc. }
  assert (Hlen : length (entries mc1) = length (entries mc) /\ total (entries mc1) = total (entries mc)
                 /\ NoDup (entries mc1).*1).
  { destruct HI as [Hn _ _ _ _ _ _]. unfold mc1, entries, set_cache in *. simpl. rewrite H2.
    split; [|split; [|by apply touch_NoDup]]; unfold touch; destruct (assoc k _) as [e|] eqn:Hk; try done;
      pose proof (drop_key_perm _ _ _ Hn Hk) as Hp.
    - rewrite length_app. apply Permutation_length in Hp. simpl in *. lia.
    - rewrite total_app. apply total_perm in Hp. simpl in *. lia. }
  destruct Hlen as (Hl & Ht & Hn1).
  assert (HI1 : Inv mc1).
  { destruct HI as [Hn Hu Hm Hc Hp Hmax Hlim]. split; [done| | | | | |]; rewrite ?Hl, ?Ht; try done; unfold mc1; simpl; by rewrite H3. }
  fold (entries mc). destruct (assoc k (entries mc)) as [e|] eqn:Hk; simpl.
  - destruct (ExpiresAt e <? now); simpl.
    + change (evicting (lru_remove k l) mc1) with (Delete k mc1).
      destruct (Delete_inv k mc1 HI1) as [HD HE]. split; [done|]. split; [done|]. intros k' e'. rewrite HE, drop_key_assoc.
      case_decide; [done|]. by rewrite Ha.
    + split; [done|]. split; [done|]. intros k' e'. by rewrite Ha.
  - split; [done|]. split; [done|]. intros k' e'. by rewrite Ha.
Qed.

Lemma assoc_drop {E} k (e : E) n l : NoDup l.*1 -> assoc k (drop n l) = Some e -> assoc k l = Some e.
Proof.
  intros Hn H%assoc_elem. apply assoc_NoDup; [done|].
  rewrite <- (take_drop n l). apply elem_of_app. by right.
Qed.
Lemma NoDup_drop_keys {E} n (l : list (string * E)) : NoDup l.*1 -> NoDup (drop n l).*1.
Proof.
  intros H. rewrite <- (take_drop n l), fmap_app, NoDup_app in H. by destruct H as (_ & _ & ?).
Qed.

(** The eviction loop drops the oldest entries until the new one fits or none is left. *)
Lemma make_room_facts fuel sz mc :
  (length (entries mc) <= fuel)%nat -> memUsed mc = total (entries mc) + drift ->
  let mc' := make_room fuel sz mc in
  (exists n, entries mc' = drop n (entries mc)) /\ memUsed mc' = total (entries mc') + drift
  /\ maxMemory mc' = maxMemory mc /\ lru_cap (cache mc') = lru_cap (cache mc)
  /\ (memUsed mc' + sz <= maxMemory mc \/ entries mc' = []).
Proof.
  revert mc. induction fuel as [|fuel IH]; intros mc Hf Hu; simpl.
  - assert (entries mc = []) as He by (destruct (entries mc); simpl in *; [done|lia]).
    split; [exists O; by rewrite drop_0|]. auto.
  - rewrite len_spec. fold (entries mc).
    destruct (maxMemory mc <? memUsed mc + sz) eqn:Hfull; simpl;
      [|split; [exists O; by rewrite drop_0|]; repeat split; auto; left; lia].
    destruct (0 <? Z.of_nat (length (entries mc))) eqn:Hlen.
    + set (mc1 := evicting _ mc). destruct (remove_oldest_spec (cache mc)) as (H1 & H2 & H3).
      assert (He1 : entries mc1 = drop 1 (entries mc)) by done.
      assert (Hu1 : memUsed mc1 = total (entries mc1) + drift).
      { rewrite He1. unfold mc1, evicting. simpl. rewrite H1, evicted_total. fold (entries mc).
        rewrite <- (take_drop 1 (entries mc)), total_app in Hu. lia. }
      destruct (IH mc1) as ((n & Hn) & HU & HM & HC & HD); [rewrite He1, length_drop; lia|done|].
      split; [exists (S n); by rewrite Hn, He1, drop_drop|].
      split; [done|]. split; [done|]. split; [by rewrite HC|]. done.
    + assert (entries mc = []) as He by (destruct (entries mc); simpl in *; [done|lia]).
      split; [exists O; by rewrite drop_0|]. auto.
Qed.

Lemma reclaim_facts k mc :
  Inv mc -> Inv (reclaim k mc) /\ entries (reclaim k mc) = drop_key k (entries mc).
Proof.
  intros HI. unfold reclaim. rewrite peek_spec. fold (entries mc).
  destruct (assoc k (entries mc)) as [e0|] eqn:Hk; [by apply Delete_inv|].
  split; [done|]. symmetry. apply drop_key_None. by apply assoc_None.
Qed.

(** Storing a new key when there is room for it, or nothing else is left. *)
Lemma store_facts k e mc :
  NoDup (entries mc).*1 -> k ∉ (entries mc).*1 -> memUsed mc = total (entries mc) + drift ->
  Z.of_nat (length (entries mc)) <= lru_cap (cache mc) -> 0 < lru_cap (cache mc) ->
  (memUsed mc + size (eValue e) <= maxMemory mc \/ entries mc = []) ->
  lru_cap (cache mc) = maxEntries -> maxMemory mc = limit ->
  Inv (store k e mc) /\ exists m, entries (store k e mc) = drop m (entries mc) ++ [(k, e)].
Proof.
  intros Hn Hnk Hu Hcap Hp Hroom Hmax Hlim. unfold store, evicting. cbn [cache memUsed maxMemory].
  pose proof (NoDup_snoc_key k e _ Hn Hnk) as HnS.
  destruct (add_spec k e (cache mc)) as [Hacap Hadd]. fold (entries mc) in Hadd.
  rewrite (proj2 (assoc_None k (entries mc)) Hnk) in Hadd. cbv zeta in Hadd.
  set (m := if _ <? _ then 1%nat else O) in Hadd. destruct Hadd as [Hev Hen].
  assert (Hm : (m <= length (entries mc))%nat /\ Z.of_nat (length (entries mc)) + 1 - Z.of_nat m <= lru_cap (cache mc)).
  { clear Hev Hen. subst m. destruct (lru_cap (cache mc) <? _) eqn:E; lia. }
  destruct Hm as (Hml & Hmcap). clearbody m.
  set (mc2 := {| cache := _; memUsed := _; maxMemory := _ |}).
  assert (Hen2 : entries mc2 = drop m (entries mc) ++ [(k, e)]).
  { unfold entries, mc2 at 1. cbn [cache]. rewrite Hen. by rewrite drop_app_le by done. }
  split; [|by exists m]. split.
  - rewrite Hen2, <- drop_app_le by done. by apply NoDup_drop_keys.
  - rewrite Hen2, total_app. unfold mc2. cbn [memUsed]. rewrite Hev, evicted_total, Hu.
    rewrite <- (take_drop m (entries mc)) at 1. rewrite take_app_le, total_app by done. simpl. lia.
  - rewrite Hen2, length_app, length_drop. unfold mc2. cbn [memUsed maxMemory]. rewrite Hev, evicted_total.
    match goal with |- context [total (take m ?l)] => pose proof (total_nonneg (take m l)) end.
    destruct Hroom as [Hr|Hr]; [left; lia|right; rewrite Hr; simpl; lia].
  - rewrite Hen2, length_app, length_drop. unfold mc2. cbn [cache]. rewrite Hacap. simpl. lia.
  - unfold mc2. cbn [cache]. by rewrite Hacap.
  - unfold mc2. cbn [cache]. by rewrite Hacap.
  - done.
Qed.

Lemma Set_facts now k v ttl mc :
  Inv mc ->
  let e := {| eValue := v; ExpiresAt := now + ttl |} in
  Inv (Set_ now k v ttl mc)
  /\ assoc k (entries (Set_ now k v ttl mc)) = Some e
  /\ forall k' e', assoc k' (entries (Set_ now k v ttl mc)) = Some e' ->
       k' = k /\ e' = e \/ k' <> k /\ assoc k' (entries mc) = Some e'.
Proof.
  intros HI e. unfold Set_. fold e. destruct (reclaim_facts k mc HI) as [HI0 He0].
  set (mc0 := reclaim k mc) in *. clearbody mc0. destruct HI0 as [Hn0 Hu0 Hm0 Hcap0 Hp0 Hmax Hlim].
  rewrite len_spec. fold (entries mc0).
  destruct (make_room_facts (Z.to_nat (Z.of_nat (length (entries mc0)))) (size v) mc0) as ((n & Hn) & HU & HM & HC & HD);
    [lia|done|].
  set (mc1 := make_room _ _ mc0) in *. clearbody mc1.
  assert (Hnk : k ∉ (entries mc1).*1).
  { rewrite Hn. intros [x [Hk Hx]]%list_elem_of_fmap. apply (drop_key_not_in k (entries mc)). rewrite <- He0, Hk.
    apply list_elem_of_fmap. exists x. split; [done|]. rewrite <- (take_drop n (entries mc0)). apply elem_of_app. by right. }
  assert (Hn1 : NoDup (entries mc1).*1) by (rewrite Hn; by apply NoDup_drop_keys).
  destruct (store_facts k e mc1) as (HIS & m & Hm); [done..| | | | | |];
    [rewrite HC, Hn, length_drop; lia|by rewrite HC|by rewrite HM|by rewrite HC|by rewrite HM|].
  assert (Hlk : forall k' e', assoc k' (drop m (entries mc1)) = Some e' -> k' <> k /\ assoc k' (entries mc) = Some e').
  { intros k' e' H. apply assoc_drop in H; [|done]. rewrite Hn in H. apply assoc_drop in H; [|done].
    rewrite He0, drop_key_assoc in H. by case_decide. }
  split; [done|]. rewrite Hm. split.
  - rewrite assoc_app. destruct (assoc k (drop m _)) as [e'|] eqn:Hd; [by destruct (Hlk _ _ Hd)|].
    simpl. by rewrite decide_True.
  - intros k' e'. rewrite assoc_app. destruct (assoc k' (drop m _)) as [e1|] eqn:Hd.
    + intros [= <-]. right. by apply Hlk.
    + simpl. case_decide as Hk; [|done]. intros [= <-]. by left.
Qed.

Lemma prefix_loop p ks mc :
  Inv mc ->
  let mc' := foldl (fun mc k => if has_prefix p k then Delete k mc else mc) mc ks in
  Inv mc' /\ forall k e, assoc k (entries mc') = Some e ->
    assoc k (entries mc) = Some e /\ (k ∈ ks -> has_prefix p k = false).
Proof.
  revert mc. induction ks as [|k0 ks IH]; intros mc HI; simpl; [split; [done|]; intros k e H; split; [done|by intros ?%elem_of_nil]|].
  destruct (has_prefix p k0) eqn:Hp.
  - destruct (Delete_inv k0 mc HI) as [HD HE]. destruct (IH _ HD) as [HI' Hk]. split; [done|].
    intros k e H. destruct (Hk k e H) as [Ha Hks]. rewrite HE, drop_key_assoc in Ha. case_decide; [done|].
    split; [done|]. intros [->|?]%elem_of_cons; [done|by apply Hks].
  - destruct (IH _ HI) as [HI' Hk]. split; [done|]. intros k e H. destruct (Hk k e H) as [Ha Hks].
    split; [done|]. intros [->|?]%elem_of_cons; [done|by apply Hks].
Qed.

Lemma prefix_keeps p ks mc k :
  Inv mc -> has_prefix p k = false ->
  assoc k (entries (foldl (fun mc k => if has_prefix p k then Delete k mc else mc) mc ks)) = assoc k (entries mc).
Proof.
  intros HI Hk. revert mc HI. induction ks as [|k0 ks IH]; intros mc HI; simpl; [done|].
  destruct (has_prefix p k0) eqn:Hp; [|by apply IH].
  destruct (Delete_inv k0 mc HI) as [HD HE]. rewrite IH by done. rewrite HE, drop_key_assoc.
  case_decide; [congruence|done].
Qed.

Lemma Clear_facts mc : drift = 0 -> Inv mc -> Inv (Clear mc) /\ entries (Clear mc) = [].
Proof.
  intros Hd [_ _ _ _ Hp Hmax Hlim]. destruct (purge_spec (cache mc)) as (H1 & _ & H3).
  assert (entries (Clear mc) = []) as He by done. split; [|done].
  split; rewrite ?He; simpl; [constructor|lia|right; lia| | | |done]; rewrite H3; lia.
Qed.

Definition not_clear (o : op) : Prop := match o with OClear => False | _ => True end.

(** Each operation keeps the invariant and the agreement with the specification. *)
Lemma exec_sim o mc m :
  drift = 0 \/ not_clear o -> Inv mc -> agrees mc m ->
  Inv (exec o mc) /\ agrees (exec o mc) (spec_step o m).
Proof.
  intros Hd HI HA. destruct o as [now k|now k v ttl|k|p|]; simpl.
  - destruct (Get_facts now k mc HI) as (H1 & _ & H3). split; [done|]. intros k' e' H. by apply HA, H3.
  - destruct (Set_facts now k v ttl mc HI) as (H1 & _ & H3). split; [done|]. intros k' e' H.
    destruct (H3 _ _ H) as [[-> ->]|[Hne Hk]]; [by rewrite lookup_insert_eq|].
    rewrite lookup_insert_ne by done. by apply HA.
  - destruct (Delete_inv k mc HI) as [H1 H2]. split; [done|]. intros k' e'. rewrite H2, drop_key_assoc.
    case_decide; [done|]. intros Hx. rewrite lookup_delete_ne by done. by apply HA.
  - destruct (prefix_loop p (lru_keys (cache mc)) mc HI) as [H1 H2]. split; [done|]. intros k e H.
    destruct (H2 k e H) as [Ha Hp]. apply map_lookup_filter_Some. split; [by apply HA|]. simpl. apply Hp.
    rewrite keys_spec. apply assoc_elem in Ha. apply list_elem_of_fmap. by exists (k, e).
  - destruct (Clear_facts mc) as [H1 H2]; [by destruct Hd|done|]. split; [done|]. intros k e. by rewrite H2.
Qed.

Lemma run_sim ops mc m :
  drift = 0 \/ Forall not_clear ops -> Inv mc -> agrees mc m ->
  Inv (run ops mc) /\ agrees (run ops mc) (spec ops m).
Proof.
  revert mc m. induction ops as [|o ops IH]; intros mc m Hd HI HA; simpl; [done|].
  destruct (exec_sim o mc m) as [HI' HA']; [destruct Hd as [|Hd]; [by left|right]; by inversion Hd|done|done|].
  apply IH; [|done|done]. destruct Hd as [|Hd]; [by left|right]. by inversion Hd.
Qed.

End MemoryCache.

Arguments MemoryCache : clear implicits.

Section Theorems.
Context {L : Type} `{C : LRU L memoryCacheEntry} {CL : LRULaws C} `{UT : UnicodeTables}.
Implicit Types mc : MemoryCache L.

Definition entry_limit (cfg : MemoryCacheConfig) : Z :=
  if MaxEntries cfg <=? 0 then 10000 else MaxEntries cfg.

Lemma New_inv cfg mc :
  NewMemoryCache cfg = Ok mc -> exists limit,
    parseMemorySize (MaxMemorySize cfg) = Ok limit /\ Inv (entry_limit cfg) limit 0 mc /\ agrees mc ∅.
Proof.
  unfold NewMemoryCache. destruct (parseMemorySize _) as [mm|]; [|done]. intros [= <-]. exists mm. split; [done|].
  assert (Hpos : 0 < entry_limit cfg) by (unfold entry_limit; destruct (_ <=? 0) eqn:E; lia).
  fold (entry_limit cfg). destruct (new_entries (entry_limit cfg) Hpos) as [He Hc].
  split; [|intros k e; unfold entries; simpl; by rewrite He].
  split; unfold entries; simpl; rewrite ?He, ?Hc; simpl; try done; try lia. constructor.
Qed.

(** C22: the cache refines a table of the last values.  Through any sequence of operations
    from a new cache, a value it returns is the value last set under that key, not deleted
    since by key, by prefix or by clearing, and not expired. *)
Theorem cache_refines_spec cfg mc0 ops now k v :
  NewMemoryCache cfg = Ok mc0 -> (Get now k (run ops mc0)).1 = Some v ->
  exists expiry, spec ops ∅ !! k = Some {| eValue := v; ExpiresAt := expiry |} /\ now <= expiry.
Proof.
  intros H0 Hget. destruct (New_inv _ _ H0) as (limit & _ & HI0 & HA0).
  destruct (run_sim _ _ _ ops mc0 ∅ (or_introl eq_refl) HI0 HA0) as [HI HA].
  destruct (Get_facts _ _ _ now k (run ops mc0) HI) as (_ & Hg & _). rewrite Hget in Hg.
  destruct (assoc k (entries (run ops mc0))) as [[v' x]|] eqn:Hk; [|done]. simpl in Hg.
  destruct (x <? now) eqn:Hx; [done|]. injection Hg as ->. exists x. split; [by apply HA|lia].
Qed.

(** the accounting and the limits.  Through any sequence of operations the tracked
    memory is the number of stored bytes, it exceeds the limit only when a single entry is
    stored, and the number of entries stays within the maximum. *)
Theorem cache_bounded cfg mc0 ops :
  NewMemoryCache cfg = Ok mc0 ->
  let mc := run ops mc0 in
  MemUsed mc = total (entries mc) /\ Len mc <= entry_limit cfg
  /\ exists limit, parseMemorySize (MaxMemorySize cfg) = Ok limit /\ (MemUsed mc <= limit \/ Len mc <= 1).
Proof.
  intros H0 mc. destruct (New_inv _ _ H0) as (limit & Hp & HI0 & HA0).
  destruct (run_sim _ _ _ ops mc0 ∅ (or_introl eq_refl) HI0 HA0) as [[Hn Hu Hm Hl Hpos Hc Hlim] _]. fold mc in Hn, Hu, Hm, Hl, Hc, Hlim.
  unfold MemUsed, Len. rewrite len_spec. fold (entries mc). split; [lia|]. split; [by rewrite <- Hc|].
  exists limit. split; [done|]. destruct Hm; [left; lia|right; lia].
Qed.

(** a value just set is returned until its time to live is over, and is gone then,
    however large it is and whatever the cache held. *)
Theorem set_then_get cfg mc0 ops now k v ttl now' :
  NewMemoryCache cfg = Ok mc0 ->
  (Get now' k (Set_ now k v ttl (run ops mc0))).1 = if now + ttl <? now' then None else Some v.
Proof.
  intros H0. destruct (New_inv _ _ H0) as (limit & _ & HI0 & HA0).
  destruct (run_sim _ _ _ ops mc0 ∅ (or_introl eq_refl) HI0 HA0) as [HI _].
  destruct (Set_facts _ _ _ now k v ttl _ HI) as (HS & Hk & _).
  destruct (Get_facts _ _ _ now' k _ HS) as (_ & -> & _). by rewrite Hk.
Qed.
End Theorems.

(** ** Concurrent calls of [Set] *)

(** [Set] as its atomic actions on the shared cache: the calls of the LRU library, which it
    serialises, and the atomic counter.  A removal and its callback are one action. *)
Inductive pc := PReclaim | PRoom | PCount | PAdd | PDone.
Record thread := { t_pc : pc; t_key : string; t_entry : memoryCacheEntry }.
Definition at_pc (p : pc) (t : thread) : thread := {| t_pc := p; t_key := t_key t; t_entry := t_entry t |}.

Section Concurrent.
Context {L : Type} `{C : LRU L memoryCacheEntry}.
Definition count_up (n : Z) (mc : MemoryCache L) : MemoryCache L :=
  {| cache := cache mc; memUsed := memUsed mc + n; maxMemory := maxMemory mc |}.
Definition thread_step (t : thread) (mc : MemoryCache L) : thread * MemoryCache L :=
  match t_pc t with
  | PReclaim => (at_pc PRoom t, reclaim (t_key t) mc)
  | PRoom =>
      if (maxMemory mc <? memUsed mc + size (eValue (t_entry t))) && (0 <? lru_len (cache mc))
      then (t, evicting (lru_remove_oldest (cache mc)) mc)
      else (at_pc PCount t, mc)
  | PCount => (at_pc PAdd t, count_up (size (eValue (t_entry t))) mc)
  | PAdd => (at_pc PDone t, evicting (lru_add (t_key t) (t_entry t) (cache mc)) mc)
  | PDone => (t, mc)
  end.
(** Run the threads by a schedule of their indices. *)
Fixpoint run_schedule (sched : list nat) (ts : list thread) (mc : MemoryCache L) : list thread * MemoryCache L :=
  match sched with
  | [] => (ts, mc)
  | i :: sched' =>
      match ts !! i with
      | None => run_schedule sched' ts mc
      | Some t => let '(t', mc') := thread_step t mc in run_schedule sched' (<[i := t']> ts) mc'
      end
  end.
Definition set_thread (now : Z) (key value : string) (ttl : Z) : thread :=
  {| t_pc := PReclaim; t_key := key; t_entry := {| eValue := value; ExpiresAt := now + ttl |} |}.

Context {CL : LRULaws C} `{UT : UnicodeTables}.

Lemma run_schedule_app s1 s2 ts mc :
  run_schedule (s1 ++ s2) ts mc = let '(ts', mc') := run_schedule s1 ts mc in run_schedule s2 ts' mc'.
Proof.
  revert ts mc. induction s1 as [|i s1 IH]; intros ts mc; simpl; [done|].
  destruct (ts !! i) as [t|]; [|apply IH]. destruct (thread_step t mc). apply IH.
Qed.

(** A thread alone leaves the eviction loop with what [make_room] leaves. *)
Lemma room_alone k e fuel mc :
  (length (entries mc) <= fuel)%nat ->
  exists n, run_schedule (replicate n O) [{| t_pc := PRoom; t_key := k; t_entry := e |}] mc
    = ([{| t_pc := PCount; t_key := k; t_entry := e |}], make_room fuel (size (eValue e)) mc).
Proof.
  revert mc. induction fuel as [|fuel IH]; intros mc Hf.
  - exists 1%nat. simpl. unfold thread_step. simpl. rewrite len_spec. fold (entries mc).
    destruct (entries mc); simpl in *; [|lia]. by rewrite andb_false_r.
  - destruct ((maxMemory mc <? memUsed mc + size (eValue e)) && (0 <? lru_len (cache mc))) eqn:Hc.
    + destruct (IH (evicting (lru_remove_oldest (cache mc)) mc)) as [n Hn].
      { destruct (remove_oldest_spec (cache mc)) as (_ & He & _). unfold entries, evicting in *. simpl.
        rewrite He, length_drop. lia. }
      exists (S n). simpl. unfold thread_step at 1. simpl. by rewrite Hc.
    + exists 1%nat. simpl. unfold thread_step. simpl. by rewrite Hc.
Qed.

Lemma alone_sets now k v ttl mc :
  exists n, run_schedule (replicate n O) [set_thread now k v ttl] mc
    = ([at_pc PDone (set_thread now k v ttl)], Set_ now k v ttl mc).
Proof.
  set (e := {| eValue := v; ExpiresAt := now + ttl |}).
  destruct (room_alone k e (length (entries (reclaim k mc))) (reclaim k mc)) as [n Hn]; [done|].
  exists (1 + (n + 2))%nat. rewrite !replicate_add, run_schedule_app.
  change (run_schedule (replicate 1 O) [set_thread now k v ttl] mc)
    with ([{| t_pc := PRoom; t_key := k; t_entry := e |}], reclaim k mc).
  cbv iota beta. rewrite run_schedule_app, Hn. simpl.
  unfold Set_. rewrite len_spec. fold (entries (reclaim k mc)). by rewrite Nat2Z.id.
Qed.

(** Where the schedule of the next theorem ends: both entries counted, then inserted. *)
Lemma leak_schedule now k v ttl mc :
  assoc k (entries mc) = None -> (maxMemory mc <? memUsed mc + size v) = false ->
  let e := {| eValue := v; ExpiresAt := now + ttl |} in
  let mc2 := count_up (size v) (count_up (size v) mc) in
  let mc3 := evicting (lru_add k e (cache mc)) mc2 in
  run_schedule [0; 1; 0; 1; 0; 1; 0; 1]%nat [set_thread now k v ttl; set_thread now k v ttl] mc
  = ([at_pc PDone (set_thread now k v ttl); at_pc PDone (set_thread now k v ttl)],
     evicting (lru_add k e (cache mc3)) mc3).
Proof.
  intros Hk Hroom e mc2 mc3.
  assert (Hrc : reclaim k mc = mc).
  { unfold reclaim. rewrite peek_spec. fold (entries mc). by rewrite Hk. }
  set (T := fun p => {| t_pc := p; t_key := k; t_entry := e |}).
  assert (H1 : thread_step (T PReclaim) mc = (T PRoom, mc)) by (unfold thread_step; simpl; by rewrite Hrc).
  assert (H2 : thread_step (T PRoom) mc = (T PCount, mc)) by (unfold thread_step; simpl; by rewrite Hroom).
  assert (H3 : forall mc, thread_step (T PCount) mc = (T PAdd, count_up (size v) mc)) by done.
  assert (H4 : forall mc, thread_step (T PAdd) mc = (T PDone, evicting (lru_add k e (cache mc)) mc)) by done.
  change (at_pc PDone (set_thread now k v ttl)) with (T PDone).
  change (set_thread now k v ttl) with (T PReclaim).
  clearbody T.
  repeat (cbn [run_schedule lookup list_lookup insert list_insert]; rewrite ?H1, ?H2, ?H3, ?H4). done.
Qed.

(** two concurrent calls of [Set] for one key count its bytes twice and store it once:
    both find the key absent, both add to the counter, and the second insertion replaces
    the first entry without an eviction callback.  The surplus stays through any sequence
    of operations but [Clear], and takes that much of the capacity away. *)
Theorem concurrent_sets_leak cfg mc0 now k v ttl ops :
  NewMemoryCache cfg = Ok mc0 -> size v <= maxMemory mc0 ->
  Forall not_clear ops ->
  let '(ts, mc) := run_schedule [0; 1; 0; 1; 0; 1; 0; 1]%nat
                     [set_thread now k v ttl; set_thread now k v ttl] mc0 in
  map t_pc ts = [PDone; PDone]
  /\ assoc k (entries mc) = Some {| eValue := v; ExpiresAt := now + ttl |}
  /\ MemUsed mc = total (entries mc) + size v
  /\ MemUsed (run ops mc) = total (entries (run ops mc)) + size v.
Proof.
  intros H0 Hsz Hops. destruct (New_inv _ _ H0) as (limit & _ & [Hn Hu Hm Hl Hp Hc Hlim] & HA).
  assert (He : entries mc0 = []).
  { unfold NewMemoryCache in H0. destruct (parseMemorySize _); [|done]. injection H0 as <-.
    unfold entries. simpl. apply new_entries. destruct (_ <=? 0) eqn:E; lia. }
  rewrite He in Hu. simpl in Hu.
  rewrite leak_schedule; [|by rewrite He|lia].
  set (e := {| eValue := v; ExpiresAt := now + ttl |}). set (mc2 := count_up _ (count_up _ mc0)).
  destruct (add_spec k e (cache mc0)) as [Hcap Hadd]. fold (entries mc0) in Hadd. rewrite He in Hadd. simpl in Hadd.
  rewrite (proj2 (Z.ltb_ge _ _)) in Hadd by lia. simpl in Hadd. destruct Hadd as [Hev Hen].
  set (mc3 := evicting (lru_add k e (cache mc0)) mc2).
  destruct (add_spec k e (cache mc3)) as [Hcap' Hadd].
  assert (He3 : lru_entries (cache mc3) = [(k, e)]) by done.
  rewrite He3 in Hadd. simpl in Hadd. rewrite decide_True in Hadd by done. destruct Hadd as [Hev' Hen'].
  unfold drop_key in Hen'. rewrite filter_cons_False in Hen' by (simpl; by intros []). simpl in Hen'.
  set (mc4 := evicting (lru_add k e (cache mc3)) mc3).
  assert (He4 : entries mc4 = [(k, e)]) by done.
  assert (Hu4 : memUsed mc4 = 2 * size v).
  { unfold mc4, evicting at 1. simpl. rewrite Hev'. simpl. rewrite Hev. simpl. lia. }
  assert (HI4 : Inv (entry_limit cfg) limit (size v) mc4).
  { assert (Hc4 : lru_cap (cache mc4) = lru_cap (cache mc0)) by (transitivity (lru_cap (cache mc3)); [exact Hcap'|exact Hcap]).
    split; rewrite ?He4, ?Hc4, ?Hu4; simpl; try done; try lia. apply NoDup_singleton. }
  destruct (run_sim _ _ _ ops mc4 {[ k := e ]} (or_intror Hops) HI4) as [[_ HU _ _ _ _ _] _].
  { intros k' e'. rewrite He4. simpl. case_decide; [|done]. intros [= <-]. subst. by rewrite lookup_singleton_eq. }
  unfold MemUsed. rewrite HU, He4, Hu4. simpl. rewrite decide_True by done. repeat split; lia.
Qed.
End Concurrent.

(** ** Witnesses *)

#[local] Instance ascii_tables : UnicodeTables := {| uni_to_upper s := s; uni_to_lower s := s |}.
Definition demo_config : MemoryCacheConfig := {| MaxEntries := 2; MaxMemorySize := "1KB" |}.
Definition demo_cache : MemoryCache (list_cache memoryCacheEntry) :=
  {| cache := Build_list_cache 2 []; memUsed := 0; maxMemory := 1024 |}.
Definition demo_ops : list op :=
  [OSet 0 "a" "1" 10; OSet 0 "b" "22" 10; OGet 1 "a"; OSet 2 "c" "333" 10].
Example demo_evicts : map fst (entries (run demo_ops demo_cache)) = ["a"; "c"].
Proof. vm_compute. reflexivity. Qed.

Lemma cache_refines_spec_witness :
  exists expiry, spec demo_ops ∅ !! "a" = Some {| eValue := "1"; ExpiresAt := expiry |} /\ 3 <= expiry.
Proof. exact (cache_refines_spec demo_config demo_cache demo_ops 3 "a" "1" eq_refl eq_refl). Defined.
Lemma cache_bounded_witness : MemUsed (run demo_ops demo_cache) = total (entries (run demo_ops demo_cache)).
Proof. exact (proj1 (cache_bounded demo_config demo_cache demo_ops eq_refl)). Defined.
Lemma set_then_get_witness : (Get 5 "a" (Set_ 4 "a" "9" 10 (run demo_ops demo_cache))).1 = Some "9".
Proof. exact (set_then_get demo_config demo_cache demo_ops 4 "a" "9" 10 5 eq_refl). Defined.
Lemma concurrent_sets_leak_witness :
  let '(_, mc) := run_schedule [0; 1; 0; 1; 0; 1; 0; 1]%nat
                    [set_thread 0 "k" "vvv" 10; set_thread 0 "k" "vvv" 10] demo_cache in
  MemUsed mc = total (entries mc) + 3.
Proof.
  pose proof (concurrent_sets_leak demo_config demo_cache 0 "k" "vvv" 10 [] eq_refl) as H.
  destruct (run_schedule _ _ demo_cache) as [ts mc]. apply H; [|constructor].
  vm_compute. discriminate.
Defined.
