(* ===== verification/Utf8.v ===== *)
(** * UTF-8: conversion of strings to runes and back

    [\[\]rune(s)] and [range] decode a Go string; a byte that starts no well-formed sequence
    is one U+FFFD.  [string(r)] and [strings.Builder.WriteRune] encode ([Json.utf8_rune]).
    [unicode.IsSpace] is the White_Space property. *)
From S2P Require Import Prelude GoStrings Values GoConv FuncMap Json.

Definition RuneError : N := 65533.
Definition cont (c : ascii) : bool := between 128 191 c.
(** The second bytes a leading byte of three or four admits. *)
Definition lead3 (a b : ascii) : bool :=
  if (code a =? 224)%N then between 160 191 b
  else if (code a =? 237)%N then between 128 159 b
  else between 225 239 a && cont b.
Definition lead4 (a b : ascii) : bool :=
  if (code a =? 240)%N then between 144 191 b
  else if (code a =? 244)%N then between 128 143 b
  else between 241 243 a && cont b.
Definition low6 (c : ascii) : N := (code c - 128)%N.
Definition rune2 (a b : ascii) : N := ((code a - 192) * 64 + low6 b)%N.
Definition rune3 (a b c : ascii) : N := ((code a - 224) * 4096 + low6 b * 64 + low6 c)%N.
Definition rune4 (a b c d : ascii) : N :=
  ((code a - 240) * 262144 + low6 b * 4096 + low6 c * 64 + low6 d)%N.

Fixpoint runes (s : string) : list N :=
  match s with
  | EmptyString => []
  | String a s1 =>
      if is_ascii_byte a then code a :: runes s1 else
      match s1 with
      | EmptyString => [RuneError]
      | String b s2 =>
          if between 194 223 a && cont b then rune2 a b :: runes s2 else
          match s2 with
          | EmptyString => RuneError :: runes s1
          | String c s3 =>
              if lead3 a b && cont c then rune3 a b c :: runes s3 else
              match s3 with
              | EmptyString => RuneError :: runes s1
              | String d s4 =>
                  if lead4 a b && cont c && cont d then rune4 a b c d :: runes s4
                  else RuneError :: runes s1
              end
          end
      end
  end.

Fixpoint encode_runes (rs : list N) : string :=
  match rs with [] => EmptyString | r :: rs' => utf8_rune r +:+ encode_runes rs' end.

Definition valid_rune (r : N) : bool := ((r <? 1114112)%N && negb (surrogate r)).

(** [unicode.IsSpace]. *)
Definition IsSpace (r : N) : bool :=
  ((9 <=? r) && (r <=? 13) || (r =? 32) || (r =? 133) || (r =? 160) || (r =? 5760)
   || (8192 <=? r) && (r <=? 8202) || (r =? 8232) || (r =? 8233) || (r =? 8239)
   || (r =? 8287) || (r =? 12288))%N.

(** ** Lemmas *)

#[local] Ltac Zify.zify_post_hook ::= Z.to_euclidean_division_equations.

Lemma code_lt c : (code c < 256)%N.
Proof. apply N_ascii_bounded. Qed.

(** One step of the decoder: an ASCII byte, or some bytes above 127. *)
Lemma runes_step s :
  s = EmptyString
  \/ (exists a t, s = String a t /\ is_ascii_byte a = true /\ runes s = code a :: runes t)
  \/ (exists a p r t, s = String a (p +:+ t)
       /\ str_forallb (fun c => negb (is_ascii_byte c)) (String a p) = true
       /\ (128 <= r)%N /\ valid_rune r = true /\ runes s = r :: runes t).
Proof.
  destruct s as [|a s1]; [by left|]. right. destruct (is_ascii_byte a) eqn:Ha.
  { left. exists a, s1. simpl. by rewrite Ha. }
  right. exists a. simpl. rewrite Ha. simpl.
  assert (Hbad : exists p r t, String a s1 = String a (p +:+ t) /\ str_forallb (fun c => negb (is_ascii_byte c)) p = true
    /\ (128 <= r)%N /\ valid_rune r = true /\ RuneError :: runes s1 = r :: runes t)
    by (exists EmptyString, RuneError, s1; done).
  destruct s1 as [|b s2]; [exact Hbad|].
  pose proof (code_lt a) as La. unfold is_ascii_byte in *.
  destruct (between 194 223 a && cont b) eqn:H2.
  { exists (str1 b), (rune2 a b), s2. unfold cont, between, rune2, low6, valid_rune, surrogate in *. simpl.
    split_and!; [done|lia|lia|lia|done]. }
  destruct s2 as [|c s3]; [exact Hbad|].
  destruct (lead3 a b && cont c) eqn:H3.
  { exists (String b (str1 c)), (rune3 a b c), s3.
    unfold lead3, cont, between, rune3, low6, valid_rune, surrogate in *. simpl. clear Hbad H2.
    repeat case_match; split_and!; (done || lia). }
  destruct s3 as [|d s4]; [exact Hbad|].
  destruct (lead4 a b && cont c && cont d) eqn:H4; [|exact Hbad].
  exists (String b (String c (str1 d))), (rune4 a b c d), s4.
  unfold lead4, cont, between, rune4, low6, valid_rune, surrogate in *. simpl. clear Hbad H2 H3.
  repeat case_match; split_and!; (done || lia).
Qed.

(** Induction along the decoder. *)
Lemma runes_ind (P : string -> Prop) :
  P EmptyString ->
  (forall a t, is_ascii_byte a = true -> runes (String a t) = code a :: runes t -> P t -> P (String a t)) ->
  (forall a p r t, str_forallb (fun c => negb (is_ascii_byte c)) (String a p) = true -> (128 <= r)%N ->
     valid_rune r = true -> runes (String a (p +:+ t)) = r :: runes t -> P t -> P (String a (p +:+ t))) ->
  forall s, P s.
Proof.
  intros P0 P1 P2 s. remember (String.length s) as n eqn:Hn. revert s Hn.
  induction (lt_wf n) as [n _ IH]. intros s ->.
  destruct (runes_step s) as [->|[(a & t & -> & Ha & E)|(a & p & r & t & -> & Ha & Hr & Hv & E)]]; [done|..].
  - apply P1; [done..|]. eapply IH; [|done]. simpl. lia.
  - eapply P2; [done..|]. eapply IH; [|done]. simpl. rewrite str_length_app. lia.
Qed.

Lemma runes_valid s : Forall (fun r => valid_rune r = true) (runes s).
Proof.
  induction s as [|a t Ha E IH|a p r t Ha Hr Hv E IH] using runes_ind; [constructor|..]; rewrite E; constructor; try done.
  unfold valid_rune, surrogate, is_ascii_byte in *. lia.
Qed.

(** The six-bit digits of a rune. *)
Lemma rune_digits r : exists a b c d,
  (r = a * 262144 + b * 4096 + c * 64 + d /\ b < 64 /\ c < 64 /\ d < 64
   /\ r mod 64 = d /\ (r / 64) mod 64 = c /\ (r / 4096) mod 64 = b
   /\ r / 262144 = a /\ r / 4096 = a * 64 + b /\ r / 64 = (a * 64 + b) * 64 + c)%N.
Proof.
  exists (r / 262144)%N, ((r / 4096) mod 64)%N, ((r / 64) mod 64)%N, (r mod 64)%N. split_and!; lia.
Qed.
(** The decoder on a well-formed sequence. *)
Lemma runes_2 a b s : between 194 223 a && cont b = true -> runes (String a (String b s)) = rune2 a b :: runes s.
Proof.
  intros H. cbn [runes]. rewrite H. unfold is_ascii_byte, between in *. by rewrite (proj2 (N.ltb_ge _ _)) by lia.
Qed.
Lemma runes_3 a b c s : lead3 a b && cont c = true ->
  runes (String a (String b (String c s))) = rune3 a b c :: runes s.
Proof.
  intros H. cbn [runes]. rewrite H. unfold lead3, is_ascii_byte, cont, between in *.
  rewrite (proj2 (N.ltb_ge _ _)) by (repeat case_match; lia).
  rewrite (proj2 (andb_false_iff _ _)); [done|]. left. repeat case_match; lia.
Qed.
Lemma runes_4 a b c d s : lead4 a b && cont c && cont d = true ->
  runes (String a (String b (String c (String d s)))) = rune4 a b c d :: runes s.
Proof.
  intros H. cbn [runes]. rewrite H. unfold lead3, lead4, is_ascii_byte, cont, between in *.
  rewrite (proj2 (N.ltb_ge _ _)) by (repeat case_match; lia).
  rewrite (proj2 (andb_false_iff _ _)) by (left; repeat case_match; lia).
  rewrite (proj2 (andb_false_iff _ _)); [done|]. left. repeat case_match; lia.
Qed.
(** Encoding a rune and decoding it. *)
Lemma runes_utf8_rune r s : valid_rune r = true -> runes (utf8_rune r +:+ s) = r :: runes s.
Proof.
  unfold valid_rune, utf8_rune. intros [Hr Hs]%andb_true_iff. apply negb_true_iff in Hs. rewrite Hs.
  unfold surrogate in Hs. destruct (rune_digits r) as (a & b & c & d & Er & Hb & Hc & Hd & -> & -> & -> & -> & -> & ->).
  destruct (r <? 128)%N eqn:H1; [|destruct (r <? 2048)%N eqn:H2; [|destruct (r <? 65536)%N eqn:H3]];
    unfold str1; cbn [String.append].
  - cbn [runes]. unfold is_ascii_byte. by rewrite code_byte, H1 by lia.
  - rewrite runes_2; unfold rune2, low6, cont, between; rewrite !code_byte by lia; [|lia]. f_equal. lia.
  - rewrite runes_3; unfold rune3, low6, lead3, cont, between; rewrite !code_byte by lia;
      [f_equal; lia|repeat case_match; lia].
  - rewrite runes_4; unfold rune4, low6, lead4, cont, between; rewrite !code_byte by lia;
      [f_equal; lia|repeat case_match; lia].
Qed.
Lemma runes_encode rs s :
  Forall (fun r => valid_rune r = true) rs -> runes (encode_runes rs +:+ s) = rs ++ runes s.
Proof.
  induction 1 as [|r rs Hr Hrs IH]; [done|]. simpl. by rewrite str_app_assoc, runes_utf8_rune, IH.
Qed.
Lemma encode_runes_app a b : encode_runes (a ++ b) = encode_runes a +:+ encode_runes b.
Proof. induction a as [|r a IH]; simpl; [done|]. by rewrite IH, str_app_assoc. Qed.
(** An ASCII byte is never part of a longer sequence. *)
Lemma runes_app_ascii p c s : is_ascii_byte c = true ->
  runes (p +:+ String c s) = runes p ++ code c :: runes s.
Proof.
  intros Hc. assert (H : forall n p, (String.length p <= n)%nat ->
    runes (p +:+ String c s) = runes p ++ code c :: runes s); [|by eapply H].
  assert (Hr : forall t, runes (String c t) = code c :: runes t) by (intros t; simpl; by rewrite Hc).
  clear p. unfold is_ascii_byte in Hc.
  assert (H3 : forall a, lead3 a c = false) by (intros a; unfold lead3, cont, between; repeat case_match; lia).
  assert (H4 : forall a, lead4 a c = false) by (intros a; unfold lead4, cont, between; repeat case_match; lia).
  assert (Hn : cont c = false) by (unfold cont, between; lia).
  induction n as [|n IH]; intros [|a p1] Hl; simpl in Hl; try lia; [apply Hr..|].
  cbn [String.append]. pose proof (IH p1 ltac:(lia)) as E1.
  cbn [runes]. destruct (is_ascii_byte a); [by rewrite E1|].
  destruct p1 as [|b p2]; cbn [String.append] in *.
  { rewrite Hn, andb_false_r. rewrite H3, H4, Hr. simpl. by repeat case_match. }
  simpl in Hl. pose proof (IH p2 ltac:(lia)) as E2.
  destruct (between 194 223 a && cont b); [by rewrite E2|].
  destruct p2 as [|x p3]; cbn [String.append] in *.
  { rewrite Hn, E1, !andb_false_r. simpl. by repeat case_match. }
  simpl in Hl. pose proof (IH p3 ltac:(lia)) as E3.
  destruct (lead3 a b && cont x); [by rewrite E3|].
  destruct p3 as [|y p4]; cbn [String.append] in *.
  { by rewrite Hn, E1, !andb_false_r. }
  simpl in Hl. pose proof (IH p4 ltac:(lia)) as E4.
  destruct (lead4 a b && cont x && cont y); [by rewrite E4|by rewrite E1].
Qed.
Lemma runes_ascii s : str_forallb is_ascii_byte s = true -> runes s = map code (list_ascii_of_string s).
Proof.
  induction s as [|c s IH]; [done|]. simpl. intros [Hc Hs]%andb_true_iff. by rewrite Hc, IH.
Qed.
