(* ===== verification/Normalize.v ===== *)
(** * internal/cache/normalize.go and key.go: normal form of a query, cache keys

    A [strings.Builder] is the text written so far; the word [tokenize] collects is kept as the
    runes written, its text is their encoding.  [xxhash.Sum64] is an argument, as are
    [json.Marshal] of the variables and the Unicode tables behind [ToUpper] and [ToLower]. *)
From S2P Require Import Prelude GoStrings Values GoConv FuncMap Json Utf8.

(** ** The code *)

Definition HASH : ascii := "#"%char.

(** [backslashes] of [isEscaped]: the run that ends [s\[:i\]]; [before] is [s\[:i\]] from its
    last byte on. *)
Fixpoint backslashes (before : string) : nat :=
  match before with
  | String c b => if Ascii.eqb c BSLASH then S (backslashes b) else O
  | EmptyString => O
  end.
Definition isEscaped (before : string) : bool := Nat.odd (backslashes before).

(** The two loops of [removeComments] as one pass: [skipping] is the inner loop, which stops
    in front of a newline. *)
Fixpoint removeComments_go (before : string) (inString skipping : bool) (query : string) : string :=
  match query with
  | EmptyString => EmptyString
  | String ch rest =>
      if skipping && negb (Ascii.eqb ch LF) then removeComments_go (String ch before) inString true rest
      else if Ascii.eqb ch DQUOTE && negb (isEscaped before) then
        String ch (removeComments_go (String ch before) (negb inString) false rest)
      else if negb inString && Ascii.eqb ch HASH then removeComments_go (String ch before) inString true rest
      else String ch (removeComments_go (String ch before) inString false rest)
  end.
Definition removeComments (query : string) : string := removeComments_go EmptyString false false query.

(** The runes of [{ } ( ) : ! @ $ = , \[ \] | &] *)
Definition punctuation : list N := map code (list_ascii_of_string "{}():!@$=,[]|&").
Definition isPunctuation (r : N) : bool := bool_decide (r ∈ punctuation).
Definition DOT : N := code ".".
(** [r == '.' && runes\[i+1\] == '.' && runes\[i+2\] == '.'] *)
Definition spread (a b c : N) : bool := (a =? DOT)%N && (b =? DOT)%N && (c =? DOT)%N.

(** [flush]: the word read, when there is one. *)
Definition flush (current : list N) : list (list N) := match current with [] => [] | _ => [current] end.
Fixpoint tokenize_go (current rs : list N) : list (list N) :=
  match rs with
  | [] => flush current
  | r :: rs1 =>
      if IsSpace r then flush current ++ tokenize_go [] rs1
      else
      let other :=
        if isPunctuation r then flush current ++ [r] :: tokenize_go [] rs1
        else tokenize_go (current ++ [r]) rs1 in
      match rs1 with
      | b :: c :: rs3 => if spread r b c then flush current ++ [DOT; DOT; DOT] :: tokenize_go [] rs3 else other
      | _ => other
      end
  end.
Definition tokenize (query : string) : list string := encode_runes <$> tokenize_go [] (runes query).

Definition graphqlKeywords : list string :=
  ["QUERY"; "MUTATION"; "SUBSCRIPTION"; "FRAGMENT"; "ON"; "TRUE"; "FALSE"; "NULL"].

Section Code.
Context {UT : UnicodeTables}.

Definition normalizeToken (tok : string) : string :=
  if bool_decide (to_upper tok ∈ graphqlKeywords) then to_lower tok else tok.
Definition NormalizeQuery (query : string) : string :=
  join " " (normalizeToken <$> tokenize (removeComments query)).

Context {FT : FloatText} {JT : JsonText}.
Variable xxhash : string -> N.

(** An error of [json.Marshal] is dropped, its text is then empty. *)
Definition sortedVariablesJSON (vars : list (string * GoVal)) : string :=
  if Z.of_nat (length vars) =? 0 then EmptyString else
  let keys := sort_strings vars.*1 in
  match mapR (fun k => v ← json_value (default VNil (assoc k vars)); Ok (json_string k +:+ "," +:+ v)) keys with
  | Ok parts => "[" +:+ join "," parts +:+ "]"
  | Err _ => EmptyString
  end.
Definition hashed_text (query : string) (variables : list (string * GoVal)) : string :=
  NormalizeQuery query +:+ sortedVariablesJSON variables.
Definition Generate (datasource query : string) (variables : list (string * GoVal)) : string :=
  "cache:" +:+ datasource +:+ ":" +:+ hex16 (xxhash (hashed_text query variables)).
End Code.

(** ** Words, tokens and the text of a token list *)

Definition spread_head (l : list N) : bool := match l with a :: b :: c :: _ => spread a b c | _ => false end.
Definition word_rune (r : N) : bool := valid_rune r && negb (IsSpace r) && negb (isPunctuation r).
(** No spread starts inside [cur] when [rest] follows. *)
Definition no_spread (cur rest : list N) : Prop :=
  forall p s, cur = p ++ s -> s <> [] -> spread_head (s ++ rest) = false.
Definition is_word (t : list N) : Prop := t <> [] /\ Forall (fun r => word_rune r = true) t /\ no_spread t [].
Definition is_token (t : list N) : Prop :=
  is_word t \/ (exists r, t = [r] /\ isPunctuation r = true) \/ t = [DOT; DOT; DOT].

(** Each token after a blank, and [strings.Join] of them. *)
Definition spaced (ts : list (list N)) : list N := concat (map (cons 32%N) ts).
Definition joined (ts : list (list N)) : list N := match ts with [] => [] | t :: ts' => t ++ spaced ts' end.
Lemma spaced_app a b : spaced (a ++ b) = spaced a ++ spaced b.
Proof. unfold spaced. by rewrite map_app, concat_app. Qed.
Lemma join_spaced t ts :
  join " " (encode_runes <$> t :: ts) = encode_runes (t ++ spaced ts).
Proof.
  revert t. induction ts as [|u ts IH]; intros t; [simpl; by rewrite app_nil_r|].
  rewrite !fmap_cons, join_cons, encode_runes_app. f_equal. rewrite <- fmap_cons, IH. done.
Qed.
Lemma join_joined ts : join " " (encode_runes <$> ts) = encode_runes (joined ts).
Proof. destruct ts as [|t ts]; [done|]. apply join_spaced. Qed.

Lemma punct_not_special r : isPunctuation r = true ->
  valid_rune r = true /\ IsSpace r = false /\ r <> DOT /\ r <> 34%N /\ r <> 92%N /\ r <> 35%N /\ (r < 128)%N.
Proof.
  unfold isPunctuation, punctuation. intros H%bool_decide_eq_true. cbn in H.
  repeat (apply elem_of_cons in H as [->|H]; [by vm_compute|]). by apply elem_of_nil in H.
Qed.
Lemma spread_true a b c : spread a b c = true -> a = DOT /\ b = DOT /\ c = DOT.
Proof. unfold spread. lia. Qed.

Lemma no_spread_nil cur rest : no_spread cur rest -> no_spread cur [].
Proof.
  intros H p s E Hs. specialize (H p s E Hs). rewrite app_nil_r.
  destruct s as [|a [|b [|c s]]]; done.
Qed.
Lemma no_spread_push cur r rest :
  no_spread cur (r :: rest) -> spread_head (r :: rest) = false -> no_spread (cur ++ [r]) rest.
Proof.
  intros H Hr p s E Hs. destruct (exists_last Hs) as (s' & x & ->).
  rewrite app_assoc in E. apply app_inj_tail in E as [-> ->].
  rewrite <- app_assoc. simpl. destruct s' as [|y s']; [done|]. by apply (H p).
Qed.

(** ** The tokenizer reads back what was joined *)

Definition ends (rest : list N) : Prop := rest = [] \/ exists r, rest = 32%N :: r.
Lemma spaced_ends ts : ends (spaced ts).
Proof. destruct ts; [by left|]. right. simpl. eauto. Qed.
Lemma tokenize_end w rest : ends rest -> w <> [] -> tokenize_go w rest = w :: tokenize_go [] rest.
Proof. intros [->|[r ->]] Hw; destruct w; done. Qed.
Lemma spread_blank s rest : ends rest -> s <> [] -> spread_head (s ++ []) = false -> spread_head (s ++ rest) = false.
Proof.
  intros Hr Hs. rewrite app_nil_r. assert (H32 : (32 =? DOT)%N = false) by done.
  destruct s as [|a [|b [|c s]]]; try done; intros _; destruct Hr as [->|[r ->]]; try done; simpl.
  - destruct r; [done|]. unfold spread. by rewrite H32, andb_false_r.
  - unfold spread. by rewrite H32, andb_false_r.
Qed.

Lemma tokenize_word w cur rest :
  Forall (fun r => word_rune r = true) w -> no_spread w [] -> ends rest -> cur ++ w <> [] ->
  tokenize_go cur (w ++ rest) = (cur ++ w) :: tokenize_go [] rest.
Proof.
  intros Hw. revert cur. induction Hw as [|r w Hr Hw IH]; intros cur Hn He Hne.
  { rewrite app_nil_r in *. by apply tokenize_end. }
  assert (Hs : spread_head ((r :: w) ++ rest) = false).
  { apply spread_blank; [done..|]. by apply (Hn []). }
  assert (IH' : tokenize_go (cur ++ [r]) (w ++ rest) = (cur ++ r :: w) :: tokenize_go [] rest).
  { replace (cur ++ r :: w) with ((cur ++ [r]) ++ w) by by rewrite <- app_assoc.
    apply IH; [|done|by destruct cur]. intros p s E. apply (Hn (r :: p)). simpl. by rewrite E. }
  unfold word_rune in Hr. cbn [app]. cbn [tokenize_go].
  replace (IsSpace r) with false by (destruct (IsSpace r), (valid_rune r); done).
  replace (isPunctuation r) with false by (destruct (isPunctuation r), (IsSpace r), (valid_rune r); done).
  simpl in Hs. destruct (w ++ rest) as [|b [|c l]]; [done..|]. by rewrite Hs.
Qed.
Lemma tokenize_token t rest : is_token t -> ends rest -> tokenize_go [] (t ++ rest) = t :: tokenize_go [] rest.
Proof.
  intros [(Hne & Hw & Hn)|[(r & -> & Hp)| ->]] He.
  - by apply tokenize_word.
  - destruct (punct_not_special r Hp) as (_ & Hs & Hd & _). cbn [app tokenize_go].
    rewrite Hs, Hp. destruct rest as [|b [|c l]]; [done..|].
    unfold spread. by rewrite (proj2 (N.eqb_neq _ _) Hd).
  - done.
Qed.
Lemma tokenize_joined ts : Forall is_token ts -> tokenize_go [] (joined ts) = ts.
Proof.
  intros H. assert (Hs : tokenize_go [] (spaced ts) = ts).
  { induction H as [|t ts Ht Hts IH]; [done|]. simpl. rewrite tokenize_token; [by f_equal|done|apply spaced_ends]. }
  destruct H as [|t ts Ht Hts]; [done|]. rewrite <- Hs at 2. simpl.
  rewrite !tokenize_token by (done || apply spaced_ends). done.
Qed.

(** What the tokenizer produces are tokens. *)
Lemma flush_tokens cur rest : Forall (fun r => word_rune r = true) cur -> no_spread cur rest -> Forall is_token (flush cur).
Proof.
  intros Hw Hn. destruct cur as [|r cur]; [constructor|].
  constructor; [|constructor]. left. split_and!; [done..|by eapply no_spread_nil].
Qed.
Lemma no_spread_empty rest : no_spread [] rest.
Proof. intros p s E Hs. symmetry in E. by apply app_eq_nil in E as [_ ->]. Qed.
Lemma tokenize_tokens rs cur :
  Forall (fun r => valid_rune r = true) rs -> Forall (fun r => word_rune r = true) cur -> no_spread cur rs ->
  Forall is_token (tokenize_go cur rs).
Proof.
  revert rs cur. refine (well_founded_ind (well_founded_ltof _ (@length N)) _ _).
  intros rs IH cur Hv Hc Hn. destruct rs as [|r rs1]; [by eapply flush_tokens|]. cbn [tokenize_go].
  pose proof (flush_tokens _ _ Hc Hn) as Hf. apply Forall_cons in Hv as [Hr Hv].
  destruct (IsSpace r) eqn:Hs.
  { apply Forall_app; split; [done|]. apply IH; [unfold ltof; simpl; lia|done|done|apply no_spread_empty]. }
  assert (Hother : spread_head (r :: rs1) = false -> Forall is_token
     (if isPunctuation r then flush cur ++ [r] :: tokenize_go [] rs1 else tokenize_go (cur ++ [r]) rs1)).
  { intros Hh. destruct (isPunctuation r) eqn:Hp.
    - apply Forall_app; split; [done|]. constructor; [right; left; eauto|].
      apply IH; [unfold ltof; simpl; lia|done|done|apply no_spread_empty].
    - apply IH; [unfold ltof; simpl; lia|done| |by apply no_spread_push].
      apply Forall_app; split; [done|]. constructor; [|done]. unfold word_rune. by rewrite Hr, Hs, Hp. }
  destruct rs1 as [|b [|c rs3]]; [by apply Hother..|]. destruct (spread r b c) eqn:Hd; [|by apply Hother].
  apply Forall_app; split; [done|]. constructor; [by do 2 right|].
  apply IH; [unfold ltof; simpl; lia|by do 2 apply Forall_cons in Hv as [_ Hv]|done|apply no_spread_empty].
Qed.

(** ** Comments: the literal a position lies in *)

(** Whether the next character is escaped, and whether it is inside a literal. *)
Definition quote_step (st : bool * bool) (r : N) : bool * bool :=
  ((r =? 92)%N && negb st.1, if (r =? 34)%N && negb st.1 then negb st.2 else st.2).
Definition quote_run (st : bool * bool) (l : list N) : bool * bool := foldl quote_step st l.
(** No [#] outside of literals. *)
Fixpoint clean (st : bool * bool) (l : list N) : bool :=
  match l with
  | [] => true
  | r :: l' => negb ((r =? 35)%N && negb st.2) && clean (quote_step st r) l'
  end.
Definition codes (s : string) : list N := map code (list_ascii_of_string s).

Lemma clean_app st a b : clean st (a ++ b) = clean st a && clean (quote_run st a) b.
Proof. revert st. induction a as [|r a IH]; intros st; simpl; [done|]. by rewrite IH, andb_assoc. Qed.
Lemma quote_run_app st a b : quote_run st (a ++ b) = quote_run (quote_run st a) b.
Proof. apply foldl_app. Qed.

Lemma eqb_code c d : Ascii.eqb c d = (code c =? code d)%N.
Proof.
  destruct (Ascii.eqb_spec c d) as [->|H]; [by rewrite N.eqb_refl|].
  symmetry. apply N.eqb_neq. intros E. by apply H, code_inj.
Qed.
Lemma isEscaped_cons c b : isEscaped (String c b) = (code c =? 92)%N && negb (isEscaped b).
Proof.
  unfold isEscaped. cbn [backslashes]. rewrite eqb_code. change (code BSLASH) with 92%N.
  destruct (code c =? 92)%N; [|done]. rewrite Nat.odd_succ, <- Nat.negb_odd. done.
Qed.

(** The pass depends on the text before only through [isEscaped]. *)
Lemma comments_before b b' i k s : isEscaped b = isEscaped b' ->
  removeComments_go b i k s = removeComments_go b' i k s.
Proof.
  revert b b' i k. induction s as [|c s IH]; intros b b' i k E; [done|]. cbn [removeComments_go]. rewrite E.
  assert (E' : isEscaped (String c b) = isEscaped (String c b')) by by rewrite !isEscaped_cons, E.
  by rewrite !(IH _ _ _ _ E').
Qed.
(** A text without comments stays as it is. *)
Lemma comments_clean b i s : clean (isEscaped b, i) (codes s) = true -> removeComments_go b i false s = s.
Proof.
  revert b i. induction s as [|c s IH]; intros b i; [done|]. cbn [removeComments_go codes list_ascii_of_string map clean].
  rewrite !eqb_code. change (code DQUOTE) with 34%N. change (code HASH) with 35%N.
  intros [Hh Hc]%andb_true_iff. unfold quote_step in Hc. simpl in Hh, Hc. rewrite <- isEscaped_cons in Hc. simpl.
  destruct ((code c =? 34)%N && negb (isEscaped b)); [by rewrite IH|].
  rewrite andb_comm, (proj1 (negb_true_iff _) Hh). by rewrite IH.
Qed.
(** What the pass leaves has no comments. *)
Lemma comments_removed s b i :
  clean (isEscaped b, i) (codes (removeComments_go b i false s)) = true
  /\ forall e, clean (e, false) (codes (removeComments_go b false true s)) = true.
Proof.
  revert b i. induction s as [|c s IH]; intros b i; [done|].
  assert (Hstep : forall e j, clean (isEscaped (String c b), j) (codes (removeComments_go (String c b) j false s)) = true ->
     ((code c =? 92)%N && negb e = isEscaped (String c b)) ->
     (if (code c =? 34)%N && negb e then negb i else i) = j ->
     negb ((code c =? 35)%N && negb i) = true ->
     clean (e, i) (codes (String c (removeComments_go (String c b) j false s))) = true).
  { intros e j H He Hj Hh. cbn [codes list_ascii_of_string map clean]. simpl. rewrite Hh. unfold quote_step. simpl.
    by rewrite He, Hj. }
  cbn [removeComments_go]. rewrite !eqb_code.
  change (code DQUOTE) with 34%N. change (code HASH) with 35%N. change (code LF) with 10%N. split.
  - simpl. destruct ((code c =? 34)%N && negb (isEscaped b)) eqn:Hq.
    { apply Hstep; [apply IH|by rewrite isEscaped_cons|by rewrite Hq|]. destruct (code c =? 34)%N eqn:E; [|done].
      apply N.eqb_eq in E. by rewrite E. }
    destruct (negb i && (code c =? 35)%N) eqn:Hh.
    { destruct i; [done|]. apply (proj2 (IH (String c b) false)). }
    apply Hstep; [apply IH|by rewrite isEscaped_cons|by rewrite Hq|by rewrite andb_comm, Hh].
  - intros e. destruct (code c =? 10)%N eqn:E; simpl; [|apply (proj2 (IH (String c b) false))].
    apply N.eqb_eq in E. rewrite E. simpl. cbn [codes list_ascii_of_string map clean]. rewrite E. simpl.
    pose proof (proj1 (IH (String c b) false)) as H. by rewrite isEscaped_cons, E in H.
Qed.

(** Runes and bytes agree on it: bytes above 127 are no quotes, backslashes or hashes. *)
Definition neutral (r : N) : bool := negb ((r =? 34) || (r =? 92) || (r =? 35))%N.
Lemma clean_neutral st r l : neutral r = true -> clean st (r :: l) = clean (false, st.2) l.
Proof.
  unfold neutral. intros H. simpl. unfold quote_step.
  replace (r =? 34)%N with false by lia. replace (r =? 92)%N with false by lia. by replace (r =? 35)%N with false by lia.
Qed.
Lemma clean_codes_high st p t : str_forallb (fun c => negb (is_ascii_byte c)) p = true -> p <> EmptyString ->
  clean st (codes (p +:+ t)) = clean (false, st.2) (codes t).
Proof.
  revert st. induction p as [|c p IH]; intros st Hp Hne; [done|]. simpl in Hp. apply andb_true_iff in Hp as [Hc Hp].
  cbn [String.append codes list_ascii_of_string map]. unfold is_ascii_byte in Hc.
  rewrite clean_neutral by (unfold neutral; lia). fold (codes (p +:+ t)).
  destruct p as [|d p]; [done|]. by rewrite IH.
Qed.
Lemma clean_runes st s : clean st (codes s) = clean st (runes s).
Proof.
  revert st. induction s as [|a t Ha E IH|a p r t Ha Hr Hv E IH] using runes_ind; intros st; [done|..]; rewrite E.
  - cbn [codes list_ascii_of_string map clean]. by rewrite <- IH.
  - change (String a (p +:+ t)) with (String a p +:+ t). rewrite clean_codes_high by done.
    rewrite clean_neutral by (unfold neutral; lia). apply IH.
Qed.

(** ** Keywords *)

(** [strings.ToUpper] and [ToLower] of a string that is not ASCII map its runes; the only other
    runes whose upper case is an ASCII letter are U+0131 and U+017F, which are lower case. *)
Class RuneCase (UT : UnicodeTables) := {
  rune_upper : N -> N;
  rune_lower : N -> N;
  upper_runes s : str_forallb is_ascii_byte s = false -> uni_to_upper s = encode_runes (rune_upper <$> runes s);
  lower_runes s : str_forallb is_ascii_byte s = false -> uni_to_lower s = encode_runes (rune_lower <$> runes s);
  upper_ascii c : is_ascii_byte c = true -> rune_upper (code c) = code (upper_byte c);
  lower_ascii c : is_ascii_byte c = true -> rune_lower (code c) = code (lower_byte c);
  upper_valid r : valid_rune r = true -> valid_rune (rune_upper r) = true;
  upper_to_ascii r : (128 <= r)%N -> (rune_upper r < 128)%N -> r = 305%N \/ r = 383%N;
  lower_dotless : rune_lower 305 = 305%N;
  lower_long_s : rune_lower 383 = 383%N;
}.

Section Keywords.
Context {UT : UnicodeTables} {RC : RuneCase UT}.

(** The runes a keyword is written with. *)
Definition letter (r : N) : bool :=
  ((65 <=? r) && (r <=? 90) || (97 <=? r) && (r <=? 122) || (r =? 305) || (r =? 383))%N.
Definition is_keyword (t : list N) : bool := bool_decide (encode_runes (rune_upper <$> t) ∈ graphqlKeywords).
Definition normalize_runes (t : list N) : list N := if is_keyword t then rune_lower <$> t else t.

Lemma encode_codes s : str_forallb is_ascii_byte s = true -> encode_runes (codes s) = s.
Proof.
  induction s as [|c s IH]; [done|]. simpl. intros [Hc Hs]%andb_true_iff. fold (codes s). rewrite IH by done.
  unfold is_ascii_byte in Hc. unfold utf8_rune, surrogate.
  replace (_ && _) with false by lia. rewrite Hc. simpl. f_equal. apply ascii_N_embedding.
Qed.
Lemma codes_map (f : N -> N) g s :
  (forall c, is_ascii_byte c = true -> f (code c) = code (g c)) -> str_forallb is_ascii_byte s = true ->
  f <$> codes s = codes (str_map g s).
Proof.
  intros Hf. induction s as [|c s IH]; [done|]. simpl. intros [Hc Hs]%andb_true_iff.
  unfold codes. simpl. rewrite Hf by done. f_equal. exact (IH Hs).
Qed.
Lemma map_byte_ascii g s : (forall c, is_ascii_byte c = true -> is_ascii_byte (g c) = true) ->
  str_forallb is_ascii_byte s = true -> str_forallb is_ascii_byte (str_map g s) = true.
Proof.
  intros Hg. induction s as [|c s IH]; [done|]. simpl. intros [Hc Hs]%andb_true_iff. by rewrite Hg, IH.
Qed.
Lemma case_ascii c : is_ascii_byte c = true ->
  is_ascii_byte (upper_byte c) = true /\ is_ascii_byte (lower_byte c) = true.
Proof.
  unfold is_ascii_byte, upper_byte, lower_byte, is_upper, is_lower, between. intros H.
  split; case_match; rewrite ?code_byte by lia; lia.
Qed.
Lemma to_upper_runes s : to_upper s = encode_runes (rune_upper <$> runes s).
Proof.
  unfold to_upper. destruct (str_forallb is_ascii_byte s) eqn:E; [|by apply upper_runes].
  rewrite (runes_ascii s E). change (map code _) with (codes s). rewrite (codes_map _ _ _ upper_ascii E).
  symmetry. apply encode_codes, map_byte_ascii; [|done]. intros c Hc. by apply case_ascii.
Qed.
Lemma to_lower_runes s : to_lower s = encode_runes (rune_lower <$> runes s).
Proof.
  unfold to_lower. destruct (str_forallb is_ascii_byte s) eqn:E; [|by apply lower_runes].
  rewrite (runes_ascii s E). change (map code _) with (codes s). rewrite (codes_map _ _ _ lower_ascii E).
  symmetry. apply encode_codes, map_byte_ascii; [|done]. intros c Hc. by apply case_ascii.
Qed.
Lemma normalizeToken_runes t : Forall (fun r => valid_rune r = true) t ->
  normalizeToken (encode_runes t) = encode_runes (normalize_runes t).
Proof.
  intros Hv. unfold normalizeToken, normalize_runes, is_keyword. rewrite to_upper_runes, to_lower_runes.
  pose proof (runes_encode t EmptyString Hv) as E. rewrite str_app_nil_r, app_nil_r in E. rewrite E. by case_bool_decide.
Qed.

(** Keywords are letters. *)
Lemma keyword_runes s : s ∈ graphqlKeywords -> Forall (fun r => (65 <= r <= 90)%N) (runes s).
Proof.
  assert (H : Forall (fun s => forallb (fun r => (65 <=? r) && (r <=? 90))%N (runes s) = true) graphqlKeywords)
    by (repeat constructor).
  intros Hs. rewrite Forall_forall in H. specialize (H s Hs). rewrite forallb_forall in H.
  apply Forall_forall. intros r Hr%list_elem_of_In. specialize (H r Hr). lia.
Qed.
Lemma keyword_letters t : Forall (fun r => valid_rune r = true) t -> is_keyword t = true ->
  Forall (fun r => letter r = true) t.
Proof.
  unfold is_keyword. intros Hv Hk%bool_decide_eq_true. apply keyword_runes in Hk.
  pose proof (runes_encode (rune_upper <$> t) EmptyString) as E. rewrite str_app_nil_r, app_nil_r in E.
  rewrite E in Hk by (apply Forall_fmap; eapply Forall_impl; [exact Hv|]; intros r; apply upper_valid).
  apply Forall_fmap in Hk. eapply Forall_impl; [exact Hk|]. intros r. unfold compose. intros Hr.
  destruct (r <? 128)%N eqn:E1; [|destruct (upper_to_ascii r) as [->| ->]; [lia|lia|done..]].
  rewrite <- (code_byte r) in Hr |- * by lia. rewrite upper_ascii in Hr by (unfold is_ascii_byte; rewrite code_byte by lia; lia).
  unfold upper_byte, is_lower, between in Hr. unfold letter. case_match; rewrite ?code_byte in * by lia; lia.
Qed.
Lemma lower_letter r : letter r = true ->
  letter (rune_lower r) = true /\ rune_upper (rune_lower r) = rune_upper r /\ rune_lower (rune_lower r) = rune_lower r.
Proof.
  intros H. destruct (r <? 128)%N eqn:E.
  - rewrite <- (code_byte r) by lia. set (c := byte_of r).
    assert (Hc : code c = r) by (apply code_byte; lia). assert (Ha : is_ascii_byte c = true) by (unfold is_ascii_byte; lia).
    destruct (case_ascii c Ha) as [_ Hl]. rewrite !lower_ascii, !upper_ascii by done.
    unfold letter in *. unfold lower_byte, upper_byte, is_lower, is_upper, between in *.
    repeat case_match; rewrite ?code_byte in * by lia; split_and!; try lia; f_equal; try lia.
  - assert (r = 305 \/ r = 383)%N as [->| ->] by (unfold letter in H; lia).
    + by rewrite !lower_dotless.
    + by rewrite !lower_long_s.
Qed.

(** ** The normal form *)

Lemma token_valid t : is_token t -> Forall (fun r => valid_rune r = true) t.
Proof.
  intros [(_ & H & _)|[(r & -> & H)| ->]].
  - eapply Forall_impl; [exact H|]. intros r. unfold word_rune. by intros [[? _]%andb_true_iff _]%andb_true_iff.
  - constructor; [|done]. by apply punct_not_special.
  - by repeat constructor.
Qed.
Lemma letter_facts r : letter r = true -> word_rune r = true /\ r <> DOT /\ neutral r = true.
Proof.
  intros H. unfold word_rune. destruct (isPunctuation r) eqn:Hp.
  { exfalso. unfold isPunctuation, punctuation in Hp. apply bool_decide_eq_true in Hp. cbn in Hp.
    repeat (apply elem_of_cons in Hp as [->|Hp]; [by vm_compute in H|]). by apply elem_of_nil in Hp. }
  unfold letter in H. change DOT with 46%N. unfold valid_rune, surrogate, IsSpace, neutral. split_and!; lia.
Qed.
Lemma letters_word t : t <> [] -> Forall (fun r => letter r = true) t -> is_word t.
Proof.
  intros Hne H. split_and!; [done|eapply Forall_impl; [exact H|]; intros r Hr; by apply letter_facts|].
  intros p s -> Hs. apply Forall_app in H as [_ H]. rewrite app_nil_r.
  destruct H as [|a [|b [|c s]] Ha _]; [done..|]. simpl. apply not_true_iff_false. intros (-> & _)%spread_true.
  by destruct (letter_facts _ Ha) as (_ & ? & _).
Qed.
Lemma keyword_lower t : is_token t -> is_keyword t = true ->
  t <> [] /\ Forall (fun r => letter r = true) t /\ Forall (fun r => letter r = true) (rune_lower <$> t)
  /\ is_keyword (rune_lower <$> t) = true /\ rune_lower <$> (rune_lower <$> t) = rune_lower <$> t.
Proof.
  intros Ht Hk. pose proof (keyword_letters t (token_valid t Ht) Hk) as Hl.
  assert (E : rune_upper <$> (rune_lower <$> t) = rune_upper <$> t
    /\ rune_lower <$> (rune_lower <$> t) = rune_lower <$> t
    /\ Forall (fun r => letter r = true) (rune_lower <$> t)).
  { clear Hk Ht. induction Hl as [|r t Hr Hl (IH1 & IH2 & IH3)]; [done|]. destruct (lower_letter r Hr) as (H1 & H2 & H3).
    simpl. rewrite H2, H3. split_and!; [by f_equal..|by constructor]. }
  destruct E as (E1 & E2 & E3). split_and!; [|done|done| |done].
  - by intros ->.
  - unfold is_keyword in *. by rewrite E1.
Qed.
Lemma normalize_token t : is_token t -> is_token (normalize_runes t).
Proof.
  intros Ht. unfold normalize_runes. destruct (is_keyword t) eqn:Hk; [|done].
  destruct (keyword_lower t Ht Hk) as (Hne & _ & Hl & _). left. apply letters_word; [|done]. by destruct t.
Qed.
Lemma normalize_runes_idem t : is_token t -> normalize_runes (normalize_runes t) = normalize_runes t.
Proof.
  intros Ht. unfold normalize_runes. destruct (is_keyword t) eqn:Hk; [|by rewrite Hk].
  destruct (keyword_lower t Ht Hk) as (_ & _ & _ & Hk' & E). by rewrite Hk', E.
Qed.

Lemma punct_not_keyword r t : Forall (fun r => valid_rune r = true) (r :: t) -> letter r = false ->
  is_keyword (r :: t) = false.
Proof.
  intros Hv Hr. apply not_true_iff_false. intros Hk. pose proof (Forall_inv (keyword_letters _ Hv Hk)) as H. cbn in H. congruence.
Qed.

(** Lower case leaves the literals where they are. *)
Lemma run_letters e i t : Forall (fun r => letter r = true) t ->
  clean (e, i) t = true /\ (quote_run (e, i) t).2 = i.
Proof.
  intros H. revert e. induction H as [|r t Hr H IH]; intros e; [done|].
  destruct (letter_facts r Hr) as (_ & _ & Hn). rewrite clean_neutral by done. destruct (IH false) as [H1 H2].
  split; [done|]. simpl. unfold quote_step. unfold neutral in Hn.
  replace (r =? 34)%N with false by lia. replace (r =? 92)%N with false by lia. done.
Qed.
Lemma clean_flush cur i X :
  clean (false, i) cur = true -> Forall is_token (flush cur) ->
  (forall e, clean (e, (quote_run (false, i) cur).2) X = true) ->
  forall e, clean (e, i) (spaced (normalize_runes <$> flush cur) ++ X) = true.
Proof.
  intros Hc Ht HX e. destruct cur as [|r cur]; [apply HX|]. set (t := r :: cur) in *.
  assert (E : spaced (normalize_runes <$> flush t) = 32%N :: normalize_runes t) by (change (flush t) with [t]; unfold spaced; cbn; by rewrite app_nil_r).
  rewrite E. cbn [app]. rewrite clean_neutral by done. rewrite clean_app. simpl snd.
  apply Forall_inv in Ht. unfold normalize_runes. destruct (is_keyword t) eqn:Hk.
  - destruct (keyword_lower t Ht Hk) as (_ & Hl & Hl' & _).
    destruct (run_letters false i _ Hl') as [-> H2]. destruct (run_letters false i _ Hl) as [_ H3].
    rewrite H3 in HX. destruct (quote_run (false, i) (rune_lower <$> t)) as [e' j]. simpl in H2. subst j. apply HX.
  - rewrite Hc. destruct (quote_run (false, i) t) as [e' j]. apply HX.
Qed.
Lemma clean_normalized rs cur i :
  Forall (fun r => valid_rune r = true) rs -> Forall (fun r => word_rune r = true) cur -> no_spread cur rs ->
  clean (false, i) (cur ++ rs) = true ->
  forall e, clean (e, i) (spaced (normalize_runes <$> tokenize_go cur rs)) = true.
Proof.
  revert rs cur i. refine (well_founded_ind (well_founded_ltof _ (@length N)) _ _).
  intros rs IH cur i Hv Hw Hn Hc e. pose proof (flush_tokens _ _ Hw Hn) as Hf.
  rewrite clean_app in Hc. apply andb_true_iff in Hc as [Hcur Hc].
  destruct rs as [|r rs1].
  { cbn [tokenize_go]. rewrite <- (app_nil_r (spaced _)). by apply clean_flush. }
  apply Forall_cons in Hv as [Hr Hv]. cbn [tokenize_go].
  set (j := (quote_run (false, i) cur).2) in *.
  assert (Hcn : neutral r = true -> clean (false, j) rs1 = true)
    by (intros Hnr; by rewrite clean_neutral in Hc).
  assert (Hsep : forall p rs', rs1 = p ++ rs' -> neutral r = true -> Forall (fun x => neutral x = true) p ->
     forall e, clean (e, j) (spaced (normalize_runes <$> tokenize_go [] rs')) = true).
  { intros p rs' -> Hnr Hp. apply Forall_app in Hv as [_ Hv]. apply IH; [unfold ltof; simpl; rewrite length_app; lia|done|done|apply no_spread_empty|].
    specialize (Hcn Hnr). clear -Hcn Hp. rewrite clean_app in Hcn. apply andb_true_iff in Hcn as [_ Hcn]. simpl.
    assert (H : forall st, st.1 = false -> Forall (fun x => neutral x = true) p -> quote_run st p = (false, st.2)).
    { clear. induction p as [|x p IHp]; intros [e j] He Hp; simpl in He; subst e; [done|].
      apply Forall_cons in Hp as [Hx Hp]. simpl. unfold quote_step, neutral in *. simpl.
      replace (x =? 34)%N with false by lia. replace (x =? 92)%N with false by lia. by apply (IHp (false, j)). }
    by rewrite H in Hcn. }
  destruct (IsSpace r) eqn:Hs.
  { rewrite fmap_app, spaced_app. apply clean_flush; [done..|]. apply (Hsep []); [done| |done].
    unfold neutral. destruct ((r =? 34) || (r =? 92) || (r =? 35))%N eqn:E; [|done]. unfold IsSpace in Hs. lia. }
  assert (Htok : forall t rs' p, rs1 = p ++ rs' -> neutral r = true -> Forall (fun x => neutral x = true) p ->
     Forall (fun x => neutral x = true) t -> is_keyword t = false -> t <> [] ->
     clean (e, i) (spaced (normalize_runes <$> flush cur ++ t :: tokenize_go [] rs')) = true).
  { intros t rs' p E Hnr Hp Ht Hk Hne. rewrite fmap_app, spaced_app. apply clean_flush; [done..|].
    intros e'. rewrite fmap_cons. unfold normalize_runes at 1. rewrite Hk.
    change (spaced (t :: ?x)) with (32%N :: t ++ spaced x).
    rewrite clean_neutral by done. fold j. simpl snd. generalize false as f. clear -Hsep E Hnr Hp Ht.
    induction Ht as [|x t Hx Ht IHt]; intros f; [by apply (Hsep p)|]. cbn [app]. rewrite clean_neutral by done. apply IHt. }
  assert (Hother : spread_head (r :: rs1) = false -> clean (e, i) (spaced (normalize_runes <$>
     (if isPunctuation r then flush cur ++ [r] :: tokenize_go [] rs1 else tokenize_go (cur ++ [r]) rs1))) = true).
  { intros Hh. destruct (isPunctuation r) eqn:Hp.
    - destruct (punct_not_special r Hp) as (Hvr & _ & _ & H1 & H2 & H3 & _).
      assert (Hnr : neutral r = true) by (clear -H1 H2 H3; unfold neutral; lia).
      apply (Htok _ rs1 []); [done..|by constructor| |done].
      apply punct_not_keyword; [by constructor|]. apply not_true_iff_false. intros Hl.
      destruct (letter_facts r Hl) as (Hw' & _). unfold word_rune in Hw'. by rewrite Hp, andb_false_r in Hw'.
    - apply IH; [clear; unfold ltof; simpl; lia|done| |by apply no_spread_push|].
      + apply Forall_app; split; [done|]. constructor; [|done]. unfold word_rune. by rewrite Hr, Hs, Hp.
      + rewrite <- app_assoc. cbn [app]. rewrite clean_app. by rewrite Hcur, Hc. }
  destruct rs1 as [|b [|c rs3]]; [by apply Hother..|]. destruct (spread r b c) eqn:Hd; [|by apply Hother].
  apply spread_true in Hd as (-> & -> & ->). apply (Htok _ rs3 [DOT; DOT]); try done; [by repeat constructor..|].
  apply punct_not_keyword; [by repeat constructor|done].
Qed.

(** The tokens of a query, and the runes of its normal form. *)
Definition query_tokens (query : string) : list (list N) := tokenize_go [] (runes (removeComments query)).
Lemma query_tokens_ok q : Forall is_token (query_tokens q).
Proof. apply tokenize_tokens; [apply runes_valid|done|apply no_spread_empty]. Qed.
Lemma normalized_ok q : Forall is_token (normalize_runes <$> query_tokens q).
Proof. apply Forall_fmap. eapply Forall_impl; [apply query_tokens_ok|]. intros t. apply normalize_token. Qed.
Lemma NormalizeQuery_runes q :
  NormalizeQuery q = encode_runes (joined (normalize_runes <$> query_tokens q)).
Proof.
  unfold NormalizeQuery, tokenize. fold (query_tokens q). rewrite <- join_joined. f_equal.
  rewrite <- !list_fmap_compose. apply list_fmap_ext. intros k t Ht. apply normalizeToken_runes, token_valid.
  eapply Forall_lookup_1; [apply query_tokens_ok|done].
Qed.
Lemma joined_valid ts : Forall is_token ts -> Forall (fun r => valid_rune r = true) (joined ts).
Proof.
  intros H. assert (Hs : Forall (fun r => valid_rune r = true) (spaced ts)).
  { induction H as [|t ts Ht _ IH]; [done|]. simpl. constructor; [done|]. apply Forall_app; split; [by apply token_valid|done]. }
  destruct ts as [|t ts]; [done|]. apply Forall_cons in Hs as [_ Hs]. exact Hs.
Qed.
Lemma normal_runes q : runes (NormalizeQuery q) = joined (normalize_runes <$> query_tokens q).
Proof.
  rewrite NormalizeQuery_runes. pose proof (runes_encode _ EmptyString (joined_valid _ (normalized_ok q))) as E.
  by rewrite str_app_nil_r, app_nil_r in E.
Qed.
(** A normal form has no comments to remove. *)
Lemma comments_normal q : removeComments (NormalizeQuery q) = NormalizeQuery q.
Proof.
  unfold removeComments. apply comments_clean. rewrite clean_runes, normal_runes.
  assert (H : clean (isEscaped EmptyString, false) (spaced (normalize_runes <$> query_tokens q)) = true).
  { apply clean_normalized; [apply runes_valid|done|apply no_spread_empty|]. cbn [app]. rewrite <- clean_runes.
    apply (comments_removed q EmptyString false). }
  destruct (normalize_runes <$> query_tokens q) as [|t ts]; [done|]. exact H.
Qed.
Lemma tokens_normal q : query_tokens (NormalizeQuery q) = normalize_runes <$> query_tokens q.
Proof. unfold query_tokens at 1. rewrite comments_normal, normal_runes. apply tokenize_joined, normalized_ok. Qed.
Lemma normalized_idem q : normalize_runes <$> (normalize_runes <$> query_tokens q) = normalize_runes <$> query_tokens q.
Proof.
  rewrite <- list_fmap_compose. apply list_fmap_ext. intros k t Ht. apply normalize_runes_idem.
  eapply Forall_lookup_1; [apply query_tokens_ok|done].
Qed.
Lemma tokens_strings q : normalizeToken <$> tokenize (removeComments q) = encode_runes <$> (normalize_runes <$> query_tokens q).
Proof.
  unfold tokenize. fold (query_tokens q). rewrite <- !list_fmap_compose. apply list_fmap_ext. intros k t Ht.
  apply normalizeToken_runes, token_valid. eapply Forall_lookup_1; [apply query_tokens_ok|done].
Qed.
Lemma normal_eq_tokens q1 q2 : NormalizeQuery q1 = NormalizeQuery q2 <->
  normalizeToken <$> tokenize (removeComments q1) = normalizeToken <$> tokenize (removeComments q2).
Proof.
  split; [|intros E; unfold NormalizeQuery; by rewrite E].
  intros E. rewrite !tokens_strings, <- !tokens_normal. by rewrite E.
Qed.

(** ** The hashed text *)

(** No opening bracket stands next to a quote in a normal form. *)
Definition bracket_quote : string := String "[" (str1 DQUOTE).
Fixpoint adjacent (a b : N) (l : list N) : bool :=
  match l with
  | x :: (y :: _) as l' => (x =? a)%N && (y =? b)%N || adjacent a b l'
  | _ => false
  end.
Lemma adjacent_middle a b X Y : adjacent a b (X ++ a :: b :: Y) = true.
Proof.
  induction X as [|x X IH]; simpl; [by rewrite !N.eqb_refl|].
  destruct (X ++ a :: b :: Y) eqn:E; [by destruct X|]. by rewrite IH, orb_true_r.
Qed.
Lemma adjacent_app a b X Y : (forall x, Y <> b :: x) ->
  adjacent a b (X ++ Y) = adjacent a b X || adjacent a b Y.
Proof.
  intros HY. induction X as [|x X IH]; [done|]. cbn [app adjacent]. destruct X as [|y X].
  - cbn [app]. destruct Y as [|y Y]; [done|]. destruct (N.eqb_spec y b) as [->|]; [by destruct (HY Y)|]. by rewrite andb_false_r.
  - cbn [app] in *. rewrite IH. by rewrite orb_assoc.
Qed.
Lemma adjacent_absent a b l : a ∉ l -> adjacent a b l = false.
Proof.
  induction l as [|x l IH]; [done|]. rewrite not_elem_of_cons. intros [Hx Hl].
  cbn [adjacent]. destruct l as [|y l]; [done|]. rewrite (IH Hl).
  by rewrite (proj2 (N.eqb_neq _ _) (not_eq_sym Hx)).
Qed.
Lemma token_no_bracket t : is_token t -> adjacent 91 34 t = false.
Proof.
  intros [(_ & H & _)|[(r & -> & H)| ->]]; [|done..]. apply adjacent_absent. intros Hin.
  rewrite Forall_forall in H. specialize (H _ Hin). by vm_compute in H.
Qed.
Lemma normal_no_bracket q X Y : NormalizeQuery q <> X +:+ bracket_quote +:+ Y.
Proof.
  intros E. assert (H : adjacent 91 34 (runes (NormalizeQuery q)) = true).
  { rewrite E. cbn [bracket_quote String.append str1]. rewrite runes_app_ascii by done.
    change (runes (String DQUOTE Y)) with (34%N :: runes Y). apply adjacent_middle. }
  rewrite normal_runes in H.
  assert (Hs : forall ts, Forall is_token ts -> adjacent 91 34 (spaced ts) = false).
  { clear. induction 1 as [|t ts Ht _ IH]; [done|].
    change (spaced (t :: ts)) with ([32%N] ++ (t ++ spaced ts)).
    assert (Htt : adjacent 91 34 (t ++ spaced ts) = false).
    { rewrite adjacent_app; [by rewrite token_no_bracket, IH|]. by destruct ts. }
    cbn [app adjacent]. by destruct (t ++ spaced ts). }
  pose proof (normalized_ok q) as Hok. destruct (normalize_runes <$> query_tokens q) as [|t ts]; [done|].
  apply Forall_cons in Hok as [Ht Hok]. cbn [joined] in H.
  rewrite adjacent_app, token_no_bracket, Hs in H by (done || by destruct ts). done.
Qed.
(** Cutting a text in front of its first bracket and quote. *)
Lemma bracket_split (a1 a2 b1 b2 : string) :
  (forall X Y, a1 <> X +:+ bracket_quote +:+ Y) -> (forall X Y, a2 <> X +:+ bracket_quote +:+ Y) ->
  (b1 = EmptyString \/ exists Y, b1 = bracket_quote +:+ Y) -> (b2 = EmptyString \/ exists Y, b2 = bracket_quote +:+ Y) ->
  a1 +:+ b1 = a2 +:+ b2 -> a1 = a2 /\ b1 = b2.
Proof.
  assert (Hcut : forall c a b1 b2, (forall X Y, String c a <> X +:+ bracket_quote +:+ Y) ->
    (b1 = EmptyString \/ exists Y, b1 = bracket_quote +:+ Y) -> (b2 = EmptyString \/ exists Y, b2 = bracket_quote +:+ Y) ->
    b1 <> String c a +:+ b2).
  { intros c a x y Ha Hx Hy E. destruct Hx as [->|[Z ->]]; [done|]. cbn [bracket_quote str1 String.append] in E.
    injection E as <- E. destruct a as [|d a].
    - destruct Hy as [->|[Y ->]]; done.
    - cbn [String.append] in E. injection E as <- E. by apply (Ha EmptyString a). }
  revert a2. induction a1 as [|c a1 IH]; intros [|d a2] H1 H2 Hb1 Hb2 E.
  - done.
  - by destruct (Hcut d a2 b1 b2 H2 Hb1 Hb2).
  - by destruct (Hcut c a1 b2 b1 H1 Hb2 Hb1).
  - cbn [String.append] in E. injection E as -> E. destruct (IH a2) as [-> ->]; [..|done]; try done.
    + intros X Y ->. by apply (H1 (String d X) Y).
    + intros X Y ->. by apply (H2 (String d X) Y).
Qed.
End Keywords.

(** ** The key *)

Lemma hex_digit_inj a b : (a < 16)%N -> (b < 16)%N -> hex_digit a = hex_digit b -> a = b.
Proof.
  unfold hex_digit. intros Ha Hb E. apply (f_equal code) in E.
  repeat case_match; rewrite !code_byte in E by lia; lia.
Qed.
Lemma hex_pad_inj k n m a b : String.length a = String.length b -> hex_pad k n a = hex_pad k m b ->
  (n mod 16 ^ N.of_nat k = m mod 16 ^ N.of_nat k)%N /\ a = b.
Proof.
  revert n m a b. induction k as [|k IH]; intros n m a b Hl E; cbn [hex_pad] in E.
  { by rewrite !N.mod_1_r. }
  apply IH in E as [E1 E2]; [|simpl; by rewrite Hl]. injection E2 as E2 ->.
  apply hex_digit_inj in E2; [|apply N.mod_lt; lia..]. split; [|done].
  rewrite Nat2N.inj_succ, N.pow_succ_r'. rewrite !N.Div0.mod_mul_r. by rewrite E1, E2.
Qed.
Lemma hex_pad_length k n a : String.length (hex_pad k n a) = (k + String.length a)%nat.
Proof. revert n a. induction k as [|k IH]; intros n a; [done|]. cbn [hex_pad]. rewrite IH. simpl. lia. Qed.
Lemma hex16_inj n m : (n < 2 ^ 64)%N -> (m < 2 ^ 64)%N -> hex16 n = hex16 m -> n = m.
Proof.
  intros Hn Hm E. apply hex_pad_inj in E as [E _]; [|done].
  change (16 ^ N.of_nat 16)%N with (2 ^ 64)%N in E. by rewrite !N.mod_small in E.
Qed.
Lemma str_cons_inj c a b : String c a = String c b -> a = b.
Proof. by intros [= ->]. Qed.
Lemma app_same_length a b x y : String.length x = String.length y -> a +:+ x = b +:+ y -> a = b /\ x = y.
Proof.
  intros Hl. revert b. induction a as [|c a IH]; intros [|d b] E; cbn [String.append] in E.
  - done.
  - subst x. simpl in Hl. rewrite str_length_app in Hl. lia.
  - subst y. simpl in Hl. rewrite str_length_app in Hl. lia.
  - injection E as -> E. by apply IH in E as [-> ->].
Qed.

Section Key.
Context {UT : UnicodeTables} {RC : RuneCase UT} {FT : FloatText} {JT : JsonText}.
Variable xxhash : string -> N.
#[local] Set Default Proof Using "Type".

Lemma vars_text vars : sortedVariablesJSON vars = EmptyString \/ exists Y, sortedVariablesJSON vars = bracket_quote +:+ Y.
Proof.
  unfold sortedVariablesJSON. destruct (_ =? 0) eqn:El; [by left|].
  destruct (sort_strings vars.*1) as [|k ks] eqn:Ek.
  { pose proof (Permutation_length (merge_sort_Permutation str_le vars.*1)) as H.
    change (merge_sort str_le vars.*1) with (sort_strings vars.*1) in H. rewrite Ek, length_fmap in H. simpl in H. lia. }
  cbn [mapR]. destruct (json_value _) as [v|e]; [|by left]. cbn.
  destruct (mapR _ ks) as [ps|e]; [|by left]. right. cbn.
  destruct ps as [|p ps]; cbn; eexists; unfold bracket_quote, str1; cbn; reflexivity.
Qed.
Lemma hashed_text_eq q1 q2 v1 v2 : hashed_text q1 v1 = hashed_text q2 v2 <->
  NormalizeQuery q1 = NormalizeQuery q2 /\ sortedVariablesJSON v1 = sortedVariablesJSON v2.
Proof using RC.
  split; [|by intros [E1 E2]; unfold hashed_text; rewrite E1, E2]. intros E.
  apply bracket_split in E; [done|intros X Y; apply normal_no_bracket..|apply vars_text|apply vars_text].
Qed.

(** *** Runs of blanks *)

Lemma comments_blanks s p b i k :
  let one := removeComments_go b i k (p +:+ String " " s) in
  let two := removeComments_go b i k (p +:+ String " " (String " " s)) in
  one = two \/ exists P S, one = P +:+ String " " S /\ two = P +:+ String " " (String " " S).
Proof.
  revert b i k. induction p as [|c p IH]; intros b i k; cbn [String.append].
  - cbn [removeComments_go]. destruct k; cbn.
    + left. apply comments_before. by rewrite !isEscaped_cons.
    + right. exists EmptyString. destruct i; cbn; eexists; (split; [reflexivity|]); cbn; do 2 f_equal;
        apply comments_before; by rewrite !isEscaped_cons.
  - cbn [removeComments_go]. destruct (k && negb (Ascii.eqb c LF)); [apply IH|].
    destruct (Ascii.eqb c DQUOTE && negb (isEscaped b)); [|destruct (negb i && Ascii.eqb c HASH); [apply IH|]].
    1: destruct (IH (String c b) (negb i) false) as [->|(P & S & -> & ->)].
    3: destruct (IH (String c b) i false) as [->|(P & S & -> & ->)].
    all: try (by left); right; by exists (String c P), S.
Qed.
Lemma tokenize_blanks R L cur : tokenize_go cur (L ++ 32%N :: 32%N :: R) = tokenize_go cur (L ++ 32%N :: R).
Proof.
  revert L cur. refine (well_founded_ind (well_founded_ltof _ (@length N)) _ _).
  intros [|r L] IH cur; [done|]. cbn [app tokenize_go].
  assert (E : forall cur, tokenize_go cur (L ++ 32%N :: 32%N :: R) = tokenize_go cur (L ++ 32%N :: R))
    by (intros ?; apply IH; unfold ltof; simpl; lia).
  rewrite !E. destruct (IsSpace r); [done|].
  assert (H32 : (32 =? DOT)%N = false) by done.
  destruct L as [|b [|c L]]; cbn [app].
  - destruct R as [|x R]; unfold spread; by rewrite H32, !andb_false_r.
  - unfold spread. rewrite H32, !andb_false_r. done.
  - destruct (spread r b c); [|done]. f_equal. f_equal. apply IH. unfold ltof. simpl. lia.
Qed.
Lemma blanks_collapse p s : NormalizeQuery (p +:+ "  " +:+ s) = NormalizeQuery (p +:+ " " +:+ s).
Proof.
  unfold NormalizeQuery, removeComments. do 2 f_equal. unfold tokenize. f_equal.
  change ("  " +:+ s) with (String " " (String " " s)). change (" " +:+ s) with (String " " s).
  destruct (comments_blanks s p EmptyString false false) as [E|(P & S & E1 & E2)]; [by rewrite E|].
  rewrite E1, E2. rewrite !runes_app_ascii by done. change (runes (String " " S)) with (32%N :: runes S). apply tokenize_blanks.
Qed.

(** ** Theorems *)

(** the normal form of a query is a canonical representative of its tokens: normalizing
    again changes nothing, the tokens of the normal form are the tokens of the query with
    keywords in lower case, and two queries have the same normal form exactly when their token
    lists agree up to the case of keywords.  So neither comments, nor blanks between tokens,
    nor the case of keywords split the cache, and nothing else is merged. *)
Theorem normal_form_canonical q q' :
  NormalizeQuery (NormalizeQuery q) = NormalizeQuery q
  /\ tokenize (removeComments (NormalizeQuery q)) = normalizeToken <$> tokenize (removeComments q)
  /\ (NormalizeQuery q = NormalizeQuery q' <->
      normalizeToken <$> tokenize (removeComments q) = normalizeToken <$> tokenize (removeComments q')).
Proof using RC.
  split_and!; [|rewrite tokens_strings, <- tokens_normal; done|apply normal_eq_tokens].
  by rewrite (NormalizeQuery_runes (NormalizeQuery q)), tokens_normal, normalized_idem, NormalizeQuery_runes.
Qed.

(** for a hash that tells the two hashed texts apart, two requests have the same cache
    key exactly when they ask the same data source, with the same tokens up to the case of
    keywords, for the same JSON text of the variables: query and variables are written one
    after the other without a separator, but no boundary between them is ambiguous. *)
Theorem cache_key_separates ds1 ds2 q1 q2 v1 v2 :
  (forall t, (xxhash t < 2 ^ 64)%N) ->
  (xxhash (hashed_text q1 v1) = xxhash (hashed_text q2 v2) -> hashed_text q1 v1 = hashed_text q2 v2) ->
  Generate xxhash ds1 q1 v1 = Generate xxhash ds2 q2 v2 <->
  ds1 = ds2
  /\ normalizeToken <$> tokenize (removeComments q1) = normalizeToken <$> tokenize (removeComments q2)
  /\ sortedVariablesJSON v1 = sortedVariablesJSON v2.
Proof using RC.
  intros H64 Hinj. rewrite <- normal_eq_tokens. unfold Generate. split.
  - intros E. cbn [String.append] in E. injection E as E.
    apply app_same_length in E as [-> E]; [|cbn [String.length]; unfold hex16; by rewrite !hex_pad_length].
    apply (str_cons_inj ":") in E. apply hex16_inj in E; [|apply H64..]. by apply Hinj, hashed_text_eq in E.
  - intros (-> & Hq). by rewrite (proj2 (hashed_text_eq _ _ _ _) Hq).
Qed.

(** the key forgets how many blanks stand in a row, also inside of a string literal:
    whatever precedes and follows, and for every hash function, queries that filter by
    two different literals of this kind share one cached answer. *)
Theorem literal_blanks_collide ds p s vars :
  Generate xxhash ds (p +:+ "  " +:+ s) vars = Generate xxhash ds (p +:+ " " +:+ s) vars.
Proof. unfold Generate, hashed_text. by rewrite blanks_collapse. Qed.
End Key.

(** ** Instances *)

Definition demo_rune_upper (r : N) : N :=
  if (r <? 128)%N then code (upper_byte (byte_of r))
  else if (r =? 305)%N then 73%N else if (r =? 383)%N then 83%N else r.
Definition demo_rune_lower (r : N) : N := if (r <? 128)%N then code (lower_byte (byte_of r)) else r.
Definition demo_tables : UnicodeTables := {|
  uni_to_upper s := encode_runes (demo_rune_upper <$> runes s);
  uni_to_lower s := encode_runes (demo_rune_lower <$> runes s);
|}.
Lemma demo_ascii c : is_ascii_byte c = true ->
  demo_rune_upper (code c) = code (upper_byte c) /\ demo_rune_lower (code c) = code (lower_byte c).
Proof.
  unfold is_ascii_byte, demo_rune_upper, demo_rune_lower, byte_of, code. intros ->. by rewrite ascii_N_embedding.
Qed.
Lemma demo_upper_bound r : (r < 128)%N -> (demo_rune_upper r < 128)%N.
Proof.
  intros H. rewrite <- (code_byte r) by lia. assert (Ha : is_ascii_byte (byte_of r) = true) by (unfold is_ascii_byte; rewrite code_byte; lia).
  destruct (demo_ascii _ Ha) as [-> _]. destruct (case_ascii _ Ha) as [E _]. unfold is_ascii_byte in E. lia.
Qed.
Lemma demo_upper_valid r : valid_rune r = true -> valid_rune (demo_rune_upper r) = true.
Proof.
  intros Hr. destruct (r <? 128)%N eqn:E.
  - assert (H : (demo_rune_upper r < 128)%N) by (apply demo_upper_bound; lia).
    unfold valid_rune, surrogate. lia.
  - unfold demo_rune_upper. rewrite E. by repeat case_match.
Qed.
Lemma demo_upper_to_ascii r : (128 <= r)%N -> (demo_rune_upper r < 128)%N -> r = 305%N \/ r = 383%N.
Proof. unfold demo_rune_upper. intros H1 H2. repeat case_match; lia. Qed.
#[local] Instance demo_case : RuneCase demo_tables.
Proof.
  refine {| rune_upper := demo_rune_upper; rune_lower := demo_rune_lower |}.
  - reflexivity.
  - reflexivity.
  - intros c H. by apply demo_ascii.
  - intros c H. by apply demo_ascii.
  - exact demo_upper_valid.
  - exact demo_upper_to_ascii.
  - reflexivity.
  - reflexivity.
Defined.

(** The query of the tests, and a hash: the length of the text. *)
Definition demo_query : string := "QUERY { users(id: 7) { id # primary key
 ...F } }".
Definition demo_normal : string := "query { users ( id : 7 ) { id ... F } }".
Example normalize_demo : @NormalizeQuery demo_tables demo_query = demo_normal.
Proof. vm_compute. reflexivity. Qed.
(** A comment mark inside of a literal, an escaped quote and a lower case U+017F. *)
Definition demo_literal : string :=
  "{ f(x: " +:+ str1 DQUOTE +:+ "a#b" +:+ String BSLASH (str1 DQUOTE) +:+ "#c" +:+ str1 DQUOTE +:+ ") "
  +:+ String (byte_of 197) (str1 (byte_of 191)) +:+ "UBSCRIPTION }".
Example normalize_literal : @NormalizeQuery demo_tables demo_literal =
  "{ f ( x : " +:+ str1 DQUOTE +:+ "a#b" +:+ String BSLASH (str1 DQUOTE) +:+ "#c" +:+ str1 DQUOTE +:+ " ) "
  +:+ String (byte_of 197) (str1 (byte_of 191)) +:+ "ubscription }".
Proof. vm_compute. reflexivity. Qed.

Lemma normal_form_canonical_witness :
  @NormalizeQuery demo_tables demo_query = @NormalizeQuery demo_tables demo_normal
  /\ @NormalizeQuery demo_tables demo_normal = demo_normal.
Proof.
  destruct (@normal_form_canonical demo_tables demo_case demo_query demo_normal) as (H1 & _ & H3). split.
  - apply (proj2 H3). vm_compute. reflexivity.
  - rewrite normalize_demo in H1. exact H1.
Defined.

#[local] Instance demo_float : FloatText := {| format_float _ := EmptyString; parse_float _ := None |}.
#[local] Instance demo_json : JsonText := {| json_float _ := EmptyString; json_other v := Err ErrEOF |}.
Definition demo_hash (t : string) : N := (N.of_nat (String.length t) mod 2 ^ 64)%N.
Lemma cache_key_separates_witness :
  @Generate demo_tables demo_json demo_hash "sr" demo_query [("id", VInt 1)]
    = @Generate demo_tables demo_json demo_hash "sr" demo_normal [("id", VInt 1)]
  /\ @Generate demo_tables demo_json demo_hash "sr" demo_query [("id", VInt 1)]
     <> @Generate demo_tables demo_json demo_hash "ch" demo_normal [("id", VInt 10)].
Proof.
  assert (H64 : forall t, (demo_hash t < 2 ^ 64)%N) by (intros t; apply N.mod_lt; lia).
  split.
  - apply (@cache_key_separates demo_tables demo_case _ demo_hash "sr" "sr" demo_query demo_normal _ _ H64).
    + intros _. vm_compute. reflexivity.
    + split; [done|]. split; [|done]. vm_compute. reflexivity.
  - intros E. apply (@cache_key_separates demo_tables demo_case _ demo_hash "sr" "ch" demo_query demo_normal _ _ H64) in E.
    + by destruct E.
    + intros Hh. vm_compute in Hh. discriminate.
Defined.
