(* ===== verification/CacheLayer.v ===== *)
(** * internal/cache: the Cache interface and the caching layer

    cache.go and layer.go.  [Cache] is the interface of the backends with the laws the layer
    relies on: a backend may lose entries and its calls may fail, but it never invents or
    mixes up values.  The memory cache implements it.  [CacheLayer.GetOrLoad] is one call
    with no other call for its key in flight, so [singleflight] runs the loader; a nil byte
    slice is the empty string (every caller tests the length only). *)
From S2P Require Import Prelude GoStrings Values GoConv Lru.
From S2P Require MemoryCache.

(** ** cache.go *)

Class Cache (C : Type) := {
  c_get : Z -> string -> C -> result (option string) * C;
  c_set : Z -> string -> string -> Z -> C -> result unit * C;
  c_delete : string -> C -> result unit * C;
  c_delete_prefix : string -> C -> result unit * C;
  c_clear : C -> result unit * C;
}.
(** [holds c k v]: the backend may answer [v] for [k].  [exact_prefix p]: the backend reads [p]
    as the text it is. *)
Class CacheLaws {C} (K : Cache C) := {
  c_valid : C -> Prop;
  holds : C -> string -> string -> Prop;
  exact_prefix : string -> Prop;
  get_valid now k c : c_valid c -> c_valid (c_get now k c).2;
  set_valid now k v ttl c : c_valid c -> c_valid (c_set now k v ttl c).2;
  delete_valid k c : c_valid c -> c_valid (c_delete k c).2;
  prefix_valid p c : c_valid c -> c_valid (c_delete_prefix p c).2;
  clear_valid c : c_valid c -> c_valid (c_clear c).2;
  get_answer now k c v : c_valid c -> (c_get now k c).1 = Ok (Some v) -> holds c k v;
  get_holds now k c k' v : c_valid c -> holds (c_get now k c).2 k' v -> holds c k' v;
  set_holds now k x ttl c k' v : c_valid c ->
    holds (c_set now k x ttl c).2 k' v -> k' = k /\ v = x \/ holds c k' v;
  delete_holds k c k' v : c_valid c -> holds (c_delete k c).2 k' v ->
    holds c k' v /\ ((c_delete k c).1 = Ok tt -> k' <> k);
  prefix_holds p c k v : c_valid c -> holds (c_delete_prefix p c).2 k v ->
    holds c k v /\ (exact_prefix p -> (c_delete_prefix p c).1 = Ok tt -> has_prefix p k = false);
  clear_holds c k v : c_valid c -> holds (c_clear c).2 k v ->
    holds c k v /\ (c_clear c).1 <> Ok tt;
}.

(** ** The codec of the entries *)

(** [encoding/gob] of a byte slice; encoding bytes does not fail. *)
Class Gob := {
  gob_encode : string -> string;
  gob_decode : string -> option string;
}.

(** ** layer.go *)

Definition emptyMarker : string := "__empty__".

Section Layer.
Context {C : Type} `{K : Cache C} `{G : Gob}.

Record CacheLayer := {
  backend : C;
  ttlConfig : gmap string Z;
  defaultTTL : Z;
  jitterPct : Z;
  emptyTTL : Z;
}.
Definition set_backend (c : C) (cl : CacheLayer) : CacheLayer :=
  {| backend := c; ttlConfig := ttlConfig cl; defaultTTL := defaultTTL cl;
     jitterPct := jitterPct cl; emptyTTL := emptyTTL cl |}.
Record CacheLayerConfig := {
  cfgBackend : C;
  cfgTTLConfig : gmap string Z;
  cfgDefaultTTL : Z;
  cfgJitterPct : Z;
  cfgEmptyTTL : Z;
}.
Definition NewCacheLayer (cfg : CacheLayerConfig) : CacheLayer := {|
  backend := cfgBackend cfg;
  ttlConfig := cfgTTLConfig cfg;
  defaultTTL := if cfgDefaultTTL cfg =? 0 then 60 * second else cfgDefaultTTL cfg;
  jitterPct := if cfgJitterPct cfg <? 0 then 0 else cfgJitterPct cfg;
  emptyTTL := if cfgEmptyTTL cfg =? 0 then 30 * second else cfgEmptyTTL cfg;
|}.

Definition ttlForDatasource (cl : CacheLayer) (datasource : string) : Z :=
  default (defaultTTL cl) (ttlConfig cl !! datasource).

(** [rnd] is what [rand.Float64] returned. *)
Definition applyJitter (rnd : spec_float) (cl : CacheLayer) (ttl : Z) : Z :=
  if jitterPct cl <=? 0 then ttl else
  let fsub a b := SFsub prec64 emax64 a b in
  let fadd a b := SFadd prec64 emax64 a b in
  let jitterFraction :=
    float_div (float_mul (fsub (float_mul rnd (float_of_int 2)) (float_of_int 1)) (float_of_int (jitterPct cl)))
      (float_of_int 100) in
  let jittered := int_of_float (float_mul (float_of_int ttl) (fadd (float_of_int 1) jitterFraction)) in
  if jittered <=? 0 then ttl else jittered.

(** The value and whether the loader was called.  [now], [now'] are the instants of the
    lookup and of the store. *)
Definition GetOrLoad (now now' : Z) (rnd : spec_float) (key datasource : string)
    (loader : result string) (cl : CacheLayer) : result string * bool * CacheLayer :=
  let '(r, c) := c_get now key (backend cl) in
  let '(hit, c) :=
    match r with
    | Ok (Some cached) =>
        if String.eqb cached emptyMarker then (Some EmptyString, c)
        else match gob_decode cached with
             | Some decoded => (Some decoded, c)
             | None => (None, (c_delete key c).2)
             end
    | _ => (None, c)
    end in
  match hit with
  | Some v => (Ok v, false, set_backend c cl)
  | None =>
      match loader with
      | Err e => (Err e, true, set_backend c cl)
      | Ok v =>
          let c := if slen v =? 0 then (c_set now' key emptyMarker (emptyTTL cl) c).2
                   else (c_set now' key (gob_encode v) (applyJitter rnd cl (ttlForDatasource cl datasource)) c).2 in
          (Ok v, true, set_backend c cl)
      end
  end.

(** [fmt.Sprintf("cache:%s:", datasource)]. *)
Definition ds_prefix (datasource : string) : string := "cache:" +:+ datasource +:+ ":".
Definition ClearByDatasource (datasource : string) (cl : CacheLayer) : result unit * CacheLayer :=
  let '(r, c) := c_delete_prefix (ds_prefix datasource) (backend cl) in
  (r, set_backend c cl).
Definition ClearAll (cl : CacheLayer) : result unit * CacheLayer :=
  let '(r, c) := c_clear (backend cl) in (r, set_backend c cl).
End Layer.
Arguments CacheLayer : clear implicits.

(** ** The memory cache as a backend *)

Section MemoryBackend.
Context {L : Type} `{LR : LRU L MemoryCache.memoryCacheEntry} {LL : LRULaws LR}.

#[export] Instance memory_backend : Cache (MemoryCache.MemoryCache L) := {|
  c_get now k c := let '(r, c') := MemoryCache.Get now k c in (Ok r, c');
  c_set now k v ttl c := (Ok tt, MemoryCache.Set_ now k v ttl c);
  c_delete k c := (Ok tt, MemoryCache.Delete k c);
  c_delete_prefix p c := (Ok tt, MemoryCache.DeleteByPrefix p c);
  c_clear c := (Ok tt, MemoryCache.Clear c);
|}.

Definition mem_valid (c : MemoryCache.MemoryCache L) : Prop := exists n limit, MemoryCache.Inv n limit 0 c.
Definition mem_holds (c : MemoryCache.MemoryCache L) (k v : string) : Prop :=
  exists e, assoc k (MemoryCache.entries c) = Some e /\ MemoryCache.eValue e = v.

#[export] Instance memory_backend_laws : CacheLaws memory_backend.
Proof.
  refine {| c_valid := mem_valid; holds := mem_holds; exact_prefix _ := True |}; unfold mem_valid, mem_holds.
  - intros now k c (n & limit & HI). simpl. destruct (MemoryCache.Get_facts n limit 0 now k c HI) as (H1 & _).
    destruct (MemoryCache.Get now k c). eauto.
  - intros now k v ttl c (n & limit & HI). destruct (MemoryCache.Set_facts n limit 0 now k v ttl c HI). eauto.
  - intros k c (n & limit & HI). destruct (MemoryCache.Delete_inv n limit 0 k c HI). eauto.
  - intros p c (n & limit & HI).
    destruct (MemoryCache.prefix_loop n limit 0 p (lru_keys (MemoryCache.cache c)) c HI). eauto.
  - intros c (n & limit & HI). destruct (MemoryCache.Clear_facts n limit 0 c eq_refl HI). eauto.
  - intros now k c v (n & limit & HI). simpl. destruct (MemoryCache.Get_facts n limit 0 now k c HI) as (_ & H2 & _).
    destruct (MemoryCache.Get now k c) as [r c']. simpl in *. subst r.
    destruct (assoc k (MemoryCache.entries c)) as [e|] eqn:Hk; [|done].
    destruct (_ <? now); [done|]. intros [= <-]. by exists e.
  - intros now k c k' v (n & limit & HI). simpl. destruct (MemoryCache.Get_facts n limit 0 now k c HI) as (_ & _ & H3).
    destruct (MemoryCache.Get now k c) as [r c']. simpl in *. intros (e & He & <-). eauto.
  - intros now k x ttl c k' v (n & limit & HI) (e & He & <-).
    destruct (MemoryCache.Set_facts n limit 0 now k x ttl c HI) as (_ & _ & H3).
    destruct (H3 _ _ He) as [[-> ->]|[_ ?]]; [by left|right; eauto].
  - intros k c k' v (n & limit & HI) (e & He & <-).
    destruct (MemoryCache.Delete_inv n limit 0 k c HI) as [_ H2]. simpl in He. rewrite H2, drop_key_assoc in He.
    case_decide; [done|]. split; [eauto|done].
  - intros p c k v (n & limit & HI) (e & He & <-).
    destruct (MemoryCache.prefix_loop n limit 0 p (lru_keys (MemoryCache.cache c)) c HI) as [_ H2].
    destruct (H2 k e He) as [Ha Hp]. split; [eauto|]. intros _ _. apply Hp.
    rewrite keys_spec. apply assoc_elem in Ha. apply list_elem_of_fmap. by exists (k, e).
  - intros c k v (n & limit & HI) (e & He & _).
    destruct (MemoryCache.Clear_facts n limit 0 c eq_refl HI) as [_ H2]. simpl in He. by rewrite H2 in He.
Defined.
End MemoryBackend.

(** ** The wire format of [encoding/gob] for one byte slice

    A length-prefixed message: the type id of bytes, a zero, the length, the bytes. *)

(** Big-endian digits, at most eight, before [acc]. *)
Fixpoint be_bytes (fuel : nat) (n : N) (acc : string) : string :=
  match fuel with
  | O => acc
  | S fuel' => if (n =? 0)%N then acc else be_bytes fuel' (n / 256) (String (byte_of (n mod 256)) acc)
  end.
Definition gob_uint (n : N) : string :=
  if (n <? 128)%N then str1 (byte_of n)
  else let b := be_bytes 8 n EmptyString in String (byte_of (256 - N.of_nat (String.length b))) b.
Fixpoint be_val (acc : N) (s : string) : N :=
  match s with EmptyString => acc | String c s' => be_val (acc * 256 + code c) s' end.
Definition gob_read_uint (s : string) : option (N * string) :=
  match s with
  | EmptyString => None
  | String c r =>
      if (code c <? 128)%N then Some (code c, r)
      else let k := N.to_nat (256 - code c) in
           if (8 <? Z.of_nat k) || (Z.of_nat (String.length r) <? Z.of_nat k) then None
           else Some (be_val 0 (str_take k r), str_drop k r)
  end.
Definition gob_type : string := String (byte_of 10) (str1 NUL).
Definition gob_wire_encode (v : string) : string :=
  let inner := gob_type +:+ gob_uint (N.of_nat (String.length v)) +:+ v in
  gob_uint (N.of_nat (String.length inner)) +:+ inner.
Definition gob_wire_decode (s : string) : option string :=
  '(n, r) ← gob_read_uint s;
  if (N.of_nat (String.length r) <? n)%N then None
  else
    let inner := str_take (N.to_nat n) r in
    if negb (has_prefix gob_type inner) then None
    else '(m, body) ← gob_read_uint (str_drop 2 inner);
         if (N.of_nat (String.length body) =? m)%N then Some body else None.
#[export] Instance gob_wire : Gob := {| gob_encode := gob_wire_encode; gob_decode := gob_wire_decode |}.

Class GobLaws (G : Gob) : Prop := {
  gob_roundtrip v : slen v <= 2 ^ 62 -> gob_decode (gob_encode v) = Some v;
  gob_no_marker v : slen v <= 2 ^ 62 -> gob_encode v <> emptyMarker;
}.

Lemma be_val_bytes fuel n acc a :
  (n < 256 ^ N.of_nat fuel)%N ->
  be_val a (be_bytes fuel n acc) = be_val (a * 256 ^ N.of_nat (String.length (be_bytes fuel n acc) - String.length acc) + n) acc
  /\ (String.length acc <= String.length (be_bytes fuel n acc) <= fuel + String.length acc)%nat.
Proof.
  revert n acc a. induction fuel as [|fuel IH]; intros n acc a Hn.
  - simpl in *. assert (n = 0%N) as -> by lia. rewrite Nat.sub_diag. split; [f_equal; lia|lia].
  - cbn [be_bytes]. destruct (N.eqb_spec n 0) as [->|Hn0].
    + rewrite Nat.sub_diag. split; [f_equal; simpl; lia|lia].
    + assert (Hd : (n / 256 < 256 ^ N.of_nat fuel)%N).
      { apply N.Div0.div_lt_upper_bound. rewrite Nat2N.inj_succ, N.pow_succ_r' in Hn. lia. }
      destruct (IH (n / 256)%N (String (byte_of (n mod 256)) acc) a Hd) as [H1 H2]. simpl String.length in *.
      split; [|lia]. rewrite H1. cbn [be_val].
      pose proof (N.mod_lt n 256 ltac:(lia)) as Hm. rewrite code_byte by done. f_equal.
      set (k := String.length (be_bytes fuel _ _)) in *.
      replace (k - String.length acc)%nat with (S (k - S (String.length acc))) by lia.
      rewrite Nat2N.inj_succ, N.pow_succ_r'. pose proof (N.div_mod n 256 ltac:(lia)). lia.
Qed.

Lemma be_bytes_pos fuel n acc : (0 < n)%N -> (0 < fuel)%nat -> (String.length acc < String.length (be_bytes fuel n acc))%nat.
Proof.
  intros Hn Hf. destruct fuel as [|fuel]; [lia|]. cbn [be_bytes]. rewrite (proj2 (N.eqb_neq _ _)) by lia.
  assert (forall fuel n acc, (String.length acc <= String.length (be_bytes fuel n acc))%nat) as Hle.
  { clear. induction fuel as [|fuel IH]; intros n acc; simpl; [done|]. destruct (n =? 0)%N; [done|].
    etrans; [|apply IH]. simpl. lia. }
  pose proof (Hle fuel (n / 256)%N (String (byte_of (n mod 256)) acc)). simpl in *. lia.
Qed.

Lemma gob_uint_roundtrip n r : (n < 2 ^ 64)%N -> gob_read_uint (gob_uint n +:+ r) = Some (n, r).
Proof.
  intros Hn. unfold gob_uint, gob_read_uint. destruct (N.ltb_spec n 128) as [Hs|Hs].
  - simpl. rewrite code_byte by lia. by rewrite (proj2 (N.ltb_lt _ _)).
  - destruct (be_val_bytes 8 n EmptyString 0 Hn) as [Hv Hl].
    pose proof (be_bytes_pos 8 n EmptyString ltac:(lia) ltac:(lia)) as Hp.
    set (b := be_bytes 8 n EmptyString) in *. simpl String.length in Hl, Hp. cbn [String.append].
    rewrite code_byte by lia. rewrite (proj2 (N.ltb_ge _ _)) by lia.
    assert (N.to_nat (256 - (256 - N.of_nat (String.length b))) = String.length b) as -> by lia.
    rewrite str_length_app, str_take_app, str_drop_app.
    destruct (_ || _) eqn:E; [lia|]. rewrite Hv. done.
Qed.

Lemma gob_inner_length v :
  slen v <= 2 ^ 62 -> (N.of_nat (String.length (gob_type +:+ gob_uint (N.of_nat (String.length v)) +:+ v)) < 2 ^ 64)%N.
Proof.
  rewrite slen_length. intros Hv. rewrite !str_length_app. unfold gob_uint. destruct (_ <? 128)%N; [simpl; lia|].
  destruct (be_val_bytes 8 (N.of_nat (String.length v)) EmptyString 0) as [_ Hb]; [simpl; lia|].
  simpl in *. lia.
Qed.

#[export] Instance gob_wire_laws : GobLaws gob_wire.
Proof.
  split; intros v Hv; simpl; pose proof (gob_inner_length v Hv) as Hi; rewrite slen_length in Hv.
  - unfold gob_wire_encode. set (lv := gob_uint (N.of_nat (String.length v))) in *.
    set (inner := gob_type +:+ lv +:+ v) in *. unfold gob_wire_decode.
    rewrite gob_uint_roundtrip by done. unfold mbind, option_bind. rewrite N.ltb_irrefl, Nat2N.id.
    assert (str_take (String.length inner) inner = inner) as ->.
    { rewrite <- (str_app_nil_r inner) at 2. apply str_take_app. }
    assert (has_prefix gob_type inner = true) as -> by apply has_prefix_app. cbn [negb].
    change (str_drop 2 inner) with (lv +:+ v). unfold lv. rewrite gob_uint_roundtrip by lia. by rewrite N.eqb_refl.
  - unfold gob_wire_encode, gob_uint at 1, emptyMarker. set (lv := gob_uint _) in *.
    destruct (N.ltb_spec (N.of_nat (String.length (gob_type +:+ lv +:+ v))) 128).
    + simpl. by intros [=].
    + set (n := N.of_nat (String.length (gob_type +:+ lv +:+ v))) in *. cbn [String.append]. intros Hc.
      apply (f_equal (fun s => match s with String c _ => code c | EmptyString => 0%N end)) in Hc.
      destruct (be_val_bytes 8 n EmptyString 0 Hi) as [_ Hb].
      pose proof (be_bytes_pos 8 n EmptyString ltac:(lia) ltac:(lia)) as Hp.
      set (b := be_bytes 8 n EmptyString) in *. simpl String.length in Hb, Hp. clearbody b n.
      rewrite code_byte in Hc by lia. change (256 - N.of_nat (String.length b) = 95)%N in Hc. lia.
Qed.

(** ** Vocabulary of the theorems *)

Section LayerTheorems.
Context {C : Type} `{K : Cache C} {KL : CacheLaws K} `{G : Gob} {GL : GobLaws G}.
Variable src : string -> string.
Hypothesis src_length : forall k, slen (src k) <= 2 ^ 62.

(** Every entry the backend may answer is the encoding of the value of its key. *)
Definition coherent (c : C) : Prop :=
  forall k raw, holds c k raw ->
    if String.eqb raw emptyMarker then src k = EmptyString else gob_decode raw = Some (src k).

(** The calls of the layer: a load for a key with what its loader would return, and the two
    ways of clearing. *)
Inductive call :=
  | CallLoad (now now' : Z) (rnd : spec_float) (key datasource : string) (loader : result string)
  | CallClear (datasource : string)
  | CallClearAll.
Definition step (x : call) (cl : CacheLayer C) : CacheLayer C :=
  match x with
  | CallLoad now now' rnd key ds loader => (GetOrLoad now now' rnd key ds loader cl).2
  | CallClear ds => (ClearByDatasource ds cl).2
  | CallClearAll => (ClearAll cl).2
  end.
(** The loaders read the same source throughout. *)
Definition faithful (x : call) : Prop :=
  match x with
  | CallLoad _ _ _ key _ (Ok v) => v = src key
  | _ => True
  end.

Lemma store_coherent now k ttl v c :
  c_valid c -> coherent c -> v = (if slen (src k) =? 0 then emptyMarker else gob_encode (src k)) ->
  coherent (c_set now k v ttl c).2.
Proof.
  intros Hv Hc -> k' raw Hh. apply set_holds in Hh as [[-> ->]|Hh]; [|by apply Hc|done].
  destruct (Z.eqb_spec (slen (src k)) 0) as [H0|H0].
  - rewrite String.eqb_refl. rewrite slen_length in H0. destruct (src k); [done|]. simpl in H0. lia.
  - rewrite (proj2 (String.eqb_neq _ _)) by (apply gob_no_marker, src_length). apply gob_roundtrip, src_length.
Qed.

(** One load: the answer, and what it leaves behind. *)
Lemma load_facts now now' rnd key ds loader cl :
  c_valid (backend cl) -> coherent (backend cl) -> faithful (CallLoad now now' rnd key ds loader) ->
  let '(r, called, cl') := GetOrLoad now now' rnd key ds loader cl in
  c_valid (backend cl') /\ coherent (backend cl')
  /\ match r with Ok v => v = src key | Err e => called = true /\ loader = Err e end.
Proof.
  intros Hv Hc Hf. unfold GetOrLoad. pose proof (get_valid now key _ Hv) as Hv1.
  assert (Hc1 : coherent (c_get now key (backend cl)).2) by (intros k raw Hh; apply Hc; by eapply get_holds).
  pose proof (fun v => get_answer now key _ v Hv) as Ha.
  destruct (c_get now key (backend cl)) as [r c1]. simpl in Hv1, Hc1, Ha.
  assert (Hmiss : forall c2, c_valid c2 -> coherent c2 ->
    let '(r, called, cl') :=
      match loader with
      | Err e => (Err e, true, set_backend c2 cl)
      | Ok v =>
          let c := if slen v =? 0 then (c_set now' key emptyMarker (emptyTTL cl) c2).2
                   else (c_set now' key (gob_encode v) (applyJitter rnd cl (ttlForDatasource cl ds)) c2).2 in
          (Ok v, true, set_backend c cl)
      end in
    c_valid (backend cl') /\ coherent (backend cl')
    /\ match r with Ok v => v = src key | Err e => called = true /\ loader = Err e end).
  { intros c2 Hv2 Hc2. destruct loader as [v|e]; [|done]. simpl in Hf. subst v.
    destruct (slen (src key) =? 0) eqn:H0; simpl; (split; [by apply set_valid|]; split; [|done]);
      apply store_coherent; rewrite ?H0; done. }
  destruct r as [[cached|]|]; [|by apply Hmiss..].
  specialize (Ha cached eq_refl). pose proof (Hc _ _ Ha) as Hd.
  destruct (String.eqb cached emptyMarker); [done|]. rewrite Hd. done.
Qed.

Lemma step_coherent x cl :
  c_valid (backend cl) -> coherent (backend cl) -> faithful x ->
  c_valid (backend (step x cl)) /\ coherent (backend (step x cl)).
Proof.
  intros Hv Hc Hf. destruct x as [now now' rnd key ds loader|ds|]; simpl.
  - pose proof (load_facts now now' rnd key ds loader cl Hv Hc Hf) as H.
    destruct (GetOrLoad _ _ _ _ _ _ _) as [[r called] cl']. by destruct H as (? & ? & _).
  - unfold ClearByDatasource. pose proof (prefix_valid (ds_prefix ds) _ Hv).
    pose proof (fun k v => prefix_holds (ds_prefix ds) _ k v Hv) as Hp.
    destruct (c_delete_prefix _ _). simpl in *. split; [done|]. intros k raw Hh. by apply Hc, Hp.
  - unfold ClearAll. pose proof (clear_valid _ Hv). pose proof (fun k v => clear_holds _ k v Hv) as Hp.
    destruct (c_clear _). simpl in *. split; [done|]. intros k raw Hh. by apply Hc, Hp.
Qed.

Lemma steps_coherent xs cl :
  c_valid (backend cl) -> coherent (backend cl) -> Forall faithful xs ->
  let cl' := foldl (fun cl x => step x cl) cl xs in c_valid (backend cl') /\ coherent (backend cl').
Proof.
  revert cl. induction xs as [|x xs IH]; intros cl Hv Hc Hf; simpl; [done|].
  apply Forall_cons in Hf as [Hx Hf]. destruct (step_coherent x cl Hv Hc Hx). by apply IH.
Qed.

(** C23: the layer is transparent.  After any calls whose loaders read the same source, over
    a backend that may lose entries and fail, a load answers the value of its key, from the
    cache or from the loader; it fails only with the error of the loader it called. *)
Theorem cache_layer_transparent xs cl now now' rnd key ds loader :
  c_valid (backend cl) -> coherent (backend cl) -> Forall faithful xs ->
  faithful (CallLoad now now' rnd key ds loader) ->
  let '(r, called, _) := GetOrLoad now now' rnd key ds loader (foldl (fun cl x => step x cl) cl xs) in
  match r with Ok v => v = src key | Err e => called = true /\ loader = Err e end.
Proof.
  intros Hv Hc Hxs Hf. destruct (steps_coherent xs cl Hv Hc Hxs) as [Hv' Hc'].
  pose proof (load_facts now now' rnd key ds loader _ Hv' Hc' Hf) as H.
  destruct (GetOrLoad _ _ _ _ _ _ _) as [[r called] cl']. by destruct H as (_ & _ & ?).
Qed.
End LayerTheorems.

(** clearing a data source is effective where the backend reads its prefix literally: after it
    succeeded, a load for any key of that data source is answered by its loader. *)
Theorem cleared_keys_reload {C} `{K : Cache C} {KL : CacheLaws K} `{G : Gob} ds rest cl now now' rnd ttlname loader :
  c_valid (backend cl) -> exact_prefix (ds_prefix ds) -> (ClearByDatasource ds cl).1 = Ok tt ->
  let '(r, called, _) := GetOrLoad now now' rnd (ds_prefix ds +:+ rest) ttlname loader
                           (ClearByDatasource ds cl).2 in
  called = true /\ r = loader.
Proof.
  intros Hv He. unfold ClearByDatasource.
  pose proof (prefix_valid (ds_prefix ds) _ Hv) as Hv'.
  pose proof (fun k v => prefix_holds (ds_prefix ds) _ k v Hv) as Hp.
  destruct (c_delete_prefix _ _) as [r0 c0]. cbn [fst snd] in *. intros ->.
  set (key := ds_prefix ds +:+ rest).
  assert (Hk : has_prefix (ds_prefix ds) key = true).
  { apply has_prefix_app. }
  unfold GetOrLoad. cbn [backend set_backend]. pose proof (fun v => get_answer now key _ v Hv') as Ha.
  destruct (c_get now key c0) as [[[cached|]|] c1].
  - specialize (Ha cached eq_refl). apply Hp in Ha as [_ Ha]. rewrite Ha in Hk by done. done.
  - by destruct loader.
  - by destruct loader.
Qed.

(** ** Witnesses *)

Definition demo_layer : CacheLayer (MemoryCache.MemoryCache (list_cache MemoryCache.memoryCacheEntry)) :=
  NewCacheLayer {| cfgBackend := MemoryCache.demo_cache; cfgTTLConfig := {[ "sr" := 10 * second ]};
                   cfgDefaultTTL := 0; cfgJitterPct := 0; cfgEmptyTTL := 0 |}.
Definition demo_load (now : Z) (loader : result string) : call :=
  CallLoad now now (S754_zero false) "cache:sr:k" "sr" loader.
Lemma demo_valid : c_valid (backend demo_layer).
Proof.
  destruct (MemoryCache.New_inv (L := list_cache MemoryCache.memoryCacheEntry)
              (UT := {| uni_to_upper s := s; uni_to_lower s := s |})
              MemoryCache.demo_config MemoryCache.demo_cache) as (limit & _ & HI & _); [reflexivity|].
  eexists _, _. exact HI.
Qed.
Lemma demo_coherent (src : string -> string) : coherent src (backend demo_layer).
Proof. intros k raw (e & He & _). discriminate He. Qed.

Lemma cache_layer_transparent_witness :
  let answer := GetOrLoad 5 5 (S754_zero false) "cache:sr:k" "sr" (Err ErrEOF)
                  (foldl (fun cl x => step x cl) demo_layer [demo_load 0 (Ok "data")]) in
  (let '(r, called, _) := answer in
   match r with Ok v => v = "data" | Err e => called = true /\ Err ErrEOF = (Err e : result string) end)
  /\ answer.1 = (Ok "data", false).
Proof.
  split; [|vm_compute; reflexivity].
  exact (cache_layer_transparent (fun _ => "data") ltac:(vm_compute; discriminate)
    [demo_load 0 (Ok "data")] demo_layer 5 5 (S754_zero false) "cache:sr:k" "sr" (Err ErrEOF)
    demo_valid (demo_coherent _) ltac:(repeat constructor) I).
Defined.
Lemma cleared_keys_reload_witness :
  (GetOrLoad 5 5 (S754_zero false) "cache:sr:k" "sr" (Ok "new")
     (ClearByDatasource "sr" (step (demo_load 0 (Ok "old")) demo_layer)).2).1 = (Ok "new", true).
Proof.
  pose proof (cleared_keys_reload "sr" "k" (step (demo_load 0 (Ok "old")) demo_layer) 5 5 (S754_zero false) "sr" (Ok "new")) as H.
  change (ds_prefix "sr" +:+ "k") with "cache:sr:k" in H.
  destruct (GetOrLoad 5 5 (S754_zero false) "cache:sr:k" "sr" (Ok "new") _) as [[r called] cl'].
  simpl. destruct H as [-> ->]; [|exact I|reflexivity|reflexivity].
  apply (step_coherent (fun _ => "old")); [vm_compute; discriminate|exact demo_valid|apply demo_coherent|reflexivity].
Defined.
