(* ===== verification/RedisCache.v ===== *)
(** * internal/cache/redis.go: the cache backend in Redis

    The client and the server behind it are the class [RedisClient]; [RedisLaws] states what
    the commands are documented to do: a scan that starts at cursor 0 and ends when the cursor
    is 0 again has returned every key that matches the pattern and was there all the time.
    Patterns are globs, so a star, a question mark, an opening bracket and a backslash are not
    literal in a prefix. *)
From S2P Require Import Prelude GoStrings Values Lru MemoryCache CacheLayer.

(** The commands; [None] is the answer [redis.Nil]. *)
Class RedisClient (R : Type) := {
  GET : Z -> string -> R -> result (option string) * R;
  SET : Z -> string -> string -> Z -> R -> result unit * R;
  DEL : list string -> R -> result unit * R;
  SCAN : N -> string -> Z -> R -> result (list string * N) * R;
  FLUSHDB : R -> result unit * R;
}.

Definition glob_special : list ascii := ["*"%char; "?"%char; "["%char; BSLASH].
(** A text that is literal in a pattern. *)
Fixpoint plain (p : string) : bool :=
  match p with EmptyString => true | String c p' => negb (existsb (Ascii.eqb c) glob_special) && plain p' end.

(** One pass of the loop of [DeleteByPrefix]: the cursor sent, the keys and the cursor received,
    and the states of the server from the end of the pass before it to its own end. *)
Record Round (R : Type) := { at_ : R; sent : N; keys : list string; next : N; passed : list R }.
Arguments Build_Round {R}. Arguments at_ {R}. Arguments sent {R}. Arguments keys {R}. Arguments next {R}. Arguments passed {R}.
(** A full iteration: it starts at a cursor, goes on with the cursors received and ends at 0. *)
Fixpoint iteration {R} (c : N) (rounds : list (Round R)) : Prop :=
  match rounds with
  | [] => False
  | x :: l => sent x = c /\ match l with [] => next x = 0%N | _ => next x <> 0%N /\ iteration (next x) l end
  end.

Class RedisLaws {R} (RC : RedisClient R) := {
  stored : R -> string -> string -> Prop;
  matches : string -> string -> bool;
  plain_prefix p k : plain p = true -> matches (p +:+ "*") k = has_prefix p k;
  get_stored now k r v : (GET now k r).1 = Ok (Some v) -> stored r k v;
  get_keeps now k r k' v : stored (GET now k r).2 k' v -> stored r k' v;
  set_stored now k x ttl r k' v : stored (SET now k x ttl r).2 k' v -> k' = k /\ v = x \/ stored r k' v;
  del_stored ks r k v : stored (DEL ks r).2 k v -> stored r k v /\ ((DEL ks r).1 = Ok tt -> k ∉ ks);
  scan_keeps c p n r k v : stored (SCAN c p n r).2 k v -> stored r k v;
  scan_matches c p n r ks c' k : (SCAN c p n r).1 = Ok (ks, c') -> k ∈ ks -> matches p k = true;
  (** A full iteration returns every element that is there from its start to its end. *)
  scan_full p n (rounds : list (Round R)) k : iteration 0%N rounds ->
    (forall x, x ∈ rounds -> (SCAN (sent x) p n (at_ x)).1 = Ok (keys x, next x)) ->
    (forall x s, x ∈ rounds -> s = at_ x \/ s ∈ passed x -> exists v, stored s k v) ->
    matches p k = true -> exists x, x ∈ rounds /\ k ∈ keys x;
  flush_stored r k v : stored (FLUSHDB r).2 k v -> stored r k v /\ (FLUSHDB r).1 <> Ok tt;
}.
(** How many more commands an iteration that stands at this cursor takes when nobody else writes:
    it ends when the number of keys stays bounded. *)
Class ScanEnds {R} (RC : RedisClient R) := {
  rounds : R -> N -> nat;
  del_rounds ks r c : (rounds (DEL ks r).2 c <= rounds r c)%nat;
  scan_rounds c p n r ks c' r' : SCAN c p n r = (Ok (ks, c'), r') -> c' <> 0%N -> (rounds r' c' < rounds r c)%nat;
}.

(** The loop of [DeleteByPrefix], at most [fuel] passes of it; no answer when it is still going.
    [others n r] are the states the other clients take the server through from [r] before the
    [n]-th command of the loop. *)
Section Loop.
Context {R : Type} {RC : RedisClient R}.
#[local] Set Default Proof Using "Type".
Variable others : nat -> R -> list R.
Definition end_of (r : R) (l : list R) : R := default r (last l).
Fixpoint delete_loop (fuel n : nat) (pattern : string) (cursor : N) (r : R) : option (result unit) * list (Round R) * R :=
  match fuel with
  | O => (None, [], r)
  | S fuel' =>
      let before := others n r in
      let r0 := end_of r before in
      match SCAN cursor pattern 100 r0 with
      | (Err e, r1) => (Some (Err e), [], r1)
      | (Ok (ks, nextCursor), r1) =>
          let '(d, after) :=
            match ks with
            | [] => (Ok tt, [])
            | _ => let mid := others (S n) r1 in let '(d, r2) := DEL ks (end_of r1 mid) in (d, mid ++ [r2])
            end in
          let round := {| at_ := r0; sent := cursor; keys := ks; next := nextCursor; passed := before ++ r1 :: after |} in
          let r' := end_of r1 after in
          match d with
          | Err e => (Some (Err e), [], r')
          | Ok _ =>
              if N.eqb nextCursor 0 then (Some (Ok tt), [round], r')
              else let '(res, l, r'') := delete_loop fuel' (S (S n)) pattern nextCursor r' in (res, round :: l, r'')
          end
      end
  end.
End Loop.

Section RedisCache.
#[local] Set Default Proof Using "Type".
Context {R : Type} {RC : RedisClient R} {RL : RedisLaws RC} {RE : ScanEnds RC}.

(** Nobody else writes. *)
Definition alone : nat -> R -> list R := fun _ _ => [].
Definition scan_fuel (r : R) : nat := S (rounds r 0).
Definition RedisCache_DeleteByPrefix (prefix : string) (r : R) : result unit * R :=
  let '(res, _, r') := delete_loop alone (scan_fuel r) 0 (prefix +:+ "*") 0 r in (default (Ok tt) res, r').

#[export] Instance redis_backend : Cache R := {|
  c_get := GET;
  c_set := SET;
  c_delete k := DEL [k];
  c_delete_prefix := RedisCache_DeleteByPrefix;
  c_clear := FLUSHDB;
|}.

(** ** The loop *)

Section Facts.
Variable others : nat -> R -> list R.

(** What a pass of the loop that got through leaves behind. *)
Definition good_round (pattern : string) (x : Round R) : Prop :=
  (SCAN (sent x) pattern 100 (at_ x)).1 = Ok (keys x, next x)
  /\ forall k, k ∈ keys x -> exists s, s ∈ passed x /\ forall v, ~ stored s k v.
Lemma delete_loop_rounds fuel : forall n pattern c r res l r', delete_loop others fuel n pattern c r = (res, l, r') ->
  Forall (good_round pattern) l /\ (res = Some (Ok tt) -> iteration c l)
  /\ (res = None <-> length l = fuel /\ Forall (fun x => next x <> 0%N) l) /\ (l <> [] -> sent <$> head l = Some c).
Proof.
  induction fuel as [|fuel IH]; intros n pattern c r res l r' H; cbn [delete_loop] in H; [by simplify_eq|].
  destruct (SCAN c pattern 100 _) as [[[ks c']|e] r1] eqn:Hs; [|simplify_eq; split_and!; [by constructor|done|split; [done|by intros [? _]]|done]].
  set (del := match ks with [] => _ | _ => _ end) in H. destruct del as [d after] eqn:Hd.
  destruct d as [[]|e]; [|simplify_eq; split_and!; [by constructor|done|split; [done|by intros [? _]]|done]].
  assert (Hg : forall r2, good_round pattern {| at_ := end_of r (others n r); sent := c; keys := ks; next := c'; passed := r2 ++ r1 :: after |}).
  { intros r2. split; [simpl; by rewrite Hs|]. simpl. intros k Hk. subst del. destruct ks as [|s ks]; [by apply elem_of_nil in Hk|].
    destruct (DEL (s :: ks) _) as [d' r3] eqn:E. simplify_eq. exists r3.
    split; [rewrite elem_of_app, elem_of_cons, elem_of_app, list_elem_of_singleton; auto|]. intros v Hv.
    pose proof (del_stored (s :: ks) (end_of r1 (others (S n) r1)) k v) as Hdel. rewrite E in Hdel. by apply (proj2 (Hdel Hv)). }
  destruct (N.eqb_spec c' 0) as [Hc|Hc].
  - simplify_eq. split_and!; [by constructor|done|split; [done|]|done]. intros [_ Hf]. rewrite Forall_singleton in Hf. by destruct Hf.
  - destruct (delete_loop others fuel _ pattern c' _) as [[res' l'] r''] eqn:El. simplify_eq.
    apply IH in El as (H1 & H2 & H3 & H4). split_and!; [by constructor| |rewrite H3; simpl; rewrite Forall_cons; naive_solver|done].
    intros Hr. specialize (H2 Hr). simpl. split; [done|]. by destruct l'.
Qed.

(** No matching key is there all the time. *)
Lemma delete_loop_complete fuel n pattern c r l r' k : delete_loop others fuel n pattern c r = (Some (Ok tt), l, r') -> c = 0%N ->
  matches pattern k = true -> ~ (forall x s, x ∈ l -> s = at_ x \/ s ∈ passed x -> exists v, stored s k v).
Proof.
  intros H -> Hm Hall. apply delete_loop_rounds in H as (Hg & Hi & _). rewrite Forall_forall in Hg.
  destruct (scan_full pattern 100 l k) as (x & Hx & Hk); [by apply Hi|by intros x Hx; apply Hg|done|done|].
  destruct (Hg x Hx) as [_ Hd]. destruct (Hd k Hk) as (s & Hs & Hn). destruct (Hall x s Hx) as [v Hv]; [by right|]. by apply (Hn v).
Qed.
End Facts.

(** Alone, nothing appears. *)
Lemma alone_keeps fuel : forall n pattern c r res l r', delete_loop alone fuel n pattern c r = (res, l, r') ->
  forall k v, stored r' k v -> stored r k v /\ forall x s, x ∈ l -> s = at_ x \/ s ∈ passed x -> stored s k v.
Proof.
  induction fuel as [|fuel IH]; intros n pattern c r res l r' H k v Hk; cbn [delete_loop alone end_of last default id from_option] in H.
  { simplify_eq. split; [done|]. by intros x s ?%elem_of_nil. }
  pose proof (scan_keeps c pattern 100 r) as Hkeep. destruct (SCAN c pattern 100 r) as [[[ks c']|e] r1] eqn:Hs; simpl in Hkeep.
  2: { simplify_eq. split; [auto|]. by intros x s ?%elem_of_nil. }
  set (del := match ks with [] => _ | _ => _ end) in H. destruct del as [d after] eqn:Hd.
  assert (Hafter : forall r2, r2 = end_of r1 after -> stored r2 k v -> stored r1 k v /\ forall s, s ∈ after -> stored s k v).
  { intros r2 -> H2. subst del. destruct ks as [|s ks]; [simplify_eq; split; [done|]; by intros s ?%elem_of_nil|].
    destruct (DEL (s :: ks) r1) as [d' r3] eqn:E. simplify_eq. unfold end_of in H2. simpl in H2.
    pose proof (del_stored (s :: ks) r1 k v) as Hdel. rewrite E in Hdel. split; [by apply Hdel|].
    intros s' ->%list_elem_of_singleton. done. }
  destruct d as [[]|e]; [|simplify_eq; destruct (Hafter _ eq_refl Hk); split; [auto|]; by intros x s ?%elem_of_nil].
  assert (Hround : stored (end_of r1 after) k v -> stored r k v /\ forall s, s = r \/ s ∈ r1 :: after -> stored s k v).
  { intros H2. destruct (Hafter _ eq_refl H2) as [H1 Ha]. split; [auto|]. intros s [->|[->|Hin]%elem_of_cons]; auto. }
  destruct (N.eqb c' 0).
  - simplify_eq. destruct (Hround Hk) as [H1 H2]. split; [done|]. intros x s ->%list_elem_of_singleton. simpl. apply H2.
  - destruct (delete_loop alone fuel _ pattern c' _) as [[res' l'] r''] eqn:El. simplify_eq.
    destruct (IH _ _ _ _ _ _ _ El k v Hk) as [H1 H2]. destruct (Hround H1) as [H3 H4]. split; [done|].
    intros x s [->|Hin]%elem_of_cons; [simpl; apply H4|by apply H2].
Qed.
(** Alone, the iteration ends. *)
Lemma alone_ends fuel : forall n pattern c r, (rounds r c < fuel)%nat -> (delete_loop alone fuel n pattern c r).1.1 <> None.
Proof using RE.
  induction fuel as [|fuel IH]; intros n pattern c r Hf; [lia|]. cbn [delete_loop alone end_of last default id from_option].
  destruct (SCAN c pattern 100 r) as [[[ks c']|e] r1] eqn:Hs; [|done].
  set (del := match ks with [] => _ | _ => _ end). destruct del as [d after] eqn:Hd. destruct d; [|done].
  destruct (N.eqb_spec c' 0) as [|Hc]; [done|].
  assert (Hr : (rounds (end_of r1 after) c' < fuel)%nat).
  { pose proof (scan_rounds _ _ _ _ _ _ _ Hs Hc). subst del. destruct ks as [|s ks]; [simplify_eq; unfold end_of; simpl; lia|].
    pose proof (del_rounds (s :: ks) r1 c') as Hr. destruct (DEL (s :: ks) r1) as [d' r3]. simplify_eq. unfold end_of. simpl in *. lia. }
  specialize (IH (S (S n)) pattern c' _ Hr). by destruct (delete_loop alone fuel _ pattern c' _) as [[res' l'] r''].
Qed.

Lemma delete_prefix_stored prefix r k v : stored (RedisCache_DeleteByPrefix prefix r).2 k v ->
  stored r k v /\ ((RedisCache_DeleteByPrefix prefix r).1 = Ok tt -> matches (prefix +:+ "*") k = false).
Proof using RL.
  unfold RedisCache_DeleteByPrefix. pose proof (alone_ends (scan_fuel r) 0 (prefix +:+ "*") 0 r ltac:(unfold scan_fuel; lia)) as He.
  destruct (delete_loop alone (scan_fuel r) 0 (prefix +:+ "*") 0 r) as [[res l] r'] eqn:Hl. cbn [fst snd] in He |- *. intros Hk.
  destruct (alone_keeps _ _ _ _ _ _ _ _ Hl k v Hk) as [H1 H2]. split; [done|]. intros Hok.
  destruct res as [[[]|e]|]; [|done..]. destruct (matches (prefix +:+ "*") k) eqn:Hm; [|done]. exfalso.
  eapply (delete_loop_complete alone); [exact Hl|done|exact Hm|]. intros x s Hx Hs. exists v. by apply (H2 x s).
Qed.

(** Redis keeps what the layer relies on; a prefix is exact only when it is literal. *)
#[export] Instance redis_backend_laws : CacheLaws redis_backend.
Proof using RL.
  refine {| c_valid _ := True; holds := stored; exact_prefix p := plain p = true |}; try done; cbn [c_get c_set c_delete c_delete_prefix c_clear redis_backend].
  - intros now k r v _. apply get_stored.
  - intros now k r k' v _. apply get_keeps.
  - intros now k x ttl r k' v _. apply set_stored.
  - intros k r k' v _ H. destruct (del_stored _ _ _ _ H) as [H1 H2]. split; [done|]. intros Hok ->. by apply (H2 Hok), list_elem_of_singleton.
  - intros p r k v _ H. destruct (delete_prefix_stored _ _ _ _ H) as [H1 H2]. split; [done|].
    intros Hp Hok. rewrite <- plain_prefix by done. auto.
  - intros r k v _. apply flush_stored.
Defined.

End RedisCache.

(** ** A server for the demonstrations

    Redis globs, a table of values with their expiry, and a scan in two rounds: the keys with
    an even last byte, then the others. *)

(** The rest of a bracket expression: whether it admits [c], and what follows it. *)
Fixpoint glob_class (found : bool) (c : ascii) (p : string) : bool * string :=
  match p with
  | EmptyString => (found, EmptyString)
  | String a p1 =>
      if Ascii.eqb a "]" then (found, p1)
      else if Ascii.eqb a BSLASH then
        match p1 with String b p2 => glob_class (found || Ascii.eqb b c) c p2 | EmptyString => (found, EmptyString) end
      else
        match p1 with
        | String d (String b p2) =>
            if Ascii.eqb d "-" then glob_class (found || ((code a <=? code c) && (code c <=? code b))%N) c p2
            else glob_class (found || Ascii.eqb a c) c p1
        | _ => glob_class (found || Ascii.eqb a c) c p1
        end
  end.
Fixpoint glob (fuel : nat) (p s : string) : bool :=
  match fuel with
  | O => false
  | S fuel =>
      match p with
      | EmptyString => String.eqb s EmptyString
      | String a p' =>
          if Ascii.eqb a "*" then
            glob fuel p' s || match s with EmptyString => false | String _ s' => glob fuel p s' end
          else
            match s with
            | EmptyString => false
            | String c s' =>
                if Ascii.eqb a "?" then glob fuel p' s'
                else if Ascii.eqb a "[" then
                  match p' with
                  | String x p1 =>
                      let '(found, rest) := if Ascii.eqb x "^" then let '(f, r) := glob_class false c p1 in (negb f, r)
                                            else glob_class false c p' in
                      found && glob fuel rest s'
                  | EmptyString => false
                  end
                else if Ascii.eqb a BSLASH then
                  match p' with String b p1 => Ascii.eqb b c && glob fuel p1 s' | EmptyString => Ascii.eqb a c && glob fuel p' s' end
                else Ascii.eqb a c && glob fuel p' s'
            end
      end
  end.
Definition demo_matches (p k : string) : bool := glob (S (String.length p + String.length k)) p k.

Notation demo_redis := (gmap string (string * option Z)).
Fixpoint even_key (k : string) : bool :=
  match k with
  | EmptyString => true
  | String c EmptyString => N.even (code c)
  | String _ k' => even_key k'
  end.
#[export] Instance demo_client : RedisClient demo_redis := {|
  GET now k r :=
    (Ok (match r !! k with
         | Some (v, Some x) => if x <? now then None else Some v
         | Some (v, None) => Some v
         | None => None
         end), r);
  SET now k v ttl r := (Ok tt, <[k := (v, if 0 <? ttl then Some (now + ttl) else None)]> r);
  DEL ks r := (Ok tt, foldl (fun r k => delete k r) r ks);
  SCAN c p _ r :=
    let ks := filter (fun k => demo_matches p k && Bool.eqb (even_key k) (c =? 0)%N = true) (map fst (map_to_list r)) in
    (Ok (ks, if (c =? 0)%N then 1%N else 0%N), r);
  FLUSHDB _ := (Ok tt, ∅);
|}.

Lemma glob_star fuel k : (String.length k < fuel)%nat -> glob (S fuel) "*" k = true.
Proof.
  revert k. induction fuel as [|fuel IH]; intros k Hf; [lia|].
  change (glob (S fuel) EmptyString k || match k with EmptyString => false | String _ s' => glob (S fuel) "*" s' end = true).
  destruct k as [|c k]; [done|]. simpl in Hf. rewrite IH by lia. apply orb_true_r.
Qed.
Lemma plain_cons c p : plain (String c p) = true ->
  plain p = true /\ (Ascii.eqb c "*" = false /\ Ascii.eqb c "?" = false /\ Ascii.eqb c "[" = false /\ Ascii.eqb c BSLASH = false).
Proof.
  cbn [plain]. unfold glob_special. cbn [existsb]. intros [H Hp]%andb_true_iff. split; [done|].
  apply negb_true_iff in H. repeat (apply orb_false_iff in H as [? H]). auto.
Qed.
Lemma demo_plain_prefix p k : plain p = true -> demo_matches (p +:+ "*") k = has_prefix p k.
Proof.
  unfold demo_matches. intros Hp. assert (H : forall fuel, (String.length p + String.length k < fuel)%nat ->
    glob (S fuel) (p +:+ "*") k = has_prefix p k).
  { revert k. induction p as [|c p IH]; intros k fuel Hf; [apply glob_star; simpl in Hf; lia|].
    apply plain_cons in Hp as (Hp & E1 & E2 & E3 & E4). cbn [String.append glob]. rewrite E1, E2, E3, E4.
    destruct k as [|d k]; [done|]. simpl in Hf. destruct fuel as [|fuel]; [lia|].
    rewrite (IH Hp k fuel) by lia. done. }
  destruct (S (String.length (p +:+ "*") + String.length k)) eqn:E; [lia|]. injection E as <-.
  rewrite str_length_app. apply H. simpl. lia.
Qed.

Definition demo_stored (r : demo_redis) (k v : string) : Prop := exists x, r !! k = Some (v, x).
Lemma demo_del ks : forall (r : demo_redis) k v, demo_stored (foldl (fun r k => delete k r) r ks) k v -> demo_stored r k v /\ k ∉ ks.
Proof.
  induction ks as [|k0 ks IH]; intros r k v; simpl; [by intros ?; split; [|apply not_elem_of_nil]|].
  intros [[x Hx] Hn]%IH. destruct (decide (k = k0)) as [->|Hne]; [by rewrite lookup_delete_eq in Hx|].
  rewrite lookup_delete_ne in Hx by done. split; [by exists x|]. by apply not_elem_of_cons.
Qed.
Lemma demo_scan c p n (r : demo_redis) ks c' r' : SCAN c p n r = (Ok (ks, c'), r') ->
  r' = r /\ c' = (if (c =? 0)%N then 1%N else 0%N)
  /\ forall k v, demo_stored r k v -> demo_matches p k = true -> even_key k = (c =? 0)%N -> k ∈ ks.
Proof.
  cbn [SCAN demo_client]. intros [= <- <- <-]. split; [done|]. split; [done|].
  intros k v [x Hk] Hm He. apply list_elem_of_filter. split; [by rewrite Hm, He, eqb_reflx|].
  apply list_elem_of_fmap. exists (k, (v, x)). split; [done|]. by apply elem_of_map_to_list.
Qed.
Lemma demo_scan_full p n (rounds : list (Round demo_redis)) k : iteration 0%N rounds ->
  (forall x, x ∈ rounds -> (SCAN (sent x) p n (at_ x)).1 = Ok (keys x, next x)) ->
  (forall x s, x ∈ rounds -> s = at_ x \/ s ∈ passed x -> exists v, demo_stored s k v) ->
  demo_matches p k = true -> exists x, x ∈ rounds /\ k ∈ keys x.
Proof.
  intros Hi Hs Hall Hm.
  assert (H : forall x, x ∈ rounds -> next x = (if (sent x =? 0)%N then 1%N else 0%N) /\ (even_key k = (sent x =? 0)%N -> k ∈ keys x)).
  { intros x Hx. destruct (Hall x (at_ x) Hx ltac:(by left)) as [v Hv]. pose proof (Hs x Hx) as E.
    destruct (SCAN (sent x) p n (at_ x)) as [a r'] eqn:Es. cbn [fst] in E. subst a.
    destruct (demo_scan _ _ _ _ _ _ _ Es) as (_ & Hn & Hin). split; [done|]. intros He. by eapply Hin. }
  destruct rounds as [|x l]; [done|]. destruct Hi as [H0 Hl]. destruct (H x ltac:(by left)) as [Hn Hk]. rewrite H0 in Hn, Hk. simpl in Hn, Hk.
  destruct (even_key k) eqn:He; [exists x; split; [by left|auto]|].
  destruct l as [|y l]; [congruence|]. destruct Hl as [_ [Hy _]]. exists y. split; [by right; left|].
  apply (H y); [by right; left|]. rewrite Hy, Hn. done.
Qed.
#[export] Instance demo_client_laws : RedisLaws demo_client.
Proof.
  refine {| stored := demo_stored; matches := demo_matches; plain_prefix := demo_plain_prefix; scan_full := demo_scan_full |};
    try (cbn [GET SET DEL demo_client fst snd]; unfold demo_stored).
  - intros now k r v. destruct (r !! k) as [[v' [x|]]|]; [destruct (_ <? _); [done|]|..]; intros [= ->]; eauto.
  - done.
  - intros now k x ttl r k' v [y Hy]. destruct (decide (k' = k)) as [->|Hne].
    + rewrite lookup_insert_eq in Hy. left. by simplify_eq.
    + rewrite lookup_insert_ne in Hy by done. right. by exists y.
  - intros ks r k v [??]%demo_del. auto.
  - done.
  - intros c p n r ks c' k [= <- _] Hk. apply list_elem_of_filter in Hk as [Hk _]. by apply andb_true_iff in Hk as [? _].
  - intros r k v [x Hx]. cbn [FLUSHDB demo_client snd] in Hx. by rewrite lookup_empty in Hx.
Defined.
#[export] Instance demo_client_ends : ScanEnds demo_client.
Proof.
  refine {| rounds _ c := if (c =? 0)%N then 1%nat else 0%nat |}; [done|].
  intros c p n r ks c' r' Hs Hc. destruct (demo_scan _ _ _ _ _ _ _ Hs) as (_ & -> & _). destruct (c =? 0)%N; [simpl; lia|done].
Defined.

Definition demo_table : demo_redis :=
  list_to_map [("cache:sr:a", ("1", None)); ("cache:sr:b", ("2", None)); ("cache:other:a", ("3", None))].
(** Both keys of [sr] go, in two rounds of the scan, and the one another client adds between
    them stays. *)
Definition demo_others (n : nat) (r : demo_redis) : list demo_redis :=
  if Nat.eqb n 2 then [<["cache:sr:d" := ("4", None)]> r] else [].

(** A data source named [sales[eu]]: clearing it answers success and leaves its entries, while
    those of a data source named [salese] go. *)
Definition demo_sales : demo_redis :=
  list_to_map [("cache:sales[eu]:a", (gob_wire_encode "old", None)); ("cache:salese:a", ("x", None))].
Example bracket_datasource_not_cleared :
  let '(res, cl) := ClearByDatasource "sales[eu]"
    (NewCacheLayer {| cfgBackend := demo_sales; cfgTTLConfig := ∅; cfgDefaultTTL := 0; cfgJitterPct := 0; cfgEmptyTTL := 0 |}) in
  res = Ok tt /\ map fst (map_to_list (backend cl)) = ["cache:sales[eu]:a"]
  /\ (GetOrLoad 5 5 (SpecFloat.S754_zero false) "cache:sales[eu]:a" "sales[eu]" (Ok "new") cl).1 = (Ok "old", false).
Proof. vm_compute. done. Qed.
