(* ===== verification/TemplateCache.v ===== *)
(** * internal/template/cache.go: cache keys of template queries

    [xxhash.Sum64] is an argument: the theorems hold for every hash function.  A parameter
    map is an association list; [buildSortedParams] sorts its keys. *)
From S2P Require Import Prelude GoStrings Values Pagination Lru CacheLayer.
From S2P Require MemoryCache.


Section Keys.
Context `{GoFmt}.
Variable xxhash : string -> N.

(** [joinStrings] is [strings.Join]. *)
Definition joinStrings (parts : list string) (sep : string) : string := join sep parts.

Definition buildSortedParams (params : list (string * GoVal)) : string :=
  if Z.of_nat (length params) =? 0 then EmptyString else
  joinStrings (map (fun k => k +:+ "=" +:+ sprint (default VNil (assoc k params))) (sort_strings params.*1)) "&".

Definition opt_int (o : option Z) : string := match o with Some n => itoa n | None => "nil" end.
Definition buildCanonicalString (params : list (string * GoVal)) (fields : list string)
    (first offset : option Z) (orderBy : list TemplateOrderByParam) : string :=
  let paramStr := buildSortedParams params in
  let fieldStr := joinStrings (sort_strings fields) "," in
  let obStr := joinStrings (map (fun ob => obField ob +:+ ":" +:+ obDirection ob) orderBy) "," in
  paramStr +:+ "|" +:+ fieldStr +:+ "|" +:+ opt_int first +:+ "|" +:+ opt_int offset +:+ "|" +:+ obStr.

Definition generateCacheKey (templateName : string) (params : list (string * GoVal)) (fields : list string)
    (first offset : option Z) (orderBy : list TemplateOrderByParam) : string :=
  "cache:template:" +:+ templateName +:+ ":"
    +:+ hex16 (xxhash (buildCanonicalString params fields first offset orderBy)).
Definition generateCountCacheKey (templateName : string) (params : list (string * GoVal)) : string :=
  "cache:template:" +:+ templateName +:+ ":" +:+ hex16 (xxhash (buildSortedParams params)) +:+ ":count".

Definition shouldCache (CacheEnabled skipCache : bool) : bool :=
  if negb CacheEnabled then false else if skipCache then false else true.

(** ** Lemmas *)

Lemma assoc_perm {A} (m m' : list (string * A)) k : NoDup m.*1 -> m ≡ₚ m' -> assoc k m = assoc k m'.
Proof.
  intros Hn Hp. assert (Hn' : NoDup m'.*1) by (by rewrite <- Hp).
  destruct (assoc k m) as [v|] eqn:Hk.
  - apply assoc_elem in Hk. rewrite Hp in Hk. symmetry. by apply assoc_NoDup.
  - symmetry. apply assoc_None. rewrite <- Hp. by apply assoc_None.
Qed.

Lemma sort_two a b : str_le a b -> sort_strings [a; b] = [a; b].
Proof.
  intros Hab. unfold sort_strings. eapply (StronglySorted_unique str_le).
  - apply (StronglySorted_merge_sort _).
  - constructor; [constructor; [constructor|constructor]|by constructor].
  - apply merge_sort_Permutation.
Qed.
Lemma sort_one a : sort_strings [a] = [a].
Proof. apply Permutation_singleton_r, merge_sort_Permutation. Qed.

Lemma sorted_params_perm params params' :
  NoDup params.*1 -> params ≡ₚ params' -> buildSortedParams params = buildSortedParams params'.
Proof.
  intros Hn Hp. unfold buildSortedParams. rewrite (Permutation_length Hp).
  rewrite (sort_strings_perm params.*1 params'.*1) by by rewrite Hp.
  destruct (_ =? 0); [done|]. f_equal. apply map_ext. intros k. by rewrite (assoc_perm params params').
Qed.

(** ** Theorems *)

(** equal requests have equal keys: neither key depends on the order in which the
    parameter map is visited, and the data key does not depend on the order of the
    requested fields. *)
Theorem cache_keys_deterministic name params params' fields fields' first offset orderBy :
  NoDup params.*1 -> params ≡ₚ params' -> fields ≡ₚ fields' ->
  generateCacheKey name params fields first offset orderBy
    = generateCacheKey name params' fields' first offset orderBy
  /\ generateCountCacheKey name params = generateCountCacheKey name params'.
Proof.
  intros Hn Hp Hf. unfold generateCacheKey, generateCountCacheKey, buildCanonicalString.
  by rewrite (sorted_params_perm params params'), (sort_strings_perm fields fields').
Qed.

(** different requests can share a key, whatever the hash function.  Values are not
    escaped in the canonical text: for any two parameters, the value of the first can spell
    the second, so a request with one parameter gets the cached result of a request with
    two. *)
Theorem cache_keys_collide name k1 k2 x y fields first offset orderBy :
  str_le k1 k2 -> k1 <> k2 ->
  let p1 := [(k1, VString (x +:+ "&" +:+ k2 +:+ "=" +:+ y))] in
  let p2 := [(k1, VString x); (k2, VString y)] in
  p1 <> p2 /\ generateCacheKey name p1 fields first offset orderBy
             = generateCacheKey name p2 fields first offset orderBy
  /\ generateCountCacheKey name p1 = generateCountCacheKey name p2.
Proof.
  intros Hle Hne p1 p2. split; [done|].
  assert (Hs : buildSortedParams p1 = buildSortedParams p2).
  { unfold buildSortedParams, p1, p2. simpl length. cbn [Z.of_nat Z.eqb fmap list_fmap fst].
    rewrite sort_one, sort_two by done. simpl.
    destruct (decide (k1 = k1)); [|done]. destruct (decide (k1 = k2)); [done|].
    destruct (decide (k2 = k2)); [|done]. simpl. by rewrite !str_app_assoc. }
  unfold generateCacheKey, generateCountCacheKey, buildCanonicalString. by rewrite Hs.
Qed.
End Keys.

(** ** Invalidation *)

Section Invalidation.
Context `{GoFmt} `{G : CacheLayer.Gob} {L : Type} `{LR : LRU L MemoryCache.memoryCacheEntry} {LL : LRULaws LR}.
Variable xxhash : string -> N.
Implicit Types cl : CacheLayer.CacheLayer (MemoryCache.MemoryCache L).

Lemma colon_prefix t ds r :
  str_forallb (fun c => negb (Ascii.eqb c ":")) t = true -> has_prefix t ds = false ->
  has_prefix (ds +:+ ":") (t +:+ r) = false.
Proof.
  revert ds. induction t as [|c t IH]; intros ds; [done|]. intros [Hc Ht]%andb_true_iff.
  destruct ds as [|d ds]; cbn [String.append has_prefix].
  - intros _. destruct (Ascii.eqb_spec ":" c) as [<-|]; [by rewrite Ascii.eqb_refl in Hc|done].
  - rewrite (Ascii.eqb_sym d c). destruct (Ascii.eqb c d); simpl; [by apply IH|done].
Qed.

(** Answers depend on the entry of the key only. *)
Lemma load_same_entry now now' rnd key ds loader n limit cl cl' :
  MemoryCache.Inv n limit 0 (CacheLayer.backend cl) -> MemoryCache.Inv n limit 0 (CacheLayer.backend cl') ->
  assoc key (MemoryCache.entries (CacheLayer.backend cl')) = assoc key (MemoryCache.entries (CacheLayer.backend cl)) ->
  (CacheLayer.GetOrLoad now now' rnd key ds loader cl').1 = (CacheLayer.GetOrLoad now now' rnd key ds loader cl).1.
Proof.
  intros HI HI' Hk. unfold CacheLayer.GetOrLoad. simpl.
  destruct (MemoryCache.Get_facts n limit 0 now key _ HI) as (_ & H1 & _).
  destruct (MemoryCache.Get_facts n limit 0 now key _ HI') as (_ & H2 & _).
  rewrite Hk, <- H1 in H2.
  destruct (MemoryCache.Get now key (CacheLayer.backend cl)) as [r c].
  destruct (MemoryCache.Get now key (CacheLayer.backend cl')) as [r' c']. simpl in H2. subst r'.
  destruct r as [cached|]; [|by destruct loader].
  destruct (String.eqb cached _); [done|]. destruct (CacheLayer.gob_decode cached); [done|]. by destruct loader.
Qed.

(** clearing the cache of a data source does not reach the cached template results.
    Their keys start with [cache:template:], so for a data source whose name does not start
    with [template], a cached template query or count is answered after the clearing, and
    after the mutation that caused it, exactly as before. *)
Theorem datasource_clear_misses_templates ds name params fields first offset orderBy key now now' rnd ttlname loader cl :
  key = generateCacheKey xxhash name params fields first offset orderBy \/ key = generateCountCacheKey xxhash name params ->
  has_prefix "template" ds = false -> CacheLayer.c_valid (CacheLayer.backend cl) ->
  (CacheLayer.GetOrLoad now now' rnd key ttlname loader (CacheLayer.ClearByDatasource ds cl).2).1
  = (CacheLayer.GetOrLoad now now' rnd key ttlname loader cl).1.
Proof.
  intros Hkey Hds (n & limit & HI).
  assert (Hp : has_prefix (CacheLayer.ds_prefix ds) key = false).
  { assert (exists r, key = "cache:" +:+ ("template" +:+ r)) as [r ->].
    { destruct Hkey as [-> | ->]; eexists; reflexivity. }
    unfold CacheLayer.ds_prefix. cbn [String.append has_prefix]. rewrite !Ascii.eqb_refl. cbn [andb].
    by apply (colon_prefix "template"). }
  apply (load_same_entry _ _ _ _ _ _ n limit); [done| |].
  - simpl. unfold MemoryCache.DeleteByPrefix. by apply MemoryCache.prefix_loop.
  - simpl. unfold MemoryCache.DeleteByPrefix. by apply (MemoryCache.prefix_keeps n limit 0).
Qed.
End Invalidation.

(** ** Witnesses *)

Definition demo_fmt : GoFmt := {| fmt_float64 _ := EmptyString; fmt_float32 _ := EmptyString; fmt_opaque _ := EmptyString |}.
Lemma cache_keys_deterministic_witness :
  generateCountCacheKey (H := demo_fmt) (fun _ => 7%N) "t" [("b", VInt 1); ("a", VInt 2)]
  = generateCountCacheKey (H := demo_fmt) (fun _ => 7%N) "t" [("a", VInt 2); ("b", VInt 1)].
Proof.
  refine (proj2 (cache_keys_deterministic (H := demo_fmt) (fun _ => 7%N) "t" [("b", VInt 1); ("a", VInt 2)]
    [("a", VInt 2); ("b", VInt 1)] [] [] None None [] _ _ _)).
  - apply (bool_decide_unpack (NoDup _)). reflexivity.
  - apply perm_swap.
  - reflexivity.
Defined.
Lemma cache_keys_collide_witness :
  generateCountCacheKey (H := demo_fmt) (fun s => Z.to_N (slen s)) "t" [("a", VString "1&b=2")]
  = generateCountCacheKey (H := demo_fmt) (fun s => Z.to_N (slen s)) "t" [("a", VString "1"); ("b", VString "2")].
Proof.
  refine (proj2 (proj2 (cache_keys_collide (H := demo_fmt) (fun s => Z.to_N (slen s)) "t" "a" "b" "1" "2" [] None None [] _ _)));
    [vm_compute; discriminate|discriminate].
Defined.
Lemma datasource_clear_misses_templates_witness :
  let cl := CacheLayer.step (CacheLayer.CallLoad 0 0 (S754_zero false) "cache:template:t:0000000000000007:count" "sr" (Ok "42"))
              CacheLayer.demo_layer in
  (CacheLayer.GetOrLoad 1 1 (S754_zero false) "cache:template:t:0000000000000007:count" "sr" (Ok "43")
     (CacheLayer.ClearByDatasource "sr" cl).2).1 = (Ok "42", false).
Proof.
  intros cl.
  rewrite (datasource_clear_misses_templates (H := demo_fmt) (fun _ => 7%N) "sr" "t" [] [] None None []
    "cache:template:t:0000000000000007:count" 1 1 (S754_zero false) "sr" (Ok "43") cl (or_intror eq_refl) eq_refl).
  - vm_compute. reflexivity.
  - apply (step_coherent (fun _ => "42")); [vm_compute; discriminate|exact demo_valid|apply demo_coherent|reflexivity].
Defined.
