(* ===== verification/TemplateEngine.v ===== *)
(** * internal/template: renderer.go, engine.go and the cached execution of cache.go

    [Execute] is the whole request pipeline as a computation with effects over the state of
    the cache layer; [Reload] and [ListTemplates] are functions of the engine's state.  What
    happens outside one call (the executor, the clock, which branch of a [select] fires) is
    the record [World].  Spans, log output and the latency histograms are left out. *)
From S2P Require Import Prelude GoStrings Values GoConv Sanitizer FuncMap Pagination.
From S2P Require Import TemplateParams TemplateLoader Json Lru CacheLayer TemplateCache Effects.
From S2P Require Auth.

(** internal/template/types.go. *)
Record TemplateQueryRequest := {
  rqTemplate : string; rqParameters : gmap string GoVal; rqFields : list string;
  rqFirst : option Z; rqOffset : option Z; rqOrderBy : list TemplateOrderByParam;
  rqNeedCount : bool; rqSkipCache : bool;
}.
Record TemplateQueryResult := {
  resData : list (list (string * GoVal)); resTotalCount : option Z; resWarnings : list format;
}.

Inductive Event :=
  | EvAcquire
  | EvRelease
  | EvRaw (sql : string)
  | EvCache (template : string) (hit : bool)
  | EvQuery (template : string) (success : bool)
  | EvAudit (entry : LogEntry).

Record ReloadResult := { SuccessCount : Z; rlFailures : list TemplateLoadFailure; rlDuration : Z }.
Record ParamSchemaInfo := { piName : string; piType : string; piRequired : bool; piDefault : option string }.
Record TemplateInfo := {
  tiName : string; tiDescription : string; tiCountEnabled : bool; tiParameters : list ParamSchemaInfo;
}.

Section TemplateEngine.
#[local] Set Default Proof Using "Type".
Context {GF : GoFmt} {FT : FloatText} {GR : GoRegexp} {TT : TextTemplate} {JT : JsonText}.
Context {C : Type} {K : Cache C} {G : Gob}.
Variable xxhash : string -> N.
Variable sha256Hex : string -> string.

Record TemplateEngine := {
  registry : TemplateRegistry;
  config : SQLTemplatesConfig;
  MaxResultRows : Z;
  datasourceName : string;
  cacheLayer : option (CacheLayer C);
  auditLogger : bool;
  metrics : bool;
  lastReloadAt : Z;
  lastReloadResult : option ReloadResult;
}.

(** The instants and the random draw of one cache load. *)
Record LoadClock := { lcNow : Z; lcStore : Z; lcRnd : spec_float }.
Record World := {
  (** rendering ends before [render_timeout] *)
  timely : bool;
  (** the semaphore is acquired before the context ends *)
  got_slot : bool;
  (** [ExecuteRaw] of the page and of the count statement *)
  run_data : string -> result (list (list (string * GoVal)));
  run_count : string -> result (list (list (string * GoVal)));
  data_clock : LoadClock;
  count_clock : LoadClock;
  audit_time : Z;
}.

(** ** renderer.go *)

Definition render_error (msg : string) (args : list arg) : error :=
  NewAPIError ErrInternalTemplateRenderError (Sprintf msg args) 500.
Definition render (w : World) (tmpl : RegisteredTemplate) (params : gmap string GoVal)
    (renderTimeout maxRenderedSQLLen : Z) : result string :=
  if negb (timely w) then
    Err (render_error "template %q render timed out after %s" [AStr (tName tmpl); AVal (VDuration renderTimeout)])
  else
    match tmpl_Execute (tTemplate tmpl) params with
    | Err err => Err (render_error "template %q render failed: %v" [AStr (tName tmpl); AErr err])
    | Ok sql =>
        let rendered := trim_space sql in
        if String.eqb rendered EmptyString then
          Err (render_error "template %q rendered to empty SQL" [AStr (tName tmpl)])
        else if maxRenderedSQLLen <? slen rendered then
          Err (ValidationError ErrValidationUnsafeSQL
                 (Sprintf "rendered SQL length %d exceeds maximum %d bytes" [AInt (slen rendered); AInt maxRenderedSQLLen]))
        else sanitizeSQL rendered
    end.

(** ** Counting *)

(** [json.Number.Int64]: the nearest [int64] of an integer text, 0 of any other. *)
Definition number_int64 (s : string) : Z :=
  match s with
  | String c s' =>
      if Ascii.eqb c "-"%char then clamp64 (- default 0 (parse_digits s'))
      else if Ascii.eqb c "+"%char then clamp64 (default 0 (parse_digits s'))
      else clamp64 (default 0 (parse_digits s))
  | EmptyString => 0
  end.
Definition toInt64 (v : GoVal) : Z :=
  match v with
  | VInt64 val | VInt val => val
  | VFloat64 val => int_of_float val
  | VJSONNumber val => number_int64 val
  | VString val => default 0 (sscanf_d val)
  | _ => 0
  end.
(** A row lists its columns in the order the map is iterated in. *)
Definition extractCount (data : list (list (string * GoVal))) : Z :=
  match data with
  | [] => 0
  | row :: _ =>
      match assoc "total_count" row with
      | Some v => toInt64 v
      | None => match row with kv :: _ => toInt64 kv.2 | [] => 0 end
      end
  end.

(** ** cache.go: execution through the cache *)

Definition cached_load (clk : LoadClock) (key ds : string) (loader : result string) (cl : CacheLayer C)
    : result string * bool * CacheLayer C :=
  GetOrLoad (lcNow clk) (lcStore clk) (lcRnd clk) key ds loader cl.

(** The result, [loaderCalled] (the loader is what sends [sql]) and the cache afterwards. *)
Definition executeWithCache (w : World) (dsName cacheKey sql : string) (cl : option (CacheLayer C))
    : result (list (list (string * GoVal))) * bool * option (CacheLayer C) :=
  match cl with
  | None => (run_data w sql, true, None)
  | Some cl =>
      let loader :=
        data ← run_data w sql;
        match Marshal_rows data with
        | Ok b => Ok b
        | Err err => Err (Wrap (Sprintf "json marshal cache data: %w" [AErr err]) err)
        end in
      let '(raw, loaderCalled, cl') := cached_load (data_clock w) cacheKey dsName loader cl in
      match raw with
      | Err err => (Err err, loaderCalled, Some cl')
      | Ok raw =>
          if slen raw =? 0 then (Ok [], loaderCalled, Some cl')
          else match Unmarshal_rows raw with
               | Ok data => (Ok data, loaderCalled, Some cl')
               | Err err => (Err (Wrap (Sprintf "json unmarshal cached data: %w" [AErr err]) err), loaderCalled, Some cl')
               end
      end
  end.

(** [json.Marshal] and [json.Unmarshal] of an [int64] are its decimal text. *)
Definition executeCount (w : World) (dsName countKey sql : string) (cl : option (CacheLayer C))
    : result Z * bool * option (CacheLayer C) :=
  match cl with
  | None => (extractCount <$> run_count w sql, true, None)
  | Some cl =>
      let loader := (fun data => itoa (extractCount data)) <$> run_count w sql in
      let '(raw, loaderCalled, cl') := cached_load (count_clock w) countKey dsName loader cl in
      match raw with
      | Err err => (Err err, loaderCalled, Some cl')
      | Ok raw =>
          if slen raw =? 0 then (Ok 0, loaderCalled, Some cl')
          else match parse_int raw with
               | Some n => (Ok n, loaderCalled, Some cl')
               | None => (Err (Errorf (Sprintf "json unmarshal cached count: %w" [AStr raw])), loaderCalled, Some cl')
               end
      end
  end.
(** The statement of a loader that was called. *)
Definition sent (sql : string) (loaderCalled : bool) : list Event := if loaderCalled then [EvRaw sql] else [].

(** ** engine.go: Execute *)

Notation T := (ST (option (CacheLayer C)) Event).

Definition datasourceNameForCache (te : TemplateEngine) (tmpl : RegisteredTemplate) : string :=
  match CacheTTL tmpl with Some _ => "template:" +:+ tName tmpl | None => datasourceName te end.
Definition extractPrincipal (identity : option Auth.AuthIdentity) : string :=
  match identity with Some i => Auth.Subject i | None => "anonymous" end.

Definition recordQueryError (te : TemplateEngine) (name : string) : list Event :=
  if metrics te then [EvQuery name false] else [].
Definition recordQuerySuccess (te : TemplateEngine) (name : string) : list Event :=
  if metrics te then [EvQuery name true] else [].
Definition recordCacheResult (te : TemplateEngine) (name : string) (loaderCalled : bool) : list Event :=
  if metrics te then [EvCache name (negb loaderCalled)] else [].

Definition executeCountQuery (te : TemplateEngine) (w : World) (countSQL : string)
    (tmpl : RegisteredTemplate) (templateName : string) (validatedParams : gmap string GoVal)
    (skipCache : bool) : T Z := fun cl =>
  if shouldCache (CacheEnabled tmpl) skipCache && match cl with Some _ => true | None => false end then
    let '(r, called, cl') := executeCount w (datasourceNameForCache te tmpl)
      (generateCountCacheKey xxhash templateName (map_to_list validatedParams)) countSQL cl in
    ((r, sent countSQL called), cl')
  else ((extractCount <$> run_count w countSQL, [EvRaw countSQL]), cl).

(** Step 9: the page, through the cache when the template and the request allow it. *)
Definition execute_page (te : TemplateEngine) (w : World) (req : TemplateQueryRequest)
    (tmpl : RegisteredTemplate) (validatedParams : gmap string GoVal) (wrappedSQL : string)
    : T (list (list (string * GoVal))) :=
  if shouldCache (CacheEnabled tmpl) (rqSkipCache req) then
    let cacheKey := generateCacheKey xxhash (rqTemplate req) (map_to_list validatedParams) (rqFields req)
                      (rqFirst req) (rqOffset req) (rqOrderBy req) in
    fun cl =>
      let '(r, loaderCalled, cl') := executeWithCache w (datasourceNameForCache te tmpl) cacheKey wrappedSQL cl in
      ((r, sent wrappedSQL loaderCalled ++ recordCacheResult te (rqTemplate req) loaderCalled), cl')
  else srun (run_data w wrappedSQL, [EvRaw wrappedSQL]).

(** Step 10. *)
Definition total_count (te : TemplateEngine) (w : World) (req : TemplateQueryRequest)
    (tmpl : RegisteredTemplate) (validatedParams : gmap string GoVal) (renderedSQL : string)
    : T (option Z * list format) :=
  if rqNeedCount req then
    if CountEnabled tmpl then
      tc <~ executeCountQuery te w (wrapWithCount renderedSQL) tmpl (rqTemplate req) validatedParams (rqSkipCache req) ;
      srun (ret (Some tc, []))
    else srun (ret (Some (-1), [Sprintf "totalCount disabled for template %q, returning -1" [AStr (rqTemplate req)]]))
  else srun (ret (None, [])).

Definition Execute (te : TemplateEngine) (w : World) (identity : option Auth.AuthIdentity)
    (req : TemplateQueryRequest) : T TemplateQueryResult :=
  let failed := recordQueryError te (rqTemplate req) in
  sfinally
    (tmpl <~ srun (on_error (lift
       match Get (registry te) (rqTemplate req) with
       | Some tmpl => Ok tmpl
       | None => Err (ValidationError ErrValidationTemplateNotFound (Sprintf "template %q not found" [AStr (rqTemplate req)]))
       end) failed) ;
     validatedParams <~ srun (on_error (lift (validateParams (rqParameters req) (ParamSchemas tmpl))) failed) ;
     renderedSQL <~ srun (on_error (lift (render w tmpl validatedParams (RenderTimeout (config te)) (MaxRenderedSQLLen (config te)))) failed) ;
     wrappedSQL <~ srun (on_error (lift (wrapWithPagination renderedSQL (rqFields req) (rqOrderBy req)
                                           (rqFirst req) (rqOffset req) (MaxResultRows te))) failed) ;
     srun (on_error (lift (guard_err (negb (got_slot w))
             (DatasourceError ErrDatasourceTimeout (Sprintf "template query timed out waiting for semaphore" [])))) failed) ~~
     sfinally
       (srun (emit [EvAcquire]) ~~
        data <~ son_error (execute_page te w req tmpl validatedParams wrappedSQL) failed ;
        tc <~ son_error (total_count te w req tmpl validatedParams renderedSQL) failed ;
        srun (emit (recordQuerySuccess te (rqTemplate req))) ~~
        srun (ret {| resData := data; resTotalCount := tc.1; resWarnings := tc.2 |}))
       (fun _ => [EvRelease]))
    (fun err =>
       if auditLogger te then
         [EvAudit {| Principal := extractPrincipal identity; Time := audit_time w; Operation := "query";
                     Datasource := datasourceName te;
                     Success := match err with None => true | Some _ => false end;
                     ExtraFields := [("template_name", rqTemplate req)] |}]
       else []).

(** ** engine.go: ListTemplates *)

Definition template_info (t : RegisteredTemplate) : TemplateInfo :=
  {| tiName := tName t; tiDescription := Description t; tiCountEnabled := CountEnabled t;
     tiParameters := map (fun p => {| piName := psName p; piType := psType p; piRequired := psRequired p;
                                      piDefault := match psDefault p with VNil => None | d => Some (sprint d) end |})
                       (ParamSchemas t) |}.
Definition ListTemplates (te : TemplateEngine) (first offset : option Z) : list TemplateInfo :=
  let infos := map template_info (GetAll (registry te)) in
  let infos :=
    match offset with
    | Some o => if 0 <? o then (if Z.of_nat (length infos) <=? o then [] else drop (Z.to_nat o) infos) else infos
    | None => infos
    end in
  match first with
  | Some f => if (0 <=? f) && (f <? Z.of_nat (length infos)) then take (Z.to_nat f) infos else infos
  | None => infos
  end.

(** ** engine.go: NewTemplateEngine and Reload *)

(** The zero [time.Time], 1 January of year 1. *)
Definition zero_time : Z := - 62135596800 * second.
Definition NewTemplateEngine (d : Disk) (cfg : SQLTemplatesConfig) (maxResultRows : Z) (ds : string)
    (cl : option (CacheLayer C)) (audit mets : bool) : TemplateEngine :=
  let lr := loadAll sha256Hex d cfg in
  {| registry := Update (Registered lr) (Hashes lr) NewTemplateRegistry; config := cfg;
     MaxResultRows := maxResultRows; datasourceName := ds; cacheLayer := cl; auditLogger := audit;
     metrics := mets; lastReloadAt := zero_time; lastReloadResult := None |}.
(** The capacity of the semaphore. *)
Definition concurrency (cfg : SQLTemplatesConfig) : Z :=
  if MaxConcurrentQueries cfg <=? 0 then 10 else MaxConcurrentQueries cfg.

(** Error isolation: a template that failed to load keeps its old version. *)
Definition retain_old (old : TemplateRegistry) (lr : loadResult) : loadResult :=
  let oldMap : gmap string RegisteredTemplate :=
    list_to_map (map (fun t => (tName t, t)) (rev (GetAll old))) in
  foldl (fun lr f =>
           match oldMap !! flName f with
           | Some t =>
               {| Registered := <[flName f := t]> (Registered lr);
                  Hashes := match GetHash old (flName f) with
                            | Some h => <[flName f := h]> (Hashes lr)
                            | None => Hashes lr
                            end;
                  Failures := Failures lr |}
           | None => lr
           end) lr (Failures lr).
(** [order] is the order this run iterates a map in. *)
Definition changed_names (order : gmap string string -> list (string * string)) (old : TemplateRegistry)
    (hs : gmap string string) : list string :=
  omap (fun nh => match GetHash old nh.1 with
                  | Some h => if String.eqb h nh.2 then None else Some nh.1
                  | None => Some nh.1
                  end) (order hs).
Definition clear_changed (names : list string) (cl : option (CacheLayer C)) : option (CacheLayer C) :=
  match cl with
  | None => None
  | Some cl => Some (foldl (fun cl name => (ClearByDatasource ("template:" +:+ name) cl).2) cl names)
  end.

(** A reload asked for by the mutation is answered with the last result for 10 seconds. *)
Definition cooldown (now : Z) (fromMutation : bool) (te : TemplateEngine) : option ReloadResult :=
  if fromMutation && (time_sub now (lastReloadAt te) <? 10 * second) then lastReloadResult te else None.
(** [now], [t1], [t2], [t3]: the clock at the cooldown test, the start, the end and the stamp. *)
Definition Reload (order : gmap string string -> list (string * string)) (d : Disk)
    (now t1 t2 t3 : Z) (fromMutation : bool) (te : TemplateEngine) : ReloadResult * TemplateEngine :=
  match cooldown now fromMutation te with
  | Some r => (r, te)
  | None =>
      let fresh := loadAll sha256Hex d (config te) in
      let lr := retain_old (registry te) fresh in
      let result := {| SuccessCount := Z.of_nat (size (Registered fresh)); rlFailures := Failures lr;
                       rlDuration := time_sub t2 t1 |} in
      (result,
       {| registry := Update (Registered lr) (Hashes lr) (registry te); config := config te;
          MaxResultRows := MaxResultRows te; datasourceName := datasourceName te;
          cacheLayer := clear_changed (changed_names order (registry te) (Hashes lr)) (cacheLayer te);
          auditLogger := auditLogger te; metrics := metrics te;
          lastReloadAt := t3; lastReloadResult := Some result |})
  end.

(** The watcher's reload: [TemplateWatcher.triggerReload] ignores the cooldown, and starts one. *)
Definition triggerReload (order : gmap string string -> list (string * string)) (d : Disk) (now t1 t2 t3 : Z) (te : TemplateEngine)
    : ReloadResult * TemplateEngine := Reload order d now t1 t2 t3 false te.
Definition DatasourceName (te : TemplateEngine) : string := datasourceName te.
Definition Close (te : TemplateEngine) : option error := None.

(** ** Vocabulary of the theorems *)

Definition raws (log : list Event) : list string :=
  omap (fun e => match e with EvRaw q => Some q | _ => None end) log.
Definition outcomes (log : list Event) : list bool :=
  omap (fun e => match e with EvQuery _ b => Some b | _ => None end) log.
Definition is_audit (e : Event) : bool := match e with EvAudit _ => true | _ => false end.
Definition is_slot (e : Event) : bool := match e with EvAcquire | EvRelease => true | _ => false end.
Definition audit_entry (te : TemplateEngine) (w : World) (identity : option Auth.AuthIdentity)
    (req : TemplateQueryRequest) (success : bool) : list Event :=
  if auditLogger te then
    [EvAudit {| Principal := extractPrincipal identity; Time := audit_time w; Operation := "query";
                Datasource := datasourceName te; Success := success;
                ExtraFields := [("template_name", rqTemplate req)] |}]
  else [].

(** The steps before the semaphore all succeed: the template, its parameters, the SQL it
    renders to and the page statement. *)
Record admitted (te : TemplateEngine) (w : World) (req : TemplateQueryRequest)
    (tmpl : RegisteredTemplate) (ps : gmap string GoVal) (sql wsql : string) : Prop := {
  ad_get : Get (registry te) (rqTemplate req) = Some tmpl;
  ad_params : validateParams (rqParameters req) (ParamSchemas tmpl) = Ok ps;
  ad_render : render w tmpl ps (RenderTimeout (config te)) (MaxRenderedSQLLen (config te)) = Ok sql;
  ad_wrap : wrapWithPagination sql (rqFields req) (rqOrderBy req) (rqFirst req) (rqOffset req) (MaxResultRows te) = Ok wsql;
  ad_slot : got_slot w = true;
}.

(** ** Lemmas *)

Local Ltac run_monad :=
  cbv beta iota zeta delta [sbind sfinally son_error srun on_error finally lift emit ret guard_err negb fst snd].
Local Ltac early := eexists; split; [reflexivity|by left].

Local Ltac late := rewrite ?app_nil_r; cbn [app]; rewrite <- ?app_assoc; reflexivity.

(** The log of a call, path by path. *)
Lemma Execute_log te w id req cl :
  let '((r, log), cl') := Execute te w id req cl in
  exists core, log = core ++ audit_entry te w id req (is_ok r) /\
  ((core = recordQueryError te (rqTemplate req) /\ is_ok r = false /\ cl' = cl) \/
   exists tmpl ps sql wsql, admitted te w req tmpl ps sql wsql /\
     let '((rp, evp), cl1) := execute_page te w req tmpl ps wsql cl in
     match rp with
     | Err e => r = Err e /\ cl' = cl1
                /\ core = EvAcquire :: (evp ++ recordQueryError te (rqTemplate req)) ++ [EvRelease]
     | Ok data =>
         let '((rc, evc), cl2) := total_count te w req tmpl ps sql cl1 in
         cl' = cl2 /\
         match rc with
         | Err e => r = Err e
             /\ core = EvAcquire :: (evp ++ evc ++ recordQueryError te (rqTemplate req)) ++ [EvRelease]
         | Ok tc => r = Ok {| resData := data; resTotalCount := tc.1; resWarnings := tc.2 |}
             /\ core = EvAcquire :: (evp ++ evc ++ recordQuerySuccess te (rqTemplate req)) ++ [EvRelease]
         end
     end).
Proof.
  unfold Execute.
  destruct (Get (registry te) (rqTemplate req)) as [tmpl|] eqn:Hg; run_monad; [|early].
  destruct (validateParams (rqParameters req) (ParamSchemas tmpl)) as [ps|] eqn:Hv; run_monad; [|early].
  destruct (render w tmpl ps _ _) as [sql|] eqn:Hr; run_monad; [|early].
  destruct (wrapWithPagination sql _ _ _ _ _) as [wsql|] eqn:Hw; run_monad; [|early].
  destruct (got_slot w) eqn:Hs; run_monad; [|early].
  assert (Had : admitted te w req tmpl ps sql wsql) by done.
  destruct (execute_page te w req tmpl ps wsql cl) as [[rp evp] cl1] eqn:Hp.
  destruct rp as [data|e]; run_monad.
  - destruct (total_count te w req tmpl ps sql cl1) as [[rc evc] cl2] eqn:Hc. destruct rc as [tc|e]; run_monad.
    + exists (EvAcquire :: (evp ++ evc ++ recordQuerySuccess te (rqTemplate req)) ++ [EvRelease]). split; [late|].
      right. exists tmpl, ps, sql, wsql. split; [done|]. by rewrite Hp, Hc.
    + exists (EvAcquire :: (evp ++ evc ++ recordQueryError te (rqTemplate req)) ++ [EvRelease]). split; [late|].
      right. exists tmpl, ps, sql, wsql. split; [done|]. by rewrite Hp, Hc.
  - exists (EvAcquire :: (evp ++ recordQueryError te (rqTemplate req)) ++ [EvRelease]). split; [late|].
    right. exists tmpl, ps, sql, wsql. split; [done|]. by rewrite Hp.
Qed.

(** Events of a page or count execution: statements and cache metrics. *)
Definition inner (e : Event) : bool := match e with EvRaw _ | EvCache _ _ => true | _ => false end.
Lemma sent_facts sql called : (raws (sent sql called) = [] \/ raws (sent sql called) = [sql]) /\ Forall (fun e => inner e = true) (sent sql called).
Proof. destruct called; split; auto; repeat constructor. Qed.
Lemma page_events te w req tmpl ps wsql cl rp evp cl1 :
  execute_page te w req tmpl ps wsql cl = ((rp, evp), cl1) ->
  (raws evp = [] \/ raws evp = [wsql]) /\ Forall (fun e => inner e = true) evp.
Proof.
  unfold execute_page, srun, recordCacheResult. case_match.
  - destruct (executeWithCache _ _ _ _ _) as [[r called] cl']. intros [= _ <- _].
    destruct (sent_facts wsql called) as [Hr Hi]. unfold raws. rewrite omap_app.
    destruct (metrics te); simpl; rewrite ?app_nil_r; split; auto. apply Forall_app. split; [done|by repeat constructor].
  - intros [= _ <- _]. split; [by right|by repeat constructor].
Qed.
Lemma count_events te w req tmpl ps sql cl rc evc cl2 :
  total_count te w req tmpl ps sql cl = ((rc, evc), cl2) ->
  (raws evc = [] \/ raws evc = [wrapWithCount sql]) /\ Forall (fun e => inner e = true) evc.
Proof.
  unfold total_count. destruct (rqNeedCount req); [|intros [= _ <- _]; auto].
  destruct (CountEnabled tmpl); [|intros [= _ <- _]; auto].
  unfold sbind, executeCountQuery, srun, ret. destruct (shouldCache _ _ && _).
  - destruct (executeCount _ _ _ _ _) as [[r called] cl']. destruct r; intros [= _ <- _]; rewrite ?app_nil_r; apply sent_facts.
  - destruct (run_count w _); intros [= _ <- _]; rewrite ?app_nil_r; apply (sent_facts _ true).
Qed.

Lemma render_sanitized w tmpl ps t n sql : render w tmpl ps t n = Ok sql -> exists raw, sanitizeSQL raw = Ok sql.
Proof. unfold render. intros Hr. repeat (case_match; try discriminate). eauto. Qed.

Lemma raws_app a b : raws (a ++ b) = raws a ++ raws b.
Proof. apply omap_app. Qed.
Lemma raws_slot l : raws (EvAcquire :: l) = raws l.
Proof. done. Qed.
Lemma outcomes_slot l : outcomes (EvAcquire :: l) = outcomes l.
Proof. done. Qed.
Lemma outcomes_app a b : outcomes (a ++ b) = outcomes a ++ outcomes b.
Proof. apply omap_app. Qed.
Lemma raws_audit te w id req b : raws (audit_entry te w id req b) = [].
Proof. unfold audit_entry. by destruct (auditLogger te). Qed.
Lemma raws_error te n : raws (recordQueryError te n) = [].
Proof. unfold recordQueryError. by destruct (metrics te). Qed.
Lemma raws_success te n : raws (recordQuerySuccess te n) = [].
Proof. unfold recordQuerySuccess. by destruct (metrics te). Qed.

(** ** Theorems *)

(** C11: what a template query sends is safe.  It sends nothing, or the page and count
    statements made of the SQL its own template rendered for its validated parameters; each
    is at most once, the page first, and the sanitizer accepts each as it is: one statement
    without a semicolon or comment, every quote closed. *)
Theorem template_statements_safe te w id req cl :
  let '((_, log), _) := Execute te w id req cl in
  raws log = [] \/
  exists tmpl ps sql wsql, admitted te w req tmpl ps sql wsql
    /\ (raws log = [wsql] \/ raws log = [wrapWithCount sql] \/ raws log = [wsql; wrapWithCount sql])
    /\ Forall (fun q => sanitizeSQL q = Ok q) (raws log).
Proof.
  pose proof (Execute_log te w id req cl) as H. destruct (Execute te w id req cl) as [[r log] cl'].
  destruct H as (core & -> & H). rewrite raws_app, raws_audit, app_nil_r.
  destruct H as [(-> & _)|(tmpl & ps & sql & wsql & Had & H)]; [left; apply raws_error|].
  assert (Hs : sanitizeSQL wsql = Ok wsql /\ sanitizeSQL (wrapWithCount sql) = Ok (wrapWithCount sql)).
  { destruct (render_sanitized _ _ _ _ _ _ (ad_render _ _ _ _ _ _ _ Had)) as [raw Hraw].
    split; [by eapply wrapped_scans, Had|by eapply count_scans]. }
  assert (Hcore : exists a b, (a = [] \/ a = [wsql]) /\ (b = [] \/ b = [wrapWithCount sql]) /\ raws core = a ++ b).
  { destruct (execute_page te w req tmpl ps wsql cl) as [[rp evp] cl1] eqn:Hp.
    destruct (page_events _ _ _ _ _ _ _ _ _ _ Hp) as [Hep _].
    destruct rp as [data|e].
    - destruct (total_count te w req tmpl ps sql cl1) as [[rc evc] cl2] eqn:Hc.
      destruct (count_events _ _ _ _ _ _ _ _ _ _ Hc) as [Hec _]. exists (raws evp), (raws evc).
      split; [done|]. split; [done|].
      destruct H as [_ H]. destruct rc; destruct H as [_ ->]; rewrite raws_slot, !raws_app, ?raws_error, ?raws_success; simpl; by rewrite !app_nil_r.
    - exists (raws evp), []. split; [done|]. split; [by left|]. destruct H as (_ & _ & ->).
      rewrite raws_slot, !raws_app, raws_error. simpl. by rewrite !app_nil_r. }
  destruct Hcore as (a & b & [-> | ->] & [-> | ->] & ->); [by left|right; exists tmpl, ps, sql, wsql; split; [done|]..];
    (split; [auto|]); repeat constructor; apply Hs.
Qed.

(** every template query is accounted for once.  Its log is the work, with the statements
    only between acquiring the semaphore and releasing it, one outcome metric that says
    whether it succeeded, and as the last effect one audit entry that says the same. *)
Theorem template_query_accounted te w id req cl :
  let '((r, log), _) := Execute te w id req cl in
  exists core, log = core ++ audit_entry te w id req (is_ok r)
    /\ Forall (fun e => is_audit e = false) core
    /\ outcomes log = (if metrics te then [is_ok r] else [])
    /\ ((raws core = [] /\ Forall (fun e => is_slot e = false) core) \/
        exists mid, core = EvAcquire :: mid ++ [EvRelease] /\ Forall (fun e => is_slot e = false) mid).
Proof.
  pose proof (Execute_log te w id req cl) as H. destruct (Execute te w id req cl) as [[r log] cl'].
  destruct H as (core & -> & H). exists core. split; [done|].
  assert (Ho : forall b, outcomes (audit_entry te w id req b) = []) by (intros b; unfold audit_entry; by destruct (auditLogger te)).
  assert (Hq : forall b : bool, exists q, (if b then recordQuerySuccess te (rqTemplate req) else recordQueryError te (rqTemplate req)) = q
            /\ outcomes q = (if metrics te then [b] else []) /\ Forall (fun e => is_audit e = false /\ is_slot e = false) q).
  { intros b. exists (if metrics te then [EvQuery (rqTemplate req) b] else []).
    unfold recordQuerySuccess, recordQueryError. destruct b, (metrics te); split_and!; try done; by repeat constructor. }
  rewrite outcomes_app, Ho, app_nil_r.
  destruct H as [(-> & -> & _)|(tmpl & ps & sql & wsql & Had & H)].
  { destruct (Hq false) as (q & Eq & Hout & Hf). rewrite Eq, Hout. split_and!; [by eapply Forall_impl; [exact Hf|naive_solver]|done|left].
    rewrite <- Eq. split; [apply raws_error|]. rewrite Eq. eapply Forall_impl; [exact Hf|naive_solver]. }
  assert (Hcore : exists mid q, core = EvAcquire :: (mid ++ q) ++ [EvRelease] /\ Forall (fun e => inner e = true) mid
            /\ q = if is_ok r then recordQuerySuccess te (rqTemplate req) else recordQueryError te (rqTemplate req)).
  { destruct (execute_page te w req tmpl ps wsql cl) as [[rp evp] cl1] eqn:Hp.
    destruct (page_events _ _ _ _ _ _ _ _ _ _ Hp) as [_ Hep]. destruct rp as [data|e].
    - destruct (total_count te w req tmpl ps sql cl1) as [[rc evc] cl2] eqn:Hc.
      destruct (count_events _ _ _ _ _ _ _ _ _ _ Hc) as [_ Hec]. exists (evp ++ evc).
      destruct H as [_ H]. destruct rc; destruct H as [-> ->]; eexists; rewrite (app_assoc evp evc);
        (split; [reflexivity|split; [by apply Forall_app|reflexivity]]).
    - exists evp. destruct H as (-> & _ & ->). eexists. split; [reflexivity|]. by split. }
  destruct Hcore as (mid & q & -> & Hm & Eq). destruct (Hq (is_ok r)) as (q' & Eq' & Hout & Hf). rewrite Eq' in Eq. subst q'.
  assert (Hin : Forall (fun e => is_audit e = false /\ is_slot e = false) mid /\ outcomes mid = []).
  { clear - Hm. induction Hm as [|e l He Hl [IH1 IH2]]; [done|]. destruct e; try discriminate He; (split; [by constructor|exact IH2]). }
  destruct Hin as [Hin Hmid]. split_and!.
  - constructor; [done|]. apply Forall_app. split; [|by repeat constructor].
    apply Forall_app. split; (eapply Forall_impl; [eassumption|naive_solver]).
  - rewrite outcomes_slot, !outcomes_app, Hmid, Hout. simpl. by rewrite app_nil_r.
  - right. exists (mid ++ q). split; [done|]. apply Forall_app. split; (eapply Forall_impl; [eassumption|naive_solver]).
Qed.

(** ** Cached rows *)

Lemma admitted_fun te w req t1 p1 s1 w1 t2 p2 s2 w2 :
  admitted te w req t1 p1 s1 w1 -> admitted te w req t2 p2 s2 w2 -> t1 = t2 /\ p1 = p2 /\ s1 = s2 /\ w1 = w2.
Proof.
  intros [Hg1 Hp1 Hr1 Hw1 _] [Hg2 Hp2 Hr2 Hw2 _]. rewrite Hg1 in Hg2. injection Hg2 as <-.
  rewrite Hp1 in Hp2. injection Hp2 as <-. rewrite Hr1 in Hr2. injection Hr2 as <-.
  rewrite Hw1 in Hw2. by injection Hw2 as <-.
Qed.

(** The data of a successful query is that of its page. *)
Lemma Execute_page_data te w id req tmpl ps sql wsql cl res log cl' :
  admitted te w req tmpl ps sql wsql -> Execute te w id req cl = ((Ok res, log), cl') ->
  exists data, ((execute_page te w req tmpl ps wsql cl).1).1 = Ok data /\ resData res = data.
Proof.
  intros Had HE. pose proof (Execute_log te w id req cl) as H. rewrite HE in H.
  destruct H as (core & _ & [(_ & ? & _)|(tmpl' & ps' & sql' & wsql' & Had' & H)]); [done|].
  destruct (admitted_fun _ _ _ _ _ _ _ _ _ _ _ Had Had') as (<- & <- & <- & <-).
  destruct (execute_page te w req tmpl ps wsql cl) as [[[data|e] evp] cl1]; [|by destruct H].
  exists data. split; [done|]. destruct (total_count te w req tmpl ps sql cl1) as [[[tc|e] evc] cl2];
    destruct H as (_ & Hr & _); [|done]. by injection Hr as ->.
Qed.

Section CachedRows.
Context {KL : CacheLaws K} {GL : GobLaws G} {FL : FloatTextLaws FT}.
Variable src : string -> string.
Hypothesis src_length : forall k, slen (src k) <= 2 ^ 62.

(** what a cached template query returns.  Rows of nil, boolean, integer and string
    columns come back from a query that goes through the cache layer, hit or miss, as the
    JSON they were stored as: with their columns sorted and every integer a [float64], which
    is exact up to [2^53] only.  The same query without the cache returns them as they are. *)
Theorem cached_rows_are_json te w id req tmpl ps sql wsql rows cl res log cl' :
  let key := generateCacheKey xxhash (rqTemplate req) (map_to_list ps) (rqFields req) (rqFirst req)
               (rqOffset req) (rqOrderBy req) in
  admitted te w req tmpl ps sql wsql -> run_data w wsql = Ok rows ->
  Forall (fun row => NoDup row.*1 /\ Forall (fun kv => plain kv.2) row) rows ->
  match cl with
  | Some cl => Marshal_rows rows = Ok (src key) /\ c_valid (backend cl) /\ coherent src (backend cl)
  | None => True
  end ->
  Execute te w id req cl = ((Ok res, log), cl') ->
  resData res = if shouldCache (CacheEnabled tmpl) (rqSkipCache req) && match cl with Some _ => true | None => false end
                then map json_row_view rows else rows.
Proof using Type src_length GL FL.
  intros key Had Hrun Hplain Hcl HE. destruct (Execute_page_data _ _ _ _ _ _ _ _ _ _ _ _ Had HE) as (data & Hd & ->).
  unfold execute_page in Hd. destruct (shouldCache _ _); cbn [andb]; [|unfold srun in Hd; simpl in Hd; congruence].
  fold key in Hd. destruct cl as [cl|]; [|simpl in Hd; congruence]. destruct Hcl as (Hm & Hv & Hc).
  unfold executeWithCache, cached_load in Hd.
  rewrite Hrun in Hd. cbn [mbind result_bind] in Hd. rewrite Hm in Hd.
  pose proof (load_facts src src_length (lcNow (data_clock w)) (lcStore (data_clock w)) (lcRnd (data_clock w)) key
    (datasourceNameForCache te tmpl) (Ok (src key)) cl Hv Hc eq_refl) as Hl.
  destruct (GetOrLoad _ _ _ _ _ _ _) as [[raw called] cl1]. destruct Hl as (_ & _ & Hl).
  destruct raw as [raw|e]; [subst raw|by destruct Hl].
  destruct (rows_roundtrip rows (src key) Hplain Hm) as [Hu Hne].
  assert (slen (src key) =? 0 = false) as Hz by (rewrite slen_length; destruct (src key); [done|simpl; lia]).
  rewrite Hz, Hu in Hd. simpl in Hd. congruence.
Qed.
End CachedRows.

(** ** Reload *)

(** The tables of a registry agree: every template is under its own name, with a hash. *)
Definition registry_wf (r : TemplateRegistry) : Prop :=
  (forall n t, templates r !! n = Some t -> tName t = n) /\
  (forall n, is_Some (templates r !! n) <-> is_Some (hashes r !! n)).

Lemma loads_name d base shared tcs n x :
  loads sha256Hex d base shared tcs n = Some x -> tName x.1 = n /\ n ∈ map tcName tcs.
Proof.
  unfold loads. destruct (find _ tcs) as [tc|] eqn:Hf; [|done]. cbn [mbind option_bind].
  assert (Hin : n ∈ map tcName tcs).
  { destruct (decide (n ∈ map tcName tcs)) as [|Hn]; [done|]. apply find_name_None in Hn. congruence. }
  apply find_some in Hf as [_ Hn%String.eqb_eq].
  destruct (template_name_ok n); [|done].
  assert (Hone : forall y, load_one sha256Hex d base shared tc = inl y -> tName y.1 = tcName tc).
  { unfold load_one. intros y Hy. repeat (case_match; try done). by injection Hy as <-. }
  destruct (load_one _ _ _ _ tc) as [y|]; [|done]. intros [= <-]. rewrite <- Hn at 1. auto.
Qed.

Lemma loadAll_wf d cfg : registry_wf {| templates := Registered (loadAll sha256Hex d cfg); hashes := Hashes (loadAll sha256Hex d cfg) |}.
Proof.
  split; intros n; simpl; destruct (loadAll_lookup sha256Hex d cfg n) as [-> Hh]; [clear Hh|rewrite Hh].
  - intros t. destruct (loads _ _ _ _ _ n) as [x|] eqn:Hl; [|done]. intros [= <-]. by apply loads_name in Hl as [? _].
  - by rewrite !fmap_is_Some.
Qed.

Lemma old_map_lookup r n : registry_wf r ->
  (list_to_map (map (fun t => (tName t, t)) (rev (GetAll r))) : gmap string RegisteredTemplate) !! n = templates r !! n.
Proof.
  intros [Hn _].
  assert (Hp : map (fun t => (tName t, t)) (rev (GetAll r)) ≡ₚ map_to_list (templates r)).
  { unfold GetAll. rewrite <- Permutation_rev, merge_sort_Permutation.
    assert (Hl : Forall (fun kt : string * RegisteredTemplate => tName kt.2 = kt.1) (map_to_list (templates r))).
    { apply Forall_forall. intros [k t] Hk%elem_of_map_to_list. by apply Hn. }
    induction Hl as [|[k t] l Hk Hl IH]; [done|]. simpl in *. by rewrite IH, Hk. }
  rewrite <- (list_to_map_to_list (templates r)). f_equal. apply list_to_map_proper; [|done].
  rewrite Hp. apply NoDup_fst_map_to_list.
Qed.

Lemma retain_loop old fs lr n : registry_wf old ->
  let keep {A} (o : option A) (x : option A) :=
    if bool_decide (n ∈ map flName fs) then match o with Some _ => o | None => x end else x in
  let lr' := foldl (fun lr f =>
               match (list_to_map (map (fun t => (tName t, t)) (rev (GetAll old))) : gmap string RegisteredTemplate) !! flName f with
               | Some t =>
                   {| Registered := <[flName f := t]> (Registered lr);
                      Hashes := match GetHash old (flName f) with
                                | Some h => <[flName f := h]> (Hashes lr)
                                | None => Hashes lr
                                end;
                      Failures := Failures lr |}
               | None => lr
               end) lr fs in
  Registered lr' !! n = keep (templates old !! n) (Registered lr !! n)
  /\ Hashes lr' !! n = keep (hashes old !! n) (Hashes lr !! n)
  /\ Failures lr' = Failures lr.
Proof.
  clear xxhash sha256Hex. intros Hwf. revert lr. induction fs as [|f fs IH]; intros lr; [done|]. cbn [foldl map].
  rewrite old_map_lookup by done. destruct Hwf as [_ Hdom].
  destruct (templates old !! flName f) as [t|] eqn:Ht.
  - destruct (proj1 (Hdom (flName f)) ltac:(by eexists)) as [h Hh].
    assert (GetHash old (flName f) = Some h) as -> by done. edestruct IH as (-> & -> & ->). simpl. destruct (decide (n = flName f)) as [->|Hne].
    + rewrite !lookup_insert_eq, Ht, Hh, (bool_decide_eq_true_2 (flName f ∈ flName f :: _)) by left.
      by case_bool_decide.
    + rewrite !lookup_insert_ne by done.
      rewrite (bool_decide_ext (n ∈ flName f :: map flName fs) (n ∈ map flName fs)); [done|].
      rewrite elem_of_cons. naive_solver.
  - edestruct IH as (-> & -> & ->). assert (Hh : hashes old !! flName f = None).
    { destruct (hashes old !! flName f) eqn:E; [|done]. destruct (proj2 (Hdom (flName f)) ltac:(by eexists)). congruence. }
    destruct (decide (n = flName f)) as [->|Hne].
    + rewrite Ht, Hh. by repeat case_bool_decide.
    + rewrite (bool_decide_ext (n ∈ flName f :: map flName fs) (n ∈ map flName fs)); [done|].
      rewrite elem_of_cons. naive_solver.
Qed.

(** What the configured file of a name loads now. *)
Definition fresh (d : Disk) (cfg : SQLTemplatesConfig) (n : string) : option (RegisteredTemplate * string) :=
  loads sha256Hex d (BaseDir cfg) (shared_fragments d cfg) (Templates cfg) n.

Lemma retained d te n : NoDup (map tcName (Templates (config te))) -> registry_wf (registry te) ->
  let lr := retain_old (registry te) (loadAll sha256Hex d (config te)) in
  let keep {A} (x : option A) (old : option A) :=
    match x with Some _ => x | None => if bool_decide (n ∈ map tcName (Templates (config te))) then old else None end in
  Registered lr !! n = keep (fst <$> fresh d (config te) n) (templates (registry te) !! n)
  /\ Hashes lr !! n = keep (snd <$> fresh d (config te) n) (hashes (registry te) !! n)
  /\ Failures lr = Failures (loadAll sha256Hex d (config te)).
Proof.
  clear xxhash. intros Hn Hwf lr keep. unfold lr, retain_old.
  destruct (retain_loop (registry te) (Failures (loadAll sha256Hex d (config te))) (loadAll sha256Hex d (config te)) n Hwf)
    as (-> & -> & ->).
  destruct (loadAll_lookup sha256Hex d (config te) n) as [-> ->].
  pose proof (loadAll_failures sha256Hex d (config te) n Hn) as Hf. unfold keep, fresh. clear lr keep.
  destruct (loads _ _ _ _ _ n) as [x|].
  - rewrite bool_decide_eq_false_2 by (rewrite Hf; naive_solver). done.
  - rewrite (bool_decide_ext _ _ (iff_trans Hf (and_comm _ _))).
    rewrite (bool_decide_ext _ (n ∈ map tcName (Templates (config te)))) by naive_solver. simpl.
    case_bool_decide; [|done]. by destruct (templates (registry te) !! n), (hashes (registry te) !! n).
Qed.

Lemma changed_spec order old hs n : (forall m, order m ≡ₚ map_to_list m) ->
  n ∈ changed_names order old hs <-> exists h, hs !! n = Some h /\ hashes old !! n <> Some h.
Proof.
  intros Hord. unfold changed_names. rewrite list_elem_of_omap. unfold GetHash. split.
  - intros ([k h] & Hin & Hc). rewrite Hord in Hin. apply elem_of_map_to_list in Hin. cbn [fst snd] in Hc.
    destruct (hashes old !! k) as [h'|] eqn:Hk; [destruct (String.eqb_spec h' h); [done|]|];
      injection Hc as <-; exists h; (split; [done|]); congruence.
  - intros (h & Hh & Hne). exists (n, h). rewrite Hord. split; [by apply elem_of_map_to_list|]. cbn [fst snd].
    destruct (hashes old !! n) as [h'|]; [|done]. by rewrite (proj2 (String.eqb_neq h' h)) by congruence.
Qed.

(** C27: reload isolates errors.  When the configured names differ, a reload that is not
    answered by the cooldown gives every configured name the version its file loads now; a
    name that fails to load keeps its old version and hash, and is reported; names no longer
    configured go.  The cached results of exactly the names with a new hash are cleared, and
    the registry stays well formed. *)
Theorem reload_isolates order d now t1 t2 t3 fm te :
  NoDup (map tcName (Templates (config te))) -> registry_wf (registry te) ->
  (forall m, order m ≡ₚ map_to_list m) ->
  let '(res, te') := Reload order d now t1 t2 t3 fm te in
  match cooldown now fm te with
  | Some r => res = r /\ te' = te
  | None =>
      (forall n, n ∉ map tcName (Templates (config te)) -> templates (registry te') !! n = None) /\
      (forall n, n ∈ map tcName (Templates (config te)) ->
         (templates (registry te') !! n, hashes (registry te') !! n) =
         match fresh d (config te) n with
         | Some (t, h) => (Some t, Some h)
         | None => (templates (registry te) !! n, hashes (registry te) !! n)
         end /\
         (n ∈ map flName (rlFailures res) <-> fresh d (config te) n = None)) /\
      (exists names, cacheLayer te' = clear_changed names (cacheLayer te) /\
         forall n, n ∈ names <-> exists h, hashes (registry te') !! n = Some h /\ hashes (registry te) !! n <> Some h) /\
      registry_wf (registry te')
  end.
Proof.
  clear xxhash. intros Hn Hwf Hord. unfold Reload. destruct (cooldown now fm te) as [r|]; [done|]. cbn [registry cacheLayer rlFailures].
  set (lr := retain_old _ _).
  assert (Hl : forall n, _) by exact (fun n => retained d te n Hn Hwf). fold lr in Hl. cbn [Update templates hashes].
  split_and!.
  - intros n Hnot. destruct (Hl n) as (-> & _ & _). unfold fresh.
    destruct (loads _ _ _ _ _ n) eqn:E; [by apply loads_name in E as [_ ?]|]. simpl. by rewrite bool_decide_eq_false_2.
  - intros n Hin. destruct (Hl n) as (-> & -> & ->). rewrite (bool_decide_eq_true_2 _ Hin), loadAll_failures by done.
    unfold fresh. split; [destruct (loads _ _ _ _ _ n) as [[]|]; done|naive_solver].
  - eexists. split; [reflexivity|]. intros n. by apply changed_spec.
  - destruct Hwf as [Hname Hdom]. split; intros n; cbn [Update templates hashes]; destruct (Hl n) as (-> & Hh & _); [clear Hh|rewrite Hh].
    + intros t. destruct (fresh d (config te) n) as [x|] eqn:E; simpl.
      * intros [= <-]. by apply loads_name in E as [? _].
      * case_bool_decide; [|done]. apply Hname.
    + destruct (fresh d (config te) n) as [x|]; simpl; [split; by eexists|]. case_bool_decide; [apply Hdom|done].
Qed.

(** The hash is of the template file alone. *)
Lemma fresh_hash d cfg n t h : fresh d cfg n = Some (t, h) ->
  exists tc content, find (fun tc => String.eqb (tcName tc) n) (Templates cfg) = Some tc
    /\ readTemplateFile d (path_join (BaseDir cfg) (tcFile tc)) = Ok content /\ h = sha256Hex content.
Proof.
  unfold fresh, loads. destruct (find _ _) as [tc|]; [|done]. cbn [mbind option_bind].
  destruct (template_name_ok n); [|done]. unfold load_one.
  destruct (readTemplateFile d _) as [content|] eqn:Hc; [|done]. intros Hl. exists tc, content.
  split; [done|]. split; [done|]. repeat (case_match; try done). by simplify_eq.
Qed.

(** an edited fragment does not reach cached results.  When all configured templates
    loaded at start-up and since then only shared fragments changed on disk, a reload takes
    the new versions of the templates but leaves the cache layer as it is, so results of the
    old SQL are still answered. *)
Theorem fragment_edits_keep_cache order d1 d2 cfg mx ds cl au me now t1 t2 t3 fm :
  let te := NewTemplateEngine d1 cfg mx ds cl au me in
  NoDup (map tcName (Templates cfg)) -> (forall m, order m ≡ₚ map_to_list m) ->
  (forall tc, tc ∈ Templates cfg ->
     let p := path_join (BaseDir cfg) (tcFile tc) in
     os_Stat d2 p = os_Stat d1 p /\ os_ReadFile d2 p = os_ReadFile d1 p) ->
  (forall n, n ∈ map tcName (Templates cfg) -> fresh d1 cfg n <> None) ->
  let te' := (Reload order d2 now t1 t2 t3 fm te).2 in
  cacheLayer te' = cl /\
  forall n t h, fresh d2 cfg n = Some (t, h) -> templates (registry te') !! n = Some t.
Proof.
  intros te Hn Hord Hsame Hall. unfold Reload.
  assert (Hcool : cooldown now fm te = None) by (unfold cooldown; simpl; by case_match).
  rewrite Hcool. cbn [fst snd registry cacheLayer config]. set (lr := retain_old _ _).
  assert (Hl : forall n, _) by exact (fun n => retained d2 te n Hn (loadAll_wf d1 cfg)). fold lr in Hl.
  split; [|intros n t h E; cbn [Update templates]; destruct (Hl n) as (-> & _ & _); change (config te) with cfg; by rewrite E].
  assert (changed_names order (registry te) (Hashes lr) = []) as ->; [|by destruct cl].
  apply elem_of_nil_inv. intros n (h & Hh & Hne)%changed_spec; [|done]. destruct (Hl n) as (_ & Hl' & _).
  rewrite Hl' in Hh. change (config te) with cfg in Hh. clear lr Hl Hl'.
  assert (Hold : hashes (registry te) !! n = snd <$> fresh d1 cfg n) by apply loadAll_lookup.
  destruct (fresh d2 cfg n) as [[t2' h2]|] eqn:E2.
  - injection Hh as ->. apply fresh_hash in E2 as (tc & content & Hf & Hc & ->).
    pose proof (find_some _ _ Hf) as [Hin%list_elem_of_In Hnm%String.eqb_eq].
    destruct (fresh d1 cfg n) as [[t0 h0]|] eqn:E1.
    + apply fresh_hash in E1 as (tc' & content' & Hf' & Hc' & ->). assert (tc' = tc) as -> by congruence.
      destruct (Hsame tc Hin) as [Hst Hrd]. unfold readTemplateFile in Hc, Hc'. rewrite Hst, Hrd in Hc.
      apply Hne. rewrite Hold. simpl. do 2 f_equal. congruence.
    + apply (Hall n); [|done]. rewrite <- Hnm. by apply list_elem_of_fmap_2.
  - simpl in Hh. case_bool_decide; [|done]. by apply Hne.
Qed.
End TemplateEngine.

(** ** Witnesses *)

(** A template engine whose templates are their text followed by the last fragment. *)
Definition demo_tt : TextTemplate := {|
  Fragments := string; no_fragments := EmptyString; parse_fragment content _ := Ok content;
  Template := string; clone_parse _ content shared := Ok (content +:+ shared); tmpl_Execute t _ := Ok t;
|}.
Definition demo_json : JsonText := {| json_float _ := EmptyString; json_other v := Err ErrEOF |}.
Definition demo_file (fragment : string) : Disk := {|
  os_Stat p := if String.eqb p "t/a.tmpl" then StatInfo 20 false
               else if String.eqb p "t/_shared" then StatInfo 0 true else StatNotExist;
  os_ReadFile p := if String.eqb p "t/a.tmpl" then Ok "SELECT id FROM o " else Ok fragment;
  WalkDir _ := [{| wPath := "t/_shared/f.sql.tmpl"; wName := "f.sql.tmpl"; wErr := false; wIsDir := false |}];
|}.
Definition demo_template (name : string) : TemplateConfig := {|
  tcName := name; tcFile := "a.tmpl"; tcDescription := EmptyString; tcCacheEnabled := None; tcCacheTTL := None;
  tcCountEnabled := None; tcParameters := [];
|}.
Definition demo_config : SQLTemplatesConfig := {|
  BaseDir := "t"; SharedDir := EmptyString; RenderTimeout := second; MaxRenderedSQLLen := 100;
  MaxConcurrentQueries := 4; Templates := [demo_template "orders"];
|}.
Definition demo_engine : TemplateEngine (GR := demo_regexp) (TT := demo_tt) :=
  NewTemplateEngine (FT := demo_text) (GR := demo_regexp) (TT := demo_tt) (fun s => s)
    (demo_file "WHERE x=1") demo_config 100 "sr" (Some demo_layer) true true.
Definition demo_rows : list (list (string * GoVal)) := [[("id", VInt64 9007199254740993)]].
Definition demo_clock : LoadClock := {| lcNow := 0; lcStore := 0; lcRnd := S754_zero false |}.
Definition demo_world : World := {|
  timely := true; got_slot := true; run_data _ := Ok demo_rows; run_count _ := Ok [];
  data_clock := demo_clock; count_clock := demo_clock; audit_time := 7;
|}.
Definition demo_request : TemplateQueryRequest := {|
  rqTemplate := "orders"; rqParameters := ∅; rqFields := []; rqFirst := None; rqOffset := None; rqOrderBy := [];
  rqNeedCount := false; rqSkipCache := false;
|}.
Definition demo_execute (cl : option _) :=
  Execute (GF := demo_fmt) (FT := demo_text) (GR := demo_regexp) (TT := demo_tt) (JT := demo_json)
    (fun s => Z.to_N (slen s)) demo_engine demo_world None demo_request cl.

Definition demo_registered (sql : string) : RegisteredTemplate (GR := demo_regexp) (TT := demo_tt) :=
  @Build_RegisteredTemplate demo_regexp demo_tt "orders" EmptyString sql [] true None true.
Definition demo_page : string := "SELECT * FROM (SELECT id FROM o WHERE x=1) AS __tq_wrapper__ LIMIT 101 OFFSET 0".

Lemma demo_text_laws : FloatTextLaws demo_text.
Proof. intros z Hz. unfold parse_float, demo_text. by rewrite parse_int_itoa. Qed.
Definition demo_order (m : gmap string string) : list (string * string) := map_to_list m.

(** The driver's integer is not the one the client gets. *)
Lemma cached_rows_are_json_witness :
  let out := demo_execute (Some demo_layer) in
  match out with
  | ((Ok res, _), _) => resData res = map json_row_view demo_rows
      /\ resData res = [[("id", VFloat64 (float_of_int 9007199254740992))]]
  | _ => False
  end.
Proof.
  intros out. destruct out as [[[res|e] log] cl'] eqn:E; [|vm_compute in E; discriminate E].
  assert (Hd : resData res = map json_row_view demo_rows).
  { set (text := match Marshal_rows (JT := demo_json) demo_rows with Ok t => t | Err _ => EmptyString end).
    refine (cached_rows_are_json (GF := demo_fmt) (FT := demo_text) (GR := demo_regexp) (TT := demo_tt) (JT := demo_json)
      (FL := demo_text_laws) (fun s => Z.to_N (slen s)) (fun _ => text) _ demo_engine demo_world None demo_request
      (demo_registered "SELECT id FROM o WHERE x=1") ∅ "SELECT id FROM o WHERE x=1" demo_page demo_rows (Some demo_layer) res log cl' _ eq_refl _ _ E).
    - vm_compute. discriminate.
    - split; reflexivity.
    - repeat constructor; try (intros Hin; inversion Hin); vm_compute; discriminate.
    - split; [reflexivity|]. split; [apply demo_valid|apply demo_coherent]. }
  split; [exact Hd|]. rewrite Hd. reflexivity.
Defined.

(** A template whose file disappeared is still served. *)
Definition demo_gone : Disk := {| os_Stat _ := StatNotExist; os_ReadFile _ := Err ErrEOF; WalkDir _ := [] |}.
Definition demo_reload (d : Disk) :=
  Reload (FT := demo_text) (GR := demo_regexp) (TT := demo_tt) (fun s => s) demo_order d 0 0 0 0 true demo_engine.
Lemma demo_names : NoDup (map tcName (Templates (config demo_engine))).
Proof. apply (bool_decide_unpack _). reflexivity. Qed.
Lemma reload_isolates_witness :
  let '(res, te') := demo_reload demo_gone in
  (templates (registry te') !! "orders", hashes (registry te') !! "orders")
    = (Some (demo_registered "SELECT id FROM o WHERE x=1"), Some "SELECT id FROM o ")
  /\ ("orders" ∈ map flName (rlFailures res) <-> True).
Proof.
  destruct (demo_reload demo_gone) as [res te'] eqn:E.
  pose proof (reload_isolates (FT := demo_text) (GR := demo_regexp) (TT := demo_tt) (fun s => s)
    demo_order demo_gone 0 0 0 0 true demo_engine demo_names (loadAll_wf _ _ _) (fun m => reflexivity _)) as Hr.
  unfold demo_reload in E. rewrite E in Hr. destruct Hr as (_ & Hr & _).
  destruct (Hr "orders" ltac:(left)) as [Heq Hf]. split; [exact Heq|].
  split; [done|]. intros _. apply Hf. reflexivity.
Defined.

(** The fragment changes the statement, the cache is not told. *)
Lemma fragment_edits_keep_cache_witness :
  let te' := (demo_reload (demo_file "WHERE x=2")).2 in
  cacheLayer te' = Some demo_layer
  /\ templates (registry te') !! "orders" = Some (demo_registered "SELECT id FROM o WHERE x=2").
Proof.
  destruct (fragment_edits_keep_cache (FT := demo_text) (GR := demo_regexp) (TT := demo_tt) (fun s => s)
    demo_order (demo_file "WHERE x=1") (demo_file "WHERE x=2") demo_config 100 "sr" (Some demo_layer) true true
    0 0 0 0 true demo_names (fun m => reflexivity _)) as [Hc Ht].
  - intros tc ->%list_elem_of_singleton. split; reflexivity.
  - intros n ->%list_elem_of_singleton. discriminate.
  - split; [exact Hc|]. by apply (Ht "orders" _ "SELECT id FROM o ").
Defined.
