(* ===== verification/TemplateResolver.v ===== *)
(** * internal/graphql/resolver: the template resolvers

    template.resolvers.go and template_helpers.go on top of the template engine.  A Go slice
    expression out of range panics, which gqlgen turns into an internal error: [Panicked].
    [fieldRequested] and the extensions of the request are arguments. *)
From S2P Require Import Prelude GoStrings Values GoConv FuncMap Pagination.
From S2P Require Import TemplateParams TemplateLoader Json Lru CacheLayer TemplateCache Effects TemplateEngine.
From S2P Require Auth.
From S2P Require Import Resolver.

(** generated/models_gen.go. *)
Record TemplateOrderBy := { toField : string; toDirection : string }.
Record TemplateQueryConnection := { tqNodes : list row; tqPageInfo : PageInfo; tqTotalCount : Z }.
Record ReloadTemplatesResult := { rtSuccessCount : Z; rtFailures : list TemplateLoadFailure; rtDuration : string }.

Inductive outcome (A : Type) :=
  | Answer (r : result A)
  | Panicked.
Arguments Answer {A} _.
Arguments Panicked {A}.

(** ** template_helpers.go *)

Definition convertJSONToMap (j : option (gmap string GoVal)) : gmap string GoVal := default ∅ j.
Definition convertOrderBy (orderBy : list (option TemplateOrderBy)) : list TemplateOrderByParam :=
  omap (fun o => match o with
                 | Some o => Some {| obField := toField o; obDirection := toDirection o |}
                 | None => None
                 end) orderBy.
Definition skipCacheRequested (extensions : option (list (string * GoVal))) : bool :=
  match extensions with
  | None => false
  | Some ext => match assoc "cache" ext with Some (VBool b) => negb b | _ => false end
  end.
Definition buildTemplateQueryConnection (data : list row) (originalLen : Z) (totalCount offset first : option Z)
    : TemplateQueryConnection :=
  {| tqNodes := data;
     tqPageInfo := {| HasNextPage := match first with Some f => f <? originalLen | None => false end;
                      HasPreviousPage := match offset with Some o => 0 <? o | None => false end;
                      StartCursor := None; EndCursor := None |};
     tqTotalCount := default 0 totalCount |}.

Section TemplateResolver.
#[local] Set Default Proof Using "Type".
Context {GF : GoFmt} {FT : FloatText} {GR : GoRegexp} {TT : TextTemplate} {JT : JsonText}.
Context {C : Type} {K : Cache C} {G : Gob}.
Variable xxhash : string -> N.
Variable sha256Hex : string -> string.
Notation Engine := (TemplateEngine (GR := GR) (TT := TT) (C := C)).
Notation Execute := (Execute xxhash).

Definition convertReloadResult (r : ReloadResult) : ReloadTemplatesResult :=
  {| rtSuccessCount := SuccessCount r; rtFailures := rlFailures r; rtDuration := sprint (VDuration (rlDuration r)) |}.

(** ** template.resolvers.go *)

Definition ReloadTemplates (order : gmap string string -> list (string * string)) (d : Disk) (now t1 t2 t3 : Z)
    (engine : option Engine) : ReloadTemplatesResult * option Engine :=
  match engine with
  | None => ({| rtSuccessCount := 0; rtFailures := []; rtDuration := "0s" |}, None)
  | Some te =>
      let '(r, te') := Reload sha256Hex order d now t1 t2 t3 true te in (convertReloadResult r, Some te')
  end.

(** Step 4: the rows to answer and the warning about rows cut off. *)
Definition truncate_page (maxRows : Z) (first : option Z) (data : list row) : option (list row * list format) :=
  data ← match first with
         | Some f => if f <? Z.of_nat (length data) then slice_to f data else Some data
         | None => Some data
         end;
  if (0 <? maxRows) && (maxRows <? Z.of_nat (length data)) then
    cut ← slice_to maxRows data;
    Some (cut, [Sprintf "Result set truncated: returned %d rows out of %d (max_result_rows=%d)"
                  [AInt maxRows; AInt (Z.of_nat (length data)); AInt maxRows]])
  else Some (data, []).

Definition template_request (totalRequested : bool) (extensions : option (list (string * GoVal))) (templateName : string)
    (parameters : option (gmap string GoVal)) (fields : list string) (first offset : option Z)
    (orderBy : list (option TemplateOrderBy)) : TemplateQueryRequest :=
  {| rqTemplate := templateName; rqParameters := convertJSONToMap parameters; rqFields := fields; rqFirst := first;
     rqOffset := offset; rqOrderBy := convertOrderBy orderBy; rqNeedCount := totalRequested;
     rqSkipCache := skipCacheRequested extensions |}.
(** Steps 4 and 5: the connection, and the extension warnings. *)
Definition template_answer (maxRows : Z) (existing : list format) (first offset : option Z) (res : TemplateQueryResult)
    : outcome (TemplateQueryConnection * list format) :=
  match truncate_page maxRows first (resData res) with
  | None => Panicked
  | Some (data, ws) =>
      Answer (Ok (buildTemplateQueryConnection data (Z.of_nat (length (resData res))) (resTotalCount res) offset first,
                  setExtensionWarnings existing (resWarnings res ++ ws)))
  end.
Definition TemplateQuery (engine : option Engine) (maxRows : Z) (w : World) (identity : option Auth.AuthIdentity)
    (existing : list format) (totalRequested : bool) (extensions : option (list (string * GoVal))) (templateName : string)
    (parameters : option (gmap string GoVal)) (fields : list string) (first offset : option Z)
    (orderBy : list (option TemplateOrderBy)) (cl : option (CacheLayer C))
    : (outcome (TemplateQueryConnection * list format) * list Event) * option (CacheLayer C) :=
  match engine with
  | None =>
      ((Answer (Err (ValidationError ErrValidationTemplateNotFound (Sprintf "template %q not found" [AStr templateName]))), []), cl)
  | Some te =>
      let req := template_request totalRequested extensions templateName parameters fields first offset orderBy in
      let '((r, log), cl') := Execute te w identity req cl in
      (match r with
       | Err err => Answer (Err err)
       | Ok res => template_answer maxRows existing first offset res
       end, log, cl')
  end.

Definition TemplateList (engine : option Engine) (first offset : option Z) : list TemplateInfo :=
  match engine with None => [] | Some te => ListTemplates te first offset end.

(** ** Theorems *)

(** The rows a page may have. *)
Definition page_limit (maxRows : Z) (first : option Z) (n : Z) : Z :=
  let n := match first with Some f => Z.min f n | None => n end in
  if 0 <? maxRows then Z.min maxRows n else n.

Lemma truncate_page_spec maxRows first data :
  match first with Some f => 0 <= f | None => True end ->
  exists ws, truncate_page maxRows first data
             = Some (take (Z.to_nat (page_limit maxRows first (Z.of_nat (length data)))) data, ws)
    /\ (ws = [] <-> ~ (0 < maxRows < match first with Some f => Z.min f (Z.of_nat (length data)) | None => Z.of_nat (length data) end)).
Proof.
  intros Hf. unfold truncate_page, page_limit. set (n := Z.of_nat (length data)).
  assert (E : exists data1, (match first with Some f => if f <? n then slice_to f data else Some data | None => Some data end) = Some data1
    /\ data1 = take (Z.to_nat (match first with Some f => Z.min f n | None => n end)) data).
  { destruct first as [f|]; [|exists data; split; [done|]; subst n; by rewrite Nat2Z.id, firstn_all].
    destruct (Z.ltb_spec f n).
    - rewrite slice_to_ok by lia. eexists. split; [done|]. by rewrite Z.min_l by lia.
    - eexists. split; [done|]. rewrite Z.min_r by lia. subst n. by rewrite Nat2Z.id, firstn_all. }
  destruct E as (data1 & -> & Hd). cbn [mbind option_bind].
  set (k := match first with Some f => Z.min f n | None => n end) in *.
  assert (Hk : 0 <= k <= n) by (subst k n; destruct first; lia).
  assert (Hl : Z.of_nat (length data1) = k) by (rewrite Hd, length_take; subst n; lia). rewrite Hl.
  destruct (Z.ltb_spec 0 maxRows) as [Hm|Hm]; cbn [andb].
  - destruct (Z.ltb_spec maxRows k) as [Hc|Hc].
    + rewrite slice_to_ok by lia. eexists. split; [cbn [mbind option_bind]; do 2 f_equal; rewrite Hd, take_take; f_equal; lia|].
      split; [done|lia].
    + eexists. split; [do 2 f_equal; rewrite Hd; f_equal; lia|]. split; [lia|done].
  - eexists. split; [do 2 f_equal; rewrite Hd; f_equal; lia|]. split; [lia|done].
Qed.

(** what a page of a template query answers.  With a non-negative or no [first] it is the rows
    cut to [first] and then to [max_result_rows], and another page is announced exactly when
    the statement returned more than [first] rows: so when [max_result_rows] is below [first],
    rows can be cut with no next page announced.  A negative [first] always ends in a panic. *)
Theorem template_page maxRows existing first offset res :
  let n := Z.of_nat (length (resData res)) in
  (forall f, first = Some f -> f < 0 -> template_answer maxRows existing first offset res = Panicked)
  /\ (match first with Some f => 0 <= f | None => True end ->
      exists conn ws, template_answer maxRows existing first offset res = Answer (Ok (conn, ws))
        /\ tqNodes conn = take (Z.to_nat (page_limit maxRows first n)) (resData res)
        /\ (HasNextPage (tqPageInfo conn) = true <-> exists f, first = Some f /\ f < n)
        /\ tqTotalCount conn = default 0 (resTotalCount res)
        /\ forall f, first = Some f -> 0 < maxRows < n -> n <= f ->
             HasNextPage (tqPageInfo conn) = false /\ (length (tqNodes conn) < length (resData res))%nat).
Proof.
  cbv zeta. split.
  - intros f -> Hf. unfold template_answer, truncate_page, slice_to. cbv beta iota.
    match goal with |- context [f <? ?n] => replace (f <? n) with true by lia end.
    by rewrite (proj2 (Z.leb_gt _ _) Hf).
  - intros Hf. unfold template_answer. destruct (truncate_page_spec maxRows first (resData res) Hf) as (ws & -> & _).
    eexists _, _. split; [done|]. cbn [tqNodes tqPageInfo tqTotalCount HasNextPage buildTemplateQueryConnection].
    split; [done|]. split; [|split; [done|]].
    + destruct first as [f|]; [|split; [done|intros (? & ? & _); congruence]].
      rewrite Z.ltb_lt. split; [by exists f|by intros (? & [= <-] & ?)].
    + intros f -> Hm Hn. split; [lia|]. rewrite length_take. unfold page_limit. cbv zeta iota. rewrite (proj2 (Z.ltb_lt 0 maxRows)) by lia. lia.
Qed.

Lemma Execute_identity te w id id' req cl :
  (Execute te w id req cl).1.1 = (Execute te w id' req cl).1.1 /\ (Execute te w id req cl).2 = (Execute te w id' req cl).2.
Proof. unfold TemplateEngine.Execute, sfinally at 1 3 5 7. by destruct (sbind _ _ cl) as [x s]. Qed.

(** a template query checks no permission.  Its answer and its effect on the cache are the
    same for every identity, with the permissions it has, and for none; only the audit entry
    names it. *)
Theorem template_query_ignores_identity engine maxRows w id id' existing tr ext name ps fields first offset ob cl :
  let run id := TemplateQuery engine maxRows w id existing tr ext name ps fields first offset ob cl in
  (run id).1.1 = (run id').1.1 /\ (run id).2 = (run id').2.
Proof.
  unfold TemplateQuery. destruct engine as [te|]; [|done]. set (req := template_request _ _ _ _ _ _ _ _).
  destruct (Execute_identity te w id id' req cl) as [H1 H2].
  destruct (Execute te w id req cl) as [[r log] cl1], (Execute te w id' req cl) as [[r' log'] cl2]. simpl in *. by subst.
Qed.

Lemma wrap_limit sql fields ob first offset maxRows q : wrapWithPagination sql fields ob first offset maxRows = Ok q ->
  exists h, q = h +:+ " LIMIT " +:+ itoa (wrap64 (default maxRows first + 1)) +:+ " OFFSET " +:+ itoa (default 0 offset).
Proof.
  unfold wrapWithPagination. intros H. apply bind_Ok in H as (fs & _ & H). apply bind_Ok in H as (os & _ & H).
  apply Ok_inj in H as <-. exists ("SELECT " +:+ fs +:+ " FROM (" +:+ sql +:+ ") AS __tq_wrapper__" +:+ os).
  by rewrite !str_app_assoc.
Qed.
Lemma page_statements te w id req cl r log cl' q : rqNeedCount req = false ->
  Execute te w id req cl = ((r, log), cl') -> q ∈ raws log ->
  exists sql, wrapWithPagination sql (rqFields req) (rqOrderBy req) (rqFirst req) (rqOffset req) (MaxResultRows te) = Ok q.
Proof.
  intros Hc He Hq. pose proof (Execute_log xxhash te w id req cl) as H. rewrite He in H.
  destruct H as (core & -> & H). rewrite raws_app, raws_audit, app_nil_r in Hq.
  destruct H as [(-> & _)|(tmpl & ps & sql & wsql & Had & H)]; [rewrite raws_error in Hq; by apply elem_of_nil in Hq|].
  exists sql. assert (Hw : q = wsql); [|subst q; apply Had].
  destruct (execute_page xxhash te w req tmpl ps wsql cl) as [[rp evp] cl1] eqn:Hp. apply page_events in Hp as [Hr _].
  assert (Hone : q ∈ raws evp -> q = wsql).
  { destruct Hr as [ -> | -> ]; [by intros H'%elem_of_nil|by intros H'%list_elem_of_singleton]. }
  destruct rp as [data|e].
  - destruct (total_count xxhash te w req tmpl ps sql cl1) as [[rc evc] cl2] eqn:Ht.
    assert (Hev : evc = []) by (unfold total_count in Ht; rewrite Hc in Ht; by injection Ht as _ <- _). subst evc.
    destruct H as [_ H]. destruct rc; destruct H as [_ ->]; simpl in Hq;
      rewrite !raws_app, ?raws_error, ?raws_success, ?app_nil_r in Hq; simpl in Hq; rewrite ?app_nil_r in Hq; auto.
  - destruct H as (_ & _ & ->). simpl in Hq. rewrite !raws_app, raws_error, ?app_nil_r in Hq. simpl in Hq. rewrite ?app_nil_r in Hq. auto.
Qed.

(** no row limit is a limit of one row.  With [max_result_rows: 0], which the resolver reads
    as no limit, a query without [first] sends a statement that ends in [LIMIT 1]. *)
Theorem zero_max_rows_is_one te w id existing ext name ps fields offset ob cl out log cl' q :
  MaxResultRows te = 0 ->
  TemplateQuery (Some te) 0 w id existing false ext name ps fields None offset ob cl = ((out, log), cl') ->
  q ∈ raws log -> exists h, q = h +:+ " LIMIT 1 OFFSET " +:+ itoa (default 0 offset).
Proof.
  intros Hm H Hq. unfold TemplateQuery in H.
  destruct (Execute te w id _ cl) as [[r log1] cl1] eqn:He in H. injection H as _ -> _.
  eapply page_statements in He as [sql He]; [|done|exact Hq]. apply wrap_limit in He as [h ->]. simpl. rewrite Hm.
  by exists h.
Qed.
End TemplateResolver.

(** ** Concrete instances *)

Section Witnesses.
#[local] Existing Instance demo_fmt.
#[local] Existing Instance demo_text.
#[local] Existing Instance demo_regexp.
#[local] Existing Instance demo_tt.
#[local] Existing Instance demo_json.

Definition demo_unlimited : TemplateEngine :=
  NewTemplateEngine (fun s => s) (demo_file "WHERE x=1") demo_config 0 "sr" (Some demo_layer) true true.
Definition demo_one : string := "SELECT * FROM (SELECT id FROM o WHERE x=1) AS __tq_wrapper__ LIMIT 1 OFFSET 0".
Definition demo_template_query (id : option Auth.AuthIdentity) (first : option Z) :=
  TemplateQuery (fun s => Z.to_N (slen s)) (Some demo_unlimited) 0 demo_world id [] false None "orders" None [] first None [] (Some demo_layer).
Lemma demo_query_raws : demo_one ∈ raws (demo_template_query None None).1.2.
Proof. vm_compute. left. Qed.

Lemma zero_max_rows_is_one_witness : exists h, demo_one = h +:+ " LIMIT 1 OFFSET 0".
Proof.
  destruct (demo_template_query None None) as [[out log] cl'] eqn:E.
  exact (zero_max_rows_is_one (fun s => Z.to_N (slen s)) demo_unlimited demo_world None [] None "orders" None [] None []
           (Some demo_layer) out log cl' demo_one eq_refl E
           (eq_ind _ (fun x => demo_one ∈ raws x.1.2) demo_query_raws _ E)).
Defined.

(** [first: -1] asks for [LIMIT 0] and panics on the empty page. *)
Lemma template_page_witness :
  template_answer 10 [] (Some (-1)) None {| resData := []; resTotalCount := None; resWarnings := [] |} = Panicked
  /\ exists conn ws, template_answer 1 [] (Some 5) None
       {| resData := [[("a", VInt 1)]; [("a", VInt 2)]]; resTotalCount := Some 2; resWarnings := [] |} = Answer (Ok (conn, ws))
     /\ HasNextPage (tqPageInfo conn) = false /\ (length (tqNodes conn) < 2)%nat.
Proof.
  split.
  - by apply (proj1 (template_page 10 [] (Some (-1)) None {| resData := []; resTotalCount := None; resWarnings := [] |}) (-1)).
  - destruct (proj2 (template_page 1 [] (Some 5) None
      {| resData := [[("a", VInt 1)]; [("a", VInt 2)]]; resTotalCount := Some 2; resWarnings := [] |}) ltac:(done))
      as (conn & ws & H1 & _ & _ & _ & H2).
    exists conn, ws. split; [exact H1|]. by apply (H2 5).
Defined.
End Witnesses.
