(* ===== verification/Enums.v ===== *)
(** * internal/graphql/generated/models_gen.go: the enumerations of the schema

    gqlgen gives every enumeration the same methods; they are modelled once for any name and
    list of values, and instantiated for [FilterOperator], [LabelMatchType] and
    [SortDirection].  An enumeration is a string type in Go, so the resolvers convert its
    values by comparing strings.  [strconv.Quote] and [Unquote] are modelled on printable ASCII
    without quotes and backslashes; what they do with other texts is the class [GoQuote]. *)
From S2P Require Import Prelude GoStrings Values DataSource Auth.
From S2P Require Mutation Resolver PrometheusResolver.

Class GoQuote := { quote_other : string -> string; unquote_other : string -> result string }.
(** A byte that is quoted as itself. *)
Definition quotes_itself (c : ascii) : bool :=
  ((32 <=? code c) && (code c <? 127))%N && negb (Ascii.eqb c DQUOTE) && negb (Ascii.eqb c BSLASH).

Section Enum.
Context {GQ : GoQuote}.

Definition Quote (s : string) : string :=
  if str_forallb quotes_itself s then String DQUOTE (s +:+ str1 DQUOTE) else quote_other s.
Definition Unquote (s : string) : result string :=
  match s with
  | String c r =>
      let body := str_take (String.length r - 1) r in
      if Ascii.eqb c DQUOTE && String.eqb r (body +:+ str1 DQUOTE) && str_forallb quotes_itself body
      then Ok body else unquote_other s
  | EmptyString => unquote_other s
  end.

(** The methods, for the type [name] with the constants [all]. *)
Variables (name : string) (all : list string).

Definition IsValid (e : string) : bool := str_in all e.
(** The value the receiver has afterwards, and the error. *)
Definition UnmarshalGQL (e : string) (v : GoVal) : string * option error :=
  match v with
  | VString str =>
      (str, if negb (IsValid str) then Some (Errorf (Sprintf ("%s is not a valid " +:+ name) [AStr str])) else None)
  | _ => (e, Some (Errorf (Sprintf "enums must be strings" [])))
  end.
Definition MarshalGQL (e : string) : string := Quote e.
Definition UnmarshalJSON (e : string) (b : string) : string * option error :=
  match Unquote b with Ok s => UnmarshalGQL e (VString s) | Err err => (e, Some err) end.
Definition MarshalJSON (e : string) : string := MarshalGQL e.

(** The method set of a generated enumeration type. *)
Record EnumMethods := {
  constants : list string;
  enum_IsValid : string -> bool;
  enum_UnmarshalGQL : string -> GoVal -> string * option error;
  enum_MarshalGQL : string -> string;
  enum_UnmarshalJSON : string -> string -> string * option error;
  enum_MarshalJSON : string -> string;
}.
Definition enum_methods : EnumMethods := {|
  constants := all; enum_IsValid := IsValid; enum_UnmarshalGQL := UnmarshalGQL; enum_MarshalGQL := MarshalGQL;
  enum_UnmarshalJSON := UnmarshalJSON; enum_MarshalJSON := MarshalJSON |}.
End Enum.

Definition AllFilterOperator : list string :=
  ["EQ"; "NEQ"; "GT"; "GTE"; "LT"; "LTE"; "LIKE"; "IN"; "NOT_IN"; "IS_NULL"; "IS_NOT_NULL"].
Definition AllLabelMatchType : list string := ["EXACT"; "NOT_EQUAL"; "REGEX"; "NOT_REGEX"].
Definition AllSortDirection : list string := ["ASC"; "DESC"].

Section Types.
Context {GQ : GoQuote}.
Definition FilterOperatorMethods : EnumMethods := enum_methods "FilterOperator" AllFilterOperator.
Definition LabelMatchTypeMethods : EnumMethods := enum_methods "LabelMatchType" AllLabelMatchType.
Definition SortDirectionMethods : EnumMethods := enum_methods "SortDirection" AllSortDirection.
End Types.

(** ** What an accepted value is converted to *)

(** The conversions of the resolvers with the operator each constant stands for. *)
Definition filter_operators : list (string * FilterOperator) :=
  [("EQ", FilterOpEQ); ("NEQ", FilterOpNEQ); ("GT", FilterOpGT); ("GTE", FilterOpGTE); ("LT", FilterOpLT); ("LTE", FilterOpLTE);
   ("LIKE", FilterOpLIKE); ("IN", FilterOpIN); ("NOT_IN", FilterOpNOT_IN); ("IS_NULL", FilterOpIS_NULL);
   ("IS_NOT_NULL", FilterOpIS_NOT_NULL)].
Definition label_match_types : list (string * FilterOperator) :=
  [("EXACT", FilterOpEQ); ("NOT_EQUAL", FilterOpNEQ); ("REGEX", FilterOpLIKE); ("NOT_REGEX", FilterOpNOT_IN)].
Definition sort_directions : list (string * SortDirection) := [("ASC", SortASC); ("DESC", SortDESC)].

#[local] Instance SortDirection_eq_dec : EqDecision SortDirection.
Proof. solve_decision. Defined.

Section Facts.
Context {GQ : GoQuote}.
#[local] Set Default Proof Using "Type".

Lemma Unquote_Quote s : str_forallb quotes_itself s = true -> Unquote (Quote s) = Ok s.
Proof.
  intros H. unfold Quote, Unquote. rewrite H. rewrite Ascii.eqb_refl, str_length_app. simpl String.length.
  replace (String.length s + 1 - 1)%nat with (String.length s) by lia. rewrite str_take_app, String.eqb_refl, H. done.
Qed.
Lemma UnmarshalGQL_iff name all e v s :
  UnmarshalGQL name all e v = (s, None) <-> v = VString s /\ s ∈ all.
Proof.
  unfold UnmarshalGQL, IsValid. destruct v; try (split; [done|by intros [? ?]]). rewrite <- str_in_iff. split.
  - intros [= -> H]. by destruct (str_in all s).
  - intros [[= ->] H]. by rewrite H.
Qed.
Lemma assoc_convert {A} (f : string -> A) (l : list (string * A)) :
  Forall (fun kv => f kv.1 = kv.2) l -> forall k, k ∈ l.*1 -> assoc k l = Some (f k).
Proof.
  induction 1 as [|[k v] l Hk Hl IH]; intros k' Hin; [by apply elem_of_nil in Hin|]. simpl in *.
  case_decide as E; [by rewrite <- E, Hk|]. apply IH. apply elem_of_cons in Hin as [->|]; done.
Qed.

(** An enumeration and its conversion: exactly the constants are accepted, what is written is
    read back, and each constant is converted as the table says, different ones differently. *)
Definition enum_sound {A} (E : EnumMethods) (table : list (string * A)) (convert : string -> A) : Prop :=
  (forall e v s, enum_UnmarshalGQL E e v = (s, None) <-> v = VString s /\ s ∈ constants E)
  /\ (forall s, enum_IsValid E s = true <-> s ∈ constants E)
  /\ (forall e s, s ∈ constants E -> enum_UnmarshalJSON E e (enum_MarshalJSON E s) = (s, None))
  /\ (forall s, s ∈ constants E -> assoc s table = Some (convert s))
  /\ NoDup (map convert (constants E)).
Lemma enum_sound_intro {A} `{EqDecision A} name all (table : list (string * A)) convert :
  forallb (str_forallb quotes_itself) all = true -> all = table.*1 ->
  Forall (fun kv => convert kv.1 = kv.2) table -> bool_decide (NoDup (map convert all)) = true ->
  enum_sound (enum_methods name all) table convert.
Proof.
  intros Hq Ha Hf Hn. unfold enum_sound. cbn. split; [intros; apply UnmarshalGQL_iff|]. split; [intros s; apply str_in_iff|].
  split; [|split; [|by apply bool_decide_eq_true in Hn]].
  - intros e s Hs. unfold UnmarshalJSON, MarshalJSON, MarshalGQL. rewrite Unquote_Quote.
    + by apply UnmarshalGQL_iff.
    + rewrite forallb_forall in Hq. apply Hq. by apply list_elem_of_In.
  - intros s Hs. apply assoc_convert; [done|by rewrite <- Ha].
Qed.

(** an enumeration value from the query to the data source.  Of each of the three
    enumerations exactly the constants of the schema are accepted, any other text or type is
    an error; writing and reading a constant gives it back; and the resolvers convert every
    constant to the operator or direction of its name, no two to the same, so the defaults of
    the conversions are never used for a value the schema lets through. *)
Theorem enum_values_converted :
  enum_sound FilterOperatorMethods filter_operators Mutation.convertFilterOperator
  /\ enum_sound LabelMatchTypeMethods label_match_types PrometheusResolver.convertLabelMatchType
  /\ enum_sound SortDirectionMethods sort_directions Resolver.convertSortDirection.
Proof. split_and!; apply enum_sound_intro; by repeat constructor. Qed.
End Facts.
