(* ===== verification/GraphqlInput.v ===== *)
(** * internal/graphql/generated/generated.go: the arguments of a field

    The [args] and [input] regions of the generated executor: how the values a client sends
    become the arguments of a resolver.  A value is the [any] that the parser of the request
    made; a Go type assertion on a wrong dynamic type panics ([Crashed]).  What gqlgen's
    runtime does with a single string, integer or list and with an argument that is absent is
    the class [GqlgenInput]; its laws are the documented behaviour.  The path of the value is
    carried along, as the context does, for the errors. *)
From S2P Require Import Prelude GoStrings Values GoConv FuncMap Json JsonRaw Scalar.
From S2P Require Import Resolver PrometheusResolver TemplateResolver.
From S2P Require Import Auth.
From S2P Require Mutation Enums.
Import Mutation (ColumnValueInput, Column, cvValue, MutationFilterInput, mfField, mfOperator, mfValue).

Inductive attempt (A : Type) :=
  | Done (a : A)
  | Failed (e : error)
  | Crashed.
Arguments Done {A} a.
Arguments Failed {A} e.
Arguments Crashed {A}.
#[export] Instance attempt_ret : MRet attempt := fun _ a => Done a.
#[export] Instance attempt_bind : MBind attempt := fun _ _ f m =>
  match m with Done a => f a | Failed e => Failed e | Crashed => Crashed end.

Inductive PathElement := PathField (name : string) | PathIndex (i : Z).
Notation Path := (list PathElement).
(** An unmarshalling function: the path in the context and the value. *)
Notation unmarshaller A := (Path -> GoVal -> attempt A).

Class GqlgenInput := {
  UnmarshalString : GoVal -> result string;
  UnmarshalInt : GoVal -> result Z;
  CoerceList : GoVal -> list GoVal;
  ErrorOnPath : Path -> error -> error;
  (** The arguments of the field, the name of one, its zero value and its unmarshaller. *)
  ProcessArgField : forall A : Type, list (string * GoVal) -> string -> A -> unmarshaller A -> Path -> attempt A;
}.
Class GqlgenInputLaws (GI : GqlgenInput) := {
  UnmarshalString_string s : UnmarshalString (VString s) = Ok s;
  UnmarshalInt_int64 n : (- 2 ^ 63 <= n < 2 ^ 63) -> UnmarshalInt (VInt64 n) = Ok n;
  CoerceList_slice l : CoerceList (VSlice l) = l;
  ProcessArgField_present A raw name zero (u : unmarshaller A) ctx v :
    assoc name raw = Some v -> ProcessArgField A raw name zero u ctx = u (ctx ++ [PathField name]) v;
  ProcessArgField_absent A raw name zero (u : unmarshaller A) ctx :
    assoc name raw = None -> ProcessArgField A raw name zero u ctx = Done zero;
}.
Arguments ProcessArgField {GqlgenInput A} raw name zero u ctx.

Section Unmarshal.
Context {GI : GqlgenInput} {FT : FloatText} {TM : TimeText}.

(** [return res, graphql.ErrorOnPath(ctx, err)]. *)
Definition on_path {A} (ctx : Path) (r : result A) : attempt A :=
  match r with Ok a => Done a | Err e => Failed (ErrorOnPath ctx e) end.
Definition on_path' {A} (ctx : Path) (r : attempt A) : attempt A :=
  match r with Failed e => Failed (ErrorOnPath ctx e) | _ => r end.
(** [if v == nil { return nil, nil }]. *)
Definition if_nil {A} (zero : A) (u : unmarshaller A) : unmarshaller A := fun ctx v =>
  match v with VNil => Done zero | _ => u ctx v end.
(** The loop over the elements of a list. *)
Fixpoint each {A} (u : unmarshaller A) (ctx : Path) (i : Z) (l : list GoVal) : attempt (list A) :=
  match l with
  | [] => Done []
  | v :: l' => x ← u (ctx ++ [PathIndex i]) v; xs ← each u ctx (i + 1) l'; Done (x :: xs)
  end.
Definition slice {A} (u : unmarshaller A) : unmarshaller (list A) := fun ctx v => each u ctx 0 (CoerceList v).

(** *** Scalars and enumerations *)

Definition unmarshalNString : unmarshaller string := fun ctx v => on_path ctx (UnmarshalString v).
Definition unmarshalOString : unmarshaller (option string) :=
  if_nil None (fun ctx v => on_path ctx (Some <$> UnmarshalString v)).
Definition unmarshalOInt : unmarshaller (option Z) := if_nil None (fun ctx v => on_path ctx (Some <$> UnmarshalInt v)).
Definition unmarshalNAnyValue : unmarshaller GoVal := fun ctx v => on_path ctx (UnmarshalAnyValue v).
Definition unmarshalOAnyValue : unmarshaller GoVal := if_nil VNil (fun ctx v => on_path ctx (UnmarshalAnyValue v)).
Definition unmarshalNDateTime : unmarshaller Time := fun ctx v => on_path ctx (UnmarshalDateTime v).
Definition unmarshalODateTime : unmarshaller (option Time) :=
  if_nil None (fun ctx v => on_path ctx (Some <$> UnmarshalDateTime v)).
Definition unmarshalOJSON : unmarshaller (option (list (string * GoVal))) :=
  if_nil None (fun ctx v => on_path ctx (Some <$> Scalar.UnmarshalJSON v)).
Definition enum_value (r : string * option error) : result string :=
  match r with (s, None) => Ok s | (_, Some err) => Err err end.
Definition unmarshalNFilterOperator : unmarshaller string := fun ctx v =>
  on_path ctx (enum_value (Enums.UnmarshalGQL "FilterOperator" Enums.AllFilterOperator EmptyString v)).
Definition unmarshalNLabelMatchType : unmarshaller string := fun ctx v =>
  on_path ctx (enum_value (Enums.UnmarshalGQL "LabelMatchType" Enums.AllLabelMatchType EmptyString v)).
Definition unmarshalNSortDirection : unmarshaller string := fun ctx v =>
  on_path ctx (enum_value (Enums.UnmarshalGQL "SortDirection" Enums.AllSortDirection EmptyString v)).
Definition unmarshalNStrings : unmarshaller (list string) := slice unmarshalNString.
Definition unmarshalOStrings : unmarshaller (list string) := if_nil [] (slice unmarshalNString).
Definition unmarshalNAnyValues : unmarshaller (list GoVal) := slice unmarshalNAnyValue.
Definition unmarshalNAnyValueRows : unmarshaller (list (list GoVal)) := slice unmarshalNAnyValues.

(** *** Input objects *)

(** A nil object is the zero value; anything but a map panics. *)
Definition object {A} (zero : A) (k : list (string * GoVal) -> attempt A) (obj : GoVal) : attempt A :=
  match obj with VNil => Done zero | VMap asMap => k asMap | _ => Crashed end.
(** One turn of the loop over [fieldsInOrder]: a key that is absent leaves the field alone. *)
Definition field_of {A} (asMap : list (string * GoVal)) (ctx : Path) (name : string) (zero : A) (u : unmarshaller A)
    : attempt A :=
  match assoc name asMap with None => Done zero | Some v => u (ctx ++ [PathField name]) v end.

Definition unmarshalInputColumnValueInput : unmarshaller ColumnValueInput := fun ctx =>
  object {| Column := EmptyString; cvValue := VNil |} (fun asMap =>
    column ← field_of asMap ctx "column" EmptyString unmarshalNString;
    value ← field_of asMap ctx "value" VNil unmarshalNAnyValue;
    Done {| Column := column; cvValue := value |}).
Definition unmarshalInputMutationFilterInput : unmarshaller MutationFilterInput := fun ctx =>
  object {| mfField := EmptyString; mfOperator := EmptyString; mfValue := VNil |} (fun asMap =>
    field ← field_of asMap ctx "field" EmptyString unmarshalNString;
    operator ← field_of asMap ctx "operator" EmptyString unmarshalNFilterOperator;
    value ← field_of asMap ctx "value" VNil unmarshalOAnyValue;
    Done {| mfField := field; mfOperator := operator; mfValue := value |}).
Definition unmarshalInputPrometheusLabelFilter : unmarshaller PrometheusLabelFilter := fun ctx =>
  object {| pf_name := EmptyString; pf_value := EmptyString; pf_match := EmptyString |} (fun asMap =>
    name ← field_of asMap ctx "name" EmptyString unmarshalNString;
    value ← field_of asMap ctx "value" EmptyString unmarshalNString;
    matchType ← field_of asMap ctx "matchType" EmptyString unmarshalNLabelMatchType;
    Done {| pf_name := name; pf_value := value; pf_match := matchType |}).
Definition unmarshalInputStarRocksFilter : unmarshaller StarRocksFilter := fun ctx =>
  object {| fField := EmptyString; fOperator := EmptyString; fValue := EmptyString |} (fun asMap =>
    field ← field_of asMap ctx "field" EmptyString unmarshalNString;
    operator ← field_of asMap ctx "operator" EmptyString unmarshalNFilterOperator;
    value ← field_of asMap ctx "value" EmptyString unmarshalNString;
    Done {| fField := field; fOperator := operator; fValue := value |}).
Definition unmarshalInputStarRocksOrderBy : unmarshaller StarRocksOrderBy := fun ctx =>
  object {| oField := EmptyString; oDirection := EmptyString |} (fun asMap =>
    field ← field_of asMap ctx "field" EmptyString unmarshalNString;
    direction ← field_of asMap ctx "direction" EmptyString unmarshalNSortDirection;
    Done {| oField := field; oDirection := direction |}).
Definition unmarshalInputTemplateOrderBy : unmarshaller TemplateOrderBy := fun ctx =>
  object {| toField := EmptyString; toDirection := EmptyString |} (fun asMap =>
    field ← field_of asMap ctx "field" EmptyString unmarshalNString;
    direction ← field_of asMap ctx "direction" EmptyString unmarshalNSortDirection;
    Done {| toField := field; toDirection := direction |}).

Definition unmarshalNColumnValueInput : unmarshaller ColumnValueInput := fun ctx v =>
  on_path' ctx (unmarshalInputColumnValueInput ctx v).
Definition unmarshalNColumnValueInputs : unmarshaller (list ColumnValueInput) := slice unmarshalNColumnValueInput.
Definition unmarshalNMutationFilterInput : unmarshaller MutationFilterInput := fun ctx v =>
  on_path' ctx (unmarshalInputMutationFilterInput ctx v).
Definition unmarshalNMutationFilterInputs : unmarshaller (list MutationFilterInput) := slice unmarshalNMutationFilterInput.
Definition unmarshalNPrometheusLabelFilter : unmarshaller PrometheusLabelFilter := fun ctx v =>
  on_path' ctx (unmarshalInputPrometheusLabelFilter ctx v).
Definition unmarshalOPrometheusLabelFilters : unmarshaller (list PrometheusLabelFilter) :=
  if_nil [] (slice unmarshalNPrometheusLabelFilter).
Definition unmarshalNStarRocksFilter : unmarshaller StarRocksFilter := fun ctx v =>
  on_path' ctx (unmarshalInputStarRocksFilter ctx v).
Definition unmarshalOStarRocksFilters : unmarshaller (list StarRocksFilter) := if_nil [] (slice unmarshalNStarRocksFilter).
Definition unmarshalNStarRocksOrderBy : unmarshaller StarRocksOrderBy := fun ctx v =>
  on_path' ctx (unmarshalInputStarRocksOrderBy ctx v).
Definition unmarshalOStarRocksOrderBys : unmarshaller (list StarRocksOrderBy) := if_nil [] (slice unmarshalNStarRocksOrderBy).
Definition unmarshalNTemplateOrderBy : unmarshaller TemplateOrderBy := fun ctx v =>
  on_path' ctx (unmarshalInputTemplateOrderBy ctx v).
Definition unmarshalOTemplateOrderBys : unmarshaller (list TemplateOrderBy) := if_nil [] (slice unmarshalNTemplateOrderBy).

(** *** The arguments of the fields *)

(** [map\[string\]any{"table": ..., ...}], whose entries the field asserts to be of these types. *)
Record StarrocksArgs := {
  a_table : string;
  a_fields : list string;
  a_filters : list StarRocksFilter;
  a_orderBy : list StarRocksOrderBy;
  a_first : option Z;
  a_after : option string;
  a_offset : option Z;
  a_limit : option Z;
}.
Record TemplateQueryArgs := {
  t_templateName : string;
  t_parameters : option (list (string * GoVal));
  t_fields : list string;
  t_first : option Z;
  t_offset : option Z;
  t_orderBy : list TemplateOrderBy;
}.
Record PrometheusRangeArgs := {
  r_query : string;
  r_startTime : Time;
  r_endTime : Time;
  r_step : string;
  r_filters : list PrometheusLabelFilter;
}.

Section Args.
Variables (ctx : Path) (rawArgs : list (string * GoVal)).

Definition field_Mutation_clearCache_args : attempt (option string) :=
  ProcessArgField rawArgs "datasource" None unmarshalOString ctx.
Definition field_Mutation_deleteStarrocks_args : attempt (string * list MutationFilterInput) :=
  arg0 ← ProcessArgField rawArgs "table" EmptyString unmarshalNString ctx;
  arg1 ← ProcessArgField rawArgs "filter" [] unmarshalNMutationFilterInputs ctx;
  Done (arg0, arg1).
Definition field_Mutation_insertBatchStarrocks_args : attempt (string * list string * list (list GoVal)) :=
  arg0 ← ProcessArgField rawArgs "table" EmptyString unmarshalNString ctx;
  arg1 ← ProcessArgField rawArgs "columns" [] unmarshalNStrings ctx;
  arg2 ← ProcessArgField rawArgs "rows" [] unmarshalNAnyValueRows ctx;
  Done (arg0, arg1, arg2).
Definition field_Mutation_insertStarrocks_args : attempt (string * list ColumnValueInput) :=
  arg0 ← ProcessArgField rawArgs "table" EmptyString unmarshalNString ctx;
  arg1 ← ProcessArgField rawArgs "values" [] unmarshalNColumnValueInputs ctx;
  Done (arg0, arg1).
Definition field_Mutation_updateStarrocks_args : attempt (string * list ColumnValueInput * list MutationFilterInput) :=
  arg0 ← ProcessArgField rawArgs "table" EmptyString unmarshalNString ctx;
  arg1 ← ProcessArgField rawArgs "set" [] unmarshalNColumnValueInputs ctx;
  arg2 ← ProcessArgField rawArgs "filter" [] unmarshalNMutationFilterInputs ctx;
  Done (arg0, arg1, arg2).
Definition field_Query_prometheusInstant_args : attempt (string * option Time * list PrometheusLabelFilter) :=
  arg0 ← ProcessArgField rawArgs "query" EmptyString unmarshalNString ctx;
  arg1 ← ProcessArgField rawArgs "time" None unmarshalODateTime ctx;
  arg2 ← ProcessArgField rawArgs "filters" [] unmarshalOPrometheusLabelFilters ctx;
  Done (arg0, arg1, arg2).
(** [zero_time] is the zero [scalar.DateTime], of an argument that is absent. *)
Definition field_Query_prometheusRange_args (zero_time : Time) : attempt PrometheusRangeArgs :=
  arg0 ← ProcessArgField rawArgs "query" EmptyString unmarshalNString ctx;
  arg1 ← ProcessArgField rawArgs "startTime" zero_time unmarshalNDateTime ctx;
  arg2 ← ProcessArgField rawArgs "endTime" zero_time unmarshalNDateTime ctx;
  arg3 ← ProcessArgField rawArgs "step" EmptyString unmarshalNString ctx;
  arg4 ← ProcessArgField rawArgs "filters" [] unmarshalOPrometheusLabelFilters ctx;
  Done {| r_query := arg0; r_startTime := arg1; r_endTime := arg2; r_step := arg3; r_filters := arg4 |}.
Definition field_Query_starrocks_args : attempt StarrocksArgs :=
  arg0 ← ProcessArgField rawArgs "table" EmptyString unmarshalNString ctx;
  arg1 ← ProcessArgField rawArgs "fields" [] unmarshalOStrings ctx;
  arg2 ← ProcessArgField rawArgs "filters" [] unmarshalOStarRocksFilters ctx;
  arg3 ← ProcessArgField rawArgs "orderBy" [] unmarshalOStarRocksOrderBys ctx;
  arg4 ← ProcessArgField rawArgs "first" None unmarshalOInt ctx;
  arg5 ← ProcessArgField rawArgs "after" None unmarshalOString ctx;
  arg6 ← ProcessArgField rawArgs "offset" None unmarshalOInt ctx;
  arg7 ← ProcessArgField rawArgs "limit" None unmarshalOInt ctx;
  Done {| a_table := arg0; a_fields := arg1; a_filters := arg2; a_orderBy := arg3; a_first := arg4; a_after := arg5;
          a_offset := arg6; a_limit := arg7 |}.
Definition field_Query_templateList_args : attempt (option Z * option Z) :=
  arg0 ← ProcessArgField rawArgs "first" None unmarshalOInt ctx;
  arg1 ← ProcessArgField rawArgs "offset" None unmarshalOInt ctx;
  Done (arg0, arg1).
Definition field_Query_templateQuery_args : attempt TemplateQueryArgs :=
  arg0 ← ProcessArgField rawArgs "templateName" EmptyString unmarshalNString ctx;
  arg1 ← ProcessArgField rawArgs "parameters" None unmarshalOJSON ctx;
  arg2 ← ProcessArgField rawArgs "fields" [] unmarshalOStrings ctx;
  arg3 ← ProcessArgField rawArgs "first" None unmarshalOInt ctx;
  arg4 ← ProcessArgField rawArgs "offset" None unmarshalOInt ctx;
  arg5 ← ProcessArgField rawArgs "orderBy" [] unmarshalOTemplateOrderBys ctx;
  Done {| t_templateName := arg0; t_parameters := arg1; t_fields := arg2; t_first := arg3; t_offset := arg4;
          t_orderBy := arg5 |}.
End Args.

(** *** The cost of a field *)

(** [ComplexityRoot]: the functions that may be set for a field.  [main.go] sets none. *)
Record ComplexityRoot := {
  cClearCache : option (Z -> option string -> Z);
  cDeleteStarrocks : option (Z -> string * list MutationFilterInput -> Z);
  cInsertBatchStarrocks : option (Z -> string * list string * list (list GoVal) -> Z);
  cInsertStarrocks : option (Z -> string * list ColumnValueInput -> Z);
  cUpdateStarrocks : option (Z -> string * list ColumnValueInput * list MutationFilterInput -> Z);
  cPrometheusInstant : option (Z -> string * option Time * list PrometheusLabelFilter -> Z);
  cPrometheusRange : option (Z -> PrometheusRangeArgs -> Z);
  cStarrocks : option (Z -> StarrocksArgs -> Z);
  cTemplateList : option (Z -> option Z * option Z -> Z);
  cTemplateQuery : option (Z -> TemplateQueryArgs -> Z);
  (** The fields without arguments, by type and name. *)
  cField : string -> option (Z -> Z);
}.
Definition complexity_fields : list string :=
  ["Mutation.reloadTemplates"; "MutationResult.affectedRows"; "MutationResult.success"; "MutationResult.warning";
   "PageInfo.endCursor"; "PageInfo.hasNextPage"; "PageInfo.hasPreviousPage"; "PageInfo.startCursor";
   "PrometheusDataPoint.timestamp"; "PrometheusDataPoint.value"; "PrometheusInstantResult.resultType"; "PrometheusInstantResult.vectors";
   "PrometheusMatrix.metric"; "PrometheusMatrix.values"; "PrometheusMetricLabel.name"; "PrometheusMetricLabel.value";
   "PrometheusRangeResult.matrices"; "PrometheusRangeResult.resultType"; "PrometheusVector.metric"; "PrometheusVector.value";
   "ReloadTemplatesResult.duration"; "ReloadTemplatesResult.failures"; "ReloadTemplatesResult.successCount";
   "StarRocksConnection.edges"; "StarRocksConnection.nodes"; "StarRocksConnection.pageInfo"; "StarRocksConnection.totalCount";
   "StarRocksEdge.cursor"; "StarRocksEdge.node"; "StarRocksRow.data";
   "TemplateInfo.countEnabled"; "TemplateInfo.description"; "TemplateInfo.name"; "TemplateInfo.parameters";
   "TemplateLoadFailure.error"; "TemplateLoadFailure.name"; "TemplateParameterInfo.defaultValue"; "TemplateParameterInfo.name";
   "TemplateParameterInfo.required"; "TemplateParameterInfo.type"; "TemplateQueryConnection.nodes";
   "TemplateQueryConnection.pageInfo"; "TemplateQueryConnection.totalCount"].
(** A function that is set, on the arguments of the field; refused arguments have no cost. *)
Definition cost {A} (f : option (Z -> A -> Z)) (args : attempt A) (childComplexity : Z) : attempt (Z * bool) :=
  match f with
  | None => Done (0, false)
  | Some f => match args with Done a => Done (f childComplexity a, true) | Failed _ => Done (0, false) | Crashed => Crashed end
  end.
Definition Complexity (root : ComplexityRoot) (zero_time : Time) (ctx : Path) (typeName field : string) (childComplexity : Z)
    (rawArgs : list (string * GoVal)) : attempt (Z * bool) :=
  let key := typeName +:+ "." +:+ field in
  match assoc key
    [("Mutation.clearCache", cost (cClearCache root) (field_Mutation_clearCache_args ctx rawArgs) childComplexity);
     ("Mutation.deleteStarrocks", cost (cDeleteStarrocks root) (field_Mutation_deleteStarrocks_args ctx rawArgs) childComplexity);
     ("Mutation.insertBatchStarrocks", cost (cInsertBatchStarrocks root) (field_Mutation_insertBatchStarrocks_args ctx rawArgs) childComplexity);
     ("Mutation.insertStarrocks", cost (cInsertStarrocks root) (field_Mutation_insertStarrocks_args ctx rawArgs) childComplexity);
     ("Mutation.updateStarrocks", cost (cUpdateStarrocks root) (field_Mutation_updateStarrocks_args ctx rawArgs) childComplexity);
     ("Query.prometheusInstant", cost (cPrometheusInstant root) (field_Query_prometheusInstant_args ctx rawArgs) childComplexity);
     ("Query.prometheusRange", cost (cPrometheusRange root) (field_Query_prometheusRange_args ctx rawArgs zero_time) childComplexity);
     ("Query.starrocks", cost (cStarrocks root) (field_Query_starrocks_args ctx rawArgs) childComplexity);
     ("Query.templateList", cost (cTemplateList root) (field_Query_templateList_args ctx rawArgs) childComplexity);
     ("Query.templateQuery", cost (cTemplateQuery root) (field_Query_templateQuery_args ctx rawArgs) childComplexity)] with
  | Some c => c
  | None =>
      Done (match (if str_in complexity_fields key then cField root key else None) with
            | Some f => (f childComplexity, true)
            | None => (0, false)
            end)
  end.
(** What [main.go] passes. *)
Definition no_complexity : ComplexityRoot := {|
  cClearCache := None; cDeleteStarrocks := None; cInsertBatchStarrocks := None; cInsertStarrocks := None; cUpdateStarrocks := None;
  cPrometheusInstant := None; cPrometheusRange := None; cStarrocks := None; cTemplateList := None; cTemplateQuery := None;
  cField _ := None |}.
(** No field of this server has a cost of its own: gqlgen counts each as one more than its children. *)
Lemma no_own_complexity zero_time ctx typeName field childComplexity rawArgs :
  Complexity no_complexity zero_time ctx typeName field childComplexity rawArgs = Done (0, false).
Proof.
  unfold Complexity, cost. cbn [assoc cClearCache cDeleteStarrocks cInsertBatchStarrocks cInsertStarrocks cUpdateStarrocks cPrometheusInstant
    cPrometheusRange cStarrocks cTemplateList cTemplateQuery no_complexity cField].
  repeat (case_decide; [done|]). by destruct (str_in _ _).
Qed.
End Unmarshal.

(** ** The values of a client *)

(** How the parser of the request represents an argument of each type. *)
Definition of_string : string -> GoVal := VString.
Definition of_option {A} (w : A -> GoVal) (o : option A) : GoVal := from_option w VNil o.
Definition of_list {A} (w : A -> GoVal) (l : list A) : GoVal := VSlice (map w l).
Definition of_column (c : ColumnValueInput) : GoVal := VMap [("column", VString (Column c)); ("value", cvValue c)].
Definition of_mutation_filter (f : MutationFilterInput) : GoVal :=
  VMap [("field", VString (mfField f)); ("operator", VString (mfOperator f)); ("value", mfValue f)].
Definition of_label_filter (f : PrometheusLabelFilter) : GoVal :=
  VMap [("name", VString (pf_name f)); ("value", VString (pf_value f)); ("matchType", VString (pf_match f))].
Definition of_filter (f : StarRocksFilter) : GoVal :=
  VMap [("field", VString (fField f)); ("operator", VString (fOperator f)); ("value", VString (fValue f))].
Definition of_order (o : StarRocksOrderBy) : GoVal :=
  VMap [("field", VString (oField o)); ("direction", VString (oDirection o))].
Definition of_template_order (o : TemplateOrderBy) : GoVal :=
  VMap [("field", VString (toField o)); ("direction", VString (toDirection o))].

(** The values the schema and the scalars admit. *)
Definition any_ok (v : GoVal) : Prop := UnmarshalAnyValue v = Ok v.
Definition column_ok (c : ColumnValueInput) : Prop := any_ok (cvValue c).
Definition mutation_filter_ok (f : MutationFilterInput) : Prop := mfOperator f ∈ Enums.AllFilterOperator /\ any_ok (mfValue f).
Definition label_filter_ok (f : PrometheusLabelFilter) : Prop := pf_match f ∈ Enums.AllLabelMatchType.
Definition filter_ok (f : StarRocksFilter) : Prop := fOperator f ∈ Enums.AllFilterOperator.
Definition order_ok (o : StarRocksOrderBy) : Prop := oDirection o ∈ Enums.AllSortDirection.
Definition template_order_ok (o : TemplateOrderBy) : Prop := toDirection o ∈ Enums.AllSortDirection.
Definition int_ok (n : Z) : Prop := - 2 ^ 63 <= n < 2 ^ 63.
Definition opt_ok {A} (P : A -> Prop) (o : option A) : Prop := forall a, o = Some a -> P a.

(** ** Reading back what was written *)

Section Facts.
Context {GI : GqlgenInput} {GIL : GqlgenInputLaws GI} {FT : FloatText} {TM : TimeText}.
#[local] Set Default Proof Using "Type".

(** [u] reads what [w] writes, for the values [ok] admits; an argument that is not there has the zero value. *)
Definition reads {A} (u : unmarshaller A) (ok : A -> Prop) (w : A -> GoVal) : Prop :=
  forall ctx a, ok a -> u ctx (w a) = Done a.

Lemma reads_string : reads unmarshalNString (fun _ => True) VString.
Proof using GIL. intros ctx s _. unfold unmarshalNString. by rewrite UnmarshalString_string. Qed.
Lemma reads_any : reads unmarshalNAnyValue any_ok id.
Proof. intros ctx v H. unfold unmarshalNAnyValue, id. by rewrite H. Qed.
Lemma reads_optional_any : reads unmarshalOAnyValue any_ok id.
Proof. intros ctx v H. unfold unmarshalOAnyValue, if_nil, id. rewrite H. by destruct v. Qed.
Lemma reads_enum name all (u : unmarshaller string) :
  (forall ctx v, u ctx v = on_path ctx (enum_value (Enums.UnmarshalGQL name all EmptyString v))) ->
  reads u (fun s => s ∈ all) VString.
Proof.
  intros E ctx s H. rewrite E. unfold Enums.UnmarshalGQL, Enums.IsValid.
  apply str_in_iff in H. by rewrite H.
Qed.
Lemma reads_operator : reads unmarshalNFilterOperator (fun s => s ∈ Enums.AllFilterOperator) VString.
Proof. by eapply reads_enum. Qed.
Lemma reads_match : reads unmarshalNLabelMatchType (fun s => s ∈ Enums.AllLabelMatchType) VString.
Proof. by eapply reads_enum. Qed.
Lemma reads_direction : reads unmarshalNSortDirection (fun s => s ∈ Enums.AllSortDirection) VString.
Proof. by eapply reads_enum. Qed.

Lemma each_reads {A} (u : unmarshaller A) ok w ctx i l :
  reads u ok w -> Forall ok l -> each u ctx i (map w l) = Done l.
Proof.
  intros Hu H. revert i. induction H as [|a l Ha _ IH]; intros i; [done|]. simpl.
  rewrite (Hu _ _ Ha). cbn [mbind attempt_bind]. by rewrite IH.
Qed.
Lemma reads_list {A} (u : unmarshaller A) ok w : reads u ok w -> reads (slice u) (Forall ok) (of_list w).
Proof using GIL. intros Hu ctx l H. unfold slice, of_list. rewrite CoerceList_slice. by eapply each_reads. Qed.
Lemma reads_list_nil {A} (u : unmarshaller A) ok w : reads u ok w -> reads (if_nil [] (slice u)) (Forall ok) (of_list w).
Proof using GIL. intros Hu. exact (reads_list u ok w Hu). Qed.
Lemma reads_opt {A} (f : GoVal -> result A) (ok : A -> Prop) w :
  (forall a, ok a -> f (w a) = Ok a /\ w a <> VNil) ->
  reads (if_nil None (fun ctx v => on_path ctx (Some <$> f v))) (opt_ok ok) (of_option w).
Proof.
  intros Hf ctx [a|] H; [|done]. destruct (Hf a (H a eq_refl)) as [E Hn]. unfold if_nil, of_option. simpl.
  rewrite E. by destruct (w a).
Qed.
Lemma reads_opt_string : reads unmarshalOString (opt_ok (fun _ => True)) (of_option VString).
Proof using GIL. apply reads_opt. intros a _. by rewrite UnmarshalString_string. Qed.
Lemma reads_opt_int : reads unmarshalOInt (opt_ok int_ok) (of_option VInt64).
Proof using GIL. apply reads_opt. intros n Hn. by rewrite UnmarshalInt_int64. Qed.
Lemma reads_on_path {A} (u : unmarshaller A) ok w : reads u ok w -> reads (fun ctx v => on_path' ctx (u ctx v)) ok w.
Proof. intros Hu ctx a H. by rewrite Hu. Qed.

Lemma reads_opt_json : reads unmarshalOJSON (opt_ok (fun _ => True)) (of_option VMap).
Proof. by apply reads_opt. Qed.

#[local] Hint Resolve reads_string reads_any reads_optional_any reads_operator reads_match reads_direction
  reads_list reads_list_nil reads_opt_string reads_opt_int reads_opt_json : reads.
Lemma field_reads {A} (u : unmarshaller A) ok w asMap ctx k zero a :
  reads u ok w -> ok a -> assoc k asMap = Some (w a) -> field_of asMap ctx k zero u = Done a.
Proof. intros Hu Ha E. unfold field_of. rewrite E. by apply Hu. Qed.
(** Reads the next field of an object whose entries are written out. *)
Ltac read_field := erewrite field_reads; [cbn [mbind attempt_bind]|eauto with reads| |reflexivity]; [|by auto].
Ltac read_object := intros ctx x Hx; hnf in Hx; cbv beta delta [object]; cbn; repeat read_field; by destruct x.

Lemma reads_column : reads unmarshalInputColumnValueInput column_ok of_column.
Proof using GIL. read_object. Qed.
Lemma reads_mutation_filter : reads unmarshalInputMutationFilterInput mutation_filter_ok of_mutation_filter.
Proof using GIL. intros ctx x [Ho Hv]. revert ctx x Ho Hv. intros ctx x Ho Hv. cbn. repeat read_field. by destruct x. Qed.
Lemma reads_label_filter : reads unmarshalInputPrometheusLabelFilter label_filter_ok of_label_filter.
Proof using GIL. read_object. Qed.
Lemma reads_filter : reads unmarshalInputStarRocksFilter filter_ok of_filter.
Proof using GIL. read_object. Qed.
Lemma reads_order : reads unmarshalInputStarRocksOrderBy order_ok of_order.
Proof using GIL. read_object. Qed.
Lemma reads_template_order : reads unmarshalInputTemplateOrderBy template_order_ok of_template_order.
Proof using GIL. read_object. Qed.
#[local] Hint Resolve reads_on_path reads_column reads_mutation_filter reads_label_filter reads_filter reads_order
  reads_template_order : reads.

(** An argument is in the request as [w] writes it, or it is absent and has the zero value. *)
Definition given {A} (raw : list (string * GoVal)) (name : string) (zero : A) (ok : A -> Prop) (w : A -> GoVal) (a : A) : Prop :=
  (assoc name raw = Some (w a) /\ ok a) \/ (assoc name raw = None /\ a = zero).
Lemma arg_reads {A} (u : unmarshaller A) ok w raw name zero ctx a :
  reads u ok w -> given raw name zero ok w a -> ProcessArgField raw name zero u ctx = Done a.
Proof using GIL.
  intros Hu [[E Ha]|[E ->]]; [|by apply ProcessArgField_absent]. rewrite (ProcessArgField_present _ _ _ _ _ _ _ E). by apply Hu.
Qed.
#[local] Hint Unfold unmarshalNStrings unmarshalOStrings unmarshalNAnyValues unmarshalNAnyValueRows unmarshalNColumnValueInputs
  unmarshalNColumnValueInput unmarshalNMutationFilterInputs unmarshalNMutationFilterInput unmarshalOPrometheusLabelFilters
  unmarshalNPrometheusLabelFilter unmarshalOStarRocksFilters unmarshalNStarRocksFilter unmarshalOStarRocksOrderBys
  unmarshalNStarRocksOrderBy unmarshalOTemplateOrderBys unmarshalNTemplateOrderBy : readers.
Ltac read_args :=
  repeat (erewrite arg_reads; [cbn [mbind attempt_bind]|autounfold with readers; by eauto 6 with reads|eassumption]).

(** ** What a resolver can be given *)

(** Whatever the value was, it and what [u] makes of it are related by [R]. *)
Definition checks {A} (u : unmarshaller A) (R : GoVal -> A -> Prop) : Prop := forall ctx v a, u ctx v = Done a -> R v a.
(** The elements of a list, and a list that may be null. *)
Definition elements {A} (R : GoVal -> A -> Prop) (v : GoVal) (l : list A) : Prop := Forall2 R (CoerceList v) l.
Definition nullable {A} (R : GoVal -> list A -> Prop) (v : GoVal) (l : list A) : Prop := (v = VNil /\ l = []) \/ R v l.
(** A list argument: absent, or read from the value that was sent. *)
Definition sent {A} (raw : list (string * GoVal)) (name : string) (R : GoVal -> list A -> Prop) (l : list A) : Prop :=
  match assoc name raw with None => l = [] | Some v => R v l end.
(** A constant of an enumeration under a key of an input object; when the object, which may be
    null, does not have the key, the empty string, which is none. *)
Definition constant (name : string) (all : list string) (v : GoVal) (s : string) : Prop :=
  s ∈ all \/ (s = EmptyString /\ (v = VNil \/ exists m, v = VMap m /\ assoc name m = None)).

Lemma attempt_Done {A B} (m : attempt A) (f : A -> attempt B) b : (m ≫= f) = Done b <-> exists a, m = Done a /\ f a = Done b.
Proof. destruct m; simpl; naive_solver. Qed.
Lemma on_path_Done {A} ctx (r : result A) a : on_path ctx r = Done a <-> r = Ok a.
Proof. destruct r; simpl; split; intros [= ->]; done. Qed.
Lemma checks_on_path {A} (u : unmarshaller A) R : checks u R -> checks (fun ctx v => on_path' ctx (u ctx v)) R.
Proof. intros Hu ctx v a H. apply (Hu ctx v). by destruct (u ctx v). Qed.
Lemma checks_slice {A} (u : unmarshaller A) R : checks u R -> checks (slice u) (elements R).
Proof.
  intros Hu ctx v. unfold slice, elements. generalize 0. induction (CoerceList v) as [|x l IH]; intros i a H; simpl in H; [by injection H as <-|].
  apply attempt_Done in H as (y & Hy & H). apply attempt_Done in H as (ys & Hys & H). injection H as <-.
  constructor; [by eapply Hu|by eapply IH].
Qed.
Lemma checks_nil {A} (u : unmarshaller (list A)) R : checks u R -> checks (if_nil [] u) (nullable R).
Proof. intros Hu ctx v a H. unfold if_nil in H. destruct v; try (right; by eapply Hu). injection H as <-. by left. Qed.
Lemma checks_any : checks unmarshalNAnyValue (fun _ => any_ok).
Proof. intros ctx v a H. apply on_path_Done in H. unfold any_ok. revert H. unfold UnmarshalAnyValue. destruct (validateAnyValue v 0) eqn:E; [done|]. intros H. apply Ok_inj in H as <-. by rewrite E. Qed.
Lemma checks_optional_any : checks unmarshalOAnyValue (fun _ => any_ok).
Proof. intros ctx v a H. unfold unmarshalOAnyValue, if_nil in H. destruct v; try (by eapply checks_any). by injection H as <-. Qed.
Lemma checks_enum name all (u : unmarshaller string) :
  (forall ctx v, u ctx v = on_path ctx (enum_value (Enums.UnmarshalGQL name all EmptyString v))) -> checks u (fun _ s => s ∈ all).
Proof.
  intros E ctx v a H. rewrite E in H. apply on_path_Done in H. unfold Enums.UnmarshalGQL, Enums.IsValid, enum_value in H.
  destruct v; try done. destruct (str_in all s) eqn:Es; [|done]. injection H as <-. by apply str_in_iff.
Qed.
Lemma field_any (u : unmarshaller GoVal) asMap ctx k a :
  checks u (fun _ => any_ok) -> field_of asMap ctx k VNil u = Done a -> any_ok a.
Proof. intros Hu H. unfold field_of in H. destruct (assoc k asMap); [by eapply Hu|by injection H as <-]. Qed.
Lemma field_constant (u : unmarshaller string) all asMap ctx k a :
  checks u (fun _ s => s ∈ all) -> field_of asMap ctx k EmptyString u = Done a -> constant k all (VMap asMap) a.
Proof.
  intros Hu H. unfold field_of in H. destruct (assoc k asMap) eqn:E; [left; by eapply Hu|].
  injection H as <-. right. split; [done|]. right. by exists asMap.
Qed.
Lemma checks_arg {A} (u : unmarshaller (list A)) R raw k ctx l :
  checks u R -> ProcessArgField raw k [] u ctx = Done l -> sent raw k R l.
Proof using GIL.
  intros Hu H. unfold sent. destruct (assoc k raw) as [v|] eqn:E; [rewrite (ProcessArgField_present _ _ _ _ _ _ _ E) in H; by eapply Hu|].
  rewrite (ProcessArgField_absent _ _ _ _ _ _ E) in H. by injection H as <-.
Qed.
(** Takes the parts of an object apart. *)
Ltac parts H :=
  let x := fresh "x" in let Hx := fresh "Hx" in
  first [injection H as <- | apply attempt_Done in H as (x & Hx & H); parts H].
Ltac null_object H := injection H as <-; right; split; [done|by left].

Lemma checks_column : checks unmarshalNColumnValueInput (fun _ => column_ok).
Proof.
  apply checks_on_path. intros ctx v a H. unfold unmarshalInputColumnValueInput, object in H. destruct v; try done; [by injection H as <-|].
  parts H. by eapply field_any; [apply checks_any|].
Qed.
Definition mutation_filter_checked (v : GoVal) (f : MutationFilterInput) : Prop :=
  constant "operator" Enums.AllFilterOperator v (mfOperator f) /\ any_ok (mfValue f).
Lemma checks_mutation_filter : checks unmarshalNMutationFilterInput mutation_filter_checked.
Proof.
  apply checks_on_path. intros ctx v a H. unfold unmarshalInputMutationFilterInput, object in H.
  destruct v; try done; [split; [null_object H|by injection H as <-]|]. parts H.
  split; [by eapply field_constant; [eapply checks_enum|]|by eapply field_any; [apply checks_optional_any|]].
Qed.
Definition filter_checked (v : GoVal) (f : StarRocksFilter) : Prop := constant "operator" Enums.AllFilterOperator v (fOperator f).
Lemma checks_filter : checks unmarshalNStarRocksFilter filter_checked.
Proof.
  apply checks_on_path. intros ctx v a H. unfold unmarshalInputStarRocksFilter, object in H.
  destruct v; try done; [null_object H|]. parts H. by eapply field_constant; [eapply checks_enum|].
Qed.
Definition order_checked (v : GoVal) (o : StarRocksOrderBy) : Prop := constant "direction" Enums.AllSortDirection v (oDirection o).
Lemma checks_order : checks unmarshalNStarRocksOrderBy order_checked.
Proof.
  apply checks_on_path. intros ctx v a H. unfold unmarshalInputStarRocksOrderBy, object in H.
  destruct v; try done; [null_object H|]. parts H. by eapply field_constant; [eapply checks_enum|].
Qed.
Definition template_order_checked (v : GoVal) (o : TemplateOrderBy) : Prop := constant "direction" Enums.AllSortDirection v (toDirection o).
Lemma checks_template_order : checks unmarshalNTemplateOrderBy template_order_checked.
Proof.
  apply checks_on_path. intros ctx v a H. unfold unmarshalInputTemplateOrderBy, object in H.
  destruct v; try done; [null_object H|]. parts H. by eapply field_constant; [eapply checks_enum|].
Qed.
Definition label_filter_checked (v : GoVal) (f : PrometheusLabelFilter) : Prop := constant "matchType" Enums.AllLabelMatchType v (pf_match f).
Lemma checks_label_filter : checks unmarshalNPrometheusLabelFilter label_filter_checked.
Proof.
  apply checks_on_path. intros ctx v a H. unfold unmarshalInputPrometheusLabelFilter, object in H.
  destruct v; try done; [null_object H|]. parts H. by eapply field_constant; [eapply checks_enum|].
Qed.
(** The next argument is not looked at; it is, with [u]. *)
Ltac skip_arg H := apply attempt_Done in H as (? & _ & H).
Ltac list_arg H H1 := apply attempt_Done in H as (? & H1 & H).

(** ** Theorems *)

(** What arrives at a resolver when the arguments of the request are those of the record, each
    in the request or absent, in any order and beside any other keys. *)
Definition starrocks_given (raw : list (string * GoVal)) (a : StarrocksArgs) : Prop :=
  given raw "table" EmptyString (fun _ => True) VString (a_table a)
  /\ given raw "fields" [] (Forall (fun _ => True)) (of_list VString) (a_fields a)
  /\ given raw "filters" [] (Forall filter_ok) (of_list of_filter) (a_filters a)
  /\ given raw "orderBy" [] (Forall order_ok) (of_list of_order) (a_orderBy a)
  /\ given raw "first" None (opt_ok int_ok) (of_option VInt64) (a_first a)
  /\ given raw "after" None (opt_ok (fun _ => True)) (of_option VString) (a_after a)
  /\ given raw "offset" None (opt_ok int_ok) (of_option VInt64) (a_offset a)
  /\ given raw "limit" None (opt_ok int_ok) (of_option VInt64) (a_limit a).
Definition update_given (raw : list (string * GoVal)) (t : string) (set : list ColumnValueInput)
    (filter : list MutationFilterInput) : Prop :=
  given raw "table" EmptyString (fun _ => True) VString t
  /\ given raw "set" [] (Forall column_ok) (of_list of_column) set
  /\ given raw "filter" [] (Forall mutation_filter_ok) (of_list of_mutation_filter) filter.
Definition batch_given (raw : list (string * GoVal)) (t : string) (columns : list string) (rows : list (list GoVal)) : Prop :=
  given raw "table" EmptyString (fun _ => True) VString t
  /\ given raw "columns" [] (Forall (fun _ => True)) (of_list VString) columns
  /\ given raw "rows" [] (Forall (Forall any_ok)) (of_list (of_list id)) rows.
Definition insert_given (raw : list (string * GoVal)) (t : string) (values : list ColumnValueInput) : Prop :=
  given raw "table" EmptyString (fun _ => True) VString t
  /\ given raw "values" [] (Forall column_ok) (of_list of_column) values.
Definition delete_given (raw : list (string * GoVal)) (t : string) (filter : list MutationFilterInput) : Prop :=
  given raw "table" EmptyString (fun _ => True) VString t
  /\ given raw "filter" [] (Forall mutation_filter_ok) (of_list of_mutation_filter) filter.
(** An instant is sent as a text that [time.Parse] reads as it. *)
Definition time_given (raw : list (string * GoVal)) (name : string) (zero t : Time) : Prop :=
  (exists s, assoc name raw = Some (VString s) /\ Parse s = Some t) \/ (assoc name raw = None /\ t = zero).
Definition opt_time_given (raw : list (string * GoVal)) (name : string) (t : option Time) : Prop :=
  (exists s, assoc name raw = Some (VString s) /\ Parse s = t /\ t <> None)
  \/ ((assoc name raw = None \/ assoc name raw = Some VNil) /\ t = None).
Definition instant_given (raw : list (string * GoVal)) (q : string) (time : option Time) (filters : list PrometheusLabelFilter) : Prop :=
  given raw "query" EmptyString (fun _ => True) VString q
  /\ opt_time_given raw "time" time
  /\ given raw "filters" [] (Forall label_filter_ok) (of_list of_label_filter) filters.
Definition range_given (raw : list (string * GoVal)) (zero_time : Time) (a : PrometheusRangeArgs) : Prop :=
  given raw "query" EmptyString (fun _ => True) VString (r_query a)
  /\ time_given raw "startTime" zero_time (r_startTime a)
  /\ time_given raw "endTime" zero_time (r_endTime a)
  /\ given raw "step" EmptyString (fun _ => True) VString (r_step a)
  /\ given raw "filters" [] (Forall label_filter_ok) (of_list of_label_filter) (r_filters a).
Definition template_given (raw : list (string * GoVal)) (a : TemplateQueryArgs) : Prop :=
  given raw "templateName" EmptyString (fun _ => True) VString (t_templateName a)
  /\ given raw "parameters" None (opt_ok (fun _ => True)) (of_option VMap) (t_parameters a)
  /\ given raw "fields" [] (Forall (fun _ => True)) (of_list VString) (t_fields a)
  /\ given raw "first" None (opt_ok int_ok) (of_option VInt64) (t_first a)
  /\ given raw "offset" None (opt_ok int_ok) (of_option VInt64) (t_offset a)
  /\ given raw "orderBy" [] (Forall template_order_ok) (of_list of_template_order) (t_orderBy a).
Definition list_given (raw : list (string * GoVal)) (first offset : option Z) : Prop :=
  given raw "first" None (opt_ok int_ok) (of_option VInt64) first
  /\ given raw "offset" None (opt_ok int_ok) (of_option VInt64) offset.

Lemma arg_time raw name zero ctx t :
  time_given raw name zero t -> ProcessArgField raw name zero unmarshalNDateTime ctx = Done t.
Proof using GIL.
  intros [(s & E & Hs)|[E ->]]; [|by apply ProcessArgField_absent].
  rewrite (ProcessArgField_present _ _ _ _ _ _ _ E). unfold unmarshalNDateTime. cbn. by rewrite Hs.
Qed.
Lemma arg_opt_time raw name ctx t :
  opt_time_given raw name t -> ProcessArgField raw name None unmarshalODateTime ctx = Done t.
Proof using GIL.
  intros [(s & E & Hs & Ht)|[[E|E] ->]]; [|by apply ProcessArgField_absent|by rewrite (ProcessArgField_present _ _ _ _ _ _ _ E)].
  rewrite (ProcessArgField_present _ _ _ _ _ _ _ E). unfold unmarshalODateTime. cbn. rewrite Hs. by destruct t.
Qed.

(** C32: arguments survive the transport.  For each of the ten fields that have arguments, whatever
    subset of them is sent and in whatever order, the resolver is called with exactly the values
    that were sent, each under its own name, and with the zero value for those that were not. *)
Theorem arguments_arrive zero_time ctx raw :
  (forall a, starrocks_given raw a -> field_Query_starrocks_args ctx raw = Done a)
  /\ (forall t set filter, update_given raw t set filter ->
        field_Mutation_updateStarrocks_args ctx raw = Done (t, set, filter))
  /\ (forall t columns rows, batch_given raw t columns rows ->
        field_Mutation_insertBatchStarrocks_args ctx raw = Done (t, columns, rows))
  /\ (forall t values, insert_given raw t values -> field_Mutation_insertStarrocks_args ctx raw = Done (t, values))
  /\ (forall t filter, delete_given raw t filter -> field_Mutation_deleteStarrocks_args ctx raw = Done (t, filter))
  /\ (forall ds, given raw "datasource" None (opt_ok (fun _ => True)) (of_option VString) ds ->
        field_Mutation_clearCache_args ctx raw = Done ds)
  /\ (forall q time filters, instant_given raw q time filters ->
        field_Query_prometheusInstant_args ctx raw = Done (q, time, filters))
  /\ (forall a, range_given raw zero_time a -> field_Query_prometheusRange_args ctx raw zero_time = Done a)
  /\ (forall a, template_given raw a -> field_Query_templateQuery_args ctx raw = Done a)
  /\ (forall first offset, list_given raw first offset -> field_Query_templateList_args ctx raw = Done (first, offset)).
Proof using GIL.
  split_and!.
  - intros a (? & ? & ? & ? & ? & ? & ? & ?). unfold field_Query_starrocks_args. read_args. by destruct a.
  - intros t set filter (? & ? & ?). unfold field_Mutation_updateStarrocks_args. by read_args.
  - intros t columns rows (? & ? & ?). unfold field_Mutation_insertBatchStarrocks_args. by read_args.
  - intros t values (? & ?). unfold field_Mutation_insertStarrocks_args. by read_args.
  - intros t filter (? & ?). unfold field_Mutation_deleteStarrocks_args. by read_args.
  - intros ds ?. unfold field_Mutation_clearCache_args. by eapply arg_reads; [apply reads_opt_string|].
  - intros q time filters (? & Ht & ?). unfold field_Query_prometheusInstant_args. read_args.
    rewrite (arg_opt_time _ _ _ _ Ht). cbn [mbind attempt_bind]. by read_args.
  - intros a (? & Hs & He & ? & ?). unfold field_Query_prometheusRange_args. read_args.
    rewrite (arg_time _ _ _ _ _ Hs). cbn [mbind attempt_bind]. rewrite (arg_time _ _ _ _ _ He). cbn [mbind attempt_bind].
    read_args. by destruct a.
  - intros a (? & ? & ? & ? & ? & ?). unfold field_Query_templateQuery_args. read_args. by destruct a.
  - intros first offset (? & ?). unfold field_Query_templateList_args. by read_args.
Qed.

(** C33: what was not checked reaches no resolver.  Whatever a request carries, when a resolver is
    called its list arguments were read element by element from the values that were sent under
    their names (or are empty, when nothing or a nullable null was): the values of columns, rows
    and mutation filters are such that the AnyValue scalar admits (JSON types, bounded nesting),
    and the operator of a filter, the match type of a label filter and the direction of an
    ordering are constants of the schema, except that an object without that key, which only the
    validation of the document stands against, leaves the empty string. *)
Theorem arguments_checked zero_time ctx raw :
  (forall t values, field_Mutation_insertStarrocks_args ctx raw = Done (t, values) ->
     sent raw "values" (elements (fun _ => column_ok)) values)
  /\ (forall t set filter, field_Mutation_updateStarrocks_args ctx raw = Done (t, set, filter) ->
        sent raw "set" (elements (fun _ => column_ok)) set /\ sent raw "filter" (elements mutation_filter_checked) filter)
  /\ (forall t filter, field_Mutation_deleteStarrocks_args ctx raw = Done (t, filter) ->
        sent raw "filter" (elements mutation_filter_checked) filter)
  /\ (forall t columns rows, field_Mutation_insertBatchStarrocks_args ctx raw = Done (t, columns, rows) ->
        sent raw "rows" (elements (elements (fun _ => any_ok))) rows)
  /\ (forall a, field_Query_starrocks_args ctx raw = Done a ->
        sent raw "filters" (nullable (elements filter_checked)) (a_filters a)
        /\ sent raw "orderBy" (nullable (elements order_checked)) (a_orderBy a))
  /\ (forall q time filters, field_Query_prometheusInstant_args ctx raw = Done (q, time, filters) ->
        sent raw "filters" (nullable (elements label_filter_checked)) filters)
  /\ (forall a, field_Query_prometheusRange_args ctx raw zero_time = Done a ->
        sent raw "filters" (nullable (elements label_filter_checked)) (r_filters a))
  /\ (forall a, field_Query_templateQuery_args ctx raw = Done a ->
        sent raw "orderBy" (nullable (elements template_order_checked)) (t_orderBy a)).
Proof using GIL.
  pose proof (checks_slice _ _ checks_column) as Hc. pose proof (checks_slice _ _ checks_mutation_filter) as Hf.
  split_and!.
  - intros t values H. skip_arg H. list_arg H H1. injection H as _ <-. by eapply checks_arg.
  - intros t set filter H. skip_arg H. list_arg H H1. list_arg H H2. injection H as _ <- <-. split; by eapply checks_arg.
  - intros t filter H. skip_arg H. list_arg H H1. injection H as _ <-. by eapply checks_arg.
  - intros t columns rows H. do 2 skip_arg H. list_arg H H1. injection H as _ _ <-.
    eapply checks_arg; [|exact H1]. do 2 apply checks_slice. exact checks_any.
  - intros a H. unfold field_Query_starrocks_args in H. do 2 skip_arg H. list_arg H H1. list_arg H H2. do 4 skip_arg H.
    injection H as <-. simpl. split; (eapply checks_arg; [|eassumption]); apply checks_nil, checks_slice; [exact checks_filter|exact checks_order].
  - intros q time filters H. do 2 skip_arg H. list_arg H H1. injection H as _ _ <-.
    eapply checks_arg; [|exact H1]. apply checks_nil, checks_slice, checks_label_filter.
  - intros a H. unfold field_Query_prometheusRange_args in H. do 4 skip_arg H. list_arg H H1. injection H as <-.
    eapply checks_arg; [|exact H1]. apply checks_nil, checks_slice, checks_label_filter.
  - intros a H. unfold field_Query_templateQuery_args in H. do 5 skip_arg H. list_arg H H1. injection H as <-.
    eapply checks_arg; [|exact H1]. apply checks_nil, checks_slice, checks_template_order.
Qed.
End Facts.

(** ** Concrete instances *)

Section Witnesses.
(** gqlgen's runtime on the values a parser produces. *)
Definition demo_gqlgen_input : GqlgenInput := {|
  UnmarshalString v := match v with VString s => Ok s | _ => Err (Errorf (Sprintf "%T is not a string" [AVal v])) end;
  UnmarshalInt v := match v with VInt64 n => Ok n | _ => Err (Errorf (Sprintf "%T is not an int" [AVal v])) end;
  CoerceList v := match v with VSlice l => l | VNil => [] | _ => [v] end;
  ErrorOnPath _ e := e;
  ProcessArgField A raw name zero u ctx :=
    match assoc name raw with Some v => u (ctx ++ [PathField name]) v | None => Done zero end |}.
#[local] Existing Instance demo_gqlgen_input.
#[local] Instance demo_gqlgen_input_laws : GqlgenInputLaws demo_gqlgen_input.
Proof. split; intros; try done; simpl; by rewrite H. Defined.
#[local] Existing Instance demo_float_text.
#[local] Instance demo_time : TimeText := {| Time := Z; Format _ := EmptyString; Parse s := if String.eqb s EmptyString then None else Some (slen s) |}.

Definition demo_update : list (string * GoVal) :=
  [("filter", VSlice [VMap [("field", VString "id"); ("operator", VString "IN"); ("value", VSlice [VInt64 1; VInt64 2])]]);
   ("set", VSlice [VMap [("column", VString "name"); ("value", VString "x")]]); ("table", VString "users")].
Definition demo_set : list ColumnValueInput := [{| Column := "name"; cvValue := VString "x" |}].
Definition demo_filter : list MutationFilterInput :=
  [{| mfField := "id"; mfOperator := "IN"; mfValue := VSlice [VInt64 1; VInt64 2] |}].
Definition demo_range : list (string * GoVal) :=
  [("endTime", VString "later"); ("query", VString "up"); ("startTime", VString "now")].
Lemma arguments_arrive_witness :
  field_Mutation_updateStarrocks_args [] demo_update = Done ("users", demo_set, demo_filter)
  /\ field_Query_prometheusRange_args (TM := demo_time) [] demo_range 0
     = Done {| r_query := "up"; r_startTime := 3 : @Time demo_time; r_endTime := 5 : @Time demo_time; r_step := EmptyString; r_filters := [] |}.
Proof.
  split.
  - apply (proj1 (proj2 (arguments_arrive (TM := demo_time) 0 [] demo_update))). unfold update_given.
    split_and!; left; (split; [reflexivity|]); [done|repeat constructor..].
  - destruct (arguments_arrive (TM := demo_time) 0 [] demo_range) as (_ & _ & _ & _ & _ & _ & _ & H & _). apply H.
    split_and!; [left; by split|left; by eexists|left; by eexists|right; by split|right; by split].
Defined.

(** 65 lists inside each other. *)
Definition demo_bomb : GoVal := Nat.iter 65 (fun v => VSlice [v]) VNil.
Example demo_bomb_refused :
  match field_Mutation_insertStarrocks_args []
          [("table", VString "t"); ("values", VSlice [VMap [("column", VString "a"); ("value", demo_bomb)]])] with
  | Failed _ => true
  | _ => false
  end = true.
Proof. vm_compute. reflexivity. Qed.
(** A filter without its operator. *)
Definition demo_keyless : list (string * GoVal) := [("filter", VSlice [VMap [("field", VString "id")]])].
Lemma arguments_checked_witness :
  sent demo_update "filter" (elements mutation_filter_checked) demo_filter
  /\ sent demo_keyless "filter" (elements mutation_filter_checked) [{| mfField := "id"; mfOperator := EmptyString; mfValue := VNil |}].
Proof.
  split.
  - apply (proj1 (proj2 (arguments_checked (TM := demo_time) 0 [] demo_update)) "users" demo_set). reflexivity.
  - apply (proj1 (proj2 (proj2 (arguments_checked (TM := demo_time) 0 [] demo_keyless))) EmptyString). reflexivity.
Defined.
End Witnesses.
