(* ===== verification/GraphqlOutput.v ===== *)
(** * internal/graphql/generated/generated.go: the answer

    The [field], [object] and [type] regions of the generated executor: from a selection set
    and the resolvers to the value that is written into [data].  A computation is [X W A]: it
    has a state, the world of the resolvers and the errors added to the response so far, and
    panics with [None].  gqlgen's runtime (collecting fields, resolving one field, the
    concurrent parts) is the class [Gqlgen]; its laws say what the documentation of the
    library says of them and leave the interleaving open. *)
From S2P Require Import Prelude GoStrings Values GoConv FuncMap Json JsonRaw Scalar.
From S2P Require Import Resolver PrometheusResolver TemplateResolver GraphqlInput.
From S2P Require Mutation TemplateEngine TemplateLoader Effects.
Import Mutation (ColumnValueInput, MutationFilterInput, MutationResult, resSuccess, AffectedRows, Warning).

(** ** Computations *)

(** The errors of the response, each with the path of its field. *)
Notation FieldError := (Path * error)%type.
Record St (W : Type) := { world : W; errs : list FieldError }.
Arguments Build_St {W} _ _.
Arguments world {W} _.
Arguments errs {W} _.
Definition X (W A : Type) : Type := St W -> option A * St W.
Definition xret {W A} (a : A) : X W A := fun s => (Some a, s).
Definition xbind {W A B} (m : X W A) (f : A -> X W B) : X W B := fun s =>
  match m s with (Some a, s') => f a s' | (None, s') => (None, s') end.
Definition panic {W A} : X W A := fun s => (None, s).
Definition add_error {W} (ctx : Path) (e : error) : X W unit := fun s =>
  (Some tt, {| world := world s; errs := errs s ++ [(ctx, e)] |}).
Notation "x <== m ; k" := (xbind m (fun x => k)) (at level 100, m at next level, right associativity).

(** What a computation ensures of its result and the errors there are then; it changes the
    world only along [R] and takes no error back. *)
Definition ensures {W A} (R : relation W) (m : X W A) (Q : A -> list FieldError -> Prop) : Prop :=
  forall s, let r := m s in
    R (world s) (world r.2) /\ errs s `prefix_of` errs r.2 /\ forall a, r.1 = Some a -> Q a (errs r.2).
(** A fact about errors that stays true when more are added. *)
Definition stable {A} (Q : A -> list FieldError -> Prop) : Prop :=
  forall a e e', Q a e -> e `prefix_of` e' -> Q a e'.

(** What is to be written into the response: [graphql.Null] and the other marshalers.  A float
    is checked, and the JSON scalar encoded, only when it is written. *)
Inductive Marshaler :=
  | MNull
  | MString (s : string)
  | MInt (z : Z)
  | MBoolean (b : bool)
  | MFloat (ctx : Path) (f : spec_float)
  | MJson (v : list (string * GoVal))
  | MArray (l : list Marshaler)
  | MObject (fields : list (string * Marshaler)).
Definition is_null (m : Marshaler) : bool := match m with MNull => true | _ => false end.

(** What has been written. *)
Inductive Data :=
  | DNull
  | DString (s : string)
  | DInt (z : Z)
  | DBoolean (b : bool)
  | DFloat (text : string)
  | DText (json : string)
  | DArray (l : list Data)
  | DObject (fields : list (string * Data)).

Class Gqlgen := {
  Selections : Type;
  CollectedField : Type;
  fName : CollectedField -> string;
  fAlias : CollectedField -> string;
  fSelections : CollectedField -> Selections;
  (** [field.ArgumentMap(ec.Variables)]. *)
  ArgumentMap : CollectedField -> list (string * GoVal);
  CollectFields : Selections -> list string -> list CollectedField;
  HasFieldError : Path -> list FieldError -> bool;
  (** The text of a float, or why it has none. *)
  MarshalFloatContext : spec_float -> result string;
  (** [ec.Recover] of what was panicked with. *)
  Recovered : error;
  ResolveField : forall W A T : Type, Path -> CollectedField -> (Path -> X W (result A)) ->
    (A -> X W (result T)) -> (Path -> Selections -> T -> X W Marshaler) -> bool -> bool -> X W Marshaler;
  RootResolverMiddleware : forall W : Type, X W Marshaler -> X W Marshaler;
  MarshalSliceConcurrently : forall W : Type, Path -> nat -> (Path -> nat -> X W Marshaler) -> X W (list Marshaler);
  (** [FieldSet.Dispatch]: runs the delayed fields and fills in their values. *)
  Dispatch : forall W : Type, list (Marshaler + X W Marshaler) -> X W (list Marshaler);
}.
Arguments ResolveField {Gqlgen W A T}.
Arguments RootResolverMiddleware {Gqlgen W}.
Arguments MarshalSliceConcurrently {Gqlgen W}.
Arguments Dispatch {Gqlgen W}.

Definition child_path {GX : Gqlgen} (ctx : Path) (field : CollectedField) : Path := ctx ++ [PathField (fAlias field)].
Class GqlgenLaws (GX : Gqlgen) := {
  HasFieldError_some ctx es : HasFieldError ctx es = true -> es <> [];
  (** Infinities and NaN cannot be marshalled. *)
  MarshalFloatContext_finite f : (exists t, MarshalFloatContext f = Ok t) <-> not_finite f = false;
  RootResolverMiddleware_none W (m : X W Marshaler) : RootResolverMiddleware m = m;
  (** No arguments: the field is null. *)
  ResolveField_refused W A T ctx field init (resolve : A -> X W (result T)) marshal nonNull s e s1 :
    init (child_path ctx field) s = (Some (Err e), s1) ->
    ResolveField ctx field init resolve marshal true nonNull s = (Some MNull, s1);
  (** The resolver fails: the error is added and the field is null. *)
  ResolveField_failed W A T ctx field init (resolve : A -> X W (result T)) marshal nonNull s a s1 e s2 :
    init (child_path ctx field) s = (Some (Ok a), s1) -> resolve a s1 = (Some (Err e), s2) ->
    exists e', ResolveField ctx field init resolve marshal true nonNull s
               = (Some MNull, (add_error (child_path ctx field) e' s2).2);
  ResolveField_value W A T ctx field init (resolve : A -> X W (result T)) marshal nonNull s a s1 v s2 m s3 :
    init (child_path ctx field) s = (Some (Ok a), s1) -> resolve a s1 = (Some (Ok v), s2) ->
    marshal (child_path ctx field) (fSelections field) v s2 = (Some m, s3) ->
    ResolveField ctx field init resolve marshal true nonNull s = (Some m, s3);
  (** A panic of the resolver or while the value is marshalled is recovered from. *)
  ResolveField_panicked W A T ctx field init (resolve : A -> X W (result T)) marshal nonNull s a s1 s2 :
    init (child_path ctx field) s = (Some (Ok a), s1) ->
    (resolve a s1 = (None, s2)
     \/ exists v s', resolve a s1 = (Some (Ok v), s') /\ marshal (child_path ctx field) (fSelections field) v s' = (None, s2)) ->
    exists e', ResolveField ctx field init resolve marshal true nonNull s
               = (Some MNull, (add_error (child_path ctx field) e' s2).2);
  (** Every element is marshalled once, in some interleaving. *)
  MarshalSliceConcurrently_each W (R : relation W) (HR : PreOrder R) ctx n (f : Path -> nat -> X W Marshaler)
      (Q : nat -> Marshaler -> list FieldError -> Prop) :
    (forall i, stable (Q i)) -> (forall i, (i < n)%nat -> ensures R (f (ctx ++ [PathIndex (Z.of_nat i)]) i) (Q i)) ->
    ensures R (MarshalSliceConcurrently ctx n f) (fun ms es => length ms = n /\ forall i m, ms !! i = Some m -> Q i m es);
  Dispatch_each W (R : relation W) (HR : PreOrder R) (slots : list (Marshaler + X W Marshaler))
      (Q : nat -> Marshaler -> list FieldError -> Prop) s :
    (forall i, stable (Q i)) -> (forall i m, slots !! i = Some (inl m) -> Q i m (errs s)) ->
    (forall i c, slots !! i = Some (inr c) -> ensures R c (Q i)) ->
    let r := Dispatch slots s in
    R (world s) (world r.2) /\ errs s `prefix_of` errs r.2
    /\ ((forall i c s', slots !! i = Some (inr c) -> (c s').1 <> None) -> r.1 <> None)
    /\ forall ms, r.1 = Some ms -> length ms = length slots /\ forall i m, ms !! i = Some m -> Q i m (errs r.2);
}.

Section Marshal.
Context {GX : Gqlgen} {JT : JsonText} {W : Type}.
(** The text of a load failure. *)
Variable Sprintf_text : format -> string.
Notation E := (X W Marshaler).

Definition errNull : error := Errorf (Sprintf "the requested element is null which the schema does not allow" []).
(** The branch that a null takes in a [marshalN]. *)
Definition disallow (ctx : Path) : E := fun s =>
  if HasFieldError ctx (errs s) then (Some MNull, s) else (Some MNull, (add_error ctx errNull s).2).
Definition not_null (ctx : Path) (res : Marshaler) : E := if is_null res then disallow ctx else xret res.
Definition not_nil {A} (ctx : Path) (v : option A) (k : A -> E) : E :=
  match v with None => disallow ctx | Some v => k v end.
(** [for _, e := range ret { if e == graphql.Null { return graphql.Null } }]. *)
Definition null_if_any (ret : list Marshaler) : Marshaler := if existsb is_null ret then MNull else MArray ret.
(** A list of pointers. *)
Definition marshal_slice {A} (ctx : Path) (marshal : Path -> option A -> E) (v : list A) : E :=
  ret <== MarshalSliceConcurrently ctx (length v) (fun ctx i => marshal ctx (v !! i)) ;
  xret (null_if_any ret).

(** *** Scalars *)

Definition marshalNBoolean (ctx : Path) (sel : Selections) (v : bool) : E := not_null ctx (MBoolean v).
Definition marshalNString (ctx : Path) (sel : Selections) (v : string) : E := not_null ctx (MString v).
Definition marshalNInt (ctx : Path) (sel : Selections) (v : Z) : E := not_null ctx (MInt v).
Definition marshalNFloat (ctx : Path) (sel : Selections) (v : spec_float) : E := not_null ctx (MFloat ctx v).
Definition marshalNJSON (ctx : Path) (sel : Selections) (v : option (list (string * GoVal))) : E :=
  not_nil ctx v (fun v => not_null ctx (MJson v)).
Fixpoint marshal_each (ctx : Path) (sel : Selections) (v : list (list (string * GoVal))) : X W (list Marshaler) :=
  match v with
  | [] => xret []
  | x :: v' => m <== marshalNJSON ctx sel (Some x) ; ms <== marshal_each ctx sel v' ; xret (m :: ms)
  end.
Definition marshalNJSONs (ctx : Path) (sel : Selections) (v : list (list (string * GoVal))) : E :=
  ret <== marshal_each ctx sel v ; xret (null_if_any ret).
Definition marshalOString (ctx : Path) (sel : Selections) (v : option string) : E :=
  xret (from_option MString MNull v).
Definition marshalOFloat (ctx : Path) (sel : Selections) (v : option spec_float) : E := xret (from_option (MFloat ctx) MNull v).

(** *** Objects *)

(** A field of an object: the value of the struct's field. *)
Definition property {T} (ctx : Path) (field : CollectedField) (v : T) (marshal : Path -> Selections -> T -> E) (nonNull : bool) : E :=
  ResolveField ctx field (fun _ => xret (Ok tt)) (fun _ => xret (Ok v)) marshal true nonNull.

(** The loop over the collected fields: the values and [out.Invalids].  A case of the switch is
    the field's function and whether a null of it is counted. *)
Fixpoint field_values (name : string) (cases : CollectedField -> list (string * (E * bool))) (fields : list CollectedField)
    : X W (list Marshaler * Z) :=
  match fields with
  | [] => xret ([], 0)
  | field :: fields' =>
      v <== (if String.eqb (fName field) "__typename" then xret (MString name, 0)
             else match assoc (fName field) (cases field) with
                  | Some (run, counted) =>
                      m <== run ; xret (m, if counted && is_null m then 1 else 0)
                  | None => panic
                  end) ;
      r <== field_values name cases fields' ;
      xret (v.1 :: r.1, v.2 + r.2)
  end.
Definition object_of (name : string) (sel : Selections) (cases : CollectedField -> list (string * (E * bool))) : E :=
  let fields := CollectFields sel [name] in
  out <== field_values name cases fields ;
  xret (if 0 <? out.2 then MNull else MObject (zip (map fAlias fields) out.1)).

Definition _MutationResult_success ctx field (obj : MutationResult) : E := property ctx field (resSuccess obj) marshalNBoolean true.
Definition _MutationResult_affectedRows ctx field (obj : MutationResult) : E := property ctx field (AffectedRows obj) marshalNInt true.
Definition _MutationResult_warning ctx field (obj : MutationResult) : E := property ctx field (Warning obj) marshalOString false.
Definition _MutationResult (ctx : Path) (sel : Selections) (obj : MutationResult) : E :=
  object_of "MutationResult" sel (fun field =>
    [("success", (_MutationResult_success ctx field obj, true)); ("affectedRows", (_MutationResult_affectedRows ctx field obj, true));
     ("warning", (_MutationResult_warning ctx field obj, false))]).
Definition marshalNMutationResult (ctx : Path) (sel : Selections) (v : option MutationResult) : E :=
  not_nil ctx v (_MutationResult ctx sel).

Definition _PageInfo_hasNextPage ctx field (obj : PageInfo) : E := property ctx field (HasNextPage obj) marshalNBoolean true.
Definition _PageInfo_hasPreviousPage ctx field (obj : PageInfo) : E := property ctx field (HasPreviousPage obj) marshalNBoolean true.
Definition _PageInfo_startCursor ctx field (obj : PageInfo) : E := property ctx field (StartCursor obj) marshalOString false.
Definition _PageInfo_endCursor ctx field (obj : PageInfo) : E := property ctx field (EndCursor obj) marshalOString false.
Definition _PageInfo (ctx : Path) (sel : Selections) (obj : PageInfo) : E :=
  object_of "PageInfo" sel (fun field =>
    [("hasNextPage", (_PageInfo_hasNextPage ctx field obj, true)); ("hasPreviousPage", (_PageInfo_hasPreviousPage ctx field obj, true));
     ("startCursor", (_PageInfo_startCursor ctx field obj, false)); ("endCursor", (_PageInfo_endCursor ctx field obj, false))]).
Definition marshalNPageInfo (ctx : Path) (sel : Selections) (v : option PageInfo) : E := not_nil ctx v (_PageInfo ctx sel).

(** *** starrocks *)

Definition _StarRocksRow_data ctx field (obj : row) : E := property ctx field (Some obj) marshalNJSON true.
Definition _StarRocksRow (ctx : Path) (sel : Selections) (obj : row) : E :=
  object_of "StarRocksRow" sel (fun field => [("data", (_StarRocksRow_data ctx field obj, true))]).
Definition marshalNStarRocksRow (ctx : Path) (sel : Selections) (v : option row) : E := not_nil ctx v (_StarRocksRow ctx sel).
Definition marshalNStarRocksRows (ctx : Path) (sel : Selections) (v : list row) : E :=
  marshal_slice ctx (fun ctx => marshalNStarRocksRow ctx sel) v.
Definition _StarRocksEdge_node ctx field (obj : StarRocksEdge) : E := property ctx field (Some (Node obj)) marshalNStarRocksRow true.
Definition _StarRocksEdge_cursor ctx field (obj : StarRocksEdge) : E := property ctx field (Cursor obj) marshalNString true.
Definition _StarRocksEdge (ctx : Path) (sel : Selections) (obj : StarRocksEdge) : E :=
  object_of "StarRocksEdge" sel (fun field =>
    [("node", (_StarRocksEdge_node ctx field obj, true)); ("cursor", (_StarRocksEdge_cursor ctx field obj, true))]).
Definition marshalNStarRocksEdge (ctx : Path) (sel : Selections) (v : option StarRocksEdge) : E := not_nil ctx v (_StarRocksEdge ctx sel).
Definition marshalNStarRocksEdges (ctx : Path) (sel : Selections) (v : list StarRocksEdge) : E :=
  marshal_slice ctx (fun ctx => marshalNStarRocksEdge ctx sel) v.
Definition _StarRocksConnection_edges ctx field (obj : StarRocksConnection) : E := property ctx field (Edges obj) marshalNStarRocksEdges true.
Definition _StarRocksConnection_nodes ctx field (obj : StarRocksConnection) : E := property ctx field (Nodes obj) marshalNStarRocksRows true.
Definition _StarRocksConnection_pageInfo ctx field (obj : StarRocksConnection) : E :=
  property ctx field (Some (conPageInfo obj)) marshalNPageInfo true.
Definition _StarRocksConnection_totalCount ctx field (obj : StarRocksConnection) : E := property ctx field (conTotalCount obj) marshalNInt true.
Definition _StarRocksConnection (ctx : Path) (sel : Selections) (obj : StarRocksConnection) : E :=
  object_of "StarRocksConnection" sel (fun field =>
    [("edges", (_StarRocksConnection_edges ctx field obj, true)); ("nodes", (_StarRocksConnection_nodes ctx field obj, true));
     ("pageInfo", (_StarRocksConnection_pageInfo ctx field obj, true));
     ("totalCount", (_StarRocksConnection_totalCount ctx field obj, true))]).
Definition marshalNStarRocksConnection (ctx : Path) (sel : Selections) (v : option StarRocksConnection) : E :=
  not_nil ctx v (_StarRocksConnection ctx sel).

(** *** prometheusInstant and prometheusRange *)

Definition _PrometheusMetricLabel_name ctx field (obj : PrometheusMetricLabel) : E := property ctx field (ml_name obj) marshalNString true.
Definition _PrometheusMetricLabel_value ctx field (obj : PrometheusMetricLabel) : E := property ctx field (ml_value obj) marshalNString true.
Definition _PrometheusMetricLabel (ctx : Path) (sel : Selections) (obj : PrometheusMetricLabel) : E :=
  object_of "PrometheusMetricLabel" sel (fun field =>
    [("name", (_PrometheusMetricLabel_name ctx field obj, true)); ("value", (_PrometheusMetricLabel_value ctx field obj, true))]).
Definition marshalNPrometheusMetricLabel (ctx : Path) (sel : Selections) (v : option PrometheusMetricLabel) : E :=
  not_nil ctx v (_PrometheusMetricLabel ctx sel).
Definition marshalNPrometheusMetricLabels (ctx : Path) (sel : Selections) (v : list PrometheusMetricLabel) : E :=
  marshal_slice ctx (fun ctx => marshalNPrometheusMetricLabel ctx sel) v.

Definition _PrometheusDataPoint_timestamp ctx field (obj : PrometheusDataPoint) : E := property ctx field (dp_timestamp obj) marshalNFloat true.
Definition _PrometheusDataPoint_value ctx field (obj : PrometheusDataPoint) : E := property ctx field (dp_value obj) marshalOFloat false.
Definition _PrometheusDataPoint (ctx : Path) (sel : Selections) (obj : PrometheusDataPoint) : E :=
  object_of "PrometheusDataPoint" sel (fun field =>
    [("timestamp", (_PrometheusDataPoint_timestamp ctx field obj, true)); ("value", (_PrometheusDataPoint_value ctx field obj, false))]).
Definition marshalNPrometheusDataPoint (ctx : Path) (sel : Selections) (v : option PrometheusDataPoint) : E :=
  not_nil ctx v (_PrometheusDataPoint ctx sel).
Definition marshalNPrometheusDataPoints (ctx : Path) (sel : Selections) (v : list PrometheusDataPoint) : E :=
  marshal_slice ctx (fun ctx => marshalNPrometheusDataPoint ctx sel) v.
Definition marshalOPrometheusDataPoint (ctx : Path) (sel : Selections) (v : option PrometheusDataPoint) : E :=
  match v with None => xret MNull | Some v => _PrometheusDataPoint ctx sel v end.

Definition _PrometheusVector_metric ctx field (obj : PrometheusVector) : E := property ctx field (pv_metric obj) marshalNPrometheusMetricLabels true.
Definition _PrometheusVector_value ctx field (obj : PrometheusVector) : E :=
  property ctx field (Some (pv_value obj)) marshalOPrometheusDataPoint false.
Definition _PrometheusVector (ctx : Path) (sel : Selections) (obj : PrometheusVector) : E :=
  object_of "PrometheusVector" sel (fun field =>
    [("metric", (_PrometheusVector_metric ctx field obj, true)); ("value", (_PrometheusVector_value ctx field obj, false))]).
Definition marshalNPrometheusVector (ctx : Path) (sel : Selections) (v : option PrometheusVector) : E := not_nil ctx v (_PrometheusVector ctx sel).
Definition marshalNPrometheusVectors (ctx : Path) (sel : Selections) (v : list PrometheusVector) : E :=
  marshal_slice ctx (fun ctx => marshalNPrometheusVector ctx sel) v.

Definition _PrometheusMatrix_metric ctx field (obj : PrometheusMatrix) : E := property ctx field (pm_metric obj) marshalNPrometheusMetricLabels true.
Definition _PrometheusMatrix_values ctx field (obj : PrometheusMatrix) : E := property ctx field (pm_values obj) marshalNPrometheusDataPoints true.
Definition _PrometheusMatrix (ctx : Path) (sel : Selections) (obj : PrometheusMatrix) : E :=
  object_of "PrometheusMatrix" sel (fun field =>
    [("metric", (_PrometheusMatrix_metric ctx field obj, true)); ("values", (_PrometheusMatrix_values ctx field obj, true))]).
Definition marshalNPrometheusMatrix (ctx : Path) (sel : Selections) (v : option PrometheusMatrix) : E := not_nil ctx v (_PrometheusMatrix ctx sel).
Definition marshalNPrometheusMatrixs (ctx : Path) (sel : Selections) (v : list PrometheusMatrix) : E :=
  marshal_slice ctx (fun ctx => marshalNPrometheusMatrix ctx sel) v.

Definition _PrometheusInstantResult_resultType ctx field (obj : PrometheusInstantResult) : E := property ctx field (ir_type obj) marshalNString true.
Definition _PrometheusInstantResult_vectors ctx field (obj : PrometheusInstantResult) : E :=
  property ctx field (ir_vectors obj) marshalNPrometheusVectors true.
Definition _PrometheusInstantResult (ctx : Path) (sel : Selections) (obj : PrometheusInstantResult) : E :=
  object_of "PrometheusInstantResult" sel (fun field =>
    [("resultType", (_PrometheusInstantResult_resultType ctx field obj, true)); ("vectors", (_PrometheusInstantResult_vectors ctx field obj, true))]).
Definition marshalNPrometheusInstantResult (ctx : Path) (sel : Selections) (v : option PrometheusInstantResult) : E :=
  not_nil ctx v (_PrometheusInstantResult ctx sel).
Definition _PrometheusRangeResult_resultType ctx field (obj : PrometheusRangeResult) : E := property ctx field (rr_type obj) marshalNString true.
Definition _PrometheusRangeResult_matrices ctx field (obj : PrometheusRangeResult) : E :=
  property ctx field (rr_matrices obj) marshalNPrometheusMatrixs true.
Definition _PrometheusRangeResult (ctx : Path) (sel : Selections) (obj : PrometheusRangeResult) : E :=
  object_of "PrometheusRangeResult" sel (fun field =>
    [("resultType", (_PrometheusRangeResult_resultType ctx field obj, true)); ("matrices", (_PrometheusRangeResult_matrices ctx field obj, true))]).
Definition marshalNPrometheusRangeResult (ctx : Path) (sel : Selections) (v : option PrometheusRangeResult) : E :=
  not_nil ctx v (_PrometheusRangeResult ctx sel).

(** *** Templates *)

Definition _TemplateQueryConnection_nodes ctx field (obj : TemplateQueryConnection) : E := property ctx field (tqNodes obj) marshalNJSONs true.
Definition _TemplateQueryConnection_pageInfo ctx field (obj : TemplateQueryConnection) : E :=
  property ctx field (Some (tqPageInfo obj)) marshalNPageInfo true.
Definition _TemplateQueryConnection_totalCount ctx field (obj : TemplateQueryConnection) : E := property ctx field (tqTotalCount obj) marshalNInt true.
Definition _TemplateQueryConnection (ctx : Path) (sel : Selections) (obj : TemplateQueryConnection) : E :=
  object_of "TemplateQueryConnection" sel (fun field =>
    [("nodes", (_TemplateQueryConnection_nodes ctx field obj, true)); ("pageInfo", (_TemplateQueryConnection_pageInfo ctx field obj, true));
     ("totalCount", (_TemplateQueryConnection_totalCount ctx field obj, true))]).
Definition marshalNTemplateQueryConnection (ctx : Path) (sel : Selections) (v : option TemplateQueryConnection) : E :=
  not_nil ctx v (_TemplateQueryConnection ctx sel).

Notation ParamSchemaInfo := TemplateEngine.ParamSchemaInfo.
Notation TemplateInfo := TemplateEngine.TemplateInfo.
Notation TemplateLoadFailure := TemplateLoader.TemplateLoadFailure.
Definition _TemplateParameterInfo_name ctx field (obj : ParamSchemaInfo) : E := property ctx field (TemplateEngine.piName obj) marshalNString true.
Definition _TemplateParameterInfo_type ctx field (obj : ParamSchemaInfo) : E := property ctx field (TemplateEngine.piType obj) marshalNString true.
Definition _TemplateParameterInfo_required ctx field (obj : ParamSchemaInfo) : E :=
  property ctx field (TemplateEngine.piRequired obj) marshalNBoolean true.
Definition _TemplateParameterInfo_defaultValue ctx field (obj : ParamSchemaInfo) : E :=
  property ctx field (TemplateEngine.piDefault obj) marshalOString false.
Definition _TemplateParameterInfo (ctx : Path) (sel : Selections) (obj : ParamSchemaInfo) : E :=
  object_of "TemplateParameterInfo" sel (fun field =>
    [("name", (_TemplateParameterInfo_name ctx field obj, true)); ("type", (_TemplateParameterInfo_type ctx field obj, true));
     ("required", (_TemplateParameterInfo_required ctx field obj, true));
     ("defaultValue", (_TemplateParameterInfo_defaultValue ctx field obj, false))]).
Definition marshalNTemplateParameterInfo (ctx : Path) (sel : Selections) (v : option ParamSchemaInfo) : E :=
  not_nil ctx v (_TemplateParameterInfo ctx sel).
Definition marshalNTemplateParameterInfos (ctx : Path) (sel : Selections) (v : list ParamSchemaInfo) : E :=
  marshal_slice ctx (fun ctx => marshalNTemplateParameterInfo ctx sel) v.
Definition _TemplateInfo_name ctx field (obj : TemplateInfo) : E := property ctx field (TemplateEngine.tiName obj) marshalNString true.
Definition _TemplateInfo_description ctx field (obj : TemplateInfo) : E := property ctx field (TemplateEngine.tiDescription obj) marshalNString true.
Definition _TemplateInfo_countEnabled ctx field (obj : TemplateInfo) : E := property ctx field (TemplateEngine.tiCountEnabled obj) marshalNBoolean true.
Definition _TemplateInfo_parameters ctx field (obj : TemplateInfo) : E :=
  property ctx field (TemplateEngine.tiParameters obj) marshalNTemplateParameterInfos true.
Definition _TemplateInfo (ctx : Path) (sel : Selections) (obj : TemplateInfo) : E :=
  object_of "TemplateInfo" sel (fun field =>
    [("name", (_TemplateInfo_name ctx field obj, true)); ("description", (_TemplateInfo_description ctx field obj, true));
     ("countEnabled", (_TemplateInfo_countEnabled ctx field obj, true)); ("parameters", (_TemplateInfo_parameters ctx field obj, true))]).
Definition marshalNTemplateInfo (ctx : Path) (sel : Selections) (v : option TemplateInfo) : E := not_nil ctx v (_TemplateInfo ctx sel).
Definition marshalNTemplateInfos (ctx : Path) (sel : Selections) (v : list TemplateInfo) : E :=
  marshal_slice ctx (fun ctx => marshalNTemplateInfo ctx sel) v.

Definition _TemplateLoadFailure_name ctx field (obj : TemplateLoadFailure) : E := property ctx field (TemplateLoader.flName obj) marshalNString true.
Definition _TemplateLoadFailure_error ctx field (obj : TemplateLoadFailure) : E :=
  property ctx field (Sprintf_text (TemplateLoader.flError obj)) marshalNString true.
Definition _TemplateLoadFailure (ctx : Path) (sel : Selections) (obj : TemplateLoadFailure) : E :=
  object_of "TemplateLoadFailure" sel (fun field =>
    [("name", (_TemplateLoadFailure_name ctx field obj, true)); ("error", (_TemplateLoadFailure_error ctx field obj, true))]).
Definition marshalNTemplateLoadFailure (ctx : Path) (sel : Selections) (v : option TemplateLoadFailure) : E :=
  not_nil ctx v (_TemplateLoadFailure ctx sel).
Definition marshalNTemplateLoadFailures (ctx : Path) (sel : Selections) (v : list TemplateLoadFailure) : E :=
  marshal_slice ctx (fun ctx => marshalNTemplateLoadFailure ctx sel) v.
Definition _ReloadTemplatesResult_successCount ctx field (obj : ReloadTemplatesResult) : E := property ctx field (rtSuccessCount obj) marshalNInt true.
Definition _ReloadTemplatesResult_failures ctx field (obj : ReloadTemplatesResult) : E :=
  property ctx field (rtFailures obj) marshalNTemplateLoadFailures true.
Definition _ReloadTemplatesResult_duration ctx field (obj : ReloadTemplatesResult) : E := property ctx field (rtDuration obj) marshalNString true.
Definition _ReloadTemplatesResult (ctx : Path) (sel : Selections) (obj : ReloadTemplatesResult) : E :=
  object_of "ReloadTemplatesResult" sel (fun field =>
    [("successCount", (_ReloadTemplatesResult_successCount ctx field obj, true)); ("failures", (_ReloadTemplatesResult_failures ctx field obj, true));
     ("duration", (_ReloadTemplatesResult_duration ctx field obj, true))]).
Definition marshalNReloadTemplatesResult (ctx : Path) (sel : Selections) (v : option ReloadTemplatesResult) : E :=
  not_nil ctx v (_ReloadTemplatesResult ctx sel).

(** ** The root fields *)

(** What a resolver does to its world, with its result; [None] is a panic. *)
Notation Res A := (W -> option (result A) * W).
Record MutationResolver := {
  ClearCache : option string -> Res bool;
  InsertStarrocks : string -> list ColumnValueInput -> Res (option MutationResult);
  UpdateStarrocks : string -> list ColumnValueInput -> list MutationFilterInput -> Res (option MutationResult);
  DeleteStarrocks : string -> list MutationFilterInput -> Res (option MutationResult);
  InsertBatchStarrocks : string -> list string -> list (list GoVal) -> Res (option MutationResult);
  ReloadTemplates : Res (option ReloadTemplatesResult);
}.
Context {GI : GqlgenInput} {FT : FloatText} {TM : TimeText}.
Record QueryResolver := {
  Starrocks : StarrocksArgs -> Res (option StarRocksConnection);
  PrometheusInstant : string -> option Time -> list PrometheusLabelFilter -> Res (option PrometheusInstantResult);
  PrometheusRange : PrometheusRangeArgs -> Res (option PrometheusRangeResult);
  TemplateQuery : TemplateQueryArgs -> Res (option TemplateQueryConnection);
  TemplateList : option Z -> option Z -> Res (list TemplateInfo);
}.
Definition call {A} (r : Res A) : X W (result A) := fun s =>
  let x := r (world s) in (x.1, {| world := x.2; errs := errs s |}).

(** The arguments of a field; a panic while they are read is recovered from. *)
Definition field_context {A} (args : Path -> list (string * GoVal) -> attempt A) (field : CollectedField) (ctx : Path)
    : X W (result A) := fun s =>
  match args ctx (ArgumentMap field) with
  | Done a => (Some (Ok a), s)
  | Failed e => (Some (Err e), (add_error ctx e s).2)
  | Crashed => (Some (Err Recovered), (add_error ctx Recovered s).2)
  end.
Definition fieldContext_Mutation_clearCache := field_context field_Mutation_clearCache_args.
Definition fieldContext_Mutation_insertStarrocks := field_context field_Mutation_insertStarrocks_args.
Definition fieldContext_Mutation_updateStarrocks := field_context field_Mutation_updateStarrocks_args.
Definition fieldContext_Mutation_deleteStarrocks := field_context field_Mutation_deleteStarrocks_args.
Definition fieldContext_Mutation_insertBatchStarrocks := field_context field_Mutation_insertBatchStarrocks_args.
Definition fieldContext_Mutation_reloadTemplates : CollectedField -> Path -> X W (result unit) := field_context (fun _ _ => Done tt).

Section Mutation.
Variable Resolvers : MutationResolver.
Definition _Mutation_clearCache ctx field : E :=
  ResolveField ctx field (fieldContext_Mutation_clearCache field) (fun a => call (ClearCache Resolvers a)) marshalNBoolean true true.
Definition _Mutation_insertStarrocks ctx field : E :=
  ResolveField ctx field (fieldContext_Mutation_insertStarrocks field)
    (fun a => call (InsertStarrocks Resolvers a.1 a.2)) marshalNMutationResult true true.
Definition _Mutation_updateStarrocks ctx field : E :=
  ResolveField ctx field (fieldContext_Mutation_updateStarrocks field)
    (fun a => call (UpdateStarrocks Resolvers a.1.1 a.1.2 a.2)) marshalNMutationResult true true.
Definition _Mutation_deleteStarrocks ctx field : E :=
  ResolveField ctx field (fieldContext_Mutation_deleteStarrocks field)
    (fun a => call (DeleteStarrocks Resolvers a.1 a.2)) marshalNMutationResult true true.
Definition _Mutation_insertBatchStarrocks ctx field : E :=
  ResolveField ctx field (fieldContext_Mutation_insertBatchStarrocks field)
    (fun a => call (InsertBatchStarrocks Resolvers a.1.1 a.1.2 a.2)) marshalNMutationResult true true.
Definition _Mutation_reloadTemplates ctx field : E :=
  ResolveField ctx field (fieldContext_Mutation_reloadTemplates field)
    (fun _ => call (ReloadTemplates Resolvers)) marshalNReloadTemplatesResult true true.
Definition mutation_cases (ctx : Path) (field : CollectedField) : list (string * (E * bool)) :=
  [("clearCache", (RootResolverMiddleware (_Mutation_clearCache ctx field), true));
   ("insertStarrocks", (RootResolverMiddleware (_Mutation_insertStarrocks ctx field), true));
   ("updateStarrocks", (RootResolverMiddleware (_Mutation_updateStarrocks ctx field), true));
   ("deleteStarrocks", (RootResolverMiddleware (_Mutation_deleteStarrocks ctx field), true));
   ("insertBatchStarrocks", (RootResolverMiddleware (_Mutation_insertBatchStarrocks ctx field), true));
   ("reloadTemplates", (RootResolverMiddleware (_Mutation_reloadTemplates ctx field), true))].
(** The fields one after the other, in the order of the document. *)
Definition _Mutation (ctx : Path) (sel : Selections) : E := object_of "Mutation" sel (mutation_cases ctx).
End Mutation.

Definition fieldContext_Query_starrocks := field_context field_Query_starrocks_args.
Definition fieldContext_Query_prometheusInstant := field_context field_Query_prometheusInstant_args.
Definition fieldContext_Query_prometheusRange (zero_time : Time) :=
  field_context (fun ctx raw => field_Query_prometheusRange_args ctx raw zero_time).
Definition fieldContext_Query_templateQuery := field_context field_Query_templateQuery_args.
Definition fieldContext_Query_templateList := field_context field_Query_templateList_args.

Section Query.
Variables (Resolvers : QueryResolver) (zero_time : Time).
(** The fields of the introspection. *)
Variable introspect : Path -> CollectedField -> E.
Definition _Query_starrocks ctx field : E :=
  ResolveField ctx field (fieldContext_Query_starrocks field) (fun a => call (Starrocks Resolvers a)) marshalNStarRocksConnection true true.
Definition _Query_prometheusInstant ctx field : E :=
  ResolveField ctx field (fieldContext_Query_prometheusInstant field)
    (fun a => call (PrometheusInstant Resolvers a.1.1 a.1.2 a.2)) marshalNPrometheusInstantResult true true.
Definition _Query_prometheusRange ctx field : E :=
  ResolveField ctx field (fieldContext_Query_prometheusRange zero_time field)
    (fun a => call (PrometheusRange Resolvers a)) marshalNPrometheusRangeResult true true.
Definition _Query_templateQuery ctx field : E :=
  ResolveField ctx field (fieldContext_Query_templateQuery field)
    (fun a => call (TemplateQuery Resolvers a)) marshalNTemplateQueryConnection true true.
Definition _Query_templateList ctx field : E :=
  ResolveField ctx field (fieldContext_Query_templateList field)
    (fun a => call (TemplateList Resolvers a.1 a.2)) marshalNTemplateInfos true true.

(** The loop: what is known at once, and the fields that [Dispatch] runs. *)
Fixpoint query_slots (ctx : Path) (fields : list CollectedField) : X W (list (Marshaler + E)) :=
  match fields with
  | [] => xret []
  | field :: fields' =>
      let delayed := [("starrocks", _Query_starrocks ctx field); ("prometheusInstant", _Query_prometheusInstant ctx field);
                      ("prometheusRange", _Query_prometheusRange ctx field); ("templateQuery", _Query_templateQuery ctx field);
                      ("templateList", _Query_templateList ctx field)] in
      slot <== (if String.eqb (fName field) "__typename" then xret (inl (MString "Query"))
                else match assoc (fName field) delayed with
                     | Some run => xret (inr (RootResolverMiddleware run))
                     | None => if String.eqb (fName field) "__type" || String.eqb (fName field) "__schema"
                               then m <== RootResolverMiddleware (introspect ctx field) ; xret (inl m)
                               else panic
                     end) ;
      slots <== query_slots ctx fields' ;
      xret (slot :: slots)
  end.
(** The nulls of the delayed fields: [fs.Invalids]. *)
Definition invalids (slots : list (Marshaler + E)) (values : list Marshaler) : bool :=
  existsb (fun sv => match sv.1 with inr _ => is_null sv.2 | inl _ => false end) (zip slots values).
Definition _Query (ctx : Path) (sel : Selections) : E :=
  let fields := CollectFields sel ["Query"] in
  slots <== query_slots ctx fields ;
  values <== Dispatch slots ;
  xret (if invalids slots values then MNull else MObject (zip (map fAlias fields) values)).
End Query.

(** ** Writing the answer *)

(** [data.MarshalGQL(&buf)]: the errors it adds and what it writes.  [WrapContextMarshaler] writes
    null for a float that cannot be marshalled and adds the error at its path. *)
Fixpoint MarshalGQL (m : Marshaler) : list FieldError * Data :=
  match m with
  | MNull => ([], DNull)
  | MString s => ([], DString s)
  | MInt z => ([], DInt z)
  | MBoolean b => ([], DBoolean b)
  | MFloat ctx f => match MarshalFloatContext f with Ok t => ([], DFloat t) | Err e => ([(ctx, e)], DNull) end
  | MJson v => ([], DText (Scalar.MarshalJSON v))
  | MArray l => let rs := map MarshalGQL l in (concat (map fst rs), DArray (map snd rs))
  | MObject fields =>
      let rs := map (fun kv => MarshalGQL kv.2) fields in (concat (map fst rs), DObject (zip (map fst fields) (map snd rs)))
  end.
Definition write (m : Marshaler) : X W Data := fun s =>
  let r := MarshalGQL m in (Some r.2, {| world := world s; errs := errs s ++ r.1 |}).

(** ** Executing an operation *)

Section Exec.
Inductive Operation := OpQuery | OpMutation | OpSubscription.
Variables (M : MutationResolver) (Q : QueryResolver) (zero_time : Time) (introspect : Path -> CollectedField -> E).
Variables (op : Operation) (sel : Selections).
(** One call of the handler that [Exec] returns: the data of the response, or no response, and
    the variable [first] afterwards.  No field is ever deferred, so nothing is pending. *)
Definition handler (first : bool) : X W (option Data * bool) :=
  match op with
  | OpQuery =>
      if first then data <== _Query Q zero_time introspect [] sel ; buf <== write data ; xret (Some buf, false) else xret (None, false)
  | OpMutation => if first then data <== _Mutation M [] sel ; buf <== write data ; xret (Some buf, false) else xret (None, false)
  | OpSubscription =>
      if first then _ <== add_error [] (Errorf (Sprintf "unsupported GraphQL operation" [])) ; xret (Some DNull, false)
      else xret (None, false)
  end.
(** A transport calls it until there is no response, at most [n] times. *)
Fixpoint Exec (n : nat) (first : bool) : X W (list Data) :=
  match n with
  | O => xret []
  | S n' =>
      r <== handler first ;
      match r.1 with
      | None => xret []
      | Some data => rest <== Exec n' r.2 ; xret (data :: rest)
      end
  end.
End Exec.
End Marshal.
Arguments MutationResolver W : clear implicits.
Arguments QueryResolver W {TM}.

(** ** The schema

    What an answer is measured by: the fields and types that the texts of
    internal/graphql/schema declare ([GraphqlSchema] reads them from the texts) and, for the
    introspection, those of the GraphQL specification. *)

Inductive GType :=
  | TString | TInt | TFloat | TBoolean | TJSON
  | TEnum (name : string)
  | TObject (name : string)
  | TList (t : GType)
  | TNonNull (t : GType).
Notation "t !!!" := (TNonNull t) (at level 1, format "t !!!").
Definition schema_base : list (string * list (string * GType)) :=
  [("PageInfo", [("hasNextPage", TBoolean!!!); ("hasPreviousPage", TBoolean!!!); ("startCursor", TString); ("endCursor", TString)]);
   ("Query", [("starrocks", (TObject "StarRocksConnection")!!!); ("prometheusInstant", (TObject "PrometheusInstantResult")!!!);
              ("prometheusRange", (TObject "PrometheusRangeResult")!!!); ("templateQuery", (TObject "TemplateQueryConnection")!!!);
              ("templateList", (TList (TObject "TemplateInfo")!!!)!!!); ("__type", TObject "__Type"); ("__schema", TObject "__Schema")])].
Definition schema_mutation : list (string * list (string * GType)) :=
  [("MutationResult", [("success", TBoolean!!!); ("affectedRows", TInt!!!); ("warning", TString)]);
   ("Mutation", [("clearCache", TBoolean!!!); ("insertStarrocks", (TObject "MutationResult")!!!);
                 ("updateStarrocks", (TObject "MutationResult")!!!); ("deleteStarrocks", (TObject "MutationResult")!!!);
                 ("insertBatchStarrocks", (TObject "MutationResult")!!!); ("reloadTemplates", (TObject "ReloadTemplatesResult")!!!)])].
Definition schema_prometheus : list (string * list (string * GType)) :=
  [("PrometheusMetricLabel", [("name", TString!!!); ("value", TString!!!)]);
   ("PrometheusDataPoint", [("timestamp", TFloat!!!); ("value", TFloat)]);
   ("PrometheusVector", [("metric", (TList (TObject "PrometheusMetricLabel")!!!)!!!); ("value", TObject "PrometheusDataPoint")]);
   ("PrometheusMatrix", [("metric", (TList (TObject "PrometheusMetricLabel")!!!)!!!);
                         ("values", (TList (TObject "PrometheusDataPoint")!!!)!!!)]);
   ("PrometheusInstantResult", [("resultType", TString!!!); ("vectors", (TList (TObject "PrometheusVector")!!!)!!!)]);
   ("PrometheusRangeResult", [("resultType", TString!!!); ("matrices", (TList (TObject "PrometheusMatrix")!!!)!!!)])].
Definition schema_starrocks : list (string * list (string * GType)) :=
  [("StarRocksRow", [("data", TJSON!!!)]);
   ("StarRocksEdge", [("node", (TObject "StarRocksRow")!!!); ("cursor", TString!!!)]);
   ("StarRocksConnection", [("edges", (TList (TObject "StarRocksEdge")!!!)!!!); ("nodes", (TList (TObject "StarRocksRow")!!!)!!!);
                            ("pageInfo", (TObject "PageInfo")!!!); ("totalCount", TInt!!!)])].
Definition schema_template : list (string * list (string * GType)) :=
  [("TemplateQueryConnection", [("nodes", (TList TJSON!!!)!!!); ("pageInfo", (TObject "PageInfo")!!!); ("totalCount", TInt!!!)]);
   ("TemplateInfo", [("name", TString!!!); ("description", TString!!!); ("countEnabled", TBoolean!!!);
                     ("parameters", (TList (TObject "TemplateParameterInfo")!!!)!!!)]);
   ("TemplateParameterInfo", [("name", TString!!!); ("type", TString!!!); ("required", TBoolean!!!); ("defaultValue", TString)]);
   ("ReloadTemplatesResult", [("successCount", TInt!!!); ("failures", (TList (TObject "TemplateLoadFailure")!!!)!!!);
                              ("duration", TString!!!)]);
   ("TemplateLoadFailure", [("name", TString!!!); ("error", TString!!!)])].
(** The types of the introspection. *)
Definition schema_introspection : list (string * list (string * GType)) :=
  [("__Schema", [("description", TString); ("types", (TList (TObject "__Type")!!!)!!!); ("queryType", (TObject "__Type")!!!);
                 ("mutationType", TObject "__Type"); ("subscriptionType", TObject "__Type");
                 ("directives", (TList (TObject "__Directive")!!!)!!!)]);
   ("__Type", [("kind", (TEnum "__TypeKind")!!!); ("name", TString); ("description", TString); ("specifiedByURL", TString);
               ("fields", TList (TObject "__Field")!!!); ("interfaces", TList (TObject "__Type")!!!);
               ("possibleTypes", TList (TObject "__Type")!!!); ("enumValues", TList (TObject "__EnumValue")!!!);
               ("inputFields", TList (TObject "__InputValue")!!!); ("ofType", TObject "__Type"); ("isOneOf", TBoolean)]);
   ("__Field", [("name", TString!!!); ("description", TString); ("args", (TList (TObject "__InputValue")!!!)!!!);
                ("type", (TObject "__Type")!!!); ("isDeprecated", TBoolean!!!); ("deprecationReason", TString)]);
   ("__InputValue", [("name", TString!!!); ("description", TString); ("type", (TObject "__Type")!!!); ("defaultValue", TString);
                     ("isDeprecated", TBoolean!!!); ("deprecationReason", TString)]);
   ("__EnumValue", [("name", TString!!!); ("description", TString); ("isDeprecated", TBoolean!!!); ("deprecationReason", TString)]);
   ("__Directive", [("name", TString!!!); ("description", TString); ("isRepeatable", TBoolean!!!);
                    ("locations", (TList (TEnum "__DirectiveLocation")!!!)!!!); ("args", (TList (TObject "__InputValue")!!!)!!!)])].
Definition type_fields (name : string) : list (string * GType) :=
  default [] (assoc name (schema_base ++ schema_mutation ++ schema_prometheus ++ schema_starrocks ++ schema_template
                              ++ schema_introspection)).
Definition non_null (t : GType) : bool := match t with TNonNull _ => true | _ => false end.
Fixpoint underlying (t : GType) : GType := match t with TNonNull t => underlying t | _ => t end.

(** A value answers a selection of a type: null only where the type allows it, every list
    element and every selected field of the type it has in the schema, under its alias. *)
Inductive conforms {GX : Gqlgen} : GType -> Selections -> Marshaler -> Prop :=
  | conforms_null t sel : non_null t = false -> conforms t sel MNull
  | conforms_non_null t sel m : m <> MNull -> conforms t sel m -> conforms (TNonNull t) sel m
  | conforms_string sel s : conforms TString sel (MString s)
  | conforms_int sel z : conforms TInt sel (MInt z)
  | conforms_float sel ctx f : conforms TFloat sel (MFloat ctx f)
  | conforms_boolean sel b : conforms TBoolean sel (MBoolean b)
  | conforms_json sel v : conforms TJSON sel (MJson v)
  | conforms_enum name sel s : conforms (TEnum name) sel (MString s)
  | conforms_list t sel l : Forall (conforms t sel) l -> conforms (TList t) sel (MArray l)
  | conforms_object name sel ms :
      Forall2 (fun field m =>
        (fName field = "__typename" /\ m = MString name)
        \/ exists t, assoc (fName field) (type_fields name) = Some t /\ conforms t (fSelections field) m)
        (CollectFields sel [name]) ms ->
      conforms (TObject name) sel (MObject (zip (map fAlias (CollectFields sel [name])) ms)).

(** What is written for a selection of a type, in a response with the errors [es]: null only where
    the type allows it, every list element and every selected field of the type it has in the
    schema, under its alias (the enumerations are those of the introspection, whose constants
    the library writes); but for two values that have no text.  A float that is not finite
    is null, and its error is in the response; and a JSON object that [json.Marshal] refuses is
    the text [null], also where the type does not allow null, and nothing reports it. *)
Section Written.
Context {GX : Gqlgen} {JT : JsonText}.
Variable es : list FieldError.
Inductive written : GType -> Selections -> Data -> Prop :=
  | written_null t sel : non_null t = false -> written t sel DNull
  | written_non_null t sel d : d <> DNull -> written t sel d -> written (TNonNull t) sel d
  | written_string sel s : written TString sel (DString s)
  | written_int sel z : written TInt sel (DInt z)
  | written_boolean sel b : written TBoolean sel (DBoolean b)
  | written_float sel f text : not_finite f = false -> MarshalFloatContext f = Ok text -> written TFloat sel (DFloat text)
  | written_lost_float t sel ctx f e :
      underlying t = TFloat -> not_finite f = true -> MarshalFloatContext f = Err e -> (ctx, e) ∈ es -> written t sel DNull
  | written_json sel v text : json_row v = Ok text -> written TJSON sel (DText text)
  | written_lost_json sel v e : json_row v = Err e -> written TJSON sel (DText "null")
  | written_enum name sel s : written (TEnum name) sel (DString s)
  | written_list t sel l : Forall (written t sel) l -> written (TList t) sel (DArray l)
  | written_object name sel ds :
      Forall2 (fun field d =>
        (fName field = "__typename" /\ d = DString name)
        \/ exists t, assoc (fName field) (type_fields name) = Some t /\ written t (fSelections field) d)
        (CollectFields sel [name]) ds ->
      written (TObject name) sel (DObject (zip (map fAlias (CollectFields sel [name])) ds)).
End Written.
