(* ===== verification/GraphqlContexts.v ===== *)
(** * internal/graphql/generated/generated.go: the contexts of the fields

    Every field has a function [fieldContext_<type>_<field>] that makes its [FieldContext]; its
    [Child] leads to the contexts of the fields below it.  What those of the root fields do
    besides, reading the arguments, is in GraphqlOutput.  [Child] returns the type and the field
    whose function it calls, which [fieldContext] looks up, so the contexts of the recursive
    introspection types are finite terms. *)
From S2P Require Import Prelude GoStrings Values GraphqlOutput.

Section Contexts.
Context {GX : Gqlgen}.

Record FieldContext := {
  Object : string; Field : CollectedField; IsMethod : bool; IsResolver : bool;
  Child : string -> result (string * string);
}.
(** The two shapes of [Child]: a value without fields, and a switch over the fields of a type. *)
Definition leaf (typ name : string) : result (string * string) :=
  Err (Errorf (Sprintf ("field of type " +:+ typ +:+ " does not have child fields") [])).
Definition switch (typ : string) (cases : list string) (name : string) : result (string * string) :=
  if bool_decide (name ∈ cases) then Ok (typ, name)
  else Err (Errorf (Sprintf ("no field named %q was found under type " +:+ typ) [AStr name])).
Definition property_context (object : string) (field : CollectedField) (child : string -> result (string * string)) : FieldContext :=
  {| Object := object; Field := field; IsMethod := false; IsResolver := false; Child := child |}.
Definition method_context (object : string) (field : CollectedField) (child : string -> result (string * string)) : FieldContext :=
  {| Object := object; Field := field; IsMethod := true; IsResolver := false; Child := child |}.
Definition resolver_context (object : string) (field : CollectedField) (child : string -> result (string * string)) : FieldContext :=
  {| Object := object; Field := field; IsMethod := true; IsResolver := true; Child := child |}.

Definition fieldContext_Mutation_clearCache (field : CollectedField) : FieldContext :=
  resolver_context "Mutation" field
    (leaf "Boolean").
Definition fieldContext_Mutation_insertStarrocks (field : CollectedField) : FieldContext :=
  resolver_context "Mutation" field
    (switch "MutationResult" ["success"; "affectedRows"; "warning"]).
Definition fieldContext_Mutation_updateStarrocks (field : CollectedField) : FieldContext :=
  resolver_context "Mutation" field
    (switch "MutationResult" ["success"; "affectedRows"; "warning"]).
Definition fieldContext_Mutation_deleteStarrocks (field : CollectedField) : FieldContext :=
  resolver_context "Mutation" field
    (switch "MutationResult" ["success"; "affectedRows"; "warning"]).
Definition fieldContext_Mutation_insertBatchStarrocks (field : CollectedField) : FieldContext :=
  resolver_context "Mutation" field
    (switch "MutationResult" ["success"; "affectedRows"; "warning"]).
Definition fieldContext_Mutation_reloadTemplates (field : CollectedField) : FieldContext :=
  resolver_context "Mutation" field
    (switch "ReloadTemplatesResult" ["successCount"; "failures"; "duration"]).

Definition fieldContext_MutationResult_success (field : CollectedField) : FieldContext :=
  property_context "MutationResult" field
    (leaf "Boolean").
Definition fieldContext_MutationResult_affectedRows (field : CollectedField) : FieldContext :=
  property_context "MutationResult" field
    (leaf "Int").
Definition fieldContext_MutationResult_warning (field : CollectedField) : FieldContext :=
  property_context "MutationResult" field
    (leaf "String").

Definition fieldContext_PageInfo_hasNextPage (field : CollectedField) : FieldContext :=
  property_context "PageInfo" field
    (leaf "Boolean").
Definition fieldContext_PageInfo_hasPreviousPage (field : CollectedField) : FieldContext :=
  property_context "PageInfo" field
    (leaf "Boolean").
Definition fieldContext_PageInfo_startCursor (field : CollectedField) : FieldContext :=
  property_context "PageInfo" field
    (leaf "String").
Definition fieldContext_PageInfo_endCursor (field : CollectedField) : FieldContext :=
  property_context "PageInfo" field
    (leaf "String").

Definition fieldContext_PrometheusDataPoint_timestamp (field : CollectedField) : FieldContext :=
  property_context "PrometheusDataPoint" field
    (leaf "Float").
Definition fieldContext_PrometheusDataPoint_value (field : CollectedField) : FieldContext :=
  property_context "PrometheusDataPoint" field
    (leaf "Float").

Definition fieldContext_PrometheusInstantResult_resultType (field : CollectedField) : FieldContext :=
  property_context "PrometheusInstantResult" field
    (leaf "String").
Definition fieldContext_PrometheusInstantResult_vectors (field : CollectedField) : FieldContext :=
  property_context "PrometheusInstantResult" field
    (switch "PrometheusVector" ["metric"; "value"]).

Definition fieldContext_PrometheusMatrix_metric (field : CollectedField) : FieldContext :=
  property_context "PrometheusMatrix" field
    (switch "PrometheusMetricLabel" ["name"; "value"]).
Definition fieldContext_PrometheusMatrix_values (field : CollectedField) : FieldContext :=
  property_context "PrometheusMatrix" field
    (switch "PrometheusDataPoint" ["timestamp"; "value"]).

Definition fieldContext_PrometheusMetricLabel_name (field : CollectedField) : FieldContext :=
  property_context "PrometheusMetricLabel" field
    (leaf "String").
Definition fieldContext_PrometheusMetricLabel_value (field : CollectedField) : FieldContext :=
  property_context "PrometheusMetricLabel" field
    (leaf "String").

Definition fieldContext_PrometheusRangeResult_resultType (field : CollectedField) : FieldContext :=
  property_context "PrometheusRangeResult" field
    (leaf "String").
Definition fieldContext_PrometheusRangeResult_matrices (field : CollectedField) : FieldContext :=
  property_context "PrometheusRangeResult" field
    (switch "PrometheusMatrix" ["metric"; "values"]).

Definition fieldContext_PrometheusVector_metric (field : CollectedField) : FieldContext :=
  property_context "PrometheusVector" field
    (switch "PrometheusMetricLabel" ["name"; "value"]).
Definition fieldContext_PrometheusVector_value (field : CollectedField) : FieldContext :=
  property_context "PrometheusVector" field
    (switch "PrometheusDataPoint" ["timestamp"; "value"]).

Definition fieldContext_Query_starrocks (field : CollectedField) : FieldContext :=
  resolver_context "Query" field
    (switch "StarRocksConnection" ["edges"; "nodes"; "pageInfo"; "totalCount"]).
Definition fieldContext_Query_prometheusInstant (field : CollectedField) : FieldContext :=
  resolver_context "Query" field
    (switch "PrometheusInstantResult" ["resultType"; "vectors"]).
Definition fieldContext_Query_prometheusRange (field : CollectedField) : FieldContext :=
  resolver_context "Query" field
    (switch "PrometheusRangeResult" ["resultType"; "matrices"]).
Definition fieldContext_Query_templateQuery (field : CollectedField) : FieldContext :=
  resolver_context "Query" field
    (switch "TemplateQueryConnection" ["nodes"; "pageInfo"; "totalCount"]).
Definition fieldContext_Query_templateList (field : CollectedField) : FieldContext :=
  resolver_context "Query" field
    (switch "TemplateInfo" ["name"; "description"; "countEnabled"; "parameters"]).
Definition fieldContext_Query___type (field : CollectedField) : FieldContext :=
  method_context "Query" field
    (switch "__Type" ["kind"; "name"; "description"; "specifiedByURL"; "fields"; "interfaces"; "possibleTypes"; "enumValues"; "inputFields"; "ofType"; "isOneOf"]).
Definition fieldContext_Query___schema (field : CollectedField) : FieldContext :=
  method_context "Query" field
    (switch "__Schema" ["description"; "types"; "queryType"; "mutationType"; "subscriptionType"; "directives"]).

Definition fieldContext_ReloadTemplatesResult_successCount (field : CollectedField) : FieldContext :=
  property_context "ReloadTemplatesResult" field
    (leaf "Int").
Definition fieldContext_ReloadTemplatesResult_failures (field : CollectedField) : FieldContext :=
  property_context "ReloadTemplatesResult" field
    (switch "TemplateLoadFailure" ["name"; "error"]).
Definition fieldContext_ReloadTemplatesResult_duration (field : CollectedField) : FieldContext :=
  property_context "ReloadTemplatesResult" field
    (leaf "String").

Definition fieldContext_StarRocksConnection_edges (field : CollectedField) : FieldContext :=
  property_context "StarRocksConnection" field
    (switch "StarRocksEdge" ["node"; "cursor"]).
Definition fieldContext_StarRocksConnection_nodes (field : CollectedField) : FieldContext :=
  property_context "StarRocksConnection" field
    (switch "StarRocksRow" ["data"]).
Definition fieldContext_StarRocksConnection_pageInfo (field : CollectedField) : FieldContext :=
  property_context "StarRocksConnection" field
    (switch "PageInfo" ["hasNextPage"; "hasPreviousPage"; "startCursor"; "endCursor"]).
Definition fieldContext_StarRocksConnection_totalCount (field : CollectedField) : FieldContext :=
  property_context "StarRocksConnection" field
    (leaf "Int").

Definition fieldContext_StarRocksEdge_node (field : CollectedField) : FieldContext :=
  property_context "StarRocksEdge" field
    (switch "StarRocksRow" ["data"]).
Definition fieldContext_StarRocksEdge_cursor (field : CollectedField) : FieldContext :=
  property_context "StarRocksEdge" field
    (leaf "String").

Definition fieldContext_StarRocksRow_data (field : CollectedField) : FieldContext :=
  property_context "StarRocksRow" field
    (leaf "JSON").

Definition fieldContext_TemplateInfo_name (field : CollectedField) : FieldContext :=
  property_context "TemplateInfo" field
    (leaf "String").
Definition fieldContext_TemplateInfo_description (field : CollectedField) : FieldContext :=
  property_context "TemplateInfo" field
    (leaf "String").
Definition fieldContext_TemplateInfo_countEnabled (field : CollectedField) : FieldContext :=
  property_context "TemplateInfo" field
    (leaf "Boolean").
Definition fieldContext_TemplateInfo_parameters (field : CollectedField) : FieldContext :=
  property_context "TemplateInfo" field
    (switch "TemplateParameterInfo" ["name"; "type"; "required"; "defaultValue"]).

Definition fieldContext_TemplateLoadFailure_name (field : CollectedField) : FieldContext :=
  property_context "TemplateLoadFailure" field
    (leaf "String").
Definition fieldContext_TemplateLoadFailure_error (field : CollectedField) : FieldContext :=
  property_context "TemplateLoadFailure" field
    (leaf "String").

Definition fieldContext_TemplateParameterInfo_name (field : CollectedField) : FieldContext :=
  property_context "TemplateParameterInfo" field
    (leaf "String").
Definition fieldContext_TemplateParameterInfo_type (field : CollectedField) : FieldContext :=
  property_context "TemplateParameterInfo" field
    (leaf "String").
Definition fieldContext_TemplateParameterInfo_required (field : CollectedField) : FieldContext :=
  property_context "TemplateParameterInfo" field
    (leaf "Boolean").
Definition fieldContext_TemplateParameterInfo_defaultValue (field : CollectedField) : FieldContext :=
  property_context "TemplateParameterInfo" field
    (leaf "String").

Definition fieldContext_TemplateQueryConnection_nodes (field : CollectedField) : FieldContext :=
  property_context "TemplateQueryConnection" field
    (leaf "JSON").
Definition fieldContext_TemplateQueryConnection_pageInfo (field : CollectedField) : FieldContext :=
  property_context "TemplateQueryConnection" field
    (switch "PageInfo" ["hasNextPage"; "hasPreviousPage"; "startCursor"; "endCursor"]).
Definition fieldContext_TemplateQueryConnection_totalCount (field : CollectedField) : FieldContext :=
  property_context "TemplateQueryConnection" field
    (leaf "Int").

Definition fieldContext___Directive_name (field : CollectedField) : FieldContext :=
  property_context "__Directive" field
    (leaf "String").
Definition fieldContext___Directive_description (field : CollectedField) : FieldContext :=
  method_context "__Directive" field
    (leaf "String").
Definition fieldContext___Directive_isRepeatable (field : CollectedField) : FieldContext :=
  property_context "__Directive" field
    (leaf "Boolean").
Definition fieldContext___Directive_locations (field : CollectedField) : FieldContext :=
  property_context "__Directive" field
    (leaf "__DirectiveLocation").
Definition fieldContext___Directive_args (field : CollectedField) : FieldContext :=
  property_context "__Directive" field
    (switch "__InputValue" ["name"; "description"; "type"; "defaultValue"; "isDeprecated"; "deprecationReason"]).

Definition fieldContext___EnumValue_name (field : CollectedField) : FieldContext :=
  property_context "__EnumValue" field
    (leaf "String").
Definition fieldContext___EnumValue_description (field : CollectedField) : FieldContext :=
  method_context "__EnumValue" field
    (leaf "String").
Definition fieldContext___EnumValue_isDeprecated (field : CollectedField) : FieldContext :=
  method_context "__EnumValue" field
    (leaf "Boolean").
Definition fieldContext___EnumValue_deprecationReason (field : CollectedField) : FieldContext :=
  method_context "__EnumValue" field
    (leaf "String").

Definition fieldContext___Field_name (field : CollectedField) : FieldContext :=
  property_context "__Field" field
    (leaf "String").
Definition fieldContext___Field_description (field : CollectedField) : FieldContext :=
  method_context "__Field" field
    (leaf "String").
Definition fieldContext___Field_args (field : CollectedField) : FieldContext :=
  property_context "__Field" field
    (switch "__InputValue" ["name"; "description"; "type"; "defaultValue"; "isDeprecated"; "deprecationReason"]).
Definition fieldContext___Field_type (field : CollectedField) : FieldContext :=
  property_context "__Field" field
    (switch "__Type" ["kind"; "name"; "description"; "specifiedByURL"; "fields"; "interfaces"; "possibleTypes"; "enumValues"; "inputFields"; "ofType"; "isOneOf"]).
Definition fieldContext___Field_isDeprecated (field : CollectedField) : FieldContext :=
  method_context "__Field" field
    (leaf "Boolean").
Definition fieldContext___Field_deprecationReason (field : CollectedField) : FieldContext :=
  method_context "__Field" field
    (leaf "String").

Definition fieldContext___InputValue_name (field : CollectedField) : FieldContext :=
  property_context "__InputValue" field
    (leaf "String").
Definition fieldContext___InputValue_description (field : CollectedField) : FieldContext :=
  method_context "__InputValue" field
    (leaf "String").
Definition fieldContext___InputValue_type (field : CollectedField) : FieldContext :=
  property_context "__InputValue" field
    (switch "__Type" ["kind"; "name"; "description"; "specifiedByURL"; "fields"; "interfaces"; "possibleTypes"; "enumValues"; "inputFields"; "ofType"; "isOneOf"]).
Definition fieldContext___InputValue_defaultValue (field : CollectedField) : FieldContext :=
  property_context "__InputValue" field
    (leaf "String").
Definition fieldContext___InputValue_isDeprecated (field : CollectedField) : FieldContext :=
  method_context "__InputValue" field
    (leaf "Boolean").
Definition fieldContext___InputValue_deprecationReason (field : CollectedField) : FieldContext :=
  method_context "__InputValue" field
    (leaf "String").

Definition fieldContext___Schema_description (field : CollectedField) : FieldContext :=
  method_context "__Schema" field
    (leaf "String").
Definition fieldContext___Schema_types (field : CollectedField) : FieldContext :=
  method_context "__Schema" field
    (switch "__Type" ["kind"; "name"; "description"; "specifiedByURL"; "fields"; "interfaces"; "possibleTypes"; "enumValues"; "inputFields"; "ofType"; "isOneOf"]).
Definition fieldContext___Schema_queryType (field : CollectedField) : FieldContext :=
  method_context "__Schema" field
    (switch "__Type" ["kind"; "name"; "description"; "specifiedByURL"; "fields"; "interfaces"; "possibleTypes"; "enumValues"; "inputFields"; "ofType"; "isOneOf"]).
Definition fieldContext___Schema_mutationType (field : CollectedField) : FieldContext :=
  method_context "__Schema" field
    (switch "__Type" ["kind"; "name"; "description"; "specifiedByURL"; "fields"; "interfaces"; "possibleTypes"; "enumValues"; "inputFields"; "ofType"; "isOneOf"]).
Definition fieldContext___Schema_subscriptionType (field : CollectedField) : FieldContext :=
  method_context "__Schema" field
    (switch "__Type" ["kind"; "name"; "description"; "specifiedByURL"; "fields"; "interfaces"; "possibleTypes"; "enumValues"; "inputFields"; "ofType"; "isOneOf"]).
Definition fieldContext___Schema_directives (field : CollectedField) : FieldContext :=
  method_context "__Schema" field
    (switch "__Directive" ["name"; "description"; "isRepeatable"; "locations"; "args"]).

Definition fieldContext___Type_kind (field : CollectedField) : FieldContext :=
  method_context "__Type" field
    (leaf "__TypeKind").
Definition fieldContext___Type_name (field : CollectedField) : FieldContext := method_context "__Type" field (leaf "String").
Definition fieldContext___Type_description (field : CollectedField) : FieldContext :=
  method_context "__Type" field
    (leaf "String").
Definition fieldContext___Type_specifiedByURL (field : CollectedField) : FieldContext :=
  method_context "__Type" field
    (leaf "String").
Definition fieldContext___Type_fields (field : CollectedField) : FieldContext :=
  method_context "__Type" field
    (switch "__Field" ["name"; "description"; "args"; "type"; "isDeprecated"; "deprecationReason"]).
Definition fieldContext___Type_interfaces (field : CollectedField) : FieldContext :=
  method_context "__Type" field
    (switch "__Type" ["kind"; "name"; "description"; "specifiedByURL"; "fields"; "interfaces"; "possibleTypes"; "enumValues"; "inputFields"; "ofType"; "isOneOf"]).
Definition fieldContext___Type_possibleTypes (field : CollectedField) : FieldContext :=
  method_context "__Type" field
    (switch "__Type" ["kind"; "name"; "description"; "specifiedByURL"; "fields"; "interfaces"; "possibleTypes"; "enumValues"; "inputFields"; "ofType"; "isOneOf"]).
Definition fieldContext___Type_enumValues (field : CollectedField) : FieldContext :=
  method_context "__Type" field
    (switch "__EnumValue" ["name"; "description"; "isDeprecated"; "deprecationReason"]).
Definition fieldContext___Type_inputFields (field : CollectedField) : FieldContext :=
  method_context "__Type" field
    (switch "__InputValue" ["name"; "description"; "type"; "defaultValue"; "isDeprecated"; "deprecationReason"]).
Definition fieldContext___Type_ofType (field : CollectedField) : FieldContext :=
  method_context "__Type" field
    (switch "__Type" ["kind"; "name"; "description"; "specifiedByURL"; "fields"; "interfaces"; "possibleTypes"; "enumValues"; "inputFields"; "ofType"; "isOneOf"]).
Definition fieldContext___Type_isOneOf (field : CollectedField) : FieldContext :=
  method_context "__Type" field
    (leaf "Boolean").

(** The functions by type and field. *)
Definition field_contexts : list (string * list (string * (CollectedField -> FieldContext))) :=
  [("Mutation", [("clearCache", fieldContext_Mutation_clearCache); ("insertStarrocks",
      fieldContext_Mutation_insertStarrocks); ("updateStarrocks", fieldContext_Mutation_updateStarrocks); ("deleteStarrocks",
      fieldContext_Mutation_deleteStarrocks); ("insertBatchStarrocks", fieldContext_Mutation_insertBatchStarrocks);
      ("reloadTemplates", fieldContext_Mutation_reloadTemplates)]);
   ("MutationResult", [("success", fieldContext_MutationResult_success); ("affectedRows",
      fieldContext_MutationResult_affectedRows); ("warning", fieldContext_MutationResult_warning)]);
   ("PageInfo", [("hasNextPage", fieldContext_PageInfo_hasNextPage); ("hasPreviousPage",
      fieldContext_PageInfo_hasPreviousPage); ("startCursor", fieldContext_PageInfo_startCursor); ("endCursor",
      fieldContext_PageInfo_endCursor)]);
   ("PrometheusDataPoint", [("timestamp", fieldContext_PrometheusDataPoint_timestamp); ("value",
      fieldContext_PrometheusDataPoint_value)]);
   ("PrometheusInstantResult", [("resultType", fieldContext_PrometheusInstantResult_resultType); ("vectors",
      fieldContext_PrometheusInstantResult_vectors)]);
   ("PrometheusMatrix", [("metric", fieldContext_PrometheusMatrix_metric); ("values",
      fieldContext_PrometheusMatrix_values)]);
   ("PrometheusMetricLabel", [("name", fieldContext_PrometheusMetricLabel_name); ("value",
      fieldContext_PrometheusMetricLabel_value)]);
   ("PrometheusRangeResult", [("resultType", fieldContext_PrometheusRangeResult_resultType); ("matrices",
      fieldContext_PrometheusRangeResult_matrices)]);
   ("PrometheusVector", [("metric", fieldContext_PrometheusVector_metric); ("value",
      fieldContext_PrometheusVector_value)]);
   ("Query", [("starrocks", fieldContext_Query_starrocks); ("prometheusInstant", fieldContext_Query_prometheusInstant);
      ("prometheusRange", fieldContext_Query_prometheusRange); ("templateQuery", fieldContext_Query_templateQuery);
      ("templateList", fieldContext_Query_templateList); ("__type", fieldContext_Query___type); ("__schema",
      fieldContext_Query___schema)]);
   ("ReloadTemplatesResult", [("successCount", fieldContext_ReloadTemplatesResult_successCount); ("failures",
      fieldContext_ReloadTemplatesResult_failures); ("duration", fieldContext_ReloadTemplatesResult_duration)]);
   ("StarRocksConnection", [("edges", fieldContext_StarRocksConnection_edges); ("nodes",
      fieldContext_StarRocksConnection_nodes); ("pageInfo", fieldContext_StarRocksConnection_pageInfo); ("totalCount",
      fieldContext_StarRocksConnection_totalCount)]);
   ("StarRocksEdge", [("node", fieldContext_StarRocksEdge_node); ("cursor", fieldContext_StarRocksEdge_cursor)]);
   ("StarRocksRow", [("data", fieldContext_StarRocksRow_data)]);
   ("TemplateInfo", [("name", fieldContext_TemplateInfo_name); ("description", fieldContext_TemplateInfo_description);
      ("countEnabled", fieldContext_TemplateInfo_countEnabled); ("parameters", fieldContext_TemplateInfo_parameters)]);
   ("TemplateLoadFailure", [("name", fieldContext_TemplateLoadFailure_name); ("error",
      fieldContext_TemplateLoadFailure_error)]);
   ("TemplateParameterInfo", [("name", fieldContext_TemplateParameterInfo_name); ("type",
      fieldContext_TemplateParameterInfo_type); ("required", fieldContext_TemplateParameterInfo_required); ("defaultValue",
      fieldContext_TemplateParameterInfo_defaultValue)]);
   ("TemplateQueryConnection", [("nodes", fieldContext_TemplateQueryConnection_nodes); ("pageInfo",
      fieldContext_TemplateQueryConnection_pageInfo); ("totalCount", fieldContext_TemplateQueryConnection_totalCount)]);
   ("__Directive", [("name", fieldContext___Directive_name); ("description", fieldContext___Directive_description);
      ("isRepeatable", fieldContext___Directive_isRepeatable); ("locations", fieldContext___Directive_locations); ("args",
      fieldContext___Directive_args)]);
   ("__EnumValue", [("name", fieldContext___EnumValue_name); ("description", fieldContext___EnumValue_description);
      ("isDeprecated", fieldContext___EnumValue_isDeprecated); ("deprecationReason",
      fieldContext___EnumValue_deprecationReason)]);
   ("__Field", [("name", fieldContext___Field_name); ("description", fieldContext___Field_description); ("args",
      fieldContext___Field_args); ("type", fieldContext___Field_type); ("isDeprecated", fieldContext___Field_isDeprecated);
      ("deprecationReason", fieldContext___Field_deprecationReason)]);
   ("__InputValue", [("name", fieldContext___InputValue_name); ("description", fieldContext___InputValue_description);
      ("type", fieldContext___InputValue_type); ("defaultValue", fieldContext___InputValue_defaultValue); ("isDeprecated",
      fieldContext___InputValue_isDeprecated); ("deprecationReason", fieldContext___InputValue_deprecationReason)]);
   ("__Schema", [("description", fieldContext___Schema_description); ("types", fieldContext___Schema_types); ("queryType",
      fieldContext___Schema_queryType); ("mutationType", fieldContext___Schema_mutationType); ("subscriptionType",
      fieldContext___Schema_subscriptionType); ("directives", fieldContext___Schema_directives)]);
   ("__Type", [("kind", fieldContext___Type_kind); ("name", fieldContext___Type_name); ("description",
      fieldContext___Type_description); ("specifiedByURL", fieldContext___Type_specifiedByURL); ("fields",
      fieldContext___Type_fields); ("interfaces", fieldContext___Type_interfaces); ("possibleTypes",
      fieldContext___Type_possibleTypes); ("enumValues", fieldContext___Type_enumValues); ("inputFields",
      fieldContext___Type_inputFields); ("ofType", fieldContext___Type_ofType); ("isOneOf", fieldContext___Type_isOneOf)])].
Definition fieldContext (object name : string) : option (CollectedField -> FieldContext) :=
  fs ← assoc object field_contexts; assoc name fs.

(** Following [Child] down a path of fields from a root field. *)
Fixpoint walk (c : FieldContext) (path : list CollectedField) : result FieldContext :=
  match path with
  | [] => Ok c
  | field :: path' =>
      match Child c (fName field) with
      | Err e => Err e
      | Ok (typ, name) =>
          match fieldContext typ name with
          | Some context => walk (context field) path'
          | None => Err (Errorf (Sprintf "undefined: ec.fieldContext_%s_%s" [AStr typ; AStr name]))
          end
      end
  end.

(** ** Specification: the paths of the schema *)

(** The type a field's value has below its lists and non-nulls. *)
Fixpoint base_type (t : GType) : string * bool :=
  match t with
  | TString => ("String", false) | TInt => ("Int", false) | TFloat => ("Float", false) | TBoolean => ("Boolean", false)
  | TJSON => ("JSON", false) | TEnum name => (name, false) | TObject name => (name, true)
  | TList t | TNonNull t => base_type t
  end.
(** The type of the last field of a path, and the type that has the field. *)
Fixpoint schema_path (object : string) (path : list string) : option (string * GType) :=
  match path with
  | [] => None
  | name :: path' =>
      t ← assoc name (type_fields object);
      match path' with
      | [] => Some (object, t)
      | _ => let '(base, composite) := base_type t in if composite : bool then schema_path base path' else None
      end
  end.

(** ** Theorems *)

Definition child_of (t : GType) (name : string) : result (string * string) :=
  let '(base, composite) := base_type t in
  if composite : bool then switch base (map fst (type_fields base)) name else leaf base name.
(** One context of the table is the one its field in the schema asks for. *)
Definition context_ok (object name : string) (t : GType) : Prop :=
  match fieldContext object name with
  | Some context => forall field,
      Object (context field) = object /\ Field (context field) = field
      /\ IsResolver (context field) = bool_decide (object ∈ ["Query"; "Mutation"]) && negb (has_prefix "__" name)
      /\ forall child, Child (context field) child = child_of t child
  | None => False
  end.
Definition schema_types : list string := map fst field_contexts.
Ltac context_case :=
  intros ?; split; [reflexivity|split; [reflexivity|split; [reflexivity|intros ?; reflexivity]]].
Lemma contexts_ok : Forall (fun object => Forall (fun ft => context_ok object ft.1 ft.2) (type_fields object)) schema_types.
Proof.
  unfold schema_types. cbn [map fst field_contexts].
  repeat (apply Forall_cons; split); first [exact (proj2 (Forall_nil _) I)|context_case].
Qed.
(** What the lookups find are fields of the schema, and a composite type has contexts. *)
Lemma contexts_in_schema :
  Forall (fun oc => Forall (fun name => name ∈ map fst (type_fields oc.1)) (map fst oc.2)) field_contexts.
Proof. unfold field_contexts. repeat (apply Forall_cons; split); first [exact (proj2 (Forall_nil _) I)|cbn [fst snd map]; decided]. Qed.
Lemma types_closed : Forall (fun object => Forall (fun ft => (base_type ft.2).2 = true -> (base_type ft.2).1 ∈ schema_types)
  (type_fields object)) schema_types.
Proof. decided. Qed.

Lemma context_of object name t : object ∈ schema_types -> assoc name (type_fields object) = Some t -> context_ok object name t.
Proof.
  intros Ho Hn%assoc_elem. pose proof (proj1 (Forall_forall _ _) contexts_ok _ Ho) as H. cbv beta in H.
  rewrite Forall_forall in H. exact (H _ Hn).
Qed.
Lemma context_field object name context : fieldContext object name = Some context -> is_Some (assoc name (type_fields object)).
Proof.
  unfold fieldContext. intros (fs & Ho & Hn)%bind_Some. apply assoc_elem in Ho, Hn.
  pose proof (proj1 (Forall_forall _ _) contexts_in_schema _ Ho) as H. cbv beta in H. rewrite Forall_forall in H.
  apply not_eq_None_Some. rewrite assoc_None. intros Hc. apply Hc, (H name).
  apply list_elem_of_fmap. by exists (name, context).
Qed.

Definition walk_from (object : string) (field : CollectedField) (path : list CollectedField) : option (result FieldContext) :=
  context ← fieldContext object (fName field); Some (walk (context field) path).
Lemma walk_schema path : forall object field, object ∈ schema_types ->
  match schema_path object (map fName (field :: path)) with
  | Some (o, t) => exists c, walk_from object field path = Some (Ok c) /\ Object c = o
                             /\ Field c = foldl (fun _ f => f) field path
                             /\ IsResolver c = bool_decide (o ∈ ["Query"; "Mutation"]) && negb (has_prefix "__" (fName (Field c)))
                             /\ forall child, Child c child = child_of t child
  | None => walk_from object field path = None \/ exists t child e, child_of t child = Err e /\ walk_from object field path = Some (Err e)
  end.
Proof.
  induction path as [|next path IH]; intros object field Ho; unfold walk_from; cbn [map schema_path];
    (destruct (assoc (fName field) (type_fields object)) as [t|] eqn:Et;
     [|left; destruct (fieldContext object (fName field)) eqn:Ec; [|done]; apply context_field in Ec as [? Ec]; congruence]).
  - pose proof (context_of _ _ _ Ho Et) as Hc. unfold context_ok in Hc. destruct (fieldContext _ _) as [context|]; [|done].
    destruct (Hc field) as (H1 & H2 & H4 & H3). exists (context field). cbn [foldl]. rewrite H4, H2. done.
  - pose proof (context_of _ _ _ Ho Et) as Hc. unfold context_ok in Hc. destruct (fieldContext _ _) as [context|]; [|done].
    destruct (Hc field) as (_ & _ & _ & H3). cbn [mbind option_bind walk]. rewrite H3. unfold child_of.
    pose proof (proj1 (Forall_forall _ _) types_closed _ Ho) as Hb. cbv beta in Hb. rewrite Forall_forall in Hb.
    specialize (Hb (fName field, t) (assoc_elem _ _ _ Et)). cbn [snd] in Hb. cbn [mbind option_bind].
    assert (Herr : forall e, child_of t (fName next) = Err e -> forall r, r = Some (Err (A := FieldContext) e) ->
      r = None \/ exists t child e, child_of t child = Err e /\ r = Some (Err e)) by (intros; right; eauto).
    unfold child_of in Herr at 1. destruct (base_type t) as [base []]; [|by eapply Herr]. specialize (Hb eq_refl). cbn [fst] in Hb.
    unfold switch in *. clear Hc. destruct (decide (fName next ∈ map fst (type_fields base))) as [Hin|Hin].
    + rewrite bool_decide_eq_true_2 by done. specialize (IH base next Hb). unfold walk_from in IH. cbn [map schema_path] in IH.
      match type of IH with match ?x with _ => _ end => destruct x as [[o t']|] end.
      * destruct IH as (c & Hw & Hrest). exists c. split; [|exact Hrest].
        by destruct (fieldContext base (fName next)).
      * apply assoc_is_Some in Hin as [t' Ht']. pose proof (context_of _ _ _ Hb Ht') as Hc. unfold context_ok in Hc.
        destruct (fieldContext base (fName next)); [|done]. destruct IH as [[=]|IH]; by right.
    + rewrite bool_decide_eq_false_2 in * by done. apply assoc_None in Hin. rewrite Hin. by eapply Herr.
Qed.

(** the contexts of the fields.  From a field of a root, following [Child] along any path of
    fields leads to the context of the last one, with the type that has it in the schema and
    that field, exactly if the path is one of the schema, introspection included; where the
    schema has no such field, it ends in an error.  No function is missing on the way, and only
    root fields outside the introspection are marked as resolvers. *)
Theorem contexts_follow_schema root field path :
  root ∈ ["Query"; "Mutation"] ->
  match schema_path root (map fName (field :: path)) with
  | Some (object, t) => exists c, walk_from root field path = Some (Ok c) /\ Object c = object
                                  /\ Field c = foldl (fun _ f => f) field path
                             /\ IsResolver c = bool_decide (object ∈ ["Query"; "Mutation"]) && negb (has_prefix "__" (fName (Field c)))
                             /\ forall child, Child c child = child_of t child
  | None => walk_from root field path = None \/ exists t child e, child_of t child = Err e /\ walk_from root field path = Some (Err e)
  end.
Proof.
  intros Hr. apply walk_schema. rewrite !elem_of_cons in Hr. destruct Hr as [->|[->|Hr]]; [decided..|by apply elem_of_nil in Hr].
Qed.
End Contexts.
