(* ===== verification/GraphqlTyped.v ===== *)
(** * The answers of the generated executor have the types of the schema

    Lemmas on the computations of [GraphqlOutput] and the theorems: every answer conforms to the
    schema or is null with an error, and the mutations of a document run one after the other. *)
From S2P Require Import Prelude GoStrings Values GoConv FuncMap Json JsonRaw Scalar.
From S2P Require Import Resolver PrometheusResolver TemplateResolver GraphqlInput GraphqlOutput.
From S2P Require Mutation TemplateEngine TemplateLoader.
Import Mutation (ColumnValueInput, MutationFilterInput, MutationResult, resSuccess, AffectedRows, Warning).

(** ** Lemmas *)

Section Ensures.
Context {W : Type} {R : relation W} {PO : PreOrder R}.
#[local] Set Default Proof Using "Type".

Lemma ensures_ret {A} (a : A) (Q : A -> list FieldError -> Prop) : (forall e, Q a e) -> ensures R (xret a) Q.
Proof using PO. intros H s. cbn. split_and!; [reflexivity|done|]. by intros ? [= <-]. Qed.
Lemma ensures_bind {A B} (m : X W A) (f : A -> X W B) P Q :
  ensures R m P -> (forall a s, P a (errs s) -> let r := f a s in
    R (world s) (world r.2) /\ errs s `prefix_of` errs r.2 /\ forall b, r.1 = Some b -> Q b (errs r.2)) ->
  ensures R (xbind m f) Q.
Proof using PO.
  intros Hm Hf s. specialize (Hm s). unfold xbind. destruct (m s) as [[a|] s1]; cbn in *.
  - destruct Hm as (H1 & H2 & H3). destruct (Hf a s1 (H3 a eq_refl)) as (H4 & H5 & H6).
    split_and!; [by etrans|by etrans|done].
  - destruct Hm as (H1 & H2 & _). split_and!; done.
Qed.
Lemma ensures_weaken {A} (m : X W A) (P Q : A -> list FieldError -> Prop) :
  ensures R m P -> (forall a e, P a e -> Q a e) -> ensures R m Q.
Proof. intros Hm H s. destruct (Hm s) as (H1 & H2 & H3). split_and!; [done..|]. intros a Ha. by apply H, H3. Qed.
(** The result of [m] is known and stays known while [f] runs. *)
Lemma ensures_then {A B} (m : X W A) (f : A -> X W B) P Q :
  stable P -> ensures R m P -> (forall a, exists Q', ensures R (f a) Q' /\ forall b e, P a e -> Q' b e -> Q b e) ->
  ensures R (xbind m f) Q.
Proof using PO.
  intros Hs Hm Hf. eapply ensures_bind; [exact Hm|]. intros a s Ha. destruct (Hf a) as (Q' & Hq & HQ).
  destruct (Hq s) as (H1 & H2 & H3). split_and!; [done..|]. intros b Hb. apply HQ; [by eapply Hs|by apply H3].
Qed.
End Ensures.

Section Typed.
Context {GX : Gqlgen} {GXL : GqlgenLaws GX} {JT : JsonText} {W : Type} {R : relation W} {PO : PreOrder R}.
#[local] Set Default Proof Using "Type".

(** A value of the type, or null and then there is an error. *)
Definition answers_to (t : GType) (sel : Selections) (m : Marshaler) (e : list FieldError) : Prop :=
  conforms t sel m \/ (m = MNull /\ e <> []).
Definition answers (t : GType) (sel : Selections) (m : X W Marshaler) : Prop := ensures R m (answers_to t sel).
Lemma prefix_some {A} (e e' : list A) : e <> [] -> e `prefix_of` e' -> e' <> [].
Proof. intros H [k ->]. by destruct e. Qed.
Lemma answers_stable t sel : stable (answers_to t sel).
Proof. intros m e e' [H|[-> H]] Hp; [by left|right; split; [done|by eapply prefix_some]]. Qed.
Lemma answers_optional t sel m e : non_null t = false -> answers_to t sel m e -> conforms t sel m.
Proof. intros Ht [H|[-> _]]; [done|by constructor]. Qed.
Lemma logged (ctx : Path) err (s : St W) : errs (add_error ctx err s).2 <> [].
Proof. cbn. by destruct (errs s). Qed.

Lemma answers_ret t sel m : conforms t sel m -> answers t sel (xret m).
Proof using PO. intros H. apply ensures_ret. by left. Qed.
Lemma answers_disallow t sel ctx : answers t sel (disallow ctx).
Proof using GXL PO.
  intros s. unfold disallow. destruct (HasFieldError ctx (errs s)) eqn:E; cbn; (split_and!; [reflexivity| |]).
  - done.
  - intros ? [= <-]. right. split; [done|by eapply HasFieldError_some].
  - by apply prefix_app_r.
  - intros ? [= <-]. right. split; [done|by apply (logged ctx errNull)].
Qed.
Lemma answers_not_null t sel ctx m : conforms t sel m -> answers (TNonNull t) sel (not_null ctx m).
Proof using GXL PO.
  intros H. unfold not_null. destruct (is_null m) eqn:E; [apply answers_disallow|]. apply answers_ret. constructor; [|done]. by intros ->.
Qed.
Lemma answers_not_nil {A} t sel ctx (v : option A) k :
  (forall a, answers t sel (k a)) -> answers t sel (not_nil ctx v k).
Proof using GXL PO. intros H. destruct v; [apply H|apply answers_disallow]. Qed.

Lemma conforms_elements t sel ms e :
  Forall (fun m => answers_to (TNonNull t) sel m e) ms -> answers_to (TNonNull (TList (TNonNull t))) sel (null_if_any ms) e.
Proof.
  intros H. unfold null_if_any. destruct (existsb is_null ms) eqn:E.
  - right. split; [done|]. apply existsb_exists in E as (m & Hm & Hn). rewrite Forall_forall in H.
    destruct m; try done. apply list_elem_of_In in Hm. destruct (H _ Hm) as [Hc|[_ He]]; [|done]. by inversion Hc.
  - left. constructor; [done|]. constructor. apply Forall_forall. intros m Hm.
    destruct (proj1 (Forall_forall _ _) H m Hm) as [Hc|[-> _]]; [done|].
    exfalso. enough (existsb is_null ms = true) by congruence. apply existsb_exists. exists MNull. split; [by apply list_elem_of_In|done].
Qed.
Lemma answers_slice {A} t sel ctx (marshal : Path -> option A -> X W Marshaler) v :
  (forall ctx a, answers (TNonNull t) sel (marshal ctx a)) -> answers (TNonNull (TList (TNonNull t))) sel (marshal_slice ctx marshal v).
Proof using GXL PO.
  intros H. unfold marshal_slice. eapply ensures_then;
    [|apply (MarshalSliceConcurrently_each _ R PO _ _ _ (fun _ => answers_to (TNonNull t) sel)); [intros; apply answers_stable|intros; apply H]|].
  - intros ms e e' [Hl Hm] Hp. split; [done|]. intros i m Hi. eapply answers_stable; [by eapply Hm|done].
  - intros ms. exists (fun r _ => r = null_if_any ms). split; [by apply ensures_ret|]. intros r e [_ Hm] ->.
    apply conforms_elements. apply Forall_lookup. intros i m Hi. by eapply Hm.
Qed.

(** Resolving one field: whatever the resolver does, the answer has the type [marshal] gives it. *)
Lemma answers_field {A T} t ctx field (init : Path -> X W (result A)) (resolve : A -> X W (result T)) marshal nonNull :
  (forall c, ensures R (init c) (fun r e => forall err, r = Err err -> e <> [])) -> (forall c s, (init c s).1 <> None) ->
  (forall a, ensures R (resolve a) (fun _ _ => True)) ->
  (forall c v, answers t (fSelections field) (marshal c (fSelections field) v)) ->
  answers t (fSelections field) (ResolveField ctx field init resolve marshal true nonNull).
Proof using GXL PO.
  intros Hi Hn Hr Hm s. set (c := child_path ctx field).
  assert (Hnull : forall s', R (world s) (world s') -> errs s `prefix_of` errs s' -> forall e',
    let r := (Some MNull, (add_error c e' s').2) in
    R (world s) (world r.2) /\ errs s `prefix_of` errs r.2 /\ forall a, r.1 = Some a -> answers_to t (fSelections field) a (errs r.2)).
  { intros s' H1 H2 e'. cbn. split_and!; [done|by apply prefix_app_r|]. intros ? [= <-]. right. split; [done|]. by apply (logged c e' s'). }
  specialize (Hi c s) as (I1 & I2 & I3). specialize (Hn c s).
  destruct (init c s) as [[[a|err]|] s1] eqn:Ei; cbn in *; [| |done].
  2: { rewrite (ResolveField_refused _ _ _ _ _ _ _ _ _ _ _ _ Ei). cbn. split_and!; [done..|]. intros ? [= <-]. right. split; [done|by eapply I3]. }
  specialize (Hr a s1) as (R1 & R2 & _). destruct (resolve a s1) as [[[v|err]|] s2] eqn:Er; cbn in *.
  - specialize (Hm c v s2) as (M1 & M2 & M3). destruct (marshal c (fSelections field) v s2) as [[m|] s3] eqn:Em; cbn in *.
    + rewrite (ResolveField_value _ _ _ _ _ _ _ _ _ _ _ _ _ _ _ _ Ei Er Em). cbn. split_and!; [by do 2 (etrans; [done|])..|done].
    + destruct (ResolveField_panicked _ _ _ ctx field init resolve marshal nonNull s a s1 s3 Ei) as [e' ->]; [right; eauto|].
      refine (Hnull s3 _ _ e'); [by do 2 (etrans; [done|])..].
  - destruct (ResolveField_failed _ _ _ ctx field init resolve marshal nonNull s a s1 err s2 Ei Er) as [e' ->].
    refine (Hnull s2 _ _ e'); [by etrans..].
  - destruct (ResolveField_panicked _ _ _ ctx field init resolve marshal nonNull s a s1 s2 Ei) as [e' ->]; [by left|].
    refine (Hnull s2 _ _ e'); [by etrans..].
Qed.
Lemma answers_property {T} t ctx field (v : T) marshal nonNull :
  (forall c v, answers t (fSelections field) (marshal c (fSelections field) v)) ->
  answers t (fSelections field) (property ctx field v marshal nonNull).
Proof using GXL PO.
  intros H. unfold property. apply answers_field; [|done| |done]; intros; apply ensures_ret; done.
Qed.

(** One case of the switch answers the type the schema gives the field, and its nulls are counted
    exactly if that type does not allow them. *)
Definition cases_typed (name : string) (cases : CollectedField -> list (string * (X W Marshaler * bool))) : Prop :=
  forall field, Forall (fun '(k, (run, counted)) =>
    match assoc k (type_fields name) with
    | Some t => counted = non_null t /\ answers t (fSelections field) run
    | None => False
    end) (cases field).
Definition field_conforms (name : string) (field : CollectedField) (m : Marshaler) : Prop :=
  (fName field = "__typename" /\ m = MString name)
  \/ exists t, assoc (fName field) (type_fields name) = Some t /\ conforms t (fSelections field) m.
Lemma assoc_Forall {A} (P : string * A -> Prop) l k v : Forall P l -> assoc k l = Some v -> P (k, v).
Proof. intros H E. by apply (proj1 (Forall_forall P l) H), assoc_elem. Qed.
Definition values_typed (name : string) (fields : list CollectedField) (out : list Marshaler * Z) (e : list FieldError) : Prop :=
  0 <= out.2 /\ (out.2 = 0 -> Forall2 (field_conforms name) fields out.1) /\ (0 < out.2 -> e <> []).
Lemma field_values_typed name cases fields :
  cases_typed name cases -> ensures R (field_values name cases fields) (values_typed name fields).
Proof using GXL PO.
  intros Hc. induction fields as [|field fields IH]; [apply ensures_ret; intros e; split_and!; [done|by constructor|cbn; lia]|].
  cbn [field_values]. eapply (ensures_then _ _ (fun v e => values_typed name [field] ([v.1], v.2) e)).
  - intros [m n] e e' (H1 & H2 & H3) Hp. split_and!; [done..|]. intros Hn. by eapply prefix_some; [apply H3|].
  - destruct (String.eqb_spec (fName field) "__typename") as [E|_].
    + apply ensures_ret. intros e. split_and!; [done| |cbn; lia]. intros _. constructor; [by left|constructor].
    + destruct (assoc (fName field) (cases field)) as [[run counted]|] eqn:E.
      2: { intros s. split; [reflexivity|]. split; [done|]. intros ? [=]. }
      pose proof (assoc_Forall _ _ _ _ (Hc field) E) as Ht. cbv beta iota in Ht. destruct (assoc (fName field) (type_fields name)) as [t|] eqn:Et; [|done].
      destruct Ht as [-> Ha]. eapply ensures_then; [apply answers_stable|exact Ha|]. intros m.
      exists (fun r _ => r = (m, if non_null t && is_null m then 1 else 0)). split; [by apply ensures_ret|]. intros r e Hm ->. cbn.
      destruct (non_null t) eqn:En; [destruct (is_null m) eqn:Em|]; cbn.
      * destruct m; try done. destruct Hm as [Hm|[_ He]]; [by destruct t; inversion Hm|]. by split_and!.
      * split_and!; [done| |by intros ?]. intros _. constructor; [|constructor]. right. exists t. split; [done|]. by destruct Hm as [Hm|[-> _]].
      * split_and!; [done| |by intros ?]. intros _. constructor; [|constructor]. right. exists t. split; [done|]. by eapply answers_optional.
  - intros v. exists (fun r e => exists r', r = (v.1 :: r'.1, v.2 + r'.2) /\ values_typed name fields r' e). split.
    + eapply ensures_bind; [exact IH|]. intros r s Hr. cbn. split_and!; [reflexivity|done|]. intros ? [= <-]. by exists r.
    + intros b e (H1 & H2 & H3) (r & -> & H4 & H5 & H6). cbn in *. split_and!; cbn; [lia| |].
      * intros Hz. assert (v.2 = 0 /\ r.2 = 0) as [Hv Hr] by lia. constructor; [|by apply H5].
        specialize (H2 Hv). by apply Forall2_cons in H2 as [H2 _].
      * intros Hz. destruct (decide (0 < v.2)); [by apply H3|apply H6; lia].
Qed.
Lemma answers_object name sel cases :
  cases_typed name cases -> answers (TNonNull (TObject name)) sel (object_of name sel cases).
Proof using GXL PO.
  intros Hc. unfold object_of. eapply ensures_bind; [apply field_values_typed; exact Hc|]. intros out s (H1 & H2 & H3). cbn.
  split_and!; [reflexivity|done|]. intros ? [= <-]. destruct (Z.ltb_spec 0 out.2); [right; by split; [|apply H3]|].
  left. constructor; [done|]. constructor. apply H2. lia.
Qed.
(** *** What is written *)

Lemma float_conforms t sel ctx f : conforms t sel (MFloat ctx f) -> underlying t = TFloat.
Proof.
  remember (MFloat ctx f) as m eqn:E. intros H. revert E. induction H; intros E; try done. by apply IHconforms.
Qed.
Lemma lost_float f e : MarshalFloatContext f = Err e -> not_finite f = true.
Proof using GXL.
  intros H. destruct (not_finite f) eqn:E; [done|]. apply MarshalFloatContext_finite in E as [t E]. congruence.
Qed.
Lemma finite_float f text : MarshalFloatContext f = Ok text -> not_finite f = false.
Proof using GXL. intros H. apply MarshalFloatContext_finite. by exists text. Qed.
(** What conforms is written as the schema says, once the errors of the writing are in the response. *)
Lemma conforms_written es : forall t sel m, conforms t sel m ->
  (forall x, x ∈ (MarshalGQL m).1 -> x ∈ es) -> written es t sel (MarshalGQL m).2.
Proof using GXL.
  fix IH 4. intros t sel m H. destruct H as [t sel Hn|t sel m Hm H|sel s|sel z|sel ctx f|sel b|sel v|name sel s|t sel l Hl|name sel ms Hms]; intros He.
  - by apply written_null.
  - pose proof (IH _ _ _ H He) as Hw. destruct (MarshalGQL m).2 eqn:E; try (by apply written_non_null).
    destruct m as [| | | |ctx f| | |]; try done. cbn in E, He. destruct (MarshalFloatContext f) as [text|e] eqn:Ef; [done|].
    eapply written_lost_float; [exact (float_conforms _ _ _ _ H)|by eapply lost_float|exact Ef|]. apply He. by left.
  - constructor.
  - constructor.
  - cbn in He |- *. destruct (MarshalFloatContext f) as [text|e] eqn:Ef.
    + eapply written_float; [by eapply finite_float|exact Ef].
    + eapply written_lost_float; [done|by eapply lost_float|exact Ef|]. apply He. by left.
  - constructor.
  - cbn. unfold Scalar.MarshalJSON. destruct (json_row v) as [text|e] eqn:Ev; [by eapply written_json|by eapply written_lost_json].
  - constructor.
  - cbn in He |- *. apply written_list. induction Hl as [|m l Hm Hl IHl]; cbn in *; [constructor|]. constructor.
    + apply IH; [exact Hm|]. intros x Hx. apply He, elem_of_app. by left.
    + apply IHl. intros x Hx. apply He, elem_of_app. by right.
  - cbn in He |- *. rewrite !map_map in *.
    set (names := map fAlias (CollectFields sel [name])) in *.
    assert (Hlen : length names = length ms) by (unfold names; rewrite length_map; by eapply Forall2_length).
    assert (Hfst : map fst (zip names ms) = names) by (apply fst_zip; lia).
    assert (Hsnd : map snd (zip names ms) = ms) by (apply snd_zip; lia).
    assert (Hz : forall A (f : Marshaler -> A), map (fun kv => f kv.2) (zip names ms) = map f ms).
    { intros A f. by rewrite <- Hsnd at 2; rewrite map_map. }
    rewrite Hfst, (Hz _ (fun m => (MarshalGQL m).2)). apply written_object.
    assert (Hin : forall x, x ∈ concat (map (fun m => (MarshalGQL m).1) ms) -> x ∈ es).
    { intros x Hx. apply He. by rewrite (Hz _ (fun m => (MarshalGQL m).1)). }
    clear He Hz Hfst Hsnd Hlen names.
    induction Hms as [|field m fields ms Hm Hms IHms]; cbn in *; [constructor|]. constructor.
    + destruct Hm as [[Hf ->]|(t & Ht & Hm)]; [by left|right]. exists t. split; [done|]. apply IH; [exact Hm|].
      intros x Hx. apply Hin, elem_of_app. by left.
    + apply IHms. intros x Hx. apply Hin, elem_of_app. by right.
Qed.

(** *** The types of the schema *)

Lemma typed_boolean ctx sel v : answers (TNonNull TBoolean) sel (marshalNBoolean ctx sel v).
Proof using GXL PO. apply answers_not_null. constructor. Qed.
Lemma typed_string ctx sel v : answers (TNonNull TString) sel (marshalNString ctx sel v).
Proof using GXL PO. apply answers_not_null. constructor. Qed.
Lemma typed_int ctx sel v : answers (TNonNull TInt) sel (marshalNInt ctx sel v).
Proof using GXL PO. apply answers_not_null. constructor. Qed.
Lemma typed_float ctx sel v : answers (TNonNull TFloat) sel (marshalNFloat ctx sel v).
Proof using GXL PO. apply answers_not_null. constructor. Qed.
Lemma typed_json ctx sel v : answers (TNonNull TJSON) sel (marshalNJSON ctx sel v).
Proof using GXL PO. apply answers_not_nil. intros a. apply answers_not_null. constructor. Qed.
Lemma typed_optional_string ctx sel v : answers TString sel (marshalOString ctx sel v).
Proof using PO. apply answers_ret. destruct v; [apply conforms_string|by apply conforms_null]. Qed.
Lemma typed_optional_float ctx sel v : answers TFloat sel (marshalOFloat ctx sel v).
Proof using PO. apply answers_ret. destruct v; [apply conforms_float|by apply conforms_null]. Qed.
Lemma typed_jsons ctx sel v : answers (TNonNull (TList (TNonNull TJSON))) sel (marshalNJSONs ctx sel v).
Proof using GXL PO.
  unfold marshalNJSONs. eapply (ensures_then _ _ (fun ms e => Forall (fun m => answers_to (TNonNull TJSON) sel m e) ms)).
  - intros ms e e' H Hp. eapply Forall_impl; [exact H|]. intros m Hm. exact (answers_stable _ _ _ _ _ Hm Hp).
  - induction v as [|x v IH]; [by apply ensures_ret; constructor|]. cbn [marshal_each].
    eapply ensures_then; [apply answers_stable|apply (typed_json ctx sel (Some x))|]. intros m.
    exists (fun ms e => exists ms', ms = m :: ms' /\ Forall (fun m => answers_to (TNonNull TJSON) sel m e) ms'). split.
    + eapply ensures_bind; [exact IH|]. intros ms s Hs. cbn. split_and!; [reflexivity|done|]. intros ? [= <-]. by exists ms.
    + intros ? e Hm (ms & -> & Hms). by constructor.
  - intros ms. exists (fun r _ => r = null_if_any ms). split; [by apply ensures_ret|]. intros r e H ->. by apply conforms_elements.
Qed.
End Typed.

Create HintDb typed.
#[export] Hint Resolve typed_boolean typed_string typed_int typed_float typed_json typed_optional_string typed_optional_float typed_jsons
  answers_property : typed.
(** An object: each case of its switch against the field of the schema; a pointer to it; a list. *)
Ltac typed_case :=
  cbv beta iota;
  lazymatch goal with
  | |- match ?x with _ => _ end => let y := eval vm_compute in x in change x with y
  end; cbv beta iota; split; [reflexivity|apply answers_property; eauto with typed].
Ltac typed_object :=
  intros; apply answers_object; intros field; repeat (apply Forall_cons; split); try solve [constructor]; typed_case.
Ltac typed_pointer := intros; apply answers_not_nil; intros; eauto with typed.
Ltac typed_slice := intros; apply answers_slice; intros; eauto with typed.

Section Objects.
Context {GX : Gqlgen} {GXL : GqlgenLaws GX} {JT : JsonText} {W : Type} {R : relation W} {PO : PreOrder R}.
#[local] Set Default Proof Using "Type".
#[local] Abbreviation answers := (answers (R := R)).

Lemma typed_MutationResult ctx sel v : answers (TNonNull (TObject "MutationResult")) sel (marshalNMutationResult ctx sel v).
Proof using GXL PO. typed_pointer. typed_object. Qed.
Lemma typed_PageInfo ctx sel v : answers (TNonNull (TObject "PageInfo")) sel (marshalNPageInfo ctx sel v).
Proof using GXL PO. typed_pointer. typed_object. Qed.
Lemma typed_StarRocksRow ctx sel v : answers (TNonNull (TObject "StarRocksRow")) sel (marshalNStarRocksRow ctx sel v).
Proof using GXL PO. typed_pointer. typed_object. Qed.
#[local] Hint Resolve typed_MutationResult typed_PageInfo typed_StarRocksRow : typed.
Lemma typed_StarRocksRows ctx sel v : answers (TNonNull (TList (TNonNull (TObject "StarRocksRow")))) sel (marshalNStarRocksRows ctx sel v).
Proof using GXL PO. typed_slice. Qed.
Lemma typed_StarRocksEdge ctx sel v : answers (TNonNull (TObject "StarRocksEdge")) sel (marshalNStarRocksEdge ctx sel v).
Proof using GXL PO. typed_pointer. typed_object. Qed.
#[local] Hint Resolve typed_StarRocksRows typed_StarRocksEdge : typed.
Lemma typed_StarRocksEdges ctx sel v : answers (TNonNull (TList (TNonNull (TObject "StarRocksEdge")))) sel (marshalNStarRocksEdges ctx sel v).
Proof using GXL PO. typed_slice. Qed.
#[local] Hint Resolve typed_StarRocksEdges : typed.
Lemma typed_StarRocksConnection ctx sel v : answers (TNonNull (TObject "StarRocksConnection")) sel (marshalNStarRocksConnection ctx sel v).
Proof using GXL PO. typed_pointer. typed_object. Qed.
#[local] Hint Resolve typed_StarRocksConnection : typed.
Lemma typed_PrometheusMetricLabel ctx sel v : answers (TNonNull (TObject "PrometheusMetricLabel")) sel (marshalNPrometheusMetricLabel ctx sel v).
Proof using GXL PO. typed_pointer. typed_object. Qed.
#[local] Hint Resolve typed_PrometheusMetricLabel : typed.
Lemma typed_PrometheusMetricLabels ctx sel v : answers (TNonNull (TList (TNonNull (TObject "PrometheusMetricLabel")))) sel (marshalNPrometheusMetricLabels ctx sel v).
Proof using GXL PO. typed_slice. Qed.
Lemma typed_PrometheusDataPoint ctx sel v : answers (TNonNull (TObject "PrometheusDataPoint")) sel (marshalNPrometheusDataPoint ctx sel v).
Proof using GXL PO. typed_pointer. typed_object. Qed.
#[local] Hint Resolve typed_PrometheusMetricLabels typed_PrometheusDataPoint : typed.
Lemma typed_PrometheusDataPoints ctx sel v : answers (TNonNull (TList (TNonNull (TObject "PrometheusDataPoint")))) sel (marshalNPrometheusDataPoints ctx sel v).
Proof using GXL PO. typed_slice. Qed.
Lemma typed_optional_data_point ctx sel v : answers (TObject "PrometheusDataPoint") sel (marshalOPrometheusDataPoint ctx sel v).
Proof using GXL PO.
  destruct v as [v|]; [|by apply answers_ret, conforms_null]. eapply ensures_weaken; [exact (typed_PrometheusDataPoint ctx sel (Some v))|].
  intros m e [Hc|Hc]; [left; by inversion Hc|by right].
Qed.
#[local] Hint Resolve typed_PrometheusDataPoints typed_optional_data_point : typed.
Lemma typed_PrometheusVector ctx sel v : answers (TNonNull (TObject "PrometheusVector")) sel (marshalNPrometheusVector ctx sel v).
Proof using GXL PO. typed_pointer. typed_object. Qed.
#[local] Hint Resolve typed_PrometheusVector : typed.
Lemma typed_PrometheusVectors ctx sel v : answers (TNonNull (TList (TNonNull (TObject "PrometheusVector")))) sel (marshalNPrometheusVectors ctx sel v).
Proof using GXL PO. typed_slice. Qed.
Lemma typed_PrometheusMatrix ctx sel v : answers (TNonNull (TObject "PrometheusMatrix")) sel (marshalNPrometheusMatrix ctx sel v).
Proof using GXL PO. typed_pointer. typed_object. Qed.
#[local] Hint Resolve typed_PrometheusVectors typed_PrometheusMatrix : typed.
Lemma typed_PrometheusMatrixs ctx sel v : answers (TNonNull (TList (TNonNull (TObject "PrometheusMatrix")))) sel (marshalNPrometheusMatrixs ctx sel v).
Proof using GXL PO. typed_slice. Qed.
#[local] Hint Resolve typed_PrometheusMatrixs : typed.
Lemma typed_PrometheusInstantResult ctx sel v : answers (TNonNull (TObject "PrometheusInstantResult")) sel (marshalNPrometheusInstantResult ctx sel v).
Proof using GXL PO. typed_pointer. typed_object. Qed.
Lemma typed_PrometheusRangeResult ctx sel v : answers (TNonNull (TObject "PrometheusRangeResult")) sel (marshalNPrometheusRangeResult ctx sel v).
Proof using GXL PO. typed_pointer. typed_object. Qed.
Lemma typed_TemplateQueryConnection ctx sel v : answers (TNonNull (TObject "TemplateQueryConnection")) sel (marshalNTemplateQueryConnection ctx sel v).
Proof using GXL PO. typed_pointer. typed_object. Qed.
Lemma typed_TemplateParameterInfo ctx sel v : answers (TNonNull (TObject "TemplateParameterInfo")) sel (marshalNTemplateParameterInfo ctx sel v).
Proof using GXL PO. typed_pointer. typed_object. Qed.
#[local] Hint Resolve typed_TemplateParameterInfo : typed.
Lemma typed_TemplateParameterInfos ctx sel v : answers (TNonNull (TList (TNonNull (TObject "TemplateParameterInfo")))) sel (marshalNTemplateParameterInfos ctx sel v).
Proof using GXL PO. typed_slice. Qed.
#[local] Hint Resolve typed_TemplateParameterInfos : typed.
Lemma typed_TemplateInfo ctx sel v : answers (TNonNull (TObject "TemplateInfo")) sel (marshalNTemplateInfo ctx sel v).
Proof using GXL PO. typed_pointer. typed_object. Qed.
#[local] Hint Resolve typed_TemplateInfo : typed.
Lemma typed_TemplateInfos ctx sel v : answers (TNonNull (TList (TNonNull (TObject "TemplateInfo")))) sel (marshalNTemplateInfos ctx sel v).
Proof using GXL PO. typed_slice. Qed.
Variable Sprintf_text : format -> string.
Lemma typed_TemplateLoadFailure ctx sel v : answers (TNonNull (TObject "TemplateLoadFailure")) sel (marshalNTemplateLoadFailure Sprintf_text ctx sel v).
Proof using GXL PO. typed_pointer. typed_object. Qed.
#[local] Hint Resolve typed_TemplateLoadFailure : typed.
Lemma typed_TemplateLoadFailures ctx sel v : answers (TNonNull (TList (TNonNull (TObject "TemplateLoadFailure")))) sel (marshalNTemplateLoadFailures Sprintf_text ctx sel v).
Proof using GXL PO. typed_slice. Qed.
#[local] Hint Resolve typed_TemplateLoadFailures : typed.
Lemma typed_ReloadTemplatesResult ctx sel v : answers (TNonNull (TObject "ReloadTemplatesResult")) sel (marshalNReloadTemplatesResult Sprintf_text ctx sel v).
Proof using GXL PO. typed_pointer. typed_object. Qed.
#[local] Hint Resolve typed_PrometheusInstantResult typed_PrometheusRangeResult typed_TemplateQueryConnection typed_TemplateInfos typed_ReloadTemplatesResult : typed.

(** *** The roots *)

Context {GI : GqlgenInput} {FT : FloatText} {TM : TimeText}.
Lemma context_ensures {A} (args : Path -> list (string * GoVal) -> attempt A) field c :
  ensures R (field_context args field c) (fun r e => forall err, r = Err err -> e <> []).
Proof using PO.
  intros s. unfold field_context. destruct (args c (ArgumentMap field)); cbn; (split_and!; [reflexivity|try done; by apply prefix_app_r|]).
  - by intros ? [= <-].
  - intros ? [= <-] err _. by apply (logged c e s).
  - intros ? [= <-] err _. by apply (logged c Recovered s).
Qed.
Lemma context_total {A} (args : Path -> list (string * GoVal) -> attempt A) field c (s : St W) : (field_context args field c s).1 <> None.
Proof. unfold field_context. by destruct (args c (ArgumentMap field)). Qed.

(** A field with known arguments never panics. *)
Lemma field_total {A T} ctx field (init : Path -> X W (result A)) (resolve : A -> X W (result T)) marshal nonNull s :
  (forall c s, (init c s).1 <> None) -> (ResolveField ctx field init resolve marshal true nonNull s).1 <> None.
Proof using GXL.
  intros Hn. specialize (Hn (child_path ctx field) s). destruct (init (child_path ctx field) s) as [[[a|err]|] s1] eqn:Ei; [| |done].
  2: by rewrite (ResolveField_refused _ _ _ _ _ _ _ _ _ _ _ _ Ei).
  destruct (resolve a s1) as [[[v|err]|] s2] eqn:Er.
  - destruct (marshal (child_path ctx field) (fSelections field) v s2) as [[m|] s3] eqn:Em.
    + by rewrite (ResolveField_value _ _ _ _ _ _ _ _ _ _ _ _ _ _ _ _ Ei Er Em).
    + destruct (ResolveField_panicked _ _ _ ctx field init resolve marshal nonNull s a s1 s3 Ei) as [e' ->]; [right; eauto|done].
  - by destruct (ResolveField_failed _ _ _ ctx field init resolve marshal nonNull s a s1 err s2 Ei Er) as [e' ->].
  - destruct (ResolveField_panicked _ _ _ ctx field init resolve marshal nonNull s a s1 s2 Ei) as [e' ->]; [by left|done].
Qed.
Lemma field_values_total name (cases : CollectedField -> list (string * (X W Marshaler * bool))) fields :
  (forall field, Forall (fun kv => forall s, (kv.2.1 s).1 <> None) (cases field)) ->
  Forall (fun field => fName field = "__typename" \/ is_Some (assoc (fName field) (cases field))) fields ->
  forall s, (@field_values GX W name cases fields s).1 <> None.
Proof.
  intros Hc. induction 1 as [|field fields Hf _ IH]; intros s; [done|]. cbn [field_values].
  destruct (String.eqb_spec (fName field) "__typename") as [E|E].
  - unfold xbind. cbn. destruct (field_values name cases fields s) as [[r|] s1] eqn:Er; [done|]. specialize (IH s). by rewrite Er in IH.
  - destruct Hf as [|Hf]; [done|]. destruct (assoc (fName field) (cases field)) as [[run counted]|] eqn:Ha; [|by destruct Hf].
    pose proof (assoc_Forall _ _ _ _ (Hc field) Ha s) as Hr. cbn in Hr. unfold xbind.
    revert Hr. destruct (run s) as [[m|] s1]; [intros _|by intros []]. cbn.
    destruct (field_values name cases fields s1) as [[r|] s2] eqn:Er; [done|]. specialize (IH s1). by rewrite Er in IH.
Qed.
End Objects.

(** The value of a root field. *)
Ltac typed_value :=
  intros; first [apply typed_boolean|apply typed_MutationResult|apply typed_ReloadTemplatesResult|apply typed_StarRocksConnection
    |apply typed_PrometheusInstantResult|apply typed_PrometheusRangeResult|apply typed_TemplateQueryConnection|apply typed_TemplateInfos].

(** ** Theorems *)

Section Theorems.
Context {GX : Gqlgen} {GXL : GqlgenLaws GX} {JT : JsonText} {W : Type} {GI : GqlgenInput} {FT : FloatText} {TM : TimeText}.
Variable Sprintf_text : format -> string.
#[local] Set Default Proof Using "Type".
(** Resolvers may do anything to their world. *)
Definition any_change : relation W := fun _ _ => True.
#[local] Instance any_change_preorder : PreOrder any_change.
Proof. by split. Qed.
Notation answers := (answers (R := any_change)).

Lemma call_ensures {A} (r : W -> option (result A) * W) : ensures any_change (call r) (fun _ _ => True).
Proof. intros s. by split_and!. Qed.
Lemma answers_call {A T} t ctx field args (r : A -> W -> option (result T) * W) marshal :
  (forall c v, answers t (fSelections field) (marshal c (fSelections field) v)) ->
  answers t (fSelections field) (ResolveField ctx field (field_context args field) (fun a => call (r a)) marshal true true).
Proof using GXL.
  intros H. apply answers_field; [intros; apply context_ensures|apply context_total|intros; apply call_ensures|done].
Qed.

(** The fields the schema has for a root, and the meta fields. *)
Definition valid_root (name : string) (sel : Selections) : Prop :=
  Forall (fun field => fName field = "__typename" \/ is_Some (assoc (fName field) (type_fields name))) (CollectFields sel [name]).

Lemma mutation_cases_typed (M : MutationResolver W) ctx :
  cases_typed (R := any_change) "Mutation" (mutation_cases Sprintf_text M ctx).
Proof using GXL.
  intros field. unfold mutation_cases. repeat (apply Forall_cons; split); try solve [constructor]; cbv beta iota;
    lazymatch goal with |- match ?x with _ => _ end => let y := eval vm_compute in x in change x with y end;
    cbv beta iota; (split; [reflexivity|]); rewrite RootResolverMiddleware_none; apply answers_call; typed_value.
Qed.

Lemma object_answers name sel cases s :
  cases_typed (R := any_change) name cases ->
  (forall field, Forall (fun kv => forall s, (kv.2.1 s).1 <> None) (cases field)) ->
  Forall (fun field => fName field = "__typename" \/ is_Some (assoc (fName field) (cases field))) (CollectFields sel [name]) ->
  exists m s', object_of (W := W) name sel cases s = (Some m, s')
    /\ (conforms (TNonNull (TObject name)) sel m \/ (m = MNull /\ errs s' <> [])).
Proof using GXL.
  intros Ht Hc Hv. destruct (answers_object name sel cases Ht s) as (_ & _ & H).
  destruct (object_of name sel cases s) as [[m|] s'] eqn:E; [by exists m, s'; split; [|apply H]|]. exfalso.
  pose proof (field_values_total name cases _ Hc Hv s) as Hn. revert E. unfold object_of, xbind.
  by destruct (field_values name cases (CollectFields sel [name]) s) as [[out|] s1].
Qed.

(** mutation answers.  For a document whose root fields are those of the schema, whatever the
    resolvers do, fail with or panic with, there is an answer; it has the type of the schema, with null
    in no place that does not allow it, or it is null as a whole and the response has an error. *)
Theorem mutation_answer_typed (M : MutationResolver W) ctx sel s :
  valid_root "Mutation" sel ->
  exists m s', _Mutation Sprintf_text M ctx sel s = (Some m, s')
    /\ (conforms (TNonNull (TObject "Mutation")) sel m \/ (m = MNull /\ errs s' <> [])).
Proof using GXL.
  intros Hv. apply object_answers; [apply mutation_cases_typed| |].
  - intros field. unfold mutation_cases. repeat (apply Forall_cons; split); try solve [constructor]; cbn [fst snd]; intros s';
      rewrite RootResolverMiddleware_none; apply field_total, context_total.
  - eapply Forall_impl; [exact Hv|]. intros field [H|H]; [by left|right]. by apply assoc_is_Some in H; apply assoc_is_Some.
Qed.

(** *** Queries *)

Section Query.
Variables (Q : QueryResolver W) (zero_time : Time) (introspect : Path -> CollectedField -> X W Marshaler).
(** The introspection answers the types the schema gives its two fields. *)
Hypothesis introspect_answers : forall ctx field t, fName field ∈ ["__type"; "__schema"] ->
  assoc (fName field) (type_fields "Query") = Some t -> answers t (fSelections field) (introspect ctx field).
Hypothesis introspect_total : forall ctx field s, (introspect ctx field s).1 <> None.
Notation slots_of := (query_slots Q zero_time introspect).

Definition query_field (field : CollectedField) : Prop :=
  fName field = "__typename" \/ is_Some (assoc (fName field) (type_fields "Query")).
Definition delayed_ok (field : CollectedField) (m : Marshaler) (e : list FieldError) : Prop :=
  (m <> MNull /\ field_conforms "Query" field m) \/ (m = MNull /\ e <> []).
Definition slot_ok (field : CollectedField) (slot : Marshaler + X W Marshaler) : Prop :=
  match slot with
  | inl m => field_conforms "Query" field m
  | inr c => ensures any_change c (delayed_ok field) /\ forall s, (c s).1 <> None
  end.
Lemma delayed_field {A T} t ctx field args (r : A -> W -> option (result T) * W) marshal :
  assoc (fName field) (type_fields "Query") = Some (TNonNull t) ->
  (forall c v, answers (TNonNull t) (fSelections field) (marshal c (fSelections field) v)) ->
  slot_ok field (inr (RootResolverMiddleware
    (ResolveField ctx field (field_context args field) (fun a => call (r a)) marshal true true))).
Proof using GXL.
  intros Et Hm. rewrite RootResolverMiddleware_none. split; [|intros s; apply field_total, context_total].
  eapply ensures_weaken; [by eapply answers_call|]. intros m e [H|H]; [left|by right].
  split; [by inversion H|]. right. by exists (TNonNull t).
Qed.
Lemma query_slots_ok ctx fields :
  Forall query_field fields -> forall s, exists slots s', slots_of ctx fields s = (Some slots, s')
    /\ errs s `prefix_of` errs s' /\ Forall2 slot_ok fields slots.
Proof using GXL introspect_answers introspect_total.
  induction 1 as [|field fields Hf _ IH]; intros s; [by exists [], s|]. cbn [query_slots]. unfold xbind at 1.
  assert (Hdone : forall slot s1, errs s `prefix_of` errs s1 -> slot_ok field slot -> exists slots s',
    (slots <== slots_of ctx fields ; xret (slot :: slots)) s1 = (Some slots, s') /\ errs s `prefix_of` errs s'
    /\ Forall2 slot_ok (field :: fields) slots).
  { intros slot s1 Hp Hs. destruct (IH s1) as (slots & s' & E & Hp' & Hall). exists (slot :: slots), s'. unfold xbind. rewrite E.
    split_and!; [done|by etrans|by constructor]. }
  destruct (String.eqb_spec (fName field) "__typename") as [E|E]; [apply Hdone; [done|by left]|].
  match goal with |- context [assoc (fName field) ?l] => destruct (assoc (fName field) l) as [run|] eqn:Ea end.
  - apply Hdone; [done|]. apply assoc_elem in Ea. repeat rewrite elem_of_cons in Ea.
    destruct_or? Ea; [..|by apply elem_of_nil in Ea]; injection Ea as Ek ->; (eapply delayed_field; [by rewrite Ek|typed_value]).
  - destruct Hf as [|Hf]; [done|]. assert (Hmeta : fName field ∈ ["__type"; "__schema"]).
    { apply assoc_is_Some in Hf. apply assoc_None in Ea. cbn in Ea. change ((type_fields "Query").*1) with
        (["starrocks"; "prometheusInstant"; "prometheusRange"; "templateQuery"; "templateList"] ++ ["__type"; "__schema"]) in Hf.
      by apply elem_of_app in Hf as [Hf|Hf]. }
    destruct Hf as [t Et]. pose proof (introspect_answers ctx field t Hmeta Et s) as (_ & Hp & Ha).
    assert (Hn : non_null t = false).
    { rewrite !elem_of_cons in Hmeta. destruct Hmeta as [Hk|[Hk|Hk]]; [..|by apply elem_of_nil in Hk]; rewrite Hk in Et; by injection Et as <-. }
    replace (String.eqb (fName field) "__type" || String.eqb (fName field) "__schema") with true.
    2: { rewrite !elem_of_cons in Hmeta. by destruct Hmeta as [->|[->|Hk]]; [..|apply elem_of_nil in Hk]. }
    rewrite RootResolverMiddleware_none. unfold xbind at 1.
    pose proof (introspect_total ctx field s) as Ht. destruct (introspect ctx field s) as [[m|] s1]; [|by destruct Ht].
    apply Hdone; [done|]. right. exists t. split; [exact Et|]. eapply answers_optional; [done|by apply Ha].
Qed.

(** What a slot has when all has run. *)
Definition value_ok (field : CollectedField) (slot : Marshaler + X W Marshaler) (m : Marshaler) (e : list FieldError) : Prop :=
  match slot with inl _ => field_conforms "Query" field m | inr _ => delayed_ok field m e end.
Lemma answers_values sel slots values e :
  let fields := CollectFields sel ["Query"] in length fields = length slots -> length values = length slots ->
  (forall i m field slot, values !! i = Some m -> fields !! i = Some field -> slots !! i = Some slot -> value_ok field slot m e) ->
  answers_to (TNonNull (TObject "Query")) sel (if invalids slots values then MNull else MObject (zip (map fAlias fields) values)) e.
Proof.
  intros fields Hl1 Hl2 Hv. destruct (invalids slots values) eqn:E.
  - right. split; [done|]. apply existsb_exists in E as ([slot m] & Hin & Hn). apply list_elem_of_In, list_elem_of_lookup in Hin as [i Hi].
    apply lookup_zip_Some in Hi as [His Him]. destruct slot as [m'|c]; [done|]. cbn in Hn. destruct m; try done.
    assert (i < length fields)%nat as [field Hf]%lookup_lt_is_Some by (rewrite Hl1; by eapply lookup_lt_Some).
    destruct (Hv i MNull field (inr c) Him Hf His) as [[? _]|[_ ?]]; done.
  - left. constructor; [done|]. constructor. fold fields. apply Forall2_same_length_lookup. split; [lia|].
    intros i field m Hf Hm. assert (i < length slots)%nat as [slot Hs]%lookup_lt_is_Some by (rewrite <- Hl1; by eapply lookup_lt_Some).
    specialize (Hv i m field slot Hm Hf Hs). destruct slot as [m'|c]; [exact Hv|]. destruct Hv as [[_ H]|[-> _]]; [exact H|].
    exfalso. enough (invalids slots values = true) by congruence. apply existsb_exists. exists (inr c, MNull). split; [|done].
    apply list_elem_of_In, list_elem_of_lookup. exists i. by apply lookup_zip_Some.
Qed.

(** The same of a query document, for any introspection that answers its types. *)
Lemma query_answers ctx sel s :
  Forall query_field (CollectFields sel ["Query"]) ->
  exists m s', _Query Q zero_time introspect ctx sel s = (Some m, s')
    /\ (conforms (TNonNull (TObject "Query")) sel m \/ (m = MNull /\ errs s' <> [])).
Proof using GXL introspect_answers introspect_total.
  intros Hv. destruct (query_slots_ok ctx _ Hv s) as (slots & s1 & E & _ & Hs). set (fields := CollectFields sel ["Query"]) in *.
  destruct (Dispatch_each W any_change _ slots
    (fun i m e => forall field slot, fields !! i = Some field -> slots !! i = Some slot -> value_ok field slot m e) s1) as (_ & _ & Ht & Hm).
  - intros i m e e' Hd Hp field slot Hf Hsl. specialize (Hd field slot Hf Hsl). destruct slot as [m'|c]; [exact Hd|].
    destruct Hd as [H|[-> H]]; [by left|right; split; [done|by eapply prefix_some]].
  - intros i m Hi field slot Hf Hsl. rewrite Hi in Hsl. injection Hsl as <-. exact (Forall2_lookup_lr _ _ _ _ _ _ Hs Hf Hi).
  - intros i c Hi. destruct (Forall2_lookup_r _ _ _ _ _ Hs Hi) as (field & Hf & Hc & _).
    eapply ensures_weaken; [exact Hc|]. intros m e H field' slot Hf' Hsl. by simplify_eq.
  - destruct (Dispatch slots s1) as [[ms|] s2] eqn:Ed.
    2: { exfalso. apply Ht; [|done]. intros i c s' Hi. destruct (Forall2_lookup_r _ _ _ _ _ Hs Hi) as (field & _ & _ & Hc). apply Hc. }
    destruct (Hm ms eq_refl) as [Hl Hi]. clear Hm Ht. cbn [fst snd] in Hi. unfold _Query, xbind. fold fields. rewrite E, Ed. cbn [fst snd].
    eexists _, _. split; [reflexivity|]. apply answers_values; [by eapply Forall2_length|done|]. intros i m field slot Hv' Hf Hsl. by eapply Hi.
Qed.
End Query.
End Theorems.

(** ** Concrete instances *)

(** A runtime that runs everything in order. *)
Section Runtime.
Inductive DemoField := DF (name alias : string) (args : list (string * GoVal)) (sel : list DemoField).
#[local] Instance PathElement_eq_dec : EqDecision PathElement.
Proof. solve_decision. Defined.
Fixpoint in_order {W} (cs : list (X W Marshaler)) : X W (list Marshaler) :=
  match cs with [] => xret [] | c :: cs' => m <== c ; ms <== in_order cs' ; xret (m :: ms) end.
Definition recovered {W A} (ctx : Path) (m : X W A) (k : A -> X W Marshaler) : X W Marshaler := fun s =>
  match m s with
  | (Some a, s1) => k a s1
  | (None, s1) => (Some MNull, (add_error ctx (Errorf (Sprintf "internal system error" [])) s1).2)
  end.
Definition demo_gqlgen : Gqlgen := {|
  Selections := list DemoField; CollectedField := DemoField;
  fName '(DF n _ _ _) := n; fAlias '(DF _ a _ _) := a; fSelections '(DF _ _ _ sel) := sel; ArgumentMap '(DF _ _ args _) := args;
  CollectFields sel _ := sel;
  HasFieldError ctx es := existsb (fun pe => bool_decide (pe.1 = ctx)) es;
  MarshalFloatContext f :=
    if not_finite f then Err (Errorf (Sprintf "cannot marshal infinite no NaN float values" [])) else Ok "1.5";
  Recovered := Errorf (Sprintf "internal system error" []);
  ResolveField W A T ctx '(DF _ alias _ sel) init resolve marshal recover nonNull :=
    let c := ctx ++ [PathField alias] in fun s =>
    match init c s with
    | (Some (Ok a), s1) => recovered c (resolve a) (fun res =>
        match res with
        | Ok v => recovered c (marshal c sel v) xret
        | Err e => fun s2 => (Some MNull, (add_error c e s2).2)
        end) s1
    | (Some (Err _), s1) => (Some MNull, s1)
    | (None, s1) => (None, s1)
    end;
  RootResolverMiddleware W m := m;
  MarshalSliceConcurrently W ctx n f := in_order (map (fun i => f (ctx ++ [PathIndex (Z.of_nat i)]) i) (seq 0 n));
  Dispatch W slots := in_order (map (fun slot => match slot with inl m => xret m | inr c => c end) slots) |}.

Lemma in_order_each {W} (R : relation W) (PO : PreOrder R) (cs : list (X W Marshaler)) (Q : nat -> Marshaler -> list FieldError -> Prop) s :
  (forall i, stable (Q i)) ->
  (forall i c, cs !! i = Some c -> forall s1, errs s `prefix_of` errs s1 ->
     R (world s1) (world (c s1).2) /\ errs s1 `prefix_of` errs (c s1).2 /\ forall m, (c s1).1 = Some m -> Q i m (errs (c s1).2)) ->
  let r := in_order cs s in
  R (world s) (world r.2) /\ errs s `prefix_of` errs r.2
  /\ forall ms, r.1 = Some ms -> length ms = length cs /\ forall i m, ms !! i = Some m -> Q i m (errs r.2).
Proof.
  revert Q s. induction cs as [|c cs IH]; intros Q s Hs Hc; [cbn; split_and!; [reflexivity|done|by intros ? [= <-]]|].
  destruct (Hc 0%nat c eq_refl s) as (H1 & H2 & H3); [done|]. cbn [in_order]. unfold xbind.
  destruct (c s) as [[m|] s1]; cbn in H1, H2, H3 |- *; [|by split_and!].
  destruct (IH (fun i => Q (S i)) s1) as (I1 & I2 & I3).
  { intros i. apply Hs. }
  { intros i c' Hi s2 Hp. apply (Hc (S i) c' Hi s2). by etrans. }
  destruct (in_order cs s1) as [[ms|] s2]; cbn in *; [|split_and!; [by etrans|by etrans|done]].
  split_and!; [by etrans|by etrans|]. intros ? [= <-]. destruct (I3 ms eq_refl) as [Hl Hm]. split; [cbn; by rewrite Hl|].
  intros [|i] m' Hi; [injection Hi as <-; eapply Hs; [by apply H3|done]|by apply Hm].
Qed.
Lemma in_order_total {W} (cs : list (X W Marshaler)) s :
  (forall i c s', cs !! i = Some c -> (c s').1 <> None) -> (in_order cs s).1 <> None.
Proof.
  revert s. induction cs as [|c cs IH]; intros s H; [done|]. cbn [in_order]. unfold xbind.
  pose proof (H 0%nat c s eq_refl) as H0. destruct (c s) as [[m|] s1]; [clear H0|by destruct H0].
  pose proof (IH s1 (fun i c' s' Hi => H (S i) c' s' Hi)) as H1. destruct (in_order cs s1) as [[ms|] s2]; [done|by destruct H1].
Qed.
Lemma demo_gqlgen_laws : GqlgenLaws demo_gqlgen.
Proof.
  split; try done.
  - intros ctx es. by destruct es.
  - intros f. cbn. destruct (not_finite f); split; try done; [by intros [? ?]|eauto].
  - intros W A T ctx [n a args sel] init resolve marshal nonNull s e s1 H. unfold child_path in H. cbn in *. by rewrite H.
  - intros W A T ctx [n al args sel] init resolve marshal nonNull s a s1 e s2 H1 H2. unfold child_path in *. cbn in *.
    exists e. rewrite H1. unfold recovered. by rewrite H2.
  - intros W A T ctx [n al args sel] init resolve marshal nonNull s a s1 v s2 m s3 H1 H2 H3. unfold child_path in *. cbn in *.
    rewrite H1. unfold recovered. by rewrite H2, H3.
  - intros W A T ctx [n al args sel] init resolve marshal nonNull s a s1 s2 H1 H2. unfold child_path in *. cbn in *.
    eexists. rewrite H1. unfold recovered. destruct H2 as [-> |(v & s' & -> & ->)]; reflexivity.
  - intros W R HR ctx n f Q Hs Hf s. cbn. destruct (in_order_each R HR
      (map (fun i => f (ctx ++ [PathIndex (Z.of_nat i)]) i) (seq 0 n)) Q s Hs) as (H1 & H2 & H3).
    { intros i c Hi s1 _. apply list_lookup_fmap_Some in Hi as (j & -> & Hj). apply lookup_seq in Hj as [-> Hj]. apply Hf. lia. }
    split_and!; [done..|]. intros ms Hms. destruct (H3 ms Hms) as [Hl Hm]. by rewrite length_map, length_seq in Hl.
  - intros W R HR slots Q s Hs Hl Hc. cbn. destruct (in_order_each R HR
      (map (fun slot => match slot with inl m => xret m | inr c => c end) slots) Q s Hs) as (H1 & H2 & H3).
    { intros i c Hi s1 Hp. apply list_lookup_fmap_Some in Hi as ([m|c'] & -> & Hi); [|by eapply Hc].
      cbn. split_and!; [reflexivity|done|]. intros ? [= <-]. eapply Hs; [by eapply Hl|done]. }
    split_and!; [done..| |].
    + intros Ht. apply in_order_total. intros i c s' Hi. apply list_lookup_fmap_Some in Hi as ([m|c'] & -> & Hi); [done|by eapply Ht].
    + intros ms Hms. destruct (H3 ms Hms) as [Hlen Hm]. by rewrite length_map in Hlen.
Qed.
End Runtime.

Section Witnesses.
#[local] Existing Instance demo_gqlgen.
#[local] Existing Instance demo_gqlgen_laws.
#[local] Existing Instance demo_gqlgen_input.
#[local] Existing Instance demo_float_text.
#[local] Existing Instance demo_time.
#[local] Instance demo_json : JsonText := {| json_float _ := "0"; json_other _ := Err ErrEOF |}.

(** Every call is counted; updates fail and deletes panic. *)
Definition demo_result : MutationResult := {| resSuccess := true; AffectedRows := 1; Warning := None |}.
Definition demo_mutations : MutationResolver Z := {|
  ClearCache _ n := (Some (Ok true), n + 1);
  InsertStarrocks _ _ n := (Some (Ok (Some demo_result)), n + 1);
  UpdateStarrocks _ _ _ n := (Some (Err ErrEOF), n + 1);
  DeleteStarrocks _ _ n := (None, n + 1);
  InsertBatchStarrocks _ _ _ n := (Some (Ok None), n + 1);
  ReloadTemplates n := (Some (Ok None), n + 1) |}.
Definition demo_insert : DemoField :=
  DF "insertStarrocks" "a" [("table", VString "t"); ("values", VSlice [])] [DF "success" "ok" [] []; DF "warning" "warning" [] []].
Example demo_insert_answer : (_Mutation (fun _ => EmptyString) demo_mutations [] [demo_insert] {| world := 0; errs := [] |}).1
  = Some (MObject [("a", MObject [("ok", MBoolean true); ("warning", MNull)])]).
Proof. vm_compute. reflexivity. Qed.
Definition demo_delete : DemoField := DF "deleteStarrocks" "d" [("table", VString "t"); ("filter", VSlice [])] [DF "success" "success" [] []].
Lemma mutation_answer_typed_witness : exists m s',
  _Mutation (fun _ => EmptyString) demo_mutations [] [demo_delete; demo_insert] {| world := 0; errs := [] |} = (Some m, s')
  /\ (conforms (TNonNull (TObject "Mutation")) [demo_delete; demo_insert] m \/ (m = MNull /\ errs s' <> [])).
Proof.
  apply mutation_answer_typed. repeat (apply Forall_cons; split; [right; eexists; reflexivity|]). constructor.
Defined.

Definition demo_queries : QueryResolver Z := {|
  Starrocks _ n := (Some (Ok (Some {| Edges := []; Nodes := [[("id", VInt 7)]];
    conPageInfo := {| HasNextPage := false; HasPreviousPage := false; StartCursor := None; EndCursor := None |}; conTotalCount := 1 |})), n + 1);
  PrometheusInstant _ _ _ n := (Some (Err ErrEOF), n); PrometheusRange _ n := (None, n);
  TemplateQuery _ n := (Some (Ok None), n); TemplateList _ _ n := (Some (Ok []), n) |}.
Definition demo_query : DemoField := DF "starrocks" "s" [("table", VString "t")] [DF "nodes" "rows" [] [DF "data" "data" [] []]].
Example demo_query_answer : (_Query demo_queries 0 (fun _ _ => xret MNull) [] [demo_query] {| world := 0; errs := [] |}).1
  = Some (MObject [("s", MObject [("rows", MArray [MObject [("data", MJson [("id", VInt 7)])]])])]).
Proof. vm_compute. reflexivity. Qed.
End Witnesses.
