(* ===== verification/GraphqlMutations.v ===== *)
(** * From a mutation document to the data source

    The executor of [GraphqlOutput] over the resolvers of [Mutation]: the mutations of a document
    are executed one after the other, and what they send is what the gate of [Mutation] lets
    through for the arguments of [GraphqlInput]. *)
From S2P Require Import Prelude GoStrings Values GoConv FuncMap Json JsonRaw Scalar Auth.
From S2P Require Import Resolver PrometheusResolver TemplateResolver GraphqlInput GraphqlOutput GraphqlTyped MutationSql SqlAdapter.
From S2P Require Mutation TemplateEngine TemplateLoader.

(** ** The order of the mutations *)

Section Order.
Context {GX : Gqlgen} {GXL : GqlgenLaws GX} {JT : JsonText} {W : Type} {GI : GqlgenInput} {FT : FloatText} {TM : TimeText}.
Variable Sprintf_text : format -> string.
#[local] Set Default Proof Using "Type".

(** A resolver on the arguments of its field; refused arguments change nothing. *)
Definition effect {A B} (args : Path -> list (string * GoVal) -> attempt A) (r : A -> W -> B * W) (ctx : Path)
    (field : CollectedField) (w : W) : W :=
  match args (child_path ctx field) (ArgumentMap field) with Done a => (r a w).2 | _ => w end.
Definition mutation_effects (M : MutationResolver W) (ctx : Path) (field : CollectedField) : list (string * (W -> W)) :=
  [("clearCache", effect field_Mutation_clearCache_args (ClearCache M) ctx field);
   ("insertStarrocks", effect field_Mutation_insertStarrocks_args (fun a => InsertStarrocks M a.1 a.2) ctx field);
   ("updateStarrocks", effect field_Mutation_updateStarrocks_args (fun a => UpdateStarrocks M a.1.1 a.1.2 a.2) ctx field);
   ("deleteStarrocks", effect field_Mutation_deleteStarrocks_args (fun a => DeleteStarrocks M a.1 a.2) ctx field);
   ("insertBatchStarrocks", effect field_Mutation_insertBatchStarrocks_args (fun a => InsertBatchStarrocks M a.1.1 a.1.2 a.2) ctx field);
   ("reloadTemplates", effect (fun _ _ => Done tt) (fun _ => ReloadTemplates M) ctx field)].
Definition mutation_effect (M : MutationResolver W) (ctx : Path) (w : W) (field : CollectedField) : W :=
  match assoc (fName field) (mutation_effects M ctx field) with Some f => f w | None => w end.

Notation keeps := (ensures (W := W) eq).
Lemma field_world {A T} ctx field args (r : A -> W -> option (result T) * W) marshal nonNull s :
  (forall c v, keeps (marshal c (fSelections field) v) (fun _ _ => True)) ->
  world (ResolveField ctx field (field_context args field) (fun a => call (r a)) marshal true nonNull s).2
    = effect args r ctx field (world s).
Proof using GXL.
  intros Hm. unfold effect. set (c := child_path ctx field).
  destruct (args c (ArgumentMap field)) as [a|e|] eqn:Ea.
  2-3: erewrite ResolveField_refused by (unfold field_context; fold c; rewrite Ea; reflexivity); reflexivity.
  assert (Ei : field_context args field c s = (Some (Ok a), s)) by (unfold field_context; by rewrite Ea).
  destruct (r a (world s)) as [res w'] eqn:Er. set (s2 := {| world := w'; errs := errs s |}).
  assert (Ec : call (r a) s = (res, s2)) by (unfold call; by rewrite Er).
  destruct res as [[v|e]|].
  - specialize (Hm c v s2) as (Hw & _). destruct (marshal c (fSelections field) v s2) as [[m|] s3] eqn:Em; cbn in Hw.
    + by rewrite (ResolveField_value _ _ _ _ _ _ (fun a => call (r a)) _ _ _ _ _ _ _ _ _ Ei Ec Em).
    + destruct (ResolveField_panicked _ _ _ ctx field (field_context args field) (fun a => call (r a)) marshal nonNull s a s s3 Ei)
        as [e' ->]; [right; by exists v, s2|]. exact (eq_sym Hw).
  - by destruct (ResolveField_failed _ _ _ ctx field (field_context args field) (fun a => call (r a)) marshal nonNull s a s e s2 Ei Ec) as [e' ->].
  - by destruct (ResolveField_panicked _ _ _ ctx field (field_context args field) (fun a => call (r a)) marshal nonNull s a s s2 Ei) as [e' ->]; [left|].
Qed.
Lemma field_values_world (cases : CollectedField -> list (string * (X W Marshaler * bool))) (effects : CollectedField -> list (string * (W -> W)))
    name fields s v s' :
  (forall field, Forall2 (fun c e => c.1 = e.1 /\ forall s, world (c.2.1 s).2 = e.2 (world s)) (cases field) (effects field)) ->
  (forall field, assoc "__typename" (effects field) = None) ->
  field_values name cases fields s = (Some v, s') ->
  world s' = foldl (fun w field => match assoc (fName field) (effects field) with Some f => f w | None => w end) (world s) fields.
Proof.
  intros Hc Ht. revert s v s'. induction fields as [|field fields IH]; intros s v s' H; [by injection H as _ <-|].
  cbn [field_values] in H. unfold xbind at 1 in H.
  match type of H with (let (_, _) := ?m s in _) = _ => destruct (m s) as [[x|] s1] eqn:E; [|done] end.
  unfold xbind in H. destruct (field_values name cases fields s1) as [[r|] s2] eqn:Er; [|done]. injection H as _ <-.
  rewrite (IH _ _ _ Er). cbn [foldl]. f_equal. clear IH Er.
  destruct (String.eqb_spec (fName field) "__typename") as [En|_]; [injection E as _ <-; by rewrite En, Ht|].
  specialize (Hc field). revert E. clear Ht. induction Hc as [|[k [run n]] [k' f] l l' [Hk Hw] _ IH]; [done|]. cbn in Hk, Hw |- *. subst k'.
  case_decide; [|exact IH]. intros E. rewrite <- Hw. unfold xbind in E. destruct (run s) as [[m|] s3]; [|done]. by injection E as _ <-.
Qed.

Lemma mutation_values_order (M : MutationResolver W) ctx fields s v s' :
  field_values "Mutation" (mutation_cases Sprintf_text M ctx) fields s = (Some v, s') ->
  world s' = foldl (mutation_effect M ctx) (world s) fields.
Proof using GXL.
  apply (field_values_world _ (mutation_effects M ctx)); [|done].
  intros field. repeat constructor; cbn [fst snd]; intros s2; rewrite RootResolverMiddleware_none; apply field_world; intros c w;
    eapply ensures_weaken; [apply typed_boolean|done|apply typed_MutationResult|done|apply typed_MutationResult|done
      |apply typed_MutationResult|done|apply typed_MutationResult|done|apply typed_ReloadTemplatesResult|done].
Qed.
Lemma document_order (M : MutationResolver W) ctx sel s m s' :
  _Mutation Sprintf_text M ctx sel s = (Some m, s') ->
  world s' = foldl (mutation_effect M ctx) (world s) (CollectFields sel ["Mutation"]).
Proof using GXL.
  unfold _Mutation, object_of, xbind. destruct (field_values _ _ _ s) as [[out|] s1] eqn:E; [|done]. intros [= _ <-].
  exact (mutation_values_order _ _ _ _ _ _ E).
Qed.

(** the mutations of a document.  However often the transport asks for a response, there is
    one, and for it the mutations are executed one after the other in the order of the
    document, each exactly once and each on the world the previous one left, also when an
    earlier one failed or panicked and the answer is null as a whole; a mutation whose
    arguments are refused changes nothing. *)
Theorem mutations_in_order (M : MutationResolver W) Q zero_time introspect sel n s ms s' :
  Exec Sprintf_text M Q zero_time introspect OpMutation sel (S (S n)) true s = (Some ms, s') ->
  length ms = 1%nat /\ world s' = foldl (mutation_effect M []) (world s) (CollectFields sel ["Mutation"]).
Proof using GXL.
  cbn [Exec handler]. unfold xbind. destruct (_Mutation Sprintf_text M [] sel s) as [[m|] s1] eqn:E; [|done].
  cbn. intros [= <- <-]. split; [done|]. exact (document_order _ _ _ _ _ _ E).
Qed.
End Order.

(** ** The resolvers of the server *)

Section Server.
Context {GX : Gqlgen} {GXL : GqlgenLaws GX} {JT : JsonText} {GI : GqlgenInput} {FT : FloatText} {TM : TimeText}.
Variable Sprintf_text : format -> string.
(** The state of the template engine and what [reloadTemplates] does to it. *)
Context {T : Type}.
Variable reload : T -> option (result (option ReloadTemplatesResult)) * T.
(** The resolver as the environment is after the effects so far, and the caller. *)
Variables (r : list Mutation.Event -> Mutation.Resolver) (identity : option AuthIdentity).
#[local] Set Default Proof Using "Type".

(** One data mutation, with its effects appended to those so far; a panic is no answer. *)
Definition resolved {A} (res : result A) : option (result (option A)) :=
  match res with Err (Panic _) => None | _ => Some (Some <$> res) end.
Definition data_mutation (c : Mutation.Call) (w : list Mutation.Event * T) : option (result (option Mutation.MutationResult)) * (list Mutation.Event * T) :=
  let x := Mutation.run (r w.1) identity c in (resolved x.1, (w.1 ++ x.2, w.2)).
Definition server_mutations : MutationResolver (list Mutation.Event * T) := {|
  ClearCache ds w := let x := Mutation.ClearCache (r w.1) ds in (Some x.1, (w.1 ++ x.2, w.2));
  InsertStarrocks t values := data_mutation (Mutation.CInsert t values);
  UpdateStarrocks t set filter := data_mutation (Mutation.CUpdate t set (map Some filter));
  DeleteStarrocks t filter := data_mutation (Mutation.CDelete t (map Some filter));
  InsertBatchStarrocks t columns rows := data_mutation (Mutation.CBatch t columns rows);
  ReloadTemplates w := let x := reload w.2 in (x.1, (w.1, x.2)) |}.

(** The call a field stands for, if its arguments are accepted. *)
Definition accepted {A} (a : attempt A) (f : A -> Mutation.Call) : option Mutation.Call :=
  match a with Done x => Some (f x) | _ => None end.
Definition field_call (ctx : Path) (field : CollectedField) : option Mutation.Call :=
  let raw := ArgumentMap field in let c := child_path ctx field in
  mjoin (assoc (fName field)
    [("insertStarrocks", accepted (field_Mutation_insertStarrocks_args c raw) (fun a => Mutation.CInsert a.1 a.2));
     ("updateStarrocks", accepted (field_Mutation_updateStarrocks_args c raw) (fun a => Mutation.CUpdate a.1.1 a.1.2 (map Some a.2)));
     ("deleteStarrocks", accepted (field_Mutation_deleteStarrocks_args c raw) (fun a => Mutation.CDelete a.1 (map Some a.2)));
     ("insertBatchStarrocks", accepted (field_Mutation_insertBatchStarrocks_args c raw) (fun a => Mutation.CBatch a.1.1 a.1.2 a.2))]).

(** What one field sends. *)
Definition field_writes (ctx : Path) (w : list Mutation.Event * T) (field : CollectedField) : list stmt :=
  match field_call ctx field with
  | Some c => Mutation.writes (Mutation.run (r w.1) identity c).2
  | None => []
  end.
Lemma clear_writes rs ds : Mutation.writes (Mutation.ClearCache rs ds).2 = [].
Proof.
  unfold Mutation.ClearCache. destruct (Mutation.CacheClearer rs) as [[by_ all]|]; [|done]. destruct ds as [d|]; [by destruct (by_ d)|by destruct all].
Qed.
Lemma data_effect {A} args (f : A -> Mutation.Call) ctx field w :
  Mutation.writes (effect args (fun a => data_mutation (f a)) ctx field w).1
    = Mutation.writes w.1 ++ match accepted (args (child_path ctx field) (ArgumentMap field)) f with
                             | Some c => Mutation.writes (Mutation.run (r w.1) identity c).2
                             | None => []
                             end.
Proof. unfold effect. destruct (args _ _); cbn; [apply Mutation.writes_app|by rewrite app_nil_r..]. Qed.
Lemma effect_writes ctx w field :
  Mutation.writes (mutation_effect server_mutations ctx w field).1 = Mutation.writes w.1 ++ field_writes ctx w field.
Proof.
  unfold mutation_effect, mutation_effects, field_writes, field_call. cbn [assoc].
  case_decide as E; [rewrite <- E; cbn|].
  { rewrite app_nil_r. unfold effect. destruct (field_Mutation_clearCache_args _ _); [|done..]. cbn.
    by rewrite Mutation.writes_app, clear_writes, app_nil_r. }
  do 4 (case_decide; [apply data_effect|]). case_decide; cbn; by rewrite app_nil_r.
Qed.
(** The writes of a whole document, field after field. *)
Fixpoint document_writes (ctx : Path) (w : list Mutation.Event * T) (fields : list CollectedField) : list stmt :=
  match fields with
  | [] => []
  | field :: fields' => field_writes ctx w field ++ document_writes ctx (mutation_effect server_mutations ctx w field) fields'
  end.
Lemma effects_writes ctx fields w :
  Mutation.writes (foldl (mutation_effect server_mutations ctx) w fields).1 = Mutation.writes w.1 ++ document_writes ctx w fields.
Proof.
  revert w. induction fields as [|field fields IH]; intros w; cbn; [by rewrite app_nil_r|]. by rewrite IH, effect_writes, app_assoc.
Qed.
Lemma document_source ctx fields w q : q ∈ document_writes ctx w fields ->
  exists w' field, field ∈ fields /\ q ∈ field_writes ctx w' field.
Proof.
  revert w. induction fields as [|field fields IH]; intros w; cbn; [by intros ?%elem_of_nil|]. intros [H|H]%elem_of_app.
  - exists w, field. split; [by left|done].
  - destruct (IH _ H) as (w' & f & Hf & Hq). exists w', f. split; [by right|done].
Qed.

(** C2: what a document can send.  Every statement the execution of a mutation document sends was
    sent for one of its fields: the arguments of that field were accepted, the statement is
    the one they stand for, and at that moment mutations were enabled, the limiter let the caller
    pass, the caller may mutate the data source, and the whitelist permits the operation on the
    table with these columns. *)
Theorem document_gate ctx sel log t m s' q :
  _Mutation Sprintf_text server_mutations ctx sel {| world := (log, t); errs := [] |} = (Some m, s') ->
  q ∈ Mutation.writes (world s').1 ->
  q ∈ Mutation.writes log
  \/ exists field c rs, field ∈ CollectFields sel ["Mutation"] /\ field_call ctx field = Some c /\ (exists log', rs = r log')
       /\ Mutation.MutEnabled (Mutation.MutationConfig rs) = true /\ Mutation.limited rs identity = false
       /\ Mutation.authorized identity (Mutation.DatasourceName (Mutation.MutationConfig rs))
       /\ Mutation.permitted (Mutation.rWritableTableValidator rs) c
       /\ exists stm, Mutation.call_stmt c = Some stm /\ q = (SQL stm, Params stm).
Proof using GXL.
  intros H Hq. rewrite (document_order _ _ _ _ _ _ _ H) in Hq. cbn in Hq. rewrite effects_writes in Hq.
  apply elem_of_app in Hq as [Hq|Hq]; [by left|right]. apply document_source in Hq as (w & field & Hf & Hq).
  unfold field_writes in Hq. destruct (field_call ctx field) as [c|] eqn:Ec; [|by apply elem_of_nil in Hq].
  destruct (Mutation.sent_gated _ _ _ _ Hq) as (_ & ? & ? & ? & ? & stm & ? & ? & _ & _).
  exists field, c, (r w.1). split_and!; try done; [by exists w.1|by exists stm].
Qed.
End Server.

(** ** Concrete instances *)

Section Witnesses.
#[local] Existing Instance demo_gqlgen.
#[local] Existing Instance demo_gqlgen_laws.
#[local] Existing Instance demo_gqlgen_input.
#[local] Existing Instance demo_float_text.
#[local] Existing Instance demo_time.
#[local] Existing Instance demo_json.

(** A mutation that panics, and one after it: the answer is null and both were executed. *)
Lemma mutations_in_order_witness : exists s',
  Exec (fun _ => EmptyString) demo_mutations demo_queries 0 (fun _ _ => xret MNull) OpMutation [demo_delete; demo_insert] 2 true
    {| world := 0; errs := [] |} = (Some [DNull], s') /\ world s' = 2.
Proof.
  eexists. split; [reflexivity|].
  exact (proj2 (mutations_in_order (fun _ => EmptyString) demo_mutations demo_queries 0 (fun _ _ => xret MNull)
    [demo_delete; demo_insert] 0 {| world := 0; errs := [] |} _ _ eq_refl)).
Defined.

Definition demo_document : list DemoField :=
  [DF "insertStarrocks" "a" [("table", VString "t"); ("values", VSlice [VMap [("column", VString "a"); ("value", VInt64 1)]])]
     [DF "affectedRows" "n" [] []];
   DF "deleteStarrocks" "b" [("table", VString "t"); ("filter", VInt64 3)] [DF "success" "success" [] []]].
Definition demo_server : MutationResolver (list Mutation.Event * unit) :=
  server_mutations (fun x => (None, x)) (fun _ => Mutation.demo_resolver) (Some Mutation.demo_caller).
Lemma document_gate_witness :
  let s' := (_Mutation (fun _ => EmptyString) demo_server [] demo_document {| world := ([], ()); errs := [] |}).2 in
  Mutation.writes (world s').1 = [("INSERT INTO `t` (`a`) VALUES (?)", [VInt64 1])]
  /\ exists field c, field ∈ demo_document /\ field_call [] field = Some c
       /\ Mutation.permitted (Mutation.rWritableTableValidator Mutation.demo_resolver) c.
Proof.
  cbv zeta. set (run := _Mutation _ _ _ _ _).
  assert (E : exists m s', run = (Some m, s') /\ Mutation.writes (world s').1 = [("INSERT INTO `t` (`a`) VALUES (?)", [VInt64 1])])
    by (eexists _, _; split; vm_compute; reflexivity).
  destruct E as (m & s' & E & Hw). rewrite E. split; [exact Hw|].
  destruct (document_gate (GX := demo_gqlgen) (GXL := demo_gqlgen_laws) (fun _ => EmptyString) (fun x => (None, x)) (fun _ => Mutation.demo_resolver) (Some Mutation.demo_caller)
    [] demo_document [] () m s' ("INSERT INTO `t` (`a`) VALUES (?)", [VInt64 1]) E) as [H|(field & c & rs & H1 & H2 & [? ->] & _ & _ & _ & H3 & _)];
    [rewrite Hw; left|by apply elem_of_nil in H|by exists field, c].
Defined.
End Witnesses.
