(* ===== verification/Config.v ===== *)
(** * internal/config: the configuration and its validation

    The records of config.go, their defaults, and the validations main.go runs before it
    starts anything, and what [LoadConfig] does to the decoded record; how the record comes
    about is in ConfigLoad.  CIDR syntax, PEM decoding,
    public key parsing, the environment and reading a file are the record [Env]; a list of
    errors is a list of messages. *)
From S2P Require Import Prelude GoStrings Values GoConv FuncMap.
From S2P Require Import DataSource TemplateParams TemplateLoader MemoryCache Middleware.
From S2P Require Net Auth.

(** ** config.go *)

Record ServerConfig := {
  Port : Z; ServerMode : string; MaxRequestBodySize : string; RequestTimeout : Z; ReadHeaderTimeout : Z;
  ReadTimeout : Z; WriteTimeout : Z; IdleTimeout : Z; MaxConcurrentRequests : Z; MaxBatchQueries : Z;
  AllowGetQueries : bool;
}.
Record GraphQLConfig := {
  IntrospectionEnabled : bool; MaxQueryComplexity : Z; MaxQueryDepth : Z; MaxResultRows : Z; APQEnabled : bool;
}.
Record JWTConfig := { Algorithm : string; Secret : string; PublicKeyFile : string; Issuer : string }.
Record APIKeyConfigEntry := { ID : string; Key : string; ExpiresAt : string; PermDatasources : list string; PermOperations : list string }.
Record AuthConfig := { AuthMethod : string; JWT : JWTConfig; APIKeys : list APIKeyConfigEntry; TrustedProxies : list string }.
Record RedisConfig := { Addr : string; Password : string; DB : Z }.
Record CacheConfig := {
  CacheEnabled : bool; Backend : string; DefaultTTL : Z; EmptyResultTTL : Z; TTLJitterPercent : Z;
  Memory : MemoryCacheConfig; CacheRedis : RedisConfig; PerDatasource : list (string * Z);
}.
Record RateLimitConfig := { RateLimitMode : string; RequestsPerWindow : Z; WindowSize : Z; Redis : RedisConfig }.
Record AuditConfig := { AuditEnabled : bool; AuditOutput : string; AuditFilePath : string }.
Record LoggingConfig := { Level : string; Format : string; Audit : AuditConfig }.
Record SanitizationRule := { Pattern : string; Replacement : string }.
Record SanitizationConfig := { SanitizationEnabled : bool; Rules : list SanitizationRule }.
Record MetricsConfig := { CustomLabels : list (string * string) }.
Record OTLPConfig := { Endpoint : string; Protocol : string }.
Record TracingConfig := { TracingEnabled : bool; SamplingRate : spec_float; OTLP : OTLPConfig }.
Record RetryConfig := { CfgMaxRetries : Z; CfgRetryInterval : Z; Backoff : string }.
Record BreakerConfig := { CfgFailureThreshold : Z; CfgOpenDuration : Z; CfgHalfOpenMaxRequests : Z; CfgSuccessThreshold : Z }.
Record AuthFailureConfig := { AuthFailureEnabled : bool; Threshold : Z; Window : Z; BanDuration : Z }.
Record MutationRateLimit := { MutRequestsPerWindow : Z; MutWindowSize : Z }.
Record MutationsConfig := {
  MutationsEnabled : bool; MutDatasourceName : string; MaxAffectedRows : Z; MaxBatchSize : Z; MaxSQLLength : Z;
  MutRateLimit : MutationRateLimit;
}.
(** The fields of [SQLTemplatesConfig] the engine does not read, and the others. *)
Record SQLTemplatesSection := { TemplatesEnabled : bool; TemplatesDatasource : string; SQLTemplates : SQLTemplatesConfig }.
Record Config := {
  Server : ServerConfig; GraphQL : GraphQLConfig; Datasources : list DataSourceConfig; Auth : AuthConfig;
  RateLimit : RateLimitConfig; Cache : CacheConfig; CORS : CORSConfig; Compression : CompressionConfig;
  Logging : LoggingConfig; Sanitization : SanitizationConfig; Metrics : MetricsConfig; Tracing : TracingConfig;
  Retry : RetryConfig; CircuitBreaker : BreakerConfig; AuthFailure : AuthFailureConfig; MaxWaitTime : Z;
  Templates : SQLTemplatesSection; Mutations : MutationsConfig;
}.

(** [setDefaults]: what a field has that no source sets. *)
Definition setDefaults : Config := {|
  Server := {| Port := 8080; ServerMode := "production"; MaxRequestBodySize := "1MB"; RequestTimeout := 30 * second;
               ReadHeaderTimeout := 10 * second; ReadTimeout := 30 * second; WriteTimeout := 60 * second;
               IdleTimeout := 120 * second; MaxConcurrentRequests := 0; MaxBatchQueries := 10; AllowGetQueries := false |};
  GraphQL := {| IntrospectionEnabled := false; MaxQueryComplexity := 100; MaxQueryDepth := 10; MaxResultRows := 10000;
                APQEnabled := false |};
  Datasources := [];
  Auth := {| AuthMethod := EmptyString;
             JWT := {| Algorithm := EmptyString; Secret := EmptyString; PublicKeyFile := EmptyString; Issuer := EmptyString |};
             APIKeys := []; TrustedProxies := [] |};
  RateLimit := {| RateLimitMode := "local"; RequestsPerWindow := 100; WindowSize := 60 * second;
                  Redis := {| Addr := EmptyString; Password := EmptyString; DB := 0 |} |};
  Cache := {| CacheEnabled := false; Backend := "memory"; DefaultTTL := 60 * second; EmptyResultTTL := 30 * second;
              TTLJitterPercent := 10; Memory := {| MaxEntries := 10000; MaxMemorySize := "256MB" |};
              CacheRedis := {| Addr := EmptyString; Password := EmptyString; DB := 0 |}; PerDatasource := [] |};
  CORS := {| CORSEnabled := false; AllowedOrigins := []; AllowedMethods := []; AllowedHeaders := [] |};
  Compression := {| CompressionEnabled := false; MinSize := "1KB" |};
  Logging := {| Level := "info"; Format := "json";
                Audit := {| AuditEnabled := false; AuditOutput := EmptyString; AuditFilePath := EmptyString |} |};
  Sanitization := {| SanitizationEnabled := false; Rules := [] |};
  Metrics := {| CustomLabels := [] |};
  Tracing := {| TracingEnabled := false; SamplingRate := float_of_int 1;
                OTLP := {| Endpoint := EmptyString; Protocol := EmptyString |} |};
  Retry := {| CfgMaxRetries := 3; CfgRetryInterval := 100 * millisecond; Backoff := "exponential" |};
  CircuitBreaker := {| CfgFailureThreshold := 5; CfgOpenDuration := 30 * second; CfgHalfOpenMaxRequests := 1;
                       CfgSuccessThreshold := 2 |};
  AuthFailure := {| AuthFailureEnabled := false; Threshold := 10; Window := 5 * minute; BanDuration := 15 * minute |};
  MaxWaitTime := 30 * second;
  Templates := {| TemplatesEnabled := false; TemplatesDatasource := EmptyString;
                  SQLTemplates := {| BaseDir := "./templates"; SharedDir := EmptyString; RenderTimeout := 5 * second;
                                     MaxRenderedSQLLen := 65536; MaxConcurrentQueries := 10; TemplateLoader.Templates := [] |} |};
  Mutations := {| MutationsEnabled := false; MutDatasourceName := EmptyString; MaxAffectedRows := 1000;
                  MaxBatchSize := 500; MaxSQLLength := 1048576;
                  MutRateLimit := {| MutRequestsPerWindow := 20; MutWindowSize := 60 * second |} |};
|}.

(** ** The outside world *)

Record Env := {
  ReadFile : string -> option string;
  pem_Decode : string -> option string;
  ParsePKIXPublicKey : string -> option Auth.PublicKey;
  LookupEnv : string -> option string;
}.

(** [net.ParseCIDR] without an error. *)
Definition is_cidr (s : string) : bool := match Net.ParseCIDR s with Some _ => true | None => false end.

(** ** The end of [LoadConfig], from the decoded record on *)

(** [os.Expand]: the name after a dollar and the bytes it takes. *)
Definition isShellSpecialVar (c : ascii) : bool :=
  is_digit c || existsb (Ascii.eqb c) ["*"; "#"; "$"; "@"; "!"; "?"; "-"]%char.
Fixpoint alphanums (s : string) : string :=
  match s with String c s' => if ident_char c then String c (alphanums s') else EmptyString | EmptyString => EmptyString end.
Definition braced (s : string) : string * nat :=
  match index_byte "}" s with
  | Some (S i) => (str_take (S i) s, S (S (S i)))
  | Some O => (EmptyString, 2%nat)
  | None => (EmptyString, 1%nat)
  end.
Definition getShellName (s : string) : string * nat :=
  match s with
  | EmptyString => (EmptyString, O)
  | String c s' =>
      if Ascii.eqb c "{" then
        match s' with
        | String d (String "}" _) => if isShellSpecialVar d then (str1 d, 3%nat) else braced s'
        | _ => braced s'
        end
      else if isShellSpecialVar c then (str1 c, 1%nat)
      else (alphanums s, String.length (alphanums s))
  end.
(** The loop; [fuel] is the length of the text. *)
Fixpoint expand_loop (fuel : nat) (mapping : string -> string) (s : string) : string :=
  match fuel, s with
  | S fuel', String c s' =>
      if Ascii.eqb c "$" && negb (String.eqb s' EmptyString) then
        let '(name, w) := getShellName s' in
        (if String.eqb name EmptyString then (if (0 <? w)%nat then EmptyString else "$") else mapping name)
        +:+ expand_loop fuel' mapping (str_drop w s')
      else String c (expand_loop fuel' mapping s')
  | _, _ => EmptyString
  end.
Definition ExpandEnv (env : Env) (s : string) : string :=
  expand_loop (String.length s) (fun name => default EmptyString (LookupEnv env name)) s.

Definition expand_value (env : Env) (v : GoVal) : GoVal :=
  match v with VString s => VString (ExpandEnv env s) | _ => v end.
Definition expand_datasource (env : Env) (ds : DataSourceConfig) : DataSourceConfig :=
  {| DsName := DsName ds; DsType := DsType ds; Enabled := Enabled ds;
     Connection := map (prod_map id (expand_value env)) (Connection ds);
     DsOptions := map (prod_map id (expand_value env)) (DsOptions ds) |}.
Definition load_auth (env : Env) (auth : AuthConfig) : AuthConfig :=
  let method := default (AuthMethod auth) (LookupEnv env "GRAPHQL_AUTH_METHOD") in
  {| AuthMethod := if String.eqb method "none" then EmptyString else method;
     JWT := JWT auth; APIKeys := APIKeys auth; TrustedProxies := TrustedProxies auth |}.
Definition expand_config (env : Env) (cfg : Config) : Config :=
  {| Server := Server cfg; GraphQL := GraphQL cfg; Datasources := map (expand_datasource env) (Datasources cfg);
     Auth := load_auth env (Auth cfg); RateLimit := RateLimit cfg; Cache := Cache cfg; CORS := CORS cfg;
     Compression := Compression cfg; Logging := Logging cfg; Sanitization := Sanitization cfg; Metrics := Metrics cfg;
     Tracing := Tracing cfg; Retry := Retry cfg; CircuitBreaker := CircuitBreaker cfg; AuthFailure := AuthFailure cfg;
     MaxWaitTime := MaxWaitTime cfg; Templates := Templates cfg; Mutations := Mutations cfg |}.

(** ** validation.go *)

(** [errs = append(errs, ...)] under a condition. *)
Definition err_if (bad : bool) (fmt : string) (args : list arg) : list format := if bad then [Sprintf fmt args] else [].
Definition blank (s : string) : bool := String.eqb (trim_space s) EmptyString.

Definition getIntOption (opts : list (string * GoVal)) (key : string) : option Z :=
  match assoc key opts with
  | Some (VInt z) | Some (VInt64 z) => Some z
  | Some (VFloat64 f) => Some (int_of_float f)
  | _ => None
  end.

(** *** [ParseSizeString] of this package: the pattern (?i)^(\d+(?:\.\d+)?)\s*(KB|MB|GB)$ *)

Definition regexp_space (c : ascii) : bool :=
  Ascii.eqb c " " || (code c =? 9)%N || (code c =? 10)%N || (code c =? 12)%N || (code c =? 13)%N.
Fixpoint skip_space (s : string) : string :=
  match s with String c s' => if regexp_space c then skip_space s' else s | EmptyString => s end.
(** The number and the unit of a match. *)
Definition sizePattern (s : string) : option (string * string) :=
  let ds := take_digits s in
  if String.eqb ds EmptyString then None else
  let r := str_drop (String.length ds) s in
  let '(num, r) :=
    match r with
    | String "." r' =>
        let fs := take_digits r' in
        if String.eqb fs EmptyString then (ds, r) else (ds +:+ "." +:+ fs, str_drop (String.length fs) r')
    | _ => (ds, r)
    end in
  let unit := skip_space r in
  if equal_fold "KB" unit || equal_fold "MB" unit || equal_fold "GB" unit then Some (num, unit) else None.

Section Validation.
Context {FT : FloatText} {UT : UnicodeTables} {GR : GoRegexp}.
Variable env : Env.

Definition unit_multiplier (unit : string) : Z :=
  if String.eqb unit "KB" then 1024
  else if String.eqb unit "MB" then 1024 * 1024
  else if String.eqb unit "GB" then 1024 * 1024 * 1024
  else 0.
Definition ParseSizeString (s : string) : result Z :=
  let s := trim_space s in
  match sizePattern s with
  | None => Err (Errorf (Sprintf "invalid size format %q: must be a number followed by KB, MB, or GB" [AStr s]))
  | Some (num, unit) =>
      match parse_float num with
      | None => Err (Errorf (Sprintf "invalid size value %q: %w" [AStr num]))
      | Some value =>
          let result := int_of_float (float_mul value (float_of_int (unit_multiplier (to_upper unit)))) in
          if result <=? 0 then Err (Errorf (Sprintf "parsed size must be > 0" [])) else Ok result
      end
  end.

(** *** Sections *)

Definition validatePEMFile (path algo : string) : list format :=
  match ReadFile env path with
  | None => [Sprintf "auth.jwt.public_key_file %q: %v" [AStr path]]
  | Some data =>
      match pem_Decode env data with
      | None => [Sprintf "auth.jwt.public_key_file %q: not a valid PEM file" [AStr path]]
      | Some block =>
          err_if (match ParsePKIXPublicKey env block with Some _ => false | None => true end) "auth.jwt.public_key_file %q: invalid public key: %v" [AStr path]
      end
  end.
Definition validateJWTConfig (jwt : JWTConfig) : list format :=
  let algo := if String.eqb (Algorithm jwt) EmptyString then "HS256" else Algorithm jwt in
  if String.eqb algo "HS256" then
    (if String.eqb (Secret jwt) EmptyString
     then [Sprintf "auth.jwt.secret is required when algorithm is HS256" []]
     else err_if (slen (Secret jwt) <? 32) "auth.jwt.secret must be at least 32 bytes, got %d" [AInt (slen (Secret jwt))])
    ++ err_if (negb (String.eqb (PublicKeyFile jwt) EmptyString))
         "auth.jwt.public_key_file must not be set when algorithm is HS256" []
  else if String.eqb algo "RS256" || String.eqb algo "ES256" then
    (if String.eqb (PublicKeyFile jwt) EmptyString
     then [Sprintf "auth.jwt.public_key_file is required when algorithm is %s" [AStr algo]]
     else validatePEMFile (PublicKeyFile jwt) algo)
    ++ err_if (negb (String.eqb (Secret jwt) EmptyString)) "auth.jwt.secret must not be set when algorithm is %s" [AStr algo]
  else [Sprintf "auth.jwt.algorithm must be HS256, RS256, or ES256, got %q" [AStr algo]].

Definition column_char (c : ascii) : bool := ident_char c.
Definition column_errors (tablePrefix : format) (jcol : Z * GoVal) : list format :=
  match jcol.2 with
  | VString colStr =>
      err_if (String.eqb colStr EmptyString || negb (str_forallb column_char colStr))
        "%s.columns[%d] %q: must match [a-zA-Z0-9_]" [AInt jcol.1; AStr colStr]
  | _ => [Sprintf "%s.columns[%d]: must be a string" [AInt jcol.1]]
  end.
Definition table_errors (prefix : string) (td : string * GoVal) : list format :=
  let tablePrefix := Sprintf "%s.options.allowed_tables[%s]" [AStr prefix; AStr td.1] in
  match td.2 with
  | VMap tableMap =>
      match assoc "columns" tableMap with
      | None => [Sprintf "%s: must define at least one column" [AStr td.1]]
      | Some (VSlice columns) =>
          if Z.of_nat (length columns) =? 0 then [Sprintf "%s: must define at least one column" [AStr td.1]]
          else flat_map (column_errors tablePrefix) (indexed columns)
      | Some _ => [Sprintf "%s.columns: must be an array" [AStr td.1]]
      end
  | _ => [Sprintf "%s: table definition must be a map" [AStr td.1]]
  end.
Definition validateStarRocksWhitelist (ds : DataSourceConfig) (prefix : string) : list format :=
  match assoc "allowed_tables" (DsOptions ds) with
  | None | Some VNil =>
      [Sprintf "%s (type=starrocks): options.allowed_tables is required and must not be empty" [AStr prefix]]
  | Some (VMap tablesMap) =>
      if Z.of_nat (length tablesMap) =? 0
      then [Sprintf "%s (type=starrocks): options.allowed_tables must not be empty" [AStr prefix]]
      else flat_map (table_errors prefix) tablesMap
  | Some _ => [Sprintf "%s (type=starrocks): options.allowed_tables must be a map of table definitions" [AStr prefix]]
  end.

(** One data source of the loop, with the names seen so far. *)
Definition datasource_errors (acc : list format * gset string) (ids : Z * DataSourceConfig) : list format * gset string :=
  let '(errs, dsNames) := acc in
  let '(i, ds) := ids in
  let prefix := "datasources[" +:+ itoa i +:+ "]" in
  if negb (Enabled ds) then acc
  else
    let named := negb (String.eqb (DsName ds) EmptyString) in
    (errs
     ++ err_if (blank (DsName ds)) "%s.name must not be empty" [AStr prefix]
     ++ err_if (blank (DsType ds)) "%s.type must not be empty" [AStr prefix]
     ++ err_if (named && bool_decide (DsName ds ∈ dsNames)) "%s: duplicate datasource name %q" [AStr prefix; AStr (DsName ds)]
     ++ err_if (match getIntOption (DsOptions ds) "pool_size" with Some n => n <? 0 | None => false end)
          "%s.options.pool_size must not be negative" [AStr prefix]
     ++ (if String.eqb (DsType ds) "starrocks" then validateStarRocksWhitelist ds prefix else []),
     if named then {[DsName ds]} ∪ dsNames else dsNames).

Definition validParamTypes : list string := ["string"; "int"; "float"; "boolean"; "string[]"].
Definition param_errors (prefix : string) (jp : Z * TemplateParamConfig) : list format :=
  let '(j, p) := jp in
  let paramPrefix := prefix +:+ ".parameters[" +:+ itoa j +:+ "]" in
  err_if (blank (pcName p)) "%s.name must not be empty" [AStr paramPrefix]
  ++ err_if (negb (existsb (String.eqb (pcType p)) validParamTypes))
       "%s.type %q: unsupported (must be one of: string, int, float, boolean, string[])" [AStr paramPrefix; AStr (pcType p)]
  ++ match pcPattern p with
     | Some pat => err_if (match regexp_Compile pat with Ok _ => false | Err _ => true end) "%s.pattern: invalid regex: %v" [AStr paramPrefix; AStr pat]
     | None => []
     end.
Definition template_errors (acc : list format * gset string) (it : Z * TemplateConfig) : list format * gset string :=
  let '(errs, seen) := acc in
  let '(i, t) := it in
  let prefix := "sql_templates.templates[" +:+ itoa i +:+ "]" in
  (errs
   ++ err_if (negb (template_name_ok (tcName t))) "%s.name %q: invalid format" [AStr prefix; AStr (tcName t)]
   ++ err_if (bool_decide (tcName t ∈ seen)) "%s.name %q: duplicate" [AStr prefix; AStr (tcName t)]
   ++ err_if (blank (tcFile t)) "%s.file must not be empty" [AStr prefix]
   ++ flat_map (param_errors prefix) (indexed (tcParameters t)),
   {[tcName t]} ∪ seen).
Definition validateSQLTemplates (sec : SQLTemplatesSection) : list format :=
  if negb (TemplatesEnabled sec) then []
  else
    let cfg := SQLTemplates sec in
    err_if (blank (TemplatesDatasource sec)) "sql_templates.datasource_name must not be empty when enabled" []
    ++ err_if (blank (BaseDir cfg)) "sql_templates.base_dir must not be empty" []
    ++ err_if (RenderTimeout cfg <=? 0) "sql_templates.render_timeout must be positive" []
    ++ err_if (MaxRenderedSQLLen cfg <=? 0) "sql_templates.max_rendered_sql_length must be positive" []
    ++ err_if (MaxConcurrentQueries cfg <=? 0) "sql_templates.max_concurrent_queries must be positive" []
    ++ (foldl template_errors ([], ∅) (indexed (TemplateLoader.Templates cfg))).1.

Definition memory_size_errors (s : string) : list format :=
  if String.eqb s EmptyString then []
  else match ParseSizeString s with
       | Err e => [Sprintf "cache.memory.max_memory_size %q is invalid: %v" [AStr s; AErr e]]
       | Ok bytes => err_if (bytes <=? 0) "cache.memory.max_memory_size must be > 0" []
       end.

Definition auth_errors (auth : AuthConfig) : list format :=
  let authMethod := trim_space (AuthMethod auth) in
  (if String.eqb authMethod EmptyString then []
   else err_if (negb (String.eqb authMethod "jwt") && negb (String.eqb authMethod "apikey"))
          "auth.method must be jwt or apikey, got %q" [AStr authMethod]
        ++ (if String.eqb authMethod "jwt" then validateJWTConfig (JWT auth) else []))
  ++ flat_map (fun ic : Z * string => err_if (negb (is_cidr ic.2)) "auth.trusted_proxies[%d] %q is not valid CIDR: %v"
                                        [AInt ic.1; AStr ic.2]) (indexed (TrustedProxies auth)).

Definition csrf_warning (cfg : Config) : list string :=
  if String.eqb (ServerMode (Server cfg)) "production" && AllowGetQueries (Server cfg)
  then ["CSRF risk: allow_get_queries is enabled in production mode; GET queries may be vulnerable to CSRF attacks"] else [].
Definition config_errors (cfg : Config) : list format :=
  err_if (Port (Server cfg) <=? 0) "server.port must be > 0" []
  ++ err_if (negb (String.eqb (ServerMode (Server cfg)) "production") && negb (String.eqb (ServerMode (Server cfg)) "development"))
       "server.mode must be production or development, got %q" [AStr (ServerMode (Server cfg))]
  ++ (foldl datasource_errors ([], ∅) (indexed (Datasources cfg))).1
  ++ auth_errors (Auth cfg)
  ++ err_if (RequestsPerWindow (RateLimit cfg) <=? 0) "rate_limit.requests_per_window must be > 0" []
  ++ err_if (WindowSize (RateLimit cfg) <=? 0) "rate_limit.window_size must be > 0" []
  ++ err_if (negb (String.eqb (Backend (Cache cfg)) "memory") && negb (String.eqb (Backend (Cache cfg)) "redis"))
       "cache.backend must be memory or redis, got %q" [AStr (Backend (Cache cfg))]
  ++ memory_size_errors (MaxMemorySize (Memory (Cache cfg)))
  ++ err_if (SFltb (SamplingRate (Tracing cfg)) (S754_zero false) || SFltb (float_of_int 1) (SamplingRate (Tracing cfg)))
       "tracing.sampling_rate must be between 0.0 and 1.0, got %f" [AVal (VFloat64 (SamplingRate (Tracing cfg)))]
  ++ validateSQLTemplates (Templates cfg).
Definition ValidateConfig (cfg : Config) : list string * option error :=
  (csrf_warning cfg,
   match config_errors cfg with
   | [] => None
   | e :: _ => Some (Errorf (Sprintf "configuration validation failed:" [AErr (Errorf e)]))
   end).

Definition ValidateMutationsConfig (cfg : Config) : result unit :=
  let mc := Mutations cfg in
  if negb (MutationsEnabled mc) then Ok tt
  else if String.eqb (MutDatasourceName mc) EmptyString
  then Err (Errorf (Sprintf "mutations.datasource_name is required when mutations.enabled=true" []))
  else match List.find (fun ds => String.eqb (DsName ds) (MutDatasourceName mc)) (Datasources cfg) with
       | None => Err (Errorf (Sprintf "mutations.datasource_name %q does not reference an existing datasource"
                                [AStr (MutDatasourceName mc)]))
       | Some ds =>
           _ ← guard_err (negb (Enabled ds))
                 (Errorf (Sprintf "mutations.datasource_name %q references a disabled datasource" [AStr (MutDatasourceName mc)]));
           _ ← guard_err (negb (String.eqb (DsType ds) "starrocks") && negb (String.eqb (DsType ds) "clickhouse"))
                 (Errorf (Sprintf "mutations.datasource_name %q must reference a starrocks or clickhouse type datasource, got %q"
                            [AStr (MutDatasourceName mc); AStr (DsType ds)]));
           guard_err (MaxAffectedRows mc <? MaxBatchSize mc)
             (Errorf (Sprintf "mutations.max_batch_size (%d) must be <= mutations.max_affected_rows (%d)"
                        [AInt (MaxBatchSize mc); AInt (MaxAffectedRows mc)]))
       end.
End Validation.

(** ** Theorems *)

Lemma err_if_nil b fmt args : err_if b fmt args = [] <-> b = false.
Proof. destruct b; done. Qed.
Lemma flat_map_nil {A B} (f : A -> list B) l : flat_map f l = [] <-> Forall (fun x => f x = []) l.
Proof.
  induction l as [|x l IH]; simpl; [done|]. split.
  - intros [Hx Hl]%app_eq_nil. constructor; [done|]. by apply IH.
  - intros [Hx Hl]%Forall_cons. rewrite Hx. by apply IH.
Qed.
Lemma flat_map_indexed_nil {A B} (f : Z * A -> list B) (P : A -> Prop) l :
  (forall i x, f (i, x) = [] <-> P x) -> flat_map f (indexed l) = [] <-> Forall P l.
Proof.
  intros H. rewrite flat_map_nil. unfold indexed. generalize 0 as i. induction l as [|x l IH]; intros i; simpl; [done|].
  by rewrite !Forall_cons, IH, H.
Qed.
Lemma blank_empty : blank EmptyString = true.
Proof. reflexivity. Qed.

(** A list of errors is empty exactly when every part of it is. *)
Ltac no_errors :=
  repeat match goal with
  | H : (_ ++ _)%list = [] |- _ => apply app_eq_nil in H; destruct H
  | H : err_if _ _ _ = [] |- _ => rewrite err_if_nil in H
  | H : negb _ = false |- _ => rewrite negb_false_iff in H
  | H : negb _ && negb _ = false |- _ => rewrite <- negb_orb in H
  end.

Section Facts.
Context {FT : FloatText} {UT : UnicodeTables} {GR : GoRegexp}.
Variable env : Env.
#[local] Set Default Proof Using "Type".

(** *** What an accepted configuration satisfies *)

Definition enabled_names (cfg : Config) : list string := map DsName (List.filter Enabled (Datasources cfg)).
(** A column list of a StarRocks whitelist is non-empty and made of identifiers. *)
Definition columns_ok (v : GoVal) : Prop :=
  exists cols, v = VSlice cols /\ cols <> []
  /\ Forall (fun c => exists s, c = VString s /\ s <> EmptyString /\ str_forallb ident_char s = true) cols.
Definition whitelist_ok (ds : DataSourceConfig) : Prop :=
  exists tables, assoc "allowed_tables" (DsOptions ds) = Some (VMap tables) /\ tables <> []
  /\ Forall (fun td => exists tm v, td.2 = VMap tm /\ assoc "columns" tm = Some v /\ columns_ok v) tables.
Definition datasource_ok (ds : DataSourceConfig) : Prop :=
  blank (DsName ds) = false /\ blank (DsType ds) = false
  /\ (forall n, getIntOption (DsOptions ds) "pool_size" = Some n -> 0 <= n)
  /\ (DsType ds = "starrocks" -> whitelist_ok ds).
Definition param_ok (p : TemplateParamConfig) : Prop :=
  blank (pcName p) = false /\ pcType p ∈ validParamTypes
  /\ forall pat, pcPattern p = Some pat -> exists re, regexp_Compile pat = Ok re.
Definition template_ok (t : TemplateConfig) : Prop :=
  template_name_ok (tcName t) = true /\ blank (tcFile t) = false /\ Forall param_ok (tcParameters t).
(** The JWT section: a secret of at least 32 bytes for HS256, which is the default, or a public
    key of any kind for RS256 and ES256. *)
Definition jwt_ok (jwt : JWTConfig) : Prop :=
  (Algorithm jwt ∈ ["HS256"; EmptyString] /\ 32 <= slen (Secret jwt) /\ PublicKeyFile jwt = EmptyString)
  \/ (Algorithm jwt ∈ ["RS256"; "ES256"] /\ Secret jwt = EmptyString /\ PublicKeyFile jwt <> EmptyString
      /\ exists data block key, ReadFile env (PublicKeyFile jwt) = Some data /\ pem_Decode env data = Some block
         /\ ParsePKIXPublicKey env block = Some key).
Definition auth_ok (auth : AuthConfig) : Prop :=
  (trim_space (AuthMethod auth) ∈ [EmptyString; "apikey"]
   \/ trim_space (AuthMethod auth) = "jwt" /\ jwt_ok (JWT auth))
  /\ Forall (fun cidr => is_cidr cidr = true) (TrustedProxies auth).
Definition templates_ok (sec : SQLTemplatesSection) : Prop :=
  let cfg := SQLTemplates sec in
  blank (TemplatesDatasource sec) = false /\ blank (BaseDir cfg) = false /\ 0 < RenderTimeout cfg
  /\ 0 < MaxRenderedSQLLen cfg /\ 0 < MaxConcurrentQueries cfg
  /\ NoDup (map tcName (TemplateLoader.Templates cfg)) /\ Forall template_ok (TemplateLoader.Templates cfg).
Definition config_ok (cfg : Config) : Prop :=
  0 < Port (Server cfg) /\ ServerMode (Server cfg) ∈ ["production"; "development"]
  /\ (NoDup (enabled_names cfg) /\ Forall datasource_ok (List.filter Enabled (Datasources cfg)))
  /\ auth_ok (Auth cfg)
  /\ 0 < RequestsPerWindow (RateLimit cfg) /\ 0 < WindowSize (RateLimit cfg)
  /\ Backend (Cache cfg) ∈ ["memory"; "redis"]
  /\ (let size := MaxMemorySize (Memory (Cache cfg)) in size = EmptyString \/ exists n, 0 < n /\ ParseSizeString size = Ok n)
  /\ (let rate := SamplingRate (Tracing cfg) in
      SFltb rate (S754_zero false) = false /\ SFltb (float_of_int 1) rate = false)
  /\ (TemplatesEnabled (Templates cfg) = true -> templates_ok (Templates cfg)).

Lemma column_errors_iff tp i c :
  column_errors tp (i, c) = [] <-> exists s, c = VString s /\ s <> EmptyString /\ str_forallb ident_char s = true.
Proof.
  unfold column_errors. simpl. destruct c; try (split; [done|by intros (? & ? & _)]).
  rewrite err_if_nil, orb_false_iff, negb_false_iff, String.eqb_neq. split; [intros []; eauto|]. by intros (? & [= <-] & ?).
Qed.
Lemma table_errors_iff prefix td :
  table_errors prefix td = [] <-> exists tm v, td.2 = VMap tm /\ assoc "columns" tm = Some v /\ columns_ok v.
Proof.
  unfold table_errors, columns_ok. destruct td as [name v]. cbn [snd fst].
  destruct v as [| | | | | | | | | | | |tm| | | | |]; try (split; [done|by intros (? & ? & ? & _)]).
  destruct (assoc "columns" tm) as [w|] eqn:Ew; [|split; [done|by intros (? & ? & [= <-] & ? & _); simplify_eq]].
  assert (Hw : (exists tm' v, VMap tm = VMap tm' /\ assoc "columns" tm' = Some v /\ columns_ok v) <-> columns_ok w).
  { split; [intros (? & ? & [= <-] & ? & ?); by simplify_eq|eauto]. }
  unfold columns_ok in Hw. rewrite Hw. clear Hw.
  destruct w as [| | | | | | | | | | |cols| | | | | |]; try (split; [done|by intros (? & ? & _)]).
  destruct (_ =? 0) eqn:El.
  { split; [done|]. intros (? & [= <-] & ? & _). by destruct cols. }
  rewrite (flat_map_indexed_nil _ _ _ (fun i c => column_errors_iff _ i c)). split.
  - intros H. exists cols. split; [done|]. split; [by intros ->|done].
  - by intros (? & [= <-] & _ & ?).
Qed.
Lemma whitelist_errors_iff ds prefix : validateStarRocksWhitelist ds prefix = [] <-> whitelist_ok ds.
Proof.
  unfold validateStarRocksWhitelist, whitelist_ok. destruct (assoc "allowed_tables" (DsOptions ds)) as [v|]; [|by split; [|intros (? & ? & _)]].
  destruct v as [| | | | | | | | | | | |tables| | | | |]; try (split; [done|by intros (? & ? & _)]).
  destruct (_ =? 0) eqn:El.
  { split; [done|]. intros (? & [= <-] & ? & _). by destruct tables. }
  rewrite flat_map_nil. split.
  - intros H. exists tables. split; [done|]. split; [by intros ->|]. eapply Forall_impl; [exact H|]. intros td. apply table_errors_iff.
  - intros (? & [= <-] & _ & H). eapply Forall_impl; [exact H|]. intros td. apply table_errors_iff.
Qed.

(** A loop that collects errors and refuses a second item of a name: when it finds none. *)
Lemma unique_loop {A} (step : list format * gset string -> Z * A -> list format * gset string)
    (counted : A -> bool) (name : A -> string) (P : A -> Prop) :
  (forall errs seen i x, let '(errs', seen') := step (errs, seen) (i, x) in
     if counted x then (errs' = [] <-> errs = [] /\ name x ∉ seen /\ P x) /\ (P x -> seen' = {[name x]} ∪ seen)
     else errs' = errs /\ seen' = seen) ->
  forall l i errs seen, (foldl step (errs, seen) (indexed_from i l)).1 = []
  <-> errs = [] /\ NoDup (map name (List.filter counted l)) /\ Forall (fun x => name x ∉ seen /\ P x) (List.filter counted l).
Proof.
  intros Hstep l. induction l as [|x l IH]; intros i errs seen; simpl.
  { split; [intros ->; split_and!; constructor|by intros []]. }
  specialize (Hstep errs seen i x). destruct (step (errs, seen) (i, x)) as [errs' seen']. rewrite IH. clear IH.
  destruct (counted x); [destruct Hstep as [-> Hs]|by destruct Hstep as [-> ->]].
  cbn [map]. rewrite NoDup_cons, Forall_cons. split.
  - intros ((-> & Hf & HP) & Hnd & Hall). rewrite (Hs HP) in Hall. rewrite Forall_forall in Hall.
    split_and!; try done.
    + intros (y & Hy & Hin)%list_elem_of_fmap. destruct (Hall y Hin) as [Hn _]. set_solver.
    + apply Forall_forall. intros y Hy. destruct (Hall y Hy). set_solver.
  - intros (-> & (Hf & Hnd) & (Hx & HP) & Hall). split_and!; try done. rewrite (Hs HP).
    rewrite Forall_forall in Hall |- *. intros y Hy. destruct (Hall y Hy) as [Hn HPy]. split; [|done].
    assert (name y <> name x) by (intros E; apply Hf; rewrite <- E; by apply list_elem_of_fmap_2). set_solver.
Qed.

Lemma datasource_loop l i errs seen :
  (foldl datasource_errors (errs, seen) (indexed_from i l)).1 = []
  <-> errs = [] /\ NoDup (map DsName (List.filter Enabled l))
      /\ Forall (fun ds => DsName ds ∉ seen /\ datasource_ok ds) (List.filter Enabled l).
Proof.
  apply unique_loop. clear. intros errs seen i ds. unfold datasource_errors, datasource_ok.
  destruct (Enabled ds); cbn [negb]; [|done].
  destruct (String.eqb_spec (DsName ds) EmptyString) as [Hne|Hne].
  { rewrite Hne. split; [|by intros []]. rewrite !app_nil, !err_if_nil. split; [by intros (_ & ? & _)|by intros (_ & _ & ? & _)]. }
  cbn [negb andb]. split; [|done]. rewrite !app_nil, !err_if_nil, bool_decide_eq_false.
  assert (Hp : (match getIntOption (DsOptions ds) "pool_size" with Some n => n <? 0 | None => false end) = false
    <-> forall n, getIntOption (DsOptions ds) "pool_size" = Some n -> 0 <= n).
  { destruct (getIntOption _ _) as [n|]; [|done]. rewrite Z.ltb_ge. split; [by intros ? ? [= <-]|auto]. }
  assert (Hw : (if String.eqb (DsType ds) "starrocks" then validateStarRocksWhitelist ds ("datasources[" +:+ itoa i +:+ "]") else []) = []
    <-> (DsType ds = "starrocks" -> whitelist_ok ds)).
  { destruct (String.eqb_spec (DsType ds) "starrocks"); [|done]. rewrite whitelist_errors_iff. tauto. }
  rewrite Hp, Hw. tauto.
Qed.

Lemma param_errors_iff prefix j p : param_errors prefix (j, p) = [] <-> param_ok p.
Proof.
  unfold param_errors, param_ok. rewrite !app_nil, !err_if_nil, negb_false_iff, existsb_exists.
  assert (Ht : (exists t, In t validParamTypes /\ String.eqb (pcType p) t = true) <-> pcType p ∈ validParamTypes).
  { rewrite list_elem_of_In. split; [by intros (t & ? & ->%String.eqb_eq)|]. intros. exists (pcType p). by rewrite String.eqb_refl. }
  assert (Hp : (match pcPattern p with
     | Some pat => err_if (match regexp_Compile pat with Ok _ => false | Err _ => true end) "%s.pattern: invalid regex: %v"
         [AStr (prefix +:+ ".parameters[" +:+ itoa j +:+ "]"); AStr pat]
     | None => []
     end) = [] <-> forall pat, pcPattern p = Some pat -> exists re, regexp_Compile pat = Ok re).
  { destruct (pcPattern p) as [pat|]; [|done]. rewrite err_if_nil. destruct (regexp_Compile pat) as [re|] eqn:E.
    - split; [|done]. intros _ ? [= <-]. eauto.
    - split; [done|]. intros H. by destruct (H pat eq_refl) as [? ?]; congruence. }
  by rewrite Ht, Hp.
Qed.
Lemma template_loop l i errs seen :
  (foldl template_errors (errs, seen) (indexed_from i l)).1 = []
  <-> errs = [] /\ NoDup (map tcName (List.filter (fun _ => true) l))
      /\ Forall (fun t => tcName t ∉ seen /\ template_ok t) (List.filter (fun _ => true) l).
Proof.
  apply unique_loop. clear. intros errs seen i t. unfold template_errors, template_ok. split; [|done].
  rewrite !app_nil, !err_if_nil, negb_false_iff, bool_decide_eq_false, (flat_map_indexed_nil _ _ _ (fun j p => param_errors_iff _ j p)). tauto.
Qed.
Lemma filter_true {A} (l : list A) : List.filter (fun _ => true) l = l.
Proof. induction l as [|x l IH]; simpl; [done|]. by rewrite IH. Qed.
Lemma unseen {A} (name : A -> string) (P : A -> Prop) l : Forall (fun x => name x ∉ (∅ : gset string) /\ P x) l <-> Forall P l.
Proof. apply Forall_iff. intros x. set_solver. Qed.

Lemma pem_errors_iff path algo : validatePEMFile env path algo = [] <-> exists data block key,
  ReadFile env path = Some data /\ pem_Decode env data = Some block /\ ParsePKIXPublicKey env block = Some key.
Proof.
  unfold validatePEMFile. destruct (ReadFile env path) as [data|]; [|split; [done|by intros (? & ? & ? & ? & _)]].
  destruct (pem_Decode env data) as [block|] eqn:Eb; [|split; [done|intros (? & ? & ? & [= <-] & ? & _); congruence]].
  rewrite err_if_nil. destruct (ParsePKIXPublicKey env block) as [key|] eqn:Ek.
  - split; [|done]. intros _. by exists data, block, key.
  - split; [done|]. intros (? & ? & ? & [= <-] & ? & ?). congruence.
Qed.
Lemma jwt_errors_iff jwt : validateJWTConfig env jwt = [] <-> jwt_ok jwt.
Proof.
  unfold validateJWTConfig, jwt_ok. cbv zeta. rewrite !elem_of_cons, elem_of_nil.
  assert (Hs : (if String.eqb (Secret jwt) EmptyString then [Sprintf "auth.jwt.secret is required when algorithm is HS256" []]
    else err_if (slen (Secret jwt) <? 32) "auth.jwt.secret must be at least 32 bytes, got %d" [AInt (slen (Secret jwt))]) = [] <-> 32 <= slen (Secret jwt)).
  { destruct (String.eqb_spec (Secret jwt) EmptyString) as [->|]; [by split|]. rewrite err_if_nil. lia. }
  assert (Hk : forall algo, (if String.eqb (PublicKeyFile jwt) EmptyString
     then [Sprintf "auth.jwt.public_key_file is required when algorithm is %s" [AStr algo]]
     else validatePEMFile env (PublicKeyFile jwt) algo) = [] <-> PublicKeyFile jwt <> EmptyString /\ exists data block key,
    ReadFile env (PublicKeyFile jwt) = Some data /\ pem_Decode env data = Some block /\ ParsePKIXPublicKey env block = Some key).
  { intros algo. rewrite <- (pem_errors_iff _ algo). destruct (String.eqb_spec (PublicKeyFile jwt) EmptyString); [split; [done|tauto]|tauto]. }
  destruct (String.eqb_spec (Algorithm jwt) EmptyString) as [Ea|Ea].
  { rewrite String.eqb_refl, app_nil, Hs, err_if_nil, negb_false_iff, String.eqb_eq, Ea. naive_solver. }
  destruct (String.eqb_spec (Algorithm jwt) "HS256") as [Eh|Eh].
  { rewrite app_nil, Hs, err_if_nil, negb_false_iff, String.eqb_eq, Eh. naive_solver. }
  destruct (String.eqb_spec (Algorithm jwt) "RS256") as [Er|Er]; cbn [orb].
  { rewrite app_nil, Hk, err_if_nil, negb_false_iff, String.eqb_eq, Er. naive_solver. }
  destruct (String.eqb_spec (Algorithm jwt) "ES256") as [Ee|Ee]; [|naive_solver].
  rewrite app_nil, Hk, err_if_nil, negb_false_iff, String.eqb_eq, Ee. naive_solver.
Qed.
Lemma auth_errors_iff auth : auth_errors env auth = [] <-> auth_ok auth.
Proof.
  unfold auth_errors, auth_ok. rewrite app_nil, (flat_map_indexed_nil _ (fun cidr => is_cidr cidr = true));
    [|intros i x; by rewrite err_if_nil, negb_false_iff].
  f_equiv. rewrite !elem_of_cons, elem_of_nil.
  destruct (String.eqb_spec (trim_space (AuthMethod auth)) EmptyString) as [->|He]; [naive_solver|].
  rewrite app_nil, err_if_nil.
  destruct (String.eqb_spec (trim_space (AuthMethod auth)) "jwt") as [->|Hj]; cbn [negb andb].
  { rewrite jwt_errors_iff. naive_solver. }
  rewrite negb_false_iff, String.eqb_eq. naive_solver.
Qed.
Lemma templates_errors_iff sec : validateSQLTemplates sec = [] <-> (TemplatesEnabled sec = true -> templates_ok sec).
Proof.
  unfold validateSQLTemplates, templates_ok. destruct (TemplatesEnabled sec); cbn [negb]; [|done].
  rewrite !app_nil, !err_if_nil, !Z.leb_gt. unfold indexed. rewrite template_loop, filter_true, unseen. tauto.
Qed.
Lemma memory_size_iff s : memory_size_errors s = [] <-> s = EmptyString \/ exists n, 0 < n /\ ParseSizeString s = Ok n.
Proof.
  unfold memory_size_errors. destruct (String.eqb_spec s EmptyString) as [->|Hs]; [by split; [left|]|].
  destruct (ParseSizeString s) as [n|] eqn:E; [|naive_solver].
  rewrite err_if_nil, Z.leb_gt. naive_solver.
Qed.
Lemma one_of s a b : negb (String.eqb s a) && negb (String.eqb s b) = false <-> s ∈ [a; b].
Proof.
  rewrite !elem_of_cons, elem_of_nil. destruct (String.eqb_spec s a), (String.eqb_spec s b); naive_solver.
Qed.

(** C26: what the validation accepts, exactly.  A configuration is accepted if and only if it has a
    positive port and rate limit and a known mode and cache backend; its enabled data sources
    have distinct non-blank names, non-blank types and no negative pool size, and the StarRocks ones a
    non-empty whitelist of tables, each with a non-empty list of identifiers as columns (the
    names of the tables are not looked at, nor are disabled data sources); the method of the
    authentication, without its spaces, is none, [apikey], or [jwt] with a JWT section that has a
    secret of 32 bytes for HS256 (or no algorithm) or a readable public key, of whatever kind, for
    RS256 and ES256; the trusted proxies are CIDRs; the memory size is absent or positive; the
    sampling rate is not below 0 nor above 1; and, when templates are enabled, their limits are
    positive and their names distinct and well-formed, with parameters of a known type and a
    pattern that compiles. *)
Theorem accepted_config_iff cfg : (ValidateConfig env cfg).2 = None <-> config_ok cfg.
Proof.
  assert (E : (ValidateConfig env cfg).2 = None <-> config_errors env cfg = [])
    by (unfold ValidateConfig; cbn [snd]; by destruct (config_errors env cfg)).
  rewrite E. unfold config_errors, config_ok. cbv zeta.
  rewrite !app_nil, !err_if_nil, !Z.leb_gt, auth_errors_iff, memory_size_iff, templates_errors_iff, !one_of, orb_false_iff.
  unfold indexed. rewrite datasource_loop, unseen. unfold enabled_names. tauto.
Qed.

Lemma config_accepted cfg : (ValidateConfig env cfg).2 = None -> auth_ok (Auth cfg)
  /\ (TemplatesEnabled (Templates cfg) = true -> templates_ok (Templates cfg)).
Proof.
  unfold ValidateConfig, config_errors. cbn [snd]. destruct (_ ++ _)%list eqn:H; [|done]. intros _. no_errors.
  split; [by apply auth_errors_iff|by apply templates_errors_iff].
Qed.
Lemma jwt_section_accepted cfg :
  (ValidateConfig env cfg).2 = None -> trim_space (AuthMethod (Auth cfg)) = "jwt" -> jwt_ok (JWT (Auth cfg)).
Proof.
  intros [[[H|[_ H]] _] _]%config_accepted Hm; [|done]. rewrite Hm, !elem_of_cons, elem_of_nil in H. naive_solver.
Qed.
Lemma accepted_templates cfg : (ValidateConfig env cfg).2 = None -> TemplatesEnabled (Templates cfg) = true ->
  NoDup (map tcName (TemplateLoader.Templates (SQLTemplates (Templates cfg))))
  /\ Forall template_ok (TemplateLoader.Templates (SQLTemplates (Templates cfg))).
Proof. intros [_ H]%config_accepted Ht. by destruct (H Ht) as (_ & _ & _ & _ & _ & ?). Qed.

(** *** Variables in connection settings *)

Lemma expand_fuel m fuel s :
  (String.length s <= fuel)%nat -> expand_loop fuel m s = expand_loop (String.length s) m s.
Proof.
  enough (G : forall f g s, (String.length s <= f)%nat -> (String.length s <= g)%nat -> expand_loop f m s = expand_loop g m s).
  { intros H. by apply G. }
  clear. induction f as [|f IH]; intros [|g] [|c s] Hf Hg; simpl in *; try done; try lia.
  destruct (Ascii.eqb c "$" && _); [|f_equal; apply IH; lia].
  destruct (getShellName s) as [name w]. f_equal. pose proof (length_str_drop w s). apply IH; lia.
Qed.
Lemma expand_plain m a s : count_byte "$" a = O ->
  expand_loop (String.length (a +:+ s)) m (a +:+ s) = a +:+ expand_loop (String.length s) m s.
Proof.
  induction a as [|c a IH]; intros Ha; [done|]. simpl in *.
  destruct (Ascii.eqb c "$") eqn:E; [done|]. cbn [andb]. by rewrite IH.
Qed.
Lemma alphanums_app name rest :
  str_forallb ident_char name = true -> alphanums rest = EmptyString -> alphanums (name +:+ rest) = name.
Proof.
  intros Hn Hr. induction name as [|c name IH]; simpl in *; [done|]. apply andb_true_iff in Hn as [-> Hn]. by rewrite IH.
Qed.

Lemma expand_step m c s :
  expand_loop (String.length (String c s)) m (String c s)
  = if Ascii.eqb c "$" && negb (String.eqb s EmptyString) then
      let '(name, w) := getShellName s in
      (if String.eqb name EmptyString then (if (0 <? w)%nat then EmptyString else "$") else m name)
      +:+ expand_loop (String.length s) m (str_drop w s)
    else String c (expand_loop (String.length s) m s).
Proof. reflexivity. Qed.
Lemma str_drop_past a d r : str_drop (S (String.length a)) (a +:+ String d r) = r.
Proof. induction a as [|c a IH]; [done|exact IH]. Qed.
Lemma expand_dollar m x c name w : getShellName x = (String c name, w) ->
  expand_loop (String.length ("$" +:+ x)) m ("$" +:+ x)
  = m (String c name) +:+ expand_loop (String.length (str_drop w x)) m (str_drop w x).
Proof.
  intros E. destruct x as [|d x]; [done|]. cbn [String.append]. rewrite expand_step.
  change (Ascii.eqb "$" "$" && negb (String.eqb (String d x) EmptyString)) with true. cbv iota. rewrite E.
  cbv iota beta. cbn [String.eqb]. f_equal. apply expand_fuel, length_str_drop.
Qed.
Lemma name_not_special c : ident_char c = true -> is_digit c = false -> Ascii.eqb c "{" = false /\ isShellSpecialVar c = false.
Proof. destruct c as [[] [] [] [] [] [] [] []]; vm_compute; intros; split; congruence. Qed.
Lemma ident_not_brace c : ident_char c = true -> negb (Ascii.eqb c "}") = true.
Proof. destruct c as [[] [] [] [] [] [] [] []]; vm_compute; congruence. Qed.
Lemma bare_name c name rest : str_forallb ident_char (String c name) = true -> negb (is_digit c) = true ->
  alphanums rest = EmptyString ->
  getShellName (String c name +:+ rest) = (String c name, String.length (String c name)).
Proof.
  intros Hn H0 Hr. pose proof Hn as Hc. simpl in Hc. apply andb_true_iff in Hc as [Hc _]. apply negb_true_iff in H0.
  destruct (name_not_special c Hc H0) as [H1 H2]. unfold getShellName. cbn [String.append]. rewrite H1, H2.
  change (String c (name +:+ rest)) with (String c name +:+ rest). by rewrite alphanums_app.
Qed.
Lemma braced_name c name rest : str_forallb ident_char (String c name) = true -> negb (is_digit c) = true ->
  getShellName ("{" +:+ String c name +:+ "}" +:+ rest) = (String c name, S (S (String.length (String c name)))).
Proof.
  intros Hn H0. pose proof Hn as Hc. simpl in Hc. apply andb_true_iff in Hc as [Hc _]. apply negb_true_iff in H0.
  destruct (name_not_special c Hc H0) as [_ H2].
  assert (Hb : braced (String c name +:+ "}" +:+ rest) = (String c name, S (S (String.length (String c name))))).
  { unfold braced. change ("}" +:+ rest) with (String "}" rest).
    rewrite index_byte_app by (eapply str_forallb_impl; [|exact Hn]; apply ident_not_brace).
    rewrite <- (str_take_app (String c name) (String "}" rest)) at 2. reflexivity. }
  rewrite <- Hb. unfold getShellName. cbn [String.append]. rewrite Ascii.eqb_refl. rewrite H2.
  by destruct name as [|d name]; [|destruct d as [[] [] [] [] [] [] [] []]].
Qed.

(** the variables of a connection setting.  Text without a dollar stays as it is, and both
    [${NAME}] and a bare [$NAME] are replaced by the variable, or by nothing when it is not set;
    the text a variable holds is not looked at again. *)
Theorem connection_variables a name rest :
  count_byte "$" a = O -> str_forallb ident_char name = true ->
  match name with String c _ => negb (is_digit c) | EmptyString => false end = true ->
  ExpandEnv env a = a
  /\ ExpandEnv env (a +:+ "${" +:+ name +:+ "}" +:+ rest)
     = a +:+ default EmptyString (LookupEnv env name) +:+ ExpandEnv env rest
  /\ (alphanums rest = EmptyString ->
      ExpandEnv env (a +:+ "$" +:+ name +:+ rest)
      = a +:+ default EmptyString (LookupEnv env name) +:+ ExpandEnv env rest).
Proof.
  intros Ha Hn H0. destruct name as [|c name]; [done|]. unfold ExpandEnv. split; [|split; [|intros Hr]].
  - rewrite <- (str_app_nil_r a) at 1 2. rewrite expand_plain by done. apply str_app_nil_r.
  - rewrite expand_plain by done. f_equal.
    etrans; [exact (expand_dollar _ _ _ _ _ (braced_name c name rest Hn H0))|].
    change (str_drop _ ("{" +:+ ?x)) with (str_drop (S (String.length (String c name))) x).
    change ("}" +:+ rest) with (String "}" rest). by rewrite str_drop_past.
  - rewrite expand_plain by done. f_equal.
    etrans; [exact (expand_dollar _ _ _ _ _ (bare_name c name rest Hn H0 Hr))|].
    f_equal. by rewrite str_drop_app.
Qed.
End Facts.
