(* ===== verification/ConfigLoad.v ===== *)
(** * internal/config: where the settings come from

    [LoadConfig] of config.go: the defaults, the configuration file and the environment in a
    Viper instance, the expansion of variables, the decoding into the record of Config and
    what follows it.  Viper is a class: its state is seen as the layers its documentation
    describes, and the laws say what each call does to them and how a key is looked up.
    Decoding goes by the [mapstructure] tags of the records, the table [config_tags]. *)
From S2P Require Import Prelude GoStrings Values GoConv FuncMap DataSource.
From S2P Require Import TemplateParams TemplateLoader MemoryCache Middleware Config.

(** ** Viper *)

(** The layers of a Viper instance, by lower-case dotted key.  A file of nested maps has the
    keys of its leaves; a list is a leaf. *)
Record Layers := {
  overrides : gmap string GoVal; bound : gmap string (list string); file : gmap string GoVal;
  defaults : gmap string GoVal; configFile : string; envPrefix : string; automaticEnv : bool;
  envKeyReplacer : string -> string;
}.
Definition no_layers : Layers := {|
  overrides := ∅; bound := ∅; file := ∅; defaults := ∅; configFile := EmptyString; envPrefix := EmptyString;
  automaticEnv := false; envKeyReplacer := id;
|}.
Definition with_override (k : string) (v : GoVal) (L : Layers) : Layers := {|
  overrides := <[k := v]> (overrides L); bound := bound L; file := file L; defaults := defaults L;
  configFile := configFile L; envPrefix := envPrefix L; automaticEnv := automaticEnv L; envKeyReplacer := envKeyReplacer L;
|}.
Definition with_bound (k : string) (names : list string) (L : Layers) : Layers := {|
  overrides := overrides L; bound := <[k := default [] (bound L !! k) ++ names]> (bound L); file := file L; defaults := defaults L;
  configFile := configFile L; envPrefix := envPrefix L; automaticEnv := automaticEnv L; envKeyReplacer := envKeyReplacer L;
|}.
Definition with_file (f : gmap string GoVal) (L : Layers) : Layers := {|
  overrides := overrides L; bound := bound L; file := f; defaults := defaults L;
  configFile := configFile L; envPrefix := envPrefix L; automaticEnv := automaticEnv L; envKeyReplacer := envKeyReplacer L;
|}.
Definition with_default (k : string) (v : GoVal) (L : Layers) : Layers := {|
  overrides := overrides L; bound := bound L; file := file L; defaults := <[k := v]> (defaults L);
  configFile := configFile L; envPrefix := envPrefix L; automaticEnv := automaticEnv L; envKeyReplacer := envKeyReplacer L;
|}.
Definition with_env (path prefix : string) (auto : bool) (replacer : string -> string) (L : Layers) : Layers := {|
  overrides := overrides L; bound := bound L; file := file L; defaults := defaults L;
  configFile := path; envPrefix := prefix; automaticEnv := auto; envKeyReplacer := replacer;
|}.

Definition known (L : Layers) : gset string := dom (overrides L) ∪ dom (bound L) ∪ dom (file L) ∪ dom (defaults L).
(** The keys are lower-case, and none of them is inside another one. *)
Definition lower_key (k : string) : Prop := str_map lower_byte k = k.
Definition leaf_keys (ks : gset string) : Prop :=
  (forall k, k ∈ ks -> lower_key k) /\ (forall k rest, k ∈ ks -> k +:+ "." +:+ rest ∉ ks).
#[export] Instance lower_key_dec k : Decision (lower_key k).
Proof. unfold lower_key. apply _. Defined.

Section Lookup.
Context {UT : UnicodeTables}.
Variable env : Env.

(** The first of some environment variables that is set and not empty. *)
Fixpoint first_set (names : list string) : option string :=
  match names with
  | [] => None
  | name :: rest =>
      match LookupEnv env name with
      | Some (String c s) => Some (String c s)
      | _ => first_set rest
      end
  end.
Definition env_names (L : Layers) (k : string) : list string :=
  (if automaticEnv L then [envKeyReplacer L (to_upper (envPrefix L +:+ "_" +:+ k))] else [])
  ++ map (envKeyReplacer L) (default [] (bound L !! k)).
Definition not_nil (v : option GoVal) : option GoVal := match v with Some VNil => None | _ => v end.
Definition or_else {A} (a b : option A) : option A := match a with Some _ => a | None => b end.
(** The documented precedence: explicit calls to Set, the environment, the file, the defaults. *)
Definition find (L : Layers) (k : string) : option GoVal :=
  or_else (not_nil (overrides L !! k))
    (or_else (VString <$> first_set (env_names L k)) (or_else (not_nil (file L !! k)) (not_nil (defaults L !! k)))).
End Lookup.

Class Viper (V : Type) := {
  New : V;
  SetDefault : string -> GoVal -> V -> V;
  SetConfigFile : string -> V -> V;
  SetEnvPrefix : string -> V -> V;
  AutomaticEnv : V -> V;
  SetEnvKeyReplacer : (string -> string) -> V -> V;
  BindEnv : string -> list string -> V -> V;
  ReadInConfig : Env -> V -> result V;
  AllKeys : V -> list string;
  Get : Env -> V -> string -> GoVal;
  Set_ : string -> GoVal -> V -> V;
  Unmarshal : Env -> V -> result Config;
  (** what its documentation says a state holds, and what a file holds *)
  layers : V -> Layers;
  parse_file : Env -> string -> result (gmap string GoVal);
}.

(** ** The [mapstructure] tags *)

(** A field of the configuration, by its Go type; lists of structs and maps are left out. *)
Inductive Field :=
  | FString (f : Config -> string) | FInt (f : Config -> Z) | FBool (f : Config -> bool) | FDuration (f : Config -> Z)
  | FFloat (f : Config -> spec_float) | FStrings (f : Config -> list string).
(** What a field holds when it is decoded from a value, by the documentation of mapstructure:
    a value of its own type as it is; weakly typed, the numbers and booleans converted; a text
    parsed as its type is ([StringToTimeDurationHookFunc] for durations, a list split at the
    commas), so that decoding has failed when it does not parse.  An integer is given here by
    its decimal text; other notations of [strconv.ParseInt] are left open. *)
Definition text_bool (s : string) : option bool := if String.eqb s EmptyString then Some false else parse_bool s.
Definition text_float `{FloatText} (s : string) : option spec_float := parse_float (if String.eqb s EmptyString then "0" else s).
Definition text_list (s : string) : list string := if String.eqb s EmptyString then [] else split_byte "," s.
Definition holds `{FloatText} (fld : Field) (cfg : Config) (v : GoVal) : Prop :=
  match fld, v with
  | FString f, VString s => f cfg = s
  | FString f, VInt z => f cfg = itoa z
  | FString f, VBool b => f cfg = if b then "1" else "0"
  | FInt f, VInt z => f cfg = z
  | FInt f, VBool b => f cfg = if b then 1 else 0
  | FInt f, VString s => (s = EmptyString -> f cfg = 0) /\ forall z, in_int64 z -> s = itoa z -> f cfg = z
  | FBool f, VBool b => f cfg = b
  | FBool f, VInt z => f cfg = negb (z =? 0)
  | FBool f, VString s => text_bool s = Some (f cfg)
  | FDuration f, (VDuration z | VInt z) => f cfg = z
  | FDuration f, VString s => parse_duration s = Some (f cfg)
  | FFloat f, VFloat64 x => f cfg = x
  | FFloat f, VInt z => f cfg = float_of_int z
  | FFloat f, VString s => text_float s = Some (f cfg)
  | FStrings f, VSlice l => forall ss, l = map VString ss -> f cfg = ss
  | FStrings f, VString s => f cfg = text_list s
  | _, _ => True
  end.
Definition zero_value (fld : Field) (cfg : Config) : Prop :=
  match fld with
  | FString f => f cfg = EmptyString
  | FInt f | FDuration f => f cfg = 0
  | FBool f => f cfg = false
  | FFloat f => f cfg = S754_zero false
  | FStrings f => f cfg = []
  end.

Definition server_tags : list (string * Field) :=
  [("server.port", FInt (fun c => Port (Server c))); ("server.mode", FString (fun c => ServerMode (Server c)));
   ("server.max_request_body_size", FString (fun c => MaxRequestBodySize (Server c)));
   ("server.request_timeout", FDuration (fun c => RequestTimeout (Server c)));
   ("server.read_header_timeout", FDuration (fun c => ReadHeaderTimeout (Server c)));
   ("server.read_timeout", FDuration (fun c => ReadTimeout (Server c)));
   ("server.write_timeout", FDuration (fun c => WriteTimeout (Server c)));
   ("server.idle_timeout", FDuration (fun c => IdleTimeout (Server c)));
   ("server.max_concurrent_requests", FInt (fun c => MaxConcurrentRequests (Server c)));
   ("server.max_batch_queries", FInt (fun c => MaxBatchQueries (Server c)));
   ("server.allow_get_queries", FBool (fun c => AllowGetQueries (Server c)));
   ("shutdown.max_wait_time", FDuration MaxWaitTime)].
Definition graphql_tags : list (string * Field) :=
  [("graphql.introspection_enabled", FBool (fun c => IntrospectionEnabled (GraphQL c)));
   ("graphql.max_query_complexity", FInt (fun c => MaxQueryComplexity (GraphQL c)));
   ("graphql.max_query_depth", FInt (fun c => MaxQueryDepth (GraphQL c)));
   ("graphql.max_result_rows", FInt (fun c => MaxResultRows (GraphQL c)));
   ("graphql.apq_enabled", FBool (fun c => APQEnabled (GraphQL c)))].
Definition auth_tags : list (string * Field) :=
  [("auth.method", FString (fun c => AuthMethod (Auth c)));
   ("auth.jwt.algorithm", FString (fun c => Algorithm (JWT (Auth c))));
   ("auth.jwt.secret", FString (fun c => Secret (JWT (Auth c))));
   ("auth.jwt.public_key_file", FString (fun c => PublicKeyFile (JWT (Auth c))));
   ("auth.jwt.issuer", FString (fun c => Issuer (JWT (Auth c))));
   ("auth.trusted_proxies", FStrings (fun c => TrustedProxies (Auth c)));
   ("auth_failure.enabled", FBool (fun c => AuthFailureEnabled (AuthFailure c)));
   ("auth_failure.threshold", FInt (fun c => Threshold (AuthFailure c)));
   ("auth_failure.window", FDuration (fun c => Window (AuthFailure c)));
   ("auth_failure.ban_duration", FDuration (fun c => BanDuration (AuthFailure c)))].
Definition cache_tags : list (string * Field) :=
  [("cache.enabled", FBool (fun c => CacheEnabled (Cache c))); ("cache.backend", FString (fun c => Backend (Cache c)));
   ("cache.default_ttl", FDuration (fun c => DefaultTTL (Cache c)));
   ("cache.empty_result_ttl", FDuration (fun c => EmptyResultTTL (Cache c)));
   ("cache.ttl_jitter_percent", FInt (fun c => TTLJitterPercent (Cache c)));
   ("cache.memory.max_entries", FInt (fun c => MaxEntries (Memory (Cache c))));
   ("cache.memory.max_memory_size", FString (fun c => MaxMemorySize (Memory (Cache c))));
   ("cache.redis.addr", FString (fun c => Addr (CacheRedis (Cache c))));
   ("cache.redis.password", FString (fun c => Password (CacheRedis (Cache c))));
   ("cache.redis.db", FInt (fun c => DB (CacheRedis (Cache c))))].
Definition rate_limit_tags : list (string * Field) :=
  [("rate_limit.mode", FString (fun c => RateLimitMode (RateLimit c)));
   ("rate_limit.requests_per_window", FInt (fun c => RequestsPerWindow (RateLimit c)));
   ("rate_limit.window_size", FDuration (fun c => WindowSize (RateLimit c)));
   ("rate_limit.redis.addr", FString (fun c => Addr (Redis (RateLimit c))));
   ("rate_limit.redis.password", FString (fun c => Password (Redis (RateLimit c))));
   ("rate_limit.redis.db", FInt (fun c => DB (Redis (RateLimit c))))].
Definition http_tags : list (string * Field) :=
  [("cors.enabled", FBool (fun c => CORSEnabled (CORS c))); ("cors.allowed_origins", FStrings (fun c => AllowedOrigins (CORS c)));
   ("cors.allowed_methods", FStrings (fun c => AllowedMethods (CORS c)));
   ("cors.allowed_headers", FStrings (fun c => AllowedHeaders (CORS c)));
   ("compression.enabled", FBool (fun c => CompressionEnabled (Compression c)));
   ("compression.min_size", FString (fun c => MinSize (Compression c)))].
Definition log_tags : list (string * Field) :=
  [("logging.level", FString (fun c => Level (Logging c))); ("logging.format", FString (fun c => Format (Logging c)));
   ("logging.audit.enabled", FBool (fun c => AuditEnabled (Audit (Logging c))));
   ("logging.audit.output", FString (fun c => AuditOutput (Audit (Logging c))));
   ("logging.audit.file_path", FString (fun c => AuditFilePath (Audit (Logging c))));
   ("sanitization.enabled", FBool (fun c => SanitizationEnabled (Sanitization c)));
   ("tracing.enabled", FBool (fun c => TracingEnabled (Tracing c)));
   ("tracing.sampling_rate", FFloat (fun c => SamplingRate (Tracing c)));
   ("tracing.otlp.endpoint", FString (fun c => Endpoint (OTLP (Tracing c))));
   ("tracing.otlp.protocol", FString (fun c => Protocol (OTLP (Tracing c))))].
Definition resilience_tags : list (string * Field) :=
  [("retry.max_retries", FInt (fun c => CfgMaxRetries (Retry c)));
   ("retry.retry_interval", FDuration (fun c => CfgRetryInterval (Retry c)));
   ("retry.backoff", FString (fun c => Backoff (Retry c)));
   ("circuit_breaker.failure_threshold", FInt (fun c => CfgFailureThreshold (CircuitBreaker c)));
   ("circuit_breaker.open_duration", FDuration (fun c => CfgOpenDuration (CircuitBreaker c)));
   ("circuit_breaker.half_open_max_requests", FInt (fun c => CfgHalfOpenMaxRequests (CircuitBreaker c)));
   ("circuit_breaker.success_threshold", FInt (fun c => CfgSuccessThreshold (CircuitBreaker c)))].
Definition template_tags : list (string * Field) :=
  [("sql_templates.enabled", FBool (fun c => TemplatesEnabled (Templates c)));
   ("sql_templates.datasource_name", FString (fun c => TemplatesDatasource (Templates c)));
   ("sql_templates.base_dir", FString (fun c => BaseDir (SQLTemplates (Templates c))));
   ("sql_templates.shared_dir", FString (fun c => SharedDir (SQLTemplates (Templates c))));
   ("sql_templates.render_timeout", FDuration (fun c => RenderTimeout (SQLTemplates (Templates c))));
   ("sql_templates.max_rendered_sql_length", FInt (fun c => MaxRenderedSQLLen (SQLTemplates (Templates c))));
   ("sql_templates.max_concurrent_queries", FInt (fun c => MaxConcurrentQueries (SQLTemplates (Templates c))))].
Definition mutation_tags : list (string * Field) :=
  [("mutations.enabled", FBool (fun c => MutationsEnabled (Mutations c)));
   ("mutations.datasource_name", FString (fun c => MutDatasourceName (Mutations c)));
   ("mutations.max_affected_rows", FInt (fun c => MaxAffectedRows (Mutations c)));
   ("mutations.max_batch_size", FInt (fun c => MaxBatchSize (Mutations c)));
   ("mutations.max_sql_length", FInt (fun c => MaxSQLLength (Mutations c)));
   ("mutations.rate_limit.requests_per_window", FInt (fun c => MutRequestsPerWindow (MutRateLimit (Mutations c))));
   ("mutations.rate_limit.window_size", FDuration (fun c => MutWindowSize (MutRateLimit (Mutations c))))].
Definition config_tags : list (string * Field) :=
  server_tags ++ graphql_tags ++ auth_tags ++ cache_tags ++ rate_limit_tags ++ http_tags ++ log_tags
  ++ resilience_tags ++ template_tags ++ mutation_tags.

(** ** [setDefaults] and [LoadConfig] *)

Definition default_settings : list (string * GoVal) :=
  [("server.port", VInt 8080); ("server.mode", VString "production"); ("server.max_request_body_size", VString "1MB");
   ("server.request_timeout", VDuration (30 * second)); ("server.read_header_timeout", VDuration (10 * second));
   ("server.read_timeout", VDuration (30 * second)); ("server.write_timeout", VDuration (60 * second));
   ("server.idle_timeout", VDuration (120 * second)); ("server.max_concurrent_requests", VInt 0);
   ("server.max_batch_queries", VInt 10); ("server.allow_get_queries", VBool false);
   ("graphql.introspection_enabled", VBool false); ("graphql.max_query_complexity", VInt 100);
   ("graphql.max_query_depth", VInt 10); ("graphql.max_result_rows", VInt 10000); ("graphql.apq_enabled", VBool false);
   ("cache.enabled", VBool false); ("cache.backend", VString "memory"); ("cache.default_ttl", VDuration (60 * second));
   ("cache.empty_result_ttl", VDuration (30 * second)); ("cache.ttl_jitter_percent", VInt 10);
   ("cache.memory.max_entries", VInt 10000); ("cache.memory.max_memory_size", VString "256MB");
   ("rate_limit.mode", VString "local"); ("rate_limit.requests_per_window", VInt 100);
   ("rate_limit.window_size", VDuration (60 * second));
   ("tracing.enabled", VBool false); ("tracing.sampling_rate", VFloat64 (float_of_int 1));
   ("retry.max_retries", VInt 3); ("retry.retry_interval", VDuration (100 * millisecond)); ("retry.backoff", VString "exponential");
   ("circuit_breaker.failure_threshold", VInt 5); ("circuit_breaker.open_duration", VDuration (30 * second));
   ("circuit_breaker.half_open_max_requests", VInt 1); ("circuit_breaker.success_threshold", VInt 2);
   ("auth_failure.enabled", VBool false); ("auth_failure.threshold", VInt 10); ("auth_failure.window", VDuration (5 * minute));
   ("auth_failure.ban_duration", VDuration (15 * minute));
   ("logging.level", VString "info"); ("logging.format", VString "json"); ("cors.enabled", VBool false);
   ("compression.enabled", VBool false); ("compression.min_size", VString "1KB"); ("sanitization.enabled", VBool false);
   ("shutdown.max_wait_time", VDuration (30 * second));
   ("sql_templates.enabled", VBool false); ("sql_templates.datasource_name", VString EmptyString);
   ("sql_templates.base_dir", VString "./templates"); ("sql_templates.render_timeout", VDuration (5 * second));
   ("sql_templates.max_rendered_sql_length", VInt 65536); ("sql_templates.max_concurrent_queries", VInt 10);
   ("mutations.enabled", VBool false); ("mutations.datasource_name", VString EmptyString);
   ("mutations.max_affected_rows", VInt 1000); ("mutations.max_batch_size", VInt 500);
   ("mutations.max_sql_length", VInt 1048576); ("mutations.rate_limit.requests_per_window", VInt 20);
   ("mutations.rate_limit.window_size", VDuration (60 * second))].
Definition bound_settings : list (string * string) :=
  [("auth.method", "GRAPHQL_AUTH_METHOD"); ("server.mode", "GRAPHQL_SERVER_MODE");
   ("graphql.introspection_enabled", "GRAPHQL_GRAPHQL_INTROSPECTION_ENABLED")].
Definition underscoreReplacer (s : string) : string :=
  str_map (fun c => if Ascii.eqb c "." || Ascii.eqb c "-" then "_"%char else c) s.

Section Load.
Context {V : Type} {VP : Viper V}.
Variable env : Env.

Definition set_defaults (v : V) : V := foldl (fun v kv => SetDefault kv.1 kv.2 v) v default_settings.
Definition new_viper (configPath : string) : V :=
  let v := set_defaults New in
  let v := if String.eqb configPath EmptyString then v else SetConfigFile configPath v in
  let v := SetEnvKeyReplacer underscoreReplacer (AutomaticEnv (SetEnvPrefix "GRAPHQL" v)) in
  foldl (fun v kn => BindEnv kn.1 [kn.2] v) v bound_settings.
(** One key of the loop that expands variables. *)
Definition expand_key (v : V) (key : string) : V :=
  match Get env v key with
  | VString strVal =>
      let expanded := ExpandEnv env strVal in
      if String.eqb expanded strVal then v else Set_ key (VString expanded) v
  | _ => v
  end.
Definition read_config (configPath : string) (v : V) : result V :=
  if String.eqb configPath EmptyString then Ok v
  else match ReadInConfig env v with
       | Err err => Err (Wrap (Sprintf "failed to read config file: %w" [AErr err]) err)
       | Ok v => Ok v
       end.
Definition LoadConfig (configPath : string) : result Config :=
  v ← read_config configPath (new_viper configPath);
  let v := foldl expand_key v (AllKeys v) in
  match Unmarshal env v with
  | Err err => Err (Wrap (Sprintf "failed to unmarshal config: %w" [AErr err]) err)
  | Ok cfg => Ok (expand_config env cfg)
  end.
End Load.

(** ** The documented behaviour of Viper *)

Class ViperLaws {UT : UnicodeTables} {FT : FloatText} (V : Type) {VP : Viper V} := {
  layers_New : layers New = no_layers;
  layers_SetDefault k v s : lower_key k -> layers (SetDefault k v s) = with_default k v (layers s);
  layers_SetConfigFile p s :
    layers (SetConfigFile p s)
    = with_env p (envPrefix (layers s)) (automaticEnv (layers s)) (envKeyReplacer (layers s)) (layers s);
  layers_SetEnvPrefix p s :
    layers (SetEnvPrefix p s)
    = with_env (configFile (layers s)) p (automaticEnv (layers s)) (envKeyReplacer (layers s)) (layers s);
  layers_AutomaticEnv s :
    layers (AutomaticEnv s)
    = with_env (configFile (layers s)) (envPrefix (layers s)) true (envKeyReplacer (layers s)) (layers s);
  layers_SetEnvKeyReplacer r s :
    layers (SetEnvKeyReplacer r s)
    = with_env (configFile (layers s)) (envPrefix (layers s)) (automaticEnv (layers s)) r (layers s);
  layers_BindEnv k names s : lower_key k -> layers (BindEnv k names s) = with_bound k names (layers s);
  layers_Set k v s : lower_key k -> layers (Set_ k v s) = with_override k v (layers s);
  ReadInConfig_spec env s :
    match ReadInConfig env s with
    | Ok s' => exists f, parse_file env (configFile (layers s)) = Ok f /\ layers s' = with_file f (layers s)
    | Err e => parse_file env (configFile (layers s)) = Err e
    end;
  AllKeys_spec s : leaf_keys (known (layers s)) ->
    NoDup (AllKeys s) /\ forall k, k ∈ AllKeys s <-> k ∈ known (layers s);
  Get_spec env s k : leaf_keys (known (layers s)) -> k ∈ known (layers s) ->
    Get env s k = default VNil (find env (layers s) k);
  (** decoding takes the known keys, by the tags of the fields *)
  Unmarshal_spec env s cfg k fld : leaf_keys (known (layers s)) -> Unmarshal env s = Ok cfg -> (k, fld) ∈ config_tags ->
    match find env (layers s) k with
    | Some v => if bool_decide (k ∈ known (layers s)) then holds fld cfg v else zero_value fld cfg
    | None => zero_value fld cfg
    end;
}.

(** ** Where a setting comes from *)

(** The specification: the setting of a key as the environment, the file and the defaults
    determine it, variables replaced.  A key that is neither in the file nor in the code has
    no setting, whatever the environment holds. *)
Definition code_keys : list string := map fst default_settings ++ map fst bound_settings.
Definition settings_env (k : string) : list string :=
  underscoreReplacer (str_map upper_byte ("GRAPHQL_" +:+ k))
  :: match assoc k bound_settings with Some name => [underscoreReplacer name] | None => [] end.
Definition setting (env : Env) (f : gmap string GoVal) (k : string) : option GoVal :=
  if bool_decide (k ∈ dom f) || bool_decide (k ∈ code_keys) then
    expand_value env <$>
    or_else (VString <$> first_set env (settings_env k)) (or_else (not_nil (f !! k)) (assoc k default_settings))
  else None.
(** What the record has for it. *)
Definition has_setting `{FloatText} (env : Env) (f : gmap string GoVal) (cfg : Config) (k : string) (fld : Field) : Prop :=
  match setting env f k with Some v => holds fld cfg v | None => zero_value fld cfg end.
Definition file_keys_ok (f : gmap string GoVal) : Prop := leaf_keys (dom f ∪ list_to_set code_keys).

(** ** Theorems *)

Section Facts.
Context {UT : UnicodeTables} {FT : FloatText} {V : Type} {VP : Viper V} {VL : ViperLaws V}.
Variable env : Env.
#[local] Set Default Proof Using "Type".

Lemma layers_defaults l s : Forall (fun kv => lower_key kv.1) l ->
  layers (foldl (fun v kv => SetDefault kv.1 kv.2 v) s l) = foldl (fun L kv => with_default kv.1 kv.2 L) (layers s) l.
Proof using VL.
  intros H. revert s. induction H as [|[k v] l Hk H IH]; intros s; [done|]. cbn [foldl]. rewrite IH.
  f_equal. by apply layers_SetDefault.
Qed.
Lemma layers_binds (l : list (string * string)) s : Forall (fun kn => lower_key kn.1) l ->
  layers (foldl (fun v kn => BindEnv kn.1 [kn.2] v) s l) = foldl (fun L kn => with_bound kn.1 [kn.2] L) (layers s) l.
Proof using VL.
  intros H. revert s. induction H as [|[k v] l Hk H IH]; intros s; [done|]. cbn [foldl]. rewrite IH.
  f_equal. by apply layers_BindEnv.
Qed.
(** The layers before the file is read. *)
Definition default_layers : Layers := foldl (fun L kv => with_default kv.1 kv.2 L) no_layers default_settings.
Definition start_layers (path : string) : Layers :=
  foldl (fun L kn => with_bound kn.1 [kn.2] L) (with_env path "GRAPHQL" true underscoreReplacer default_layers) bound_settings.
Lemma default_keys_lower : Forall (fun kv => lower_key kv.1) default_settings.
Proof. repeat constructor. Qed.
Lemma bound_keys_lower : Forall (fun kn => lower_key kn.1) bound_settings.
Proof. repeat constructor. Qed.
Lemma with_env_twice p p' q q' a a' r r' L : with_env p q a r (with_env p' q' a' r' L) = with_env p q a r L.
Proof. reflexivity. Qed.
Lemma layers_new_viper path : layers (new_viper (V := V) path) = start_layers path.
Proof using VL.
  unfold new_viper, start_layers, set_defaults. rewrite (layers_binds _ _ bound_keys_lower). f_equal.
  rewrite layers_SetEnvKeyReplacer, layers_AutomaticEnv, layers_SetEnvPrefix, !with_env_twice.
  cbn [with_env configFile envPrefix automaticEnv].
  assert (E : layers (foldl (fun v kv => SetDefault kv.1 kv.2 v) (New (V := V)) default_settings) = default_layers)
    by (by rewrite (layers_defaults _ _ default_keys_lower), layers_New).
  destruct (String.eqb_spec path EmptyString) as [->|_]; [|rewrite layers_SetConfigFile, with_env_twice]; rewrite E; reflexivity.
Qed.

(** *** The layers, key by key *)

Lemma defaults_at l k L : NoDup (map fst l) ->
  defaults (foldl (fun L kv => with_default kv.1 kv.2 L) L l) !! k = or_else (assoc k l) (defaults L !! k).
Proof.
  revert L. induction l as [|[k' v] l IH]; intros L; [done|]. cbn [map fst foldl]. intros [Hk Hnd]%NoDup_cons.
  rewrite IH by done. cbn [with_default defaults assoc fst snd]. destruct (decide (k' = k)) as [->|Hne].
  - rewrite lookup_insert_eq. destruct (assoc k l) eqn:E; [|done].
    exfalso. apply Hk. apply assoc_elem in E. apply list_elem_of_fmap. by exists (k, g).
  - by rewrite lookup_insert_ne.
Qed.
Lemma bound_at (l : list (string * string)) k L : NoDup (map fst l) ->
  bound (foldl (fun L kn => with_bound kn.1 [kn.2] L) L l) !! k
  = match assoc k l with Some n => Some (default [] (bound L !! k) ++ [n]) | None => bound L !! k end.
Proof.
  revert L. induction l as [|[k' v] l IH]; intros L; [done|]. cbn [map fst foldl]. intros [Hk Hnd]%NoDup_cons.
  rewrite IH by done. cbn [with_bound bound assoc fst snd]. destruct (decide (k' = k)) as [->|Hne].
  - rewrite lookup_insert_eq. destruct (assoc k l) eqn:E; [|done].
    exfalso. apply Hk. apply assoc_elem in E. apply list_elem_of_fmap. by exists (k, s).
  - by rewrite lookup_insert_ne.
Qed.
Lemma default_keys_distinct : NoDup (map fst default_settings).
Proof. decided. Qed.
Lemma bound_keys_distinct : NoDup (map fst bound_settings).
Proof. decided. Qed.
Lemma defaults_not_nil k v : assoc k default_settings = Some v -> not_nil (Some v) = Some v.
Proof.
  intros H%assoc_elem.
  assert (G : Forall (fun kv => not_nil (Some kv.2) = Some kv.2) default_settings) by (repeat constructor).
  rewrite Forall_forall in G. exact (G _ H).
Qed.
Lemma with_bound_keeps (l : list (string * string)) L :
  let L' := foldl (fun L kn => with_bound kn.1 [kn.2] L) L l in
  overrides L' = overrides L /\ defaults L' = defaults L /\ automaticEnv L' = automaticEnv L
  /\ envPrefix L' = envPrefix L /\ envKeyReplacer L' = envKeyReplacer L.
Proof.
  revert L. induction l as [|kn l IH]; intros L; [done|]. cbn [foldl].
  destruct (IH (with_bound kn.1 [kn.2] L)) as (-> & -> & -> & -> & ->). done.
Qed.
Lemma with_default_keeps (l : list (string * GoVal)) L :
  let L' := foldl (fun L kv => with_default kv.1 kv.2 L) L l in overrides L' = overrides L /\ bound L' = bound L.
Proof.
  revert L. induction l as [|kv l IH]; intros L; [done|]. cbn [foldl].
  destruct (IH (with_default kv.1 kv.2 L)) as (-> & ->). done.
Qed.

(** The layers when the file has been read. *)
Definition loaded_layers (path : string) (f : gmap string GoVal) : Layers := with_file f (start_layers path).
Lemma loaded_at path f k :
  let L := loaded_layers path f in
  overrides L !! k = None /\ file L !! k = f !! k /\ defaults L !! k = assoc k default_settings
  /\ bound L !! k = (fun n => [n]) <$> assoc k bound_settings
  /\ automaticEnv L = true /\ envPrefix L = "GRAPHQL" /\ envKeyReplacer L = underscoreReplacer.
Proof.
  unfold loaded_layers, start_layers. cbn [with_file overrides bound file defaults automaticEnv envPrefix envKeyReplacer].
  destruct (with_bound_keeps bound_settings (with_env path "GRAPHQL" true underscoreReplacer default_layers))
    as (-> & -> & -> & -> & ->).
  rewrite bound_at by exact bound_keys_distinct.
  cbn [with_env overrides bound defaults automaticEnv envPrefix envKeyReplacer]. unfold default_layers.
  destruct (with_default_keeps default_settings no_layers) as (-> & ->).
  rewrite defaults_at by exact default_keys_distinct. cbn [no_layers overrides bound defaults]. rewrite !lookup_empty.
  repeat (split; [done|]). split; [by destruct (assoc k default_settings)|]. split; [by destruct (assoc k bound_settings)|]. done.
Qed.
Lemma elem_of_code_keys k : k ∈ code_keys <-> is_Some (assoc k default_settings) \/ is_Some (assoc k bound_settings).
Proof.
  unfold code_keys. rewrite elem_of_app.
  by rewrite !assoc_is_Some.
Qed.
Lemma loaded_known path f : known (loaded_layers path f) = dom f ∪ list_to_set code_keys.
Proof.
  apply leibniz_equiv. intros k. unfold known. rewrite !elem_of_union, !elem_of_dom, elem_of_list_to_set, elem_of_code_keys.
  destruct (loaded_at path f k) as (-> & -> & -> & -> & _). rewrite fmap_is_Some, <- not_eq_None_Some. tauto.
Qed.
Lemma loaded_find path f k : str_forallb is_ascii_byte k = true ->
  find env (loaded_layers path f) k
  = or_else (VString <$> first_set env (settings_env k)) (or_else (not_nil (f !! k)) (assoc k default_settings)).
Proof.
  intros Ha. unfold find, env_names. destruct (loaded_at path f k) as (-> & -> & -> & -> & -> & -> & ->). cbn [not_nil or_else].
  assert (E : to_upper ("GRAPHQL" +:+ "_" +:+ k) = str_map upper_byte ("GRAPHQL_" +:+ k)) by (unfold to_upper; simpl; by rewrite Ha).
  rewrite E. unfold settings_env.
  assert (D : not_nil (assoc k default_settings) = assoc k default_settings).
  { destruct (assoc k default_settings) eqn:F; [|done]. by eapply defaults_not_nil. }
  rewrite D. by destruct (assoc k bound_settings).
Qed.

(** *** The expansion of variables *)

Lemma find_override L k v k' : not_nil (Some v) = Some v ->
  find env (with_override k v L) k' = if decide (k = k') then Some v else find env L k'.
Proof.
  intros Hv. unfold find, env_names. cbn [with_override overrides bound file defaults automaticEnv envPrefix envKeyReplacer].
  destruct (decide (k = k')) as [->|Hne]; [by rewrite lookup_insert_eq, Hv|by rewrite lookup_insert_ne].
Qed.
Lemma known_override L k v : k ∈ known L -> known (with_override k v L) = known L.
Proof.
  intros Hk. apply leibniz_equiv. intros k'. unfold known in *. cbn [with_override overrides bound file defaults].
  rewrite dom_insert_L, !elem_of_union, elem_of_singleton in *. split; [|tauto]. intros [[[[->|H]|H]|H]|H]; tauto.
Qed.
Lemma expand_key_step v k : leaf_keys (known (layers v)) -> k ∈ known (layers v) ->
  known (layers (expand_key env v k)) = known (layers v)
  /\ forall k', find env (layers (expand_key env v k)) k'
       = if decide (k = k') then expand_value env <$> find env (layers v) k' else find env (layers v) k'.
Proof using VL.
  intros Hl Hk. unfold expand_key. rewrite Get_spec by done.
  assert (Same : (forall w, find env (layers v) k = Some w -> expand_value env w = w) ->
    forall k', find env (layers v) k' = if decide (k = k') then expand_value env <$> find env (layers v) k' else find env (layers v) k').
  { intros H k'. destruct (decide (k = k')) as [<-|]; [|done]. destruct (find env (layers v) k) eqn:E; [|done].
    cbn. by rewrite (H _ eq_refl). }
  destruct (find env (layers v) k) as [w|] eqn:E; cbn [default]; [|split; [done|apply Same; by intros ? ?]].
  destruct w as [| | | | | |s| | | | | | | | | | |]; cbn [from_option id];
    try (split; [done|apply Same; by intros ? [= <-]]).
  destruct (String.eqb_spec (ExpandEnv env s) s) as [Es|_].
  { split; [done|apply Same]. intros ? [= <-]. cbn. by rewrite Es. }
  rewrite layers_Set by (by apply Hl). split; [by apply known_override|].
  intros k'. rewrite find_override by done. destruct (decide (k = k')) as [<-|]; [by rewrite E|done].
Qed.
Lemma expand_keys ks : forall v, NoDup ks -> leaf_keys (known (layers v)) -> (forall k, k ∈ ks -> k ∈ known (layers v)) ->
  known (layers (foldl (expand_key env) v ks)) = known (layers v)
  /\ forall k, find env (layers (foldl (expand_key env) v ks)) k
       = if bool_decide (k ∈ ks) then expand_value env <$> find env (layers v) k else find env (layers v) k.
Proof using VL.
  induction ks as [|k ks IH]; intros v Hnd Hl Hin; [done|]. apply NoDup_cons in Hnd as [Hk Hnd].
  destruct (expand_key_step v k Hl (Hin _ (list_elem_of_here _ _))) as [Ek Ef]. cbn [foldl].
  destruct (IH (expand_key env v k)) as [Fk Ff]; [done|by rewrite Ek|intros; rewrite Ek; by apply Hin, list_elem_of_further|].
  split; [by rewrite Fk|]. intros k'. rewrite Ff, Ef. destruct (decide (k = k')) as [<-|Hne].
  - rewrite (bool_decide_eq_false_2 (k ∈ ks)) by done. by rewrite bool_decide_eq_true_2 by apply list_elem_of_here.
  - by rewrite (bool_decide_ext (k' ∈ k :: ks) (k' ∈ ks)) by (rewrite elem_of_cons; naive_solver).
Qed.

(** *** The settings *)

Lemma read_config_layers path v : read_config env path (new_viper path) = Ok v ->
  exists f, layers v = loaded_layers path f
  /\ if String.eqb path EmptyString then f = ∅ else parse_file env path = Ok f.
Proof using VL.
  unfold read_config. destruct (String.eqb_spec path EmptyString) as [->|Hp].
  - intros [= <-]. exists ∅. split; [|done]. rewrite layers_new_viper. reflexivity.
  - pose proof (ReadInConfig_spec env (new_viper path)) as H. destruct (ReadInConfig _ _) as [v'|e]; [|done].
    intros [= <-]. destruct H as (f & Hf & E). exists f. rewrite layers_new_viper in E, Hf. split; [done|].
    revert Hf. unfold start_layers. generalize bound_settings. intros l.
    assert (G : forall L, configFile (foldl (fun L kn => with_bound kn.1 [kn.2] L) L l) = configFile L).
    { induction l as [|kn l IH]; intros L; [done|]. cbn [foldl]. by rewrite IH. }
    by rewrite G.
Qed.
Lemma tag_keys_ascii k fld : (k, fld) ∈ config_tags -> str_forallb is_ascii_byte k = true.
Proof.
  intros H. assert (G : Forall (fun kf => str_forallb is_ascii_byte kf.1 = true) config_tags) by (repeat constructor).
  rewrite Forall_forall in G. exact (G _ H).
Qed.
(** What follows the decoding leaves every tagged field but one as it is. *)
Lemma expand_config_keeps k fld cfg : (k, fld) ∈ config_tags -> k <> "auth.method" ->
  (forall v, holds fld (expand_config env cfg) v <-> holds fld cfg v)
  /\ (zero_value fld (expand_config env cfg) <-> zero_value fld cfg).
Proof.
  intros H Hk. assert (G : Forall (fun kf => kf.1 <> "auth.method" ->
    (forall v, holds kf.2 (expand_config env cfg) v <-> holds kf.2 cfg v)
    /\ (zero_value kf.2 (expand_config env cfg) <-> zero_value kf.2 cfg)) config_tags).
  { repeat (constructor; [intros Hne; first [done | by split; [intros []|]]|]). constructor. }
  rewrite Forall_forall in G. exact (G _ H Hk).
Qed.
End Facts.

Section Sources.
Context {UT : UnicodeTables} {FT : FloatText} {V : Type} {VP : Viper V} {VL : ViperLaws V}.
Variable env : Env.
#[local] Set Default Proof Using "Type".

(** What the configuration file holds; no path is no file. *)
Definition loaded_file (path : string) : result (gmap string GoVal) :=
  if String.eqb path EmptyString then Ok ∅ else parse_file (V := V) env path.
(** [none] is the same as no method. *)
Definition method_of (m : string) : string := if String.eqb m "none" then EmptyString else m.

Lemma decoded_settings path v cfg f : layers v = loaded_layers path f -> file_keys_ok f ->
  Unmarshal env (foldl (expand_key env) v (AllKeys v)) = Ok cfg ->
  forall k fld, (k, fld) ∈ config_tags -> has_setting env f cfg k fld.
Proof using VL.
  intros EL Hf Hu k fld Hk. pose proof (loaded_known path f) as Kn. rewrite <- EL in Kn.
  assert (Hl : leaf_keys (known (layers v))) by (by rewrite Kn). destruct (AllKeys_spec v Hl) as [Hnd Hall].
  destruct (expand_keys env _ v Hnd Hl (fun k => proj1 (Hall k))) as [Fk Ff].
  assert (Hl' : leaf_keys (known (layers (foldl (expand_key env) v (AllKeys v))))) by (by rewrite Fk).
  pose proof (Unmarshal_spec env _ cfg k fld Hl' Hu Hk) as H. rewrite Fk, Ff in H.
  rewrite (bool_decide_ext (k ∈ AllKeys v) _ (Hall k)) in H.
  unfold has_setting, setting. rewrite <- (loaded_find env path f k (tag_keys_ascii _ _ Hk)), <- EL.
  assert (E : bool_decide (k ∈ known (layers v)) = bool_decide (k ∈ dom f) || bool_decide (k ∈ code_keys)).
  { rewrite Kn, <- bool_decide_or. apply bool_decide_ext. by rewrite elem_of_union, elem_of_list_to_set. }
  rewrite E in H. destruct (_ || _); [by destruct (find env (layers v) k)|].
  by destruct (find env (layers v) k).
Qed.

End Sources.

(** ** The table of defaults and the record of Config agree *)

Definition empty_env : Env := {|
  ReadFile _ := None; pem_Decode _ := None; ParsePKIXPublicKey _ := None; LookupEnv _ := None;
|}.
Lemma setDefaults_settings {FT : FloatText} k fld : (k, fld) ∈ config_tags -> has_setting empty_env ∅ setDefaults k fld.
Proof.
  intros H. assert (G : Forall (fun kf => has_setting empty_env ∅ setDefaults kf.1 kf.2) config_tags)
    by (repeat (constructor; [vm_compute; reflexivity|]); constructor).
  rewrite Forall_forall in G. exact (G _ H).
Qed.

(** ** An implementation of the class *)

Section Demo.
Context {UT : UnicodeTables} {FT : FloatText}.

(** Decoding by the tags, from the settings of the keys. *)
Section Decode.
Variable get : string -> option GoVal.
Definition get_string (k : string) : string :=
  match get k with
  | Some (VString s) => s | Some (VInt z) => itoa z | Some (VBool b) => if b then "1" else "0" | _ => EmptyString
  end.
Definition get_int (k : string) : Z :=
  match get k with
  | Some (VInt z) => z | Some (VBool b) => if b then 1 else 0 | Some (VString s) => default 0 (parse_int s) | _ => 0
  end.
Definition get_bool (k : string) : bool :=
  match get k with
  | Some (VBool b) => b | Some (VInt z) => negb (z =? 0) | Some (VString s) => default false (text_bool s) | _ => false
  end.
Definition get_duration (k : string) : Z :=
  match get k with
  | Some (VDuration z | VInt z) => z | Some (VString s) => default 0 (parse_duration s) | _ => 0
  end.
Definition get_float (k : string) : spec_float :=
  match get k with
  | Some (VFloat64 x) => x | Some (VInt z) => float_of_int z
  | Some (VString s) => default (S754_zero false) (text_float s) | _ => S754_zero false
  end.
Definition get_strings (k : string) : list string :=
  match get k with
  | Some (VSlice l) => omap (fun v => match v with VString s => Some s | _ => None end) l
  | Some (VString s) => text_list s
  | _ => []
  end.
(** The texts of booleans, durations and numbers parse. *)
Definition decodes (kf : string * Field) : bool :=
  match kf.2, get kf.1 with
  | FBool _, Some (VString s) => bool_decide (is_Some (text_bool s))
  | FDuration _, Some (VString s) => bool_decide (is_Some (parse_duration s))
  | FFloat _, Some (VString s) => bool_decide (is_Some (text_float s))
  | _, _ => true
  end.
Definition decode_settings : Config := {|
  Server := {| Port := get_int "server.port"; ServerMode := get_string "server.mode";
               MaxRequestBodySize := get_string "server.max_request_body_size";
               RequestTimeout := get_duration "server.request_timeout"; ReadHeaderTimeout := get_duration "server.read_header_timeout";
               ReadTimeout := get_duration "server.read_timeout"; WriteTimeout := get_duration "server.write_timeout";
               IdleTimeout := get_duration "server.idle_timeout"; MaxConcurrentRequests := get_int "server.max_concurrent_requests";
               MaxBatchQueries := get_int "server.max_batch_queries"; AllowGetQueries := get_bool "server.allow_get_queries" |};
  GraphQL := {| IntrospectionEnabled := get_bool "graphql.introspection_enabled";
                MaxQueryComplexity := get_int "graphql.max_query_complexity"; MaxQueryDepth := get_int "graphql.max_query_depth";
                MaxResultRows := get_int "graphql.max_result_rows"; APQEnabled := get_bool "graphql.apq_enabled" |};
  Datasources := [];
  Auth := {| AuthMethod := get_string "auth.method";
             JWT := {| Algorithm := get_string "auth.jwt.algorithm"; Secret := get_string "auth.jwt.secret";
                       PublicKeyFile := get_string "auth.jwt.public_key_file"; Issuer := get_string "auth.jwt.issuer" |};
             APIKeys := []; TrustedProxies := get_strings "auth.trusted_proxies" |};
  RateLimit := {| RateLimitMode := get_string "rate_limit.mode"; RequestsPerWindow := get_int "rate_limit.requests_per_window";
                  WindowSize := get_duration "rate_limit.window_size";
                  Redis := {| Addr := get_string "rate_limit.redis.addr"; Password := get_string "rate_limit.redis.password";
                              DB := get_int "rate_limit.redis.db" |} |};
  Cache := {| CacheEnabled := get_bool "cache.enabled"; Backend := get_string "cache.backend";
              DefaultTTL := get_duration "cache.default_ttl"; EmptyResultTTL := get_duration "cache.empty_result_ttl";
              TTLJitterPercent := get_int "cache.ttl_jitter_percent";
              Memory := {| MaxEntries := get_int "cache.memory.max_entries";
                           MaxMemorySize := get_string "cache.memory.max_memory_size" |};
              CacheRedis := {| Addr := get_string "cache.redis.addr"; Password := get_string "cache.redis.password";
                               DB := get_int "cache.redis.db" |};
              PerDatasource := [] |};
  CORS := {| CORSEnabled := get_bool "cors.enabled"; AllowedOrigins := get_strings "cors.allowed_origins";
             AllowedMethods := get_strings "cors.allowed_methods"; AllowedHeaders := get_strings "cors.allowed_headers" |};
  Compression := {| CompressionEnabled := get_bool "compression.enabled"; MinSize := get_string "compression.min_size" |};
  Logging := {| Level := get_string "logging.level"; Format := get_string "logging.format";
                Audit := {| AuditEnabled := get_bool "logging.audit.enabled"; AuditOutput := get_string "logging.audit.output";
                            AuditFilePath := get_string "logging.audit.file_path" |} |};
  Sanitization := {| SanitizationEnabled := get_bool "sanitization.enabled"; Rules := [] |};
  Metrics := {| CustomLabels := [] |};
  Tracing := {| TracingEnabled := get_bool "tracing.enabled"; SamplingRate := get_float "tracing.sampling_rate";
                OTLP := {| Endpoint := get_string "tracing.otlp.endpoint"; Protocol := get_string "tracing.otlp.protocol" |} |};
  Retry := {| CfgMaxRetries := get_int "retry.max_retries"; CfgRetryInterval := get_duration "retry.retry_interval";
              Backoff := get_string "retry.backoff" |};
  CircuitBreaker := {| CfgFailureThreshold := get_int "circuit_breaker.failure_threshold";
                       CfgOpenDuration := get_duration "circuit_breaker.open_duration";
                       CfgHalfOpenMaxRequests := get_int "circuit_breaker.half_open_max_requests";
                       CfgSuccessThreshold := get_int "circuit_breaker.success_threshold" |};
  AuthFailure := {| AuthFailureEnabled := get_bool "auth_failure.enabled"; Threshold := get_int "auth_failure.threshold";
                    Window := get_duration "auth_failure.window"; BanDuration := get_duration "auth_failure.ban_duration" |};
  MaxWaitTime := get_duration "shutdown.max_wait_time";
  Templates := {| TemplatesEnabled := get_bool "sql_templates.enabled"; TemplatesDatasource := get_string "sql_templates.datasource_name";
                  SQLTemplates := {| BaseDir := get_string "sql_templates.base_dir"; SharedDir := get_string "sql_templates.shared_dir";
                                     RenderTimeout := get_duration "sql_templates.render_timeout";
                                     MaxRenderedSQLLen := get_int "sql_templates.max_rendered_sql_length";
                                     MaxConcurrentQueries := get_int "sql_templates.max_concurrent_queries";
                                     TemplateLoader.Templates := [] |} |};
  Mutations := {| MutationsEnabled := get_bool "mutations.enabled"; MutDatasourceName := get_string "mutations.datasource_name";
                  MaxAffectedRows := get_int "mutations.max_affected_rows"; MaxBatchSize := get_int "mutations.max_batch_size";
                  MaxSQLLength := get_int "mutations.max_sql_length";
                  MutRateLimit := {| MutRequestsPerWindow := get_int "mutations.rate_limit.requests_per_window";
                                     MutWindowSize := get_duration "mutations.rate_limit.window_size" |} |};
|}.

(** A field decoded from the setting of its key. *)
Definition decoded (k : string) (fld : Field) (cfg : Config) : Prop :=
  decodes (k, fld) = true -> match get k with Some v => holds fld cfg v | None => zero_value fld cfg end.
Lemma get_string_decoded k f cfg : f cfg = get_string k -> decoded k (FString f) cfg.
Proof. unfold decoded, get_string. intros E _. by destruct (get k) as [[]|]. Qed.
Lemma get_bool_decoded k f cfg : f cfg = get_bool k -> decoded k (FBool f) cfg.
Proof.
  unfold decoded, decodes, get_bool. intros E. cbn [fst snd]. destruct (get k) as [[]|]; try done. cbn [fst snd holds].
  intros [b Hb]%bool_decide_eq_true. by rewrite E, Hb.
Qed.
Lemma get_duration_decoded k f cfg : f cfg = get_duration k -> decoded k (FDuration f) cfg.
Proof.
  unfold decoded, decodes, get_duration. intros E. cbn [fst snd]. destruct (get k) as [[]|]; try done. cbn [fst snd holds].
  intros [d Hd]%bool_decide_eq_true. by rewrite E, Hd.
Qed.
Lemma get_float_decoded k f cfg : f cfg = get_float k -> decoded k (FFloat f) cfg.
Proof.
  unfold decoded, decodes, get_float. intros E. cbn [fst snd]. destruct (get k) as [[]|]; try done. cbn [fst snd holds].
  intros [x Hx]%bool_decide_eq_true. by rewrite E, Hx.
Qed.
Lemma get_int_decoded k f cfg : f cfg = get_int k -> decoded k (FInt f) cfg.
Proof.
  unfold decoded, get_int. intros E _. destruct (get k) as [[]|]; try done. cbn [holds]. split; [by intros ->|].
  intros z Hz ->. by rewrite E, parse_int_itoa.
Qed.
Lemma get_strings_decoded k f cfg : f cfg = get_strings k -> decoded k (FStrings f) cfg.
Proof.
  unfold decoded, get_strings. intros E _. destruct (get k) as [[]|]; try done. intros ss ->. rewrite E. clear E.
  induction ss as [|s ss IH]; [done|]. cbn. by f_equal.
Qed.
Lemma decode_settings_holds k fld : (k, fld) ∈ config_tags -> decoded k fld decode_settings.
Proof.
  intros H. assert (G : Forall (fun kf => decoded kf.1 kf.2 decode_settings) config_tags).
  { repeat (constructor;
      [cbn [fst snd];
       first [by apply get_string_decoded|by apply get_int_decoded|by apply get_bool_decoded
             |by apply get_duration_decoded|by apply get_float_decoded|by apply get_strings_decoded]|]). constructor. }
  rewrite Forall_forall in G. exact (G _ H).
Qed.
Definition decode : result Config :=
  if forallb decodes config_tags then Ok decode_settings else Err (Errorf (Sprintf "decoding failed" [])).
End Decode.

(** The state is its layers.  A file is readable when the environment has it. *)
Variable files : string -> gmap string GoVal.
Definition demo_parse (env : Env) (path : string) : result (gmap string GoVal) :=
  match ReadFile env path with Some _ => Ok (files path) | None => Err (Errorf (Sprintf "no such file" [])) end.
Definition demo_find (env : Env) (L : Layers) (k : string) : option GoVal :=
  if bool_decide (k ∈ known L) then find env L k else None.
#[local] Instance demo_viper : Viper Layers := {|
  New := no_layers;
  SetDefault := with_default;
  SetConfigFile p L := with_env p (envPrefix L) (automaticEnv L) (envKeyReplacer L) L;
  SetEnvPrefix p L := with_env (configFile L) p (automaticEnv L) (envKeyReplacer L) L;
  AutomaticEnv L := with_env (configFile L) (envPrefix L) true (envKeyReplacer L) L;
  SetEnvKeyReplacer r L := with_env (configFile L) (envPrefix L) (automaticEnv L) r L;
  BindEnv := with_bound;
  ReadInConfig env L := match demo_parse env (configFile L) with Ok f => Ok (with_file f L) | Err e => Err e end;
  AllKeys L := elements (known L);
  Get env L k := default VNil (find env L k);
  Set_ := with_override;
  Unmarshal env L := decode (demo_find env L);
  layers L := L;
  parse_file := demo_parse;
|}.
#[local] Instance demo_viper_laws : ViperLaws Layers.
Proof.
  split; try done.
  - intros env s. cbn. destruct (demo_parse env (configFile s)) as [f|e]; [by exists f|done].
  - intros s _. split; [exact (NoDup_elements (known s))|]. intros k. exact (elem_of_elements (known s) k).
  - intros env s cfg k fld _ E Hk. cbn in E. unfold decode in E.
    destruct (forallb _ _) eqn:D; [|done]. injection E as <-. rewrite forallb_forall in D.
    pose proof (decode_settings_holds (demo_find env s) k fld Hk (D _ (proj1 (list_elem_of_In _ _) Hk))) as H.
    change (layers s) with s. unfold demo_find in H at 1. destruct (find env s k) as [v|].
    + by case_bool_decide.
    + by case_bool_decide.
Qed.
End Demo.

(** A file with a placeholder in a text and in a list, a duration and a list as texts; an
    environment with a port, a flag, a rate, the variable, and a secret for a key that nothing
    else mentions. *)
Definition demo_file : gmap string GoVal :=
  {["cache.redis.password" := VString "${REDIS_PASS}"; "auth.trusted_proxies" := VSlice [VString "${PROXY}"];
    "server.mode" := VString "development"; "server.request_timeout" := VString "1m30s";
    "cors.allowed_origins" := VString "https://a,https://b"]}.
Definition demo_vars (name : string) : option string :=
  assoc name [("GRAPHQL_SERVER_PORT", "9090"); ("REDIS_PASS", "s3cret"); ("PROXY", "10.0.0.0/8");
              ("GRAPHQL_AUTH_JWT_SECRET", "0123456789abcdef0123456789abcdef"); ("GRAPHQL_AUTH_METHOD", "none");
              ("GRAPHQL_GRAPHQL_INTROSPECTION_ENABLED", "true"); ("GRAPHQL_TRACING_SAMPLING_RATE", "0")].
Definition demo_load_env : Env := {|
  ReadFile _ := Some "yaml"; pem_Decode _ := None; ParsePKIXPublicKey _ := None; LookupEnv := demo_vars;
|}.
Definition demo_unicode : UnicodeTables := {| uni_to_upper s := s; uni_to_lower s := s |}.

Lemma leaf_keys_check (ks : list string) :
  Forall lower_key ks -> Forall (fun k => Forall (fun k' => has_prefix (k +:+ ".") k' = false) ks) ks ->
  leaf_keys (list_to_set ks).
Proof.
  intros Hl Hp. rewrite Forall_forall in Hl, Hp. split.
  - intros k Hk%elem_of_list_to_set. by apply Hl.
  - intros k rest Hk%elem_of_list_to_set Hr%elem_of_list_to_set. specialize (Hp _ Hk). rewrite Forall_forall in Hp.
    specialize (Hp _ Hr). rewrite <- str_app_assoc in Hp. by rewrite has_prefix_app in Hp.
Qed.
Lemma demo_file_ok : file_keys_ok demo_file.
Proof.
  unfold file_keys_ok. replace (dom demo_file ∪ list_to_set code_keys) with (list_to_set (elements (dom demo_file) ++ code_keys) : gset string).
  - apply leaf_keys_check; decided.
  - by rewrite list_to_set_app_L, list_to_set_elements_L.
Qed.
Ltac tagged := unfold config_tags; cbn [app]; repeat first [apply list_elem_of_here|apply list_elem_of_further].
Definition demo_decimals : FloatText := {| parse_float s := float_of_int <$> parse_int s; format_float _ := EmptyString |}.
#[local] Existing Instances demo_unicode demo_decimals.
Definition demo_files : Viper Layers := demo_viper (fun _ => demo_file).
#[local] Existing Instance demo_files.
