(* ===== verification/Observability.v ===== *)
(** * internal/observability and internal/audit: logger, tracing provider, audit log, traced Redis

    logging.go, [InitTracing] and [Shutdown] of tracing.go, audit.go, and the hook of
    redis_hook.go installed on the client the Redis cache uses.  What zap, OpenTelemetry and
    the file system answer are arguments; a log line is its fields in order. *)
From S2P Require Import Prelude GoStrings Values GoConv FuncMap Effects Tracing.
From S2P Require Import MemoryCache CacheLayer RedisCache Config.
From S2P Require TemplateParams Middleware.
From S2P Require Mutation.

(** ** logging.go *)

Section Logging.
(** [zapcore.Level.UnmarshalText], and what [zap.Config.Build] answers. *)
Variables (UnmarshalText : string -> result Z) (Build : result unit).

Record LoggerConfig := { cfgLevel : string; cfgFormat : string; cfgSlowQueryThreshold : Z }.
Record Logger := { LogLevel : Z; SlowQueryThreshold : Z }.

Definition parseLevel (level : string) : result Z :=
  match UnmarshalText level with
  | Ok lvl => Ok lvl
  | Err err => Err (Wrap (Sprintf "unsupported log level %q: %w" [AStr level; AErr err]) err)
  end.
Definition NewLogger (cfg : LoggerConfig) : result Logger :=
  match parseLevel (cfgLevel cfg) with
  | Err err => Err (Wrap (Sprintf "invalid log level %q: %w" [AStr (cfgLevel cfg); AErr err]) err)
  | Ok lvl =>
      match Build with
      | Err err => Err (Wrap (Sprintf "failed to build zap logger: %w" [AErr err]) err)
      | Ok _ =>
          let threshold := if cfgSlowQueryThreshold cfg <=? 0 then second else cfgSlowQueryThreshold cfg in
          Ok {| LogLevel := lvl; SlowQueryThreshold := threshold |}
      end
  end.
Definition SetLevel (level : string) (l : Logger) : result unit * Logger :=
  match parseLevel level with
  | Err err => (Err (Wrap (Sprintf "invalid log level %q: %w" [AStr level; AErr err]) err), l)
  | Ok lvl => (Ok tt, {| LogLevel := lvl; SlowQueryThreshold := SlowQueryThreshold l |})
  end.
(** A level is changed exactly when it is one, and a logger is never without one. *)
Lemma SetLevel_spec level l :
  match SetLevel level l with
  | (Ok _, l') => UnmarshalText level = Ok (LogLevel l') /\ SlowQueryThreshold l' = SlowQueryThreshold l
  | (Err _, l') => (exists e, UnmarshalText level = Err e) /\ l' = l
  end.
Proof. unfold SetLevel, parseLevel. destruct (UnmarshalText level) as [lvl|e]; simpl; eauto. Qed.
Lemma NewLogger_threshold cfg l : NewLogger cfg = Ok l -> 0 < SlowQueryThreshold l.
Proof. unfold NewLogger. destruct (parseLevel _), Build; try done. intros [= <-]. simpl. case_match; unfold second; lia. Qed.
End Logging.

(** ** The tracing provider *)

Inductive Exporter := OtlpHTTP (endpoint : string) | OtlpGRPC (endpoint : string).
Inductive Provider := NoopProvider | SdkProvider (exporter : Exporter) (fraction : spec_float).
(** The globals of package otel: the provider and whether trace headers are propagated. *)
Record Otel := { global_provider : Provider; propagates : bool }.
Record TracingProvider := { provider : Provider; shutdown : option (result unit) }.

Section Provider.
(** What the constructors of the exporters answer, and the SDK's [Shutdown] within its time. *)
Variables (new_exporter : Exporter -> result unit) (sdk_shutdown : result unit).

Definition shutdownTimeout : Z := 5 * second.
Definition createExporter (cfg : OTLPConfig) : result Exporter :=
  let e := if String.eqb (Protocol cfg) "http" then OtlpHTTP (Endpoint cfg) else OtlpGRPC (Endpoint cfg) in
  _ ← new_exporter e; Ok e.
Definition InitTracing (cfg : TracingConfig) (otel : Otel) : result TracingProvider * Otel :=
  if negb (TracingEnabled cfg) then
    (Ok {| provider := NoopProvider; shutdown := Some (Ok tt) |},
     {| global_provider := NoopProvider; propagates := propagates otel |})
  else
    match createExporter (OTLP cfg) with
    | Err err => (Err (Wrap (Sprintf "failed to create OTLP exporter: %w" [AErr err]) err), otel)
    | Ok exporter =>
        let samplingRate := if SFleb (SamplingRate cfg) (S754_zero false) then float_of_int 1 else SamplingRate cfg in
        let p := SdkProvider exporter samplingRate in
        (Ok {| provider := p; shutdown := Some sdk_shutdown |}, {| global_provider := p; propagates := true |})
    end.
Definition Shutdown (tp : TracingProvider) : result unit :=
  match shutdown tp with None => Ok tt | Some r => r end.
End Provider.

(** ** audit.go *)

Inductive Sink := Stdout | LogFile (path : string).
Record AuditLogger := { enabled : bool; sink : option Sink; closer : bool }.
Inductive FieldValue := FString (s : string) | FTime (t : Z).
Notation Line := (list (string * FieldValue)).

Section Audit.
(** [os.OpenFile] for appending. *)
Variable OpenFile : string -> result unit.

Definition NewAuditLogger (cfg : AuditConfig) : result AuditLogger :=
  if negb (AuditEnabled cfg) then Ok {| enabled := false; sink := None; closer := false |} else
  if String.eqb (AuditOutput cfg) "file" then
    _ ← OpenFile (AuditFilePath cfg);
    Ok {| enabled := true; sink := Some (LogFile (AuditFilePath cfg)); closer := true |}
  else Ok {| enabled := true; sink := Some Stdout; closer := false |}.
(** The lines written for an entry.  [range entry.ExtraFields] visits the entries of the map in
    any order: [extra] is the order of this call. *)
Definition Log (extra : list (string * string)) (a : AuditLogger) (entry : LogEntry) : list Line :=
  match sink a with
  | Some _ =>
      if negb (enabled a) then [] else
      let result := if Success entry then "success" else "failure" in
      let fields := [("principal", FString (Principal entry)); ("operation_time", FTime (Time entry));
                     ("operation", FString (Operation entry)); ("datasource", FString (Datasource entry));
                     ("result", FString result)] in
      [fields ++ map (fun kv => (kv.1, FString kv.2)) extra]
  | None => []
  end.
(** [Close]: whether the sink was flushed, and what closing the file answers. *)
Definition Close (close_file : result unit) (a : AuditLogger) : bool * result unit :=
  (match sink a with Some _ => true | None => false end, if closer a then close_file else Ok tt).

(** *** The trail of mutations *)

(** The lines of a mutation: its resolver hands each entry to the audit logger, the [i]th one
    with its extra fields in the order [order i]. *)
Definition audit_lines (order : nat -> list (string * string) -> list (string * string)) (a : AuditLogger)
    (log : list Mutation.Event) : list Line :=
  concat (imap (fun i e => Log (order i (ExtraFields e)) a e) (Mutation.audits log)).
Definition verdict {A} (r : result A) : string := match r with Ok _ => "success" | Err _ => "failure" end.
(** The line of a mutation with this outcome. *)
Definition trail_line (r : Mutation.Resolver) (id : option Auth.AuthIdentity) (c : Mutation.Call)
    (x : result Mutation.MutationResult) (l : Line) : Prop :=
  exists extra reason,
    l = [("principal", FString match id with Some i => Auth.Subject i | None => EmptyString end);
         ("operation_time", FTime (Mutation.rNow r));
         ("operation", FString (Mutation.call_op c));
         ("datasource", FString (Mutation.DatasourceName (Mutation.MutationConfig r)));
         ("result", FString (verdict x))] ++ map (fun kv => (kv.1, FString kv.2)) extra
    /\ extra ≡ₚ [("table", Mutation.call_table c);
                  match x with
                  | Ok res => ("affected_rows", itoa (Mutation.AffectedRows res))
                  | Err _ => ("reason", reason)
                  end]
    /\ reason ∈ Mutation.failure_reasons.

Lemma NewAuditLogger_off cfg a e extra : NewAuditLogger cfg = Ok a -> AuditEnabled cfg = false -> Log extra a e = [].
Proof. unfold NewAuditLogger. intros Ha He. rewrite He in Ha. by apply Ok_inj in Ha as <-. Qed.
Lemma no_lines {A B} (f : nat -> A -> list B) l : (forall i e, f i e = []) -> concat (imap f l) = [].
Proof. intros Hf. revert f Hf. induction l as [|e l IH]; intros f Hf; [done|]. cbn. rewrite Hf. apply IH. intros. apply Hf. Qed.
Lemma NewAuditLogger_on cfg a : NewAuditLogger cfg = Ok a -> AuditEnabled cfg = true ->
  enabled a = true /\ sink a = Some (if String.eqb (AuditOutput cfg) "file" then LogFile (AuditFilePath cfg) else Stdout).
Proof.
  unfold NewAuditLogger. intros Ha He. rewrite He in Ha. cbn [negb] in Ha.
  destruct (String.eqb _ _); [apply bind_Ok in Ha as (? & _ & Ha)|]; by apply Ok_inj in Ha as <-.
Qed.
Lemma mutation_lines order a r id c :
  (forall i l, order i l ≡ₚ l) -> enabled a = true -> sink a <> None -> Mutation.AuditLogger r = true ->
  Mutation.MutEnabled (Mutation.MutationConfig r) = true -> Mutation.limited r id = false ->
  let x := Mutation.run r id c in
  match x.1 with
  | Err (Panic _) => audit_lines order a x.2 = []
  | res => exists l, audit_lines order a x.2 = [l] /\ trail_line r id c res l
  end.
Proof.
  intros Ho Hena Hs Hal Hen Hlim. cbv zeta.
  assert (Hau : forall e, Mutation.audited r e = [e]) by (intros; unfold Mutation.audited; by rewrite Hal).
  assert (Hline : forall ok extra reason x log, reason ∈ Mutation.failure_reasons ->
    ok = (match x with Ok _ => true | Err _ => false end) ->
    extra = match x with Ok res => ("affected_rows", itoa (Mutation.AffectedRows res)) | Err _ => ("reason", reason) end ->
    Mutation.audits log = [Mutation.audit_entry r id (Mutation.call_op c) (Mutation.call_table c) ok [extra]] ->
    exists l, audit_lines order a log = [l] /\ trail_line r id c x l).
  { intros ok extra reason x log Hr -> -> Hl. unfold audit_lines. rewrite Hl. cbn [imap concat]. unfold Log.
    destruct (sink a); [|done]. rewrite Hena. cbn [negb app]. eexists. split; [done|].
    exists (order 0%nat [("table", Mutation.call_table c);
      match x with Ok res => ("affected_rows", itoa (Mutation.AffectedRows res)) | Err _ => ("reason", reason) end]), reason.
    split; [by destruct x|]. split; [apply Ho|done]. }
  destruct (Mutation.run_outcome r id c) as [e log _ Hg _ _ _|what log _ _ Hl _|e log reason He Hin _ Hl _|res log m wds]; cbn [fst snd].
  - destruct Hg; congruence.
  - unfold audit_lines. by rewrite Hl.
  - rewrite Hau in Hl. destruct e; try done; by eapply (Hline false _ reason).
  - match goal with H : Mutation.audits log = _ |- _ => rename H into Hl end.
    assert (Hf : "execution_failed" ∈ Mutation.failure_reasons) by (right; right; left).
    destruct res as [res|[]]; rewrite ?Hau in Hl; try (eapply (Hline _ _ "execution_failed"); [exact Hf|reflexivity|reflexivity|exact Hl]).
    unfold audit_lines. by rewrite Hl.
Qed.

(** C34: the audit trail.  A process whose audit log is enabled writes exactly one line for every
    mutation that passes the feature gate and the rate limiter and does not panic: with the
    caller, the operation, the data source, the verdict the caller gets and, in either order,
    the table and the affected rows or the reason of the failure; any output but [file] is
    standard output; a process whose audit log is disabled writes none.  No mutation panics when
    its validators exist and the data source does not panic.  But when the server started with
    mutations disabled and a hot reload enabled them, the validators are nil: every mutation of
    an authorized caller with acceptable input panics, and leaves no line. *)
Theorem mutation_audit_trail order cfg a r id c :
  (forall i l, order i l ≡ₚ l) ->
  NewAuditLogger cfg = Ok a -> Mutation.AuditLogger r = true ->
  Mutation.MutEnabled (Mutation.MutationConfig r) = true -> Mutation.limited r id = false ->
  let x := Mutation.run r id c in
  let lines := audit_lines order a x.2 in
  (AuditEnabled cfg = false -> lines = [])
  /\ (AuditEnabled cfg = true ->
      sink a = Some (if String.eqb (AuditOutput cfg) "file" then LogFile (AuditFilePath cfg) else Stdout)
      /\ match x.1 with
         | Err (Panic _) => lines = []
         | res => exists l, lines = [l] /\ trail_line r id c res l
         end)
  /\ (Mutation.rMutationValidator r <> None -> Mutation.rWritableTableValidator r <> None -> Mutation.source_calm r ->
      forall what, x.1 <> Err (Panic what))
  /\ (Mutation.rMutationValidator r = None -> Mutation.rWritableTableValidator r = None ->
      Mutation.authorized id (Mutation.DatasourceName (Mutation.MutationConfig r)) ->
      Mutation.accepted_input (Mutation.MutationConfig r) c ->
      x.1 = Err nil_dereference /\ lines = []).
Proof.
  intros Ho Ha Hal Hen Hlim. cbv zeta.
  assert (Hoff : AuditEnabled cfg = false -> audit_lines order a (Mutation.run r id c).2 = []).
  { intros He. apply no_lines. intros i e. by apply (NewAuditLogger_off cfg). }
  assert (Hon : AuditEnabled cfg = true -> match (Mutation.run r id c).1 with
    | Err (Panic _) => audit_lines order a (Mutation.run r id c).2 = []
    | res => exists l, audit_lines order a (Mutation.run r id c).2 = [l] /\ trail_line r id c res l end).
  { intros He. destruct (NewAuditLogger_on _ _ Ha He) as [Hena Hs]. apply mutation_lines; try done. by rewrite Hs. }
  split; [exact Hoff|]. split; [intros He; split; [by apply NewAuditLogger_on|by apply Hon]|]. split; [apply Mutation.run_calm|].
  intros Hv Hw Hau Hi. pose proof (Mutation.run_nil r id c Hv Hw Hen Hlim Hau Hi) as Hn. split; [done|].
  rewrite Hn in Hon. destruct (AuditEnabled cfg); [by apply Hon|by apply Hoff].
Qed.
End Audit.

(** ** The sampling rate *)

Lemma positive_rate r : SFltb r (S754_zero false) = false -> SFleb r (S754_zero false) = false ->
  r = S754_nan \/ SFltb (S754_zero false) r = true.
Proof. destruct r as [s|s| |s m e]; [by destruct s|destruct s|by left|destruct s]; by right || done. Qed.
Lemma accepted_rate {FT : FloatText} {UT : UnicodeTables} {GR : TemplateParams.GoRegexp} env cfg :
  (ValidateConfig env cfg).2 = None -> SFltb (SamplingRate (Tracing cfg)) (S754_zero false) = false.
Proof.
  unfold ValidateConfig, config_errors. cbn [snd]. destruct (_ ++ _)%list eqn:H; [|done]. intros _. no_errors.
  by match goal with H : _ || _ = false |- _ => apply orb_false_iff in H as [? ?] end.
Qed.

(** sampling cannot be switched off.  A configuration the validation accepts has a rate of
    at least 0; the provider of an enabled tracing samples with that rate, except that a rate
    of 0 samples everything, like 1; so every accepted rate but NaN samples something.
    Disabled tracing records nothing and leaves the propagation of trace headers as it is. *)
Theorem sampling_rate_effective {FT : FloatText} {UT : UnicodeTables} {GR : TemplateParams.GoRegexp}
    new_exporter sdk_shutdown env cfg otel :
  (ValidateConfig env cfg).2 = None ->
  let t := Tracing cfg in
  let '(r, o) := InitTracing new_exporter sdk_shutdown t otel in
  (TracingEnabled t = false -> o = {| global_provider := NoopProvider; propagates := propagates otel |}
     /\ exists tp, r = Ok tp /\ provider tp = NoopProvider)
  /\ (TracingEnabled t = true -> forall tp, r = Ok tp ->
       exists e f, provider tp = SdkProvider e f /\ o = {| global_provider := provider tp; propagates := true |}
         /\ (SFeqb (SamplingRate t) (S754_zero false) = true -> f = float_of_int 1)
         /\ (SFltb (S754_zero false) (SamplingRate t) = true -> f = SamplingRate t)
         /\ (f = S754_nan \/ SFltb (S754_zero false) f = true)).
Proof.
  intros Hv. cbv zeta. pose proof (accepted_rate env cfg Hv) as Hr. unfold InitTracing.
  destruct (TracingEnabled (Tracing cfg)); cbn [negb]; [|split; [intros _; split; [done|by eexists]|done]].
  destruct (createExporter _ _) as [e|err]; [|split; done]. split; [done|]. intros _ tp [= <-]. cbn [provider].
  eexists e, _. split; [done|]. split; [done|].
  destruct (SFleb (SamplingRate (Tracing cfg)) (S754_zero false)) eqn:Hle.
  - split; [done|]. split; [|by right]. intros Hlt. unfold SFltb, SFleb in *.
    destruct (SamplingRate (Tracing cfg)) as [s|s| |s m e']; try done; by destruct s.
  - split; [|split; [done|by apply positive_rate]]. intros Heq. unfold SFeqb, SFleb in *.
    destruct (SamplingRate (Tracing cfg)) as [s|s| |s m e']; try done; by destruct s.
Qed.

(** ** The Redis cache over a traced client *)

Section TracedRedis.
#[local] Set Default Proof Using "Type".
Context {UT : UnicodeTables} {R : Type} {RC : RedisClient R} {RL : RedisLaws RC} {RE : ScanEnds RC}.
(** [redis.Nil], the error of a [GET] of a key that is not there, and the peer's name. *)
Variables (redis_Nil : error) (peerName : string).

(** [AddHook]: a command through [ProcessHook], whose events end the trace. *)
Definition traced_command {A} (name : string) (err : A -> result unit) (cmd : R -> A * R)
    (s : R * list SpanEvent) : A * (R * list SpanEvent) :=
  let '(a, r) := cmd s.1 in (a, (r, s.2 ++ (ProcessHook id peerName name (err a, [])).2)).
Definition cmd_err {A} (res : result A) : result unit := match res with Ok _ => Ok tt | Err e => Err e end.
Definition get_err (res : result (option string)) : result unit :=
  match res with Ok (Some _) => Ok tt | Ok None => Err redis_Nil | Err e => Err e end.
#[local] Instance traced_client : RedisClient (R * list SpanEvent) := {|
  GET now k := traced_command "get" get_err (GET now k);
  SET now k v ttl := traced_command "set" cmd_err (SET now k v ttl);
  DEL ks := traced_command "del" cmd_err (DEL ks);
  SCAN c p n := traced_command "scan" cmd_err (SCAN c p n);
  FLUSHDB := traced_command "flushdb" cmd_err FLUSHDB;
|}.
Lemma traced_run {A} name err (cmd : R -> A * R) s :
  traced_command name err cmd s
  = ((cmd s.1).1, ((cmd s.1).2, s.2 ++ (ProcessHook id peerName name (err (cmd s.1).1, [])).2)).
Proof. unfold traced_command. by destruct (cmd s.1). Qed.
Lemma hook_balanced name res : balanced (ProcessHook id peerName name (res, [])).2.
Proof. unfold ProcessHook, hooked. simpl. intros spans. by destruct res. Qed.

(** The hook keeps what Redis promises, and so what the cache layer relies on. *)
Definition untraced (x : Round (R * list SpanEvent)) : Round R :=
  {| at_ := (at_ x).1; sent := sent x; keys := keys x; next := next x; passed := map fst (passed x) |}.
Lemma iteration_untraced l : forall c, iteration c l -> iteration c (map untraced l).
Proof.
  induction l as [|x [|y l] IH]; intros c; simpl; [done|done|]. intros (H1 & H2 & H3). split; [done|]. split; [done|]. by apply IH.
Qed.
Lemma traced_scan_full p n (l : list (Round (R * list SpanEvent))) k : iteration 0%N l ->
  (forall x, x ∈ l -> (SCAN (sent x) p n (at_ x)).1 = Ok (keys x, next x)) ->
  (forall x s, x ∈ l -> s = at_ x \/ s ∈ passed x -> exists v, stored s.1 k v) ->
  matches p k = true -> exists x, x ∈ l /\ k ∈ keys x.
Proof using RL.
  intros Hi Hs Hall Hm. destruct (scan_full p n (map untraced l) k) as (x & Hx & Hk); [by apply iteration_untraced|..|done|].
  - intros x (y & -> & Hy)%list_elem_of_fmap. pose proof (Hs y Hy) as E. cbn [SCAN traced_client] in E. by rewrite traced_run in E.
  - intros x s (y & -> & Hy)%list_elem_of_fmap Hin. cbn [at_ passed untraced] in Hin. destruct Hin as [->|Hin]; [apply (Hall y); auto|].
    apply list_elem_of_fmap in Hin as (s' & -> & Hin). apply (Hall y); auto.
  - apply list_elem_of_fmap in Hx as (y & -> & Hy). by exists y.
Qed.
#[local] Instance traced_client_laws : RedisLaws traced_client.
Proof using RL.
  refine {| stored s := stored s.1; matches := matches; plain_prefix := plain_prefix; scan_full := traced_scan_full |};
    cbn [GET SET DEL SCAN FLUSHDB traced_client]; intros *; rewrite ?traced_run; cbn [fst snd].
  - apply get_stored.
  - apply get_keeps.
  - apply set_stored.
  - apply del_stored.
  - apply scan_keeps.
  - apply scan_matches.
  - apply flush_stored.
Defined.
#[local] Instance traced_client_ends : ScanEnds traced_client.
Proof using RE.
  refine {| rounds s := rounds s.1 |}; cbn [DEL SCAN traced_client]; intros *; rewrite ?traced_run; cbn [fst snd].
  - apply del_rounds.
  - intros [= Hs <-]. cbn [fst]. eapply scan_rounds. by rewrite <- Hs, <- surjective_pairing.
Defined.

(** The operations of the cache, as one type. *)
Inductive CacheOp :=
  | OpGet (now : Z) (k : string)
  | OpSet (now : Z) (k v : string) (ttl : Z)
  | OpDelete (k : string)
  | OpDeletePrefix (p : string)
  | OpClear.
Definition no_value (r : result unit) : result (option string) := match r with Ok _ => Ok None | Err e => Err e end.
Definition cache_op {C} (K : CacheLayer.Cache C) (op : CacheOp) (c : C) : result (option string) * C :=
  match op with
  | OpGet now k => c_get now k c
  | OpSet now k v ttl => let '(r, c) := c_set now k v ttl c in (no_value r, c)
  | OpDelete k => let '(r, c) := c_delete k c in (no_value r, c)
  | OpDeletePrefix p => let '(r, c) := c_delete_prefix p c in (no_value r, c)
  | OpClear => let '(r, c) := c_clear c in (no_value r, c)
  end.

Lemma delete_loop_traced fuel : forall n pattern c r tr, exists l evs, balanced evs /\
  delete_loop (RC := traced_client) alone fuel n pattern c (r, tr)
  = (let '(res, _, r') := delete_loop alone fuel n pattern c r in (res, l, (r', tr ++ evs))).
Proof.
  induction fuel as [|fuel IH]; intros n pattern c r tr; [exists [], []; by rewrite app_nil_r|].
  cbn [delete_loop SCAN DEL traced_client alone end_of last default id from_option]. rewrite traced_run. cbn [fst snd].
  pose proof (hook_balanced "scan" (cmd_err (SCAN c pattern 100 r).1)) as Hscan.
  set (e1 := (ProcessHook id peerName "scan" _).2) in *.
  destruct (SCAN c pattern 100 r) as [[[ks c']|e] r1]; cbn [fst snd]; [|by exists [], e1].
  change (alone (S n) r1) with (@nil R). change (alone (S n) (r1, tr ++ e1)) with (@nil (R * list SpanEvent)).
  set (d0 := match ks with [] => (Ok tt, []) | _ => let '(d, r2) := DEL ks r1 in (d, [] ++ [r2]) end).
  assert (Hdel : exists e2 after, balanced e2 /\
    match ks with [] => (Ok tt, [])
    | _ => let '(d, r2) := traced_command "del" cmd_err (DEL ks) (r1, tr ++ e1) in (d, [] ++ [r2]) end = (d0.1, after)
    /\ end_of (r1, tr ++ e1) after = (end_of r1 d0.2, tr ++ e1 ++ e2)).
  { subst d0. destruct ks as [|k ks]; [exists [], []; by rewrite app_nil_r|]. rewrite traced_run. cbn [fst snd].
    destruct (DEL (k :: ks) r1) as [d r2]. cbn [fst snd]. eexists _, _. split; [apply (hook_balanced "del")|]. split; [done|].
    unfold end_of. cbn [app last default from_option id]. by rewrite <- app_assoc. }
  destruct Hdel as (e2 & after & H2 & -> & Hend). destruct d0 as [d after0]. cbn [fst snd] in Hend |- *. rewrite Hend.
  assert (H12 : balanced (e1 ++ e2)) by by apply balanced_app.
  destruct d as [[]|e]; [|by exists [], (e1 ++ e2)]. destruct (N.eqb c' 0); [eexists _, (e1 ++ e2); done|].
  destruct (IH (S (S n)) pattern c' (end_of r1 after0) (tr ++ e1 ++ e2)) as (l & e3 & H3 & ->).
  destruct (delete_loop alone fuel _ pattern c' (end_of r1 after0)) as [[res l'] r']. eexists _, ((e1 ++ e2) ++ e3).
  split; [by apply balanced_app|]. by rewrite !app_assoc.
Qed.

(** the tracing hook is transparent.  The Redis cache over the hooked client answers every
    operation as over the client itself and leaves the same server state; what it adds to the
    trace are spans that are all ended; and a miss, which the cache answers without an
    error, is recorded as an error of its span. *)
Theorem traced_cache_transparent op r tr :
  exists evs, cache_op (redis_backend (RC := traced_client)) op (r, tr)
      = (let '(a, r') := cache_op redis_backend op r in (a, (r', tr ++ evs)))
    /\ balanced evs
    /\ forall now k, op = OpGet now k -> (cache_op redis_backend op r).1 = Ok None ->
       SetStatus (StatusError redis_Nil) ∈ evs /\ RecordError redis_Nil ∈ evs.
Proof.
  destruct op as [now k|now k v ttl|k|p|]; cbn [cache_op redis_backend c_get c_set c_delete c_delete_prefix c_clear
    GET SET DEL FLUSHDB traced_client].
  - rewrite traced_run. cbn [fst snd]. destruct (GET now k r) as [a r']. cbn [fst snd].
    eexists. split; [done|]. split; [apply hook_balanced|]. intros ? ? _ ->.
    cbn. split; repeat (first [by left|right]).
  - rewrite traced_run. cbn [fst snd]. destruct (SET now k v ttl r) as [a r']. cbn [fst snd].
    eexists. split; [done|]. split; [apply hook_balanced|done].
  - rewrite traced_run. cbn [fst snd]. destruct (DEL [k] r) as [a r']. cbn [fst snd].
    eexists. split; [done|]. split; [apply hook_balanced|done].
  - unfold RedisCache_DeleteByPrefix. change (scan_fuel (r, tr)) with (scan_fuel r).
    destruct (delete_loop_traced (scan_fuel r) 0 (p +:+ "*") 0 r tr) as (l & evs & Hb & ->).
    destruct (delete_loop alone (scan_fuel r) 0 (p +:+ "*") 0 r) as [[res l'] r'].
    exists evs. cbn. done.
  - rewrite traced_run. cbn [fst snd]. destruct (FLUSHDB r) as [a r']. cbn [fst snd].
    eexists. split; [done|]. split; [apply hook_balanced|done].
Qed.
End TracedRedis.

(** ** Witnesses *)

(** The resolver of a server that started with mutations disabled. *)
Definition unprepared : Mutation.Resolver :=
  let r := Mutation.demo_resolver in {|
  Mutation.MutationConfig := Mutation.MutationConfig r;
  Mutation.rMutationValidator := None; Mutation.rWritableTableValidator := None; Mutation.MutationRateLimiter := None;
  Mutation.rGetWritable := Mutation.rGetWritable r; Mutation.CacheClearer := Mutation.CacheClearer r;
  Mutation.AuditLogger := true; Mutation.MetricsCollector := true; Mutation.rNow := 7 |}.
Lemma mutation_audit_trail_witness : exists a l,
  NewAuditLogger (fun _ => Ok tt) {| AuditEnabled := true; AuditOutput := "stderr"; AuditFilePath := EmptyString |} = Ok a
  /\ sink a = Some Stdout
  /\ audit_lines (fun _ l => rev l) a (Mutation.run Mutation.demo_resolver None Mutation.demo_call).2 = [l]
  /\ (Mutation.run unprepared (Some Mutation.demo_caller) Mutation.demo_call).1 = Err nil_dereference
  /\ audit_lines (fun _ l => rev l) a (Mutation.run unprepared (Some Mutation.demo_caller) Mutation.demo_call).2 = [].
Proof.
  set (cfg := {| AuditEnabled := true; AuditOutput := "stderr"; AuditFilePath := EmptyString |}).
  assert (Ho : forall (i : nat) (l : list (string * string)), rev l ≡ₚ l) by (intros; symmetry; apply Permutation_rev).
  destruct (NewAuditLogger (fun _ => Ok tt) cfg) as [a|e] eqn:Ha; [|discriminate Ha].
  destruct (mutation_audit_trail (fun _ => Ok tt) (fun _ l => rev l) cfg a Mutation.demo_resolver None Mutation.demo_call
    Ho Ha eq_refl eq_refl eq_refl) as (_ & Hon & _ & _). destruct (Hon eq_refl) as (Hs & l & Hl & _).
  destruct (mutation_audit_trail (fun _ => Ok tt) (fun _ l => rev l) cfg a unprepared (Some Mutation.demo_caller) Mutation.demo_call
    Ho Ha eq_refl eq_refl eq_refl) as (_ & _ & _ & Hnil).
  exists a, l. split; [reflexivity|]. split; [exact Hs|]. split; [exact Hl|]. apply Hnil; [reflexivity|reflexivity| |reflexivity].
  exists Mutation.demo_caller. split; [reflexivity|]. split; [left|by left].
Defined.

Section Demo.
#[local] Existing Instance Middleware.demo_unicode.
#[local] Existing Instance TemplateParams.demo_regexp.
#[local] Existing Instances traced_client_laws traced_client_ends.
#[local] Instance demo_numbers : FloatText := {| parse_float _ := Some (float_of_int 256); format_float _ := EmptyString |}.
Lemma traced_cache_transparent_witness : exists evs,
  (cache_op (redis_backend (RC := traced_client (RC := demo_client) ErrEOF "redis.local")) (OpGet 0 "k") (∅, []))
    = (Ok None, (∅, evs)) /\ RecordError ErrEOF ∈ evs.
Proof.
  destruct (traced_cache_transparent (RC := demo_client) ErrEOF "redis.local" (OpGet 0 "k") ∅ []) as (evs & H & _ & Hm).
  exists evs. split; [exact H|]. apply (Hm 0 "k" eq_refl). reflexivity.
Defined.

Definition demo_env : Env := {|
  ReadFile _ := None; pem_Decode _ := None; ParsePKIXPublicKey _ := None; LookupEnv _ := None |}.
(** The defaults, with tracing enabled and a rate of 0. *)
Definition never_sample : Config :=
  let d := setDefaults in {|
  Server := Server d; GraphQL := GraphQL d; Datasources := Datasources d; Auth := Auth d; RateLimit := RateLimit d;
  Cache := Cache d; CORS := CORS d; Compression := Compression d; Logging := Logging d; Sanitization := Sanitization d;
  Metrics := Metrics d;
  Tracing := {| TracingEnabled := true; SamplingRate := S754_zero false; OTLP := {| Endpoint := "otel:4317"; Protocol := "grpc" |} |};
  Retry := Retry d; CircuitBreaker := CircuitBreaker d; AuthFailure := AuthFailure d; MaxWaitTime := MaxWaitTime d;
  Templates := Templates d; Mutations := Mutations d |}.
Lemma never_sample_accepted : (ValidateConfig demo_env never_sample).2 = None.
Proof. vm_compute. reflexivity. Qed.
Lemma sampling_rate_effective_witness : exists tp o e,
  InitTracing (fun _ => Ok tt) (Ok tt) (Tracing never_sample) {| global_provider := NoopProvider; propagates := false |} = (Ok tp, o)
  /\ provider tp = SdkProvider e (float_of_int 1).
Proof.
  pose proof (sampling_rate_effective (fun _ => Ok tt) (Ok tt) demo_env never_sample
    {| global_provider := NoopProvider; propagates := false |} never_sample_accepted) as H. cbv zeta in H.
  destruct (InitTracing _ _ _ _) as [[tp|err] o] eqn:E; [|discriminate E].
  destruct (proj2 H eq_refl tp eq_refl) as (e & f & Hp & _ & Hz & _).
  exists tp, o, e. split; [reflexivity|]. by rewrite Hp, (Hz eq_refl).
Defined.
End Demo.
