(* ===== verification/Startup.v ===== *)
(** * cmd/server/main.go and helpers.go: from the configuration to the services

    The decisions main.go takes before it serves: which Redis server, cache backend, rate
    limiter, authenticator, failure table, mutation checks and template engine the configuration
    gives.  [logger.Fatal] is an error, and so is a panic of the metrics registry.  What zap, the
    exporters, the file system, the registry of adapters, the data sources, the sanitizer and
    the template engine answer is the record [Steps] of their outcomes.  Each limiter starts a goroutine with a ticker;
    [time.NewTicker] panics on an interval that is not positive, which ends the process. *)
From S2P Require Import Prelude GoStrings Values GoConv FuncMap.
From S2P Require Import DataSource TemplateParams TemplateLoader Whitelist MutationSql.
From S2P Require Import Lru MemoryCache CacheLayer RateLimit DistributedLimit FallbackLimit Auth Middleware Config.
From S2P Require Net StarRocks Metrics Observability.

(** ** helpers.go *)

Definition needsRedis (cfg : Config) : bool :=
  String.eqb (RateLimitMode (RateLimit cfg)) "distributed"
  || CacheEnabled (Cache cfg) && String.eqb (Backend (Cache cfg)) "redis".
Definition resolveRedisAddr (cfg : Config) : string :=
  if negb (String.eqb (Addr (Redis (RateLimit cfg))) EmptyString) then Addr (Redis (RateLimit cfg))
  else if negb (String.eqb (Addr (CacheRedis (Cache cfg))) EmptyString) then Addr (CacheRedis (Cache cfg))
  else "localhost:6379".
Definition resolveRedisPassword (cfg : Config) : string :=
  if negb (String.eqb (Password (Redis (RateLimit cfg))) EmptyString) then Password (Redis (RateLimit cfg))
  else Password (CacheRedis (Cache cfg)).
Definition resolveRedisDB (cfg : Config) : Z :=
  if negb (String.eqb (Addr (Redis (RateLimit cfg))) EmptyString) then DB (Redis (RateLimit cfg))
  else if negb (String.eqb (Addr (CacheRedis (Cache cfg))) EmptyString) then DB (CacheRedis (Cache cfg))
  else 0.
(** internal/redis/client.go. *)
Definition NewRedisClient (cfg : RedisConfig) : result RedisConfig :=
  _ ← guard_err (String.eqb (Addr cfg) EmptyString) (Errorf (Sprintf "redis address is required" []));
  Ok cfg.
(** [client.Ping], whose answer only decides between two log lines. *)
Definition Ping (ping : RedisConfig -> option error) (client : option RedisConfig) : option error :=
  match client with None => Some (Errorf (Sprintf "redis client is nil" [])) | Some c => ping c end.
Definition redis_client (cfg : Config) : result (option RedisConfig) :=
  if needsRedis cfg
  then Some <$> NewRedisClient {| Addr := resolveRedisAddr cfg; Password := resolveRedisPassword cfg; DB := resolveRedisDB cfg |}
  else Ok None.

Record Steps := {
  (** zap: a level from its name, and building the logger *)
  st_level : string -> result Z;
  st_zap : result unit;
  st_exporter : Observability.Exporter -> result unit;
  st_registry : result unit;
  st_datasources : result unit;
  (** [os.OpenFile] of the audit log *)
  st_OpenFile : string -> result unit;
  st_sanitizer : result unit;
  (** [dsManager.Get]: the type of the data source and whether it is a StarRocks adapter *)
  st_Get : string -> result (string * bool);
  (** [NewTemplateEngine] *)
  st_engine : result unit;
  parse_rfc3339 : string -> option Z;
}.

Section Startup.
(** package starrocks *)
#[local] Existing Instance StarRocks.starrocks_dialect.
Context {FT : FloatText} {UT : UnicodeTables} {GR : GoRegexp}.
Context {L : Type} {CL : LRU L memoryCacheEntry}.
Context {B : Type} {TB : TokenBucket B} {LN : LuaNum} {G : Type} {MR : Metrics.Registry G}.
Variables (env : Env) (steps : Steps).
(** The orders in which the maps of tables and columns are ranged over. *)
Variables (worder : gmap string WritableTableConfig -> list string) (corder : gmap string bool -> list string).
#[local] Set Default Proof Using "Type".

Definition fatal {A} (msg : string) (r : result A) : result A :=
  match r with Ok x => Ok x | Err err => Err (Wrap (Sprintf msg []) err) end.

(** *** The cache *)

Inductive CacheBackend :=
  | RedisCache (client : RedisConfig)
  | InMemory (mc : MemoryCache L).
(** [ttlConfig]: the data sources' times to live, then the templates'. *)
Definition template_ttls (sec : SQLTemplatesSection) : list (string * Z) :=
  if TemplatesEnabled sec
  then omap (fun t => match tcCacheTTL t with Some d => Some ("template:" +:+ tcName t, d) | None => None end)
         (TemplateLoader.Templates (SQLTemplates sec))
  else [].
Definition ttl_config (cfg : Config) : gmap string Z :=
  foldl (fun m kd => <[kd.1 := kd.2]> m) ∅ (PerDatasource (Cache cfg) ++ template_ttls (Templates cfg)).
Definition cache_backend (client : option RedisConfig) (cfg : Config) : result CacheBackend :=
  if String.eqb (Backend (Cache cfg)) "redis" then
    match client with
    | None => Err (Errorf (Sprintf "redis cache backend requires redis, but redis is not configured" []))
    | Some c => Ok (RedisCache c)
    end
  else InMemory <$> fatal "failed to create memory cache" (NewMemoryCache (Memory (Cache cfg))).
Definition cache_layer (client : option RedisConfig) (cfg : Config) : result (option (CacheLayer CacheBackend)) :=
  if CacheEnabled (Cache cfg) then
    b ← cache_backend client cfg;
    Ok (Some (NewCacheLayer {| cfgBackend := b; cfgTTLConfig := ttl_config cfg; cfgDefaultTTL := DefaultTTL (Cache cfg);
                               cfgJitterPct := TTLJitterPercent (Cache cfg); cfgEmptyTTL := EmptyResultTTL (Cache cfg) |}))
  else Ok None.

(** *** The rate limiter *)

Inductive Limiter :=
  | LocalLimiter (k : KeyedRateLimiter B)
  | WithFallback (f : FallbackRateLimiter B).
Definition rate_limiter (client : option RedisConfig) (cfg : Config) : result Limiter :=
  let n := RequestsPerWindow (RateLimit cfg) in
  let w := WindowSize (RateLimit cfg) in
  if String.eqb (RateLimitMode (RateLimit cfg)) "distributed" then
    match client with
    | None => Err (Errorf (Sprintf "distributed rate limiting requires redis" []))
    | Some _ => Ok (WithFallback (NewFallbackRateLimiter (NewDistributedRateLimiter n w)
                                    (NewKeyedRateLimiter n w 100000) (30 * second)))
    end
  else Ok (LocalLimiter (NewKeyedRateLimiter n w 100000)).

(** *** Authentication: [NewJWTAuthenticator] of middleware/auth.go, and the choice *)

Definition loadPublicKey (path : string) : result PublicKey :=
  _ ← guard_err (String.eqb path EmptyString) (Errorf (Sprintf "public key file path is empty" []));
  match ReadFile env path with
  | None => Err (Errorf (Sprintf "failed to read public key file: %w" []))
  | Some data =>
      match pem_Decode env data with
      | None => Err (Errorf (Sprintf "failed to decode PEM block from %s" [AStr path]))
      | Some block =>
          match ParsePKIXPublicKey env block with
          | None => Err (Errorf (Sprintf "failed to parse public key: %w" []))
          | Some pub => Ok pub
          end
      end
  end.
Definition NewJWTAuthenticator (cfg : JWTConfig) (algo : string) : result JWTAuthenticator :=
  let auth sec pub := {| algorithm := algo; secret := sec; publicKey := pub; issuer := Issuer cfg |} in
  if String.eqb algo "HS256" then
    _ ← guard_err (String.eqb (Secret cfg) EmptyString) (Errorf (Sprintf "jwt: secret is required for HS256" []));
    Ok (auth (Secret cfg) None)
  else if String.eqb algo "RS256" then
    pub ← fatal "jwt: failed to load RS256 public key: %w" (loadPublicKey (PublicKeyFile cfg));
    match pub with RSAKey _ => Ok (auth EmptyString (Some pub)) | _ => Err (Errorf (Sprintf "jwt: public key is not RSA" [])) end
  else if String.eqb algo "ES256" then
    pub ← fatal "jwt: failed to load ES256 public key: %w" (loadPublicKey (PublicKeyFile cfg));
    match pub with ECDSAKey _ => Ok (auth EmptyString (Some pub)) | _ => Err (Errorf (Sprintf "jwt: public key is not ECDSA" [])) end
  else Err (Errorf (Sprintf "jwt: unsupported algorithm %q" [AStr algo])).

Inductive Authn :=
  | NoAuthentication
  | JWTAuthn (j : JWTAuthenticator)
  | APIKeyAuthn (keys : list APIKeyEntry).
Definition api_key (e : APIKeyConfigEntry) : APIKeyConfig :=
  {| cID := ID e; cKey := Key e; cExpires := Config.ExpiresAt e; cDatasources := PermDatasources e; cOperations := PermOperations e |}.
Definition new_authenticator (cfg : Config) : result Authn :=
  let auth := Auth cfg in
  if String.eqb (AuthMethod auth) "jwt"
  then JWTAuthn <$> fatal "failed to init JWT authenticator" (NewJWTAuthenticator (JWT auth) (Algorithm (JWT auth)))
  else if String.eqb (AuthMethod auth) "apikey"
  then APIKeyAuthn <$> fatal "failed to init API Key authenticator"
         (NewAPIKeyAuthenticator (parse_rfc3339 steps) (map api_key (APIKeys auth)))
  else Ok NoAuthentication.

Definition NewAuthFailureLimiter (cfg : AuthFailureConfig) (trustedProxies : list string) : result AuthFailureLimiter :=
  nets ← mapR (fun cidr => from_option Ok (Err (Errorf (Sprintf "invalid CIDR address: %s" [AStr cidr]))) (Net.ParseCIDR cidr)) trustedProxies;
  Ok {| failures := ∅; threshold := Threshold cfg; window := Window cfg; banDur := BanDuration cfg; trustedProxies := nets |}.
Definition failure_limiter (cfg : Config) : result (option AuthFailureLimiter) :=
  if AuthFailureEnabled (AuthFailure cfg)
  then Some <$> fatal "failed to init auth failure limiter" (NewAuthFailureLimiter (AuthFailure cfg) (TrustedProxies (Auth cfg)))
  else Ok None.

(** *** Mutations *)

Record MutationParts := {
  mp_writable : WritableTableValidator;
  mp_validator : MutationValidator;
  mp_limiter : KeyedRateLimiter B;
}.
Definition no_datasource : DataSourceConfig :=
  {| DsName := EmptyString; DsType := EmptyString; Enabled := false; Connection := []; DsOptions := [] |}.
Definition mutation_parts (cfg : Config) : result (option MutationParts) :=
  let mc := Mutations cfg in
  _ ← fatal "invalid mutation configuration" (ValidateMutationsConfig cfg);
  if MutationsEnabled mc then
    let dsCfg := default no_datasource (List.find (fun ds => String.eqb (DsName ds) (MutDatasourceName mc)) (Datasources cfg)) in
    writable ← fatal "failed to parse writable tables" (ParseWritableTables dsCfg);
    allowed ← fatal "failed to parse allowed tables for mutation datasource" (ParseAllowedTables dsCfg);
    _ ← fatal "writable tables validation failed" (ValidateWritableSubset (worder writable) corder writable allowed);
    Ok (Some {| mp_writable := {| writableTables := writable; vAllowedTables := allowed |};
                mp_validator := {| maxBatchSize := MaxBatchSize mc; maxSQLLength := MaxSQLLength mc |};
                mp_limiter := NewKeyedRateLimiter (MutRequestsPerWindow (MutRateLimit mc)) (MutWindowSize (MutRateLimit mc)) 100000 |})
  else Ok None.

(** *** The template engine: whether there is one *)

(** A panic of [MustRegister]. *)
Definition registered {A} (x : option A) : result A :=
  match x with Some a => Ok a | None => Err (Errorf (Sprintf "panic: the metrics registry rejects a label" [])) end.
Definition metrics_collector (cfg : Config) : result (Metrics.MetricsCollector (G := G)) :=
  registered (Metrics.NewMetricsCollector (CustomLabels (Metrics cfg))).
Definition template_engine (mc : Metrics.MetricsCollector (G := G)) (cfg : Config) : result bool :=
  let sec := Templates cfg in
  let dev := String.eqb (ServerMode (Server cfg)) "development" in
  if negb (TemplatesEnabled sec) then Ok false
  else match st_Get steps (TemplatesDatasource sec) with
       | Err err =>
           if dev then Ok false else Err (Wrap (Sprintf "sql_templates enabled but configured datasource not available" []) err)
       | Ok (_, is_starrocks) =>
           if is_starrocks then
             _ ← registered (Metrics.NewTemplateMetrics (Metrics.registry mc) (Metrics.customLabels mc));
             (fun _ => true) <$> fatal "failed to init template engine" (st_engine steps)
           else if dev then Ok false
           else Err (Errorf (Sprintf "sql_templates requires a StarRocks datasource" []))
       end.

(** The directories the template watcher is given. *)
Definition watch_dirs (cfg : Config) : list string :=
  let t := SQLTemplates (Templates cfg) in
  let sharedDir := if String.eqb (SharedDir t) EmptyString then path_join (BaseDir t) "_shared" else SharedDir t in
  BaseDir t :: (if String.eqb sharedDir (BaseDir t) then [] else [sharedDir]).

(** *** [main], up to [ListenAndServe] *)

(** The logger is made without a threshold for slow queries. *)
Definition main_logger (cfg : Config) : result Observability.Logger :=
  Observability.NewLogger (st_level steps) (st_zap steps)
    {| Observability.cfgLevel := Level (Logging cfg); Observability.cfgFormat := Format (Logging cfg);
       Observability.cfgSlowQueryThreshold := 0 |}.
Definition no_otel : Observability.Otel :=
  {| Observability.global_provider := Observability.NoopProvider; Observability.propagates := false |}.
Record Services := {
  sv_logger : Observability.Logger;
  sv_tracing : Observability.TracingProvider;
  sv_redis : option RedisConfig;
  sv_cache : option (CacheLayer CacheBackend);
  sv_limiter : Limiter;
  sv_auth : Authn;
  sv_failures : option AuthFailureLimiter;
  sv_mutations : option MutationParts;
  sv_templates : bool;
  sv_metrics : Metrics.MetricsCollector (G := G);
  sv_audit : Observability.AuditLogger;
}.
Definition main (cfg : Config) : result Services :=
  _ ← match (ValidateConfig env cfg).2 with None => Ok tt | Some err => Err (Wrap (Sprintf "invalid config: %v" []) err) end;
  logger ← fatal "failed to init logger: %v" (main_logger cfg);
  tracing ← fatal "failed to init tracing" (Observability.InitTracing (st_exporter steps) (Ok tt) (Tracing cfg) no_otel).1;
  redis ← fatal "failed to create redis client" (redis_client cfg);
  _ ← fatal "failed to register adapter" (st_registry steps);
  _ ← fatal "failed to init datasource manager" (st_datasources steps);
  cache ← cache_layer redis cfg;
  limiter ← rate_limiter redis cfg;
  mc ← metrics_collector cfg;
  audit ← fatal "failed to init audit logger" (Observability.NewAuditLogger (st_OpenFile steps) (Audit (Logging cfg)));
  _ ← fatal "failed to init sanitizer" (st_sanitizer steps);
  auth ← new_authenticator cfg;
  failures ← failure_limiter cfg;
  mutations ← mutation_parts cfg;
  templates ← template_engine mc cfg;
  Ok {| sv_logger := logger; sv_tracing := tracing; sv_metrics := mc; sv_audit := audit; sv_redis := redis; sv_cache := cache; sv_limiter := limiter; sv_auth := auth; sv_failures := failures;
        sv_mutations := mutations; sv_templates := templates |}.

(** The intervals of the tickers the services' goroutines create. *)
Definition limiter_tickers (l : Limiter) : list Z :=
  match l with LocalLimiter k => [cleanupInterval k] | WithFallback f => [cleanupInterval (fallback f)] end.
Definition tickers (sv : Services) : list Z :=
  limiter_tickers (sv_limiter sv)
  ++ match sv_failures sv with Some l => [window l] | None => [] end
  ++ match sv_mutations sv with Some p => [cleanupInterval (mp_limiter p)] | None => [] end.
(** A goroutine panics, and with it the process. *)
Definition crashes (sv : Services) : bool := existsb (fun d => d <=? 0) (tickers sv).
End Startup.

(** ** Theorems *)

Section Facts.
#[local] Existing Instance StarRocks.starrocks_dialect.
Context {FT : FloatText} {UT : UnicodeTables} {GR : GoRegexp}.
Context {L : Type} {CL : LRU L memoryCacheEntry}.
Context {B : Type} {TB : TokenBucket B} {LN : LuaNum} {G : Type} {MR : Metrics.Registry G}.
Variables (env : Env) (steps : Steps).
Variables (worder : gmap string WritableTableConfig -> list string) (corder : gmap string bool -> list string).
#[local] Set Default Proof Using "Type".
Notation start := (main (L := L) (B := B) (G := G) env steps worder corder).

Lemma fatal_Ok {A} msg (r : result A) x : fatal msg r = Ok x <-> r = Ok x.
Proof. destruct r; simpl; split; congruence. Qed.

(** Every part of the services of a process that serves. *)
Lemma main_Ok cfg sv : start cfg = Ok sv ->
  (ValidateConfig env cfg).2 = None /\ redis_client cfg = Ok (sv_redis sv)
  /\ cache_layer (sv_redis sv) cfg = Ok (sv_cache sv) /\ rate_limiter (sv_redis sv) cfg = Ok (sv_limiter sv)
  /\ new_authenticator env steps cfg = Ok (sv_auth sv) /\ failure_limiter cfg = Ok (sv_failures sv)
  /\ mutation_parts worder corder cfg = Ok (sv_mutations sv) /\ template_engine steps (sv_metrics sv) cfg = Ok (sv_templates sv)
  /\ metrics_collector cfg = Ok (sv_metrics sv).
Proof.
  unfold main. intros H. destruct (_).2 as [err|] eqn:Ev in H; [done|].
  repeat match goal with H : mbind _ _ = Ok _ |- _ => apply bind_Ok in H as (? & ? & H) end.
  apply Ok_inj in H. subst sv. cbn.
  match goal with H : fatal _ (redis_client _) = _ |- _ => rewrite fatal_Ok in H end. done.
Qed.

(** The files the loader reads for every template are in a watched directory. *)
Lemma shared_watched {TT : TextTemplate} d cfg : exists dir, dir ∈ watch_dirs cfg
  /\ shared_fragments d (SQLTemplates (Templates cfg)) = match loadSharedFragments d dir with Ok s => s | Err _ => no_fragments end.
Proof.
  unfold watch_dirs, shared_fragments. set (dir := if String.eqb (SharedDir _) EmptyString then _ else _). exists dir. split; [|done].
  destruct (String.eqb_spec dir (BaseDir (SQLTemplates (Templates cfg)))) as [->|_]; [by left|right; by left].
Qed.

(** *** Authentication *)

(** The keys of an authenticator that is made. *)
Definition configured_key (cfg : JWTConfig) (algo : string) (k : VerifyKey) : Prop :=
  (algo = "HS256" /\ Secret cfg <> EmptyString /\ k = SecretBytes (Secret cfg))
  \/ (algo = "RS256" /\ exists der, loadPublicKey env (PublicKeyFile cfg) = Ok (RSAKey der) /\ k = PublicVerify (Some (RSAKey der)))
  \/ (algo = "ES256" /\ exists der, loadPublicKey env (PublicKeyFile cfg) = Ok (ECDSAKey der) /\ k = PublicVerify (Some (ECDSAKey der))).
Lemma NewJWTAuthenticator_Ok cfg algo j : NewJWTAuthenticator env cfg algo = Ok j ->
  algorithm j = algo /\ issuer j = Issuer cfg /\ algo ∈ ["HS256"; "RS256"; "ES256"]
  /\ exists k, keyFunc j = Ok k /\ configured_key cfg algo k.
Proof.
  unfold NewJWTAuthenticator, configured_key, keyFunc.
  destruct (String.eqb_spec algo "HS256") as [->|_]; [|destruct (String.eqb_spec algo "RS256") as [->|_];
    [|destruct (String.eqb_spec algo "ES256") as [->|_]; [|done]]]; intros Hj; apply bind_Ok in Hj as (k & Hk & Hj).
  - apply Ok_inj in Hj as <-. destruct k. apply guard_err_Ok, String.eqb_neq in Hk.
    split_and!; [done|done|set_solver|]. eexists. split; [reflexivity|]. by left.
  - rewrite fatal_Ok in Hk. destruct k as [der|der|]; try done. apply Ok_inj in Hj as <-.
    split_and!; [done|done|set_solver|]. eexists. split; [reflexivity|]. right; left. eauto.
  - rewrite fatal_Ok in Hk. destruct k as [der|der|]; try done. apply Ok_inj in Hj as <-.
    split_and!; [done|done|set_solver|]. eexists. split; [reflexivity|]. right; right. eauto.
Qed.

Definition with_method (m : string) (cfg : Config) : Config :=
  {| Server := Server cfg; GraphQL := GraphQL cfg; Datasources := Datasources cfg;
     Auth := {| AuthMethod := m; JWT := JWT (Auth cfg); APIKeys := APIKeys (Auth cfg); TrustedProxies := TrustedProxies (Auth cfg) |};
     RateLimit := RateLimit cfg; Cache := Cache cfg; CORS := CORS cfg; Compression := Compression cfg; Logging := Logging cfg;
     Sanitization := Sanitization cfg; Metrics := Metrics cfg; Tracing := Tracing cfg; Retry := Retry cfg;
     CircuitBreaker := CircuitBreaker cfg; AuthFailure := AuthFailure cfg; MaxWaitTime := MaxWaitTime cfg;
     Templates := Templates cfg; Mutations := Mutations cfg |}.

(** C16: which authenticator a started process has.  [jwt] and [apikey] are taken literally, with
    the algorithm as written (an empty one, which the validation reads as HS256, does not
    start), and everything else is no authentication.  So a method that is [jwt] between
    spaces, which the validation does not tell from [jwt], starts a server open to everyone. *)
Theorem authentication_started cfg :
  (forall sv, start cfg = Ok sv ->
     match sv_auth sv with
     | JWTAuthn j => AuthMethod (Auth cfg) = "jwt" /\ algorithm j = Algorithm (JWT (Auth cfg))
                     /\ algorithm j ∈ ["HS256"; "RS256"; "ES256"] /\ jwt_ok env (JWT (Auth cfg))
     | APIKeyAuthn _ => AuthMethod (Auth cfg) = "apikey"
     | NoAuthentication => AuthMethod (Auth cfg) ∉ ["jwt"; "apikey"]
     end)
  /\ (forall m, trim_space m = "jwt" -> m <> "jwt" ->
      (ValidateConfig env (with_method m cfg)).2 = (ValidateConfig env (with_method "jwt" cfg)).2
      /\ forall sv, start (with_method m cfg) = Ok sv -> sv_auth sv = NoAuthentication).
Proof.
  split.
  - intros sv H. apply main_Ok in H as (Hv & _ & _ & _ & Ha & _). unfold new_authenticator in Ha.
    destruct (String.eqb_spec (AuthMethod (Auth cfg)) "jwt") as [Em|Em].
    + apply result_fmap_Ok in Ha as (j & Hj & <-). rewrite fatal_Ok in Hj.
      apply NewJWTAuthenticator_Ok in Hj as (-> & _ & Hin & _). split; [done|]. split; [done|]. split; [done|].
      eapply jwt_section_accepted; [exact Hv|]. by rewrite Em.
    + destruct (String.eqb_spec (AuthMethod (Auth cfg)) "apikey") as [Ek|Ek].
      * by apply result_fmap_Ok in Ha as (ks & _ & <-).
      * apply Ok_inj in Ha. subst. rewrite <- Ha. set_solver.
  - intros m Ht Hm. split.
    + assert (E : auth_errors env (Auth (with_method m cfg)) = auth_errors env (Auth (with_method "jwt" cfg))).
      { unfold auth_errors, with_method. cbn [Auth AuthMethod JWT TrustedProxies]. by rewrite Ht. }
      unfold ValidateConfig, config_errors. by rewrite E.
    + intros sv H. apply main_Ok in H as (Hv & _ & _ & _ & Ha & _). unfold new_authenticator in Ha. cbn in Ha.
      rewrite (proj2 (String.eqb_neq _ _) Hm) in Ha. destruct (String.eqb_spec m "apikey") as [->|_]; [done|]. congruence.
Qed.

(** *** The memory size *)

Definition unit_of (u : string) : Prop := u = "KB" \/ u = "MB" \/ u = "GB".
Lemma digits_visible s : str_forallb is_digit s = true -> str_forallb visible s = true.
Proof. apply str_forallb_impl. by intros [[] [] [] [] [] [] [] []]. Qed.
Lemma upper_caseless s : str_forallb (fun c => visible c && negb (is_lower c)) s = true -> to_upper s = s.
Proof.
  intros H. assert (E : str_forallb is_ascii_byte s = true /\ str_map upper_byte s = s).
  { induction s as [|c s IH]; [done|]. simpl in H |- *. apply andb_true_iff in H as [[Hv Hl]%andb_true_iff H].
    destruct (IH H) as [-> ->]. unfold upper_byte. apply negb_true_iff in Hl. rewrite Hl.
    split; [|done]. unfold visible in Hv. unfold is_ascii_byte. lia. }
  destruct E as [Ha Hm]. unfold to_upper. by rewrite Ha.
Qed.
Lemma fraction_pattern ds fs u : str_forallb is_digit ds = true -> ds <> EmptyString ->
  str_forallb is_digit fs = true -> fs <> EmptyString -> unit_of u ->
  sizePattern (ds +:+ "." +:+ fs +:+ u) = Some (ds +:+ "." +:+ fs, u).
Proof.
  intros Hd Hd0 Hf Hf0 Hu. unfold sizePattern. rewrite take_digits_all by done.
  rewrite (proj2 (String.eqb_neq _ _) Hd0), str_drop_app. change ("." +:+ fs +:+ u) with (String "." (fs +:+ u)). cbv iota beta.
  rewrite take_digits_all by (done || by destruct Hu as [ -> |[ -> | -> ]]).
  rewrite (proj2 (String.eqb_neq _ _) Hf0), str_drop_app. by destruct Hu as [ -> |[ -> | -> ]].
Qed.
Lemma fraction_refused ds fs u : str_forallb is_digit ds = true -> str_forallb is_digit fs = true -> unit_of u ->
  exists e, parseMemorySize (ds +:+ "." +:+ fs +:+ u) = Err e.
Proof.
  intros Hd Hf Hu. rewrite <- !str_app_assoc. set (x := (ds +:+ ".") +:+ fs).
  assert (Hx : str_forallb (fun c => visible c && negb (is_lower c)) x = true).
  { assert (Hdig : forall t, str_forallb is_digit t = true -> str_forallb (fun c => visible c && negb (is_lower c)) t = true).
    { intros t. apply str_forallb_impl. by intros [[] [] [] [] [] [] [] []]. }
    unfold x. rewrite !str_forallb_app, (Hdig _ Hd), (Hdig _ Hf). done. }
  assert (Hdot : parse_int x = None).
  { apply (parse_int_only_digits x "."); try done. unfold x. rewrite !count_byte_app. simpl. lia. }
  assert (Hvis : forall t, str_forallb (fun c => visible c && negb (is_lower c)) t = true -> trim_space t = t).
  { intros t H. apply trim_space_visible. eapply str_forallb_impl; [|exact H]. by intros c [Hc _]%andb_true_iff. }
  assert (Hxu : str_forallb (fun c => visible c && negb (is_lower c)) (x +:+ u) = true).
  { rewrite str_forallb_app, Hx. by destruct Hu as [ -> |[ -> | -> ]]. }
  unfold parseMemorySize. destruct (String.eqb_spec (x +:+ u) EmptyString) as [E|_].
  { apply (f_equal String.length) in E. rewrite str_length_app in E. by destruct Hu as [ -> |[ -> | -> ]]; simpl in E; lia. }
  rewrite (upper_caseless _ Hxu), (Hvis _ Hxu).
  destruct Hu as [ -> |[ -> | -> ]]; unfold suffix_size, multipliers; rewrite ?has_suffix_cat by done;
    cbn [has_suffix]; rewrite ?cut_suffix_cat, ?(Hvis _ Hx), ?Hdot by done; by eexists.
Qed.

(** a fractional memory size.  The validation accepts [1.5GB] and the like, whenever the
    number is not too small; the memory cache does not know them, so a configuration with
    such a size and the memory cache enabled does not start. *)
Theorem fractional_size_refused cfg ds fs u :
  str_forallb is_digit ds = true -> ds <> EmptyString -> str_forallb is_digit fs = true -> fs <> EmptyString ->
  unit_of u -> MaxMemorySize (Memory (Cache cfg)) = ds +:+ "." +:+ fs +:+ u ->
  (forall v, parse_float (ds +:+ "." +:+ fs) = Some v ->
     0 < int_of_float (float_mul v (float_of_int (unit_multiplier u))) ->
     memory_size_errors (MaxMemorySize (Memory (Cache cfg))) = [])
  /\ (CacheEnabled (Cache cfg) = true -> Backend (Cache cfg) = "memory" -> forall sv, start cfg <> Ok sv).
Proof.
  intros Hd Hd0 Hf Hf0 Hu Hsz. rewrite Hsz. split.
  - intros v Hv Hpos. unfold memory_size_errors, Config.ParseSizeString.
    destruct (String.eqb _ _); [done|]. rewrite trim_space_visible; [rewrite fraction_pattern, Hv by done|];
      [|rewrite !str_forallb_app, (digits_visible ds Hd), (digits_visible fs Hf); by destruct Hu as [ -> |[ -> | -> ]]].
    replace (to_upper u) with u by (by destruct Hu as [ -> |[ -> | -> ]]).
    rewrite (proj2 (Z.leb_gt _ _) Hpos). cbv iota beta. by rewrite (proj2 (Z.leb_gt _ _) Hpos).
  - intros He Hb sv (_ & _ & Hc & _)%main_Ok. unfold cache_layer, cache_backend in Hc. rewrite He, Hb in Hc.
    destruct (fraction_refused ds fs u Hd Hf Hu) as [e E]. unfold NewMemoryCache in Hc. rewrite Hsz, E in Hc. done.
Qed.

(** *** Background goroutines *)

Definition with_windows (failure mutation : Z) (cfg : Config) : Config :=
  {| Server := Server cfg; GraphQL := GraphQL cfg; Datasources := Datasources cfg; Auth := Auth cfg;
     RateLimit := RateLimit cfg; Cache := Cache cfg; CORS := CORS cfg; Compression := Compression cfg; Logging := Logging cfg;
     Sanitization := Sanitization cfg; Metrics := Metrics cfg; Tracing := Tracing cfg; Retry := Retry cfg;
     CircuitBreaker := CircuitBreaker cfg;
     AuthFailure := {| AuthFailureEnabled := AuthFailureEnabled (AuthFailure cfg); Threshold := Threshold (AuthFailure cfg);
                       Window := failure; BanDuration := BanDuration (AuthFailure cfg) |};
     MaxWaitTime := MaxWaitTime cfg; Templates := Templates cfg;
     Mutations := {| MutationsEnabled := MutationsEnabled (Mutations cfg); MutDatasourceName := MutDatasourceName (Mutations cfg);
                     MaxAffectedRows := MaxAffectedRows (Mutations cfg); MaxBatchSize := MaxBatchSize (Mutations cfg);
                     MaxSQLLength := MaxSQLLength (Mutations cfg);
                     MutRateLimit := {| MutRequestsPerWindow := MutRequestsPerWindow (MutRateLimit (Mutations cfg));
                                        MutWindowSize := mutation |} |} |}.
Definition in_years (d : Z) : Prop := - 2 ^ 62 <= d < 2 ^ 62.
Lemma double_window d : in_years d -> wrap64 (2 * d) = 2 * d.
Proof. unfold in_years. intros H. apply wrap64_id. unfold in_int64, min_int64, max_int64. lia. Qed.
Lemma accepted_windows cfg : (ValidateConfig env cfg).2 = None -> 0 < WindowSize (RateLimit cfg).
Proof.
  unfold ValidateConfig, config_errors. cbn [snd]. destruct (_ ++ _)%list eqn:H; [|done]. intros _. no_errors. lia.
Qed.

(** when a started process dies of a background goroutine.  For windows below 146 years, a
    goroutine panics exactly when the failure limiter is enabled with a window that is not
    positive, or mutations are enabled with a rate limit window that is not positive, and the
    validation looks at neither window; the window of the general limit never kills it. *)
Theorem ticker_panics cfg sv :
  start cfg = Ok sv -> in_years (WindowSize (RateLimit cfg)) -> in_years (MutWindowSize (MutRateLimit (Mutations cfg))) ->
  (crashes sv = true <->
     AuthFailureEnabled (AuthFailure cfg) = true /\ Window (AuthFailure cfg) <= 0
     \/ MutationsEnabled (Mutations cfg) = true /\ MutWindowSize (MutRateLimit (Mutations cfg)) <= 0)
  /\ forall w w', (ValidateConfig env (with_windows w w' cfg)).2 = None
                 /\ ValidateMutationsConfig (with_windows w w' cfg) = ValidateMutationsConfig cfg.
Proof.
  intros H Hw Hm. apply main_Ok in H as (Hv & _ & _ & Hl & _ & Hf & Hp & _). split; [|by intros; split].
  pose proof (accepted_windows cfg Hv) as Hpos.
  assert (El : existsb (fun d => d <=? 0) (limiter_tickers (sv_limiter sv)) = false).
  { unfold rate_limiter in Hl. destruct (String.eqb _ _); [destruct (sv_redis sv); [|done]|]; apply Ok_inj in Hl as <-;
      simpl; rewrite double_window by done; lia. }
  unfold crashes, tickers. rewrite !existsb_app, El.
  assert (Ef : existsb (fun d => d <=? 0) match sv_failures sv with Some l => [window l] | None => [] end = true
               <-> AuthFailureEnabled (AuthFailure cfg) = true /\ Window (AuthFailure cfg) <= 0).
  { unfold failure_limiter in Hf. destruct (AuthFailureEnabled _).
    - apply result_fmap_Ok in Hf as (l & Hl' & <-). rewrite fatal_Ok in Hl'. unfold NewAuthFailureLimiter in Hl'.
      apply bind_Ok in Hl' as (? & _ & Hl'). apply Ok_inj in Hl' as <-. simpl. rewrite orb_false_r. split; intros; [split; [done|lia]|lia].
    - apply Ok_inj in Hf as <-. simpl. split; [done|by intros []]. }
  assert (Ep : existsb (fun d => d <=? 0) match sv_mutations sv with Some p => [cleanupInterval (mp_limiter p)] | None => [] end = true
               <-> MutationsEnabled (Mutations cfg) = true /\ MutWindowSize (MutRateLimit (Mutations cfg)) <= 0).
  { unfold mutation_parts in Hp. apply bind_Ok in Hp as (? & _ & Hp). destruct (MutationsEnabled _).
    - apply bind_Ok in Hp as (? & _ & Hp). apply bind_Ok in Hp as (? & _ & Hp). apply bind_Ok in Hp as (? & _ & Hp).
      apply Ok_inj in Hp as <-. simpl. rewrite double_window, orb_false_r by done. split; intros; [split; [done|lia]|lia].
    - apply Ok_inj in Hp as <-. simpl. split; [done|by intros []]. }
  cbn [orb]. rewrite orb_true_iff, Ef, Ep. done.
Qed.

(** *** Custom labels of the metrics *)

Definition with_labels (cl : list (string * string)) (cfg : Config) : Config :=
  {| Server := Server cfg; GraphQL := GraphQL cfg; Datasources := Datasources cfg; Auth := Auth cfg;
     RateLimit := RateLimit cfg; Cache := Cache cfg; CORS := CORS cfg; Compression := Compression cfg; Logging := Logging cfg;
     Sanitization := Sanitization cfg; Metrics := {| CustomLabels := cl |}; Tracing := Tracing cfg; Retry := Retry cfg;
     CircuitBreaker := CircuitBreaker cfg; AuthFailure := AuthFailure cfg;
     MaxWaitTime := MaxWaitTime cfg; Templates := Templates cfg; Mutations := Mutations cfg |}.
(** a custom label that is named like a label the metrics vary.  The validation accepts any
    custom labels; but a process whose labels contain [datasource], [status], [table] or
    another such name, or a name the registry rejects, does not start: the registration of
    the metrics panics. *)
Theorem reserved_label_kills {MRL : Metrics.RegistryLaws MR} cl cfg :
  NoDup cl.*1 ->
  (ValidateConfig env (with_labels cl cfg)).2 = (ValidateConfig env cfg).2
  /\ (~ Metrics.label_free Metrics.reserved_labels cl -> forall sv, start (with_labels cl cfg) <> Ok sv).
Proof.
  intros Hnd. split; [done|]. intros Hl sv H. apply main_Ok in H as (_ & _ & _ & _ & _ & _ & _ & _ & Hm).
  unfold metrics_collector in Hm. cbn [Metrics with_labels CustomLabels] in Hm. apply Hl.
  apply (Metrics.NewMetricsCollector_iff cl Hnd). destruct (Metrics.NewMetricsCollector cl); [by eexists|done].
Qed.

(** *** Redis and the cache *)

Lemma insert_all_other {A} (l : list (string * A)) (m : gmap string A) k :
  k ∉ l.*1 -> foldl (fun m kd => <[kd.1 := kd.2]> m) m l !! k = m !! k.
Proof.
  revert m. induction l as [|[k' v'] l IH]; intros m Hk; simpl; [done|].
  apply not_elem_of_cons in Hk as [Hne Hk]. rewrite IH by done. by apply lookup_insert_ne.
Qed.
Lemma insert_all_elem {A} (l : list (string * A)) (m : gmap string A) k v :
  NoDup l.*1 -> (k, v) ∈ l -> foldl (fun m kd => <[kd.1 := kd.2]> m) m l !! k = Some v.
Proof.
  revert m. induction l as [|[k' v'] l IH]; intros m Hnd Hin; simpl; [by apply elem_of_nil in Hin|].
  apply NoDup_cons in Hnd as [Hk Hnd]. apply elem_of_cons in Hin as [[= -> ->]|Hin]; [|by apply IH].
  rewrite insert_all_other by done. apply lookup_insert_eq.
Qed.
Lemma template_ttl_keys (ts : list TemplateConfig) : NoDup (map tcName ts) ->
  NoDup (omap (fun t => match tcCacheTTL t with Some d => Some ("template:" +:+ tcName t, d) | None => None end) ts).*1.
Proof.
  induction ts as [|t ts IH]; intros Hnd; simpl in *; [constructor|]. apply NoDup_cons in Hnd as [Ht Hnd].
  destruct (tcCacheTTL t) as [d|]; simpl; [|by apply IH]. apply NoDup_cons. split; [|by apply IH].
  intros ([k v] & Hk & (t' & Hin & Ht')%list_elem_of_omap)%list_elem_of_fmap. apply Ht.
  destruct (tcCacheTTL t') as [d'|]; [|done]. injection Ht' as <- <-. simpl in Hk. injection Hk as Hk.
  apply list_elem_of_fmap. by exists t'.
Qed.

(** a template's time to live.  In a started process with a cache, an entry of a template
    with [cache_ttl] lives that long, whatever the data sources' settings are named. *)
Theorem template_ttl_effective cfg sv cl t d :
  start cfg = Ok sv -> sv_cache sv = Some cl -> TemplatesEnabled (Templates cfg) = true ->
  t ∈ TemplateLoader.Templates (SQLTemplates (Templates cfg)) -> tcCacheTTL t = Some d ->
  ttlForDatasource cl ("template:" +:+ tcName t) = d.
Proof.
  intros H Hcl Ht Hin Hd. apply main_Ok in H as (Hv & _ & Hc & _). rewrite Hcl in Hc. unfold cache_layer in Hc.
  destruct (CacheEnabled _); [|done]. apply bind_Ok in Hc as (b & _ & Hc). apply Ok_inj in Hc. injection Hc as <-.
  unfold ttlForDatasource, NewCacheLayer. cbn [ttlConfig cfgTTLConfig]. unfold ttl_config. rewrite foldl_app.
  erewrite insert_all_elem; [reflexivity| |].
  - unfold template_ttls. rewrite Ht. by apply template_ttl_keys, (accepted_templates env cfg Hv Ht).
  - unfold template_ttls. rewrite Ht. apply list_elem_of_omap. exists t. by rewrite Hd.
Qed.

(** which Redis server a process uses.  Its address and database come from the same
    section, the rate limit's before the cache's, but the password comes from the first
    section that has one: without a password of its own, the rate limit's server is sent the
    password of the cache's. *)
Theorem redis_settings cfg sv c :
  start cfg = Ok sv -> sv_redis sv = Some c ->
  let rl := Redis (RateLimit cfg) in let ca := CacheRedis (Cache cfg) in
  (Addr rl <> EmptyString -> Addr c = Addr rl /\ DB c = DB rl)
  /\ (Addr rl = EmptyString -> Addr ca <> EmptyString -> Addr c = Addr ca /\ DB c = DB ca)
  /\ Addr c <> EmptyString
  /\ (Addr rl <> EmptyString -> Password rl = EmptyString -> Password c = Password ca).
Proof.
  intros H Hc. apply main_Ok in H as (_ & Hr & _). rewrite Hc in Hr. unfold redis_client, NewRedisClient in Hr.
  destruct (needsRedis cfg); [|done]. apply result_fmap_Ok in Hr as (c' & Hc' & [= <-]).
  apply bind_Ok in Hc' as ([] & Hg & Hc'). apply guard_err_Ok in Hg. apply Ok_inj in Hc' as <-.
  cbn [Addr Password DB] in *. apply String.eqb_neq in Hg. cbv zeta.
  unfold resolveRedisAddr, resolveRedisDB, resolveRedisPassword in *.
  destruct (String.eqb_spec (Addr (Redis (RateLimit cfg))) EmptyString), (String.eqb_spec (Addr (CacheRedis (Cache cfg))) EmptyString),
    (String.eqb_spec (Password (Redis (RateLimit cfg))) EmptyString); cbn [negb] in *; tauto.
Qed.
End Facts.

(** ** Concrete instances *)

Section Witnesses.
#[local] Existing Instance demo_regexp.
#[local] Existing Instance demo_lua.
#[local] Existing Instance demo_unicode.
#[local] Existing Instance Metrics.demo_registry.
Definition demo_numbers : FloatText := {|
  parse_float s := if String.eqb s "256" then Some (float_of_int 256)
                   else if String.eqb s "1.5" then Some (float_div (float_of_int 3) (float_of_int 2)) else None;
  format_float _ := EmptyString;
|}.
#[local] Existing Instance demo_numbers.

Definition demo_env : Env := {|
  ReadFile _ := None; pem_Decode _ := None; ParsePKIXPublicKey _ := None;
  LookupEnv name := if String.eqb name "DB_HOST" then Some "10.0.0.7" else None;
|}.
Definition demo_steps : Steps := {|
  st_level _ := Ok 0; st_zap := Ok tt; st_exporter _ := Ok tt; st_registry := Ok tt; st_datasources := Ok tt;
  st_OpenFile _ := Ok tt; st_sanitizer := Ok tt;
  st_Get _ := Ok ("starrocks", true); st_engine := Ok tt; parse_rfc3339 _ := None;
|}.
Definition demo_table : list (string * GoVal) := [("orders", VMap [("columns", VSlice [VString "id"])])].
Definition demo_source : DataSourceConfig := {|
  DsName := "sr"; DsType := "starrocks"; Enabled := true; Connection := [];
  DsOptions := [("allowed_tables", VMap demo_table); ("writable_tables", VMap demo_table)] |}.
Definition demo_template : TemplateConfig := {|
  tcName := "daily"; tcFile := "daily.sql"; tcDescription := EmptyString; tcCacheEnabled := None;
  tcCacheTTL := Some (5 * second); tcCountEnabled := None; tcParameters := [] |}.
Definition demo_cfg (method algo size : string) (window : Z) : Config :=
  let d := setDefaults in {|
  Server := Server d; GraphQL := GraphQL d; Datasources := [demo_source];
  Auth := {| AuthMethod := method; JWT := {| Algorithm := algo; Secret := "0123456789abcdef0123456789abcdef";
                                           PublicKeyFile := EmptyString; Issuer := EmptyString |};
             APIKeys := []; TrustedProxies := [] |};
  RateLimit := {| RateLimitMode := "distributed"; RequestsPerWindow := 100; WindowSize := 60 * second;
                  Redis := {| Addr := "limits:6379"; Password := EmptyString; DB := 1 |} |};
  Cache := {| CacheEnabled := true; Backend := "memory"; DefaultTTL := 60 * second; EmptyResultTTL := 30 * second;
              TTLJitterPercent := 10; Memory := {| MaxEntries := 10000; MaxMemorySize := size |};
              CacheRedis := {| Addr := "cache:6379"; Password := "secret"; DB := 2 |}; PerDatasource := [] |};
  CORS := CORS d; Compression := Compression d; Logging := Logging d; Sanitization := Sanitization d; Metrics := Metrics d;
  Tracing := Tracing d; Retry := Retry d; CircuitBreaker := CircuitBreaker d;
  AuthFailure := {| AuthFailureEnabled := true; Threshold := 10; Window := window; BanDuration := 60 * second |};
  MaxWaitTime := MaxWaitTime d;
  Templates := {| TemplatesEnabled := true; TemplatesDatasource := "sr";
                  SQLTemplates := {| BaseDir := "./t"; SharedDir := EmptyString; RenderTimeout := second;
                                     MaxRenderedSQLLen := 65536; MaxConcurrentQueries := 10;
                                     TemplateLoader.Templates := [demo_template] |} |};
  Mutations := {| MutationsEnabled := true; MutDatasourceName := "sr"; MaxAffectedRows := 1000; MaxBatchSize := 500;
                  MaxSQLLength := 1024; MutRateLimit := {| MutRequestsPerWindow := 20; MutWindowSize := window |} |} |}.
Definition demo_worder (m : gmap string WritableTableConfig) : list string := (map_to_list m).*1.
Definition demo_corder (m : gmap string bool) : list string := (map_to_list m).*1.
Definition demo_start (cfg : Config) : result (Services (L := list_cache memoryCacheEntry) (B := exact_bucket) (G := list string)) :=
  main (B := exact_bucket) (G := list string) demo_env demo_steps demo_worder demo_corder cfg.
Lemma demo_accepted m : m = "jwt" \/ m = " jwt" -> (ValidateConfig demo_env (demo_cfg m "HS256" "256MB" second)).2 = None.
Proof. by intros [ -> | -> ]; vm_compute. Qed.
Lemma demo_started : exists sv, demo_start (demo_cfg "jwt" "HS256" "256MB" 0) = Ok sv.
Proof. eexists. vm_compute. reflexivity. Qed.
Lemma demo_open : exists sv, demo_start (demo_cfg " jwt" "HS256" "256MB" second) = Ok sv.
Proof. eexists. vm_compute. reflexivity. Qed.

Lemma accepted_config_iff_witness : enabled_names (demo_cfg "jwt" "HS256" "256MB" second) = ["sr"]
  /\ Forall (datasource_ok) (List.filter Enabled (Datasources (demo_cfg "jwt" "HS256" "256MB" second)))
  /\ jwt_ok demo_env (JWT (Auth (demo_cfg " jwt" "HS256" "256MB" second))).
Proof.
  split; [reflexivity|]. split.
  - apply (proj1 (accepted_config_iff demo_env (demo_cfg "jwt" "HS256" "256MB" second)) (demo_accepted "jwt" (or_introl eq_refl))).
  - destruct (proj1 (accepted_config_iff demo_env (demo_cfg " jwt" "HS256" "256MB" second)) (demo_accepted " jwt" (or_intror eq_refl)))
      as (_ & _ & _ & [[H|[_ H]] _] & _); [|exact H].
    exfalso. assert (E : trim_space (AuthMethod (Auth (demo_cfg " jwt" "HS256" "256MB" second))) = "jwt") by reflexivity.
    rewrite E in H. by apply elem_of_cons in H as [H|H%list_elem_of_singleton].
Defined.

Lemma connection_variables_witness : ExpandEnv demo_env "tcp(${DB_HOST}:9030)" = "tcp(10.0.0.7:9030)"
  /\ ExpandEnv demo_env "pa$word" = "pa".
Proof.
  split.
  - exact (proj1 (proj2 (connection_variables demo_env "tcp(" "DB_HOST" ":9030)" eq_refl eq_refl eq_refl))).
  - exact (proj2 (proj2 (connection_variables demo_env "pa" "word" EmptyString eq_refl eq_refl eq_refl)) eq_refl).
Defined.

Lemma authentication_started_witness :
  exists sv, demo_start (demo_cfg " jwt" "HS256" "256MB" second) = Ok sv /\ sv_auth sv = NoAuthentication.
Proof.
  destruct demo_open as [sv H]. exists sv. split; [exact H|]. unfold demo_start in H.
  exact (proj2 (proj2 (authentication_started (L := list_cache memoryCacheEntry) (B := exact_bucket) (G := list string) demo_env demo_steps demo_worder demo_corder (demo_cfg "jwt" "HS256" "256MB" second)) " jwt"
                  eq_refl ltac:(discriminate)) sv H).
Defined.

Lemma fractional_size_refused_witness :
  memory_size_errors "1.5GB" = [] /\ forall sv, demo_start (demo_cfg "jwt" "HS256" "1.5GB" second) <> Ok sv.
Proof.
  pose proof (fractional_size_refused (L := list_cache memoryCacheEntry) (B := exact_bucket) (G := list string) demo_env demo_steps
    demo_worder demo_corder
    (demo_cfg "jwt" "HS256" "1.5GB" second) "1" "5" "GB" eq_refl
    ltac:(discriminate) eq_refl ltac:(discriminate) (or_intror (or_intror eq_refl)) eq_refl) as [H1 H2].
  split; [by apply (H1 (float_div (float_of_int 3) (float_of_int 2)))|unfold demo_start; by apply H2].
Defined.

Lemma ticker_panics_witness : exists sv, demo_start (demo_cfg "jwt" "HS256" "256MB" 0) = Ok sv /\ crashes sv = true.
Proof.
  destruct demo_started as [sv H]. exists sv. split; [exact H|]. unfold demo_start in H.
  pose proof (ticker_panics (L := list_cache memoryCacheEntry) (B := exact_bucket) (G := list string) demo_env demo_steps demo_worder demo_corder
    (demo_cfg "jwt" "HS256" "256MB" 0) sv) as T.
  specialize (T H). clear H.
  assert (A1 : in_years (WindowSize (RateLimit (demo_cfg "jwt" "HS256" "256MB" 0)))) by (split; [discriminate|reflexivity]).
  assert (A2 : in_years (MutWindowSize (MutRateLimit (Mutations (demo_cfg "jwt" "HS256" "256MB" 0))))) by (split; [discriminate|reflexivity]).
  destruct (T A1 A2) as [T1 _]. apply T1. left. split; [reflexivity|exact (Z.le_refl 0)].
Defined.

Lemma reserved_label_kills_witness : forall sv,
  demo_start (with_labels [("status", "canary")] (demo_cfg "jwt" "HS256" "256MB" second)) <> Ok sv.
Proof.
  pose proof (reserved_label_kills (L := list_cache memoryCacheEntry) (B := exact_bucket) (G := list string) (MRL := Metrics.demo_registry_laws)
    demo_env demo_steps demo_worder demo_corder [("status", "canary")] (demo_cfg "jwt" "HS256" "256MB" second)
    ltac:(decided)) as [_ H].
  unfold demo_start. apply H. intros Hf. apply Forall_inv in Hf as [_ Hf]. apply Hf. decided.
Defined.

Lemma template_ttl_effective_witness : exists sv cl, demo_start (demo_cfg "jwt" "HS256" "256MB" 0) = Ok sv
  /\ sv_cache sv = Some cl /\ ttlForDatasource cl "template:daily" = 5 * second.
Proof.
  destruct demo_started as [sv H].
  assert (Hc : exists cl, sv_cache sv = Some cl).
  { apply main_Ok in H as (_ & _ & Hc & _). unfold cache_layer, cache_backend in Hc. cbn [Cache demo_cfg CacheEnabled Backend] in Hc.
    apply bind_Ok in Hc as (b & _ & Hc). apply Ok_inj in Hc. by eexists. }
  destruct Hc as [cl Hc]. exists sv, cl. split; [exact H|]. split; [exact Hc|].
  exact (template_ttl_effective (L := list_cache memoryCacheEntry) (B := exact_bucket) (G := list string) demo_env demo_steps demo_worder demo_corder (demo_cfg "jwt" "HS256" "256MB" 0) sv cl demo_template (5 * second)
           H Hc eq_refl (list_elem_of_here _ _) eq_refl).
Defined.

Lemma redis_settings_witness : exists sv c, demo_start (demo_cfg "jwt" "HS256" "256MB" 0) = Ok sv
  /\ sv_redis sv = Some c /\ Addr c = "limits:6379" /\ Password c = "secret".
Proof.
  destruct demo_started as [sv H].
  assert (Hc : exists c, sv_redis sv = Some c).
  { apply main_Ok in H as (_ & Hc & _). unfold redis_client in Hc. cbn in Hc. apply Ok_inj in Hc. by eexists. }
  destruct Hc as [c Hc]. exists sv, c. split; [exact H|]. split; [exact Hc|].
  pose proof (redis_settings (L := list_cache memoryCacheEntry) (B := exact_bucket) (G := list string) demo_env demo_steps demo_worder demo_corder (demo_cfg "jwt" "HS256" "256MB" 0) sv c H Hc) as (H1 & _ & _ & H2).
  split; [by apply H1|by apply H2].
Defined.
End Witnesses.
