(* ===== verification/Lifecycle.v ===== *)
(** * cmd/server and internal/server: what a process does besides serving

    main.go's choice of the configuration file, the health probe, the banner (banner.go), and
    the shutdown sequences of main.go and of server.go, whose [Server] main.go uses only for
    its handlers.  A shutdown is the list of what it does in order; what each service answers
    when it is stopped is an argument, and so is the time it is given. *)
From S2P Require Import Prelude GoStrings Values GoConv DataSource Http Middleware Server Config.
From S2P Require Manager.

(** ** Start *)

(** The flag, the environment, the default. *)
Definition config_file (configPath GRAPHQL_CONFIG_PATH : string) : string :=
  if negb (String.eqb configPath EmptyString) then configPath
  else if negb (String.eqb GRAPHQL_CONFIG_PATH EmptyString) then GRAPHQL_CONFIG_PATH
  else "config.yaml".

(** [runHealthProbe]: the address it asks and the exit code for the answer, with what it prints. *)
Definition probe_url (GRAPHQL_SERVER_PORT : string) : string :=
  let port := if String.eqb GRAPHQL_SERVER_PORT EmptyString then "8080" else GRAPHQL_SERVER_PORT in
  "http://localhost:" +:+ port +:+ "/health".
Definition runHealthProbe (resp : result Z) : Z * option format :=
  match resp with
  | Err err => (1, Some (Sprintf "health check failed: %v" [AErr err]))
  | Ok status =>
      if negb (status =? 200) then (1, Some (Sprintf "health check returned status %d" [AInt status])) else (0, None)
  end.

Section Banner.
Context {DS : Type}.
Variable version : string.

Definition datasource_line (m : Manager.DataSourceManager DS) (ds : DataSourceConfig) : string :=
  let mark := match Manager.Status m (DsName ds) with
              | Some st => if Manager.Available st then "✓" else "✗"
              | None => "✗"
              end in
  DsName ds +:+ " (" +:+ DsType ds +:+ ") " +:+ mark.
(** The lines of standard output, or the fields of the one log line. *)
Definition printBanner (cfg : Config) (m : Manager.DataSourceManager DS) : list string + list (string * string) :=
  let addr := ":" +:+ itoa (Port (Config.Server cfg)) in
  if String.eqb (ServerMode (Config.Server cfg)) "development" then
    let dsLines := map (datasource_line m) (List.filter Enabled (Config.Datasources cfg)) in
    let authDisplay := if String.eqb (AuthMethod (Config.Auth cfg)) EmptyString || String.eqb (AuthMethod (Config.Auth cfg)) "none"
                       then "disabled" else AuthMethod (Config.Auth cfg) in
    inl ([EmptyString; "  MountainKing GraphQL API  " +:+ version; "  ⚠  DEVELOPMENT MODE — not for production"; EmptyString;
          "  Listen:      http://localhost" +:+ addr; "  Playground:  http://localhost" +:+ addr +:+ "/playground";
          "  Auth:        " +:+ authDisplay]
         ++ map (fun l => "  Datasources: " +:+ l) dsLines ++ [EmptyString])
  else inr [("addr", addr); ("mode", ServerMode (Config.Server cfg)); ("version", version)].
End Banner.

(** ** Shutdown *)

Inductive Task :=
  | HTTPShutdown | TracingShutdown | MetricsFlush | HotReloaderStop | WatcherStop | EngineClose | DatasourcesClose
  | FailureLimiterStop | AuditClose | LoggerSync.
#[global] Instance Task_eq_dec : EqDecision Task.
Proof. solve_decision. Defined.
(** A task is run with a time to finish in, or without. *)
Inductive Ev :=
  | Run (t : Task) (timeout : option Z)
  | Info (msg : string)
  | LogError (msg : string) (err : error).

(** A task whose error is logged and otherwise ignored. *)
Definition attempt (t : Task) (timeout : option Z) (errmsg : string) (res : result unit) : list Ev :=
  Run t timeout :: match res with Ok _ => [] | Err err => [LogError errmsg err] end.
Definition max_wait (MaxWaitTime : Z) : Z := if MaxWaitTime <=? 0 then 30 * second else MaxWaitTime.

(** *** main.go *)

(** What stopping each service answers; the optional ones may not exist. *)
Record Stops := {
  stop_http : result unit;
  stop_tracing : result unit;
  stop_watcher : option (result unit);
  stop_engine : option (result unit);
  stop_datasources : result unit;
  has_failure_limiter : bool;
}.
Definition main_shutdown (cfg : Config) (s : Stops) : list Ev :=
  let maxWait := max_wait (Config.MaxWaitTime cfg) in
  [Info "received shutdown signal"; Info "shutting down HTTP server"]
  ++ attempt HTTPShutdown (Some maxWait) "HTTP server shutdown error" (stop_http s)
  ++ attempt TracingShutdown (Some (5 * second)) "tracing provider shutdown error" (stop_tracing s)
  ++ [Run HotReloaderStop None]
  ++ match stop_watcher s with Some r => attempt WatcherStop None "template watcher stop error" r | None => [] end
  ++ match stop_engine s with Some r => attempt EngineClose None "template engine close error" r | None => [] end
  ++ attempt DatasourcesClose (Some (10 * second)) "datasource close error" (stop_datasources s)
  ++ [Info "shutdown complete"]
  (* the deferred calls, last first *)
  ++ (if has_failure_limiter s then [Run FailureLimiterStop None] else [])
  ++ [Run AuditClose None; Run LoggerSync None].

(** *** server.go *)

Record http_Server := {
  hsAddr : string; hsReadHeaderTimeout : Z; hsReadTimeout : Z; hsWriteTimeout : Z; hsIdleTimeout : Z;
}.
(** A function that is not nil is what calling it answers; [dsManager] is what its [CloseAll] does. *)
Record Server := {
  serverConfig : ServerConfig;
  graphqlConfig : GraphQLConfig;
  shutdownCfg : Z;
  dsManager : option (result unit);
  tracingShutdown : option (result unit);
  metricsFlush : option (result unit);
  httpServer : option (http_Server * result unit);
}.
Definition NewServer (serverCfg : ServerConfig) (graphqlCfg : GraphQLConfig) (shutdown : Z) (ds : option (result unit)) : Server :=
  {| serverConfig := serverCfg; graphqlConfig := graphqlCfg; shutdownCfg := shutdown; dsManager := ds;
     tracingShutdown := None; metricsFlush := None; httpServer := None |}.
Definition SetTracingShutdown (fn : option (result unit)) (s : Server) : Server :=
  {| serverConfig := serverConfig s; graphqlConfig := graphqlConfig s; shutdownCfg := shutdownCfg s; dsManager := dsManager s;
     tracingShutdown := fn; metricsFlush := metricsFlush s; httpServer := httpServer s |}.
Definition SetMetricsFlush (fn : option (result unit)) (s : Server) : Server :=
  {| serverConfig := serverConfig s; graphqlConfig := graphqlConfig s; shutdownCfg := shutdownCfg s; dsManager := dsManager s;
     tracingShutdown := tracingShutdown s; metricsFlush := fn; httpServer := httpServer s |}.
(** [down]: what [Shutdown] of the HTTP server will answer. *)
Definition Start (down : result unit) (s : Server) : Server :=
  let c := serverConfig s in
  {| serverConfig := c; graphqlConfig := graphqlConfig s; shutdownCfg := shutdownCfg s; dsManager := dsManager s;
     tracingShutdown := tracingShutdown s; metricsFlush := metricsFlush s;
     httpServer := Some ({| hsAddr := ":" +:+ itoa (Port c); hsReadHeaderTimeout := ReadHeaderTimeout c;
                            hsReadTimeout := ReadTimeout c; hsWriteTimeout := WriteTimeout c; hsIdleTimeout := IdleTimeout c |}, down) |}.
Definition optional (t : Task) (timeout : Z) (info errmsg : string) (fn : option (result unit)) : list Ev :=
  match fn with Some r => Info info :: attempt t (Some timeout) errmsg r | None => [] end.
Definition GracefulShutdown (s : Server) : list Ev :=
  let maxWait := max_wait (shutdownCfg s) in
  optional HTTPShutdown maxWait "shutting down HTTP server" "HTTP server shutdown error" (snd <$> httpServer s)
  ++ optional TracingShutdown (5 * second) "shutting down tracing provider" "tracing provider shutdown error" (tracingShutdown s)
  ++ optional MetricsFlush (5 * second) "flushing metrics" "metrics flush error" (metricsFlush s)
  ++ optional DatasourcesClose (10 * second) "closing all data source connections" "datasource close error" (dsManager s)
  ++ [Info "shutdown complete"; Run LoggerSync None].
Definition WaitForShutdown (s : Server) : list Ev := Info "received shutdown signal" :: GracefulShutdown s.

(** *** Routes and the GraphQL handler *)

Section Routes.
Context {S : Type}.
Definition SetupRoutes (s : Server) (gqlHandler playground : Handler S) (with_timeout : Handler S -> Handler S) : list (route S) :=
  [Build_route "POST" "/graphql" (with_timeout gqlHandler)]
  ++ (if Config.AllowGetQueries (serverConfig s) then [Build_route "GET" "/graphql" (with_timeout gqlHandler)] else [])
  ++ (if String.eqb (ServerMode (serverConfig s)) "development" then [Build_route "GET" "/playground" playground] else []).
End Routes.

Inductive Transport := TOptions | TPOST | TGET | TMultipartForm.
(** What [NewGraphQLHandler] configures gqlgen with. *)
Record GraphQLHandler := {
  transports : list Transport;
  queryCacheSize : Z;
  complexityLimit : option Z;
  depthLimit : option Z;
  introspection : bool;
}.
Definition NewGraphQLHandler (c : GraphQLConfig) : GraphQLHandler := {|
  transports := [TOptions; TPOST; TGET; TMultipartForm];
  queryCacheSize := 1000;
  complexityLimit := if 0 <? MaxQueryComplexity c then Some (MaxQueryComplexity c) else None;
  depthLimit := if 0 <? MaxQueryDepth c then Some (MaxQueryDepth c) else None;
  introspection := IntrospectionEnabled c;
|}.

(** ** Theorems *)

Definition runs (evs : list Ev) : list Task := omap (fun e => match e with Run t _ => Some t | _ => None end) evs.
Definition errors_logged (evs : list Ev) : list error := omap (fun e => match e with LogError _ err => Some err | _ => None end) evs.
Definition failures (rs : list (result unit)) : list error := omap (fun r => match r with Err e => Some e | Ok _ => None end) rs.
(** The time the bounded tasks have together. *)
Fixpoint time_given (evs : list Ev) : Z :=
  match evs with
  | [] => 0
  | Run _ (Some d) :: evs' => d + time_given evs'
  | _ :: evs' => time_given evs'
  end.

Lemma runs_app a b : runs (a ++ b) = runs a ++ runs b.
Proof. apply omap_app. Qed.
Lemma errors_app a b : errors_logged (a ++ b) = errors_logged a ++ errors_logged b.
Proof. apply omap_app. Qed.
Lemma time_app a b : time_given (a ++ b) = time_given a + time_given b.
Proof. induction a as [|[t [d|]|m|m err] a IH]; simpl; lia. Qed.
Lemma attempt_runs t timeout msg res : runs (attempt t timeout msg res) = [t].
Proof. by destruct res. Qed.
Lemma attempt_errors t timeout msg res : errors_logged (attempt t timeout msg res) = failures [res].
Proof. by destruct res. Qed.
Lemma attempt_time t timeout msg res : time_given (attempt t timeout msg res) = default 0 timeout.
Proof. destruct res, timeout; simpl; lia. Qed.
Lemma optional_runs t timeout info msg fn : runs (optional t timeout info msg fn) = if fn then [t] else [].
Proof. destruct fn as [r|]; [|done]. apply (attempt_runs t (Some timeout) msg r). Qed.
Lemma optional_errors t timeout info msg fn :
  errors_logged (optional t timeout info msg fn) = from_option (fun r => failures [r]) [] fn.
Proof. destruct fn as [r|]; [|done]. apply (attempt_errors t (Some timeout) msg r). Qed.
#[local] Hint Rewrite runs_app errors_app time_app attempt_runs attempt_errors attempt_time optional_runs optional_errors : shutdown.
Ltac read_shutdown := autorewrite with shutdown; cbn [runs errors_logged time_given foldr omap list_omap default].

(** the shutdown of a process.  Whatever fails, every service is stopped exactly once, in an
    order in which nothing is closed before what uses it: the HTTP server, tracing, the
    reloaders, the template engine, the data sources, then the failure limiter, the audit log
    and the logger; each failure is logged and no other; and the tasks with a time limit have
    the configured time for the requests (30 seconds when it is not positive) and 15 seconds
    more together. *)
Theorem shutdown_complete cfg s :
  let evs := main_shutdown cfg s in
  runs evs = [HTTPShutdown; TracingShutdown; HotReloaderStop]
             ++ (if stop_watcher s then [WatcherStop] else []) ++ (if stop_engine s then [EngineClose] else [])
             ++ [DatasourcesClose] ++ (if has_failure_limiter s then [FailureLimiterStop] else [])
             ++ [AuditClose; LoggerSync]
  /\ NoDup (runs evs)
  /\ errors_logged evs = failures ([stop_http s; stop_tracing s] ++ from_option (fun r => [r]) [] (stop_watcher s)
                                   ++ from_option (fun r => [r]) [] (stop_engine s) ++ [stop_datasources s])
  /\ time_given evs = (if Config.MaxWaitTime cfg <=? 0 then 30 * second else Config.MaxWaitTime cfg) + 15 * second.
Proof.
  cbv zeta.
  assert (Hr : runs (main_shutdown cfg s) = [HTTPShutdown; TracingShutdown; HotReloaderStop]
             ++ (if stop_watcher s then [WatcherStop] else []) ++ (if stop_engine s then [EngineClose] else [])
             ++ [DatasourcesClose] ++ (if has_failure_limiter s then [FailureLimiterStop] else [])
             ++ [AuditClose; LoggerSync]).
  { unfold main_shutdown. read_shutdown.
    destruct (stop_watcher s), (stop_engine s), (has_failure_limiter s); read_shutdown; reflexivity. }
  rewrite Hr. split; [done|]. split; [|split].
  - destruct (stop_watcher s), (stop_engine s), (has_failure_limiter s); decided.
  - unfold main_shutdown. read_shutdown.
    destruct (stop_watcher s), (stop_engine s), (has_failure_limiter s); read_shutdown; unfold failures;
      rewrite ?omap_app; cbn; rewrite ?app_nil_r; by repeat case_match.
  - unfold main_shutdown, max_wait. read_shutdown.
    destruct (stop_watcher s), (stop_engine s), (has_failure_limiter s); read_shutdown; unfold id; lia.
Qed.

(** the sequence server.go documents and main.go does not use.  It stops what the server
    has, in the documented order, logging each failure; the main sequence stops all of
    it but the metrics, and stops the reloaders, the template engine and the audit log besides. *)
Theorem graceful_shutdown_order s :
  runs (GracefulShutdown s) = (if httpServer s then [HTTPShutdown] else []) ++ (if tracingShutdown s then [TracingShutdown] else [])
    ++ (if metricsFlush s then [MetricsFlush] else []) ++ (if dsManager s then [DatasourcesClose] else []) ++ [LoggerSync]
  /\ errors_logged (GracefulShutdown s) = failures (omap id [snd <$> httpServer s; tracingShutdown s; metricsFlush s; dsManager s]).
Proof.
  unfold GracefulShutdown. destruct s as [c g d ds tr mf hs]. cbn [httpServer tracingShutdown metricsFlush dsManager shutdownCfg].
  read_shutdown. split; [by destruct hs as [[? ?]|]|].
  unfold failures. destruct hs as [[? [?|?]]|], tr as [[?|?]|], mf as [[?|?]|], ds as [[?|?]|]; reflexivity.
Qed.

Section RouteFacts.
Context {L A : Type}.
Notation S := (server_state L A).
Definition served {T} (m p : string) (rs : list (route T)) : Prop := exists rt, rt ∈ rs /\ r_method rt = m /\ r_path rt = p.

(** the routes of [SetupRoutes].  Each is a route of main.go too, with the same handler; a GET
    of [/graphql] is served here when [allow_get_queries] says so, and by main.go in
    development mode whatever it says. *)
Theorem setup_routes_in_main (s : Server) (c : chain_config) timeout (hs : handlers (L := L) (A := A)) :
  Server.AllowGetQueries c = Config.AllowGetQueries (serverConfig s) -> Mode c = ServerMode (serverConfig s) ->
  let own := SetupRoutes s (gqlHandler hs) (playgroundHandler hs) (WithRequestTimeout timeout) in
  (forall rt, rt ∈ own -> rt ∈ main_routes c timeout hs)
  /\ (served "GET" "/graphql" own <-> Server.AllowGetQueries c = true)
  /\ (served "GET" "/graphql" (main_routes c timeout hs) <-> Server.AllowGetQueries c = true \/ Mode c = "development").
Proof.
  intros Ha Hm. cbv zeta. unfold SetupRoutes, main_routes, served. rewrite <- Ha, <- Hm. clear Ha Hm.
  destruct (String.eqb_spec (Mode c) "development") as [Hd|Hd], (Server.AllowGetQueries c); simpl; split_and!;
    try (intros rt Hin; repeat (apply elem_of_cons in Hin as [->|Hin]; [repeat (first [by left|right])|]); by apply elem_of_nil in Hin).
  all: split; [intros (rt & Hin & H1 & H2); repeat (apply elem_of_cons in Hin as [->|Hin]; [first [done|by left|by right]|]); by apply elem_of_nil in Hin|intros H; try discriminate H; try (by destruct H)].
  all: exists (Build_route "GET" "/graphql" (WithRequestTimeout timeout (gqlHandler hs))); (split; [repeat (first [by left|right])|done]).
Qed.
End RouteFacts.

Definition demo_server : Server := Start (Ok tt) (NewServer (Config.Server setDefaults) (Config.GraphQL setDefaults) 0 (Some (Ok tt))).
Definition demo_chain : chain_config := {|
  Server.MaxRequestBodySize := "1MB"; MaxConcurrent := 0; cors := Config.CORS setDefaults; Server.AllowGetQueries := false;
  Mode := "production"; authenticator := None; auth_failure_enabled := false; client_ip _ := "10.0.0.1";
  compression := Config.Compression setDefaults; gzip_writer s := s |}.
Definition demo_handler : Handler (server_state unit unit) := fun _ h s => ({| Status := 200; RespHeaders := h; RespBody := EmptyString |}, s).
Definition demo_handlers : handlers (L := unit) (A := unit) := {|
  gqlHandler := demo_handler; LivenessCheck := demo_handler; ReadinessCheck := demo_handler; metricsHandler := demo_handler;
  playgroundHandler := demo_handler |}.
Lemma setup_routes_in_main_witness :
  Build_route "POST" "/graphql" (WithRequestTimeout 0 demo_handler) ∈ main_routes demo_chain 0 demo_handlers.
Proof.
  apply (proj1 (setup_routes_in_main demo_server demo_chain 0 demo_handlers eq_refl eq_refl)). left.
Defined.
