(* ===== verification/JwtAuth.v ===== *)
(** * What a started server with JWT authentication accepts

    The authenticator of [Auth] with the keys that [Startup] gives it, for any JWT library that
    keeps the laws of [JwtParserLaws]. *)
From S2P Require Import Prelude GoStrings Values GoConv FuncMap.
From S2P Require Import DataSource TemplateParams TemplateLoader Whitelist MutationSql.
From S2P Require Import Lru MemoryCache RateLimit DistributedLimit Auth Config Startup.
From S2P Require Metrics StarRocks Middleware.

Section Jwt.
#[local] Existing Instance StarRocks.starrocks_dialect.
Context {FT : FloatText} {UT : UnicodeTables} {GR : GoRegexp}.
Context {L : Type} {CL : LRU L memoryCacheEntry}.
Context {B : Type} {TB : TokenBucket B} {LN : LuaNum} {G : Type} {MR : Metrics.Registry G}.
Context {JP : JwtParser} {JPL : JwtParserLaws JP}.
Variables (env : Env) (steps : Steps).
Variables (worder : gmap string WritableTableConfig -> list string) (corder : gmap string bool -> list string).
#[local] Set Default Proof Using "Type".
Notation start := (main (L := L) (B := B) (G := G) env steps worder corder).

Lemma accepted_token now j r id : JWT_Authenticate now j r = inl id ->
  exists tok claims, Header r "Authorization" = "Bearer " +:+ tok /\ id = claims_identity claims
    /\ jwt_Parse now (keyFunc j) [algorithm j] (if String.eqb (issuer j) EmptyString then None else Some (issuer j)) tok = inr (true, claims).
Proof.
  unfold JWT_Authenticate. destruct (String.eqb _ _); [done|].
  destruct (has_prefix "Bearer " (Header r "Authorization")) eqn:Hp; [|done]. apply has_prefix_spec in Hp as [tok ->].
  change (str_drop 7 ("Bearer " +:+ tok)) with tok. cbn [negb].
  destruct (String.eqb _ _); [done|]. destruct (jwt_Parse _ _ _ _ _) as [|[[] claims]] eqn:E; [done|..|done].
  intros [= <-]. by exists tok, claims.
Qed.

(** C10: what a signature stands for.  A server that authenticates by JWT hands out an identity only
    for a bearer token whose header names the configured algorithm, whose signature verifies by it
    under the key of the configuration (for HS256 a secret of at least 32 bytes, else the
    public key in the configured file, which is of the kind of the algorithm), which has not
    expired and whose issuer is the configured one, if there is one; and the identity
    is what the claims of that token say.  The public key never serves as a secret. *)
Theorem jwt_identity_signed cfg sv j now r id :
  start cfg = Ok sv -> sv_auth sv = JWTAuthn j -> JWT_Authenticate now j r = inl id ->
  let jwt := JWT (Config.Auth cfg) in
  exists tok claims k, Header r "Authorization" = "Bearer " +:+ tok
    /\ jwt_alg tok = Some (Algorithm jwt) /\ jwt_claims tok = Some claims /\ id = claims_identity claims
    /\ configured_key env jwt (Algorithm jwt) k /\ jwt_verify (Algorithm jwt) k tok = true
    /\ (Algorithm jwt = "HS256" -> 32 <= slen (Secret jwt))
    /\ (Issuer jwt <> EmptyString -> assoc "iss" claims = Some (VString (Issuer jwt)))
    /\ (forall t, jwt_expiry claims = Some t -> now < t).
Proof using JPL.
  intros Hs Ha Hr. cbv zeta. apply main_Ok in Hs as (Hv & _ & _ & _ & Hn & _). rewrite Ha in Hn. unfold new_authenticator in Hn.
  destruct (String.eqb_spec (AuthMethod (Config.Auth cfg)) "jwt") as [Em|_].
  2: { destruct (String.eqb _ _); [|done]. by apply result_fmap_Ok in Hn as (? & _ & ?). }
  apply result_fmap_Ok in Hn as (j' & Hj & [= ->]). rewrite fatal_Ok in Hj.
  apply NewJWTAuthenticator_Ok in Hj as (Halg & Hiss & _ & k & Hk & Hc).
  apply accepted_token in Hr as (tok & claims & Hh & -> & Hp).
  apply jwt_Parse_valid in Hp as (alg & k' & H1 & H2 & H3 & H4 & H5 & H6 & H7).
  apply list_elem_of_singleton in H2 as ->. rewrite Hk in H4. apply Ok_inj in H4 as <-. rewrite Halg in *.
  exists tok, claims, k. split_and!; try done.
  - intros E. assert (J : jwt_ok env (JWT (Config.Auth cfg))) by (eapply jwt_section_accepted; [exact Hv|by rewrite Em]).
    destruct J as [(_ & J & _)|(J & _)]; [exact J|]. exfalso. rewrite E in J. set_solver.
  - intros Hi. apply H6. rewrite Hiss. by rewrite (proj2 (String.eqb_neq _ _) Hi).
Qed.
End Jwt.

(** ** Concrete instances *)

(** A library in which the signed token of a secret is the secret itself. *)
Definition demo_claims : list (string * GoVal) := [("sub", VString "alice"); ("operations", VSlice [VString "query"])].
Definition demo_verify (alg : string) (k : VerifyKey) (tok : string) : bool :=
  match k with SecretBytes s => String.eqb alg "HS256" && String.eqb tok s | _ => false end.
Definition demo_parser : JwtParser := {|
  jwt_alg _ := Some "HS256"; jwt_claims _ := Some demo_claims; jwt_verify := demo_verify; jwt_expiry _ := None;
  jwt_Parse _ key methods iss tok :=
    match key, iss with
    | Ok k, None => if str_in methods "HS256" && demo_verify "HS256" k tok then inr (true, demo_claims) else inl "token signature is invalid"
    | _, _ => inl "token is unverifiable"
    end |}.
Lemma demo_parser_laws : JwtParserLaws demo_parser.
Proof.
  split.
  - intros now [k|e] methods [i|] tok claims; cbn; try done. destruct (str_in methods "HS256") eqn:Em; [|done].
    destruct (demo_verify "HS256" k tok) eqn:Ev; [|done]. intros [= <-]. exists "HS256", k. split_and!; try done. by apply str_in_iff.
  - intros [s|k] tok; [by exists s|done].
  - by intros [s|k] tok.
  - by intros [s|k] tok.
Qed.
Definition demo_bearer : Request :=
  {| Path := "/graphql"; HttpMethod := "POST"; RemoteAddr := "10.0.0.1:5000";
     Header k := if String.eqb k "Authorization" then "Bearer 0123456789abcdef0123456789abcdef" else EmptyString;
     Identity := None; BatchCount := None |}.
#[local] Existing Instances TemplateParams.demo_regexp DistributedLimit.demo_lua Middleware.demo_unicode Metrics.demo_registry demo_numbers.
Lemma jwt_identity_signed_witness : exists sv j,
  demo_start (demo_cfg "jwt" "HS256" "256MB" second) = Ok sv /\ sv_auth sv = JWTAuthn j
  /\ JWT_Authenticate (JP := demo_parser) 0 j demo_bearer = inl (claims_identity demo_claims)
  /\ exists tok, Header demo_bearer "Authorization" = "Bearer " +:+ tok.
Proof.
  set (cfg := demo_cfg "jwt" "HS256" "256MB" second).
  assert (E : exists sv j, demo_start cfg = Ok sv /\ sv_auth sv = JWTAuthn j
    /\ JWT_Authenticate (JP := demo_parser) 0 j demo_bearer = inl (claims_identity demo_claims))
    by (eexists _, _; split; [vm_compute; reflexivity|]; split; [reflexivity|vm_compute; reflexivity]).
  destruct E as (sv & j & E1 & E2 & E3). exists sv, j. split; [exact E1|]. split; [exact E2|]. split; [exact E3|].
  unfold demo_start in E1.
  destruct (jwt_identity_signed (L := list_cache memoryCacheEntry) (B := exact_bucket) (G := list string) (JPL := demo_parser_laws)
    demo_env demo_steps demo_worder demo_corder cfg sv j 0 demo_bearer _ E1 E2 E3) as (tok & _ & _ & H & _).
  by exists tok.
Defined.
