(* ===== verification/HotReload.v ===== *)
(** * internal/config/hotreload.go and internal/template/watcher.go: reloading on file changes

    Both watch loops turn file system events into delayed reloads: every event that concerns
    them restarts a timer of half a second.  An event is an instant and a path; a loop handles
    an event at its instant, and a timer that has run out before it fires first.  [viper.Get]
    on the file just read is a function from keys to values, a file that does not parse is
    [None]; callbacks act on a state of the program and may panic half way, which [reload]
    recovers from. *)
From S2P Require Import Prelude GoStrings Values GoConv FuncMap.
From S2P Require Import DataSource TemplateParams TemplateLoader Whitelist MutationSql Lru MemoryCache RateLimit Config Startup.
From S2P Require Metrics.

(** ** Debouncing *)

Definition debounce : Z := 500 * millisecond.
(** [filepath.Base]. *)
Definition path_base (p : string) : string :=
  if String.eqb p EmptyString then "."
  else match last (List.filter (fun e => negb (String.eqb e EmptyString)) (split_byte "/"%char p)) with
       | Some e => e
       | None => "/"
       end.
(** [watchLoop]: the instants at which the timer function runs, for the events in order.
    [concerns] is the guard before the timer is reset. *)
Fixpoint watchLoop (concerns : string -> bool) (timer : option Z) (events : list (Z * string)) : list Z :=
  match events with
  | [] => match timer with Some d => [d] | None => [] end
  | (t, path) :: events' =>
      let fired := match timer with Some d => d <=? t | None => false end in
      let timer' := if concerns path then Some (t + debounce) else if fired then None else timer in
      (if fired then match timer with Some d => [d] | None => [] end else []) ++ watchLoop concerns timer' events'
  end.
Definition config_concerns (configPath path : string) : bool := String.eqb (path_base path) (path_base configPath).

(** ** hotreload.go *)

Definition hotReloadableKeys : list string :=
  ["logging.level"; "rate_limit.requests_per_window"; "rate_limit.window_size"; "cache.default_ttl"; "cache.per_datasource";
   "mutations.enabled"; "mutations.max_affected_rows"; "mutations.rate_limit.requests_per_window"; "mutations.rate_limit.window_size"].

Section HotReload.
Context {GF : GoFmt} {S : Type}.
#[local] Set Default Proof Using "Type".

Definition HotReloadCallback : Type := string -> GoVal -> S -> S.
Record HotReloader := {
  hr_callbacks : gmap string (list HotReloadCallback);
  hr_snapshot : gmap string GoVal;
}.
Definition NewHotReloader : HotReloader := {| hr_callbacks := ∅; hr_snapshot := ∅ |}.
Definition OnChange (key : string) (cb : HotReloadCallback) (hr : HotReloader) : HotReloader :=
  {| hr_callbacks := <[key := default [] (hr_callbacks hr !! key) ++ [cb]]> (hr_callbacks hr); hr_snapshot := hr_snapshot hr |}.
Definition captureSnapshot (file : string -> GoVal) : gmap string GoVal :=
  foldl (fun m key => <[key := file key]> m) ∅ hotReloadableKeys.
Definition Start (file : option (string -> GoVal)) (hr : HotReloader) : result HotReloader :=
  match file with
  | None => Err (Errorf (Sprintf "hotreload: failed to read initial config: %w" []))
  | Some f => Ok {| hr_callbacks := hr_callbacks hr; hr_snapshot := captureSnapshot f |}
  end.
(** One key of the loop. *)
Definition fire_key (old new : gmap string GoVal) (key : string) (cbs : list HotReloadCallback) (s : S) : S :=
  let newVal := default VNil (new !! key) in
  if match old !! key with Some oldVal => negb (String.eqb (sprint oldVal) (sprint newVal)) | None => true end
  then foldl (fun s cb => cb key newVal s) s cbs
  else s.
(** [order]: the callbacks in the order the map is ranged over. *)
Definition reload (order : list (string * list HotReloadCallback)) (file : option (string -> GoVal))
    (hr : HotReloader) (s : S) : HotReloader * S :=
  match file with
  | None => (hr, s)
  | Some f =>
      let newSnapshot := captureSnapshot f in
      ({| hr_callbacks := hr_callbacks hr; hr_snapshot := newSnapshot |},
       foldl (fun s kc => fire_key (hr_snapshot hr) newSnapshot kc.1 kc.2 s) s order)
  end.
End HotReload.
Arguments HotReloader : clear implicits.

(** ** main.go: the one callback *)

Definition set_enabled (enabled : bool) (mc : MutationsConfig) : MutationsConfig :=
  {| MutationsEnabled := enabled; MutDatasourceName := MutDatasourceName mc; MaxAffectedRows := MaxAffectedRows mc;
     MaxBatchSize := MaxBatchSize mc; MaxSQLLength := MaxSQLLength mc; MutRateLimit := MutRateLimit mc |}.
Definition as_bool (v : GoVal) : bool := match v with VBool b => b | _ => false end.
Definition mutations_toggled (key : string) (value : GoVal) (mc : MutationsConfig) : MutationsConfig :=
  set_enabled (as_bool value) mc.
Definition main_reloader : HotReloader MutationsConfig := OnChange "mutations.enabled" mutations_toggled NewHotReloader.
Definition main_order : list (string * list (HotReloadCallback (S := MutationsConfig))) := [("mutations.enabled", [mutations_toggled])].
(** The reloads of a run, and the configuration the resolvers read. *)
Definition reloads `{GoFmt} (files : list (option (string -> GoVal))) (st : HotReloader MutationsConfig * MutationsConfig)
    : HotReloader MutationsConfig * MutationsConfig :=
  foldl (fun st f => reload main_order f st.1 st.2) st files.

(** ** watcher.go *)

(** [addDirRecursive]; [add] tells whether the watcher accepts a directory. *)
Fixpoint walk_add (add : string -> bool) (missing : bool) (dir : string) (entries : list WalkEntry) (watched : gset string)
    : option (gset string) :=
  match entries with
  | [] => Some watched
  | e :: entries' =>
      if wErr e then if missing && String.eqb (wPath e) dir then Some watched else None
      else walk_add add missing dir entries' (if wIsDir e && add (wPath e) then {[wPath e]} ∪ watched else watched)
  end.
Definition addDirRecursive (d : Disk) (add : string -> bool) (dir : string) (watched : gset string) : option (gset string) :=
  walk_add add (match os_Stat d dir with StatNotExist => true | _ => false end) dir (WalkDir d dir) watched.
Definition NewTemplateWatcher (d : Disk) (add : string -> bool) (dirs : list string) : option (gset string) :=
  foldl (fun w dir => w ≫= addDirRecursive d add dir) (Some ∅) dirs.
Definition maybeAddDirectory (d : Disk) (add : string -> bool) (path : string) (watched : gset string) : gset string :=
  match os_Stat d path with
  | StatInfo _ true => if add path then {[path]} ∪ watched else watched
  | _ => watched
  end.
(** The events the watcher delivers: an instant, a path, whether it was created, the disk then. *)
Record FsEvent := { fe_at : Z; fe_path : string; fe_create : bool; fe_disk : Disk }.
Definition watch_event (add : string -> bool) (watched : gset string) (e : FsEvent) : gset string :=
  if fe_create e then maybeAddDirectory (fe_disk e) add (fe_path e) watched else watched.
(** The loop: the directories watched at the end and the instants of [triggerReload]. *)
Definition template_watchLoop (add : string -> bool) (watched : gset string) (events : list FsEvent) : gset string * list Z :=
  (foldl (watch_event add) watched events,
   watchLoop (fun _ => true) None (map (fun e => (fe_at e, fe_path e)) events)).

(** ** Theorems *)

(** The instants of [evs] never go back. *)
Definition ordered (evs : list (Z * string)) : Prop := StronglySorted (fun a b => a.1 <= b.1) evs.
Definition quiet (concerns : string -> bool) (t : Z) (evs : list (Z * string)) : Prop :=
  Forall (fun e => concerns e.2 = true -> t + debounce <= e.1) evs.
(** The events that concern the loop and that no other follows within half a second. *)
Fixpoint last_of_bursts (concerns : string -> bool) (evs : list (Z * string)) : list Z :=
  match evs with
  | [] => []
  | (t, path) :: evs' =>
      (if concerns path && forallb (fun e => negb (concerns e.2) || (t + debounce <=? e.1)) evs' then [t + debounce] else [])
      ++ last_of_bursts concerns evs'
  end.

Section Debounce.
Variable concerns : string -> bool.
#[local] Set Default Proof Using "Type".

Lemma forallb_quiet t evs :
  forallb (fun e => negb (concerns e.2) || (t + debounce <=? e.1)) evs = true <-> quiet concerns t evs.
Proof.
  unfold quiet. rewrite forallb_forall, Forall_forall. split; intros H e He.
  - intros Hc. specialize (H e (proj1 (list_elem_of_In _ _) He)). rewrite Hc in H. simpl in H. lia.
  - specialize (H e (proj2 (list_elem_of_In _ _) He)). destruct (concerns e.2); [|done]. simpl. specialize (H eq_refl). lia.
Qed.
Lemma watchLoop_timer d evs :
  ordered evs -> watchLoop concerns (Some d) evs
  = (if forallb (fun e => negb (concerns e.2) || (d <=? e.1)) evs then [d] else []) ++ watchLoop concerns None evs.
Proof.
  intros Ho. induction Ho as [|[t path] evs Ho IH Hall]; [done|]. simpl.
  destruct (Z.leb_spec d t) as [Hd|Hd].
  - rewrite orb_true_r. cbn [andb].
    rewrite (proj2 (forallb_forall _ _)); [done|]. intros e He%list_elem_of_In. rewrite Forall_forall in Hall.
    specialize (Hall e He). simpl in Hall. apply orb_true_iff. right. lia.
  - rewrite orb_false_r. destruct (concerns path); [done|]. cbn [negb andb app]. exact IH.
Qed.
Lemma watchLoop_bursts evs : ordered evs -> watchLoop concerns None evs = last_of_bursts concerns evs.
Proof.
  intros Ho. induction Ho as [|[t path] evs Ho IH _]; [done|]. simpl. destruct (concerns path); [|done].
  rewrite watchLoop_timer by done. by rewrite IH.
Qed.
Lemma last_of_bursts_elem evs d : ordered evs ->
  d ∈ last_of_bursts concerns evs <->
  exists l t path r, evs = l ++ (t, path) :: r /\ concerns path = true /\ quiet concerns t r /\ d = t + debounce.
Proof.
  intros Ho. induction Ho as [|[t path] evs Ho IH _]; simpl.
  { split; [by intros H%elem_of_nil|]. intros ([|? ?] & ? & ? & ? & E & _); discriminate. }
  rewrite elem_of_app, IH. split.
  - intros [H|(l & t' & path' & r & -> & Hc & Hq & ->)]; [|by exists ((t, path) :: l), t', path', r].
    destruct (concerns path && _) eqn:E; [|by apply elem_of_nil in H]. apply list_elem_of_singleton in H as ->.
    apply andb_true_iff in E as [Hc Hq]. apply forallb_quiet in Hq. by exists [], t, path, evs.
  - intros ([|e l] & t' & path' & r & E & Hc & Hq & ->).
    + injection E as <- <- <-. left. apply forallb_quiet in Hq. rewrite Hc, Hq. by apply list_elem_of_singleton.
    + injection E as <- E. right. by exists l, t', path', r.
Qed.
Lemma last_of_bursts_sorted evs : ordered evs -> StronglySorted Z.lt (last_of_bursts concerns evs).
Proof.
  intros Ho. induction Ho as [|[t path] evs Ho IH Hall]; simpl; [constructor|].
  destruct (concerns path && _) eqn:E; [|done]. constructor; [done|]. apply Forall_forall. intros d Hd.
  apply andb_true_iff in E as [_ Hq]. apply forallb_quiet in Hq.
  apply (last_of_bursts_elem evs d Ho) in Hd as (l & t' & path' & r & -> & Hc & _ & ->).
  unfold quiet in Hq. rewrite Forall_forall in Hq. specialize (Hq (t', path') ltac:(set_solver) Hc). simpl in Hq.
  unfold debounce, millisecond in *. lia.
Qed.
End Debounce.

(** the debounce.  For events in order of time, the timer function runs exactly half a second
    after each event that concerns the loop and that no other such event follows within that
    half second: one run per burst, at instants that strictly increase, and none that is not
    owed to an event. *)
Theorem one_reload_per_burst concerns evs :
  ordered evs ->
  StronglySorted Z.lt (watchLoop concerns None evs)
  /\ forall d, d ∈ watchLoop concerns None evs <->
       exists l t path r, evs = l ++ (t, path) :: r /\ concerns path = true /\ quiet concerns t r /\ d = t + debounce.
Proof.
  intros Ho. rewrite watchLoop_bursts by done. split; [by apply last_of_bursts_sorted|]. intros d. by apply last_of_bursts_elem.
Qed.

(** ** What a reload changes *)

Section Toggle.
Context {GF : GoFmt}.
#[local] Set Default Proof Using "Type".
Notation key := "mutations.enabled".

Lemma snapshot_toggle f : captureSnapshot f !! key = Some (f key).
Proof. reflexivity. Qed.
(** A file that parses and gives the key a boolean. *)
Definition toggles (file : option (string -> GoVal)) : Prop := forall f, file = Some f -> exists b, f key = VBool b.
Definition last_value (b : bool) (files : list (option (string -> GoVal))) : bool :=
  foldl (fun b file => match file with Some f => as_bool (f key) | None => b end) b files.
Lemma sprint_bool_inj a b : sprint (VBool a) = sprint (VBool b) -> a = b.
Proof. by destruct a, b. Qed.

(** One reload: the snapshot and the flag move together. *)
Lemma reload_toggle file hr mc mc0 b :
  toggles file -> hr_snapshot hr !! key = Some (VBool b) -> mc = set_enabled b mc0 ->
  let st := reload main_order file hr mc in let b' := last_value b [file] in
  hr_snapshot st.1 !! key = Some (VBool b') /\ st.2 = set_enabled b' mc0.
Proof.
  intros Ht Hs ->. destruct file as [f|]; [|done]. destruct (Ht f eq_refl) as [b' Hb]. cbv zeta.
  unfold reload, last_value. cbn [fst snd foldl hr_snapshot main_order]. rewrite snapshot_toggle, Hb. split; [done|].
  unfold fire_key. rewrite Hs, snapshot_toggle, Hb. cbn [default foldl as_bool id].
  destruct (String.eqb_spec (sprint (VBool b)) (sprint (VBool b'))) as [E|_]; [|done].
  by apply sprint_bool_inj in E as ->.
Qed.

(** the mutation switch follows the file.  When the switch agrees with the file at the start,
    it has, after any number of reloads, the value of the last file that could be read, and
    no other field of the configuration has changed, whatever else the files say. *)
Theorem toggle_follows_file f0 hr b files mc :
  Start (Some f0) main_reloader = Ok hr -> f0 key = VBool b -> MutationsEnabled mc = b -> Forall toggles files ->
  (reloads files (hr, mc)).2 = set_enabled (last_value b files) mc.
Proof.
  intros H Hb Hm Hf. apply Ok_inj in H as <-.
  assert (G : forall files hr mc' b, Forall toggles files -> hr_snapshot hr !! key = Some (VBool b) -> mc' = set_enabled b mc ->
    (reloads files (hr, mc')).2 = set_enabled (last_value b files) mc).
  { clear. intros files. induction files as [|f files IH]; intros hr mc' b Hf Hs Hm; [done|].
    apply Forall_cons in Hf as [Hx Hf]. destruct (reload_toggle f hr mc' mc b Hx Hs Hm) as [H1 H2].
    unfold reloads. cbn [foldl fst snd]. rewrite (surjective_pairing (reload _ _ _ _)). exact (IH _ _ _ Hf H1 H2). }
  apply G; [done|cbn [hr_snapshot]; by rewrite snapshot_toggle, Hb|]. subst b. by destruct mc.
Qed.
End Toggle.

(** switching mutations on later.  A process started with mutations disabled has no table
    validator, input validator or limiter for them, and none is made later: after a file with
    [mutations.enabled: true] is loaded the switch is on and the parts are still missing. *)
Theorem switched_on_without_parts {GF : GoFmt} {FT : FloatText} {UT : UnicodeTables} {GR : GoRegexp}
    {L B G : Type} {CL : LRU L memoryCacheEntry} {MR : Metrics.Registry G} (env : Env) (steps : Steps)
    (worder : gmap string WritableTableConfig -> list string) (corder : gmap string bool -> list string)
    (cfg : Config) (sv : Services (L := L) (B := B) (G := G)) (f0 f1 : string -> GoVal) (hr : HotReloader MutationsConfig) :
  main env steps worder corder cfg = Ok sv -> MutationsEnabled (Mutations cfg) = false ->
  f0 "mutations.enabled" = VBool false -> f1 "mutations.enabled" = VBool true -> Start (Some f0) main_reloader = Ok hr ->
  sv_mutations sv = None /\ MutationsEnabled (reloads [Some f1] (hr, Mutations cfg)).2 = true.
Proof.
  intros H Hm H0 H1 Hs. split.
  - apply main_Ok in H as (_ & _ & _ & _ & _ & _ & Hp & _). unfold mutation_parts in Hp.
    apply bind_Ok in Hp as (? & _ & Hp). rewrite Hm in Hp. by apply Ok_inj in Hp.
  - apply Ok_inj in Hs as <-. unfold reloads. cbn [foldl fst snd].
    unshelve epose proof (proj2 (reload_toggle (Some f1) _ (Mutations cfg) (Mutations cfg) false _ _ _)) as Hr;
      [exact {| hr_callbacks := hr_callbacks main_reloader; hr_snapshot := captureSnapshot f0 |}|..].
    + intros f [= <-]. by exists true.
    + simpl. by rewrite <- H0.
    + destruct (Mutations cfg); simpl in *. by subst.
    + cbv zeta in Hr. rewrite Hr. simpl. by rewrite H1.
Qed.

(** replacing a mounted directory.  Events on names that begin with two dots, the only ones
    there are when a volume is replaced by renaming its data directory, never reload the
    configuration. *)
Theorem dotted_events_ignored configPath evs :
  has_prefix ".." (path_base configPath) = false ->
  Forall (fun e => has_prefix ".." (path_base e.2) = true) evs ->
  watchLoop (config_concerns configPath) None evs = [].
Proof.
  intros Hc. induction 1 as [|[t path] evs He _ IH]; [done|]. cbn [snd watchLoop] in *.
  assert (E : config_concerns configPath path = false); [|by rewrite E].
  unfold config_concerns. apply String.eqb_neq. intros E. rewrite E in He. by rewrite He in Hc.
Qed.

Lemma foldl_bind_None {A B} (f : A -> B -> option B) (l : list A) : foldl (fun w x => w ≫= f x) None l = None.
Proof. by induction l. Qed.

(** the directories of the template watcher.  At the start every directory of the walk that
    the kernel accepts is watched; afterwards an event adds at most the created path itself,
    so the directories inside a tree that is moved in are not watched. *)
Theorem watched_directories d add dirs watched events :
  NewTemplateWatcher d add dirs = Some watched ->
  (forall dir e, dir ∈ dirs -> Forall (fun e => wErr e = false) (WalkDir d dir) -> e ∈ WalkDir d dir ->
     wIsDir e = true -> add (wPath e) = true -> wPath e ∈ watched)
  /\ forall p, p ∈ (template_watchLoop add watched events).1 ->
       p ∈ watched \/ exists e, e ∈ events /\ fe_create e = true /\ fe_path e = p.
Proof.
  intros H. split.
  - intros dir e Hdir. revert H. unfold NewTemplateWatcher.
    assert (Hmono : forall missing dir0 es w w', walk_add add missing dir0 es w = Some w' -> w ⊆ w').
    { intros missing dir0 es. induction es as [|x es IH]; intros w w' Hw; simpl in Hw; [by injection Hw as <-|].
      destruct (wErr x); [destruct (missing && _); [by injection Hw as <-|done]|]. apply IH in Hw. destruct (_ && _); set_solver. }
    assert (Hfold : forall l w w', foldl (fun w dir => w ≫= addDirRecursive d add dir) (Some w) l = Some w' -> w ⊆ w').
    { induction l as [|x l IH]; intros w w' Hw; simpl in Hw; [by injection Hw as <-|].
      destruct (addDirRecursive d add x w) as [w1|] eqn:E; [|by rewrite foldl_bind_None in Hw].
      apply Hmono in E. apply IH in Hw. set_solver. }
    generalize (∅ : gset string) as w. induction dirs as [|x dirs IH]; [by apply elem_of_nil in Hdir|].
    intros w. simpl. destruct (addDirRecursive d add x w) as [w1|] eqn:E; [|by rewrite foldl_bind_None].
    apply elem_of_cons in Hdir as [<-|Hdir]; [|by apply IH].
    intros Hf Hall He Hd Ha. apply (Hfold _ _ _ Hf). clear -E Hall He Hd Ha Hmono. unfold addDirRecursive in E.
    revert w E. induction (WalkDir d dir) as [|y es IH]; intros w E; [by apply elem_of_nil in He|].
    apply Forall_cons in Hall as [Hy Hall]. simpl in E. rewrite Hy in E. apply elem_of_cons in He as [<-|He]; [|by eapply IH].
    rewrite Hd, Ha in E. apply Hmono in E. set_solver.
  - clear H. simpl. revert watched. induction events as [|e events IH]; intros watched p Hp; simpl in Hp; [by left|].
    apply IH in Hp as [Hp|(e' & He & Hc & <-)]; [|right; exists e'; split; [by right|done]].
    unfold watch_event, maybeAddDirectory in Hp. destruct (fe_create e) eqn:Ec; [|by left].
    destruct (os_Stat _ _) as [| |? []]; [by left..| |by left]. destruct (add _); [|by left].
    apply elem_of_union in Hp as [->%elem_of_singleton|Hp]; [right; exists e; split; [by left|done]|by left].
Qed.

(** ** Concrete instances *)

Section Witnesses.
#[local] Existing Instance demo_regexp.
#[local] Existing Instance Middleware.demo_unicode.
#[local] Existing Instance demo_numbers.
#[local] Existing Instance demo_fmt.
#[local] Existing Instance Metrics.demo_registry.

Definition demo_events : list (Z * string) :=
  [(0, "/etc/app/config.yaml"); (100 * millisecond, "/etc/app/config.yaml"); (200 * millisecond, "/etc/app/other");
   (2 * second, "/etc/app/config.yaml")].
Lemma demo_events_ordered : ordered demo_events.
Proof. unfold ordered, demo_events. repeat constructor; simpl; unfold millisecond, second; lia. Qed.

Lemma one_reload_per_burst_witness :
  600 * millisecond ∈ watchLoop (config_concerns "/etc/app/config.yaml") None demo_events.
Proof.
  apply (proj2 (one_reload_per_burst (config_concerns "/etc/app/config.yaml") demo_events demo_events_ordered)).
  exists [(0, "/etc/app/config.yaml")], (100 * millisecond), "/etc/app/config.yaml",
    [(200 * millisecond, "/etc/app/other"); (2 * second, "/etc/app/config.yaml")].
  split; [reflexivity|]. split; [reflexivity|]. split; [|reflexivity].
  repeat constructor; intros H; (discriminate H || (simpl; unfold debounce, millisecond, second; lia)).
Defined.

Definition demo_file (b : bool) (k : string) : GoVal := if String.eqb k "mutations.enabled" then VBool b else VNil.
Definition demo_mutations : MutationsConfig := set_enabled false (Mutations setDefaults).
Lemma toggle_follows_file_witness : exists hr, Start (Some (demo_file false)) main_reloader = Ok hr
  /\ (reloads [Some (demo_file true); None] (hr, demo_mutations)).2 = set_enabled true demo_mutations.
Proof.
  eexists. split; [reflexivity|].
  apply (toggle_follows_file (demo_file false) _ false [Some (demo_file true); None] demo_mutations); [reflexivity..|].
  repeat constructor; intros f H; [injection H as <-; by exists true|discriminate H].
Defined.

Definition demo_disabled : Config :=
  let c := demo_cfg "jwt" "HS256" "256MB" second in
  {| Server := Server c; GraphQL := GraphQL c; Datasources := Datasources c; Auth := Auth c; RateLimit := RateLimit c;
     Cache := Cache c; CORS := CORS c; Compression := Compression c; Logging := Logging c; Sanitization := Sanitization c;
     Metrics := Metrics c; Tracing := Tracing c; Retry := Retry c; CircuitBreaker := CircuitBreaker c;
     AuthFailure := AuthFailure c; MaxWaitTime := MaxWaitTime c; Templates := Templates c; Mutations := demo_mutations |}.
Lemma demo_disabled_started : exists sv, demo_start demo_disabled = Ok sv.
Proof. eexists. vm_compute. reflexivity. Qed.
Lemma switched_on_without_parts_witness : exists sv hr, demo_start demo_disabled = Ok sv
  /\ Start (Some (demo_file false)) main_reloader = Ok hr
  /\ sv_mutations sv = None /\ MutationsEnabled (reloads [Some (demo_file true)] (hr, demo_mutations)).2 = true.
Proof.
  destruct demo_disabled_started as [sv H].
  exists sv, {| hr_callbacks := hr_callbacks main_reloader; hr_snapshot := captureSnapshot (demo_file false) |}.
  split; [exact H|]. split; [reflexivity|]. unfold demo_start in H.
  exact (switched_on_without_parts demo_env demo_steps demo_worder demo_corder demo_disabled sv (demo_file false) (demo_file true)
           _ H eq_refl eq_refl eq_refl eq_refl).
Defined.

Lemma dotted_events_ignored_witness :
  watchLoop (config_concerns "/etc/app/config.yaml") None [(0, "/etc/app/..2024_05"); (1, "/etc/app/..data_tmp"); (2, "/etc/app/..data")] = [].
Proof. apply dotted_events_ignored; [reflexivity|]. repeat constructor. Defined.

Definition demo_tree : Disk := {|
  os_Stat p := StatInfo 0 (negb (String.eqb p "t/a.sql")); os_ReadFile _ := Err ErrEOF;
  WalkDir p := [{| wPath := p; wName := p; wErr := false; wIsDir := true |};
                {| wPath := "t/sub"; wName := "sub"; wErr := false; wIsDir := true |}] |}.
Lemma watched_directories_witness : exists w, NewTemplateWatcher demo_tree (fun _ => true) ["t"] = Some w /\ "t/sub" ∈ w.
Proof.
  eexists. split; [reflexivity|].
  apply (proj1 (watched_directories demo_tree (fun _ => true) ["t"] _ [] eq_refl) "t"
           {| wPath := "t/sub"; wName := "sub"; wErr := false; wIsDir := true |}); [set_solver|repeat constructor|right; left|reflexivity..].
Defined.
End Witnesses.
