(* ===== verification/Sanitize.v ===== *)
(** * internal/sanitize: masking of statements in logs and spans

    [ReplaceAllString] belongs to package regexp, and is the class [RegexpReplace];
    [DefaultRuleLaws] states what it does for the patterns of the default rules. *)
From S2P Require Import Prelude GoStrings Values GoConv FuncMap TemplateParams.
From S2P Require Config.

Class RegexpReplace (GR : GoRegexp) := { ReplaceAllString : Regexp -> string -> string -> string }.

Definition DefaultRules : list Config.SanitizationRule :=
  [{| Config.Pattern := "'[^']*'"; Config.Replacement := "'***'" |};
   {| Config.Pattern := "\b\d{4,}\b"; Config.Replacement := "***" |}].

Section Sanitize.
Context {GR : GoRegexp} {RR : RegexpReplace GR}.
#[local] Set Default Proof Using "Type".

Record compiledRule := { re : Regexp; replacement : string }.
Record Sanitizer := { enabled : bool; rules : list compiledRule }.

Definition NewSanitizer (cfg : Config.SanitizationConfig) : result Sanitizer :=
  if negb (Config.SanitizationEnabled cfg) then Ok {| enabled := false; rules := [] |}
  else
    let rs := if Z.of_nat (length (Config.Rules cfg)) =? 0 then DefaultRules else Config.Rules cfg in
    compiled ← mapR (fun r => x ← regexp_Compile (Config.Pattern r); Ok {| re := x; replacement := Config.Replacement r |}) rs;
    Ok {| enabled := true; rules := compiled |}.
Definition Sanitize (s : Sanitizer) (input : string) : string :=
  if negb (enabled s) then input
  else foldl (fun result r => ReplaceAllString (re r) result (replacement r)) input (rules s).
End Sanitize.

(** ** The default rules *)

(** A text with each stretch between two quotes masked, the text since an open quote in [lit];
    a quote without a partner stays. *)
Fixpoint mask_from (lit : option string) (s : string) : string :=
  match s, lit with
  | EmptyString, None => EmptyString
  | EmptyString, Some buf => String SQUOTE buf
  | String c s', None => if Ascii.eqb c SQUOTE then mask_from (Some EmptyString) s' else String c (mask_from None s')
  | String c s', Some buf => if Ascii.eqb c SQUOTE then "'***'" +:+ mask_from None s' else mask_from (Some (buf +:+ str1 c)) s'
  end.
Definition mask_quoted (s : string) : string := mask_from None s.
Class DefaultRuleLaws {GR : GoRegexp} (RR : RegexpReplace GR) : Prop := {
  quoted_rule x s : regexp_Compile "'[^']*'" = Ok x -> ReplaceAllString x s "'***'" = mask_quoted s;
}.

(** A rendered statement: code without quotes and values quoted by the template function. *)
Fixpoint statement `{GoFmt} (parts : list (string * GoVal)) (tail : string) : string :=
  match parts with
  | [] => tail
  | (code, v) :: parts' => code +:+ quote v +:+ statement parts' tail
  end.
Definition quotes_of `{GoFmt} (v : GoVal) : nat := count_byte SQUOTE (sprint v).
Fixpoint masked (n : nat) (rest : string) : string :=
  match n with O => rest | S n' => "'***'" +:+ masked n' rest end.

Lemma mask_code code s : count_byte SQUOTE code = O -> mask_from None (code +:+ s) = code +:+ mask_from None s.
Proof.
  induction code as [|c code IH]; intros H; [done|]. simpl in *. destruct (Ascii.eqb c SQUOTE); [done|]. by rewrite IH.
Qed.
(** The inside of a literal whose quotes are doubled, up to and with its closing quote. *)
Lemma mask_literal t buf s :
  mask_from (Some buf) (replace_byte SQUOTE (String SQUOTE (str1 SQUOTE)) t +:+ String SQUOTE s)
  = masked (S (count_byte SQUOTE t)) (mask_from None s).
Proof.
  revert buf. induction t as [|c t IH]; intros buf; [by destruct buf|].
  cbn [replace_byte count_byte]. destruct (Ascii.eqb_spec c SQUOTE) as [->|Hne].
  - cbn [String.append str1 mask_from]. rewrite !Ascii.eqb_refl. cbv iota. rewrite IH. done.
  - cbn [String.append mask_from]. rewrite (proj2 (Ascii.eqb_neq _ _) Hne). rewrite IH. done.
Qed.
Lemma count_replace_other c d new s : count_byte c new = O -> c <> d -> count_byte c (replace_byte d new s) = count_byte c s.
Proof.
  intros Hn Hne. induction s as [|x s IH]; [done|]. cbn [replace_byte count_byte]. destruct (Ascii.eqb_spec x d) as [->|_].
  - rewrite count_byte_app, Hn, IH. by rewrite (proj2 (Ascii.eqb_neq _ _)) by congruence.
  - cbn [count_byte]. by rewrite IH.
Qed.
Lemma mask_quote `{GoFmt} v s : mask_from None (quote v +:+ s) = masked (S (quotes_of v)) (mask_from None s).
Proof.
  unfold quote, safeString, quotes_of. rewrite !str_app_assoc. cbn [String.append str1 mask_from]. rewrite Ascii.eqb_refl.
  rewrite mask_literal. by rewrite !count_replace_other.
Qed.
Lemma mask_statement `{GoFmt} parts tail parts' :
  map fst parts = map fst parts' -> map (fun p => quotes_of p.2) parts = map (fun p => quotes_of p.2) parts' ->
  Forall (fun p => count_byte SQUOTE p.1 = O) parts ->
  mask_quoted (statement parts tail) = mask_quoted (statement parts' tail).
Proof.
  unfold mask_quoted. revert parts'. induction parts as [|[code v] parts IH]; intros [|[code' v'] parts'] H1 H2 Hc; try done.
  cbn [map fst snd statement] in *. injection H1 as <- H1. injection H2 as H2q H2. apply Forall_cons in Hc as [Hc0 Hc]. cbn [fst] in Hc0.
  rewrite !(mask_code code) by done. rewrite !mask_quote, H2q. by rewrite (IH parts' H1 H2 Hc).
Qed.

(** what the default rules leave of a statement.  Once sanitized, two statements of the same
    code are the same text whatever string values the template quoted into them, up to the
    number of quotes inside those values: nothing else of a value reaches a log or a span. *)
Theorem quoted_values_hidden `{GoFmt} {GR : GoRegexp} {RR : RegexpReplace GR} {DL : DefaultRuleLaws RR} s parts parts' tail :
  NewSanitizer {| Config.SanitizationEnabled := true; Config.Rules := [] |} = Ok s ->
  map fst parts = map fst parts' -> map (fun p => quotes_of p.2) parts = map (fun p => quotes_of p.2) parts' ->
  Forall (fun p => count_byte SQUOTE p.1 = O) parts ->
  Sanitize s (statement parts tail) = Sanitize s (statement parts' tail).
Proof.
  intros Hs H1 H2 Hc. unfold NewSanitizer in Hs. cbn [negb Config.SanitizationEnabled Config.Rules length] in Hs.
  change (Z.of_nat 0 =? 0) with true in Hs. cbv iota in Hs. unfold DefaultRules in Hs.
  cbn [mapR Config.Pattern Config.Replacement] in Hs. result_inv. unfold Sanitize. cbn [enabled rules negb foldl re replacement].
  rewrite !quoted_rule by done. by rewrite (mask_statement parts tail parts').
Qed.

(** ** A concrete instance *)

Definition demo_replace : RegexpReplace demo_regexp :=
  {| ReplaceAllString (x : @Regexp demo_regexp) s r := if String.eqb (x : string) "'[^']*'" then mask_quoted s else s |}.
Lemma demo_rule_laws : DefaultRuleLaws demo_replace.
Proof. split. intros x s H. apply Ok_inj in H as <-. reflexivity. Qed.
Lemma quoted_values_hidden_witness : exists s,
  NewSanitizer (GR := demo_regexp) {| Config.SanitizationEnabled := true; Config.Rules := [] |} = Ok s
  /\ Sanitize (RR := demo_replace) s (statement (H := demo_fmt) [("SELECT 1 WHERE a = ", VString "it's")] ";")
    = Sanitize (RR := demo_replace) s (statement (H := demo_fmt) [("SELECT 1 WHERE a = ", VString "'secret")] ";").
Proof.
  eexists. split; [reflexivity|].
  apply (quoted_values_hidden (H := demo_fmt) (GR := demo_regexp) (RR := demo_replace) (DL := demo_rule_laws));
    [reflexivity|reflexivity|reflexivity|repeat constructor].
Defined.
