(* ===== verification/GraphqlIntrospection.v ===== *)
(** * internal/graphql/generated/generated.go: introspection

    The answers to [__schema] and [__type].  The values they are read from are those of gqlgen's
    package introspection, which wraps the parsed schema: the class [Introspection], with the
    name of a Go type as the prefix of its fields and methods.  The types of a schema refer to
    each other, so the recursion is over the selections of the request: [___Type] takes fuel, and
    more of it than the selections are deep changes nothing ([enough_fuel]). *)
From S2P Require Import Prelude GoStrings Values GoConv FuncMap Json JsonRaw Scalar.
From S2P Require Import Resolver PrometheusResolver TemplateResolver GraphqlInput GraphqlOutput GraphqlContexts GraphqlTyped.
From S2P Require Lifecycle Config.


Class Introspection := {
  ISchema : Type; IType : Type; IField : Type; IInputValue : Type; IEnumValue : Type; IDirective : Type;
  Schema_Description : ISchema -> option string; Schema_Types : ISchema -> list IType; Schema_QueryType : ISchema ->
  option IType; Schema_MutationType : ISchema -> option IType; Schema_SubscriptionType : ISchema -> option IType;
  Schema_Directives : ISchema -> list IDirective;
  Type_Kind : IType -> string; Type_Name : IType -> option string; Type_Description : IType -> option string;
  Type_SpecifiedByURL : IType -> option string; Type_Fields : IType -> bool -> option (list IField); Type_Interfaces :
  IType -> option (list IType); Type_PossibleTypes : IType -> option (list IType); Type_EnumValues : IType -> bool ->
  option (list IEnumValue); Type_InputFields : IType -> option (list IInputValue); Type_OfType : IType -> option IType;
  Type_IsOneOf : IType -> bool;
  Field_Name : IField -> string; Field_Description : IField -> option string; Field_Args : IField -> list IInputValue;
  Field_Type : IField -> option IType; Field_IsDeprecated : IField -> bool; Field_DeprecationReason : IField -> option
  string;
  InputValue_Name : IInputValue -> string; InputValue_Description : IInputValue -> option string; InputValue_Type :
  IInputValue -> option IType; InputValue_DefaultValue : IInputValue -> option string; InputValue_IsDeprecated :
  IInputValue -> bool; InputValue_DeprecationReason : IInputValue -> option string;
  EnumValue_Name : IEnumValue -> string; EnumValue_Description : IEnumValue -> option string; EnumValue_IsDeprecated :
  IEnumValue -> bool; EnumValue_DeprecationReason : IEnumValue -> option string;
  Directive_Name : IDirective -> string; Directive_Description : IDirective -> option string; Directive_IsRepeatable :
  IDirective -> bool; Directive_Locations : IDirective -> list string; Directive_Args : IDirective -> list IInputValue;
  (** of the execution context: the argument is its DisableIntrospection *)
  IntrospectSchema : bool -> result (option ISchema);
  IntrospectType : bool -> string -> result (option IType);
  UnmarshalBoolean : GoVal -> result bool;
}.
Definition introspection_disabled : error := Errorf (Sprintf "introspection disabled" []).
Class IntrospectionLaws (IN : Introspection) := {
  IntrospectSchema_disabled : IntrospectSchema true = Err introspection_disabled;
  IntrospectType_disabled name : IntrospectType true name = Err introspection_disabled;
}.

(** How deep the fields of a selection set are nested; fragments of a valid document are not
    cyclic.  What gqlgen does with a field depends on the value of its marshaller at the field's
    own selections only. *)
Class SelectionDepth (GX : Gqlgen) := { depth : Selections -> nat }.
Class SelectionDepthLaws (GX : Gqlgen) (SD : SelectionDepth GX) := {
  depth_field sel names field : field ∈ CollectFields sel names -> (depth (fSelections field) < depth sel)%nat;
  ResolveField_ext W A T ctx field init (resolve : A -> X W (result T)) marshal marshal' nonNull s :
    (forall c v s, marshal c (fSelections field) v s = marshal' c (fSelections field) v s) ->
    ResolveField ctx field init resolve marshal true nonNull s = ResolveField ctx field init resolve marshal' true nonNull s;
  MarshalSliceConcurrently_ext W ctx n (f f' : Path -> nat -> X W Marshaler) s :
    (forall c i s, f c i s = f' c i s) -> MarshalSliceConcurrently ctx n f s = MarshalSliceConcurrently ctx n f' s;
}.

Section Introspect.
Context {GX : Gqlgen} {JT : JsonText} {GI : GqlgenInput} {FT : FloatText} {TM : TimeText} {IN : Introspection} {W : Type}.
#[local] Abbreviation E := (X W Marshaler).

(** ** Arguments *)

Definition unmarshalOBoolean : Path -> GoVal -> attempt bool := fun ctx v => on_path ctx (UnmarshalBoolean v).
Definition unmarshalOBooleanPtr : Path -> GoVal -> attempt (option bool) :=
  if_nil None (fun ctx v => on_path ctx (Some <$> UnmarshalBoolean v)).
Definition field_Query___type_args (ctx : Path) (rawArgs : list (string * GoVal)) : attempt string :=
  ProcessArgField rawArgs "name" EmptyString unmarshalNString ctx.
Definition field___Directive_args_args (ctx : Path) (rawArgs : list (string * GoVal)) : attempt (option bool) :=
  ProcessArgField rawArgs "includeDeprecated" None unmarshalOBooleanPtr ctx.
Definition field___Field_args_args (ctx : Path) (rawArgs : list (string * GoVal)) : attempt (option bool) :=
  ProcessArgField rawArgs "includeDeprecated" None unmarshalOBooleanPtr ctx.
Definition field___Type_fields_args (ctx : Path) (rawArgs : list (string * GoVal)) : attempt bool :=
  ProcessArgField rawArgs "includeDeprecated" false unmarshalOBoolean ctx.
Definition field___Type_enumValues_args (ctx : Path) (rawArgs : list (string * GoVal)) : attempt bool :=
  ProcessArgField rawArgs "includeDeprecated" false unmarshalOBoolean ctx.

(** ** Values *)

(** [v[i]] of a slice of structs. *)
Definition element {A} (k : A -> E) (v : option A) : E := match v with Some a => k a | None => panic end.
Definition marshalOBoolean (ctx : Path) (sel : Selections) (v : bool) : E := xret (MBoolean v).
Definition marshalN__TypeKind (ctx : Path) (sel : Selections) (v : string) : E := not_null ctx (MString v).
Definition marshalN__DirectiveLocation (ctx : Path) (sel : Selections) (v : string) : E := not_null ctx (MString v).
Definition marshalN__DirectiveLocations (ctx : Path) (sel : Selections) (v : list string) : E :=
  marshal_slice ctx (fun ctx => element (marshalN__DirectiveLocation ctx sel)) v.
(** A pointer and a slice that may be nil. *)
Definition or_null {A} (v : option A) (k : A -> E) : E := match v with None => xret MNull | Some v => k v end.

(** ** Objects *)

Definition ___EnumValue_name ctx field (obj : IEnumValue) : E := property ctx field (EnumValue_Name obj) marshalNString true.
Definition ___EnumValue_description ctx field (obj : IEnumValue) : E := property ctx field (EnumValue_Description obj) marshalOString false.
Definition ___EnumValue_isDeprecated ctx field (obj : IEnumValue) : E := property ctx field (EnumValue_IsDeprecated obj) marshalNBoolean true.
Definition ___EnumValue_deprecationReason ctx field (obj : IEnumValue) : E := property ctx field (EnumValue_DeprecationReason obj) marshalOString false.
Definition ___EnumValue (ctx : Path) (sel : Selections) (obj : IEnumValue) : E :=
  object_of "__EnumValue" sel (fun field =>
    [("name", (___EnumValue_name ctx field obj, true)); ("description", (___EnumValue_description ctx field obj, false));
     ("isDeprecated", (___EnumValue_isDeprecated ctx field obj, true)); ("deprecationReason", (___EnumValue_deprecationReason ctx field obj, false))]).
Definition marshalN__EnumValue (ctx : Path) (sel : Selections) (v : IEnumValue) : E := ___EnumValue ctx sel v.
Definition marshalO__EnumValues (ctx : Path) (sel : Selections) (v : option (list IEnumValue)) : E :=
  or_null v (marshal_slice ctx (fun ctx => element (marshalN__EnumValue ctx sel))).

(** The objects that have types below them, for any [___Type]. *)
Section Below.
Variable ___Type : Path -> Selections -> IType -> E.

Definition marshalN__Type (ctx : Path) (sel : Selections) (v : option IType) : E := not_nil ctx v (___Type ctx sel).
Definition marshalO__Type (ctx : Path) (sel : Selections) (v : option IType) : E := or_null v (___Type ctx sel).
Definition marshalN__TypeValue (ctx : Path) (sel : Selections) (v : IType) : E := ___Type ctx sel v.
Definition marshalN__Types (ctx : Path) (sel : Selections) (v : list IType) : E :=
  marshal_slice ctx (fun ctx => element (marshalN__TypeValue ctx sel)) v.
Definition marshalO__Types (ctx : Path) (sel : Selections) (v : option (list IType)) : E :=
  or_null v (marshal_slice ctx (fun ctx => element (marshalN__TypeValue ctx sel))).

Definition ___InputValue_name ctx field (obj : IInputValue) : E := property ctx field (InputValue_Name obj) marshalNString true.
Definition ___InputValue_description ctx field (obj : IInputValue) : E := property ctx field (InputValue_Description obj) marshalOString false.
Definition ___InputValue_type ctx field (obj : IInputValue) : E := property ctx field (InputValue_Type obj) marshalN__Type true.
Definition ___InputValue_defaultValue ctx field (obj : IInputValue) : E := property ctx field (InputValue_DefaultValue obj) marshalOString false.
Definition ___InputValue_isDeprecated ctx field (obj : IInputValue) : E := property ctx field (InputValue_IsDeprecated obj) marshalNBoolean true.
Definition ___InputValue_deprecationReason ctx field (obj : IInputValue) : E := property ctx field (InputValue_DeprecationReason obj) marshalOString false.
Definition ___InputValue (ctx : Path) (sel : Selections) (obj : IInputValue) : E :=
  object_of "__InputValue" sel (fun field =>
    [("name", (___InputValue_name ctx field obj, true)); ("description", (___InputValue_description ctx field obj, false));
     ("type", (___InputValue_type ctx field obj, true)); ("defaultValue", (___InputValue_defaultValue ctx field obj, false));
     ("isDeprecated", (___InputValue_isDeprecated ctx field obj, true)); ("deprecationReason", (___InputValue_deprecationReason ctx field obj, false))]).
Definition marshalN__InputValue (ctx : Path) (sel : Selections) (v : IInputValue) : E := ___InputValue ctx sel v.
Definition marshalN__InputValues (ctx : Path) (sel : Selections) (v : list IInputValue) : E :=
  marshal_slice ctx (fun ctx => element (marshalN__InputValue ctx sel)) v.
Definition marshalO__InputValues (ctx : Path) (sel : Selections) (v : option (list IInputValue)) : E :=
  or_null v (marshal_slice ctx (fun ctx => element (marshalN__InputValue ctx sel))).

Definition ___Field_name ctx field (obj : IField) : E := property ctx field (Field_Name obj) marshalNString true.
Definition ___Field_description ctx field (obj : IField) : E := property ctx field (Field_Description obj) marshalOString false.
Definition ___Field_args ctx field (obj : IField) : E :=
  ResolveField ctx field (field_context field___Field_args_args field) (fun _ => xret (Ok (Field_Args obj))) marshalN__InputValues true true.
Definition ___Field_type ctx field (obj : IField) : E := property ctx field (Field_Type obj) marshalN__Type true.
Definition ___Field_isDeprecated ctx field (obj : IField) : E := property ctx field (Field_IsDeprecated obj) marshalNBoolean true.
Definition ___Field_deprecationReason ctx field (obj : IField) : E := property ctx field (Field_DeprecationReason obj) marshalOString false.
Definition ___Field (ctx : Path) (sel : Selections) (obj : IField) : E :=
  object_of "__Field" sel (fun field =>
    [("name", (___Field_name ctx field obj, true)); ("description", (___Field_description ctx field obj, false));
     ("args", (___Field_args ctx field obj, true)); ("type", (___Field_type ctx field obj, true));
     ("isDeprecated", (___Field_isDeprecated ctx field obj, true)); ("deprecationReason", (___Field_deprecationReason ctx field obj, false))]).
Definition marshalN__Field (ctx : Path) (sel : Selections) (v : IField) : E := ___Field ctx sel v.
Definition marshalO__Fields (ctx : Path) (sel : Selections) (v : option (list IField)) : E :=
  or_null v (marshal_slice ctx (fun ctx => element (marshalN__Field ctx sel))).

Definition ___Type_kind ctx field (obj : IType) : E := property ctx field (Type_Kind obj) marshalN__TypeKind true.
Definition ___Type_name ctx field (obj : IType) : E := property ctx field (Type_Name obj) marshalOString false.
Definition ___Type_description ctx field (obj : IType) : E := property ctx field (Type_Description obj) marshalOString false.
Definition ___Type_specifiedByURL ctx field (obj : IType) : E := property ctx field (Type_SpecifiedByURL obj) marshalOString false.
Definition ___Type_fields ctx field (obj : IType) : E :=
  ResolveField ctx field (field_context field___Type_fields_args field)
    (fun includeDeprecated => xret (Ok (Type_Fields obj includeDeprecated))) marshalO__Fields true false.
Definition ___Type_interfaces ctx field (obj : IType) : E := property ctx field (Type_Interfaces obj) marshalO__Types false.
Definition ___Type_possibleTypes ctx field (obj : IType) : E := property ctx field (Type_PossibleTypes obj) marshalO__Types false.
Definition ___Type_enumValues ctx field (obj : IType) : E :=
  ResolveField ctx field (field_context field___Type_enumValues_args field)
    (fun includeDeprecated => xret (Ok (Type_EnumValues obj includeDeprecated))) marshalO__EnumValues true false.
Definition ___Type_inputFields ctx field (obj : IType) : E := property ctx field (Type_InputFields obj) marshalO__InputValues false.
Definition ___Type_ofType ctx field (obj : IType) : E := property ctx field (Type_OfType obj) marshalO__Type false.
Definition ___Type_isOneOf ctx field (obj : IType) : E := property ctx field (Type_IsOneOf obj) marshalOBoolean false.
Definition type_body (ctx : Path) (sel : Selections) (obj : IType) : E :=
  object_of "__Type" sel (fun field =>
    [("kind", (___Type_kind ctx field obj, true)); ("name", (___Type_name ctx field obj, false));
     ("description", (___Type_description ctx field obj, false)); ("specifiedByURL", (___Type_specifiedByURL ctx field obj, false));
     ("fields", (___Type_fields ctx field obj, false)); ("interfaces", (___Type_interfaces ctx field obj, false));
     ("possibleTypes", (___Type_possibleTypes ctx field obj, false)); ("enumValues", (___Type_enumValues ctx field obj, false));
     ("inputFields", (___Type_inputFields ctx field obj, false)); ("ofType", (___Type_ofType ctx field obj, false));
     ("isOneOf", (___Type_isOneOf ctx field obj, false))]).

Definition ___Directive_name ctx field (obj : IDirective) : E := property ctx field (Directive_Name obj) marshalNString true.
Definition ___Directive_description ctx field (obj : IDirective) : E := property ctx field (Directive_Description obj) marshalOString false.
Definition ___Directive_isRepeatable ctx field (obj : IDirective) : E := property ctx field (Directive_IsRepeatable obj) marshalNBoolean true.
Definition ___Directive_locations ctx field (obj : IDirective) : E := property ctx field (Directive_Locations obj) marshalN__DirectiveLocations true.
Definition ___Directive_args ctx field (obj : IDirective) : E :=
  ResolveField ctx field (field_context field___Directive_args_args field) (fun _ => xret (Ok (Directive_Args obj))) marshalN__InputValues true true.
Definition ___Directive (ctx : Path) (sel : Selections) (obj : IDirective) : E :=
  object_of "__Directive" sel (fun field =>
    [("name", (___Directive_name ctx field obj, true)); ("description", (___Directive_description ctx field obj, false));
     ("isRepeatable", (___Directive_isRepeatable ctx field obj, true)); ("locations", (___Directive_locations ctx field obj, true));
     ("args", (___Directive_args ctx field obj, true))]).
Definition marshalN__Directive (ctx : Path) (sel : Selections) (v : IDirective) : E := ___Directive ctx sel v.
Definition marshalN__Directives (ctx : Path) (sel : Selections) (v : list IDirective) : E :=
  marshal_slice ctx (fun ctx => element (marshalN__Directive ctx sel)) v.

Definition ___Schema_description ctx field (obj : ISchema) : E := property ctx field (Schema_Description obj) marshalOString false.
Definition ___Schema_types ctx field (obj : ISchema) : E := property ctx field (Schema_Types obj) marshalN__Types true.
Definition ___Schema_queryType ctx field (obj : ISchema) : E := property ctx field (Schema_QueryType obj) marshalN__Type true.
Definition ___Schema_mutationType ctx field (obj : ISchema) : E := property ctx field (Schema_MutationType obj) marshalO__Type false.
Definition ___Schema_subscriptionType ctx field (obj : ISchema) : E := property ctx field (Schema_SubscriptionType obj) marshalO__Type false.
Definition ___Schema_directives ctx field (obj : ISchema) : E := property ctx field (Schema_Directives obj) marshalN__Directives true.
Definition ___Schema (ctx : Path) (sel : Selections) (obj : ISchema) : E :=
  object_of "__Schema" sel (fun field =>
    [("description", (___Schema_description ctx field obj, false)); ("types", (___Schema_types ctx field obj, true));
     ("queryType", (___Schema_queryType ctx field obj, true)); ("mutationType", (___Schema_mutationType ctx field obj, false));
     ("subscriptionType", (___Schema_subscriptionType ctx field obj, false)); ("directives", (___Schema_directives ctx field obj, true))]).
Definition marshalO__Schema (ctx : Path) (sel : Selections) (v : option ISchema) : E := or_null v (___Schema ctx sel).
End Below.

Fixpoint ___Type (fuel : nat) (ctx : Path) (sel : Selections) (obj : IType) : E :=
  match fuel with O => panic | S fuel' => type_body (___Type fuel') ctx sel obj end.

(** ** The root fields *)

Section Root.
Variables (disabled : bool) (fuel : nat).
Definition _Query___type (ctx : Path) (field : CollectedField) : E :=
  ResolveField ctx field (field_context field_Query___type_args field) (fun name => xret (IntrospectType disabled name))
    (marshalO__Type (___Type fuel)) true false.
Definition _Query___schema (ctx : Path) (field : CollectedField) : E :=
  ResolveField ctx field (fun _ => xret (Ok tt)) (fun _ => xret (IntrospectSchema disabled)) (marshalO__Schema (___Type fuel)) true false.
(** The two cases of [_Query]. *)
Definition introspect_with (ctx : Path) (field : CollectedField) : E :=
  if String.eqb (fName field) "__type" then _Query___type ctx field else _Query___schema ctx field.
End Root.
(** With more fuel than the selections of the field are deep. *)
Definition introspect {SD : SelectionDepth GX} (disabled : bool) (ctx : Path) (field : CollectedField) : E :=
  introspect_with disabled (S (depth (fSelections field))) ctx field.
End Introspect.

(** ** The types of the answers *)

Section Typed.
Context {GX : Gqlgen} {GXL : GqlgenLaws GX} {JT : JsonText} {GI : GqlgenInput} {FT : FloatText} {TM : TimeText} {IN : Introspection}.
Context {W : Type} {R : relation W} {PO : PreOrder R}.
#[local] Set Default Proof Using "Type".
#[local] Abbreviation answers := (answers (R := R)).

Lemma answers_nullable t sel m : answers (TNonNull t) sel m -> answers t sel m.
Proof. intros H. eapply ensures_weaken; [exact H|]. intros a e [Hc|Hc]; [left; by inversion Hc|by right]. Qed.
Lemma answers_or_null {A} t sel (v : option A) k :
  non_null t = false -> (forall a, answers (TNonNull t) sel (k a)) -> answers t sel (or_null v k).
Proof using PO. intros Ht H. destruct v as [a|]; [apply answers_nullable, H|by apply answers_ret, conforms_null]. Qed.
Lemma answers_element {A} t sel (k : A -> X W Marshaler) v : (forall a, answers t sel (k a)) -> answers t sel (element k v).
Proof using PO. intros H. destruct v as [a|]; [apply H|]. intros s. split; [reflexivity|]. split; [done|]. intros ? [=]. Qed.
Lemma answers_elements {A} t sel ctx (k : Path -> A -> X W Marshaler) v :
  (forall ctx a, answers (TNonNull t) sel (k ctx a)) ->
  answers (TNonNull (TList (TNonNull t))) sel (marshal_slice ctx (fun ctx => element (k ctx)) v).
Proof using GXL PO. intros H. apply answers_slice. intros. by apply answers_element. Qed.
Lemma answers_with_args {A T} t ctx field (args : Path -> list (string * GoVal) -> attempt A) (value : A -> T) marshal nonNull :
  (forall c v, answers t (fSelections field) (marshal c (fSelections field) v)) ->
  answers t (fSelections field)
    (ResolveField ctx field (field_context args field) (fun a => xret (Ok (value a))) marshal true nonNull).
Proof using GXL PO.
  intros H. apply answers_field; [intros; apply context_ensures|apply context_total|intros; by apply ensures_ret|done].
Qed.
Lemma typed_nullable_boolean ctx sel v : answers TBoolean sel (marshalOBoolean ctx sel v).
Proof using PO. apply answers_ret, conforms_boolean. Qed.
Lemma typed_kind ctx sel v : answers (TNonNull (TEnum "__TypeKind")) sel (marshalN__TypeKind ctx sel v).
Proof using GXL PO. apply answers_not_null, conforms_enum. Qed.
Lemma typed_locations ctx sel v :
  answers (TNonNull (TList (TNonNull (TEnum "__DirectiveLocation")))) sel (marshalN__DirectiveLocations ctx sel v).
Proof using GXL PO. apply answers_elements. intros. apply answers_not_null, conforms_enum. Qed.
End Typed.

Section TypedObjects.
Context {GX : Gqlgen} {GXL : GqlgenLaws GX} {JT : JsonText} {GI : GqlgenInput} {FT : FloatText} {TM : TimeText} {IN : Introspection}.
Context {W : Type} {R : relation W} {PO : PreOrder R}.
#[local] Set Default Proof Using "Type".
#[local] Abbreviation answers := (answers (R := R)).
#[local] Hint Resolve typed_nullable_boolean typed_kind typed_locations answers_with_args : typed.
#[local] Ltac meta_case :=
  cbv beta iota;
  lazymatch goal with
  | |- match ?x with _ => _ end => let y := eval vm_compute in x in change x with y
  end; cbv beta iota; split; [reflexivity|first [apply answers_property|apply answers_with_args]; eauto with typed].
#[local] Ltac meta_object :=
  intros; apply answers_object; intros field; repeat (apply Forall_cons; split); try solve [constructor]; meta_case.
#[local] Ltac meta_list := intros; apply answers_or_null; [done|intros; apply answers_elements; eauto with typed].

Lemma typed_EnumValue ctx sel v : answers (TNonNull (TObject "__EnumValue")) sel (marshalN__EnumValue ctx sel v).
Proof using GXL PO. unfold marshalN__EnumValue. meta_object. Qed.
#[local] Hint Resolve typed_EnumValue : typed.
Lemma typed_EnumValues ctx sel v : answers (TList (TNonNull (TObject "__EnumValue"))) sel (marshalO__EnumValues ctx sel v).
Proof using GXL PO. meta_list. Qed.
#[local] Hint Resolve typed_EnumValues : typed.

Section Below.
Variable types : Path -> Selections -> IType -> X W Marshaler.
Hypothesis types_typed : forall ctx sel obj, answers (TNonNull (TObject "__Type")) sel (types ctx sel obj).
Lemma typed_Type ctx sel v : answers (TNonNull (TObject "__Type")) sel (marshalN__Type types ctx sel v).
Proof using GXL PO types_typed. by apply answers_not_nil. Qed.
Lemma typed_optional_Type ctx sel v : answers (TObject "__Type") sel (marshalO__Type types ctx sel v).
Proof using PO types_typed. by apply answers_or_null. Qed.
Lemma typed_Types ctx sel v : answers (TNonNull (TList (TNonNull (TObject "__Type")))) sel (marshalN__Types types ctx sel v).
Proof using GXL PO types_typed. apply answers_elements. intros. apply types_typed. Qed.
Lemma typed_optional_Types ctx sel v : answers (TList (TNonNull (TObject "__Type"))) sel (marshalO__Types types ctx sel v).
Proof using GXL PO types_typed. apply answers_or_null; [done|]. intros. apply answers_elements. intros. apply types_typed. Qed.
#[local] Hint Resolve typed_Type typed_optional_Type typed_Types typed_optional_Types : typed.
Lemma typed_InputValue ctx sel v : answers (TNonNull (TObject "__InputValue")) sel (marshalN__InputValue types ctx sel v).
Proof using GXL PO types_typed. unfold marshalN__InputValue. meta_object. Qed.
#[local] Hint Resolve typed_InputValue : typed.
Lemma typed_InputValues ctx sel v :
  answers (TNonNull (TList (TNonNull (TObject "__InputValue")))) sel (marshalN__InputValues types ctx sel v).
Proof using GXL PO types_typed. apply answers_elements. eauto with typed. Qed.
Lemma typed_optional_InputValues ctx sel v :
  answers (TList (TNonNull (TObject "__InputValue"))) sel (marshalO__InputValues types ctx sel v).
Proof using GXL PO types_typed. meta_list. Qed.
#[local] Hint Resolve typed_InputValues typed_optional_InputValues : typed.
Lemma typed_Field ctx sel v : answers (TNonNull (TObject "__Field")) sel (marshalN__Field types ctx sel v).
Proof using GXL PO types_typed. unfold marshalN__Field. meta_object. Qed.
#[local] Hint Resolve typed_Field : typed.
Lemma typed_Fields ctx sel v : answers (TList (TNonNull (TObject "__Field"))) sel (marshalO__Fields types ctx sel v).
Proof using GXL PO types_typed. meta_list. Qed.
#[local] Hint Resolve typed_Fields : typed.
Lemma typed_body ctx sel obj : answers (TNonNull (TObject "__Type")) sel (type_body types ctx sel obj).
Proof using GXL PO types_typed. meta_object. Qed.
Lemma typed_Directive ctx sel v : answers (TNonNull (TObject "__Directive")) sel (marshalN__Directive types ctx sel v).
Proof using GXL PO types_typed. unfold marshalN__Directive. meta_object. Qed.
#[local] Hint Resolve typed_Directive : typed.
Lemma typed_Directives ctx sel v :
  answers (TNonNull (TList (TNonNull (TObject "__Directive")))) sel (marshalN__Directives types ctx sel v).
Proof using GXL PO types_typed. apply answers_elements. eauto with typed. Qed.
#[local] Hint Resolve typed_Directives : typed.
Lemma typed_Schema ctx sel v : answers (TObject "__Schema") sel (marshalO__Schema types ctx sel v).
Proof using GXL PO types_typed. apply answers_or_null; [done|]. meta_object. Qed.
End Below.

Lemma typed_types fuel ctx sel obj : answers (TNonNull (TObject "__Type")) sel (___Type fuel ctx sel obj).
Proof using GXL PO.
  revert ctx sel obj. induction fuel as [|fuel IH]; intros ctx sel obj; [|by apply typed_body].
  intros s. split; [reflexivity|]. split; [done|]. intros ? [=].
Qed.
End TypedObjects.

(** ** Fuel *)

Section Fuel.
Context {GX : Gqlgen} {SD : SelectionDepth GX} {SDL : SelectionDepthLaws GX SD}.
Context {JT : JsonText} {GI : GqlgenInput} {FT : FloatText} {TM : TimeText} {IN : Introspection} {W : Type}.
#[local] Set Default Proof Using "Type".
#[local] Abbreviation Types := (Path -> Selections -> IType -> X W Marshaler).

(** Two computations that do the same on every state; two executors that agree on selections
    less than [d] deep. *)
Definition same {A} (m m' : X W A) : Prop := forall s, m s = m' s.
Definition agree (d : nat) (f g : Types) : Prop := forall ctx sel obj, (depth sel < d)%nat -> same (f ctx sel obj) (g ctx sel obj).
Definition same_case (a b : string * (X W Marshaler * bool)) : Prop := a.1 = b.1 /\ same a.2.1 b.2.1 /\ a.2.2 = b.2.2.
Definition same_cases (sel : Selections) (name : string) (cases cases' : CollectedField -> list (string * (X W Marshaler * bool))) : Prop :=
  forall field, (depth (fSelections field) < depth sel)%nat -> Forall2 same_case (cases field) (cases' field).

Lemma same_refl {A} (m : X W A) : same m m.
Proof. done. Qed.
Lemma same_assoc k l l' : Forall2 same_case l l' ->
  match assoc k l, assoc k l' with
  | Some (run, counted), Some (run', counted') => same run run' /\ counted = counted'
  | None, None => True
  | _, _ => False
  end.
Proof.
  induction 1 as [|[a [ra ca]] [b [rb cb]] l l' (H1 & H2 & H3) _ IH]; cbn in *; [done|]. subst b cb.
  destruct (decide (a = k)); [done|exact IH].
Qed.
Lemma object_of_same name sel cases cases' :
  same_cases sel name cases cases' -> same (object_of name sel cases) (object_of name sel cases').
Proof using SDL.
  intros H s. unfold object_of. assert (G : Forall (fun field => depth (fSelections field) < depth sel)%nat (CollectFields sel [name])).
  { apply Forall_forall. intros field Hf. by eapply depth_field. }
  revert G. generalize (CollectFields sel [name]) as fields. intros fields G.
  enough (E : forall s, field_values name cases fields s = field_values name cases' fields s) by (unfold xbind; by rewrite E).
  clear s. induction G as [|field fields Hf _ IH]; intros s; [done|]. cbn [field_values]. unfold xbind.
  assert (E : forall s, (if String.eqb (fName field) "__typename" then xret (MString name, 0)
      else match assoc (fName field) (cases field) with
           | Some (run, counted) => fun s => match run s with (Some a, s') => xret (a, if counted && is_null a then 1 else 0) s' | (None, s') => (None, s') end
           | None => panic
           end) s
      = (if String.eqb (fName field) "__typename" then xret (MString name, 0)
      else match assoc (fName field) (cases' field) with
           | Some (run, counted) => fun s => match run s with (Some a, s') => xret (a, if counted && is_null a then 1 else 0) s' | (None, s') => (None, s') end
           | None => panic
           end) s).
  { intros s'. destruct (String.eqb _ _); [done|]. pose proof (same_assoc (fName field) _ _ (H field Hf)) as Ha.
    destruct (assoc _ (cases field)) as [[r c]|], (assoc _ (cases' field)) as [[r' c']|]; try done. destruct Ha as [Hr ->]. by rewrite Hr. }
  rewrite E. destruct (_ s) as [[v|] s1]; [|done]. by rewrite IH.
Qed.
Lemma marshal_slice_same {A} ctx (k k' : Path -> option A -> X W Marshaler) v :
  (forall ctx a, same (k ctx a) (k' ctx a)) -> same (marshal_slice ctx k v) (marshal_slice ctx k' v).
Proof using SDL.
  intros H s. unfold marshal_slice, xbind. erewrite MarshalSliceConcurrently_ext; [reflexivity|]. intros. apply H.
Qed.
Lemma elements_same {A} ctx (k k' : Path -> A -> X W Marshaler) v : (forall ctx a, same (k ctx a) (k' ctx a)) ->
  same (marshal_slice ctx (fun ctx => element (k ctx)) v) (marshal_slice ctx (fun ctx => element (k' ctx)) v).
Proof using SDL. intros H. apply marshal_slice_same. intros c [a|]; [apply H|done]. Qed.
Lemma or_null_same {A} (v : option A) (k k' : A -> X W Marshaler) : (forall a, same (k a) (k' a)) -> same (or_null v k) (or_null v k').
Proof. intros H. destruct v; [apply H|done]. Qed.
Lemma not_nil_same {A} ctx (v : option A) (k k' : A -> X W Marshaler) : (forall a, same (k a) (k' a)) -> same (not_nil ctx v k) (not_nil ctx v k').
Proof. intros H. destruct v; [apply H|done]. Qed.
Lemma field_same {A T} ctx field init (resolve : A -> X W (result T)) marshal marshal' nonNull :
  (forall c v, same (marshal c (fSelections field) v) (marshal' c (fSelections field) v)) ->
  same (ResolveField ctx field init resolve marshal true nonNull) (ResolveField ctx field init resolve marshal' true nonNull).
Proof using SDL. intros H s. apply ResolveField_ext. intros. apply H. Qed.

(** An object: the cases that have types below them differ in the executor only. *)
#[local] Ltac same_object below :=
  apply object_of_same; intros field Hfield; 
  repeat (apply List.Forall2_cons;
    [split; [reflexivity|split; [first [simple apply same_refl|apply field_same; intros; below; lia]|reflexivity]]|]);
  apply List.Forall2_nil.

Section Agree.
Variables (d : nat) (f g : Types).
Hypothesis Hfg : agree d f g.
Lemma same_Type ctx sel v : (depth sel < d)%nat -> same (marshalN__Type f ctx sel v) (marshalN__Type g ctx sel v).
Proof using Hfg. intros H. apply not_nil_same. intros. by apply Hfg. Qed.
Lemma same_optional_Type ctx sel v : (depth sel < d)%nat -> same (marshalO__Type f ctx sel v) (marshalO__Type g ctx sel v).
Proof using Hfg. intros H. apply or_null_same. intros. by apply Hfg. Qed.
Lemma same_Types ctx sel v : (depth sel < d)%nat -> same (marshalN__Types f ctx sel v) (marshalN__Types g ctx sel v).
Proof using Hfg SDL. intros H. apply elements_same. intros. by apply Hfg. Qed.
Lemma same_optional_Types ctx sel v : (depth sel < d)%nat -> same (marshalO__Types f ctx sel v) (marshalO__Types g ctx sel v).
Proof using Hfg SDL. intros H. apply or_null_same. intros. apply elements_same. intros. by apply Hfg. Qed.
Lemma same_InputValue ctx sel v : (depth sel <= d)%nat -> same (marshalN__InputValue f ctx sel v) (marshalN__InputValue g ctx sel v).
Proof using Hfg SDL. intros H. same_object ltac:(apply same_Type). Qed.
Lemma same_InputValues ctx sel v : (depth sel <= d)%nat -> same (marshalN__InputValues f ctx sel v) (marshalN__InputValues g ctx sel v).
Proof using Hfg SDL. intros H. apply elements_same. intros. by apply same_InputValue. Qed.
Lemma same_optional_InputValues ctx sel v :
  (depth sel <= d)%nat -> same (marshalO__InputValues f ctx sel v) (marshalO__InputValues g ctx sel v).
Proof using Hfg SDL. intros H. apply or_null_same. intros. apply elements_same. intros. by apply same_InputValue. Qed.
Lemma same_Field ctx sel v : (depth sel <= d)%nat -> same (marshalN__Field f ctx sel v) (marshalN__Field g ctx sel v).
Proof using Hfg SDL. intros H. same_object ltac:(first [apply same_Type|apply same_InputValues]). Qed.
Lemma same_Fields ctx sel v : (depth sel <= d)%nat -> same (marshalO__Fields f ctx sel v) (marshalO__Fields g ctx sel v).
Proof using Hfg SDL. intros H. apply or_null_same. intros. apply elements_same. intros. by apply same_Field. Qed.
Lemma same_body ctx sel obj : (depth sel <= d)%nat -> same (type_body f ctx sel obj) (type_body g ctx sel obj).
Proof using Hfg SDL.
  intros H. same_object ltac:(first [apply same_Fields|apply same_optional_Types|apply same_optional_InputValues|apply same_optional_Type]).
Qed.
Lemma same_Directives ctx sel v : (depth sel <= d)%nat -> same (marshalN__Directives f ctx sel v) (marshalN__Directives g ctx sel v).
Proof using Hfg SDL. intros H. apply elements_same. intros. same_object ltac:(apply same_InputValues). Qed.
Lemma same_Schema ctx sel v : (depth sel <= d)%nat -> same (marshalO__Schema f ctx sel v) (marshalO__Schema g ctx sel v).
Proof using Hfg SDL.
  intros H. apply or_null_same. intros.
  same_object ltac:(first [apply same_Types|apply same_Type|apply same_optional_Type|apply same_Directives]).
Qed.
End Agree.

(** Fuel beyond the depth of the selections changes nothing. *)
Lemma enough_fuel d : forall n m, (d <= n)%nat -> (d <= m)%nat -> agree d (___Type n) (___Type m).
Proof using SDL.
  induction d as [|d IH]; intros n m Hn Hm ctx sel obj Hd; [lia|]. destruct n as [|n], m as [|m]; [lia..|].
  cbn [___Type]. apply (same_body d); [apply IH; lia|lia].
Qed.
End Fuel.

(** ** Theorems *)

Section Theorems.
Context {GX : Gqlgen} {GXL : GqlgenLaws GX} {SD : SelectionDepth GX} {SDL : SelectionDepthLaws GX SD}.
Context {JT : JsonText} {GI : GqlgenInput} {FT : FloatText} {TM : TimeText} {IN : Introspection} {INL : IntrospectionLaws IN} {W : Type}.
#[local] Set Default Proof Using "Type".
#[local] Existing Instance any_change_preorder.

Lemma introspect_total disabled ctx field (s : St W) : (introspect disabled ctx field s).1 <> None.
Proof using GXL.
  unfold introspect, introspect_with. destruct (String.eqb _ _); apply field_total; [apply context_total|done].
Qed.
Lemma introspect_answers disabled ctx field t : fName field ∈ ["__type"; "__schema"] ->
  assoc (fName field) (type_fields "Query") = Some t ->
  answers (W := W) (R := any_change) t (fSelections field) (introspect disabled ctx field).
Proof using GXL.
  rewrite !elem_of_cons. intros [Hf|[Hf|Hf]] Ht; [..|by apply elem_of_nil in Hf]; rewrite Hf in Ht; injection Ht as <-;
    unfold introspect, introspect_with; rewrite Hf.
  - cbn [String.eqb]. apply answers_field; [intros; apply context_ensures|apply context_total|intros; by apply ensures_ret|].
    intros. apply typed_optional_Type. apply typed_types.
  - apply answers_field; [intros; by apply ensures_ret|done|intros; by apply ensures_ret|].
    intros. apply typed_Schema. apply typed_types.
Qed.

(** C6: query answers.  For a query document over the fields of the schema, introspection
    included, the resolvers run concurrently, and whatever they do, fail with or panic with and
    however they interleave, there is exactly one answer, and what is written for it has the type
    of the schema in every place, or is null as a whole with an error in the response.  Two kinds
    of value break the type, as [written] says: a float that is not finite is null also where the
    schema says [Float!], with an error; a JSON object that cannot be encoded, such as a row with a NaN,
    is the text null where the schema says [JSON!], without any. *)
Theorem query_answer_typed Sprintf_text M Q zero_time disabled sel n (s : St W) :
  Forall query_field (CollectFields sel ["Query"]) ->
  exists d s', Exec Sprintf_text M Q zero_time (introspect disabled) OpQuery sel (S (S n)) true s = (Some [d], s')
    /\ (written (errs s') (TNonNull (TObject "Query")) sel d \/ (d = DNull /\ errs s' <> [])).
Proof using GXL.
  intros Hv. destruct (query_answers Q zero_time (introspect disabled) (introspect_answers disabled) (introspect_total disabled) [] sel s Hv)
    as (m & s1 & E & Hm).
  eexists _, _. split; [cbn [Exec handler]; unfold xbind; rewrite E; reflexivity|]. cbn [fst snd errs write].
  destruct Hm as [Hm|[-> He]].
  - left. apply conforms_written; [exact Hm|]. intros x Hx. apply elem_of_app. by right.
  - right. split; [done|]. by destruct (errs s1).
Qed.

(** introspection that is switched off.  With a configuration that does not enable
    introspection, a field that asks for the schema is null with exactly one error, and the
    resolvers' world is as it was; in particular with the default configuration. *)
Theorem introspection_gated (c : Config.GraphQLConfig) ctx field (s : St W) :
  Config.IntrospectionEnabled c = false ->
  exists e, introspect (negb (Lifecycle.introspection (Lifecycle.NewGraphQLHandler c))) ctx field s
            = (Some MNull, (add_error (child_path ctx field) e s).2).
Proof using GXL INL.
  intros Hc. cbn [Lifecycle.NewGraphQLHandler Lifecycle.introspection]. rewrite Hc. cbn [negb].
  unfold introspect, introspect_with. destruct (String.eqb _ _); unfold _Query___type, _Query___schema.
  - destruct (field_Query___type_args (child_path ctx field) (ArgumentMap field)) as [name|e|] eqn:Ea.
    + eapply ResolveField_failed; [unfold field_context; by rewrite Ea|]. by rewrite IntrospectType_disabled.
    + exists e. apply (ResolveField_refused _ _ _ _ _ _ _ _ _ _ e). unfold field_context. by rewrite Ea.
    + exists Recovered. apply (ResolveField_refused _ _ _ _ _ _ _ _ _ _ Recovered). unfold field_context. by rewrite Ea.
  - eapply ResolveField_failed; [done|]. by rewrite IntrospectSchema_disabled.
Qed.

(** the introspection ends.  The types of a schema refer to each other in cycles, but the
    answer to a field is determined by its selections: with any fuel beyond their depth it is
    the same, and it is an answer and not a panic. *)
Theorem introspection_terminates disabled fuel ctx field (s : St W) :
  (depth (fSelections field) < fuel)%nat ->
  introspect_with disabled fuel ctx field s = introspect disabled ctx field s
  /\ (introspect_with disabled fuel ctx field s).1 <> None.
Proof using GXL SDL.
  intros Hf. assert (E : introspect_with disabled fuel ctx field s = introspect disabled ctx field s).
  { unfold introspect, introspect_with. destruct (String.eqb _ _); apply field_same; intros c v.
    - apply (same_optional_Type (S (depth (fSelections field)))); [apply enough_fuel; lia|lia].
    - apply (same_Schema (S (depth (fSelections field)))); [apply enough_fuel; lia|lia]. }
  split; [exact E|]. rewrite E. apply introspect_total.
Qed.
End Theorems.

(** ** Concrete instances *)

Section Witnesses.
#[local] Existing Instance demo_gqlgen.
#[local] Existing Instance demo_gqlgen_laws.
#[local] Existing Instance demo_gqlgen_input.
#[local] Existing Instance demo_float_text.
#[local] Existing Instance demo_time.
#[local] Instance demo_json : JsonText := {| json_float _ := "0"; json_other _ := Err ErrEOF |}.

Fixpoint field_depth (field : DemoField) : nat :=
  match field with DF _ _ _ sel => S (foldr (fun f d => Nat.max (field_depth f) d) 0%nat sel) end.
Definition demo_depth : SelectionDepth demo_gqlgen :=
  @Build_SelectionDepth demo_gqlgen (fun sel : list DemoField => foldr (fun f d => Nat.max (field_depth f) d) 0%nat sel).
#[local] Existing Instance demo_depth.
Lemma in_order_ext {W} (l : list nat) (f f' : nat -> X W Marshaler) s :
  (forall i s, f i s = f' i s) -> in_order (map f l) s = in_order (map f' l) s.
Proof.
  intros H. revert s. induction l as [|i l IH]; intros s; [done|]. cbn [map in_order]. unfold xbind. rewrite H.
  destruct (f' i s) as [[m|] s1]; [|done]. by rewrite IH.
Qed.
Lemma demo_depth_laws : SelectionDepthLaws demo_gqlgen demo_depth.
Proof.
  split.
  - intros sel names field Hf. cbn in *. enough (G : (field_depth field <= foldr (fun f d => Nat.max (field_depth f) d) 0%nat sel)%nat).
    { destruct field as [n a args sel']. cbn in *. lia. }
    induction Hf as [sel|f sel Hf IH]; cbn; lia.
  - intros W A T ctx [n al args sel] init resolve marshal marshal' nonNull s H. cbn in *.
    destruct (init _ s) as [[[a|e]|] s1]; [|done..]. unfold recovered. destruct (resolve a s1) as [[[v|e]|] s2]; [|done..]. by rewrite H.
  - intros W ctx n f f' s H. cbn. by apply in_order_ext.
Qed.
#[local] Existing Instance demo_depth_laws.

(** A schema whose only type is its own wrapped type. *)
Definition demo_introspection : Introspection := {|
  ISchema := unit; IType := unit; IField := unit; IInputValue := unit; IEnumValue := unit; IDirective := unit;
  Schema_Description _ := None; Schema_Types _ := [tt]; Schema_QueryType _ := Some tt; Schema_MutationType _ := None;
  Schema_SubscriptionType _ := None; Schema_Directives _ := [];
  Type_Kind _ := "OBJECT"; Type_Name _ := Some "Query"; Type_Description _ := None; Type_SpecifiedByURL _ := None;
  Type_Fields _ _ := Some [tt]; Type_Interfaces _ := Some []; Type_PossibleTypes _ := None; Type_EnumValues _ _ := None;
  Type_InputFields _ := None; Type_OfType _ := Some tt; Type_IsOneOf _ := false;
  Field_Name _ := "f"; Field_Description _ := None; Field_Args _ := []; Field_Type _ := Some tt; Field_IsDeprecated _ := false;
  Field_DeprecationReason _ := None;
  InputValue_Name _ := "i"; InputValue_Description _ := None; InputValue_Type _ := Some tt; InputValue_DefaultValue _ := None;
  InputValue_IsDeprecated _ := false; InputValue_DeprecationReason _ := None;
  EnumValue_Name _ := "E"; EnumValue_Description _ := None; EnumValue_IsDeprecated _ := false; EnumValue_DeprecationReason _ := None;
  Directive_Name _ := "d"; Directive_Description _ := None; Directive_IsRepeatable _ := false; Directive_Locations _ := [];
  Directive_Args _ := [];
  IntrospectSchema disabled := if disabled then Err introspection_disabled else Ok (Some tt);
  IntrospectType disabled _ := if disabled then Err introspection_disabled else Ok (Some tt);
  UnmarshalBoolean v := match v with VBool b => Ok b | _ => Err ErrEOF end;
|}.
#[local] Existing Instance demo_introspection.
Lemma demo_introspection_laws : IntrospectionLaws demo_introspection.
Proof. by split. Qed.

Definition demo_schema_query : DemoField :=
  DF "__schema" "__schema" [] [DF "queryType" "q" [] [DF "name" "name" [] []; DF "ofType" "of" [] [DF "kind" "kind" [] []]]].
Example demo_schema_answer :
  (_Query demo_queries 0 (introspect false) [] [demo_schema_query] {| world := 0; errs := [] |}).1
  = Some (MObject [("__schema", MObject [("q", MObject [("name", MString "Query"); ("of", MObject [("kind", MString "OBJECT")])])])]).
Proof. vm_compute. reflexivity. Qed.
(** A row with a NaN: the text null, and no error. *)
Definition nan_queries : QueryResolver Z := {|
  Starrocks _ n := (Some (Ok (Some {| Edges := []; Nodes := [[("id", VFloat64 S754_nan)]];
    conPageInfo := {| HasNextPage := false; HasPreviousPage := false; StartCursor := None; EndCursor := None |}; conTotalCount := 1 |})), n + 1);
  PrometheusInstant _ _ _ n := (Some (Err ErrEOF), n); PrometheusRange _ n := (None, n);
  TemplateQuery _ n := (Some (Ok None), n); TemplateList _ _ n := (Some (Ok []), n) |}.
Notation run_query Q sel :=
  (Exec (fun _ => EmptyString) demo_mutations Q 0 (introspect false) OpQuery sel 2 true {| world := 0; errs := [] |}).
Example nan_answer : run_query nan_queries [demo_query]
  = (Some [DObject [("s", DObject [("rows", DArray [DObject [("data", DText "null")]])])]], {| world := 1; errs := [] |}).
Proof. vm_compute. reflexivity. Qed.
Lemma query_answer_typed_witness :
  (exists d s', run_query demo_queries [demo_query; demo_schema_query] = (Some [d], s')
     /\ (written (errs s') (TNonNull (TObject "Query")) [demo_query; demo_schema_query] d \/ (d = DNull /\ errs s' <> [])))
  /\ exists d s', run_query nan_queries [demo_query] = (Some [d], s')
     /\ (written (errs s') (TNonNull (TObject "Query")) [demo_query] d \/ (d = DNull /\ errs s' <> [])).
Proof.
  split; apply query_answer_typed; repeat (apply Forall_cons; split; [right; eexists; reflexivity|]); constructor.
Defined.
Lemma introspection_gated_witness : exists e,
  introspect (negb (Lifecycle.introspection (Lifecycle.NewGraphQLHandler (Config.GraphQL Config.setDefaults)))) [] demo_schema_query
    {| world := 0; errs := [] |}
  = (Some MNull, {| world := 0; errs := [([PathField "__schema"], e)] |}).
Proof.
  exact (introspection_gated (INL := demo_introspection_laws) (Config.GraphQL Config.setDefaults) [] demo_schema_query
           {| world := 0; errs := [] |} eq_refl).
Defined.
Lemma introspection_terminates_witness :
  introspect_with false 7 [] demo_schema_query {| world := 0; errs := [] |}
  = introspect false [] demo_schema_query {| world := 0; errs := [] |}
  /\ (introspect_with false 7 [] demo_schema_query {| world := 0; errs := [] |}).1 <> None.
Proof. apply introspection_terminates. cbn. lia. Defined.

Definition demo_step (name : string) : @CollectedField demo_gqlgen := DF name name [] [].
Lemma contexts_follow_schema_witness : exists c,
  walk_from "Query" (demo_step "starrocks") [demo_step "edges"; demo_step "node"; demo_step "data"] = Some (Ok c)
  /\ Object c = "StarRocksRow" /\ Field c = demo_step "data".
Proof.
  destruct (contexts_follow_schema "Query" (demo_step "starrocks") [demo_step "edges"; demo_step "node"; demo_step "data"]
              ltac:(decided)) as (c & Hw & Ho & Hf & _).
  by exists c.
Defined.
End Witnesses.
