(* ===== verification/GraphqlSchema.v ===== *)
(** * internal/graphql/schema, as internal/graphql/generated/generated.go embeds it

    The texts of the schema, and that the switches of the generated executor answer exactly the
    fields they declare.  What a text declares is specified by a reader for the part of GraphQL's
    schema language that the texts use (section 3 of its specification: names, punctuators,
    comments, block strings, the definitions of scalars, enumerations, objects and input objects,
    type extensions); it is no model of the library that parses them when the server starts. *)
From S2P Require Import Prelude GoStrings Values GoConv FuncMap Json JsonRaw Scalar Auth.
From S2P Require Import Resolver PrometheusResolver TemplateResolver GraphqlInput GraphqlOutput GraphqlTyped GraphqlIntrospection.
From S2P Require Enums Mutation.

(** ** The sources, with [quoted] for their double quotes *)

Definition source_base : string := quoted
"# ===== 自定义标量类型 =====

```ISO 8601 日期时间格式，如 2024-01-15T10:30:00Z```
scalar DateTime

```任意 JSON 值，用于动态字段和元数据```
scalar JSON

# ===== 基础枚举类型 =====

enum SortDirection {
  ASC
  DESC
}

enum FilterOperator {
  EQ
  NEQ
  GT
  GTE
  LT
  LTE
  LIKE
  IN
  NOT_IN
  IS_NULL
  IS_NOT_NULL
}

enum LabelMatchType {
  ```精确匹配 (=)```
  EXACT
  ```不等于 (!=)```
  NOT_EQUAL
  ```正则匹配 (=~)```
  REGEX
  ```正则不匹配 (!~)```
  NOT_REGEX
}

# ===== 分页类型 (Relay Connection 规范) =====

```分页信息，遵循 Relay Connection 规范```
type PageInfo {
  hasNextPage: Boolean!
  hasPreviousPage: Boolean!
  startCursor: String
  endCursor: String
}

# ===== Query 根类型 =====

type Query {
  ```
  StarRocks OLAP 数据查询。
  table 参数必须在服务端白名单中，非法表名将返回验证错误。
  返回的 StarRocksRow.data 为 JSON 对象，包含请求的字段。
  ```
  starrocks(
    table: String!
    fields: [String!]
    filters: [StarRocksFilter!]
    orderBy: [StarRocksOrderBy!]
    first: Int
    after: String
    offset: Int
    limit: Int
  ): StarRocksConnection!

  ```Prometheus 即时查询```
  prometheusInstant(
    query: String!
    time: DateTime
    filters: [PrometheusLabelFilter!]
  ): PrometheusInstantResult!

  ```Prometheus 范围查询```
  prometheusRange(
    query: String!
    startTime: DateTime!
    endTime: DateTime!
    step: String!
    filters: [PrometheusLabelFilter!]
  ): PrometheusRangeResult!
}
".
Definition source_mutation : string := quoted
"```
AnyValue represents any valid JSON value: objects, arrays, strings, numbers, booleans, or null.
Pass values directly: value: 42, value: `hello`, value: [1,2,3], value: {`key`: `val`}
```
scalar AnyValue

# ===== Mutation Input Types =====

```Column-value pair for INSERT and UPDATE operations.```
input ColumnValueInput {
  ```Column name (must match writable_tables whitelist).```
  column: String!
  ```
  Column value passed directly as any JSON value.
  Examples: value: 42, value: `hello`, value: true, value: null, value: [1,2,3]
  ```
  value: AnyValue!
}

```Filter condition for UPDATE and DELETE operations.
For IN/NOT_IN operators, value must be an array (e.g., value: [1, 2, 3]).
For IS_NULL/IS_NOT_NULL operators, value is ignored (can be null).```
input MutationFilterInput {
  ```Column name to filter on (validated against allowed_tables whitelist).```
  field: String!
  ```Comparison operator.```
  operator: FilterOperator!
  ```
  Filter value passed directly as any JSON value. Null for IS_NULL/IS_NOT_NULL operators.
  Examples: value: 100, value: `active`, value: [1, 2, 3]
  ```
  value: AnyValue
}

# ===== Mutation Result Type =====

```Result of a mutation operation.```
type MutationResult {
  ```Whether the mutation executed successfully.```
  success: Boolean!
  ```Number of rows affected by the mutation.```
  affectedRows: Int!
  ```Optional warning message (e.g., affected rows exceeded threshold).```
  warning: String
}

# ===== Mutation Root Type =====

```
Mutation operations for data modification.
All data mutations require the principal to have `mutation` in their operations scope.
Mutations are globally gated by the mutations.enabled configuration flag.
```
type Mutation {
  ```
  Clear cache. Specify datasource to clear a specific datasource cache,
  or omit to clear all caches.
  Requires the principal to have `mutation` operation permission.
  ```
  clearCache(datasource: String): Boolean!

  ```Insert a single row into a StarRocks table.```
  insertStarrocks(table: String!, values: [ColumnValueInput!]!): MutationResult!

  ```Update rows in a StarRocks table matching filter conditions.```
  updateStarrocks(table: String!, set: [ColumnValueInput!]!, filter: [MutationFilterInput!]!): MutationResult!

  ```Delete rows from a StarRocks table matching filter conditions.```
  deleteStarrocks(table: String!, filter: [MutationFilterInput!]!): MutationResult!

  ```Batch insert multiple rows into a StarRocks table. Each row is an array of values corresponding to the columns array.```
  insertBatchStarrocks(table: String!, columns: [String!]!, rows: [[AnyValue!]!]!): MutationResult!
}
".
Definition source_prometheus : string := quoted
"# ===== Prometheus 数据源类型 =====

type PrometheusMetricLabel {
  name: String!
  value: String!
}

type PrometheusDataPoint {
  timestamp: Float!
  value: Float
}

type PrometheusVector {
  metric: [PrometheusMetricLabel!]!
  value: PrometheusDataPoint
}

type PrometheusMatrix {
  metric: [PrometheusMetricLabel!]!
  values: [PrometheusDataPoint!]!
}

type PrometheusInstantResult {
  resultType: String!
  vectors: [PrometheusVector!]!
}

type PrometheusRangeResult {
  resultType: String!
  matrices: [PrometheusMatrix!]!
}

input PrometheusLabelFilter {
  name: String!
  value: String!
  matchType: LabelMatchType!
}
".
Definition source_starrocks : string := quoted
"# ===== StarRocks 数据源类型 =====

```
StarRocks 查询结果行。
由于 StarRocks 是 OLAP 数据库，不同表结构不同，
使用 JSON 标量类型作为动态字段容器。
客户端通过 GraphQL 的字段选择机制指定需要的列，
适配器根据请求的字段生成对应的 SQL SELECT 子句。
```
type StarRocksRow {
  ```动态字段数据，key 为列名，value 为列值```
  data: JSON!
}

type StarRocksEdge {
  node: StarRocksRow!
  cursor: String!
}

type StarRocksConnection {
  edges: [StarRocksEdge!]!
  nodes: [StarRocksRow!]!
  pageInfo: PageInfo!
  totalCount: Int!
}

input StarRocksFilter {
  field: String!
  operator: FilterOperator!
  value: String!
}

input StarRocksOrderBy {
  field: String!
  direction: SortDirection!
}
".
Definition source_template : string := quoted
"# ===== SQL 模板查询类型 =====

```模板查询排序条件```
input TemplateOrderBy {
  field: String!
  direction: SortDirection!
}

```模板查询结果（使用 offset 分页，不使用 Relay cursor）```
type TemplateQueryConnection {
  nodes: [JSON!]!
  pageInfo: PageInfo!
  totalCount: Int!
}

```模板元信息```
type TemplateInfo {
  name: String!
  description: String!
  countEnabled: Boolean!
  parameters: [TemplateParameterInfo!]!
}

```模板参数元信息```
type TemplateParameterInfo {
  name: String!
  type: String!
  required: Boolean!
  defaultValue: String
}

```模板重新加载结果```
type ReloadTemplatesResult {
  successCount: Int!
  failures: [TemplateLoadFailure!]!
  duration: String!
}

```模板加载失败详情```
type TemplateLoadFailure {
  name: String!
  error: String!
}

extend type Query {
  ```执行 SQL 模板查询```
  templateQuery(
    templateName: String!
    parameters: JSON
    fields: [String!]
    first: Int
    offset: Int
    orderBy: [TemplateOrderBy!]
  ): TemplateQueryConnection!

  ```列出所有已注册的模板```
  templateList(first: Int, offset: Int): [TemplateInfo!]!
}

extend type Mutation {
  ```重新加载 SQL 模板（需要 mutation 权限）```
  reloadTemplates: ReloadTemplatesResult!
}
".

Definition sources : list (string * string) :=
  [("../schema/base.graphql", source_base); ("../schema/mutation.graphql", source_mutation);
   ("../schema/prometheus.graphql", source_prometheus); ("../schema/starrocks.graphql", source_starrocks);
   ("../schema/template.graphql", source_template)].

(** ** Reading a schema *)

Module Sdl.

Inductive Token := TName (s : string) | TPunct (c : ascii) | TDescription.
Definition ignored (c : ascii) : bool := bool_decide (c ∈ [" "; ","; "010"; "013"; "009"]%char).
Definition punctuator (c : ascii) : bool := bool_decide (c ∈ ["!"; "("; ")"; ":"; "["; "]"; "{"; "}"; "="; "|"; "&"; "@"; "$"]%char).
Fixpoint span (p : ascii -> bool) (s : string) : string * string :=
  match s with
  | String c s' => if p c then let r := span p s' in (String c r.1, r.2) else (EmptyString, s)
  | EmptyString => (EmptyString, EmptyString)
  end.
Definition block_quote : string := quoted "```".
Fixpoint after_block (s : string) : option string :=
  if has_prefix block_quote s then Some (substring 3 (String.length s) s)
  else match s with EmptyString => None | String _ s' => after_block s' end.
(** Every token takes a byte of the text, so its length is fuel enough.  A string that is not a
    block string, and anything else the language has and these texts do not, is refused. *)
Fixpoint tokens (fuel : nat) (s : string) : option (list Token) :=
  match fuel, s with
  | _, EmptyString => Some []
  | O, _ => None
  | S n, String c s' =>
      if ignored c then tokens n s'
      else if Ascii.eqb c "#"%char then tokens n (span (fun c => negb (Ascii.eqb c "010"%char)) s').2
      else if has_prefix block_quote s then rest ← after_block (substring 3 (String.length s) s); cons TDescription <$> tokens n rest
      else if ident_start c then let r := span ident_char s in cons (TName r.1) <$> tokens n r.2
      else if punctuator c then cons (TPunct c) <$> tokens n s'
      else None
  end.

Inductive SType := SNamed (name : string) | SList (t : SType) | SNonNull (t : SType).
Record FieldDef := { fd_name : string; fd_args : list (string * SType); fd_type : SType }.
Inductive Definition_ :=
  | DScalar (name : string)
  | DEnum (name : string) (values : list string)
  | DObject (extend : bool) (name : string) (fields : list FieldDef)
  | DInput (name : string) (fields : list (string * SType)).

Definition expect (c : ascii) (ts : list Token) : option (list Token) :=
  match ts with TPunct c' :: ts' => if Ascii.eqb c c' then Some ts' else None | _ => None end.
Definition bang (t : SType) (ts : list Token) : SType * list Token :=
  match expect "!" ts with Some ts' => (SNonNull t, ts') | None => (t, ts) end.
Definition undescribed (ts : list Token) : list Token := match ts with TDescription :: ts' => ts' | _ => ts end.
(** The fuel of these is the number of tokens. *)
Fixpoint type_ref (fuel : nat) (ts : list Token) : option (SType * list Token) :=
  match fuel, ts with
  | S n, TPunct "[" :: ts' => r ← type_ref n ts'; ts'' ← expect "]" r.2; Some (bang (SList r.1) ts'')
  | S n, TName x :: ts' => Some (bang (SNamed x) ts')
  | _, _ => None
  end.
Fixpoint input_values (close : ascii) (fuel : nat) (ts : list Token) : option (list (string * SType) * list Token) :=
  match fuel, undescribed ts with
  | S n, TName x :: ts' =>
      ts' ← expect ":" ts'; t ← type_ref n ts'; r ← input_values close n t.2; Some ((x, t.1) :: r.1, r.2)
  | _, ts => ts' ← expect close ts; Some ([], ts')
  end.
Fixpoint field_defs (fuel : nat) (ts : list Token) : option (list FieldDef * list Token) :=
  match fuel, undescribed ts with
  | S n, TName x :: ts' =>
      a ← match expect "(" ts' with Some ts' => input_values ")" n ts' | None => Some ([], ts') end;
      ts' ← expect ":" a.2; t ← type_ref n ts'; r ← field_defs n t.2;
      Some ({| fd_name := x; fd_args := a.1; fd_type := t.1 |} :: r.1, r.2)
  | _, ts => ts' ← expect "}" ts; Some ([], ts')
  end.
Fixpoint enum_values (fuel : nat) (ts : list Token) : option (list string * list Token) :=
  match fuel, undescribed ts with
  | S n, TName x :: ts' => r ← enum_values n ts'; Some (x :: r.1, r.2)
  | _, ts => ts' ← expect "}" ts; Some ([], ts')
  end.
Fixpoint document (fuel : nat) (ts : list Token) : option (list Definition_) :=
  match fuel, undescribed ts with
  | _, [] => Some []
  | S n, TName "scalar" :: TName x :: ts' => cons (DScalar x) <$> document n ts'
  | S n, TName "enum" :: TName x :: TPunct "{" :: ts' => r ← enum_values n ts'; cons (DEnum x r.1) <$> document n r.2
  | S n, TName "type" :: TName x :: TPunct "{" :: ts' => r ← field_defs n ts'; cons (DObject false x r.1) <$> document n r.2
  | S n, TName "extend" :: TName "type" :: TName x :: TPunct "{" :: ts' =>
      r ← field_defs n ts'; cons (DObject true x r.1) <$> document n r.2
  | S n, TName "input" :: TName x :: TPunct "{" :: ts' => r ← input_values "}" n ts'; cons (DInput x r.1) <$> document n r.2
  | _, _ => None
  end.
Definition parse (s : string) : option (list Definition_) := ts ← tokens (String.length s) s; document (length ts) ts.

(** The sources together: extensions after the fields of the type. *)
Record Schema := {
  scalars : list string;
  enums : list (string * list string);
  objects : list (string * list FieldDef);
  inputs : list (string * list (string * SType));
}.
Definition load (sources : list (string * string)) : option Schema :=
  docs ← mapM (fun x => parse x.2) sources;
  let ds := concat docs in
  let extension x := concat (omap (fun d => match d with DObject true y fs => if String.eqb x y then Some fs else None | _ => None end) ds) in
  Some {| scalars := omap (fun d => match d with DScalar x => Some x | _ => None end) ds;
          enums := omap (fun d => match d with DEnum x vs => Some (x, vs) | _ => None end) ds;
          objects := omap (fun d => match d with DObject false x fs => Some (x, fs ++ extension x) | _ => None end) ds;
          inputs := omap (fun d => match d with DInput x fs => Some (x, fs) | _ => None end) ds |}.
End Sdl.

(** What the texts of the server declare. *)
Definition declared : Sdl.Schema :=
  default {| Sdl.scalars := []; Sdl.enums := []; Sdl.objects := []; Sdl.inputs := [] |} (Sdl.load sources).

(** ** What the texts declare *)

Section Declared.
Variable sch : Sdl.Schema.
Definition declared_fields (name : string) : list Sdl.FieldDef := default [] (assoc name (Sdl.objects sch)).
Definition declared_args (type field : string) : list string :=
  match find (fun f => String.eqb (Sdl.fd_name f) field) (declared_fields type) with
  | Some f => map fst (Sdl.fd_args f)
  | None => []
  end.
Definition declared_inputs (name : string) : list string := map fst (default [] (assoc name (Sdl.inputs sch))).
Definition builtin : list (string * GType) :=
  [("String", TString); ("Int", TInt); ("Float", TFloat); ("Boolean", TBoolean); ("JSON", TJSON)].
(** An output type as [GraphqlOutput] writes it. *)
Fixpoint gtype (t : Sdl.SType) : GType :=
  match t with
  | Sdl.SNamed x =>
      match assoc x builtin with
      | Some t => t
      | None => if str_in (map fst (Sdl.enums sch)) x then TEnum x else TObject x
      end
  | Sdl.SList t => TList (gtype t)
  | Sdl.SNonNull t => TNonNull (gtype t)
  end.
(** The fields every Query type has besides its own. *)
Definition meta_fields (name : string) : list (string * GType) :=
  if String.eqb name "Query" then [("__type", TObject "__Type"); ("__schema", TObject "__Schema")] else [].

(** Fields have output types, arguments and input fields have input types, all of them declared. *)
Fixpoint named_type (t : Sdl.SType) : string :=
  match t with Sdl.SNamed x => x | Sdl.SList t | Sdl.SNonNull t => named_type t end.
Definition leaf_types : list string := ["String"; "Int"; "Float"; "Boolean"] ++ Sdl.scalars sch ++ map fst (Sdl.enums sch).
Definition input_type (t : Sdl.SType) : bool := str_in (leaf_types ++ map fst (Sdl.inputs sch)) (named_type t).
Definition output_type (t : Sdl.SType) : bool := str_in (leaf_types ++ map fst (Sdl.objects sch)) (named_type t).
Definition well_formed : bool :=
  forallb (fun o => forallb (fun f => output_type (Sdl.fd_type f) && forallb (fun a => input_type a.2) (Sdl.fd_args f)) o.2) (Sdl.objects sch)
  && forallb (fun i => forallb (fun f => input_type f.2) i.2) (Sdl.inputs sch)
  && bool_decide (NoDup (leaf_types ++ map fst (Sdl.objects sch) ++ map fst (Sdl.inputs sch)))
  && forallb (fun o => bool_decide (NoDup (map Sdl.fd_name o.2))) (Sdl.objects sch).
End Declared.

(** ** Theorems *)

#[local] Instance GType_eq_dec : EqDecision GType.
Proof. solve_decision. Defined.
Notation tables := (schema_base ++ schema_mutation ++ schema_prometheus ++ schema_starrocks ++ schema_template ++ schema_introspection).
Definition declared_table (name : string) : list (string * GType) :=
  map (fun f => (Sdl.fd_name f, gtype declared (Sdl.fd_type f))) (declared_fields declared name) ++ meta_fields name.
Definition declared_keys : list string :=
  concat (map (fun o => map (fun f => o.1 +:+ "." +:+ Sdl.fd_name f) o.2) (Sdl.objects declared)).

Lemma known_types : Forall (fun name => has_prefix "__" name = false -> type_fields name = declared_table name)
  (tables.*1 ++ (Sdl.objects declared).*1).
Proof. decided. Qed.
Lemma type_declared name : has_prefix "__" name = false -> type_fields name = declared_table name.
Proof.
  intros Hp. destruct (decide (name ∈ tables.*1 ++ (Sdl.objects declared).*1)) as [Hin|Hout].
  - exact (proj1 (Forall_forall _ _) known_types name Hin Hp).
  - rewrite not_elem_of_app in Hout. destruct Hout as [H1 H2].
    unfold type_fields, declared_table, declared_fields, meta_fields.
    rewrite (proj2 (assoc_None _ _) H1), (proj2 (assoc_None _ _) H2). cbn.
    destruct (String.eqb_spec name "Query") as [->|]; [|done]. exfalso. apply H1. decided.
Qed.
Lemma costed_declared : Forall (fun key => key ∈ declared_keys)
  (["Mutation.clearCache"; "Mutation.deleteStarrocks"; "Mutation.insertBatchStarrocks"; "Mutation.insertStarrocks"; "Mutation.updateStarrocks";
    "Query.prometheusInstant"; "Query.prometheusRange"; "Query.starrocks"; "Query.templateList"; "Query.templateQuery"] ++ complexity_fields).
Proof. decided. Qed.

(** *** The switches of the executor *)

Section Executor.
Context {GX : Gqlgen} {GXL : GqlgenLaws GX} {GI : GqlgenInput} {FT : FloatText} {TM : TimeText} {W : Type}.
#[local] Set Default Proof Using "Type".
#[local] Existing Instance any_change_preorder.
#[local] Abbreviation E := (X W Marshaler).

Definition selectable (name : string) (field : CollectedField) : Prop :=
  fName field = "__typename" \/ fName field ∈ (declared_table name).*1.
(** The function of an object type answers a selection, with the declared types, if and only if
    all of its fields are declared; else it panics. *)
Definition follows (name : string) (run : Path -> Selections -> E) : Prop := forall ctx sel s,
  (Forall (selectable name) (CollectFields sel [name]) ->
     exists m s', run ctx sel s = (Some m, s') /\ (conforms (TNonNull (TObject name)) sel m \/ (m = MNull /\ errs s' <> [])))
  /\ ((run ctx sel s).1 <> None -> Forall (selectable name) (CollectFields sel [name])).

Lemma field_values_known name (cases : CollectedField -> list (string * (E * bool))) fields s :
  (field_values name cases fields s).1 <> None ->
  Forall (fun field => fName field = "__typename" \/ is_Some (assoc (fName field) (cases field))) fields.
Proof.
  revert s. induction fields as [|field fields IH]; intros s H; [constructor|]. cbn [field_values] in H. unfold xbind at 1 in H.
  match type of H with (let (_, _) := ?m s in _).1 <> _ => destruct (m s) as [[x|] s1] eqn:Ex; [|done] end.
  unfold xbind in H. destruct (field_values name cases fields s1) as [[r|] s2] eqn:Er; [|done]. constructor.
  - destruct (String.eqb_spec (fName field) "__typename"); [by left|right]. by destruct (assoc (fName field) (cases field)).
  - apply (IH s1). by rewrite Er.
Qed.
Lemma follows_object name (run : Path -> Selections -> E) cases :
  (forall ctx sel, run ctx sel = object_of name sel (cases ctx)) ->
  (forall ctx sel, answers (R := any_change) (TNonNull (TObject name)) sel (run ctx sel)) ->
  (forall ctx field, Forall (fun kv => forall s, (kv.2.1 s).1 <> None) (cases ctx field)) ->
  (forall ctx field, (cases ctx field).*1 = (declared_table name).*1) -> follows name run.
Proof.
  intros Hrun Hans Htot Hkeys ctx sel s.
  assert (Hk : forall field, (fName field = "__typename" \/ is_Some (assoc (fName field) (cases ctx field))) <-> selectable name field).
  { intros field. unfold selectable. by rewrite assoc_is_Some, Hkeys. }
  rewrite Hrun. split.
  - intros Hv. assert (Hn : (field_values name (cases ctx) (CollectFields sel [name]) s).1 <> None).
    { apply field_values_total; [apply Htot|]. eapply Forall_impl; [exact Hv|]. intros field. apply Hk. }
    destruct (Hans ctx sel s) as (_ & _ & Ha). rewrite Hrun in Ha. unfold object_of, xbind in *.
    destruct (field_values _ _ _ s) as [[out|] s1]; [|done]. eexists _, _. split; [done|]. by apply Ha.
  - intros H. unfold object_of, xbind in H. destruct (field_values _ _ _ s) as [[out|] s1] eqn:Ev; [|done].
    eapply Forall_impl; [apply (field_values_known name (cases ctx) _ s); by rewrite Ev|]. intros field. apply Hk.
Qed.
Lemma property_total {T} ctx field (v : T) marshal nonNull s : (property (W := W) ctx field v marshal nonNull s).1 <> None.
Proof using GXL. unfold property. by apply field_total. Qed.
(** A type whose fields are those of a struct. *)
Tactic Notation "follows_struct" uconstr(typed) constr(obj) :=
  eapply follows_object;
    [intros; reflexivity|intros ctx sel; refine (typed ctx sel (Some obj))
    |intros; repeat (apply Forall_cons; split); try solve [constructor]; intros; apply property_total
    |intros; vm_compute; reflexivity].

Lemma follows_mutation Sprintf_text M : follows "Mutation" (_Mutation Sprintf_text M).
Proof using GXL.
  apply (follows_object _ _ (mutation_cases Sprintf_text M)); [done| | |intros; vm_compute; reflexivity].
  - intros ctx sel. apply answers_object, mutation_cases_typed.
  - intros ctx field. unfold mutation_cases. repeat (apply Forall_cons; split); try solve [constructor]; cbn [fst snd]; intros s';
      rewrite RootResolverMiddleware_none; apply field_total, context_total.
Qed.
Lemma query_slots_known Q zero_time introspect ctx fields (s : St W) :
  (query_slots Q zero_time introspect ctx fields s).1 <> None -> Forall (selectable "Query") fields.
Proof.
  revert s. induction fields as [|field fields IH]; intros s H; [constructor|]. cbn [query_slots] in H. unfold xbind at 1 in H.
  match type of H with (let (_, _) := ?m s in _).1 <> _ => destruct (m s) as [[x|] s1] eqn:Ex; [|done] end.
  unfold xbind in H. destruct (query_slots Q zero_time introspect ctx fields s1) as [[r|] s2] eqn:Er; [|done].
  constructor; [|by eapply (IH s1); rewrite Er].
  assert (Ek : (declared_table "Query").*1 = ["starrocks"; "prometheusInstant"; "prometheusRange"; "templateQuery"; "templateList"; "__type"; "__schema"])
    by (vm_compute; reflexivity).
  unfold selectable. rewrite Ek. destruct (String.eqb_spec (fName field) "__typename"); [by left|right].
  match type of Ex with context [assoc (fName field) ?l] => destruct (assoc (fName field) l) as [run|] eqn:Ea end.
  - assert (Hs : is_Some (Some run)) by done. rewrite <- Ea, assoc_is_Some in Hs. clear -Hs. cbn [fmap list_fmap fst] in Hs. set_solver.
  - destruct (String.eqb_spec (fName field) "__type") as [Et|_]; [rewrite Et; decided|].
    destruct (String.eqb_spec (fName field) "__schema") as [Et|_]; [rewrite Et; decided|]. discriminate Ex.
Qed.
Lemma follows_query {IN : Introspection} {SD : SelectionDepth GX} Q zero_time disabled :
  follows "Query" (_Query Q zero_time (introspect disabled)).
Proof using GXL.
  intros ctx sel s. split.
  - intros Hv. apply query_answers; [apply introspect_answers|apply introspect_total|]. eapply Forall_impl; [exact Hv|].
    intros field [H|H]; [by left|right]. apply assoc_is_Some. by rewrite type_declared.
  - intros H. unfold _Query, xbind in H. apply (query_slots_known Q zero_time (introspect disabled) ctx _ s).
    by destruct (query_slots _ _ _ ctx _ s) as [[slots|] s1].
Qed.

(** C8: the executor and the schema.  The embedded texts declare eighteen object types and are
    well-formed.  For each of them the function of the executor answers a selection of declared
    fields (and [__typename], and for the query root [__schema] and [__type]) and of no others,
    for which it panics: each field with its declared type, or null as a whole with an error.  The
    enumerations have the declared values, and no function is asked for the cost of a field
    that is not declared. *)
Theorem executor_follows_schema {IN : Introspection} {SD : SelectionDepth GX} Sprintf_text M Q zero_time disabled :
  (Sdl.load sources = Some declared /\ well_formed declared = true
   /\ (Sdl.objects declared).*1 =
     ["PageInfo"; "Query"; "MutationResult"; "Mutation"; "PrometheusMetricLabel"; "PrometheusDataPoint"; "PrometheusVector";
      "PrometheusMatrix"; "PrometheusInstantResult"; "PrometheusRangeResult"; "StarRocksRow"; "StarRocksEdge"; "StarRocksConnection";
      "TemplateQueryConnection"; "TemplateInfo"; "TemplateParameterInfo"; "ReloadTemplatesResult"; "TemplateLoadFailure"]
   /\ (forall name, has_prefix "__" name = false -> type_fields name = declared_table name)
   /\ Sdl.enums declared = [("SortDirection", Enums.AllSortDirection); ("FilterOperator", Enums.AllFilterOperator);
                            ("LabelMatchType", Enums.AllLabelMatchType)])
  /\ (follows "Query" (_Query Q zero_time (introspect disabled)) /\ follows "Mutation" (_Mutation Sprintf_text M))
  /\ (forall obj, follows "MutationResult" (fun ctx sel => _MutationResult ctx sel obj))
  /\ (forall obj, follows "PageInfo" (fun ctx sel => _PageInfo ctx sel obj))
  /\ (forall obj, follows "StarRocksRow" (fun ctx sel => _StarRocksRow ctx sel obj))
  /\ (forall obj, follows "StarRocksEdge" (fun ctx sel => _StarRocksEdge ctx sel obj))
  /\ (forall obj, follows "StarRocksConnection" (fun ctx sel => _StarRocksConnection ctx sel obj))
  /\ (forall obj, follows "PrometheusMetricLabel" (fun ctx sel => _PrometheusMetricLabel ctx sel obj))
  /\ (forall obj, follows "PrometheusDataPoint" (fun ctx sel => _PrometheusDataPoint ctx sel obj))
  /\ (forall obj, follows "PrometheusVector" (fun ctx sel => _PrometheusVector ctx sel obj))
  /\ (forall obj, follows "PrometheusMatrix" (fun ctx sel => _PrometheusMatrix ctx sel obj))
  /\ (forall obj, follows "PrometheusInstantResult" (fun ctx sel => _PrometheusInstantResult ctx sel obj))
  /\ (forall obj, follows "PrometheusRangeResult" (fun ctx sel => _PrometheusRangeResult ctx sel obj))
  /\ (forall obj, follows "TemplateQueryConnection" (fun ctx sel => _TemplateQueryConnection ctx sel obj))
  /\ (forall obj, follows "TemplateInfo" (fun ctx sel => _TemplateInfo ctx sel obj))
  /\ (forall obj, follows "TemplateParameterInfo" (fun ctx sel => _TemplateParameterInfo ctx sel obj))
  /\ (forall obj, follows "ReloadTemplatesResult" (fun ctx sel => _ReloadTemplatesResult Sprintf_text ctx sel obj))
  /\ (forall obj, follows "TemplateLoadFailure" (fun ctx sel => _TemplateLoadFailure Sprintf_text ctx sel obj))
  /\ (forall root zero_time ctx type field childComplexity raw,
        Complexity root zero_time ctx type field childComplexity raw <> Done (0, false) -> type +:+ "." +:+ field ∈ declared_keys).
Proof using GXL.
  split; [split_and!; [vm_compute; reflexivity..|exact type_declared|vm_compute; reflexivity]|].
  split; [split; [apply follows_query|apply follows_mutation]|].
  repeat (split; [intros obj|]).
  - follows_struct (typed_MutationResult) obj.
  - follows_struct (typed_PageInfo) obj.
  - follows_struct (typed_StarRocksRow) obj.
  - follows_struct (typed_StarRocksEdge) obj.
  - follows_struct (typed_StarRocksConnection) obj.
  - follows_struct (typed_PrometheusMetricLabel) obj.
  - follows_struct (typed_PrometheusDataPoint) obj.
  - follows_struct (typed_PrometheusVector) obj.
  - follows_struct (typed_PrometheusMatrix) obj.
  - follows_struct (typed_PrometheusInstantResult) obj.
  - follows_struct (typed_PrometheusRangeResult) obj.
  - follows_struct (typed_TemplateQueryConnection) obj.
  - follows_struct (typed_TemplateInfo) obj.
  - follows_struct (typed_TemplateParameterInfo) obj.
  - follows_struct (typed_ReloadTemplatesResult Sprintf_text) obj.
  - follows_struct (typed_TemplateLoadFailure Sprintf_text) obj.
  - intros root zt ctx type field n raw H. destruct (decide (type +:+ "." +:+ field ∈ declared_keys)) as [|Hout]; [done|].
    destruct H. pose proof (proj1 (Forall_forall _ _) costed_declared) as Hc. unfold Complexity. cbn [assoc].
    repeat (case_decide as E; [exfalso; apply Hout; rewrite <- E; apply Hc; decided|clear E]).
    destruct (str_in complexity_fields (type +:+ "." +:+ field)) eqn:Es; [|done]. exfalso. apply Hout, Hc, elem_of_app. right. by apply str_in_iff.
Qed.
End Executor.

(** *** Arguments *)

Section Arguments.
Context {GI : GqlgenInput} {GIL : GqlgenInputLaws GI} {FT : FloatText} {TM : TimeText}.
#[local] Set Default Proof Using "Type".

(** The result depends on no other entry of the map. *)
Definition same_on (keys : list string) (raw raw' : list (string * GoVal)) : Prop := forall k, k ∈ keys -> assoc k raw = assoc k raw'.
Definition reads_only {A} (keys : list string) (f : Path -> list (string * GoVal) -> attempt A) : Prop :=
  forall ctx raw raw', same_on keys raw raw' -> f ctx raw = f ctx raw'.

Lemma bind_same {A B} (m m' : attempt A) (k k' : A -> attempt B) : m = m' -> (forall a, k a = k' a) -> (m ≫= k) = (m' ≫= k').
Proof. intros -> Hk. destruct m'; cbn; [apply Hk|done..]. Qed.
Lemma argument_same {A} keys raw raw' name (zero : A) u ctx : same_on keys raw raw' -> name ∈ keys ->
  ProcessArgField raw name zero u ctx = ProcessArgField raw' name zero u ctx.
Proof using GIL.
  intros H Hn. specialize (H name Hn). destruct (assoc name raw') as [v|] eqn:E.
  - by rewrite !(ProcessArgField_present _ _ _ _ _ _ v).
  - by rewrite !ProcessArgField_absent.
Qed.
Lemma member_same {A} keys asMap asMap' ctx name (zero : A) u : same_on keys asMap asMap' -> name ∈ keys ->
  field_of asMap ctx name zero u = field_of asMap' ctx name zero u.
Proof. intros H Hn. unfold field_of. by rewrite (H name Hn). Qed.
Ltac reads_declared :=
  intros ctx raw raw' H; unfold field_Mutation_clearCache_args, field_Mutation_insertStarrocks_args, field_Mutation_updateStarrocks_args, field_Mutation_deleteStarrocks_args,
    field_Mutation_insertBatchStarrocks_args, field_Query_starrocks_args, field_Query_prometheusInstant_args, field_Query_prometheusRange_args,
    field_Query_templateQuery_args, field_Query_templateList_args, unmarshalInputColumnValueInput,
    unmarshalInputMutationFilterInput, unmarshalInputPrometheusLabelFilter, unmarshalInputStarRocksFilter, unmarshalInputStarRocksOrderBy, unmarshalInputTemplateOrderBy, object;
  repeat first [apply bind_same; [first [eapply argument_same|eapply member_same]; [exact H|decided]|intros ?]|reflexivity|eapply argument_same; [exact H|decided]].

(** the arguments of the executor.  What is read from a request for a root field and from an
    input object depends on nothing but the arguments and input fields the texts declare. *)
Theorem only_declared_read zero_time :
  reads_only (declared_args declared "Mutation" "clearCache") field_Mutation_clearCache_args
  /\ reads_only (declared_args declared "Mutation" "insertStarrocks") field_Mutation_insertStarrocks_args
  /\ reads_only (declared_args declared "Mutation" "updateStarrocks") field_Mutation_updateStarrocks_args
  /\ reads_only (declared_args declared "Mutation" "deleteStarrocks") field_Mutation_deleteStarrocks_args
  /\ reads_only (declared_args declared "Mutation" "insertBatchStarrocks") field_Mutation_insertBatchStarrocks_args
  /\ reads_only (declared_args declared "Query" "starrocks") field_Query_starrocks_args
  /\ reads_only (declared_args declared "Query" "prometheusInstant") field_Query_prometheusInstant_args
  /\ reads_only (declared_args declared "Query" "prometheusRange") (fun ctx raw => field_Query_prometheusRange_args ctx raw zero_time)
  /\ reads_only (declared_args declared "Query" "templateQuery") field_Query_templateQuery_args
  /\ reads_only (declared_args declared "Query" "templateList") field_Query_templateList_args
  /\ reads_only (declared_inputs declared "ColumnValueInput") (fun ctx m => unmarshalInputColumnValueInput ctx (VMap m))
  /\ reads_only (declared_inputs declared "MutationFilterInput") (fun ctx m => unmarshalInputMutationFilterInput ctx (VMap m))
  /\ reads_only (declared_inputs declared "PrometheusLabelFilter") (fun ctx m => unmarshalInputPrometheusLabelFilter ctx (VMap m))
  /\ reads_only (declared_inputs declared "StarRocksFilter") (fun ctx m => unmarshalInputStarRocksFilter ctx (VMap m))
  /\ reads_only (declared_inputs declared "StarRocksOrderBy") (fun ctx m => unmarshalInputStarRocksOrderBy ctx (VMap m))
  /\ reads_only (declared_inputs declared "TemplateOrderBy") (fun ctx m => unmarshalInputTemplateOrderBy ctx (VMap m)).
Proof using GIL.
  split_and!; reads_declared.
Qed.
End Arguments.

(** An argument that is not declared, and one of another field. *)
Lemma only_declared_read_witness :
  field_Query_templateList_args (GI := demo_gqlgen_input) [] [("first", VInt64 3); ("limit", VInt64 9)]
  = field_Query_templateList_args (GI := demo_gqlgen_input) [] [("first", VInt64 3)].
Proof.
  pose proof (only_declared_read (GI := demo_gqlgen_input) (GIL := demo_gqlgen_input_laws) (FT := demo_float_text) (TM := demo_time) 0) as H.
  destruct H as (_ & _ & _ & _ & _ & _ & _ & _ & _ & H & _). apply H. intros k Hk.
  assert (E : declared_args declared "Query" "templateList" = ["first"; "offset"]) by (vm_compute; reflexivity). rewrite E in Hk. clear E. rewrite !elem_of_cons in Hk. destruct Hk as [->|[->|Hk]]; [reflexivity..|by apply elem_of_nil in Hk].
Defined.

(** A selection the function of MutationResult answers, and one for which it panics. *)
Definition demo_answer : Mutation.MutationResult := {| Mutation.resSuccess := true; Mutation.AffectedRows := 1; Mutation.Warning := None |}.
Lemma executor_follows_schema_witness :
  follows (GX := demo_gqlgen) (W := Z) "MutationResult" (fun ctx sel => _MutationResult ctx sel demo_answer)
  /\ (exists m s', _MutationResult (GX := demo_gqlgen) [] [DF "success" "ok" [] []] demo_answer {| world := 0; errs := [] |} = (Some m, s')
       /\ (conforms (GX := demo_gqlgen) (TNonNull (TObject "MutationResult")) [DF "success" "ok" [] []] m \/ (m = MNull /\ errs s' <> [])))
  /\ (_MutationResult (GX := demo_gqlgen) [] [DF "total" "total" [] []] demo_answer {| world := 0; errs := [] |}).1 = None.
Proof.
  destruct (executor_follows_schema (GX := demo_gqlgen) (GXL := demo_gqlgen_laws) (GI := demo_gqlgen_input)
    (FT := demo_float_text) (TM := demo_time) (IN := demo_introspection) (SD := demo_depth)
    (fun _ => EmptyString) demo_mutations demo_queries 0 false) as (_ & _ & H & _).
  split; [exact (H demo_answer)|]. split; [|reflexivity].
  apply (proj1 (H demo_answer [] [DF "success" "ok" [] []] {| world := 0; errs := [] |})).
  apply Forall_cons. split; [right; vm_compute; left|constructor].
Defined.
