(* ===== verification/GraphqlFailures.v ===== *)
(** * What a failing resolver costs

    Every field of Query and Mutation but the introspection is non-null.  The executor of
    [GraphqlOutput] therefore answers null for the whole document as soon as one root field
    fails, also when the others have succeeded. *)
From S2P Require Import Prelude GoStrings Values GoConv FuncMap Json JsonRaw Scalar Auth.
From S2P Require Import Resolver PrometheusResolver TemplateResolver GraphqlInput GraphqlOutput GraphqlTyped GraphqlMutations GraphqlIntrospection.
From S2P Require Mutation TemplateEngine TemplateLoader.

Section Failures.
Context {GX : Gqlgen} {GXL : GqlgenLaws GX} {JT : JsonText} {W : Type} {GI : GqlgenInput} {FT : FloatText} {TM : TimeText}.
Variable Sprintf_text : format -> string.
#[local] Set Default Proof Using "Type".
#[local] Existing Instance any_change_preorder.

(** In this world the field gets no value: its arguments are refused, or its resolver returns an
    error or panics. *)
Definition fails {A B} (args : Path -> list (string * GoVal) -> attempt A) (r : A -> W -> option (result B) * W) (ctx : Path)
    (field : CollectedField) (w : W) : Prop :=
  forall a, args (child_path ctx field) (ArgumentMap field) = Done a -> forall v, (r a w).1 <> Some (Ok v).
Definition mutation_failures (M : MutationResolver W) (ctx : Path) (field : CollectedField) : list (string * (W -> Prop)) :=
  [("clearCache", fails field_Mutation_clearCache_args (ClearCache M) ctx field);
   ("insertStarrocks", fails field_Mutation_insertStarrocks_args (fun a => InsertStarrocks M a.1 a.2) ctx field);
   ("updateStarrocks", fails field_Mutation_updateStarrocks_args (fun a => UpdateStarrocks M a.1.1 a.1.2 a.2) ctx field);
   ("deleteStarrocks", fails field_Mutation_deleteStarrocks_args (fun a => DeleteStarrocks M a.1 a.2) ctx field);
   ("insertBatchStarrocks", fails field_Mutation_insertBatchStarrocks_args (fun a => InsertBatchStarrocks M a.1.1 a.1.2 a.2) ctx field);
   ("reloadTemplates", fails (fun _ _ => Done tt) (fun _ => ReloadTemplates M) ctx field)].
Definition query_failures (Q : QueryResolver W) (zero_time : Time) (ctx : Path) (field : CollectedField) : list (string * (W -> Prop)) :=
  [("starrocks", fails field_Query_starrocks_args (Starrocks Q) ctx field);
   ("prometheusInstant", fails field_Query_prometheusInstant_args (fun a => PrometheusInstant Q a.1.1 a.1.2 a.2) ctx field);
   ("prometheusRange", fails (fun ctx raw => field_Query_prometheusRange_args ctx raw zero_time) (PrometheusRange Q) ctx field);
   ("templateQuery", fails field_Query_templateQuery_args (TemplateQuery Q) ctx field);
   ("templateList", fails field_Query_templateList_args (fun a => TemplateList Q a.1 a.2) ctx field)].
Definition failing (table : list (string * (W -> Prop))) (field : CollectedField) (w : W) : Prop :=
  match assoc (fName field) table with Some f => f w | None => False end.

(** The field is null and the response says so. *)
Definition lost (ctx : Path) (field : CollectedField) (m : Marshaler) (e : list FieldError) : Prop :=
  m = MNull /\ exists err, (child_path ctx field, err) ∈ e.
Lemma lost_stable ctx field : stable (lost ctx field).
Proof. intros m e e' [-> [err H]] [k ->]. split; [done|]. exists err. apply elem_of_app. by left. Qed.
Lemma logged_at ctx field err (s : St W) : lost ctx field MNull (errs (add_error (child_path ctx field) err s).2).
Proof. split; [done|]. exists err. cbn. apply elem_of_app. right. by apply list_elem_of_singleton. Qed.

Lemma failing_field {A T} ctx field args (r : A -> W -> option (result T) * W) marshal nonNull s :
  fails args r ctx field (world s) ->
  let x := ResolveField ctx field (field_context args field) (fun a => call (r a)) marshal true nonNull s in
  errs s `prefix_of` errs x.2 /\ exists m, x.1 = Some m /\ lost ctx field m (errs x.2).
Proof using GXL.
  intros Hf. cbv zeta. set (c := child_path ctx field). unfold fails in Hf. fold c in Hf.
  assert (Hadd : forall err w, let s' := (add_error (W := W) c err {| world := w; errs := errs s |}).2 in
    errs s `prefix_of` errs s' /\ exists m, Some MNull = Some m /\ lost ctx field m (errs s')).
  { intros err w. split; [by apply prefix_app_r|]. eexists. split; [done|]. apply logged_at. }
  destruct (args c (ArgumentMap field)) as [a|e|] eqn:Ea.
  2-3: erewrite ResolveField_refused by (unfold field_context; fold c; rewrite Ea; reflexivity); exact (Hadd _ (world s)).
  specialize (Hf a eq_refl).
  assert (Ei : field_context args field c s = (Some (Ok a), s)) by (unfold field_context; by rewrite Ea).
  destruct (r a (world s)) as [res w'] eqn:Er. set (s2 := {| world := w'; errs := errs s |}).
  assert (Ec : call (r a) s = (res, s2)) by (unfold call; by rewrite Er).
  destruct res as [[v|e]|]; [by destruct (Hf v)|..].
  - destruct (ResolveField_failed _ _ _ ctx field (field_context args field) (fun a => call (r a)) marshal nonNull s a s e s2 Ei Ec) as [e' ->].
    exact (Hadd e' w').
  - destruct (ResolveField_panicked _ _ _ ctx field (field_context args field) (fun a => call (r a)) marshal nonNull s a s s2 Ei) as [e' ->]; [by left|].
    exact (Hadd e' w').
Qed.

(** *** Mutations *)

Lemma field_values_app name (cases : CollectedField -> list (string * (X W Marshaler * bool))) l1 l2 s :
  field_values name cases (l1 ++ l2) s
  = (a <== field_values name cases l1 ; b <== field_values name cases l2 ; xret (a.1 ++ b.1, a.2 + b.2)) s.
Proof.
  revert s. induction l1 as [|field l1 IH]; intros s; cbn [field_values app].
  { unfold xbind. cbn. by destruct (field_values name cases l2 s) as [[[m n]|] s']. }
  unfold xbind. match goal with |- match ?m s with _ => _ end = _ => destruct (m s) as [[x|] s1] end; [|done].
  rewrite IH. unfold xbind. destruct (field_values name cases l1 s1) as [[a|] s2]; [|done].
  cbn. destruct (field_values name cases l2 s2) as [[b|] s3]; [|done]. cbn. by rewrite Z.add_assoc.
Qed.
Lemma field_values_lost name cases ctx before field after s v s' :
  cases_typed (R := any_change (W := W)) name cases ->
  fName field <> "__typename" ->
  (forall b s1, field_values name cases before s = (Some b, s1) -> exists run, assoc (fName field) (cases field) = Some (run, true)
     /\ exists m, (run s1).1 = Some m /\ lost ctx field m (errs (run s1).2)) ->
  field_values name cases (before ++ field :: after) s = (Some v, s') ->
  0 < v.2 /\ exists err, (child_path ctx field, err) ∈ errs s'.
Proof using GXL.
  intros Hc Hn Hf. rewrite field_values_app. unfold xbind at 1.
  destruct (field_values_typed (R := any_change) name cases before Hc s) as (_ & _ & Hb).
  destruct (field_values name cases before s) as [[b|] s1] eqn:Eb; [|done]. destruct (Hb b eq_refl) as [Hb0 _]. clear Hb.
  destruct (Hf b s1 eq_refl) as (run & Ea & m & Em & -> & err & He). clear Hf Eb.
  cbn [field_values]. rewrite (proj2 (String.eqb_neq _ _) Hn), Ea. unfold xbind. destruct (run s1) as [mo s2]. cbn in Em, He. subst mo. cbn.
  destruct (field_values_typed (R := any_change) name cases after Hc s2) as (_ & Hp & Ha).
  destruct (field_values name cases after s2) as [[a|] s3]; [|done]. destruct (Ha a eq_refl) as [Ha0 _]. cbn in Hp.
  intros [= <- <-]. cbn. split; [lia|]. destruct Hp as [k ->]. exists err. apply elem_of_app. by left.
Qed.

(** The field that fails is one of the cases. *)
Ltac failing_case Hf :=
  let f := fresh "f" in let Ea := fresh "Ea" in let Ek := fresh "Ek" in
  try unfold failing in Hf;
  match type of Hf with context [assoc ?k ?l] => destruct (assoc k l) as [f|] eqn:Ea; [|done] end;
  apply assoc_elem in Ea; unfold mutation_failures, query_failures in Ea;
  repeat rewrite elem_of_cons in Ea; rewrite elem_of_nil in Ea; destruct_or? Ea;
  injection Ea as Ek ->.

Lemma mutation_lost (M : MutationResolver W) ctx sel before field after s m s' :
  CollectFields sel ["Mutation"] = before ++ field :: after ->
  failing (mutation_failures M ctx field) field (foldl (mutation_effect M ctx) (world s) before) ->
  _Mutation Sprintf_text M ctx sel s = (Some m, s') -> lost ctx field m (errs s').
Proof using GXL.
  intros Hfs Hf. unfold _Mutation, object_of, xbind. rewrite Hfs.
  destruct (field_values _ _ _ s) as [[out|] s1] eqn:E; [|done]. intros [= <- <-].
  enough (0 < out.2 /\ exists err, (child_path ctx field, err) ∈ errs s1) as [Hpos He].
  { rewrite (proj2 (Z.ltb_lt _ _) Hpos). by split. }
  eapply field_values_lost; [apply mutation_cases_typed| | |exact E].
  - intros En. unfold failing in Hf. by rewrite En in Hf.
  - intros b s2 Hb. apply mutation_values_order in Hb. rewrite <- Hb in Hf.
    failing_case Hf; (eexists; split; [match goal with H : fName field = _ |- _ => rewrite H end; reflexivity|]);
      rewrite RootResolverMiddleware_none; apply (failing_field _ _ _ _ _ _ _ Hf).
Qed.

(** *** Queries *)

Section Query.
Variables (Q : QueryResolver W) (zero_time : Time) (introspect : Path -> CollectedField -> X W Marshaler).
Hypothesis introspect_answers : forall ctx field t, fName field ∈ ["__type"; "__schema"] ->
  assoc (fName field) (type_fields "Query") = Some t -> answers (R := any_change) t (fSelections field) (introspect ctx field).
Hypothesis introspect_total : forall ctx field s, (introspect ctx field s).1 <> None.

(** The field fails whatever the others do to the world. *)
Definition always_fails (ctx : Path) (field : CollectedField) : Prop :=
  match assoc (fName field) (query_failures Q zero_time ctx field) with Some f => forall w, f w | None => False end.
Lemma failing_ensures {A T} ctx field args (r : A -> W -> option (result T) * W) marshal :
  (forall w, fails args r ctx field w) ->
  ensures any_change (RootResolverMiddleware (ResolveField ctx field (field_context args field) (fun a => call (r a)) marshal true true)) (lost ctx field).
Proof using GXL.
  intros H s. rewrite RootResolverMiddleware_none. destruct (failing_field ctx field args r marshal true s (H _)) as (Hp & m & Hm & Hl).
  split_and!; [done|exact Hp|]. intros a Ha. rewrite Ha in Hm. by injection Hm as ->.
Qed.
Lemma delayed_lost ctx field : always_fails ctx field ->
  exists run, assoc (fName field) [("starrocks", _Query_starrocks Q ctx field); ("prometheusInstant", _Query_prometheusInstant Q ctx field);
      ("prometheusRange", _Query_prometheusRange Q zero_time ctx field); ("templateQuery", _Query_templateQuery Q ctx field);
      ("templateList", _Query_templateList Q ctx field)] = Some run
    /\ ensures any_change (RootResolverMiddleware run) (lost ctx field).
Proof using GXL.
  intros Hf. unfold always_fails in Hf.
  failing_case Hf; (eexists; split; [match goal with H : fName field = _ |- _ => rewrite H end; reflexivity|by apply failing_ensures]).
Qed.
Lemma query_slots_lost ctx fields s slots s' i field :
  query_slots Q zero_time introspect ctx fields s = (Some slots, s') -> fields !! i = Some field -> always_fails ctx field ->
  exists c, slots !! i = Some (inr c) /\ ensures any_change c (lost ctx field).
Proof using GXL.
  intros E Hi Hf. revert s slots s' i E Hi. induction fields as [|x fields IH]; intros s slots s' i E Hi; [done|].
  cbn [query_slots] in E. unfold xbind at 1 in E.
  match type of E with (let (_, _) := ?m s in _) = _ => destruct (m s) as [[slot|] s1] eqn:Es; [|done] end.
  unfold xbind in E. destruct (query_slots _ _ _ ctx fields s1) as [[rest|] s2] eqn:Er; [|done]. injection E as <- <-.
  destruct i as [|i]; [|exact (IH _ _ _ _ Er Hi)]. injection Hi as ->. clear IH Er.
  destruct (delayed_lost ctx field Hf) as (run & Ea & Hr). rewrite Ea in Es.
  destruct (String.eqb_spec (fName field) "__typename") as [En|_]; [by rewrite En in Ea|]. injection Es as <- _. by exists (RootResolverMiddleware run).
Qed.
Lemma query_lost ctx sel field s m s' :
  Forall query_field (CollectFields sel ["Query"]) -> field ∈ CollectFields sel ["Query"] -> always_fails ctx field ->
  _Query Q zero_time introspect ctx sel s = (Some m, s') -> lost ctx field m (errs s').
Proof using GXL introspect_answers introspect_total.
  intros Hv Hin Hf. apply list_elem_of_lookup in Hin as [i Hi]. unfold _Query.
  destruct (query_slots_ok Q zero_time introspect introspect_answers introspect_total ctx _ Hv s) as (slots & s1 & E & _ & Hs).
  destruct (query_slots_lost _ _ _ _ _ _ _ E Hi Hf) as (c & Hc & Hl).
  unfold xbind. rewrite E. clear E.
  destruct (Dispatch_each W any_change _ slots (fun j m e => j = i -> lost ctx field m e) s1) as (_ & _ & _ & Hm).
  - intros j a e e' H Hp ->. by eapply lost_stable; [apply H|].
  - intros j a Hj ->. by rewrite Hc in Hj.
  - intros j c' Hj. destruct (decide (j = i)) as [->|Hne].
    + rewrite Hc in Hj. injection Hj as <-. eapply ensures_weaken; [exact Hl|]. done.
    + destruct (Forall2_lookup_r _ _ _ _ _ Hs Hj) as (x & _ & Hx & _). eapply ensures_weaken; [exact Hx|]. done.
  - destruct (Dispatch slots s1) as [[ms|] s2]; [|done]. destruct (Hm ms eq_refl) as [Hlen Hm']. cbn in Hm'.
    assert (exists a, ms !! i = Some a) as [a Ha].
    { apply lookup_lt_is_Some. rewrite Hlen. by eapply lookup_lt_Some. }
    destruct (Hm' i a Ha eq_refl) as [-> He].
    assert (invalids slots ms = true) as Hinv.
    { apply existsb_exists. exists (inr c, MNull). split; [|done]. apply list_elem_of_In, list_elem_of_lookup. exists i. by apply lookup_zip_Some. }
    intros [= <- <-]. rewrite Hinv. by split.
Qed.
End Query.

(** C7: what one failure costs.  If a field of a mutation document fails after the fields before it
    have run, or a field of a query document fails whatever the others do, then the data of the
    response is null as a whole: the answers of the other fields are lost, although every
    other mutation is executed as if nothing had happened.  The errors name the failed field. *)
Theorem one_failure_loses_all {SD : SelectionDepth GX} {IN : Introspection} M Q zero_time disabled ctx sel field s m s' :
  (forall before after,
     CollectFields sel ["Mutation"] = before ++ field :: after ->
     failing (mutation_failures M ctx field) field (foldl (mutation_effect M ctx) (world s) before) ->
     _Mutation Sprintf_text M ctx sel s = (Some m, s') ->
     lost ctx field m (errs s') /\ world s' = foldl (mutation_effect M ctx) (world s) (before ++ field :: after))
  /\ (Forall query_field (CollectFields sel ["Query"]) -> field ∈ CollectFields sel ["Query"] -> always_fails Q zero_time ctx field ->
     _Query Q zero_time (introspect disabled) ctx sel s = (Some m, s') -> lost ctx field m (errs s')).
Proof using GXL.
  split.
  - intros before after Hfs Hf H. split; [by eapply mutation_lost|]. rewrite <- Hfs. exact (document_order _ _ _ _ _ _ _ H).
  - intros. eapply query_lost; [apply introspect_answers|apply introspect_total|done..].
Qed.
End Failures.

(** ** Concrete instances *)

Section Witnesses.
#[local] Existing Instance demo_gqlgen.
#[local] Existing Instance demo_gqlgen_laws.
#[local] Existing Instance demo_gqlgen_input.
#[local] Existing Instance demo_float_text.
#[local] Existing Instance demo_time.
#[local] Instance demo_json : JsonText := {| json_float _ := "0"; json_other _ := Err ErrEOF |}.
#[local] Existing Instance demo_introspection.
#[local] Existing Instance demo_depth.
Notation start := {| world := 0; errs := [] |}.

(** StarRocks answers and Prometheus fails; an insertion succeeds before a deletion panics. *)
Definition demo_instant : DemoField := DF "prometheusInstant" "p" [("query", VString "up")] [DF "resultType" "t" [] []].
Lemma one_failure_loses_all_witness :
  (exists m s', _Query demo_queries 0 (introspect false) [] [demo_query; demo_instant] start = (Some m, s')
     /\ world s' = 1 /\ lost [] demo_instant m (errs s'))
  /\ exists m s', _Mutation (fun _ => EmptyString) demo_mutations [] [demo_insert; demo_delete] start = (Some m, s')
     /\ world s' = 2 /\ lost [] demo_delete m (errs s').
Proof.
  split; eexists _, _; (split; [vm_compute; reflexivity|]; split; [reflexivity|]).
  - apply (proj2 (one_failure_loses_all (GX := demo_gqlgen) (GXL := demo_gqlgen_laws) (SD := demo_depth) (fun _ => EmptyString) demo_mutations demo_queries 0 false [] [demo_query; demo_instant] demo_instant
      start MNull _)); [| |intros w a Ha v; vm_compute; discriminate|vm_compute; reflexivity].
    + repeat (apply Forall_cons; split; [right; eexists; reflexivity|]). constructor.
    + right. left.
  - apply (proj1 (one_failure_loses_all (GX := demo_gqlgen) (GXL := demo_gqlgen_laws) (SD := demo_depth) (fun _ => EmptyString) demo_mutations demo_queries 0 false [] [demo_insert; demo_delete] demo_delete
      start MNull _) [demo_insert] []); [reflexivity|intros a Ha v; vm_compute; discriminate|vm_compute; reflexivity].
Defined.
End Witnesses.
