(* ===== verification/Sources.v ===== *)
(** * The data sources as the interface sees them

    The methods of datasource.DataSource that need no connection (Name, Type, SchemaFiles,
    IsAvailable) of the four adapters, their factories, and internal/datasource/mock.go, the
    data source whose methods call the functions it is given.  The packages clickhouse and
    prometheus have their own copies of helpers the package starrocks has, with the same text;
    here they are the definitions of SqlAdapter. *)
From S2P Require Import Prelude GoStrings Values GoConv FuncMap JsonRaw DataSource SqlAdapter Manager Adapters.
From S2P Require Mock StarRocks ClickHouse ClickHouseConn Prometheus.

(** ** Copies of helpers *)

Definition ch_extractTable := extractTable.
Definition ch_scanRows (special : GoVal -> option GoVal) := scanRows (ClickHouse.Adapter.convertValue special).
Section Options.
Context {FT : FloatText}.
Definition ch_getIntOption := getIntOption.
Definition ch_getDurationOption := getDurationOption.
Definition getIntOpt := getIntOption.
Definition getDurationOpt := getDurationOption.
End Options.

(** ** Name, Type, SchemaFiles, IsAvailable *)

Definition starrocks_Name (a : StarRocks.Adapter) : string := StarRocks.name a.
Definition starrocks_Type (a : StarRocks.Adapter) : string := "starrocks".
Definition starrocks_SchemaFiles (a : StarRocks.Adapter) : list string := ["internal/graphql/schema/starrocks.graphql"].
Definition clickhouse_Name (a : StarRocks.Adapter) : string := StarRocks.name a.
Definition clickhouse_Type (a : StarRocks.Adapter) : string := "clickhouse".
Definition clickhouse_SchemaFiles (a : StarRocks.Adapter) : list string := [].
Definition clickhouse_IsAvailable (a : StarRocks.Adapter) : bool := StarRocks.available a.
Definition prometheus_Name (a : Prometheus.Adapter) : string := Prometheus.p_name a.
Definition prometheus_Type (a : Prometheus.Adapter) : string := "prometheus".
Definition prometheus_IsAvailable (a : Prometheus.Adapter) : bool := Prometheus.available a.
Definition mock_Name (a : Mock.Adapter) : string := Mock.name a.
Definition mock_Type (a : Mock.Adapter) : string := "mock".
Definition mock_SchemaFiles (a : Mock.Adapter) : list string := [].
Definition mock_IsAvailable (a : Mock.Adapter) : bool := true.
Definition mock_Connect (a : Mock.Adapter) : option error := None.
Definition mock_HealthCheck (a : Mock.Adapter) : option error := None.
Definition mock_Close (a : Mock.Adapter) : option error := None.

Definition AnyName (d : AnyAdapter) : string :=
  match d with
  | StarRocksDS a => starrocks_Name a | ClickHouseDS a => clickhouse_Name a
  | PrometheusDS a => prometheus_Name a | MockDS a => mock_Name a
  end.
Definition AnyType (d : AnyAdapter) : string :=
  match d with
  | StarRocksDS a => starrocks_Type a | ClickHouseDS a => clickhouse_Type a
  | PrometheusDS a => prometheus_Type a | MockDS a => mock_Type a
  end.
Definition AnyIsAvailable (d : AnyAdapter) : bool :=
  match d with
  | StarRocksDS a => StarRocks.IsAvailable a | ClickHouseDS a => clickhouse_IsAvailable a
  | PrometheusDS a => prometheus_IsAvailable a | MockDS a => mock_IsAvailable a
  end.

(** ** The factories *)

Section Factories.
Context {FT : FloatText} {UT : UnicodeTables} {GF : GoFmt}.
Definition starrocks_Factory (name : string) (config : DataSourceConfig) : result AnyAdapter :=
  StarRocksDS <$> StarRocks.NewAdapter name config.
Definition clickhouse_Factory (name : string) (config : DataSourceConfig) : result AnyAdapter :=
  ClickHouseDS <$> ClickHouseConn.NewAdapter name config.
Definition prometheus_Factory (url_ok : string -> bool) (name : string) (config : DataSourceConfig) : result AnyAdapter :=
  PrometheusDS <$> Prometheus.NewAdapter url_ok name config.
Definition mock_Factory (name : string) (config : DataSourceConfig) : result AnyAdapter := Ok (MockDS (Mock.Factory name config)).
End Factories.

(** ** mock.go *)

Section MockDataSource.
Context {W : Type}.
Record MockDataSource := {
  NameVal : string; TypeVal : string; AvailableVal : bool; SchemaFilesVal : list string;
  ConnectFunc : option (W -> option error * W);
  ExecuteFunc : option (QueryRequest -> W -> result QueryResult * W);
  HealthCheckFunc : option (W -> option error * W);
  CloseFunc : option (W -> option error * W);
}.
Definition delegate {A} (f : option (W -> A * W)) (none : A) (w : W) : A * W :=
  match f with Some f => f w | None => (none, w) end.
Definition mds_Connect (m : MockDataSource) : W -> option error * W := delegate (ConnectFunc m) None.
Definition mds_Execute (m : MockDataSource) (query : QueryRequest) : W -> result QueryResult * W :=
  delegate ((fun f => f query) <$> ExecuteFunc m) (Ok {| Data := []; TotalCount := None; Warnings := [] |}).
Definition mds_HealthCheck (m : MockDataSource) : W -> option error * W := delegate (HealthCheckFunc m) None.
Definition mds_Close (m : MockDataSource) : W -> option error * W := delegate (CloseFunc m) None.
Definition mds_Name (m : MockDataSource) : string := NameVal m.
Definition mds_Type (m : MockDataSource) : string := TypeVal m.
Definition mds_IsAvailable (m : MockDataSource) : bool := AvailableVal m.
Definition mds_SchemaFiles (m : MockDataSource) : list string := SchemaFilesVal m.

Definition with_source (m : MockDataSource) (r : option error * W) : option error * MockDataSource * W := (r.1, m, r.2).
#[export] Instance mds_ops : DataSourceOps MockDataSource W := {|
  ds_Connect m w := with_source m (mds_Connect m w);
  ds_Execute m q w := let r := mds_Execute m q w in (r.1, m, r.2);
  ds_HealthCheck m w := with_source m (mds_HealthCheck m w);
  ds_Close m w := with_source m (mds_Close m w);
  ds_Writable _ := false;
|}.
End MockDataSource.
Arguments MockDataSource W : clear implicits.

(** ** Theorems *)

Section Facts.
Context {FT : FloatText} {UT : UnicodeTables} {GF : GoFmt} {W : Type}.
#[local] Set Default Proof Using "Type".

(** the names of the data sources.  A data source that the factory of a type in the program's
    registry makes has that type and the name it was made with, and only the one of the
    development mode counts as available before it is connected. *)
Theorem factories_name_sources url_ok typ factory name config d :
  (typ, factory) ∈ factories url_ok -> factory name config = Ok d ->
  AnyType d = typ /\ AnyName d = name /\ AnyIsAvailable d = bool_decide (typ = "mock").
Proof.
  unfold factories. rewrite !elem_of_cons, elem_of_nil. intros Hin H.
  destruct Hin as [E|[E|[E|[E|[]]]]]; injection E as -> ->; cbn in H;
    try (unfold StarRocks.NewAdapter, Prometheus.NewAdapter, ClickHouseConn.NewAdapter in H; cbn in H;
         repeat case_match; simplify_eq/=; done).
Qed.

(** The test data source of a test that sets no function does nothing and never fails. *)
Lemma unset_mock_succeeds (m : MockDataSource W) q w :
  ConnectFunc m = None -> ExecuteFunc m = None -> HealthCheckFunc m = None -> CloseFunc m = None ->
  ds_Connect m w = (None, m, w) /\ ds_HealthCheck m w = (None, m, w) /\ ds_Close m w = (None, m, w)
  /\ ds_Execute m q w = (Ok {| Data := []; TotalCount := None; Warnings := [] |}, m, w).
Proof.
  intros H1 H2 H3 H4. cbn. unfold with_source, mds_Connect, mds_HealthCheck, mds_Close, mds_Execute.
  by rewrite H1, H2, H3, H4.
Qed.
End Facts.

#[local] Existing Instances FuncMap.demo_fmt PrometheusFacts.demo_text.
#[local] Instance no_letters : UnicodeTables := {| uni_to_upper s := s; uni_to_lower s := s |}.
(** A ClickHouse data source of a configuration with one table. *)
Lemma factories_name_sources_witness :
  exists d, clickhouse_Factory "ch" demo_config = Ok d
    /\ AnyType d = "clickhouse" /\ AnyName d = "ch" /\ AnyIsAvailable d = bool_decide ("clickhouse" = "mock").
Proof.
  eexists. split; [vm_compute; reflexivity|].
  refine (factories_name_sources (fun _ => true) "clickhouse" clickhouse_Factory "ch" demo_config _ _ _).
  - unfold factories. do 3 apply list_elem_of_further. apply list_elem_of_here.
  - vm_compute. reflexivity.
Defined.
