(* ===== verification/Playground.v ===== *)
(** * internal/server/playground.go: the page of the development mode

    The page is an html/template the package embeds; what executing it writes, and the error it
    ends with, are an argument.  The text of the tabs is inserted as a [template.JS], which the
    template does not escape. *)
From S2P Require Import Prelude GoStrings Values GoConv FuncMap Json.
From S2P Require Import Auth Http.
From S2P Require TemplateParams TemplateEngine.

Record PlaygroundTab := { tab_Name : string; tab_Query : string }.
Record playgroundConfig := { Endpoint : string; TabsJSON : string }.

Definition DefaultPlaygroundTabs : list PlaygroundTab :=
  [{| tab_Name := "查询 demo_users"; tab_Query := quoted
"query DemoUsers {
  starrocks(table: `demo_users`, fields: [`id`, `name`, `email`, `role`]) {
    edges {
      node {
        data
      }
    }
    totalCount
  }
}" |};
   {| tab_Name := "分页 demo_orders"; tab_Query := quoted
"query DemoOrdersPaginated {
  starrocks(table: `demo_orders`, fields: [`id`, `user_id`, `amount`, `status`], limit: 5, offset: 0) {
    edges {
      node {
        data
      }
    }
    totalCount
    pageInfo {
      hasNextPage
    }
  }
}" |};
   {| tab_Name := "Schema Introspection"; tab_Query :=
"query SchemaIntrospection {
  __schema {
    queryType { name }
    types {
      name
      kind
      fields { name }
    }
  }
}" |}].

Section Playground.
Context {FT : FloatText} {JT : JsonText} {S : Type}.
(** [graphiqlTab]. *)
Definition graphiql_tab (t : PlaygroundTab) : list (string * GoVal) := [("query", VString (tab_Query t))].
Definition tabs_json (tabs : list PlaygroundTab) : string :=
  match Marshal_rows (map graphiql_tab tabs) with Ok s => s | Err _ => "[]" end.
Definition CustomPlaygroundHandler (Execute : playgroundConfig -> string * option error) (endpoint : string) (tabs : list PlaygroundTab)
    : Handler S :=
  let cfg := {| Endpoint := endpoint; TabsJSON := tabs_json tabs |} in
  fun _ h s => ({| Status := 200; RespHeaders := set_header "Content-Type" "text/html; charset=utf-8" h; RespBody := (Execute cfg).1 |}, s).
End Playground.

(** ** Theorems *)

Section Facts.
Context {FT : FloatText} {FTL : FloatTextLaws FT} {JT : JsonText}.
#[local] Set Default Proof Using "Type".

(** A byte that can end a script element or start a comment or a reference. *)
Definition markup (c : ascii) : bool := Ascii.eqb c "<" || Ascii.eqb c ">" || Ascii.eqb c "&".
Notation plain_text := (str_forallb (fun c => negb (markup c))).
Lemma json_byte_plain c : plain_text (json_byte c) = true.
Proof. destruct c as [[] [] [] [] [] [] [] []]; vm_compute; reflexivity. Qed.
Lemma json_string_plain s : plain_text (json_string s) = true.
Proof.
  unfold json_string. cbn [str_forallb]. rewrite str_forallb_app, andb_true_r. cbn.
  induction s as [|c s IH]; [done|]. cbn [json_bytes]. by rewrite str_forallb_app, json_byte_plain.
Qed.
Definition tab_text (t : PlaygroundTab) : string := "{" +:+ (json_string "query" +:+ ":" +:+ json_string (tab_Query t)) +:+ "}".
Lemma tab_row t : json_row (graphiql_tab t) = Ok (tab_text t).
Proof. reflexivity. Qed.
Lemma tab_plain t : plain_text (tab_text t) = true.
Proof. unfold tab_text. rewrite !str_forallb_app, !json_string_plain. reflexivity. Qed.

(** the tabs of the playground.  Whatever the queries are, the text inserted into the script of
    the page has no byte that could end the script, and a reader of JSON gets the queries back
    in their order. *)
Theorem playground_tabs_confined tabs :
  plain_text (tabs_json tabs) = true /\ Unmarshal_rows (tabs_json tabs) = Ok (map graphiql_tab tabs).
Proof using FTL.
  assert (Hp : Forall (fun row => NoDup row.*1 /\ Forall (fun kv => plain kv.2) row) (map graphiql_tab tabs)).
  { apply Forall_fmap, Forall_true. intros t. split; [apply NoDup_singleton|by apply Forall_singleton]. }
  destruct (Marshal_plain (map graphiql_tab tabs)) as [text Ht]; [eapply Forall_impl; [exact Hp|by intros ? []]|].
  unfold tabs_json. rewrite Ht. split.
  - revert Ht. unfold Marshal_rows. intros (rs & Hrs & [= <-])%bind_Ok. cbn [str_forallb String.append]. rewrite str_forallb_app, andb_true_r. cbn.
    apply str_forallb_join; [done|]. apply mapR_Ok in Hrs. rewrite Forall2_fmap_l in Hrs. clear -Hrs.
    induction Hrs as [|t r tabs rs E _ IH]; constructor; [|exact IH]. change (json_row (graphiql_tab t) = Ok r) in E. rewrite tab_row in E. apply Ok_inj in E as <-. apply tab_plain.
  - destruct (rows_roundtrip _ _ Hp Ht) as [-> _]. f_equal. rewrite map_map. reflexivity.
Qed.
End Facts.

#[local] Instance demo_json : JsonText := {| json_float _ := "0"; json_other _ := Err ErrEOF |}.
(** A query that tries to leave the script. *)
Lemma playground_tabs_confined_witness :
  let tabs := [{| tab_Name := "x"; tab_Query := "</script><script>alert(1)" |}] in
  str_forallb (fun c => negb (markup c)) (tabs_json tabs) = true
  /\ Unmarshal_rows (FT := TemplateParams.demo_text) (tabs_json tabs) = Ok (map graphiql_tab tabs).
Proof. exact (playground_tabs_confined (FTL := TemplateEngine.demo_text_laws) [{| tab_Name := "x"; tab_Query := "</script><script>alert(1)" |}]). Defined.
