(* ===== verification/Parallel.v ===== *)
(** * internal/graphql/resolver/query.go: several data sources at once

    [executeParallel] runs each query in a goroutine of its own and collects the results in the
    order the goroutines take the mutex.  [run] is the manager's [ExecuteWithRetry], on a state
    of the outside world.  Only tests call it: the queries of a document are the fields that
    the executor dispatches ([GraphqlOutput]). *)
From S2P Require Import Prelude GoStrings Values DataSource.

(** [fieldRequested]; the names are what [graphql.CollectAllFields] finds in the selection. *)
Definition fieldRequested (CollectAllFields : list string) (fieldName : string) : bool :=
  existsb (fun f => String.eqb f fieldName) CollectAllFields.
Lemma fieldRequested_iff fields name : fieldRequested fields name = true <-> name ∈ fields.
Proof.
  unfold fieldRequested. rewrite existsb_exists. split.
  - by intros (x & Hx%list_elem_of_In & ->%String.eqb_eq).
  - intros H. exists name. split; [by apply list_elem_of_In|apply String.eqb_refl].
Qed.

Section Parallel.
Context {W : Type}.
Variable run : string -> QueryRequest -> W -> result QueryResult * W.
#[local] Set Default Proof Using "Type".

Record queryResult := { dsName : string; queryOutcome : result QueryResult }.
Notation query := (string * QueryRequest)%type.

(** The goroutines that have not called the manager, those that have and do not hold the mutex
    yet, and what is collected. *)
Record Goroutines := { waiting : list query; answered : list queryResult; results : list queryResult; outside : W }.
Inductive gstep : Goroutines -> Goroutines -> Prop :=
  | g_execute l1 q l2 d rs w r w' :
      run q.1 q.2 w = (r, w') ->
      gstep {| waiting := l1 ++ q :: l2; answered := d; results := rs; outside := w |}
            {| waiting := l1 ++ l2; answered := {| dsName := q.1; queryOutcome := r |} :: d; results := rs; outside := w' |}
  | g_collect l d1 x d2 rs w :
      gstep {| waiting := l; answered := d1 ++ x :: d2; results := rs; outside := w |}
            {| waiting := l; answered := d1 ++ d2; results := rs ++ [x]; outside := w |}.
(** The counter of the wait group. *)
Definition counter (g : Goroutines) : nat := length (waiting g) + length (answered g).
Definition spawn (queries : gmap string QueryRequest) (w : W) : Goroutines :=
  {| waiting := map_to_list queries; answered := []; results := []; outside := w |}.
(** [wg.Wait()] returns when the counter is zero. *)
Definition executeParallel (queries : gmap string QueryRequest) (w : W) (rs : list queryResult) (w' : W) : Prop :=
  exists g, rtc gstep (spawn queries w) g /\ counter g = O /\ results g = rs /\ outside g = w'.

(** ** Theorems *)

(** A result is what the manager answered to that query, in some state of the outside world. *)
Definition own_answer (queries : gmap string QueryRequest) (x : queryResult) : Prop :=
  exists req w, queries !! dsName x = Some req /\ queryOutcome x = (run (dsName x) req w).1.
Record parallel_inv (queries : gmap string QueryRequest) (g : Goroutines) : Prop := {
  pi_names : (waiting g).*1 ++ map dsName (answered g) ++ map dsName (results g) ≡ₚ (map_to_list queries).*1;
  pi_waiting : Forall (fun q => queries !! q.1 = Some q.2) (waiting g);
  pi_answers : Forall (own_answer queries) (answered g ++ results g);
}.
Lemma spawn_inv queries w : parallel_inv queries (spawn queries w).
Proof.
  split; cbn; [by rewrite !app_nil_r| |constructor].
  apply Forall_forall. intros [k v] H. by apply elem_of_map_to_list in H.
Qed.
Lemma gstep_inv queries g g' : gstep g g' -> parallel_inv queries g -> parallel_inv queries g'.
Proof.
  intros Hs [Hn Hw Ha]. destruct Hs as [l1 q l2 d rs w r w' Hr|l d1 x d2 rs w]; cbn in *.
  - apply Forall_app in Hw as [Hw1 Hw]. apply Forall_cons in Hw as [Hq Hw2]. split; cbn.
    + rewrite <- Hn, !fmap_app. cbn. solve_Permutation.
    + by apply Forall_app.
    + constructor; [|exact Ha]. exists q.2, w. cbn. by rewrite Hr.
  - split; cbn; [|done|].
    + rewrite <- Hn, !map_app. cbn. solve_Permutation.
    + eapply Permutation_Forall; [|exact Ha]. solve_Permutation.
Qed.
Lemma gsteps_inv queries g g' : rtc gstep g g' -> parallel_inv queries g -> parallel_inv queries g'.
Proof. induction 1; eauto using gstep_inv. Qed.

(** Each goroutine takes two steps. *)
Definition steps_left (g : Goroutines) : nat := 2 * length (waiting g) + length (answered g).
Lemma gstep_decreases g g' : gstep g g' -> steps_left g = S (steps_left g').
Proof. destruct 1; unfold steps_left; cbn; rewrite !length_app; cbn; lia. Qed.
Lemma gstep_possible g : counter g <> O -> exists g', gstep g g'.
Proof.
  destruct g as [[|q l] [|x d] rs w]; cbn; intros H; [done|..].
  - eexists. apply (g_collect [] []).
  - destruct (run q.1 q.2 w) as [r w'] eqn:E. eexists. by apply (g_execute [] q l).
  - eexists. apply (g_collect (q :: l) []).
Qed.

(** queries in parallel.  Whatever the scheduler does, the run ends after two steps of each
    goroutine and cannot get stuck before; then there is exactly one result for each data source,
    and it is what the manager answered for that data source, also when it failed for others. *)
Theorem parallel_isolated queries w n g :
  nsteps gstep n (spawn queries w) g ->
  (n <= 2 * size queries)%nat
  /\ ((exists g', gstep g g') <-> (n < 2 * size queries)%nat)
  /\ (n = (2 * size queries)%nat -> executeParallel queries w (results g) (outside g)
        /\ map dsName (results g) ≡ₚ (map_to_list queries).*1 /\ Forall (own_answer queries) (results g)).
Proof.
  intros Hn. assert (Hl : (steps_left g + n = 2 * size queries)%nat).
  { assert (E : forall m a b, nsteps gstep m a b -> (steps_left b + m = steps_left a)%nat).
    { induction 1 as [|m a b c Hs _ IH]; [lia|]. apply gstep_decreases in Hs. lia. }
    rewrite (E _ _ _ Hn). unfold steps_left, spawn. cbn. rewrite length_map_to_list. lia. }
  assert (Hc : counter g = O <-> steps_left g = O) by (unfold counter, steps_left; lia).
  split; [lia|]. split; [split|].
  - intros [g' Hs%gstep_decreases]. lia.
  - intros H. apply gstep_possible. rewrite Hc. lia.
  - intros ->. assert (H0 : counter g = O) by (apply Hc; lia).
    assert (Hr : rtc gstep (spawn queries w) g) by (apply rtc_nsteps; eauto).
    split; [by exists g|]. destruct (gsteps_inv _ _ _ Hr (spawn_inv queries w)) as [Hp _ Ha].
    unfold counter in H0. destruct g as [[|q l] [|x d] rs w']; [|done..]. by split.
Qed.
End Parallel.

(** ** Concrete instances *)

Definition demo_request : QueryRequest :=
  {| Fields := []; Filters := []; OrderBy := []; Pagination := None; NeedCount := false; ReqOptions := None |}.
Definition demo_run (ds : string) (_ : QueryRequest) (n : Z) : result QueryResult * Z :=
  (if String.eqb ds "down" then Err ErrEOF else Ok {| Data := []; TotalCount := Some n; Warnings := [] |}, n + 1).
(** One data source fails, the other one answers. *)
Lemma parallel_isolated_witness : exists g,
  nsteps (gstep demo_run) 4 (spawn (<["down" := demo_request]> (<["up" := demo_request]> ∅)) 0) g
  /\ executeParallel demo_run (<["down" := demo_request]> (<["up" := demo_request]> ∅)) 0 (results g) (outside g)
  /\ length (results g) = 2%nat.
Proof.
  set (queries := <["down" := demo_request]> (<["up" := demo_request]> ∅)).
  assert (E : exists g, nsteps (gstep demo_run) 4 (spawn queries 0) g /\ length (results g) = 2%nat).
  { unfold spawn. set (l := map_to_list queries). vm_compute in l. subst l.
    eexists. split; [|shelve]. eapply nsteps_l; [by apply (g_execute demo_run [])|]. cbn [app].
    eapply nsteps_l; [by apply (g_collect demo_run _ [])|]. cbn [app]. eapply nsteps_l; [by apply (g_execute demo_run [])|].
    cbn [app]. eapply nsteps_l; [by apply (g_collect demo_run _ [])|]. apply nsteps_O. Unshelve. reflexivity. }
  destruct E as (g & Hg & Hl). exists g. split; [exact Hg|]. split; [|exact Hl].
  refine (proj1 (proj2 (proj2 (parallel_isolated demo_run queries 0 4 g Hg)) _)). reflexivity.
Defined.
