(* ===== verification/ClientIp.v ===== *)
(** * Whose request it is: the client address behind trusted proxies

    What [ExtractClientIP] of [Auth] finds in the X-Forwarded-For lines of a request that a chain
    of proxies has passed on. *)
From S2P Require Import Prelude GoStrings Values Net Auth PrometheusFacts.

(** ** What proxies write *)

(** The X-Forwarded-For lines of a request, in order; [Header.Get] answers the first.  A proxy
    that passes a request on writes down the address it was called from: it joins the lines it
    received and appends the address to them, or adds a line of its own. *)
Inductive Proxy := Joins | Adds.
Definition forward (lines : list string) (hop : Proxy * string) : list string :=
  match hop.1 with
  | Joins => [join ", " (lines ++ [hop.2])]
  | Adds => lines ++ [hop.2]
  end.
Definition header_get (lines : list string) : string := default EmptyString (head lines).
Definition joins (hop : Proxy * string) : bool := match hop.1 with Joins => true | Adds => false end.
Definition address (ip : string) : bool := negb (String.eqb ip EmptyString) && str_forallb addr_char ip.

(** ** Lemmas *)

Lemma trusted_address l ip : isTrusted l ip = true -> address ip = true.
Proof.
  unfold isTrusted. intros H. destruct (ParseIP ip) as [x|] eqn:E; [|done]. apply ParseIP_chars in E as [Hne Hc].
  unfold address. rewrite Hc. by destruct (String.eqb_spec ip EmptyString).
Qed.
Lemma split_byte_cat c p q : split_byte c (p +:+ String c q) = split_byte c p ++ split_byte c q.
Proof.
  induction p as [|a p IH]; simpl; [by rewrite Ascii.eqb_refl|]. rewrite IH. destruct (Ascii.eqb a c); [done|].
  pose proof (split_byte_nonempty c p). by destruct (split_byte c p).
Qed.
Lemma trim_one_space ip : str_forallb visible ip = true -> trim_space (" " +:+ ip) = ip.
Proof.
  intros H. rewrite <- (trim_space_visible ip H) at 2. unfold trim_space. by f_equal.
Qed.

Section Header.
Variable trusted : string -> bool.

(** What the loop of [ExtractClientIP] finds in a header. *)
Definition found (xff : string) : option string := first_untrusted trusted (reverse (split_byte ","%char xff)).

Lemma address_parts ip : address ip = true -> ip <> EmptyString /\ str_forallb visible ip = true
  /\ str_forallb (fun a => negb (Ascii.eqb a ","%char)) ip = true.
Proof.
  unfold address. intros [Hne H]%andb_true_iff. apply negb_true_iff, String.eqb_neq in Hne.
  split_and!; [done|..]; (eapply str_forallb_impl; [|exact H]); intros c [? ?]%andb_true_iff; done.
Qed.
Lemma found_address ip : address ip = true -> found ip = if trusted ip then None else Some ip.
Proof.
  intros (Hne & Hv & Hc)%address_parts. apply String.eqb_neq in Hne. unfold found.
  rewrite split_byte_whole by done. simpl. by rewrite trim_space_visible, Hne by done.
Qed.
Lemma first_untrusted_app xs ys : first_untrusted trusted (xs ++ ys)
  = match first_untrusted trusted xs with Some ip => Some ip | None => first_untrusted trusted ys end.
Proof. induction xs as [|x xs IH]; [done|]. simpl. by repeat case_match. Qed.
Lemma found_space y : found (" " +:+ y) = found y.
Proof.
  unfold found. change (" " +:+ y) with (String " "%char y). cbn [split_byte Ascii.eqb Bool.eqb].
  destruct (split_byte ","%char y) as [|p ps]; [done|]. rewrite !reverse_cons, !first_untrusted_app. cbn [first_untrusted].
  by replace (trim_space (String " " p)) with (trim_space p) by (unfold trim_space; by f_equal).
Qed.
(** What is found in a joined header is what is found in the last of its lines that has something. *)
Lemma found_cat x y : found (x +:+ ", " +:+ y) = match found y with Some ip => Some ip | None => found x end.
Proof.
  rewrite <- (found_space y). unfold found. change (", " +:+ y) with (String ","%char (" " +:+ y)).
  by rewrite split_byte_cat, reverse_app, first_untrusted_app.
Qed.
Fixpoint found_last (lines : list string) : option string :=
  match lines with
  | [] => None
  | x :: lines' => match found_last lines' with Some ip => Some ip | None => found x end
  end.
Lemma found_join lines : found (join ", " lines) = found_last lines.
Proof.
  induction lines as [|x [|y lines] IH]; [done..|]. rewrite join_cons, found_cat, IH. done.
Qed.
Lemma found_last_app xs ys : found_last (xs ++ ys) = match found_last ys with Some ip => Some ip | None => found_last xs end.
Proof. induction xs as [|x xs IH]; simpl; [by destruct (found_last ys)|]. rewrite IH. by destruct (found_last ys). Qed.

(** The lines behind the proxies: those of the client as long as none was joined, then one in
    which the client's address is found, then lines in which nothing is. *)
Definition behind (client : list string) (real : string) (lines : list string) : Prop :=
  exists j hs, lines = client ++ j :: hs /\ found j = Some real /\ Forall (fun h => found h = None) hs.
Lemma behind_last client real lines : behind client real lines -> found_last lines = Some real.
Proof.
  intros (j & hs & -> & Hj & Hh). rewrite found_last_app. cbn [found_last].
  assert (found_last hs = None) as -> by (induction Hh as [|h hs H _ IH]; [done|]; simpl; by rewrite IH). by rewrite Hj.
Qed.
Lemma behind_forward client real lines hop : behind client real lines -> found hop.2 = None ->
  behind (if joins hop then [] else client) real (forward lines hop).
Proof.
  intros Hb Hn. destruct hop as [[] h]; cbn [joins forward fst snd] in *.
  - exists (join ", " (lines ++ [h])), []. split; [done|]. split; [|done].
    rewrite found_join, found_last_app. cbn [found_last]. rewrite Hn. by eapply behind_last.
  - destruct Hb as (j & hs & -> & Hj & Hh). exists j, (hs ++ [h]). split; [by rewrite <- app_assoc|].
    split; [done|]. apply Forall_app. by split; [|constructor].
Qed.
Lemma behind_chain real hops : Forall (fun hop => found hop.2 = None) hops -> forall client lines,
  behind client real lines -> behind (if existsb joins hops then [] else client) real (foldl forward lines hops).
Proof.
  induction 1 as [|hop hops Hn _ IH]; intros client lines Hb; [done|]. simpl.
  specialize (IH _ _ (behind_forward _ _ _ _ Hb Hn)). by destruct (joins hop), (existsb joins hops).
Qed.
(** The first line behind the proxies. *)
Lemma found_behind lines k real hops : found real = Some real -> Forall (fun hop => found hop.2 = None) hops ->
  found (header_get (foldl forward lines ((k, real) :: hops)))
  = match lines with
    | line :: _ => if existsb joins ((k, real) :: hops) then Some real else found line
    | [] => Some real
    end.
Proof.
  intros Hr Hh. simpl foldl.
  assert (H0 : behind (if joins (k, real) then [] else lines) real (forward lines (k, real))).
  { destruct k; cbn.
    - exists (join ", " (lines ++ [real])), []. split; [done|]. split; [|done]. rewrite found_join, found_last_app. cbn. by rewrite Hr.
    - by exists real, []. }
  destruct (behind_chain _ _ Hh _ _ H0) as (j & hs & -> & Hj & _). cbn [existsb].
  destruct (joins (k, real)), (existsb joins hops), lines as [|line lines]; cbn; done.
Qed.
End Header.

(** ** The theorem *)

(** C14: the address a request is counted and banned under.  When the connection does not come
    from a trusted proxy, it is the address of the connection, whatever the headers say.  When it
    does, and a chain of trusted proxies passed the request of the client at [real] on, each one
    recording whom it was called by, it is the client's address, whatever X-Forwarded-For lines
    the client sent, if the client sent none or one of the proxies joins the lines.  But when all
    of them add a line of their own, the client's first line alone decides: it can write any
    address it likes. *)
Theorem client_ip_behind_proxies (l : AuthFailureLimiter) (r : Request) (peer port : string) :
  RemoteAddr r = JoinHostPort peer port -> bracket_free peer = true -> str_forallb is_digit port = true ->
  (isTrusted l peer = false -> ExtractClientIP l r = peer)
  /\ (forall sent k real hops,
        isTrusted l peer = true -> Forall (fun hop => isTrusted l hop.2 = true) hops ->
        address real = true -> isTrusted l real = false ->
        Header r "X-Forwarded-For" = header_get (foldl forward sent ((k, real) :: hops)) ->
        (sent = [] \/ existsb joins ((k, real) :: hops) = true -> ExtractClientIP l r = real)
        /\ (forall line rest, sent = line :: rest -> existsb joins ((k, real) :: hops) = false ->
             ExtractClientIP l r = default peer (found (isTrusted l) line)
             /\ (address line = true -> isTrusted l line = false -> ExtractClientIP l r = line))).
Proof.
  intros Hr Hb Hp. unfold ExtractClientIP, stripPort. rewrite Hr, split_join_host by done. cbn [default from_option id]. split.
  - intros ->. by destruct (_ =? 0)%nat.
  - intros sent k real hops Ht Hh Ha Hu Hx.
    assert (E : found (isTrusted l) (Header r "X-Forwarded-For")
      = match sent with line :: _ => if existsb joins ((k, real) :: hops) then Some real else found (isTrusted l) line | [] => Some real end).
    { rewrite Hx. apply found_behind; [by rewrite found_address, Hu|]. eapply Forall_impl; [exact Hh|]. intros hop Hhop.
      by rewrite found_address, Hhop by exact (trusted_address _ _ Hhop). }
    assert (length (trustedProxies l) =? 0 = false)%nat as ->.
    { unfold isTrusted in Ht. destruct (trustedProxies l); [|done]. by destruct (ParseIP peer). }
    rewrite Ht. cbn [negb]. fold (found (isTrusted l) (Header r "X-Forwarded-For")).
    assert (Hd : (if String.eqb (Header r "X-Forwarded-For") EmptyString then peer
                  else default peer (found (isTrusted l) (Header r "X-Forwarded-For")))
                 = default peer (found (isTrusted l) (Header r "X-Forwarded-For"))).
    { by destruct (String.eqb_spec (Header r "X-Forwarded-For") EmptyString) as [->|_]. }
    rewrite Hd, E. split.
    + intros [->| ->]; [done|]. by destruct sent.
    + intros line rest -> ->. split; [done|]. intros Hl Hlu. by rewrite found_address, Hlu by done.
Qed.
(** What the client sent looks like a chain of its own. *)
Definition demo_request (lines : list string) : Request :=
  {| Path := "/graphql"; HttpMethod := "POST"; RemoteAddr := "[fd00::2]:41000";
     Header k := if String.eqb k "X-Forwarded-For" then header_get lines else EmptyString;
     Identity := None; BatchCount := None |}.
Definition demo_proxied (cidrs : list string) : AuthFailureLimiter :=
  {| failures := ∅; threshold := 3; window := 60 * second; banDur := 600 * second;
     trustedProxies := default [] (mapM ParseCIDR cidrs) |}.
Definition demo_joined : list string := ["198.51.100.1, 10.9.9.9, 203.0.113.9, 10.1.0.7"].
Definition demo_added : list string := ["198.51.100.1"; "203.0.113.9"; "10.1.0.7"].
Lemma client_ip_behind_proxies_witness :
  ExtractClientIP (demo_proxied ["10.0.0.0/8"; "fd00::/8"]) (demo_request demo_joined) = "203.0.113.9"
  /\ ExtractClientIP (demo_proxied ["10.0.0.0/8"; "fd00::/8"]) (demo_request demo_added) = "198.51.100.1"
  /\ ExtractClientIP (demo_proxied ["10.0.0.0/8"]) (demo_request demo_joined) = "fd00::2".
Proof.
  split; [|split].
  - refine (proj1 (proj2 (client_ip_behind_proxies (demo_proxied ["10.0.0.0/8"; "fd00::/8"]) (demo_request demo_joined) "fd00::2" "41000" _ _ _)
      ["198.51.100.1, 10.9.9.9"] Joins "203.0.113.9" [(Joins, "10.1.0.7")] _ _ _ _ _) (or_intror _)); try (vm_compute; reflexivity).
    by repeat constructor.
  - refine (proj2 (proj2 (proj2 (client_ip_behind_proxies (demo_proxied ["10.0.0.0/8"; "fd00::/8"]) (demo_request demo_added) "fd00::2" "41000" _ _ _)
      ["198.51.100.1"] Adds "203.0.113.9" [(Adds, "10.1.0.7")] _ _ _ _ _) "198.51.100.1" [] _ _) _ _); try (vm_compute; reflexivity).
    by repeat constructor.
  - apply (client_ip_behind_proxies _ (demo_request demo_joined) "fd00::2" "41000"); vm_compute; reflexivity.
Defined.
